(* ===== verification/_CoqProject ===== *)
-Q . S2P
Prelude.v
Errors.v
Testing.v
Entity.v
Trace.v
Aggregate.v
Aspect.v
Bus.v
EventBus.v
EventStore.v
Repository.v
JsonHelpers.v
EntityJson.v
Job.v
JobShutdown.v
Builtin.v
StdLogger.v
Relationship.v
NotifyingBus.v
Lint.v
LintTypes.v
LintDriver.v
Pg.v
EventLog.v
ContractEvents.v
SqlQuery.v
PgTrace.v
PgEventStore.v
PgRepository.v
ContractRepos.v
PgJob.v
ContractJobs.v
Order.v
Inventory.v
OrderPg.v
Wire.v
Stats.v
Messages.v
PgMessages.v
Schema.v
Dashboard.v
ContractTraces.v
TypeRegistry.v
Viewer.v
App.v
ContractInfra.v
Shop.v
ShopWiring.v
LiveReload.v
ShopInfra.v
Pages.v
TraceExample.v
CallTrace.v
Examples.v
Version.v
