(* ===== verification/Prelude.v ===== *)
(** * DDD-QCE: a model of the Go framework and what is proved about it

    DDD-QCE (module [github.com/ddd-qce/core]) is a framework for domain-driven
    design in Go: entities and event-sourced aggregates, command, query and
    event buses whose calls run inside a chain of aspects, event stores and
    repositories with optimistic locking, background jobs, traces, a registry of
    relationships between messages and handlers, and linters for the package
    convention. This library models the framework's own logic, operation by
    operation, and proves what each part promises.

    ** How the parts interact

    A call of a bus ([Bus.execute]) finds the invoker of the message's dynamic
    type and runs it inside the aspect chain ([Aspect.run_aspects]); the built-in
    aspects ([Builtin]) open a transaction, record a span in a trace store
    ([Trace]), measure and persist. A handler loads an aggregate from a
    repository ([Repository]), applies events to it ([Aggregate]) and saves it;
    its events go to the event store ([EventStore]) and to the subscribers of the
    event bus ([EventBus]). A job manager ([Job]) runs commands in the background
    through a command bus, in the trace of the submitter. Wrappers of the buses
    ([Relationship]) record who handles what and draw the graph. The linters
    ([Lint]) check the package convention that the registry infers domains from.
    Errors of every part ([Errors]) are classified through wrapping. The
    application container ([App]) puts a backend, the chain with the default
    aspects and the buses together and shuts them down. Observers read what the
    aspects record ([Stats], [Messages]) and what the buses know ([TypeRegistry]), and show it
    ([Dashboard], [Viewer]) with the schema of the database ([Schema]).
    The example application is a client of all this: its domains ([Order], [Inventory]) and their stores on
    PostgreSQL ([OrderPg]) are registered on the buses ([Wire]), its infrastructure ([ShopInfra]) puts the
    application together from a configuration, and its pages ([Shop], [ShopWiring], [LiveReload]) talk to it over
    HTTP. The suites that the team runs against every implementation of an interface are modelled too
    ([Testing], [ContractEvents], [ContractJobs], [ContractRepos], [ContractTraces], [ContractInfra]).

    ** Files

    - [Prelude] (this file): 64-bit integers with wrap-around, slices, maps with
      zero values, strings, panics ([outcome]) and world-passing computations
      ([GoM]), lenses on the world ([Has], [HasLaws]), the clock and the source of
      identities ([Clock], [IdGen]), [sort.Slice] as an interface with its
      documented laws ([SortSlice], [SortSliceLaws]) and an instance of it, counting
      lemmas, hint databases [go] and [go_rw], the tactic [unfold_go].
    - [Errors]: [src/error], [src/infra/repository/error.go] and the error values
      of [errors] and [fmt] as one inductive type; [errors.Is], [errors.As],
      [errors.Join], the messages.
    - [Testing]: [testing.T] as a log of failures, subtests, [Fatal] as an early return.
    - [Entity]: [src/domain/entity], [src/domain/valueobject]; [EntityJson]: their JSON methods and those of an
      aggregate's root, over JSON values.
    - [Trace]: [src/trace]: spans, the request context, the in-memory store.
    - [Aggregate]: [src/cqrs/event/event.go], [src/domain/event],
      [src/domain/aggregate/aggregate.go]. The interface [AggregateRef] has the
      class of laws [AggregateRefLaws]; every theorem about aggregates and
      repositories is proved against it.
    - [Aspect]: [src/aspect/chain.go].
    - [Bus]: [src/cqrs/impl/memory] (bus_core, bus_helpers, command_bus, query_bus),
      [src/cqrs/command], [src/cqrs/query]. Module [Shutdown] is the shutdown
      protocol as a step relation.
    - [EventBus]: [src/cqrs/impl/memory/event_bus.go]; [pstep] interleaves the
      goroutines of one publication.
    - [EventStore]: [src/cqrs/impl/memory/event_store.go] over a heap of events.
    - [Repository]: [src/infra/repository/memory/repository.go],
      [src/domain/repository].
    - [Job]: [src/job/core/job.go], [src/job/memory]. Module [Concurrency]
      interleaves the executing goroutine with callers of [Cancel].
    - [JobShutdown]: [src/job/memory/job_manager.go] again, as a pool of goroutines: submissions, retries,
      cancellations, recovered jobs and shutdowns step by step over the fields that they share.
    - [Builtin]: [src/aspect/builtin] and the transaction manager of
      [src/infra/memory_backend.go]; [StdLogger]: [default_logger.go] over a model of [log/slog] handlers.
    - [Pg]: [src/pg/transaction.go], [src/pg/util.go]: nested transactions with
      savepoints; the database is the class [SqlDB] with the laws
      [WorkingDatabase].
    - [EventLog]: the interface [AggregateEventStore] that repositories use of an
      event store, its laws, and the in-memory store as an instance of it.
    - [PgEventStore]: [src/cqrs/impl/pg/event_store.go] over the table of events
      ([EventTable], [EventTableLaws]); a second instance of the interface.
    - [PgRepository]: [src/infra/repository/pg/repository.go] over the table of
      snapshots ([SnapshotTable], [SnapshotTableLaws]) and any event store with the
      interface.
    - [PgJob]: [src/job/pg/job_store.go] over the table of jobs ([JobTable],
      [JobTableLaws]).
    - [Relationship]: [src/relationship]; [NotifyingBus]: its wrappers as implementations of the interfaces of the
      buses, over any inner bus.
    - [JsonHelpers]: [json_helper.go] of [src/domain/entity] and [src/domain/aggregate], and
      [JSONSerializer] of [src/domain/repository], over JSON values with laws ([Json], [JsonLaws]).
    - [SqlQuery], [PgTrace], [PgMessages]: queries built from filters and the meaning of their
      conditions; [src/trace/pg] over the table of spans ([SpanTable], [SpanTableLaws]);
      [src/aspect/builtin/pg] and [src/observability/pg/message_reader.go] over the log tables
      ([LogTable], [LogTableLaws]).
    - [Lint]: [src/lint/convention] and the analyzers crossdomain, crossmodule,
      implimport, wireimport, fieldcount, fieldaccess, agentcreate, wirecomplexity.
    - [LintTypes]: the analyzers publicleak, infraimplement, eventimmutable, eventpublish, wirelogic, over
      types as [go/types] shows them and syntax trees.
    - [LintDriver]: [src/lint/analyzer.go] and the command [src/lint/cmd/ddd-lint].
    - [Order]: [src/exampleapp/ddd/order] (domain, event, repository, command, query),
      orders in a heap behind pointers; Module [Race] interleaves two requests.
    - [Inventory]: [src/exampleapp/ddd/inventory].
    - [OrderPg]: [order/repository/pg_repository.go] and [PgProductStore], over the statements on their tables
      ([OrderTable], [OrderTableLaws], [ProductTable]).
    - [Wire]: [wire/wire.go] of both domains, the messages and handlers of the example as [reflect] sees them.
    - [ContractEvents], [ContractJobs], [ContractRepos], [ContractTraces], [ContractInfra]: the test suites
      [event_store_contract.go], [eventtest], [jobtest], [repositorytest], [tracetest], [builtintest], [infratest],
      with the laws that make a store pass them and the stores that have these laws.
    - [Shop]: [src/exampleapp/interfaces/http/handlers.go], [server.go]; [ShopWiring]: the pages on the wired
      application; [LiveReload]: [livereload.go] and the cache of templates.
    - [ShopInfra]: [src/exampleapp/infrastructure] and [main.go].
    - [Pages]: the templates of the shop with their reload, its server, the template functions, log lines and servers
      of the viewers; [render_is_run] ties the reload to the interleavings of [LiveReload].
    - [TraceExample]: the printing of traces in [src/examples/traceexample]; [CallTrace]: nested calls through the
      tracing aspects, and what is printed of them; [Examples]: the programs under [src/examples] on their buses.
    - [Version]: [src/version.go].
    - [Stats]: [src/observability/stats.go], [compose.go].
    - [Messages]: [src/observability/message_reader.go].
    - [TypeRegistry]: [src/observability/type_prototype.go], [bus_collector.go].
    - [Schema]: [src/pg/migrate.go], [src/observability/schema_reader.go], [schema_types.go] and
      [src/observability/pg/schema_reader.go] over the statements on the catalog ([SchemaTables],
      [SchemaLaws]); [parse_ddl] and [exec_ddl] say what the migrations make of it.
    - [Dashboard]: [src/observability/dashboard.go]; requests, responses and the readers that
      both viewers share.
    - [Viewer]: [src/observability/ddd_viewer.go], [schema_viewer.go].
    - [App]: [src/app], [src/config], [src/infra/backend.go], [bus.go], [provider.go],
      [pg_backend.go] and the constructor of [memory_backend.go].

    Definitions keep the names of the Go functions. Where several Go types have
    a method of one name, a prefix tells them apart ([mem_Create] of the in-memory
    job store, [ES_Save] of the event-sourced repository, [TracingAspect_Command]).
    Every file ends with a Module of concrete values that its witnesses run.

    ** Conventions of the model

    - An [int], [int64] or [time.Duration] is a [Z]; addition and subtraction of
      the source are [+i] and [-i], which wrap. A [time.Time] is a [Z] of
      nanoseconds, [time_zero] being its zero value; adding durations to times does
      not wrap, as in Go's [time] within its range.
    - A panic is [Panicked]; a returned error is an [error], that is
      [option goerr]; [(T, error)] is a pair or a [result].
    - A function that reads the clock, draws an identity or calls code it was
      given is a [GoM W] computation over a world [W] of which the components' states
      are parts. A panic keeps the world reached; [go_defer] runs the deferred code.
    - A mutex section is one step. Code that never blocks inside is a function;
      the protocols whose interleavings matter (shutdown, one publication, a job
      and its cancellers) are step relations.
    - The iteration order of a Go map and the order in which [sort.Slice] leaves
      equal elements are parameters with laws ([MapRange], [SortSlice]) where a
      result depends on them.
    - Code outside the repository is a parameter: the methods that [reflect] finds
      ([Reflect]), dynamic types of values ([Dynamic]), [json.Marshal], the serializer
      of a repository, handlers, aspects, executors, stores behind an interface.
      Hypotheses on parameters are named classes or premises, and each property
      that has one has a witness that runs a concrete instance.

    ** What the theorems show

    The number is the property's identifier in its doc comment.

    - Storage. C1: the event store in copy mode refines an append-only log of
      contents, for every client program, aliasing and panics included. C2:
      optimistic locking loses no update; [edit_cycle], without a number: the load-edit-save cycle
      works, for both in-memory repositories.
      C3: on PostgreSQL the event-sourced repository with snapshots behaves as
      one without, for every interleaving of clients. C18: saving a snapshot
      there is a compare-and-swap on its row. C12: appending there is atomic and
      fails exactly on existing versions. C17: the trace store's index is
      never stale.
      Without a number: what the two trace stores list agrees but for filters with several criteria
      ([pg_traces_within_memory]), spans are read
      back from PostgreSQL as recorded ([pg_trace_roundtrip]), the readers of recorded messages agree, page for
      page ([pg_commands_agree]), the job store is a map of snapshots.
    - Contracts. C14, C15, C16: the suites pass for
      the implementations in memory and on PostgreSQL; without a number, [trace_store_contract] and
      [infrastructure_contracts] (messages, transactions, backends).
    - Aggregates. C13: replaying the events of a handler gives the handler's
      aggregate. C34: an aggregate comes back from its JSON;
      C35: so does an entity by its own methods ([root_json_restores], [value_object_json], without
      a number: a root and a value object).
      Lemmas without a number show that an entity written by the helper does so, too, but for the mark of its deletion ([entity_json_restores]), the stability of the expected version,
      [ApplyChange] on every branch, the JSON struct round trip and soft deletion.
    - The example. C23, C27: the order service refines the life cycle of
      orders and every order is explained by its events; [order_save_load], without a number: the event-sourced
      repository gives orders back but for their items; [ship_cancel_race]: a race between two requests leaves the
      life cycle. C26: the service over PostgreSQL refines the same life cycle, one request
      at a time. C31: the stock is the balance of the operations that succeeded.
    - The example on its buses. C24: the assembled application has these aspects, handlers,
      relations and types, whatever its stores ([application_wired], without a number: the wiring alone;
      [provider_releases_database]: a provider that fails closes its database). C25: the pages
      refine the life cycle of orders; [lifecycle_test_passes], without a number: the page that tests the application
      passes, and what it does not notice. C38: no client misses a change of the templates, and when the templates
      served are current; [reload_loses_edit], without a number: when they are not.
    - Composition. C32: what a shutdown runs, in which order, and what it reports. Without a
      number: the default aspects are in force in the documented order whenever the buses are made.
    - Calls. C4: onion order in the aspect chain (the soundness of success has no number). C5, C40: routing by a
      bus equals a reference on the list of registrations, typed dispatch. C19: what graceful shutdown guarantees;
      [shutdown_race], without a number: the race it leaves open.
    - Events. C6, C20: a publication returns exactly the errors of
      the failed handlers whatever the schedule and ends without deadlock within a
      bound on its steps; without a number: it never returns with limit zero ([publish_zero_limit_blocks]) and
      respects the concurrency limit ([publish_respects_limit]).
    - Jobs. C7: execution ends with the retries used up or a result; C8,
      C9: whatever runs beside it, a shutdown that has waited leaves no attempt running and none
      begins after it, and a closed manager comes to rest. Without a number, a cancellation of a running job is final
      ([cancel_running_sticks]), an earlier one is lost ([cancel_before_start_is_lost]), and what the protocol leaves
      open: an attempt that a shutdown does not cancel ([shutdown_misses_attempt]), a job accepted after it
      ([submit_after_shutdown_pending]), a job that runs twice ([job_runs_twice], [recovery_runs_submitted]).
      C33: what PostgreSQL gives back of a job, and what it loses.
    - Observation. C10: nested commands share one transaction that commits iff
      all succeed. C11: on PostgreSQL, which of them are committed. C21: tracing
      records one correct span and never interferes; C22: the trace of a request is its call tree, and
      prints as such ([trace_printed], without a number: printing ends on every trace without a cycle;
      [nameless_root_diverges]: and not on others). C30: a wrapped bus is the inner bus to its callers.
      C29: the graph shows
      exactly the recorded relations. C28: statistics are a function of the history of what was
      recorded; so are, without a number, the type registry ([registry_of_history]) and pages of messages.
    - Viewing. C37: the migrations build the schema that the in-memory reader knows, and
      PostgreSQL's reader shows it alike. C36: browsing shows every command once, and how a
      page number can overflow. [trace_graphs], without a number: what the graphs of traces are made of.
      Without a number: every request of the dashboard is answered and changes nothing ([dashboard_never_panics]), and
      what the client of a page is sent ([render_sends]).
    - Errors. Without a number: [errors.Is] answers reachability in the error tree.
    - Linters. C39: the leak linter reports exactly the foreign internal types that
      exported structs and functions are built from. Without a number: what the lint command covers and prints
      ([command_covers], [command_outside_convention]), whatever the repository
      linter reports is implemented ([infraimplement_no_true_positive]), parsing inverts building a package path, and the
      cross-domain and the wiring linters report exactly what they forbid.

    ** Bounds and fuel

    [Job.execute_loop] has fuel; C7 proves that one unit more than the
    retries left is enough, so the fuel never decides a result. [TraceExample.printNodes] has fuel for its depth, as
    the program need not end; C22 proves that one unit more than the depth of the calls is
    enough. [pstep] runs are bounded by C20. [Job.wait_running_loop] recurs on the list of polls, that is of
    the answers of its select. Allocation sizes are compared with [max_alloc], the
    largest allocation of the Go runtime. Everything else is structural.

    ** What is not modelled

    The text of JSON values, what [log/slog], [html/template] and [net/http] make of what they are given, what
    PostgreSQL makes of a statement (statements are parameters with laws, but for the migrations), process signals,
    unit tests other than the contract suites, the test data of the linters, the container of the integration tests
    and generated code. The methods of the finished buses are parameters of the handlers that keep a pointer to them,
    as the handlers and the buses of the examples refer to each other. Data races inside handlers are excluded by the
    framework's documentation and by the model: a handler body is one step, and so is a call of a store. *)
From stdpp Require Export base tactics option list strings gmap sorting pretty.
From Stdlib Require Export ZArith Lia.

(** The hint databases of the development: [go] for [auto]/[eauto], [go_rw] for
    [autorewrite]. *)
Create HintDb go.
Create Rewrite HintDb go_rw.

(** ** Machine integers

    Go's [int], [int64] and [time.Duration] are 64-bit two's complement on the
    platforms the framework targets; every arithmetic operation of the source
    on them is written with its wrap-around. *)

Declare Scope go_scope.
Delimit Scope go_scope with go.

Definition two63 : Z := 9223372036854775808.
Definition two64 : Z := 18446744073709551616.

Definition wrap64 (z : Z) : Z := ((z + two63) mod two64 - two63)%Z.
Definition in_int64 (z : Z) : Prop := (- two63 <= z < two63)%Z.

Definition int_add (a b : Z) : Z := wrap64 (a + b).
Definition int_sub (a b : Z) : Z := wrap64 (a - b).
Definition max_int64 : Z := (two63 - 1)%Z.

Notation "a +i b" := (int_add a b) (at level 50, left associativity) : go_scope.
Notation "a -i b" := (int_sub a b) (at level 50, left associativity) : go_scope.
Open Scope go_scope.

(** [len(s)] as a Go [int]. *)
Definition zlen {A} (l : list A) : Z := Z.of_nat (length l).

Lemma wrap64_id z : in_int64 z -> wrap64 z = z.
Proof. unfold in_int64, wrap64, two63, two64. intros. rewrite Z.mod_small; lia. Qed.

Lemma wrap64_range z : in_int64 (wrap64 z).
Proof.
  unfold in_int64, wrap64, two63, two64.
  pose proof (Z.mod_pos_bound (z + 9223372036854775808) 18446744073709551616). lia.
Qed.

Lemma wrap64_wrap64_add a b : wrap64 (wrap64 a + b) = wrap64 (a + b).
Proof.
  unfold wrap64. f_equal.
  replace ((a + two63) mod two64 - two63 + b + two63)%Z
    with ((a + two63) mod two64 + b)%Z by lia.
  rewrite Zplus_mod_idemp_l. f_equal. lia.
Qed.

Lemma int_add_assoc a b c : (a +i b) +i c = a +i (b + c)%Z.
Proof. unfold int_add. rewrite wrap64_wrap64_add. f_equal. lia. Qed.

Lemma int_sub_add_shift a b c : (a +i c) -i (b + c)%Z = a -i b.
Proof.
  unfold int_sub, int_add, Z.sub. rewrite wrap64_wrap64_add. f_equal. lia.
Qed.

Lemma int_add_id a b : in_int64 (a + b) -> a +i b = (a + b)%Z.
Proof. apply wrap64_id. Qed.

Lemma int_sub_id a b : in_int64 (a - b) -> a -i b = (a - b)%Z.
Proof. apply wrap64_id. Qed.

Lemma zlen_nonneg {A} (l : list A) : (0 <= zlen l)%Z.
Proof. unfold zlen. lia. Qed.

Lemma zlen_nil {A} : zlen (@nil A) = 0%Z.
Proof. reflexivity. Qed.

Lemma zlen_cons {A} (x : A) l : zlen (x :: l) = (1 + zlen l)%Z.
Proof. unfold zlen. cbn [length]. lia. Qed.

Lemma zlen_app {A} (l k : list A) : zlen (l ++ k) = (zlen l + zlen k)%Z.
Proof. unfold zlen. rewrite length_app. lia. Qed.

#[export] Hint Rewrite @zlen_nil @zlen_cons @zlen_app : go_rw.
#[export] Hint Resolve zlen_nonneg wrap64_range : go.

(** ** Slices *)

(** [s[n:]] and [s[:n]]: [None] is the run-time panic of an index out of range. *)
Definition slice_from {A} (n : Z) (l : list A) : option (list A) :=
  if bool_decide (0 <= n <= zlen l)%Z then Some (drop (Z.to_nat n) l) else None.

Definition slice_to {A} (n : Z) (l : list A) : option (list A) :=
  if bool_decide (0 <= n <= zlen l)%Z then Some (take (Z.to_nat n) l) else None.

Lemma slice_from_Some {A} n (l : list A) :
  (0 <= n <= zlen l)%Z -> slice_from n l = Some (drop (Z.to_nat n) l).
Proof. intros. unfold slice_from. by rewrite bool_decide_eq_true_2. Qed.

Lemma slice_to_Some {A} n (l : list A) :
  (0 <= n <= zlen l)%Z -> slice_to n l = Some (take (Z.to_nat n) l).
Proof. intros. unfold slice_to. by rewrite bool_decide_eq_true_2. Qed.

(** A Go map access [m[k]] on a missing key gives the zero value. *)
Definition mget {A} (zero : A) (m : gmap string A) (k : string) : A :=
  default zero (m !! k).

Lemma mget_insert_eq {A} (z : A) m k v : mget z (<[k:=v]> m) k = v.
Proof. unfold mget. by rewrite lookup_insert_eq. Qed.

Lemma mget_insert_ne {A} (z : A) m k k' v :
  k <> k' -> mget z (<[k:=v]> m) k' = mget z m k'.
Proof. intros. unfold mget. by rewrite lookup_insert_ne. Qed.

Lemma mget_delete_ne {A} (z : A) m k k' :
  k <> k' -> mget z (delete k m) k' = mget z m k'.
Proof. intros. unfold mget. by rewrite lookup_delete_ne. Qed.

#[export] Hint Rewrite @mget_insert_eq : go_rw.
#[export] Hint Rewrite @mget_insert_ne @mget_delete_ne using done : go_rw.

(** ** Time

    A [time.Time] is the number of nanoseconds since January 1 of year 1 UTC,
    the instant of Go's zero [time.Time]. *)
Definition time_zero : Z := 0.
Definition time_is_zero (t : Z) : bool := bool_decide (t = time_zero).
Definition time_before (a b : Z) : bool := bool_decide (a < b)%Z.
Definition time_after (a b : Z) : bool := bool_decide (b < a)%Z.

(** ** Strings

    A Go string is a byte sequence: Stdlib's [string]. *)

(** [strings.Contains], [strings.HasPrefix], [strings.HasSuffix]. *)
Definition str_contains (s sub : string) : bool :=
  match String.index 0 sub s with Some _ => true | None => false end.

Definition str_has_prefix (s pre : string) : bool := String.prefix pre s.

Definition str_has_suffix (s suf : string) : bool :=
  let n := String.length s in let k := String.length suf in
  bool_decide (k <= n) && bool_decide (String.substring (n - k) k s = suf).

(** [strings.Split(s, sep)] for a one-byte separator. *)
Fixpoint str_split (sep : Ascii.ascii) (s : string) : list string :=
  match s with
  | EmptyString => [EmptyString]
  | String c s' =>
      if Ascii.eqb c sep then EmptyString :: str_split sep s'
      else match str_split sep s' with
           | [] => [String c EmptyString]
           | seg :: rest => String c seg :: rest
           end
  end.

(** [strings.Join(parts, sep)]. *)
Fixpoint str_join (sep : string) (parts : list string) : string :=
  match parts with
  | [] => ""
  | [p] => p
  | p :: rest => p +:+ sep +:+ str_join sep rest
  end.

(** [s[n:]] on strings. *)
Definition str_from (n : nat) (s : string) : string :=
  String.substring n (String.length s - n) s.

(** [s[:n]] on strings. *)
Definition str_to (n : nat) (s : string) : string := String.substring 0 n s.

#[global] Arguments Ascii.eqb : simpl never.
#[global] Arguments String.append : simpl nomatch.

Definition no_byte (c : Ascii.ascii) (s : string) : Prop :=
  c ∉ String.list_ascii_of_string s.

Lemma str_split_nonempty sep s : str_split sep s <> [].
Proof.
  destruct s as [|c s]; cbn; [done|].
  destruct (Ascii.eqb c sep); [done|]. by destruct (str_split sep s).
Qed.

Lemma str_split_no_byte sep s : no_byte sep s -> str_split sep s = [s].
Proof.
  unfold no_byte. induction s as [|c s IH]; cbn; [done|].
  intros [Hc Hs]%not_elem_of_cons.
  destruct (Ascii.eqb_spec c sep); [congruence|]. by rewrite IH.
Qed.

Lemma str_split_app sep s t :
  no_byte sep s ->
  str_split sep (s +:+ String sep t) = s :: str_split sep t.
Proof.
  unfold no_byte. induction s as [|c s IH]; cbn.
  - intros _. by rewrite Ascii.eqb_refl.
  - intros [Hc Hs]%not_elem_of_cons.
    destruct (Ascii.eqb_spec c sep); [congruence|]. by rewrite IH.
Qed.

Lemma str_split_segments sep s seg :
  seg ∈ str_split sep s -> no_byte sep seg.
Proof.
  unfold no_byte. revert seg. induction s as [|c s IH]; cbn; intros seg.
  - intros ->%list_elem_of_singleton. cbn. apply not_elem_of_nil.
  - destruct (Ascii.eqb_spec c sep) as [->|Hne].
    + intros [->|?]%elem_of_cons; [apply not_elem_of_nil|by apply IH].
    + destruct (str_split sep s) as [|x rest] eqn:E.
      * intros ->%list_elem_of_singleton. cbn. intros [?|?%elem_of_nil]%elem_of_cons; congruence.
      * intros [->|Hin]%elem_of_cons.
        { cbn. intros [?|Hc]%elem_of_cons; [congruence|].
          eapply IH; [|exact Hc]. left. }
        { apply IH. by right. }
Qed.

(** Joining what [str_split] returns gives the string back. *)
Lemma str_join_split sep s :
  str_join (String sep EmptyString) (str_split sep s) = s.
Proof.
  induction s as [|c s IH]; [done|]. cbn [str_split].
  destruct (Ascii.eqb_spec c sep) as [->|Hne].
  - destruct (str_split sep s) as [|x rest] eqn:E; [by apply str_split_nonempty in E|].
    cbn in *. by rewrite IH.
  - destruct (str_split sep s) as [|x rest] eqn:E; [by apply str_split_nonempty in E|].
    destruct rest as [|y rest]; cbn in *; by rewrite IH.
Qed.

(** ** Effects

    A Go call acts on a world [W], returns or panics: it is a function from
    the world to an outcome and the next world. A panic keeps the effects made
    before it. *)

Inductive outcome (A : Type) : Type :=
| Done (a : A)
| Panicked (why : string).
Arguments Done {A} a.
Arguments Panicked {A} why.

Definition GoM (W A : Type) : Type := W -> outcome A * W.

#[export] Instance go_ret W : MRet (GoM W) := fun A a w => (Done a, w).
#[export] Instance go_bind W : MBind (GoM W) := fun A B f m w =>
  match m w with
  | (Done a, w') => f a w'
  | (Panicked s, w') => (Panicked s, w')
  end.

Definition go_panic {W A} (why : string) : GoM W A := fun w => (Panicked why, w).

#[export] Instance outcome_ret : MRet outcome := fun A a => Done a.
#[export] Instance outcome_bind : MBind outcome := fun A B f m =>
  match m with Done a => f a | Panicked s => Panicked s end.

(** [l[i]] for an index that is not negative. *)
Definition index_get {A} (l : list A) (i : nat) : outcome A :=
  match l !! i with Some a => Done a | None => Panicked "index out of range" end.

(** The positions, counted from [i], of the elements of a list that satisfy [f]. *)
Fixpoint positions {A} (f : A -> bool) (i : nat) (l : list A) : list nat :=
  match l with
  | [] => []
  | x :: l' => if f x then i :: positions f (S i) l' else positions f (S i) l'
  end.

Lemma positions_app {A} (f : A -> bool) i l k :
  positions f i (l ++ k) = positions f i l ++ positions f (i + length l) k.
Proof.
  revert i. induction l as [|x l IH]; intros i; cbn; [by rewrite Nat.add_0_r|].
  rewrite IH, <- Nat.add_succ_comm. by destruct (f x).
Qed.

Lemma index_get_middle {A} (l k : list A) x :
  index_get (l ++ x :: k) (length l) = Done x.
Proof. unfold index_get. by rewrite list_lookup_middle. Qed.

(** Reading a list at the positions of [f] gives its elements that satisfy [f]. *)
Lemma positions_read {A} (f : A -> bool) (pre l : list A) :
  mapM (index_get (pre ++ l)) (positions f (length pre) l) =
  Done (List.filter f l).
Proof.
  revert pre. induction l as [|x l IH]; intros pre; cbn [positions List.filter]; [done|].
  specialize (IH (pre ++ [x])). rewrite <- app_assoc, length_app, Nat.add_1_r in IH.
  cbn in IH. destruct (f x); [|done].
  cbn [mapM]. rewrite index_get_middle. cbn. by rewrite IH.
Qed.

Lemma positions_nil_iff {A} (f : A -> bool) i l :
  positions f i l = [] <-> List.filter f l = [].
Proof.
  revert i. induction l as [|x l IH]; intros i; cbn; [done|].
  destruct (f x); [by split|]. apply IH.
Qed.

(** A call without effects that may panic. *)
Definition go_outcome {W A} (o : outcome A) : GoM W A := fun w => (o, w).

(** [defer fin()]: [fin] runs when [m] returns and when it panics. *)
Definition go_defer {W A} (m : GoM W A) (fin : W -> W) : GoM W A :=
  fun w => let (r, w') := m w in (r, fin w').

(** [defer func() { if r := recover(); r != nil { ... } }()] around [m]. *)
Definition go_recover {W A} (m : GoM W A) (h : string -> A) : GoM W A :=
  fun w => match m w with
           | (Panicked s, w') => (Done (h s), w')
           | r => r
           end.

(** A component's state inside a larger world: how one component is seen by
    the others that share the process. *)
Class Has (S W : Type) := { part : W -> S; set_part : S -> W -> W }.
Class HasLaws (S W : Type) `{!Has S W} : Prop := {
  part_set : forall s w, part (set_part s w) = s;
  set_set : forall s s' w, set_part s (set_part s' w) = set_part s w;
  set_get : forall w, set_part (part w) w = w }.

#[export] Instance has_self S : Has S S := { part w := w; set_part s _ := s }.
#[export] Instance has_self_laws S : HasLaws S S.
Proof. by split. Qed.

#[export] Instance has_fst A B : Has A (A * B) :=
  { part w := w.1; set_part a w := (a, w.2) }.
#[export] Instance has_fst_laws A B : HasLaws A (A * B).
Proof. split; by intros; try destruct w. Qed.

#[export] Instance has_snd A B : Has B (A * B) :=
  { part w := w.2; set_part b w := (w.1, b) }.
#[export] Instance has_snd_laws A B : HasLaws B (A * B).
Proof. split; by intros; try destruct w. Qed.

(** An operation of a component run inside the larger world. *)
Definition on_part {S W A} `{!Has S W} (op : S -> A * S) : GoM W A :=
  fun w => let (a, s) := op (part w) in (Done a, set_part s w).

Lemma on_part_run {S W A} `{!Has S W} (op : S -> A * S) w :
  on_part op w = (Done (op (part w)).1, set_part (op (part w)).2 w).
Proof. unfold on_part. by destruct (op (part w)). Qed.

(** An operation that returns and leaves a component's state alone. *)
Definition quiet {W S A} `{!Has S W} (m : GoM W A) : Prop :=
  forall w, exists a w', m w = (Done a, w') /\ part w' = part w.

(** The clock ([time.Now]) and the generator of identifiers ([uuid.New],
    hex-encoded) are parts of the environment. *)
Class Clock (W : Type) := now : W -> Z * W.
Class IdGen (W : Type) := fresh_id : W -> string * W.

Definition time_now {W} `{!Clock W} : GoM W Z :=
  fun w => let (t, w') := now w in (Done t, w').
Definition new_uuid {W} `{!IdGen W} : GoM W string :=
  fun w => let (s, w') := fresh_id w in (Done s, w').

(** A concrete environment, for evaluating the definitions: a clock that advances
    by one nanosecond at each reading and a counter of identifiers. *)
Module Env.
Record env := mkEnv { clk : Z; next_id : N }.
#[export] Instance env_clock : Clock env := fun e => (clk e, mkEnv (clk e + 1) (next_id e)).
#[export] Instance env_ids : IdGen env :=
  fun e => ("id-" +:+ pretty (next_id e), mkEnv (clk e) (next_id e + 1)).
End Env.

(** ** Sorting

    [sort.Slice(x, less)] permutes [x] so that it is sorted by [less]; the
    order of elements that are equal under [less] is unspecified. A model of it
    is any function with that contract. *)
Class SortSlice := {
  sort_slice : forall {A}, (A -> A -> bool) -> list A -> list A }.

Definition weak_order {A} (less : A -> A -> bool) : Prop :=
  (forall x, less x x = false) /\
  (forall x y, less x y = true -> less y x = false) /\
  (forall x y z, less y x = false -> less z y = false -> less z x = false).

Class SortSliceLaws `{!SortSlice} : Prop := {
  sort_slice_perm : forall A (less : A -> A -> bool) l, sort_slice less l ≡ₚ l;
  sort_slice_sorted : forall A (less : A -> A -> bool) l,
    weak_order less -> Sorted (fun x y => less y x = false) (sort_slice less l) }.

(** Insertion sort, the algorithm of [sort.Slice] on short slices. *)
Fixpoint sort_insert {A} (less : A -> A -> bool) (x : A) (l : list A) : list A :=
  match l with
  | [] => [x]
  | y :: l' => if less x y then x :: l else y :: sort_insert less x l'
  end.

Definition insertion_sort {A} (less : A -> A -> bool) (l : list A) : list A :=
  fold_left (fun acc x => sort_insert less x acc) l [].

Lemma sort_insert_perm {A} less (x : A) l : sort_insert less x l ≡ₚ x :: l.
Proof.
  induction l as [|y l IH]; cbn; [done|].
  destruct (less x y); [done|]. rewrite IH. apply Permutation_swap.
Qed.

Lemma sort_insert_sorted {A} (less : A -> A -> bool) x l :
  weak_order less -> Sorted (fun x y => less y x = false) l ->
  Sorted (fun x y => less y x = false) (sort_insert less x l).
Proof.
  intros (_ & Hasym & _). induction l as [|y l IH]; intros Hs; cbn; [by repeat constructor|].
  destruct (less x y) eqn:E.
  - constructor; [done|]. constructor. by apply Hasym.
  - inversion Hs as [|? ? Hs' Hh]; subst. constructor; [by apply IH|].
    destruct l as [|z l]; cbn; [by constructor|].
    destruct (less x z); constructor; [done|]. by inversion Hh.
Qed.

#[export] Instance insertion_sort_slice : SortSlice | 10 :=
  { sort_slice A := @insertion_sort A }.

#[export] Instance insertion_sort_laws : SortSliceLaws.
Proof.
  split; cbn; unfold insertion_sort; intros A less l.
  - assert (forall acc, fold_left (fun acc x => sort_insert less x acc) l acc ≡ₚ l ++ acc) as H.
    { induction l as [|x l IH]; intros acc; cbn; [done|].
      rewrite IH, sort_insert_perm. by rewrite Permutation_middle. }
    by rewrite H, app_nil_r.
  - intros Hw. assert (forall acc, Sorted (fun x y => less y x = false) acc ->
      Sorted (fun x y => less y x = false)
        (fold_left (fun acc x => sort_insert less x acc) l acc)) as H.
    { induction l as [|x l IH]; intros acc Hacc; cbn; [done|].
      apply IH. by apply sort_insert_sorted. }
    apply H. constructor.
Qed.

(** Ranging over a Go map visits every entry once, in an unspecified order. *)
Class MapRange := { map_range : forall {A}, gmap string A -> list (string * A) }.
Class MapRangeLaws `{!MapRange} : Prop := {
  map_range_perm : forall A (m : gmap string A), map_range m ≡ₚ map_to_list m }.

#[export] Instance sorted_range : MapRange | 10 := { map_range A m := map_to_list m }.
#[export] Instance sorted_range_laws : MapRangeLaws.
Proof. by split. Qed.

(** [list.sort] on keys: [sort.Strings]. *)
Definition string_ltb (a b : string) : bool :=
  match String.compare a b with Lt => true | _ => false end.

(** Strings are ordered by their bytes. *)
Lemma string_le_trans a b c :
  String.compare a b <> Gt -> String.compare b c <> Gt -> String.compare a c <> Gt.
Proof.
  revert b c. induction a as [|x a IH]; intros [|y b] [|z c]; cbn; try done.
  unfold Ascii.compare. specialize (IH b c).
  destruct (N.compare_spec (Ascii.N_of_ascii x) (Ascii.N_of_ascii y)),
    (N.compare_spec (Ascii.N_of_ascii y) (Ascii.N_of_ascii z)),
    (N.compare_spec (Ascii.N_of_ascii x) (Ascii.N_of_ascii z)); try done; auto; lia.
Qed.

Lemma string_compare_refl a : String.compare a a = Eq.
Proof. induction a as [|x a IH]; [done|]. cbn. unfold Ascii.compare. by rewrite N.compare_refl. Qed.

Lemma string_ltb_weak : weak_order string_ltb.
Proof.
  unfold weak_order, string_ltb. split_and!.
  - intros a. by rewrite string_compare_refl.
  - intros a b. rewrite (String.compare_antisym b a). by destruct (String.compare a b).
  - intros a b c H1 H2. pose proof (string_le_trans a b c) as Ht.
    rewrite (String.compare_antisym a b), (String.compare_antisym b c), (String.compare_antisym a c) in Ht.
    destruct (String.compare b a), (String.compare c b), (String.compare c a); cbn in *; try done; exfalso; by apply Ht.
Qed.

Lemma weak_order_on {A B} (f : A -> B) (less : B -> B -> bool) :
  weak_order less -> weak_order (fun x y => less (f x) (f y)).
Proof. intros (H1 & H2 & H3). split_and!; intros; eauto. Qed.

#[export] Hint Resolve string_ltb_weak weak_order_on : go.

(** ** Filters *)

Lemma filter_app {A} (f : A -> bool) l k : List.filter f (l ++ k) = List.filter f l ++ List.filter f k.
Proof. apply List.filter_app. Qed.

Lemma filter_all {A} (f : A -> bool) l : Forall (fun x => f x = true) l -> List.filter f l = l.
Proof. induction 1 as [|x l Hx _ IH]; [done|]. cbn. by rewrite Hx, IH. Qed.

Lemma filter_filter_imp {A} (f g : A -> bool) l :
  (forall x, g x = true -> f x = true) -> List.filter g (List.filter f l) = List.filter g l.
Proof.
  intros H. induction l as [|x l IH]; [done|]. cbn. destruct (f x) eqn:Hf; cbn; [by rewrite IH|].
  destruct (g x) eqn:Hg; [|done]. by rewrite (H _ Hg) in Hf.
Qed.

Lemma Forall_list_filter {A} (P : A -> Prop) (f : A -> bool) l : Forall P l -> Forall P (List.filter f l).
Proof. induction 1 as [|x l Hx _ IH]; cbn; [done|]. destruct (f x); auto. Qed.

Lemma StronglySorted_list_filter {A} (R : A -> A -> Prop) (f : A -> bool) l :
  StronglySorted R l -> StronglySorted R (List.filter f l).
Proof.
  induction 1 as [|x l _ IH Hx]; cbn; [constructor|]. destruct (f x); [|done].
  constructor; [done|]. by apply Forall_list_filter.
Qed.

(** ** Counting goroutines

    The number of elements of a list that satisfy a predicate, when one of them
    takes a step. *)
Definition zcount {A} (f : A -> bool) (l : list A) : Z := zlen (List.filter f l).

Lemma zcount_cons {A} (f : A -> bool) x l : zcount f (x :: l) = (Z.b2z (f x) + zcount f l)%Z.
Proof. unfold zcount. cbn. destruct (f x); autorewrite with go_rw; cbn; lia. Qed.

Lemma zcount_nonneg {A} (f : A -> bool) l : (0 <= zcount f l)%Z.
Proof. apply zlen_nonneg. Qed.

Lemma zcount_insert {A} (f : A -> bool) l i x y :
  l !! i = Some x -> zcount f (<[i:=y]> l) = (zcount f l - Z.b2z (f x) + Z.b2z (f y))%Z.
Proof.
  revert i. induction l as [|z l IH]; intros [|i]; cbn; [done..| |].
  - intros [= ->]. rewrite !zcount_cons. lia.
  - intros H. rewrite !zcount_cons. apply IH in H. cbv [insert] in *. lia.
Qed.

Lemma zcount_zero {A} (f : A -> bool) l : zcount f l = 0%Z <-> Forall (fun x => f x = false) l.
Proof.
  induction l as [|x l IH]; [by split|]. rewrite zcount_cons, Forall_cons, <- IH.
  pose proof (zcount_nonneg f l). destruct (f x); cbn; split; intros; destruct_and?; done || lia.
Qed.

Lemma zcount_snoc {A} (f : A -> bool) l x : zcount f (l ++ [x]) = (zcount f l + Z.b2z (f x))%Z.
Proof. unfold zcount. rewrite filter_app, zlen_app. cbn. by destruct (f x). Qed.

Lemma zcount_le_all {A} (f : A -> bool) l : (zcount f l <= zlen l)%Z.
Proof.
  induction l as [|x l IH]; [done|]. rewrite zcount_cons. autorewrite with go_rw.
  destruct (f x); cbn; lia.
Qed.

(** The sum of a measure over a list, when one element takes a step. *)
Definition zsum {A} (f : A -> Z) (l : list A) : Z := foldr (fun x acc => (f x + acc)%Z) 0%Z l.

Lemma zsum_insert {A} (f : A -> Z) (l : list A) (i : nat) x y :
  l !! i = Some x -> zsum f (<[i:=y]> l) = (zsum f l - f x + f y)%Z.
Proof.
  revert i. induction l as [|z l IH]; intros [|i]; cbn; [done..| |].
  - intros [= ->]. unfold zsum. lia.
  - intros H. apply IH in H. cbv [insert] in *. unfold zsum in *. lia.
Qed.

Lemma zsum_nonneg {A} (f : A -> Z) l : (forall x, 0 <= f x)%Z -> (0 <= zsum f l)%Z.
Proof. intros Hf. induction l as [|x l IH]; cbn; [lia|]. specialize (Hf x). unfold zsum in *. lia. Qed.

(** What [omap] collects, when one element takes a step. *)
Lemma omap_insert_same {A B} (f : A -> option B) (l : list A) (i : nat) x y :
  l !! i = Some x -> f y = f x -> omap f (<[i:=y]> l) = omap f l.
Proof.
  revert i. induction l as [|z l IH]; intros [|i]; cbn; [done..| |].
  - intros [= ->] ->. done.
  - intros H Hf. specialize (IH _ H Hf). cbv [insert omap] in *. by rewrite IH.
Qed.

Lemma omap_insert_new {A B} (f : A -> option B) (l : list A) (i : nat) x y b :
  l !! i = Some x -> f x = None -> f y = Some b -> omap f (<[i:=y]> l) ≡ₚ b :: omap f l.
Proof.
  revert i. induction l as [|z l IH]; intros [|i]; cbn; [done..| |].
  - intros [= ->] -> ->. done.
  - intros H Hx Hy. specialize (IH _ H Hx Hy). cbv [insert omap] in *.
    destruct (f z); [|done]. rewrite IH. apply Permutation_swap.
Qed.

(** ** Tactics *)

(** Split the result of a world-passing call that occurs in a match. *)
Ltac run_step :=
  match goal with
  | |- context [match ?m ?w with (_, _) => _ end] =>
      let r := fresh "r" in let w' := fresh "w" in
      destruct (m w) as [[r|r] w'] eqn:?
  end.

(** Unfold the effect monad's operations. *)
Ltac unfold_go :=
  unfold mret, mbind, go_ret, go_bind, go_panic, go_outcome, go_defer, go_recover, time_now, new_uuid in *.
