(* ===== verification/Errors.v ===== *)
(** * Errors: error values of the framework

    The [error] package ([src/error]): [DomainError] with its [Is] and
    [Unwrap] methods, the sentinel errors, [MultiError]; the
    [OptimisticLockError] of [src/infra/repository/error.go] and the
    [StoreError] of [src/job/core/job.go]; and the standard library's [errors.Is],
    [errors.As], [errors.Join] and [fmt.Errorf] as far as they are used.

    An error value is a tree: a node is one dynamic type, its children are what
    [Unwrap] returns. A nil error is [None] of [option goerr]. *)

From S2P Require Import Prelude.

Inductive goerr : Type :=
| ENew (msg : string)
    (** [errors.New] or [fmt.Errorf] without [%w], not bound to a package variable *)
| ESentinel (name msg : string)
    (** a package variable holding an [errors.New]: compared by identity *)
| EWrap (pre : string) (cause : goerr) (post : string)
    (** [fmt.Errorf("pre%wpost", cause)] *)
| EDomain (code message : string) (cause : option goerr)
    (** [*ddderror.DomainError] *)
| EMulti (errs : list (option goerr))
    (** [*ddderror.MultiError] *)
| EJoin (errs : list goerr)
    (** the result of [errors.Join] *)
| EOptimisticLock (aggregateID : string) (expectedVersion : Z) (versionMismatch : bool)
    (** [*repository.OptimisticLockError] *)
| EStore (jobID operation : string) (cause : option goerr)
    (** [*core.StoreError] *).

Definition error : Type := option goerr.

(** A [(T, error)] result whose value is meaningful exactly when the error is nil. *)
Abbreviation result A := (A + goerr)%type.
Abbreviation Ok := inl.
Abbreviation Err := inr.

(** ** Constructors and sentinels *)

Definition NewDomainError (code msg : string) : goerr := EDomain code msg None.
Definition NewDomainErrorWithCause (code msg : string) (cause : error) : goerr :=
  EDomain code msg cause.

Definition Code (e : goerr) : option string :=
  match e with EDomain c _ _ => Some c | _ => None end.
Definition Message (e : goerr) : option string :=
  match e with EDomain _ m _ => Some m | _ => None end.
Definition Cause (e : goerr) : option error :=
  match e with EDomain _ _ c => Some c | _ => None end.

Definition ErrNotFound := NewDomainError "NOT_FOUND" "resource not found".
Definition ErrAlreadyExists := NewDomainError "ALREADY_EXISTS" "resource already exists".
Definition ErrInvalidState := NewDomainError "INVALID_STATE" "invalid state for operation".
Definition ErrConcurrency := NewDomainError "CONCURRENCY" "concurrent modification conflict".
Definition ErrPermissionDenied := NewDomainError "PERMISSION_DENIED" "permission denied".

Definition NewMultiError (errs : list error) : goerr := EMulti errs.

(** ** [Unwrap]

    The children of an error node, the [Unwrap] of its dynamic type. *)
Definition OptimisticLockError_Unwrap : goerr := ErrConcurrency.

Definition unwrap (e : goerr) : list goerr :=
  match e with
  | ENew _ | ESentinel _ _ => []
  | EWrap _ c _ => [c]
  | EDomain _ _ c => option_list c
  | EMulti es => omap id es
  | EJoin es => es
  | EOptimisticLock _ _ _ => [OptimisticLockError_Unwrap]
  | EStore _ _ c => option_list c
  end.

(** ** [errors.Is]

    The targets the code compares with: a sentinel variable, by identity, or a
    [DomainError], by its [Is] method. *)
Inductive target : Type :=
| TSentinel (name : string)
| TDomain (code : string).

Definition target_of (e : goerr) : option target :=
  match e with
  | ESentinel n _ => Some (TSentinel n)
  | EDomain c _ _ => Some (TDomain c)
  | _ => None
  end.

(** [DomainError.Is] and [==] at one node. *)
Definition node_is (t : target) (e : goerr) : bool :=
  match e, t with
  | ESentinel n _, TSentinel n' => bool_decide (n = n')
  | EDomain c _ _, TDomain c' => bool_decide (c = c')
  | _, _ => false
  end.

Fixpoint errors_Is (t : target) (e : goerr) : bool :=
  node_is t e ||
  match e with
  | ENew _ | ESentinel _ _ => false
  | EWrap _ c _ => errors_Is t c
  | EDomain _ _ c | EStore _ _ c =>
      match c with Some c => errors_Is t c | None => false end
  | EMulti es =>
      existsb (fun o => match o with Some e' => errors_Is t e' | None => false end) es
  | EJoin es => existsb (errors_Is t) es
  | EOptimisticLock _ _ _ => node_is t OptimisticLockError_Unwrap
  end.

Definition Is (err : error) (t : target) : bool :=
  match err with Some e => errors_Is t e | None => false end.

Definition is_concurrency : error -> bool := fun e => Is e (TDomain "CONCURRENCY").
Definition is_not_found : error -> bool := fun e => Is e (TDomain "NOT_FOUND").

(** [IsDomainError]: [errors.As] with a [*DomainError] target. *)
Fixpoint errors_As_domain (e : goerr) : bool :=
  match e with
  | ENew _ | ESentinel _ _ => false
  | EWrap _ c _ => errors_As_domain c
  | EDomain _ _ _ => true
  | EStore _ _ c => match c with Some c => errors_As_domain c | None => false end
  | EMulti es =>
      existsb (fun o => match o with Some e' => errors_As_domain e' | None => false end) es
  | EJoin es => existsb errors_As_domain es
  | EOptimisticLock _ _ _ => true
  end.

Definition IsDomainError (err : error) : bool :=
  match err with Some e => errors_As_domain e | None => false end.

(** [errors.Join]: nil arguments are dropped, and joining only nils gives nil. *)
Definition errors_Join (errs : list error) : error :=
  match omap id errs with [] => None | es => Some (EJoin es) end.

(** ** [Error()] *)

Definition newline : string := String (Ascii.ascii_of_nat 10) EmptyString.

Definition OptimisticLockError_Error (id : string) (v : Z) (mismatch : bool) : string :=
  if mismatch
  then "optimistic lock error: aggregate " +:+ id +:+ " version " +:+ pretty v +:+
       " conflicts with existing version"
  else "optimistic lock error: aggregate " +:+ id +:+ " version " +:+ pretty v +:+
       " was already updated by another transaction".

(** [%v] of an error that may be nil. *)
Definition fmt_v (f : goerr -> string) (err : error) : string :=
  match err with Some e => f e | None => "<nil>" end.

Fixpoint Error (e : goerr) : string :=
  match e with
  | ENew msg | ESentinel _ msg => msg
  | EWrap pre c post => pre +:+ Error c +:+ post
  | EDomain code message c =>
      match c with
      | Some c => "[" +:+ code +:+ "] " +:+ message +:+ ": " +:+ Error c
      | None => "[" +:+ code +:+ "] " +:+ message
      end
  | EMulti es =>
      "multiple errors:" +:+
      (fix lines (i : N) (es : list (option goerr)) : string :=
         match es with
         | [] => ""
         | Some e' :: rest =>
             newline +:+ "  [" +:+ pretty i +:+ "] " +:+ Error e' +:+ lines (i + 1)%N rest
         | None :: rest => lines (i + 1)%N rest
         end) 1%N es
  | EJoin es =>
      (fix lines (es : list goerr) : string :=
         match es with
         | [] => ""
         | [e'] => Error e'
         | e' :: rest => Error e' +:+ newline +:+ lines rest
         end) es
  | EOptimisticLock id v m => OptimisticLockError_Error id v m
  | EStore id op c =>
      "store " +:+ op +:+ " failed for job " +:+ id +:+ ": " +:+
      match c with Some c => Error c | None => "<nil>" end
  end.

(** ** Reference definitions: the tree of an error, searched as a relation *)

Inductive in_tree : goerr -> goerr -> Prop :=
| in_tree_here e : in_tree e e
| in_tree_child e c d : c ∈ unwrap e -> in_tree c d -> in_tree e d.

Section Induction.
Variable P : goerr -> Prop.
Hypothesis Hstep : forall e, (forall c, c ∈ unwrap e -> P c) -> P e.

Lemma goerr_unwrap_leaf e : unwrap e = [] -> P e.
Proof. intros H. apply Hstep. rewrite H. by intros ? ?%elem_of_nil. Qed.

Lemma goerr_unwrap_one e c : unwrap e = [c] -> P c -> P e.
Proof. intros H Hc. apply Hstep. rewrite H. by intros ? ->%list_elem_of_singleton. Qed.

(** Induction over an error and everything it unwraps to. *)
Lemma goerr_unwrap_ind : forall e, P e.
Proof.
  fix IH 1. intros e. destruct e as [m|n m|pre c post|code m c|es|es|id v b|id op c].
  - by apply goerr_unwrap_leaf.
  - by apply goerr_unwrap_leaf.
  - by eapply goerr_unwrap_one.
  - destruct c as [c|]; [eapply goerr_unwrap_one; [done|apply IH]|by apply goerr_unwrap_leaf].
  - apply Hstep. cbn. revert es. fix IHes 1. intros [|[e|] es] c; cbn.
    + clear IH IHes. intros H%elem_of_nil. destruct H.
    + intros [->|Hc]%elem_of_cons; [apply IH|by apply (IHes es)].
    + by apply (IHes es).
  - apply Hstep. cbn. revert es. fix IHes 1. intros [|e es] c.
    + clear IH IHes. intros H%elem_of_nil. destruct H.
    + intros [->|Hc]%elem_of_cons; [apply IH|by apply (IHes es)].
  - eapply goerr_unwrap_one; [done|]. by apply goerr_unwrap_leaf.
  - destruct c as [c|]; [eapply goerr_unwrap_one; [done|apply IH]|by apply goerr_unwrap_leaf].
Qed.
End Induction.

(** ** Lemmas *)

Lemma existsb_opt {A} (f : A -> bool) (l : list (option A)) :
  existsb (fun o => match o with Some e => f e | None => false end) l = existsb f (omap id l).
Proof. induction l as [|[a|] l IH]; cbn; by rewrite ?IH. Qed.

(** [errors.Is] is a node test or a search of the children. *)
Lemma errors_Is_unfold t e :
  errors_Is t e = node_is t e || existsb (errors_Is t) (unwrap e).
Proof.
  destruct e as [m|n m|pre c post|code m [c|]|es|es|id v b|id op [c|]]; cbn;
    rewrite ?existsb_opt, ?orb_false_r; done.
Qed.

Lemma errors_As_unfold e :
  errors_As_domain e =
  match e with EDomain _ _ _ => true | _ => existsb errors_As_domain (unwrap e) end.
Proof.
  destruct e as [m|n m|pre c post|code m [c|]|es|es|id v b|id op [c|]]; cbn;
    rewrite ?existsb_opt, ?orb_false_r; done.
Qed.

Lemma existsb_elem {A} (f : A -> bool) l :
  existsb f l = true <-> exists x, x ∈ l /\ f x = true.
Proof. rewrite existsb_exists. by setoid_rewrite list_elem_of_In. Qed.

Lemma in_tree_search (Q : goerr -> Prop) (f g : goerr -> bool) :
  (forall e, f e = true <-> Q e) ->
  (forall e, g e = f e || existsb g (unwrap e)) ->
  forall e, g e = true <-> exists d, in_tree e d /\ Q d.
Proof.
  intros Hf Hg. apply goerr_unwrap_ind. intros e IH.
  rewrite Hg, orb_true_iff, existsb_elem, Hf. split.
  - intros [HQ|(c & Hc & Hgc)]; [eexists; split; [constructor|done]|].
    apply (IH c Hc) in Hgc as (d & Hd & HQ). exists d. split; [by econstructor|done].
  - intros (d & Hd & HQ). inversion Hd as [|? c ? Hc Hcd]; subst; [by left|].
    right. exists c. split; [done|]. apply IH; eauto.
Qed.

Lemma is_wrap pre e post t : Is (Some (EWrap pre e post)) t = Is (Some e) t.
Proof. cbn. by destruct t. Qed.

Lemma is_join err1 err2 t :
  Is (errors_Join [err1; err2]) t = Is err1 t || Is err2 t.
Proof. destruct err1, err2; cbn; rewrite ?orb_false_r; done. Qed.

#[export] Hint Rewrite is_wrap is_join : go_rw.

(** ** Properties *)

(** [errors.Is] against a domain error answers exactly whether some error
    reachable by unwrapping (through wrapped errors, joins, multi-errors, store errors and
    optimistic-lock errors) is a [DomainError] with the target's code. *)
Theorem errors_Is_domain_iff code e :
  errors_Is (TDomain code) e = true <->
  exists d, in_tree e d /\ Code d = Some code.
Proof.
  apply (in_tree_search _ (node_is (TDomain code))); [|apply errors_Is_unfold].
  intros d. destruct d; cbn; try (split; [done|congruence]).
  rewrite bool_decide_eq_true. split; congruence.
Qed.

(** [IsDomainError] answers exactly whether a [DomainError] is reachable by
    unwrapping, so a trace span is a business error precisely then. *)
Theorem IsDomainError_iff e :
  IsDomainError (Some e) = true <-> exists d, in_tree e d /\ is_Some (Code d).
Proof.
  cbn. apply (in_tree_search _ (fun d => match d with EDomain _ _ _ => true | _ => false end)).
  - intros d. destruct d; cbn; split; try done; by intros [].
  - intros d. rewrite errors_As_unfold. by destruct d.
Qed.
