(* ===== verification/Testing.v ===== *)
(** * Tests as programs: the part of Go's [testing] that the contract suites use

    The framework ships its contracts as test suites: functions that take an
    implementation of an interface and a [*testing.T]. A test is a computation that
    reports failures and may end early; that a suite passes for an implementation is
    then a theorem about the two, for every world it is started in. *)

From S2P Require Import Prelude Errors.

(** The failures reported so far, in order, and the value: none after [t.Fatalf] or
    [t.Skip], which end the goroutine of the test. A failure is named by its format. *)
Definition TestM (W A : Type) : Type := GoM W (list string * option A).

#[export] Instance test_ret W : MRet (TestM W) := fun A a w => (Done ([], Some a), w).
#[export] Instance test_bind W : MBind (TestM W) := fun A B f m w =>
  match m w with
  | (Done (fails, Some a), w') =>
      match f a w' with
      | (Done (fails', b), w'') => (Done (fails ++ fails', b), w'')
      | r => r
      end
  | (Done (fails, None), w') => (Done (fails, None), w')
  | (Panicked why, w') => (Panicked why, w')
  end.

Section Testing.
Context {W : Type}.

(** A call of the code under test. *)
Definition call {A} (m : GoM W A) : TestM W A := fun w =>
  match m w with
  | (Done a, w') => (Done ([], Some a), w')
  | (Panicked why, w') => (Panicked why, w')
  end.

Definition t_Errorf (format : string) : TestM W unit := fun w => (Done ([format], Some tt), w).
Definition t_Fatalf {A} (format : string) : TestM W A := fun w => (Done ([format], None), w).
Definition t_Skip {A} : TestM W A := fun w => (Done ([], None), w).

(** [t.Run]: the failures of a subtest are failures of the test, which goes on. *)
Definition t_Run (name : string) (f : TestM W unit) : TestM W unit := fun w =>
  match f w with
  | (Done (fails, _), w') => (Done (map (fun m => name +:+ "/" +:+ m) fails, Some tt), w')
  | (Panicked why, w') => (Panicked why, w')
  end.

(** [if err != nil { t.Fatalf(...) }], on an error and on a result. *)
Definition must (e : error) (format : string) : TestM W unit :=
  match e with Some _ => t_Fatalf format | None => mret tt end.
Definition must_ok {A} (r : result A) (format : string) : TestM W A :=
  match r with Err _ => t_Fatalf format | Ok a => mret a end.

(** [if err == nil { t.Fatal(...) }]. *)
Definition must_fail (e : error) (format : string) : TestM W goerr :=
  match e with None => t_Fatalf format | Some e => mret e end.
Definition must_err {A} (r : result A) (format : string) : TestM W goerr :=
  match r with Ok _ => t_Fatalf format | Err e => mret e end.

(** [if !b { t.Errorf(...) }] and [if !b { t.Fatalf(...) }]. *)
Definition expect (b : bool) (format : string) : TestM W unit :=
  if b then mret tt else t_Errorf format.
Definition require (b : bool) (format : string) : TestM W unit :=
  if b then mret tt else t_Fatalf format.

(** ** Passing

    From [w] the test neither fails nor panics, and ends with [Q]. *)
Definition passing {A} (m : TestM W A) (w : W) (Q : option A -> W -> Prop) : Prop :=
  exists o w', m w = (Done ([], o), w') /\ Q o w'.

(** A condition on the value of a test that has not ended. *)
Definition value {A} (Q : A -> W -> Prop) (S : W -> Prop) (o : option A) (w : W) : Prop :=
  match o with Some a => Q a w | None => S w end.

(** A suite passes when it keeps [P], the state in which tests may be started. *)
Definition passes (P : W -> Prop) (m : TestM W unit) : Prop :=
  forall w, P w -> passing m w (fun _ => P).

Lemma passing_ret {A} (a : A) w (Q : option A -> W -> Prop) : Q (Some a) w -> passing (mret a) w Q.
Proof. intros H. by exists (Some a), w. Qed.

Lemma passing_bind {A B} (m : TestM W A) (k : A -> TestM W B) w Q :
  passing m w (value (fun a w' => passing (k a) w' Q) (Q None)) -> passing (m ≫= k) w Q.
Proof.
  intros ([a|] & w1 & Hm & H); cbn in H.
  - destruct H as (o & w2 & Hk & H). exists o, w2. split; [|done].
    unfold mbind, test_bind. by rewrite Hm, Hk.
  - exists None, w1. split; [|done]. unfold mbind, test_bind. by rewrite Hm.
Qed.

Lemma passing_call {A} (m : GoM W A) w a w' (Q : option A -> W -> Prop) :
  m w = (Done a, w') -> Q (Some a) w' -> passing (call m) w Q.
Proof. intros Hm H. exists (Some a), w'. split; [|done]. unfold call. by rewrite Hm. Qed.

Lemma passing_conseq {A} (m : TestM W A) w (Q Q' : option A -> W -> Prop) :
  passing m w Q -> (forall o w', Q o w' -> Q' o w') -> passing m w Q'.
Proof. intros (o & w' & Hm & H) Himp. exists o, w'. split; [done|auto]. Qed.

Lemma passing_run name f w (Q : W -> Prop) :
  passing f w (fun _ => Q) -> passing (t_Run name f) w (fun o w' => o = Some tt /\ Q w').
Proof.
  intros (o & w' & Hf & H). exists (Some tt), w'. split; [|done]. unfold t_Run. by rewrite Hf.
Qed.

Lemma passing_skip {A} w (Q : option A -> W -> Prop) : Q None w -> passing t_Skip w Q.
Proof. intros H. by exists None, w. Qed.

(** A suite is subtests one after the other. *)
Lemma passes_run P name f : passes P f -> passes P (t_Run name f).
Proof.
  intros Hf w Hw. eapply passing_conseq; [by apply passing_run, Hf|]. by intros ? ? [_ ?].
Qed.

Lemma passes_seq P (m k : TestM W unit) : passes P m -> passes P k -> passes P (_ ← m; k).
Proof.
  intros Hm Hk w Hw. apply passing_bind. eapply passing_conseq; [by apply Hm|].
  intros [[]|] w' Hw'; cbn; [by apply Hk|done].
Qed.

Lemma passes_ret P : passes P (mret tt).
Proof. intros w Hw. by apply passing_ret. Qed.

(** *** The steps of a test *)

Lemma passing_step_call {A B} (m : GoM W A) (k : A -> TestM W B) w a w' Q :
  m w = (Done a, w') -> passing (k a) w' Q -> passing (x ← call m; k x) w Q.
Proof. intros Hm H. apply passing_bind. eapply passing_call; [exact Hm|exact H]. Qed.

Lemma passing_step_ret {A B} (a : A) (k : A -> TestM W B) w Q :
  passing (k a) w Q -> passing (x ← mret a; k x) w Q.
Proof. intros H. by apply passing_bind, passing_ret. Qed.

Lemma passing_step_expect {B} b format (k : unit -> TestM W B) w Q :
  b = true -> passing (k tt) w Q -> passing (x ← expect b format; k x) w Q.
Proof. intros -> H. by apply passing_step_ret. Qed.

Lemma passing_step_require {B} b format (k : unit -> TestM W B) w Q :
  b = true -> passing (k tt) w Q -> passing (x ← require b format; k x) w Q.
Proof. intros -> H. by apply passing_step_ret. Qed.

Lemma passing_assoc {A B C} (m : TestM W A) (f : A -> TestM W B) (k : B -> TestM W C) w Q :
  passing (x ← m; y ← f x; k y) w Q -> passing (y ← (x ← m; f x); k y) w Q.
Proof.
  intros (o & w' & H & HQ). exists o, w'. split; [|done]. revert H.
  unfold mbind, test_bind. destruct (m w) as [[[fs [a|]]|?] w1]; [|done..].
  destruct (f a w1) as [[[fs' [b|]]|?] w2]; [|done..].
  destruct (k b w2) as [[[fs'' c]|?] w3]; [|done]. by rewrite app_assoc.
Qed.

Lemma passing_step_run {B} name f (k : unit -> TestM W B) w Q :
  passing f w (fun _ w' => passing (k tt) w' Q) -> passing (x ← t_Run name f; k x) w Q.
Proof.
  intros Hf. apply passing_bind. eapply passing_conseq; [by apply passing_run|]. by intros ? ? [-> ?].
Qed.

(** The last step of a test. *)
Lemma passing_last (m : TestM W unit) w Q : passing (_ ← m; mret tt) w Q -> passing m w Q.
Proof.
  intros (o & w' & H & HQ). exists o, w'. split; [|done]. revert H.
  unfold mbind, test_bind, mret, test_ret. destruct (m w) as [[[fs [[]|]]|?] w1]; [|done..].
  by rewrite app_nil_r.
Qed.
End Testing.

#[export] Hint Resolve passes_run passes_seq passes_ret : go.

(** ** Running a test in a proof *)

(** The next step of a test is a call, of which [H] says what it returns. *)
Ltac test_call H := eapply passing_step_call; [exact H|].

(** Steps that compute: checks of known values, and returns. *)
Ltac test_step :=
  cbn [must must_ok must_fail must_err];
  lazymatch goal with
  | |- passing (mbind _ (mbind _ _)) _ _ => apply passing_assoc
  | |- passing (mbind _ (expect _ _)) _ _ => apply passing_step_expect; [try done|]
  | |- passing (mbind _ (require _ _)) _ _ => apply passing_step_require; [try done|]
  | |- passing (mbind _ (mret _)) _ _ => apply passing_step_ret
  | |- passing (mret _) _ _ => apply passing_ret
  | |- passing (expect _ _) _ _ => apply passing_last
  | |- passing (require _ _) _ _ => apply passing_last
  end.

(** The subtests of a suite, one goal for each. *)
Ltac subtests :=
  repeat lazymatch goal with |- passes _ (mbind _ (t_Run _ _)) => apply passes_seq end;
  apply passes_run.
