(* ===== verification/Entity.v ===== *)
(** * Entities and value objects: [src/domain/entity], [src/domain/valueobject]

    [Entity], [AuditableEntity] and [SoftDeletableEntity] are records nested as
    the structs are embedded. A pointer receiver that may be nil is an
    [option]; a method that mutates its receiver returns the new value; a call
    of [time.Now] is an argument. The [ToJSON]/[FromJSON]
    structs are here, [MarshalJSON] and [UnmarshalJSON] in [EntityJson]. *)

From S2P Require Import Prelude Errors.

Module Entity.

Record t := mk { id : string }.

#[export] Instance t_eq_dec : EqDecision t.
Proof. solve_decision. Defined.

Definition id_required : goerr := ENew "entity: id is required".

Definition NewEntity (i : string) : result t :=
  if bool_decide (i = "") then Err id_required else Ok (mk i).

Definition MustNewEntity (i : string) : outcome t :=
  match NewEntity i with
  | Ok e => Done e
  | Err err => Panicked (Error err)
  end.

Definition ID (e : t) : string := id e.

(** [(e *Entity) Equals(other *Entity)], nil-safe. *)
Definition Equals (e other : option t) : bool :=
  match e, other with
  | Some a, Some b => bool_decide (id a = id b)
  | None, None => true
  | _, _ => false
  end.

Definition IsEmpty (e : t) : bool := bool_decide (id e = "").

Definition Validate (e : t) : error :=
  if bool_decide (id e = "") then Some id_required else None.

Definition Clone (e : option t) : option t := e.

Record EntityJSON := mkJSON { json_id : string }.
Definition ToJSON (e : t) : EntityJSON := mkJSON (id e).
Definition FromJSON (_ : t) (j : EntityJSON) : t := mk (json_id j).

Definition NewEntityWithID {W} `{!IdGen W} : GoM W t :=
  i ← new_uuid;
  go_outcome (MustNewEntity i).

(** [DefaultIDGenerator()()]. *)
Definition DefaultIDGenerator {W} `{!IdGen W} : GoM W string :=
  e ← NewEntityWithID; mret (ID e).

End Entity.

Module Auditable.

Record t := mk { entity : Entity.t; createdAt : Z; updatedAt : Z }.

Definition CreatedAt (e : t) : Z := createdAt e.
Definition UpdatedAt (e : t) : Z := updatedAt e.

(** [now] is the one [time.Now()] of the constructor. *)
Definition NewAuditableEntity (i : string) (now : Z) : result t :=
  match Entity.NewEntity i with
  | Err err => Err err
  | Ok e => Ok (mk e now now)
  end.

Definition NewAuditableEntityFromData (i : string) (created updated : Z) : result t :=
  match Entity.NewEntity i with
  | Err err => Err err
  | Ok e => Ok (mk e created updated)
  end.

Definition MustNewAuditableEntity (i : string) (now : Z) : outcome t :=
  match NewAuditableEntity i now with
  | Ok e => Done e
  | Err err => Panicked (Error err)
  end.

Definition NewAuditableEntityWithID (i : string) (now : Z) : outcome t :=
  MustNewAuditableEntity i now.

Definition Touch (now : Z) (e : t) : t := mk (entity e) (createdAt e) now.

Record AuditableEntityJSON :=
  mkJSON { json_entity : Entity.EntityJSON; json_createdAt : Z; json_updatedAt : Z }.
Definition ToJSON (e : t) : AuditableEntityJSON :=
  mkJSON (Entity.ToJSON (entity e)) (createdAt e) (updatedAt e).
Definition FromJSON (e : t) (j : AuditableEntityJSON) : t :=
  mk (Entity.FromJSON (entity e) (json_entity j)) (json_createdAt j) (json_updatedAt j).

End Auditable.

Module SoftDeletable.

Record t := mk { auditable : Auditable.t; deletedAt : option Z }.

Definition DeletedAt (e : t) : option Z := deletedAt e.

Definition NewSoftDeletableEntity (i : string) (now : Z) : result t :=
  match Auditable.NewAuditableEntity i now with
  | Err err => Err err
  | Ok ae => Ok (mk ae None)
  end.

Definition NewSoftDeletableEntityFromData
    (i : string) (created updated : Z) (deleted : option Z) : result t :=
  match Auditable.NewAuditableEntityFromData i created updated with
  | Err err => Err err
  | Ok ae => Ok (mk ae deleted)
  end.

Definition IsDeleted (e : t) : bool :=
  match deletedAt e with Some _ => true | None => false end.

(** [now] is read for [deletedAt], [now'] by [Touch]. *)
Definition SoftDelete (now now' : Z) (e : t) : t :=
  mk (Auditable.Touch now' (auditable e)) (Some now).

Definition Restore (now : Z) (e : t) : t :=
  mk (Auditable.Touch now (auditable e)) None.

Record SoftDeletableEntityJSON :=
  mkJSON { json_auditable : Auditable.AuditableEntityJSON; json_deletedAt : option Z }.
Definition ToJSON (e : t) : SoftDeletableEntityJSON :=
  mkJSON (Auditable.ToJSON (auditable e)) (deletedAt e).
Definition FromJSON (e : t) (j : SoftDeletableEntityJSON) : t :=
  mk (Auditable.FromJSON (auditable e) (json_auditable j)) (json_deletedAt j).

(** The life of a soft-deletable entity after construction. *)
Inductive op := OpTouch (now : Z) | OpSoftDelete (now now' : Z) | OpRestore (now : Z).

Definition step (e : t) (o : op) : t :=
  match o with
  | OpTouch now => mk (Auditable.Touch now (auditable e)) (deletedAt e)
  | OpSoftDelete now now' => SoftDelete now now' e
  | OpRestore now => Restore now e
  end.

End SoftDeletable.

Module ValueObject.
Section ValueObject.
(** [T] is comparable and has a zero value. *)
Context {T : Type} `{EqDecision T} (zero : T).

Record t := mk { value : T; validate : option (T -> error) }.

Definition zero_object : t := mk zero None.

(** [New] returns the zero [ValueObject] beside an error. *)
Definition New (v : T) (f : option (T -> error)) : t * error :=
  match f with
  | Some f' => match f' v with
               | Some err => (zero_object, Some err)
               | None => (mk v f, None)
               end
  | None => (mk v f, None)
  end.

Definition MustNew (v : T) (f : option (T -> error)) : outcome t :=
  match New v f with
  | (_, Some err) => Panicked (Error err)
  | (vo, None) => Done vo
  end.

Definition Value (v : t) : T := value v.
Definition Equals (v other : t) : bool := bool_decide (value v = value other).

Definition Validate (v : t) : error :=
  match validate v with
  | Some f => f (value v)
  | None =>
      if bool_decide (value v = zero)
      then Some (ENew "value object: value cannot be zero") else None
  end.
End ValueObject.
Arguments t : clear implicits.
Arguments mk {T} value validate.
End ValueObject.

(** ** Lemmas *)

Lemma new_entity_ok i e : Entity.NewEntity i = Ok e <-> i <> "" /\ e = Entity.mk i.
Proof.
  unfold Entity.NewEntity. case_bool_decide; split; try (intros [? ?]); naive_solver.
Qed.

Lemma new_entity_valid i e : Entity.NewEntity i = Ok e -> Entity.Validate e = None.
Proof.
  intros [Hi ->]%new_entity_ok. unfold Entity.Validate. by rewrite bool_decide_eq_false_2.
Qed.

Lemma audit_json_roundtrip e e0 : Auditable.FromJSON e0 (Auditable.ToJSON e) = e.
Proof. by destruct e as [[i] c u]. Qed.

#[export] Hint Resolve new_entity_valid : go.
#[export] Hint Rewrite audit_json_roundtrip : go_rw.

(** ** Properties *)

(** Whatever sequence of touches, soft deletions and restorations is
    applied to a soft-deletable entity, its identity and creation time never change, and it is
    deleted exactly when the last deletion or restoration was a deletion. *)
Theorem soft_delete_history ops e :
  let e' := fold_left SoftDeletable.step ops e in
  Auditable.entity (SoftDeletable.auditable e') = Auditable.entity (SoftDeletable.auditable e) /\
  Auditable.createdAt (SoftDeletable.auditable e') =
    Auditable.createdAt (SoftDeletable.auditable e) /\
  SoftDeletable.IsDeleted e' =
    fold_left (fun d o => match o with
                          | SoftDeletable.OpTouch _ => d
                          | SoftDeletable.OpSoftDelete _ _ => true
                          | SoftDeletable.OpRestore _ => false
                          end) ops (SoftDeletable.IsDeleted e).
Proof.
  revert e. induction ops as [|o ops IH]; intros e; [done|].
  cbn [fold_left]. destruct (IH (SoftDeletable.step e o)) as (-> & -> & ->).
  by destruct o.
Qed.

(** A value object that [New] accepts holds the given value, and its own
    [Validate] accepts it exactly when a validator was given or the value is not the zero value. *)
Theorem value_object_validate {T} `{EqDecision T} (zero v : T) f vo :
  ValueObject.New zero v f = (vo, None) ->
  ValueObject.Value vo = v /\
  (ValueObject.Validate zero vo = None <-> is_Some f \/ v <> zero).
Proof.
  unfold ValueObject.New, ValueObject.Validate, ValueObject.Value.
  destruct f as [f|]; [destruct (f v) eqn:Hf; [done|]|]; intros [= <-]; cbn; split; try done.
  - split; eauto.
  - case_bool_decide; split; try done; [intros [[? ?]|?]|]; naive_solver.
Qed.

Lemma value_object_validate_witness :
  ValueObject.Value (ValueObject.mk 3%Z None) = 3%Z /\
  (ValueObject.Validate 0%Z (ValueObject.mk 3%Z None) = None <->
   is_Some (@None (Z -> error)) \/ 3%Z <> 0%Z).
Proof. apply (value_object_validate 0%Z 3%Z None). reflexivity. Defined.
