(* ===== verification/Trace.v ===== *)
(** * Traces: [src/trace]

    Spans, the request context ([context.Context]) and the in-memory trace
    store with its index, its eviction and its queries. *)

From S2P Require Import Prelude Errors.

(** ** Spans ([span.go]) *)

Definition SpanTypeCommand : string := "command".
Definition SpanTypeQuery : string := "query".
Definition SpanTypeEvent : string := "event".

Definition SpanStatusSuccess : string := "success".
Definition SpanStatusError : string := "error".
Definition SpanStatusBusinessError : string := "business_error".

Record Span := mkSpan {
  SpanID : string;
  TraceID : string;
  ParentID : string;
  SpanType : string;
  SpanName : string;
  Status : string;
  SpanError : string;
  StartedAt : Z;
  Duration : Z }.

Record TraceFilter := mkFilter {
  f_TraceID : string;
  f_Type : string;
  f_Status : string;
  f_StartTime : Z;
  f_EndTime : Z;
  f_NameContains : string }.

(** ** The request context ([trace.go])

    A [context.Context] is seen through the keys the framework gives it: the
    trace context, the parent span, the open span of the tracing aspect, the
    in-memory and PostgreSQL transactions (references to shared states), the
    name of the running event handler, and the deadline. An absent key is
    [None]. [context.WithValue] replaces one field. *)
Record context := mkContext {
  traceContext : option (string * string);
  parentSpan : option string;
  openSpan : option Span;
  memTx : option nat;
  pgTx : option nat;
  handlerType : option string;
  deadline : option Z }.

Definition Background : context := mkContext None None None None None None None.

Definition WithTrace (ctx : context) (traceID spanID : string) : context :=
  mkContext (Some (traceID, spanID)) (parentSpan ctx) (openSpan ctx)
            (memTx ctx) (pgTx ctx) (handlerType ctx) (deadline ctx).

Definition GetTraceID (ctx : context) : string :=
  match traceContext ctx with Some (t, _) => t | None => "" end.
Definition GetSpanID (ctx : context) : string :=
  match traceContext ctx with Some (_, s) => s | None => "" end.

Definition WithParentSpan (ctx : context) (parentSpanID : string) : context :=
  mkContext (traceContext ctx) (Some parentSpanID) (openSpan ctx)
            (memTx ctx) (pgTx ctx) (handlerType ctx) (deadline ctx).

Definition GetParentSpanID (ctx : context) : string :=
  default "" (parentSpan ctx).

Definition with_open_span (ctx : context) (s : Span) : context :=
  mkContext (traceContext ctx) (parentSpan ctx) (Some s)
            (memTx ctx) (pgTx ctx) (handlerType ctx) (deadline ctx).
Definition with_mem_tx (ctx : context) (r : nat) : context :=
  mkContext (traceContext ctx) (parentSpan ctx) (openSpan ctx)
            (Some r) (pgTx ctx) (handlerType ctx) (deadline ctx).
Definition with_pg_tx (ctx : context) (r : nat) : context :=
  mkContext (traceContext ctx) (parentSpan ctx) (openSpan ctx)
            (memTx ctx) (Some r) (handlerType ctx) (deadline ctx).
Definition with_handler_type (ctx : context) (h : string) : context :=
  mkContext (traceContext ctx) (parentSpan ctx) (openSpan ctx)
            (memTx ctx) (pgTx ctx) (Some h) (deadline ctx).
Definition with_deadline (ctx : context) (d : Z) : context :=
  mkContext (traceContext ctx) (parentSpan ctx) (openSpan ctx)
            (memTx ctx) (pgTx ctx) (handlerType ctx)
            (Some (match deadline ctx with Some d' => Z.min d d' | None => d end)).

(** [NewTraceID] and [NewSpanID]. *)
Definition NewTraceID {W} `{!IdGen W} : GoM W string := new_uuid.
Definition NewSpanID {W} `{!IdGen W} : GoM W string := new_uuid.

(** ** The in-memory trace store ([store.go])

    The stored pointers are modelled by the spans they point to: the only
    writer of a span, the tracing aspect, hands it over after its last write.
    [stopped] says that [stopCh] is closed. *)
Record InMemoryTraceStore := mkStore {
  spans : list Span;
  traceIndex : gmap string (list nat);
  ttl : Z;
  maxSpans : Z;
  stopped : bool }.

Definition defaultTTL : Z := 24 * 3600 * 1000000000.
Definition defaultMaxSpans : Z := 10000.

Inductive InMemoryTraceStoreOption := WithTTL (t : Z) | WithMaxSpans (n : Z).

Definition apply_option (s : InMemoryTraceStore) (o : InMemoryTraceStoreOption) :
    InMemoryTraceStore :=
  match o with
  | WithTTL t => mkStore (spans s) (traceIndex s) t (maxSpans s) (stopped s)
  | WithMaxSpans n => mkStore (spans s) (traceIndex s) (ttl s) n (stopped s)
  end.

Definition NewInMemoryTraceStore (opts : list InMemoryTraceStoreOption) : InMemoryTraceStore :=
  fold_left apply_option opts (mkStore [] ∅ defaultTTL defaultMaxSpans false).

Definition Close (s : InMemoryTraceStore) : InMemoryTraceStore :=
  mkStore (spans s) (traceIndex s) (ttl s) (maxSpans s) true.

Definition index_add (m : gmap string (list nat)) (tid : string) (i : nat) :
    gmap string (list nat) :=
  <[tid := mget [] m tid ++ [i]]> m.

Fixpoint rebuild_from (i : nat) (l : list Span) (m : gmap string (list nat)) :
    gmap string (list nat) :=
  match l with
  | [] => m
  | sp :: l' => rebuild_from (S i) l' (index_add m (TraceID sp) i)
  end.

Definition rebuildIndex (s : InMemoryTraceStore) : InMemoryTraceStore :=
  mkStore (spans s) (rebuild_from 0 (spans s) ∅) (ttl s) (maxSpans s) (stopped s).

(** The loop that counts the expired spans at the front. *)
Fixpoint count_expired (cutoff : Z) (l : list Span) : nat :=
  match l with
  | sp :: l' => if time_before (StartedAt sp) cutoff then S (count_expired cutoff l') else 0
  | [] => 0
  end.

Definition first_valid (now : Z) (s : InMemoryTraceStore) : Z :=
  let fv := Z.of_nat (count_expired (now - ttl s)%Z (spans s)) in
  if bool_decide (zlen (spans s) - fv > maxSpans s)%Z
  then (zlen (spans s) - maxSpans s)%Z else fv.

Definition evict (now : Z) (s : InMemoryTraceStore) : outcome InMemoryTraceStore :=
  let fv := first_valid now s in
  if bool_decide (fv > 0)%Z
  then match slice_from fv (spans s) with
       | Some l =>
           Done (rebuildIndex (mkStore l (traceIndex s) (ttl s) (maxSpans s) (stopped s)))
       | None => Panicked "slice bounds out of range"
       end
  else Done s.

Definition RecordSpan (now : Z) (sp : Span) (s : InMemoryTraceStore) :
    outcome InMemoryTraceStore :=
  let idx := length (spans s) in
  evict now (mkStore (spans s ++ [sp]) (index_add (traceIndex s) (TraceID sp) idx)
                     (ttl s) (maxSpans s) (stopped s)).

Definition trace_not_found (tid : string) : goerr :=
  EWrap ("trace " +:+ tid +:+ ": ") ErrNotFound "".

Definition GetTrace (tid : string) (s : InMemoryTraceStore) : outcome (result (list Span)) :=
  match traceIndex s !! tid with
  | None => Done (Err (trace_not_found tid))
  | Some indexes => l ← mapM (index_get (spans s)) indexes; Done (Ok l)
  end.

Definition anyMatch (l : list Span) (pred : Span -> bool) : bool := existsb pred l.

Definition matchesFilter (l : list Span) (f : TraceFilter) : bool :=
  (bool_decide (f_TraceID f = "")
     || anyMatch l (fun s => bool_decide (TraceID s = f_TraceID f))) &&
  (bool_decide (f_Type f = "")
     || anyMatch l (fun s => bool_decide (SpanType s = f_Type f))) &&
  (bool_decide (f_Status f = "")
     || anyMatch l (fun s => bool_decide (Status s = f_Status f))) &&
  (time_is_zero (f_StartTime f)
     || anyMatch l (fun s => negb (time_before (StartedAt s) (f_StartTime f)))) &&
  (time_is_zero (f_EndTime f)
     || anyMatch l (fun s => negb (time_after (StartedAt s) (f_EndTime f)))) &&
  (bool_decide (f_NameContains f = "")
     || anyMatch l (fun s => str_contains (SpanName s) (f_NameContains f))).

(** The loop of [ListTraces] over the index, in the map's (unspecified) order. *)
Fixpoint list_traces_loop (s : InMemoryTraceStore) (f : TraceFilter)
    (entries : list (string * list nat)) : outcome (list string) :=
  match entries with
  | [] => Done []
  | (tid, indexes) :: rest =>
      if negb (bool_decide (f_TraceID f = "")) && negb (bool_decide (tid = f_TraceID f))
      then list_traces_loop s f rest
      else l ← mapM (index_get (spans s)) indexes;
           tids ← list_traces_loop s f rest;
           Done (if matchesFilter l f then tid :: tids else tids)
  end.

Definition ListTraces (f : TraceFilter) (s : InMemoryTraceStore) : outcome (list string) :=
  list_traces_loop s f (map_to_list (traceIndex s)).

(** [WithBackgroundCleanup]: one tick of its goroutine, which is gone once the store is closed. *)
Definition cleanup_tick (now : Z) (s : InMemoryTraceStore) : outcome InMemoryTraceStore :=
  if stopped s then Done s else evict now s.

(** The operations of the store, the tick of the cleanup goroutine included. *)
Inductive trace_op :=
| OpRecord (now : Z) (sp : Span)
| OpCleanup (now : Z)
| OpClose.

Definition trace_step (s : InMemoryTraceStore) (o : trace_op) : outcome InMemoryTraceStore :=
  match o with
  | OpRecord now sp => RecordSpan now sp s
  | OpCleanup now => cleanup_tick now s
  | OpClose => Done (Close s)
  end.

Fixpoint trace_run (s : InMemoryTraceStore) (ops : list trace_op) : outcome InMemoryTraceStore :=
  match ops with
  | [] => Done s
  | o :: ops' => s' ← trace_step s o; trace_run s' ops'
  end.

(** ** The index invariant *)

Definition of_trace (tid : string) (sp : Span) : bool := bool_decide (TraceID sp = tid).

(** What an index entry must be: the positions of the trace's spans, absent when
    there is none. *)
Definition entry_of (tid : string) (i : nat) (l : list Span) : option (list nat) :=
  match positions (of_trace tid) i l with [] => None | ps => Some ps end.

Record store_ok (s : InMemoryTraceStore) : Prop := {
  ok_index : forall tid, traceIndex s !! tid = entry_of tid 0 (spans s);
  ok_max : (0 <= maxSpans s)%Z }.

Lemma index_add_lookup m tid i tid' :
  index_add m tid i !! tid' =
  if bool_decide (tid = tid') then Some (mget [] m tid' ++ [i]) else m !! tid'.
Proof.
  unfold index_add. case_bool_decide as H; [subst; by rewrite lookup_insert_eq|].
  by rewrite lookup_insert_ne.
Qed.

Lemma rebuild_from_lookup l i m tid :
  rebuild_from i l m !! tid =
  match positions (of_trace tid) i l with [] => m !! tid | ps => Some (mget [] m tid ++ ps) end.
Proof.
  revert i m. induction l as [|sp l IH]; intros i m; cbn; [done|].
  rewrite IH, index_add_lookup. unfold of_trace at 2, mget. rewrite index_add_lookup.
  case_bool_decide as H; cbn; [|done].
  subst. destruct (positions _ (S i) l); [done|]. cbn. by rewrite <- app_assoc.
Qed.

Lemma entry_of_snoc tid l sp :
  entry_of tid 0 (l ++ [sp]) =
  if of_trace tid sp then Some (default [] (entry_of tid 0 l) ++ [length l])
  else entry_of tid 0 l.
Proof.
  unfold entry_of. rewrite positions_app. cbn.
  destruct (of_trace tid sp); [|by rewrite app_nil_r].
  by destruct (positions _ 0 l).
Qed.

Lemma rebuildIndex_ok s : (0 <= maxSpans s)%Z -> store_ok (rebuildIndex s).
Proof.
  intros Hm. split; [|done]. intros tid. cbn. rewrite rebuild_from_lookup.
  unfold entry_of, mget. rewrite lookup_empty. cbn. by destruct (positions _ 0 (spans s)).
Qed.

Lemma count_expired_le cutoff l : count_expired cutoff l <= length l.
Proof. induction l as [|sp l IH]; cbn; [done|]. case_match; lia. Qed.

Lemma first_valid_bounds now s :
  (0 <= maxSpans s)%Z -> (0 <= first_valid now s <= zlen (spans s))%Z.
Proof.
  intros Hm. unfold first_valid, zlen.
  pose proof (count_expired_le (now - ttl s) (spans s)).
  case_bool_decide; lia.
Qed.

(** Eviction never panics for a non-negative limit: it drops the spans before
    [first_valid] and keeps the rest, with its index. *)
Lemma evict_spec now s :
  store_ok s ->
  exists s', evict now s = Done s' /\ store_ok s' /\
    spans s' = drop (Z.to_nat (first_valid now s)) (spans s) /\
    (zlen (spans s') <= maxSpans s')%Z /\ maxSpans s' = maxSpans s.
Proof.
  intros [Hi Hm]. pose proof (first_valid_bounds now s Hm) as Hb.
  unfold evict. case_bool_decide as Hpos.
  - rewrite slice_from_Some by done. eexists. split; [done|]. cbn.
    split; [by apply rebuildIndex_ok|]. split; [done|]. split; [|done].
    unfold zlen. rewrite length_drop. unfold first_valid, zlen in *.
    case_bool_decide; lia.
  - exists s. assert (first_valid now s = 0%Z) as H0 by lia.
    rewrite H0. cbn. split; [done|]. split; [by split|]. split; [done|]. split; [|done].
    unfold first_valid in *. case_bool_decide; lia.
Qed.

(** The store of [RecordSpan] before it evicts. *)
Definition appended (sp : Span) (s : InMemoryTraceStore) : InMemoryTraceStore :=
  mkStore (spans s ++ [sp]) (index_add (traceIndex s) (TraceID sp) (length (spans s)))
          (ttl s) (maxSpans s) (stopped s).

Lemma appended_ok sp s : store_ok s -> store_ok (appended sp s).
Proof.
  intros [Hi Hm]. split; cbn; [|done]. intros tid.
  rewrite index_add_lookup, entry_of_snoc. unfold of_trace, mget. rewrite Hi.
  by case_bool_decide.
Qed.

Lemma record_span_spec now sp s :
  store_ok s ->
  exists s', RecordSpan now sp s = Done s' /\ store_ok s' /\
    spans s' = drop (Z.to_nat (first_valid now (appended sp s))) (spans s ++ [sp]) /\
    (zlen (spans s') <= maxSpans s')%Z /\ maxSpans s' = maxSpans s.
Proof. intros Hok. apply (evict_spec now (appended sp s)). by apply appended_ok. Qed.

Lemma trace_step_ok s o :
  store_ok s -> exists s', trace_step s o = Done s' /\ store_ok s' /\ maxSpans s' = maxSpans s.
Proof.
  intros Hok. destruct o as [now sp|now|]; cbn.
  - destruct (record_span_spec now sp s Hok) as (s' & -> & ? & _ & _ & ?). eauto.
  - unfold cleanup_tick. destruct (stopped s); [by eauto|].
    destruct (evict_spec now s Hok) as (s' & -> & ? & _ & _ & ?). eauto.
  - eexists. split; [done|]. by destruct Hok.
Qed.

Lemma trace_run_ok ops s :
  store_ok s -> exists s', trace_run s ops = Done s' /\ store_ok s' /\ maxSpans s' = maxSpans s.
Proof.
  revert s. induction ops as [|o ops IH]; intros s Hok; cbn; [by eauto|].
  destruct (trace_step_ok s o Hok) as (s' & -> & Hok' & <-). by apply IH.
Qed.

Lemma new_store_ok opts :
  (0 <= maxSpans (NewInMemoryTraceStore opts))%Z -> store_ok (NewInMemoryTraceStore opts).
Proof.
  intros Hm. split; [|done].
  assert (forall s, spans s = [] -> traceIndex s = ∅ ->
    spans (fold_left apply_option opts s) = [] /\
    traceIndex (fold_left apply_option opts s) = ∅) as H.
  { clear Hm. induction opts as [|o opts IH]; intros s H1 H2; cbn; [done|].
    apply IH; by destruct o. }
  destruct (H (mkStore [] ∅ defaultTTL defaultMaxSpans false)) as [E1 E2]; [done..|].
  intros tid. unfold NewInMemoryTraceStore. by rewrite E1, E2.
Qed.

(** What [GetTrace] promises, over the list of retained spans. *)
Definition get_trace_spec (tid : string) (l : list Span) : result (list Span) :=
  match List.filter (of_trace tid) l with
  | [] => Err (trace_not_found tid)
  | sps => Ok sps
  end.

Lemma entry_of_read tid l ps :
  entry_of tid 0 l = Some ps ->
  mapM (index_get l) ps = Done (List.filter (of_trace tid) l) /\
  List.filter (of_trace tid) l <> [].
Proof.
  unfold entry_of. destruct (positions _ 0 l) as [|p ps'] eqn:E; [done|].
  intros [= <-]. rewrite <- E. split; [apply (positions_read _ [])|].
  rewrite <- (positions_nil_iff _ 0), E. done.
Qed.

Lemma entry_of_none tid l :
  entry_of tid 0 l = None <-> List.filter (of_trace tid) l = [].
Proof.
  unfold entry_of. rewrite <- (positions_nil_iff _ 0).
  by destruct (positions _ 0 l).
Qed.

Lemma get_trace_correct tid s :
  store_ok s -> GetTrace tid s = Done (get_trace_spec tid (spans s)).
Proof.
  intros [Hi _]. unfold GetTrace, get_trace_spec. rewrite Hi.
  destruct (entry_of tid 0 (spans s)) as [ps|] eqn:E.
  - apply entry_of_read in E as [-> Hne]. cbn. by destruct (List.filter _ _).
  - apply entry_of_none in E as ->. done.
Qed.

(** Whether [ListTraces] lists a trace that has spans, over the list of retained spans. *)
Definition trace_listed (f : TraceFilter) (l : list Span) (t : string) : bool :=
  (bool_decide (f_TraceID f = "") || bool_decide (t = f_TraceID f)) &&
  matchesFilter (List.filter (of_trace t) l) f.

Lemma list_traces_loop_spec f s entries :
  store_ok s -> Forall (fun e => traceIndex s !! e.1 = Some e.2) entries ->
  list_traces_loop s f entries = Done (List.filter (trace_listed f (spans s)) (map fst entries)).
Proof.
  intros [Hi _]. induction 1 as [|[t ix] rest Ht _ IH]; [done|]. cbn in Ht |- *.
  rewrite Hi in Ht. apply entry_of_read in Ht as [Ht _]. unfold trace_listed at 1.
  destruct (bool_decide (f_TraceID f = "")), (bool_decide (t = f_TraceID f)); cbn; try exact IH;
    rewrite Ht; cbn; rewrite IH; cbn; by destruct (matchesFilter _ f).
Qed.

Lemma list_traces_spec f s : store_ok s ->
  exists ids, ListTraces f s = Done ids /\ NoDup ids /\
    forall t, t ∈ ids <-> List.filter (of_trace t) (spans s) <> [] /\ trace_listed f (spans s) t = true.
Proof.
  intros Hok. eexists. split.
  { apply list_traces_loop_spec; [done|]. apply Forall_forall. intros [t ix]. apply elem_of_map_to_list. }
  split; [apply NoDup_ListNoDup, List.NoDup_filter, NoDup_ListNoDup, NoDup_fst_map_to_list|]. intros t.
  rewrite list_elem_of_In, filter_In, <- list_elem_of_In, <- entry_of_none, <- (ok_index s Hok t).
  rewrite (and_comm (t ∈ _)), (and_comm (_ <> _)). apply and_iff_compat_l. rewrite list_elem_of_fmap. split.
  - intros ([t' ix] & -> & Hin). cbn. by rewrite (proj1 (elem_of_map_to_list _ _ _) Hin).
  - intros Hne. destruct (traceIndex s !! t) as [ix|] eqn:E; [|done].
    exists (t, ix). split; [done|]. by apply elem_of_map_to_list.
Qed.

(** ** Properties *)

(** C17: After any sequence of recordings, cleanup ticks and closes of a trace
    store with a non-negative span limit, no operation has panicked and [GetTrace] returns
    exactly the retained spans of the trace in recording order, or a not-found error when none
    is retained: the index is never stale, whatever was evicted. *)
Theorem trace_store_refines opts ops tid :
  (0 <= maxSpans (NewInMemoryTraceStore opts))%Z ->
  exists s, trace_run (NewInMemoryTraceStore opts) ops = Done s /\
            GetTrace tid s = Done (get_trace_spec tid (spans s)).
Proof.
  intros Hm. destruct (trace_run_ok ops _ (new_store_ok opts Hm)) as (s & Hr & Hok & _).
  exists s. split; [done|]. by apply get_trace_correct.
Qed.

Definition demo_span (tid : string) (at_ : Z) : Span :=
  mkSpan "s" tid "" SpanTypeCommand "Cmd" SpanStatusSuccess "" at_ 1.

Lemma trace_store_refines_witness :
  (0 <= maxSpans (NewInMemoryTraceStore [WithMaxSpans 2]))%Z /\
  exists s, trace_run (NewInMemoryTraceStore [WithMaxSpans 2])
              [OpRecord 10 (demo_span "a" 10); OpRecord 11 (demo_span "b" 11);
               OpRecord 12 (demo_span "a" 12)] = Done s /\
            GetTrace "a" s = Done (get_trace_spec "a" (spans s)).
Proof. split; [by vm_compute|]. apply trace_store_refines. by vm_compute. Defined.

(** A span that is not expired survives the eviction that follows its recording. *)
Lemma first_valid_live now sp s :
  (0 < maxSpans s)%Z -> (now - ttl s <= StartedAt sp)%Z ->
  Z.to_nat (first_valid now (appended sp s)) <= length (spans s).
Proof.
  intros Hpos Hlive. unfold first_valid. cbn. rewrite zlen_app, zlen_cons, zlen_nil.
  assert (count_expired (now - ttl s) (spans s ++ [sp]) <= length (spans s)).
  { clear -Hlive. induction (spans s) as [|x l IH]; cbn.
    - unfold time_before. rewrite bool_decide_eq_false_2; [done|lia].
    - case_match; lia. }
  unfold zlen in *. case_bool_decide; lia.
Qed.

(** In a trace store with a positive span limit, after any history,
    recording a span does not panic, drops spans only from the front, keeps at most the limit,
    and keeps the new span as the last one unless it is itself older than the time to live. *)
Theorem record_span_bounded opts ops now sp :
  (0 < maxSpans (NewInMemoryTraceStore opts))%Z ->
  exists s s' n, trace_run (NewInMemoryTraceStore opts) ops = Done s /\
    RecordSpan now sp s = Done s' /\
    spans s' = drop n (spans s ++ [sp]) /\
    (zlen (spans s') <= maxSpans (NewInMemoryTraceStore opts))%Z /\
    ((now - ttl s <= StartedAt sp)%Z -> last (spans s') = Some sp).
Proof.
  intros Hm.
  destruct (trace_run_ok ops _ (new_store_ok opts ltac:(lia))) as (s & Hr & Hok & Hmax).
  destruct (record_span_spec now sp s Hok) as (s' & Hrec & _ & Hd & Hl & Hmax').
  exists s, s', (Z.to_nat (first_valid now (appended sp s))).
  split; [done|]. split; [done|]. split; [done|]. split; [by rewrite <- Hmax, <- Hmax'|].
  intros Hlive. rewrite Hd, drop_app_le by (apply first_valid_live; [lia|done]).
  by rewrite last_snoc.
Qed.

Lemma record_span_bounded_witness :
  exists s s' n, trace_run (NewInMemoryTraceStore [WithMaxSpans 1]) [OpRecord 10 (demo_span "a" 10)]
                   = Done s /\
    RecordSpan 20 (demo_span "b" 15) s = Done s' /\
    spans s' = drop n (spans s ++ [demo_span "b" 15]) /\
    (zlen (spans s') <= maxSpans (NewInMemoryTraceStore [WithMaxSpans 1]))%Z /\
    ((20 - ttl s <= StartedAt (demo_span "b" 15))%Z -> last (spans s') = Some (demo_span "b" 15)).
Proof. apply record_span_bounded. by vm_compute. Defined.
