(* ===== verification/Aggregate.v ===== *)
(** * Events and aggregates: [src/cqrs/event/event.go], [src/domain/event],
      [src/domain/aggregate/aggregate.go]

    [BaseEvent] and its constructors; the aggregate root with its version,
    snapshot version and uncommitted events; the generic functions
    [ApplyChange], [ApplyHistory] and [LoadFromHistory] over the
    [AggregateRef] interface. *)

From S2P Require Import Prelude Errors Entity Trace.

(** ** Event metadata *)

Record BaseEvent := mkBase {
  AggregateID : string;
  OccurredAt : Z;
  CorrelationID : string;
  CausationID : string }.

Definition zero_base : BaseEvent := mkBase "" time_zero "" "".

Definition NewBaseEvent (aggregateID : string) (occurredAt : Z) : BaseEvent :=
  mkBase aggregateID occurredAt "" "".

Definition NewDomainEvent (now : Z) (aggregateID : string) : BaseEvent :=
  mkBase aggregateID now "" "".

Definition NewDomainEventWithCorrelation (now : Z) (aggregateID correlationID causationID : string) :
    BaseEvent :=
  mkBase aggregateID now correlationID causationID.

Definition WithCorrelation (now : Z) (ctx : context) (aggregateID : string) : BaseEvent :=
  mkBase aggregateID now (GetTraceID ctx) (GetSpanID ctx).

(** The [Event] interface: [Metadata()], which is a [BaseEvent] for event types
    that embed one ([None] otherwise); the short type name and the [%T] rendering. *)
Class Event (E : Type) := {
  Metadata : E -> option BaseEvent;
  EventNameOf : E -> string;
  type_string : E -> string }.

Definition MetadataOf {E} `{!Event E} (e : E) : BaseEvent :=
  default zero_base (Metadata e).

(** [FromSlice]: the conversion of a typed slice to a slice of interfaces. *)
Definition FromSlice {E I} (to_interface : E -> I) (events : list E) : list I :=
  map to_interface events.

(** ** The aggregate root *)

Record AggregateRoot (E : Type) := mkRoot {
  root_entity : Entity.t;
  version : Z;
  snapshotVersion : Z;
  uncommittedEvents : list E }.
Arguments mkRoot {E} root_entity version snapshotVersion uncommittedEvents.
Arguments root_entity {E} _.
Arguments version {E} _.
Arguments snapshotVersion {E} _.
Arguments uncommittedEvents {E} _.

Section Root.
Context {E : Type}.
Implicit Types a : AggregateRoot E.

Definition NewAggregateRoot (i : string) : result (AggregateRoot E) :=
  match Entity.NewEntity i with
  | Err err => Err err
  | Ok e => Ok (mkRoot e 0 (-1) [])
  end.

(** [(a *AggregateRoot) Equals(other)], nil-safe. *)
Definition Equals (a other : option (AggregateRoot E)) : bool :=
  match a, other with
  | Some x, Some y =>
      bool_decide (Entity.ID (root_entity x) = Entity.ID (root_entity y))
  | None, None => true
  | _, _ => false
  end.

Definition ID a : string := Entity.ID (root_entity a).
Definition Version a : Z := version a.

Definition ExpectedVersion a : Z := version a -i zlen (uncommittedEvents a).

Definition SetSnapshotVersion (v : Z) a : AggregateRoot E :=
  mkRoot (root_entity a) v v (uncommittedEvents a).
Definition SnapshotVersion a : Z := snapshotVersion a.

Definition UncommittedEvents a : list E := uncommittedEvents a.
Definition MarkEventsAsCommitted a : AggregateRoot E :=
  mkRoot (root_entity a) (version a) (snapshotVersion a) [].

Definition Validate a : error :=
  match Entity.Validate (root_entity a) with
  | Some err => Some (EWrap "aggregate: " err "")
  | None =>
      if bool_decide (version a < 0)%Z
      then Some (ENew "aggregate: version cannot be negative") else None
  end.

(** [Clone] copies the slice; slices are values here. *)
Definition Clone (a : option (AggregateRoot E)) : option (AggregateRoot E) :=
  match a with
  | None => None
  | Some a => Some (mkRoot (root_entity a) (version a) (snapshotVersion a) (uncommittedEvents a))
  end.

Record AggregateRootJSON := mkRootJSON {
  json_base : Entity.EntityJSON;
  json_version : Z;
  json_snapshotVersion : Z }.

Definition ToJSON a : AggregateRootJSON :=
  mkRootJSON (Entity.ToJSON (root_entity a)) (version a) (snapshotVersion a).
Definition FromJSON a (j : AggregateRootJSON) : AggregateRoot E :=
  mkRoot (Entity.FromJSON (root_entity a) (json_base j)) (json_version j)
         (json_snapshotVersion j) (uncommittedEvents a).

(** The framework's updates of the fields of the embedded root. *)
Definition bump a : AggregateRoot E :=
  mkRoot (root_entity a) (version a +i 1) (snapshotVersion a) (uncommittedEvents a).
Definition record_event (e : E) a : AggregateRoot E :=
  mkRoot (root_entity a) (version a +i 1) (snapshotVersion a) (uncommittedEvents a ++ [e]).
End Root.

(** ** The [AggregateRef] interface

    [put_root] stands for the framework's writes through the pointer that
    [GetAggregateRoot] returns; [When] mutates its receiver, also when it
    returns an error. *)
Class AggregateRef (T E : Type) := {
  GetAggregateRoot : T -> AggregateRoot E;
  put_root : AggregateRoot E -> T -> T;
  When : E -> T -> T * error }.

(** What an aggregate type promises: the root is a field of it, and [When]
    mutates only the domain state, without looking at the root's bookkeeping. *)
Class AggregateRefLaws (T E : Type) `{!AggregateRef T E} : Prop := {
  root_put : forall r a, GetAggregateRoot (put_root r a) = r;
  put_put : forall r r' a, put_root r (put_root r' a) = put_root r a;
  put_root_get : forall a, put_root (GetAggregateRoot a) a = a;
  when_root : forall e a, GetAggregateRoot (When e a).1 = GetAggregateRoot a;
  when_put : forall e r a,
    When e (put_root r a) = (put_root r (When e a).1, (When e a).2) }.

Section AggregateFunctions.
Context {T E : Type} `{!AggregateRef T E} `{!Event E}.

Definition wrap_apply (e : E) (err : goerr) : goerr :=
  EWrap ("apply event " +:+ type_string e +:+ ": ") err "".

Definition ApplyChange (agg : T) (e : E) : T * error :=
  match When e agg with
  | (agg', Some err) => (agg', Some (wrap_apply e err))
  | (agg', None) => (put_root (record_event e (GetAggregateRoot agg')) agg', None)
  end.

Definition ApplyHistory (agg : T) (e : E) : T * error :=
  match When e agg with
  | (agg', Some err) => (agg', Some (wrap_apply e err))
  | (agg', None) => (put_root (bump (GetAggregateRoot agg')) agg', None)
  end.

Fixpoint LoadFromHistory (agg : T) (events : list E) : T * error :=
  match events with
  | [] => (agg, None)
  | e :: rest =>
      match ApplyHistory agg e with
      | (agg', Some err) => (agg', Some err)
      | (agg', None) => LoadFromHistory agg' rest
      end
  end.

(** [CloneAggregate]: only the embedded root is copied. *)
Definition CloneAggregate (agg : option T) : option (AggregateRoot E) :=
  match agg with
  | None => None
  | Some a => Clone (Some (GetAggregateRoot a))
  end.

(** A command handler's events, applied one after the other until one fails. *)
Fixpoint apply_changes (agg : T) (events : list E) : T * error :=
  match events with
  | [] => (agg, None)
  | e :: rest =>
      match ApplyChange agg e with
      | (agg', Some err) => (agg', Some err)
      | (agg', None) => apply_changes agg' rest
      end
  end.
End AggregateFunctions.

(** ** Lemmas *)

Lemma expected_version_record {E} (e : E) a :
  ExpectedVersion (record_event e a) = ExpectedVersion a.
Proof.
  unfold ExpectedVersion, record_event. cbn. autorewrite with go_rw.
  apply int_sub_add_shift.
Qed.

Lemma expected_version_clean {E} (a : AggregateRoot E) :
  uncommittedEvents a = [] -> in_int64 (version a) -> ExpectedVersion a = version a.
Proof.
  intros Hu Hv. unfold ExpectedVersion. rewrite Hu, zlen_nil, int_sub_id; by rewrite Z.sub_0_r.
Qed.

Lemma expected_version_committed {E} (a : AggregateRoot E) :
  in_int64 (version a) -> ExpectedVersion (MarkEventsAsCommitted a) = version a.
Proof. intros Hv. by rewrite expected_version_clean. Qed.

#[export] Hint Rewrite @expected_version_record : go_rw.

Section AggregateLemmas.
Context {T E : Type} `{!AggregateRef T E, !AggregateRefLaws T E} `{!Event E}.
Implicit Types agg : T.

Lemma apply_change_root agg e :
  GetAggregateRoot (ApplyChange agg e).1 =
  match (When e agg).2 with
  | Some _ => GetAggregateRoot agg
  | None => record_event e (GetAggregateRoot agg)
  end.
Proof.
  unfold ApplyChange. pose proof (when_root e agg) as H.
  destruct (When e agg) as [agg' [err|]]; cbn in *; [done|]. by rewrite root_put, H.
Qed.

Lemma apply_change_expected agg e :
  ExpectedVersion (GetAggregateRoot (ApplyChange agg e).1) =
  ExpectedVersion (GetAggregateRoot agg).
Proof.
  rewrite apply_change_root. destruct ((When e agg).2); by autorewrite with go_rw.
Qed.

Lemma apply_change_uncommitted agg agg' e :
  ApplyChange agg e = (agg', None) ->
  uncommittedEvents (GetAggregateRoot agg') =
    uncommittedEvents (GetAggregateRoot agg) ++ [e].
Proof.
  intros H. pose proof (apply_change_root agg e) as Hr. rewrite H in Hr. cbn in Hr.
  unfold ApplyChange in H. destruct (When e agg) as [x [w|]]; [done|]. cbn in Hr. by rewrite Hr.
Qed.

Lemma apply_changes_expected agg events :
  ExpectedVersion (GetAggregateRoot (apply_changes agg events).1) =
  ExpectedVersion (GetAggregateRoot agg).
Proof.
  revert agg. induction events as [|e rest IH]; intros agg; cbn; [done|].
  pose proof (apply_change_expected agg e) as He.
  destruct (ApplyChange agg e) as [agg' [err|]]; cbn in *; [done|]. by rewrite IH.
Qed.

Lemma load_history_app agg es es' :
  LoadFromHistory agg (es ++ es') =
  match LoadFromHistory agg es with
  | (agg', Some err) => (agg', Some err)
  | (agg', None) => LoadFromHistory agg' es'
  end.
Proof.
  revert agg. induction es as [|e es IH]; intros agg; cbn; [done|].
  by destruct (ApplyHistory agg e) as [agg' [err|]].
Qed.

(** Applying a new event and replaying it differ only in the bookkeeping. *)
Lemma apply_history_of_change agg agg' e r :
  ApplyChange agg e = (agg', None) -> version r = version (GetAggregateRoot agg) ->
  ApplyHistory (put_root r agg) e = (put_root (bump r) agg', None) /\
  version (bump r) = version (GetAggregateRoot agg').
Proof.
  intros Hc Hv. pose proof (apply_change_root agg e) as Hr. rewrite Hc in Hr.
  unfold ApplyChange in Hc. unfold ApplyHistory. rewrite when_put.
  pose proof (when_root e agg) as Hw.
  destruct (When e agg) as [x [err|]]; [done|]. injection Hc as <-. cbn in *.
  rewrite !root_put, !put_put. split; [done|]. cbn. by rewrite Hv, Hw.
Qed.
End AggregateLemmas.

(** ** Properties *)

(** [ApplyChange] on success increments the version by one and appends
    exactly the event to the uncommitted events; on failure it returns an error that wraps the one
    of [When] (so [errors.Is] sees through it) and leaves version and uncommitted events alone. *)
Theorem apply_change_spec {T E} `{!AggregateRef T E, !AggregateRefLaws T E, !Event E}
    (agg agg' : T) (e : E) (err : error) :
  ApplyChange agg e = (agg', err) ->
  let r := GetAggregateRoot agg in let r' := GetAggregateRoot agg' in
  match err with
  | None => version r' = version r +i 1 /\
            uncommittedEvents r' = uncommittedEvents r ++ [e] /\
            root_entity r' = root_entity r /\ snapshotVersion r' = snapshotVersion r
  | Some _ => r' = r /\ forall t, Is err t = Is (When e agg).2 t
  end.
Proof.
  intros H. pose proof (apply_change_root agg e) as Hr. rewrite H in Hr. cbn in *.
  unfold ApplyChange in H. destruct (When e agg) as [x [w|]]; injection H as <- <-; cbn in *.
  - split; [done|]. intros t. by autorewrite with go_rw.
  - by rewrite Hr.
Qed.

(** However many events a command handler applies, and whether or not one of
    them fails, the version expected in the store (version minus uncommitted events, in 64-bit
    arithmetic) stays what it was when the aggregate was loaded. *)
Theorem expected_version_stable {T E} `{!AggregateRef T E, !AggregateRefLaws T E, !Event E}
    (agg : T) (events : list E) :
  ExpectedVersion (GetAggregateRoot (apply_changes agg events).1) =
  ExpectedVersion (GetAggregateRoot agg).
Proof. apply apply_changes_expected. Qed.


(** An aggregate root restored from its JSON struct into any receiver has
    the identity, version and snapshot version of the original; after the events are committed it
    is the original itself, and its expected version is its version. *)
Theorem root_json_roundtrip {E} (a : AggregateRoot E) (receiver : AggregateRoot E) :
  uncommittedEvents receiver = [] -> in_int64 (version a) ->
  FromJSON receiver (ToJSON a) = MarkEventsAsCommitted a /\
  ExpectedVersion (FromJSON receiver (ToJSON a)) = version a.
Proof.
  intros Hu Hv. destruct a as [[i] v sv evs], receiver as [e0 v0 s0 u0].
  cbn in Hu. subst. split; [done|].
  apply (expected_version_committed (mkRoot (Entity.mk i) v sv evs)). done.
Qed.

(** ** A concrete aggregate

    A counter whose events add to it and that refuses negative events. *)
Module Demo.
Record counter := mkCounter { croot : AggregateRoot Z; total : Z }.

#[export] Instance z_event : Event Z :=
  { Metadata _ := None; EventNameOf _ := "Added"; type_string _ := "*demo.Added" }.

#[export] Instance counter_ref : AggregateRef counter Z := {
  GetAggregateRoot := croot;
  put_root r c := mkCounter r (total c);
  When e c := if bool_decide (e < 0)%Z then (c, Some (ENew "negative"))
              else (mkCounter (croot c) (total c +i e), None) }.

#[export] Instance counter_laws : AggregateRefLaws counter Z.
Proof.
  split; intros; try done; try by destruct a.
  - cbn. by case_bool_decide.
  - cbn. by case_bool_decide.
Qed.

Definition c0 : counter := mkCounter (mkRoot (Entity.mk "c1") 0 (-1) []) 0.
Definition c1 : counter := mkCounter (mkRoot (Entity.mk "c1") 1 (-1) [5%Z]) 5.
Definition c2 : counter := mkCounter (mkRoot (Entity.mk "c1") 2 (-1) [5%Z; 7%Z]) 12.
End Demo.
Import Demo.

Lemma apply_change_spec_witness :
  ApplyChange Demo.c0 5%Z = (Demo.c1, None) /\
  version (Demo.croot Demo.c1) = version (Demo.croot Demo.c0) +i 1.
Proof.
  split; [reflexivity|].
  exact (proj1 (apply_change_spec Demo.c0 Demo.c1 5%Z None eq_refl)).
Defined.

Lemma expected_version_stable_witness :
  ExpectedVersion (GetAggregateRoot (apply_changes Demo.c1 [7%Z; (-3)%Z; 4%Z]).1) = 0%Z.
Proof. exact (expected_version_stable Demo.c1 [7%Z; (-3)%Z; 4%Z]). Defined.


Lemma root_json_roundtrip_witness :
  FromJSON (Demo.croot Demo.c0) (ToJSON (Demo.croot Demo.c2)) =
    MarkEventsAsCommitted (Demo.croot Demo.c2) /\
  ExpectedVersion (FromJSON (Demo.croot Demo.c0) (ToJSON (Demo.croot Demo.c2))) = 2%Z.
Proof.
  apply (root_json_roundtrip (Demo.croot Demo.c2) (Demo.croot Demo.c0)); [reflexivity|].
  unfold in_int64, two63; cbn; lia.
Defined.
