(* ===== verification/Aspect.v ===== *)
(** * The aspect chain: [src/aspect/chain.go]

    Command, query and event aspects wrap an operation in onion order. The Go
    interfaces [CommandAspect], [QueryAspect] and [EventAspect] are records of
    world-passing functions; an event aspect has no result, so its result type
    is [unit]. The chain never looks inside a message or a result, so both are
    type parameters, with [nil_result] for Go's [nil]. *)

From S2P Require Import Prelude Errors Trace.

Section Aspects.
Context (W : Type).

Record Aspect (M R : Type) := mkAspect {
  Name : string;
  Order : Z;
  Before : context -> M -> GoM W (context * error);
  After : context -> M -> R -> error -> Z -> GoM W error }.
End Aspects.
Arguments mkAspect {W M R} Name Order Before After.
Arguments Name {W M R} _.
Arguments Order {W M R} _.
Arguments Before {W M R} _ _ _.
Arguments After {W M R} _ _ _ _ _ _.

(** [if afterErr != nil { if err == nil { err = afterErr } else { err = errors.Join(err, afterErr) } }] *)
Definition combine_errors (err afterErr : error) : error :=
  match afterErr with
  | None => err
  | Some _ => match err with None => afterErr | Some _ => errors_Join [err; afterErr] end
  end.

Section Run.
Context {W M R : Type} `{!Clock W} (nil_result : R).

(** The recursion on [index] over the copied slice is a recursion on the
    aspects that remain. *)
Fixpoint run_aspects (ctx : context) (msg : M) (next : context -> GoM W (R * error))
    (aspects : list (Aspect W M R)) : GoM W (R * error) :=
  match aspects with
  | [] => next ctx
  | a :: rest =>
      '(newCtx, err) ← Before a ctx msg;
      match err with
      | Some e => mret (nil_result, Some e)
      | None =>
          start ← time_now;
          '(result, err) ← run_aspects newCtx msg next rest;
          stop ← time_now;
          afterErr ← After a newCtx msg result err (stop -i start);
          mret (result, combine_errors err afterErr)
      end
  end.
End Run.

(** ** The chain *)

Section Chain.
Context {W C Q E R : Type} `{!Clock W} `{!SortSlice} (nil_result : R).

Abbreviation CommandAspect := (Aspect W C R).
Abbreviation QueryAspect := (Aspect W Q R).
Abbreviation EventAspect := (Aspect W E unit).

Record AspectChain := mkChain {
  queryAspects : list QueryAspect;
  commandAspects : list CommandAspect;
  eventAspects : list EventAspect }.

Definition NewAspectChain : AspectChain := mkChain [] [] [].

Definition HasAspect (name : string) (c : AspectChain) : bool :=
  existsb (fun a => bool_decide (Name a = name)) (commandAspects c) ||
  existsb (fun a => bool_decide (Name a = name)) (queryAspects c) ||
  existsb (fun a => bool_decide (Name a = name)) (eventAspects c).

(** One loop of [RegisteredNames]: [seen] and [names] hold the same names. *)
Definition collect_names (names : list string) (l : list string) : list string :=
  fold_left (fun names n => if bool_decide (n ∈ names) then names else names ++ [n]) l names.

Definition RegisteredNames (c : AspectChain) : list string :=
  collect_names (collect_names (collect_names []
    (map Name (commandAspects c))) (map Name (queryAspects c))) (map Name (eventAspects c)).

Definition by_order {M R'} (a b : Aspect W M R') : bool := bool_decide (Order a < Order b)%Z.

Definition RegisterQueryAspect (a : QueryAspect) (c : AspectChain) : AspectChain :=
  mkChain (sort_slice by_order (queryAspects c ++ [a])) (commandAspects c) (eventAspects c).

Definition RegisterCommandAspect (a : CommandAspect) (c : AspectChain) : AspectChain :=
  mkChain (queryAspects c) (sort_slice by_order (commandAspects c ++ [a])) (eventAspects c).

Definition RegisterEventAspect (a : EventAspect) (c : AspectChain) : AspectChain :=
  mkChain (queryAspects c) (commandAspects c) (sort_slice by_order (eventAspects c ++ [a])).

(** A value that may implement several of the aspect interfaces. *)
Record AnyAspect := mkAny {
  as_command : option CommandAspect;
  as_query : option QueryAspect;
  as_event : option EventAspect }.

Definition RegisterAspect (a : AnyAspect) (c : AspectChain) : AspectChain :=
  let c := match as_command a with Some ca => RegisterCommandAspect ca c | None => c end in
  let c := match as_query a with Some qa => RegisterQueryAspect qa c | None => c end in
  match as_event a with Some ea => RegisterEventAspect ea c | None => c end.

Definition runQueryAspects := run_aspects (W:=W) (M:=Q) nil_result.
Definition runCommandAspects := run_aspects (W:=W) (M:=C) nil_result.
Definition runEventAspects := run_aspects (W:=W) (M:=E) tt.

Definition ExecuteWithQueryAspects (c : AspectChain) (ctx : context) (query : Q)
    (next : context -> GoM W (R * error)) : GoM W (R * error) :=
  runQueryAspects ctx query next (queryAspects c).

Definition ExecuteWithCommandAspects (c : AspectChain) (ctx : context) (cmd : C)
    (next : context -> GoM W (R * error)) : GoM W (R * error) :=
  runCommandAspects ctx cmd next (commandAspects c).

Definition ExecuteWithEventAspects (c : AspectChain) (ctx : context) (event : E)
    (next : context -> GoM W error) : GoM W error :=
  '(_, err) ← runEventAspects ctx event
                (fun ctx => err ← next ctx; mret (tt, err)) (eventAspects c);
  mret err.
End Chain.
Arguments AspectChain : clear implicits.
Arguments AnyAspect : clear implicits.

(** ** Lemmas on errors *)

Lemma is_combine err afterErr t :
  Is (combine_errors err afterErr) t = Is err t || Is afterErr t.
Proof.
  destruct err, afterErr; cbn [combine_errors]; autorewrite with go_rw; cbn;
    by rewrite ?orb_false_r.
Qed.

Lemma combine_errors_none err afterErr :
  combine_errors err afterErr = None <-> err = None /\ afterErr = None.
Proof. destruct err, afterErr; cbn; split; try done; by intros []. Qed.

#[export] Hint Rewrite is_combine : go_rw.

(** ** Lemmas on registration *)

Lemma by_order_weak {W M R} : weak_order (@by_order W M R).
Proof. unfold weak_order, by_order. split_and!; intros; repeat case_bool_decide; try done; lia. Qed.

Section Sorting.
Context {W M R : Type} `{!SortSlice, !SortSliceLaws}.
Implicit Types l : list (Aspect W M R).

Definition le_order (a b : Aspect W M R) : Prop := by_order b a = false.

Lemma le_order_iff a b : le_order a b <-> (Order a <= Order b)%Z.
Proof. unfold le_order, by_order. rewrite bool_decide_eq_false. lia. Qed.

#[local] Instance le_order_trans : Transitive le_order.
Proof. intros a b c. rewrite !le_order_iff. lia. Qed.

(** Registering the aspects of a list one after the other. *)
Definition register_list l0 l : list (Aspect W M R) :=
  fold_left (fun acc a => sort_slice by_order (acc ++ [a])) l l0.

Lemma register_list_cons l0 a l :
  register_list l0 (a :: l) = register_list (sort_slice by_order (l0 ++ [a])) l.
Proof. reflexivity. Qed.

Lemma register_list_perm l0 l : register_list l0 l ≡ₚ l0 ++ l.
Proof.
  revert l0. induction l as [|a l IH]; intros l0; [by rewrite app_nil_r|].
  rewrite register_list_cons, IH, sort_slice_perm, <- app_assoc. done.
Qed.

Lemma register_list_sorted l0 l :
  Sorted le_order l0 -> Sorted le_order (register_list l0 l).
Proof.
  revert l0. induction l as [|a l IH]; intros l0 Hs; [done|].
  rewrite register_list_cons. apply IH, sort_slice_sorted, by_order_weak.
Qed.

Lemma NoDup_order_inj l a b :
  NoDup (map Order l) -> a ∈ l -> b ∈ l -> Order a = Order b -> a = b.
Proof.
  induction l as [|x l IH]; cbn; [by intros _ ?%elem_of_nil|].
  intros [Hx Hnd]%NoDup_cons Ha Hb Heq.
  apply elem_of_cons in Ha as [->|Ha]; apply elem_of_cons in Hb as [->|Hb]; auto;
    exfalso; apply Hx; [rewrite Heq|rewrite <- Heq]; by apply list_elem_of_fmap_2.
Qed.

Lemma register_list_unique l1 l2 :
  l1 ≡ₚ l2 -> NoDup (map Order l1) -> register_list [] l1 = register_list [] l2.
Proof.
  intros Hp Hnd. apply (Sorted_unique_strong le_order).
  - intros a b. rewrite !register_list_perm, <- Hp, !le_order_iff. cbn. intros Ha Hb ??.
    eapply NoDup_order_inj; eauto. lia.
  - apply register_list_sorted. constructor.
  - apply register_list_sorted. constructor.
  - by rewrite !register_list_perm.
Qed.

Lemma register_list_eq l l' :
  l ≡ₚ l' -> Sorted le_order l' -> NoDup (map Order l') -> register_list [] l = l'.
Proof.
  intros Hp Hs Hnd. apply (Sorted_unique_strong le_order).
  - intros x y. rewrite register_list_perm, Hp, !le_order_iff. cbn. intros Hx Hy ??.
    eapply NoDup_order_inj; eauto. lia.
  - apply register_list_sorted. constructor.
  - done.
  - by rewrite register_list_perm.
Qed.
End Sorting.

(** ** Observing the hooks

    An aspect whose calls are written to a log kept beside the world. *)
Inductive hook := HBefore (name : string) | HNext | HAfter (name : string).

#[export] Instance clock_fst W L `{!Clock W} : Clock (W * L) :=
  fun '(w, l) => let (t, w') := now w in (t, (w', l)).

Definition logged {W A} (h : hook) (m : GoM W A) : GoM (W * list hook) A :=
  fun '(w, l) => let (r, w') := m w in (r, (w', l ++ [h])).

Definition observe {W M R} (a : Aspect W M R) : Aspect (W * list hook) M R :=
  mkAspect (Name a) (Order a)
    (fun ctx msg => logged (HBefore (Name a)) (Before a ctx msg))
    (fun ctx msg res err d => logged (HAfter (Name a)) (After a ctx msg res err d)).

Definition observe_next {W R} (next : context -> GoM W (R * error)) :
    context -> GoM (W * list hook) (R * error) :=
  fun ctx => logged HNext (next ctx).

(** An aspect that keeps what is beside the world, and an operation whose
    outcomes are recorded there. *)
Definition kept {W L A} (m : GoM W A) : GoM (W * L) A :=
  fun '(w, l) => let (r, w') := m w in (r, (w', l)).

Definition unobserved {W L M R} (a : Aspect W M R) : Aspect (W * L) M R :=
  mkAspect (Name a) (Order a) (fun ctx msg => kept (Before a ctx msg))
    (fun ctx msg res err d => kept (After a ctx msg res err d)).

Definition recorded {W R} (next : context -> GoM W (R * error)) :
    context -> GoM (W * list (outcome (R * error))) (R * error) :=
  fun ctx '(w, l) => let (r, w') := next ctx w in (r, (w', l ++ [r])).

(** The hooks of a run in which the aspects [entered] let the call through and
    what comes after them, the operation or the refusal of the next aspect, logs [mid]. *)
Definition onion (entered : list string) (mid : list hook) : list hook :=
  map HBefore entered ++ mid ++ map HAfter (rev entered).

Lemma onion_cons n ns mid :
  onion (n :: ns) mid = HBefore n :: onion ns mid ++ [HAfter n].
Proof. unfold onion. cbn. by rewrite map_app, <- !app_assoc. Qed.

(** ** Properties *)

(** The execution order of a chain does not depend on the order of
    registration: registering the same command aspects, with pairwise different [Order]s, in any
    two orders gives the same list of aspects, whatever [sort.Slice] does with ties. *)
Theorem registration_order_irrelevant {W C Q E R} `{!SortSlice, !SortSliceLaws}
    (l1 l2 : list (Aspect W C R)) :
  l1 ≡ₚ l2 -> NoDup (map Order l1) ->
  fold_left (fun c a => RegisterCommandAspect a c) l1 (@NewAspectChain W C Q E R) =
  fold_left (fun c a => RegisterCommandAspect a c) l2 NewAspectChain.
Proof.
  intros Hp Hnd.
  assert (forall l (c : AspectChain W C Q E R),
    fold_left (fun c a => RegisterCommandAspect a c) l c =
    mkChain (queryAspects c) (register_list (commandAspects c) l) (eventAspects c)) as Hreg.
  { induction l as [|a l IH]; intros [q cs e]; cbn; [done|]. by rewrite IH. }
  rewrite !Hreg. cbn. f_equal. by apply register_list_unique.
Qed.

(** C4: Onion order: when a run of the chain returns, the aspects that let the
    call through form a prefix of the list; their [Before] hooks ran first to last and their
    [After] hooks last to first, around either the operation (when the prefix is the whole list)
    or the [Before] of the first aspect that refused, in which case the operation did not run and
    the chain returned nil and an error. Observing the hooks does not change the run. *)
Theorem onion_order {W M R} `{!Clock W} (nil_result : R) (aspects : list (Aspect W M R))
    ctx msg next w r err w' :
  run_aspects nil_result ctx msg next aspects w = (Done (r, err), w') ->
  forall l, exists l' entered rest,
    run_aspects nil_result ctx msg (observe_next next) (map observe aspects) (w, l) =
      (Done (r, err), (w', l ++ l')) /\
    aspects = entered ++ rest /\
    match rest with
    | [] => l' = onion (map Name entered) [HNext]
    | refused :: _ =>
        l' = onion (map Name entered) [HBefore (Name refused)] /\
        r = nil_result /\ err <> None
    end.
Proof.
  revert ctx w r err w'. induction aspects as [|a rest IH]; intros ctx w r err w' Hrun l; cbn in *.
  - exists [HNext], [], []. unfold observe_next, logged. by rewrite Hrun.
  - unfold_go. cbn in *.
    destruct (Before a ctx msg w) as [[[ctx1 [e|]]|?] w1] eqn:HB; cbn in *; [|clear HB|done].
    { injection Hrun as <- <- <-. exists [HBefore (Name a)], [], (a :: rest). by split_and!. }
    destruct (now w1) as [t1 w2] eqn:Ht1.
    destruct (run_aspects _ ctx1 msg next rest w2) as [[[r1 e1]|?] w3] eqn:Hr; [|done].
    edestruct (IH _ _ _ _ _ Hr (l ++ [HBefore (Name a)])) as (l1 & ent & rs & Hobs & Heq & Hl1).
    rewrite Hobs. cbn. destruct (now w3) as [t2 w4] eqn:Ht2.
    destruct (After a ctx1 msg r1 e1 (t2 -i t1) w4) as [[e2|?] w5] eqn:HA; [|done].
    injection Hrun as <- <- <-.
    exists (HBefore (Name a) :: l1 ++ [HAfter (Name a)]), (a :: ent), rs. split_and!.
    + unfold logged at 1. rewrite HA. cbn. by rewrite <- !app_assoc.
    + by rewrite Heq.
    + destruct rs as [|x rs]; cbn [map]; rewrite onion_cons; [by rewrite Hl1|].
      destruct Hl1 as (-> & -> & He1). split_and!; [done..|].
      rewrite combine_errors_none. by intros [? _].
Qed.

(** The chain reports success only if the operation itself ran, exactly once
    in that very run, and succeeded, and then it returns the operation's result: when the outcomes
    of the operation are recorded, which changes nothing else in the run, a successful run records
    one outcome, its own. So no aspect can turn a failure into a success, replace the result or
    skip the operation without an error. *)
Theorem chain_success_sound {W M R} `{!Clock W} (nil_result : R) (aspects : list (Aspect W M R))
    ctx msg next w r w' :
  run_aspects nil_result ctx msg next aspects w = (Done (r, None), w') ->
  forall l, run_aspects nil_result ctx msg (recorded next) (map unobserved aspects) (w, l) =
    (Done (r, None), (w', l ++ [Done (r, None)])).
Proof.
  revert ctx w r w'. induction aspects as [|a rest IH]; intros ctx w r w' Hrun l; cbn in *.
  { unfold recorded. by rewrite Hrun. }
  unfold_go. cbn. destruct (Before a ctx msg w) as [[[ctx1 [e|]]|?] w1]; cbn in *; [done| |done].
  destruct (now w1) as [t1 w2].
  destruct (run_aspects _ ctx1 msg next rest w2) as [[[r1 e1]|?] w3] eqn:Hr; [|done].
  destruct (now w3) as [t2 w4] eqn:Ht2.
  destruct (After a ctx1 msg r1 e1 (t2 -i t1) w4) as [[e2|?] w5] eqn:HA; [|done].
  injection Hrun as <- He <-. apply combine_errors_none in He as [-> ->].
  rewrite (IH _ _ _ _ Hr l). cbn. rewrite Ht2. unfold kept. by rewrite HA.
Qed.

(** ** Concrete aspects *)

Module DemoAspects.
Import Env.

(** An aspect that lets calls through, and one that refuses them. *)
Definition pass {M R} (n : string) (o : Z) : Aspect env M R :=
  mkAspect n o (fun ctx _ => mret (ctx, None)) (fun _ _ _ _ _ => mret None).
Definition refuse {M R} (n : string) (o : Z) : Aspect env M R :=
  mkAspect n o (fun ctx _ => mret (ctx, Some (ENew "refused"))) (fun _ _ _ _ _ => mret None).

Definition ok_next : context -> GoM env (Z * error) := fun _ => mret (42%Z, None).
End DemoAspects.
Import Env DemoAspects.

Lemma registration_order_irrelevant_witness :
  ([pass "b" 50; pass "a" 10] : list (Aspect env unit Z)) ≡ₚ [pass "a" 10; pass "b" 50] /\
  fold_left (fun c a => RegisterCommandAspect a c) [pass "b" 50; pass "a" 10]
    (@NewAspectChain env unit unit unit Z) =
  fold_left (fun c a => RegisterCommandAspect a c) [pass "a" 10; pass "b" 50] NewAspectChain.
Proof.
  split; [apply Permutation_swap|].
  apply (registration_order_irrelevant (E := unit)); [apply Permutation_swap|].
  repeat constructor; cbn; intros H; repeat apply elem_of_cons in H as [H|H]; try done;
    by apply elem_of_nil in H.
Defined.

Lemma onion_order_witness :
  run_aspects 0%Z Background tt ok_next [pass "a" 10; pass "b" 50] (mkEnv 0 0) =
    (Done (42%Z, None), mkEnv 4 0) /\
  forall l, exists l' (entered rest : list (Aspect env unit Z)),
    run_aspects 0%Z Background tt (observe_next ok_next) (map observe [pass "a" 10; pass "b" 50])
      (mkEnv 0 0, l) = (Done (42%Z, None), (mkEnv 4 0, l ++ l')) /\
    ([pass "a" 10; pass "b" 50] : list (Aspect env unit Z)) = entered ++ rest /\
    match rest with
    | [] => l' = onion (map Name entered) [HNext]
    | refused :: _ =>
        l' = onion (map Name entered) [HBefore (Name refused)] /\
        42%Z = 0%Z /\ @None goerr <> None
    end.
Proof. split; [reflexivity|]. apply onion_order. reflexivity. Defined.

Lemma chain_success_sound_witness :
  run_aspects 0%Z Background tt ok_next [pass "a" 10] (mkEnv 0 0) =
    (Done (42%Z, None), mkEnv 2 0) /\
  run_aspects 0%Z Background tt (recorded ok_next) (map unobserved [pass "a" 10]) (mkEnv 0 0, []) =
    (Done (42%Z, None), (mkEnv 2 0, [Done (42%Z, None)])).
Proof.
  split; [reflexivity|].
  apply (chain_success_sound 0%Z [pass "a" 10] Background tt ok_next (mkEnv 0 0) 42%Z (mkEnv 2 0)).
  reflexivity.
Defined.
