(* ===== verification/Bus.v ===== *)
(** * The command and query buses: [src/cqrs/impl/memory] (bus_core, bus_helpers,
    command_bus, query_bus), [src/cqrs/command], [src/cqrs/query]

    Run-time types and values as [reflect] shows them, registration of handlers,
    routed execution inside the aspect chain, typed dispatch, and the shutdown
    protocol as a step relation over concurrent calls.

    A bus has two halves: the table of handlers (functions over the world, so it
    cannot be a part of the world) is a value, and its two counters
    ([closed], [inFlight]) are a part of the world. *)

From S2P Require Import Prelude Errors Trace Aspect.

(** ** Run-time types and values *)

(** [reflect.Type]: a type named in the package [pkg] of import path [path], a
    pointer type, or another type literal. *)
Inductive rtype :=
| TNamed (path pkg name : string)
| TPtr (elem : rtype)
| TLit (text : string).

#[export] Instance rtype_eq_dec : EqDecision rtype.
Proof. solve_decision. Defined.

Fixpoint rtype_encode (t : rtype) : gen_tree string :=
  match t with
  | TNamed pp p n => GenNode 0 [GenLeaf pp; GenLeaf p; GenLeaf n]
  | TPtr t => GenNode 1 [rtype_encode t]
  | TLit s => GenLeaf s
  end.
Fixpoint rtype_decode (g : gen_tree string) : rtype :=
  match g with
  | GenLeaf s => TLit s
  | GenNode 0 [GenLeaf pp; GenLeaf p; GenLeaf n] => TNamed pp p n
  | GenNode (S _) [g] => TPtr (rtype_decode g)
  | _ => TLit ""
  end.
#[export] Instance rtype_countable : Countable rtype.
Proof.
  apply (inj_countable' rtype_encode rtype_decode).
  intros t. induction t as [| |]; cbn; [done| |done].
  by f_equal.
Defined.

(** [t.Name()], [t.String()], and [%v] of a type that may be nil. *)
Definition type_name (t : rtype) : string :=
  match t with TNamed _ _ n => n | _ => "" end.
Fixpoint rtype_String (t : rtype) : string :=
  match t with
  | TNamed _ p n => if bool_decide (p = "") then n else p +:+ "." +:+ n
  | TPtr t => "*" +:+ rtype_String t
  | TLit s => s
  end.
Definition type_v (t : option rtype) : string :=
  match t with Some t => rtype_String t | None => "<nil>" end.
Definition PkgPath (t : rtype) : string :=
  match t with TNamed p _ _ => p | _ => "" end.
Definition is_ptr (t : rtype) : bool := match t with TPtr _ => true | _ => false end.

(** The name of a type, one pointer removed. *)
Definition base_name (t : rtype) : string :=
  match t with TPtr e => type_name e | _ => type_name t end.

(** A method of a type, receiver first among [m_ins]. *)
Record method := mkMethod { m_name : string; m_ins : list rtype }.

(** What [reflect] knows of the program's types: the exported methods in the
    order of their names, assignability, whether values have a [Pointer()], and
    the dynamic type of the contexts. *)
Class Reflect := {
  methods : rtype -> list method;
  assignable : rtype -> rtype -> bool;
  has_pointer : rtype -> bool;
  ctx_dyn : rtype }.

(** Values of type [any]. *)
Class Dynamic (V : Type) := {
  nil_any : V;
  type_of : V -> option rtype;
  as_error : V -> error }.

Definition MethodByName `{!Reflect} (name : string) (t : rtype) : option method :=
  list_find (fun m => m_name m = name) (methods t) ≫= fun p => Some p.2.

(** The short type name ([CommandNameOf], [QueryNameOf], [EventNameOf]). *)
Definition name_of {V} `{!Dynamic V} (who : string) (v : V) : outcome string :=
  match type_of v with
  | None => Panicked who
  | Some (TPtr e) => Done (type_name e)
  | Some t => Done (type_name t)
  end.
Definition CommandNameOf {V} `{!Dynamic V} (cmd : V) : outcome string :=
  name_of "command: CommandNameOf called with nil command" cmd.
Definition QueryNameOf {V} `{!Dynamic V} (q : V) : outcome string :=
  name_of "query: QueryNameOf called with nil query" q.
Definition EventNameOf {V} `{!Dynamic V} (event : V) : outcome string :=
  name_of "event: EventNameOf called with nil event" event.

(** ** Handlers *)

(** A handler value: its dynamic type (none for nil), its pointer and the code
    of its [Handle] method. *)
Record handler (W V : Type) := mkHandler {
  h_type : option rtype;
  h_pointer : N;
  h_code : context -> V -> GoM W (list V) }.
Arguments mkHandler {W V} h_type h_pointer h_code.
Arguments h_type {W V} _.
Arguments h_pointer {W V} _.
Arguments h_code {W V} _ _ _.

Definition extractPayloadFromHandleMethod (m : method) : option rtype :=
  match m_ins m with [_; _; t] => Some t | _ => None end.

(** The second component is Go's [ok]. *)
Definition extractHandlerPayloadType `{!Reflect} (handlerType : option rtype) :
    outcome (option rtype * bool) :=
  match handlerType with
  | None => Panicked "nil pointer dereference"
  | Some t =>
      if negb (is_ptr t) then
        match MethodByName "Handle" t with
        | Some m => Done (extractPayloadFromHandleMethod m, true)
        | None => Done (None, false)
        end
      else
        match MethodByName "Handle" t with
        | None => Done (None, false)
        | Some m =>
            match extractPayloadFromHandleMethod m with
            | None => Done (None, false)
            | Some pt => Done (Some pt, true)
            end
        end
  end.

Section Handlers.
Context {W V : Type} `{!Reflect, !Dynamic V}.

Abbreviation handler := (handler W V).
Definition invokerFunc : Type := context -> V -> GoM W (V * error).

(** [handleMethod.Func.Call(args)]: [reflect] checks the arguments, then runs
    the method. *)
Definition call_method (h : handler) (m : method) (ctx : context) (msg : V) :
    GoM W (list V) :=
  match m_ins m with
  | [_; c; p] =>
      match type_of msg with
      | None => go_panic "reflect: Call using zero Value argument"
      | Some t =>
          if assignable ctx_dyn c && assignable t p then h_code h ctx msg
          else go_panic "reflect: Call using wrong type"
      end
  | _ => go_panic "reflect: Call with wrong number of input arguments"
  end.

(** The invoker: the first result and, if there is a second one that is an error, that. *)
Definition invoke_with (h : handler) (m : method) : invokerFunc := fun ctx msg =>
  results ← call_method h m ctx msg;
  let err := match results with _ :: r1 :: _ => as_error r1 | _ => None end in
  match results with
  | r0 :: _ => mret (r0, err)
  | [] => mret (nil_any, err)
  end.

Definition makeInvoker (h : handler) (handlerType : option rtype) :
    outcome (result invokerFunc) :=
  match handlerType with
  | None => Panicked "nil pointer dereference"
  | Some t =>
      match MethodByName "Handle" t with
      | None => Done (Err (ENew ("handler " +:+ type_v (h_type h) +:+
                                 " does not have a Handle method")))
      | Some m => Done (Ok (invoke_with h m))
      end
  end.
End Handlers.
Arguments invokerFunc : clear implicits.

(** ** The message bus ([bus_core.go]) *)

Definition ErrBusClosed : goerr := ESentinel "memory.ErrBusClosed" "bus is closed".

(** The part of a bus that calls change. *)
Record BusState := mkBusState { closed : bool; inFlight : Z }.
Definition bus_open : BusState := mkBusState false 0.

Section MessageBus.
Context {W V : Type} `{!Clock W, !SortSlice, !Reflect, !Dynamic V} `{!Has BusState W}.

Record messageBus := mkBus {
  handlers : gmap (option rtype) (handler W V);
  invokers : gmap (option rtype) (invokerFunc W V);
  chain : AspectChain W V V V V }.

Definition newMessageBus (c : AspectChain W V V V V) : messageBus := mkBus ∅ ∅ c.

Definition NewCommandBus (c : option (AspectChain W V V V V)) : messageBus :=
  newMessageBus (default NewAspectChain c).
Definition NewQueryBus (c : option (AspectChain W V V V V)) : messageBus :=
  newMessageBus (default NewAspectChain c).

Definition already_registered (t : option rtype) : goerr :=
  ENew ("handler already registered for type " +:+ type_v t).

Definition registerHandler (h : handler W V) (inv : invokerFunc W V) (b : messageBus) :
    outcome (messageBus * error) :=
  '(payloadType, ok) ← extractHandlerPayloadType (h_type h);
  if negb ok then
    mret (b, Some (ENew ("RegisterHandler: handler must implement a Handle method, got "
                         +:+ type_v (h_type h))))
  else if bool_decide (is_Some (handlers b !! payloadType)) then
    mret (b, Some (already_registered payloadType))
  else
    mret (mkBus (<[payloadType := h]> (handlers b))
                (<[payloadType := inv]> (invokers b)) (chain b), None).

(** [CommandBus.RegisterHandler] and [QueryBus.RegisterHandler]. *)
Definition RegisterHandler (h : handler W V) (b : messageBus) : outcome (messageBus * error) :=
  inv ← makeInvoker h (h_type h);
  match inv with
  | Err err => mret (b, Some (EWrap "RegisterHandler: " err ""))
  | Ok inv => registerHandler h inv b
  end.

(** [aspectKind]. *)
Inductive kind := KCommand | KQuery | KOther.

Definition run_kind (k : kind) (b : messageBus) (ctx : context) (msg : V)
    (exec : context -> GoM W (V * error)) : GoM W (V * error) :=
  match k with
  | KCommand => ExecuteWithCommandAspects nil_any (chain b) ctx msg exec
  | KQuery => ExecuteWithQueryAspects nil_any (chain b) ctx msg exec
  | KOther => exec ctx
  end.

(** [inFlight.Add(d)]. *)
Definition add_in_flight (d : Z) (w : W) : W :=
  let s := part w in set_part (mkBusState (closed s) (inFlight s + d)) w.

Definition no_handler (t : option rtype) : goerr :=
  ENew ("no handler registered for type: " +:+
        match t with Some t => rtype_String t | None => "%!s(<nil>)" end).

Definition execute (b : messageBus) (ctx : context) (msg : V) (k : kind) :
    GoM W (V * error) := fun w =>
  if closed (part w) then (Done (nil_any, Some ErrBusClosed), w)
  else
    go_defer
      (match invokers b !! type_of msg with
       | None => mret (nil_any, Some (no_handler (type_of msg)))
       | Some inv => run_kind k b ctx msg (fun ctx => inv ctx msg)
       end)
      (add_in_flight (-1)) (add_in_flight 1 w).

Definition CommandBus_Execute (b : messageBus) (ctx : context) (cmd : V) : GoM W (V * error) :=
  execute b ctx cmd KCommand.
Definition QueryBus_Execute (b : messageBus) (ctx : context) (q : V) : GoM W (V * error) :=
  execute b ctx q KQuery.

(** [typeNamesFromMap]: the iteration order of a Go map is the order of the
    model's map here; the code's users do not rely on it. *)
Definition typeNamesFromMap {A} (m : gmap (option rtype) A) : outcome (list string) :=
  mapM (fun p => match p.1 with
                 | None => Panicked "nil pointer dereference"
                 | Some t => Done (base_name t) end) (map_to_list m).
Definition registeredTypes (b : messageBus) : outcome (list string) :=
  typeNamesFromMap (handlers b).
End MessageBus.
Arguments messageBus : clear implicits.

(** ** Typed dispatch ([command.go], [query.go])

    [inject] is the conversion of a typed value to [any], [cast] the type
    assertion [result.(R)], [zero] the zero value of [R]. *)
Class Typed (V R : Type) := {
  inject : R -> V;
  cast : V -> option R;
  zero : R }.

Section Dispatch.
Context {W V R : Type} `{!Dynamic V, !Typed V R}.

Definition type_mismatch (who : string) (result cmd : V) : goerr :=
  ENew (who +:+ type_v (type_of cmd) +:+ ", got " +:+ type_v (type_of result)).

Definition typeAssert (who : string) (result cmd : V) : R * error :=
  match type_of result with
  | None => (zero, None)
  | Some _ =>
      match cast result with
      | Some typed => (typed, None)
      | None => (zero, Some (type_mismatch who result cmd))
      end
  end.

Definition Dispatch (who : string) (bus_execute : context -> V -> GoM W (V * error))
    (ctx : context) (cmd : V) : GoM W (R * error) :=
  '(result, err) ← bus_execute ctx cmd;
  match err with
  | Some e => mret (zero, Some e)
  | None =>
      match typeAssert who result cmd with
      | (_, Some e) => mret (zero, Some e)
      | (typed, None) => mret (typed, None)
      end
  end.

Definition CommandDispatch :=
  Dispatch "command Dispatch: result type mismatch for command ".
Definition QueryDispatch :=
  Dispatch "query Dispatch: result type mismatch for query ".
End Dispatch.

(** ** Reference: routing by the first handler registered for a type *)

Section Routing.
Context {W V : Type} `{!Clock W, !SortSlice, !Reflect, !Dynamic V} `{!Has BusState W}.
Implicit Types (h : handler W V) (b : messageBus W V).

(** The type a handler is registered under, if it can be registered. *)
Definition payload h : option (option rtype) :=
  match extractHandlerPayloadType (h_type h) with Done (t, true) => Some t | _ => None end.

(** The first handler of a list for a type. *)
Fixpoint route (hs : list (handler W V)) (t : option rtype) : option (handler W V) :=
  match hs with
  | [] => None
  | h :: hs => if bool_decide (payload h = Some t) then Some h else route hs t
  end.

(** The call of a handler's [Handle] method. *)
Definition call_handler h : invokerFunc W V :=
  match h_type h ≫= MethodByName "Handle" with
  | Some m => invoke_with h m
  | None => fun _ _ => mret (nil_any, None)
  end.

(** Register the handlers of a list one after the other, collecting the errors. *)
Fixpoint register_all (hs : list (handler W V)) b : outcome (messageBus W V * list error) :=
  match hs with
  | [] => mret (b, [])
  | h :: hs =>
      '(b, err) ← RegisterHandler h b;
      '(b, errs) ← register_all hs b;
      mret (b, err :: errs)
  end.

(** [execute] against the list of handlers. *)
Definition execute_spec (c : AspectChain W V V V V) (hs : list (handler W V)) (ctx : context) (msg : V)
    (k : kind) : GoM W (V * error) := fun w =>
  if closed (part w) then (Done (nil_any, Some ErrBusClosed), w)
  else
    go_defer
      (match route hs (type_of msg) with
       | None => mret (nil_any, Some (no_handler (type_of msg)))
       | Some h => run_kind k (newMessageBus c) ctx msg (fun ctx => call_handler h ctx msg)
       end) (add_in_flight (-1)) (add_in_flight 1 w).

Record table_ok (hs : list (handler W V)) b : Prop := {
  ok_handlers : forall t, handlers b !! t = route hs t;
  ok_invokers : forall t, invokers b !! t = call_handler <$> route hs t }.

Lemma table_ok_new c : table_ok [] (newMessageBus c).
Proof. split; intros t; cbn; by rewrite lookup_empty. Qed.

Lemma route_app hs1 hs2 t :
  route (hs1 ++ hs2) t = match route hs1 t with Some h => Some h | None => route hs2 t end.
Proof. induction hs1 as [|h hs1 IH]; cbn; [done|]. by case_bool_decide. Qed.

Lemma route_None hs t : route hs t = None <-> Forall (fun h => payload h <> Some t) hs.
Proof.
  induction hs as [|h hs IH]; cbn; [by split|].
  case_bool_decide as E; rewrite Forall_cons; [|rewrite IH]; tauto || by split; intros; destruct_and?.
Qed.

(** One registration: the error says exactly whether the type was taken. *)
Lemma register_one hs h b :
  table_ok hs b -> is_Some (h_type h) ->
  exists b' err, RegisterHandler h b = Done (b', err) /\ table_ok (hs ++ [h]) b' /\
    chain b' = chain b /\
    (err = None <-> exists t, payload h = Some t /\ route hs t = None).
Proof.
  intros [Hh Hi] [t Ht].
  unfold RegisterHandler, makeInvoker, registerHandler. rewrite Ht.
  assert (forall b', handlers b' = handlers b -> invokers b' = invokers b ->
    (forall t, payload h = Some t -> is_Some (route hs t)) -> table_ok (hs ++ [h]) b') as Hsame.
  { intros b' H1 H2 Hp. split; intros u; rewrite ?H1, ?H2, ?Hh, ?Hi, route_app; cbn;
      case_bool_decide as E; try (apply Hp in E as [? ->]); by destruct (route hs u). }
  destruct (extractHandlerPayloadType (Some t)) as [[pt ok]|s] eqn:Hx;
    [|unfold extractHandlerPayloadType in Hx; repeat case_match; done].
  assert (payload h = if ok then Some pt else None) as Hp.
  { unfold payload. by rewrite Ht, Hx. }
  destruct (MethodByName "Handle" t) as [m|] eqn:Hm; cbn.
  2:{ assert (ok = false) as ->.
      { unfold extractHandlerPayloadType in Hx. rewrite Hm in Hx. by destruct (is_ptr t), ok. }
      do 2 eexists. split; [done|]. split; [apply Hsame; [done..|]|].
      - rewrite Hp. by intros ? [=].
      - split; [done|]. rewrite Hp. split; [done|]. by intros (? & [=] & ?). }
  destruct ok; cbn.
  2:{ do 2 eexists. split; [done|]. split; [apply Hsame; [done..|]|].
      - rewrite Hp. by intros ? [=].
      - split; [done|]. rewrite Hp. split; [done|]. by intros (? & [=] & ?). }
  case_bool_decide as Hex; do 2 eexists; (split; [done|]).
  - split; [apply Hsame; [done..|]|].
    + rewrite Hp. intros ? [= <-]. by rewrite <- Hh.
    + split; [done|]. split; [done|]. rewrite Hp. intros (u & [= <-] & Hr).
      rewrite Hh, Hr in Hex. by destruct Hex.
  - assert (route hs pt = None) as Hr.
    { rewrite <- Hh. by apply eq_None_not_Some. }
    split; [split|].
    + intros u. rewrite route_app. cbn. rewrite Hp.
      destruct (decide (u = pt)) as [->|Hne].
      * rewrite Hr, bool_decide_eq_true_2 by done. apply lookup_insert_eq.
      * rewrite bool_decide_eq_false_2 by congruence.
        rewrite lookup_insert_ne, Hh by done. by destruct (route hs u).
    + intros u. rewrite route_app. cbn. rewrite Hp.
      destruct (decide (u = pt)) as [->|Hne].
      * rewrite Hr, bool_decide_eq_true_2 by done. cbn. rewrite lookup_insert_eq.
        unfold call_handler. by rewrite Ht; cbn; rewrite Hm.
      * rewrite bool_decide_eq_false_2 by congruence.
        rewrite lookup_insert_ne, Hi by done. by destruct (route hs u).
    + split; [done|]. split; [|done]. intros _. eauto.
Qed.

Lemma register_all_table hs0 hs b :
  table_ok hs0 b -> Forall (fun h => is_Some (h_type h)) hs ->
  exists b' errs, register_all hs b = Done (b', errs) /\ table_ok (hs0 ++ hs) b' /\
    chain b' = chain b /\ length errs = length hs /\
    forall i h, hs !! i = Some h ->
      errs !! i = Some None <->
      exists t, payload h = Some t /\ route (hs0 ++ take i hs) t = None.
Proof.
  revert hs0 b. induction hs as [|h hs IH]; intros hs0 b Hok Hall; cbn.
  { do 2 eexists. split; [done|]. rewrite app_nil_r. split_and!; [done..|]. by intros ??. }
  apply Forall_cons in Hall as [Hh Hall].
  destruct (register_one _ _ _ Hok Hh) as (b1 & err & -> & Hok1 & Hc1 & Herr). cbn.
  destruct (IH _ _ Hok1 Hall) as (b2 & errs & -> & Hok2 & Hc2 & Hlen & Hi). cbn.
  do 2 eexists. split; [done|]. rewrite <- app_assoc in Hok2.
  split_and!; [done|by rewrite Hc2|cbn; by rewrite Hlen|].
  intros [|i] x; cbn.
  - intros [= ->]. rewrite app_nil_r, <- Herr. split; [by intros [= ->]|by intros ->].
  - intros Hx. rewrite (Hi _ _ Hx), <- app_assoc. done.
Qed.

Lemma execute_refines hs b ctx msg k w :
  table_ok hs b -> execute b ctx msg k w = execute_spec (chain b) hs ctx msg k w.
Proof.
  intros [_ Hi]. unfold execute, execute_spec. destruct (closed (part w)); [done|].
  rewrite Hi. by destruct (route hs (type_of msg)).
Qed.
End Routing.

(** ** Concurrent calls and shutdown ([shutdownBus])

    The steps of concurrent [execute] (or [Publish]) calls and [Shutdown] calls
    on one bus. A call loads [closed], adds to [inFlight], runs, and subtracts;
    a shutdown stores [closed], its goroutine waits until [inFlight] is zero, and
    the select takes that or the end of the context. *)
Module Shutdown.
Inductive call_pc := CEnter | CLoaded | CRunning | CReturned (rejected : bool).
Inductive shut_pc := SEnter | SStored | SWaited | SReturned (err : error).

Record state := mkState {
  s_bus : BusState;
  s_calls : list call_pc;
  s_shuts : list shut_pc }.

Definition running (c : call_pc) : bool :=
  match c with CRunning => true | _ => false end.

Definition ctx_err : goerr := ESentinel "context" "context canceled".

Inductive step : state -> state -> Prop :=
| load_open b cs ss i :
    cs !! i = Some CEnter -> closed b = false ->
    step (mkState b cs ss) (mkState b (<[i := CLoaded]> cs) ss)
| load_closed b cs ss i :
    cs !! i = Some CEnter -> closed b = true ->
    step (mkState b cs ss) (mkState b (<[i := CReturned true]> cs) ss)
| call_add b cs ss i :
    cs !! i = Some CLoaded ->
    step (mkState b cs ss)
         (mkState (mkBusState (closed b) (inFlight b + 1)) (<[i := CRunning]> cs) ss)
| call_done b cs ss i :
    cs !! i = Some CRunning ->
    step (mkState b cs ss)
         (mkState (mkBusState (closed b) (inFlight b - 1)) (<[i := CReturned false]> cs) ss)
| shut_store b cs ss i :
    ss !! i = Some SEnter ->
    step (mkState b cs ss) (mkState (mkBusState true (inFlight b)) cs (<[i := SStored]> ss))
| shut_wait b cs ss i :
    ss !! i = Some SStored -> inFlight b = 0%Z ->
    step (mkState b cs ss) (mkState b cs (<[i := SWaited]> ss))
| shut_done b cs ss i :
    ss !! i = Some SWaited ->
    step (mkState b cs ss) (mkState b cs (<[i := SReturned None]> ss))
| shut_ctx b cs ss i :
    ss !! i = Some SStored \/ ss !! i = Some SWaited ->
    step (mkState b cs ss) (mkState b cs (<[i := SReturned (Some ctx_err)]> ss)).

(** [n] calls and [k] shutdowns about to start on an open bus. *)
Definition start (n k : nat) : state :=
  mkState bus_open (replicate n CEnter) (replicate k SEnter).

(** The bus's counter counts the running calls. *)
Definition counted (s : state) : Prop := inFlight (s_bus s) = zcount running (s_calls s).

Lemma counted_start n k : counted (start n k).
Proof.
  unfold counted. cbn. symmetry. apply zcount_zero, Forall_replicate. done.
Qed.

Lemma counted_step s s' : step s s' -> counted s -> counted s'.
Proof.
  unfold counted. intros Hs Hc.
  destruct Hs; cbn in *; try done; erewrite zcount_insert by done; cbn; lia.
Qed.

Lemma counted_reachable n k s : rtc step (start n k) s -> counted s.
Proof.
  intros Hr. pose proof (counted_start n k) as H0. revert H0.
  induction Hr; eauto using counted_step.
Qed.

(** The call [i] has passed the check of [closed]. *)
Definition admitted (s : state) (i : nat) : Prop :=
  s_calls s !! i = Some CLoaded \/ s_calls s !! i = Some CRunning.

Lemma step_closed s s' :
  step s s' -> closed (s_bus s) = true ->
  closed (s_bus s') = true /\ forall i, admitted s' i -> admitted s i.
Proof.
  unfold admitted. intros Hs Hc.
  destruct Hs as [b cs ss j|b cs ss j|b cs ss j|b cs ss j| | | |]; cbn in *;
    (split; [congruence|]); intros i'; try done; try congruence;
    (destruct (decide (i' = j)) as [->|];
     [rewrite list_lookup_insert_eq by (by eapply lookup_lt_Some)
     |rewrite list_lookup_insert_ne by done; tauto]); intros [[=]|[=]]; auto.
Qed.

Lemma closed_no_admission s s' :
  rtc step s s' -> closed (s_bus s) = true ->
  closed (s_bus s') = true /\ forall i, admitted s' i -> admitted s i.
Proof.
  intros Hr. induction Hr as [|s s1 s' Hs Hr IH]; intros Hc; [done|].
  destruct (step_closed _ _ Hs Hc) as [Hc1 Ha1]. destruct (IH Hc1) as [Hc2 Ha2]. eauto.
Qed.
End Shutdown.

(** ** Properties *)

(** C5: A bus routes a message to the first handler registered for its dynamic
    type. Registering any non-nil handlers succeeds or reports an error for exactly the handlers
    whose payload type cannot be found or is already taken; afterwards [execute] on every message,
    in every aspect kind, behaves as the reference that looks the handler up in the list of
    registrations. *)
Theorem bus_routes_first {W V} `{!Clock W, !SortSlice, !Reflect, !Dynamic V, !Has BusState W}
    (c : AspectChain W V V V V) (hs : list (handler W V)) :
  Forall (fun h => is_Some (h_type h)) hs ->
  exists b errs, register_all hs (newMessageBus c) = Done (b, errs) /\
    (forall i h, hs !! i = Some h ->
       errs !! i = Some None <->
       exists t, payload h = Some t /\ Forall (fun h' => payload h' <> Some t) (take i hs)) /\
    forall ctx msg k w, execute b ctx msg k w = execute_spec c hs ctx msg k w.
Proof.
  intros Hall.
  destruct (register_all_table _ _ _ (table_ok_new c) Hall) as (b & errs & Hr & Hok & Hc & _ & Hi).
  cbn in Hok, Hc. exists b, errs. split; [done|]. split.
  - intros i h Hh. rewrite (Hi _ _ Hh). cbn. by setoid_rewrite route_None.
  - intros ctx msg k w. by rewrite (execute_refines _ _ _ _ _ _ Hok), Hc.
Qed.

(** A call on an open bus leaves the in-flight counter as it found it, also
    when a handler or an aspect panics and when no handler is registered, provided the aspects and
    the handler themselves leave the bus's state alone; on a closed bus it returns [ErrBusClosed]
    and nothing runs. *)
Theorem execute_balanced {W V}
    `{!Clock W, !SortSlice, !Reflect, !Dynamic V, !Has BusState W, !HasLaws BusState W}
    (b : messageBus W V) ctx msg k w :
  (forall inv w0, invokers b !! type_of msg = Some inv ->
     part (run_kind k b ctx msg (fun ctx => inv ctx msg) w0).2 = part w0) ->
  part (execute b ctx msg k w).2 = part w /\
  (closed (part w) = true -> execute b ctx msg k w = (Done (nil_any, Some ErrBusClosed), w)).
Proof.
  intros Hframe. unfold execute.
  destruct (closed (part w)) eqn:Hc; [done|]. split; [|done].
  unfold go_defer, add_in_flight. rewrite Hc.
  assert (forall (r : outcome (V * error)) w1, part w1 = mkBusState false (inFlight (part w) + 1) ->
    part ((r, set_part (mkBusState (closed (part w1)) (inFlight (part w1) + -1)) w1) : outcome (V * error) * W).2
      = part w) as Hfin.
  { intros r w1 ->. cbn. rewrite part_set. destruct (part w) as [x y]. cbn in *. subst.
    f_equal. lia. }
  destruct (invokers b !! type_of msg) as [inv|] eqn:Hi.
  - specialize (Hframe inv (set_part (mkBusState false (inFlight (part w) + 1)) w) eq_refl).
    destruct (run_kind _ _ _ _ _ _) as [r w1]. cbn in Hframe. apply Hfin.
    by rewrite Hframe, part_set.
  - apply (Hfin (Done (nil_any, Some (no_handler (type_of msg))))). by rewrite part_set.
Qed.


(** The drain is not complete: [execute] adds to the wait group after it has
    loaded [closed], so a call that passed the check can start running after [Shutdown] has
    returned nil. *)
Theorem shutdown_race :
  exists s, rtc Shutdown.step (Shutdown.start 1 1) s /\
    Shutdown.s_shuts s = [Shutdown.SReturned None] /\ Shutdown.s_calls s = [Shutdown.CRunning].
Proof.
  exists (Shutdown.mkState (mkBusState true 1) [Shutdown.CRunning] [Shutdown.SReturned None]).
  split; [|done].
  eapply rtc_l; [apply (Shutdown.load_open _ _ _ 0); done|].
  eapply rtc_l; [apply (Shutdown.shut_store _ _ _ 0); done|].
  eapply rtc_l; [apply (Shutdown.shut_wait _ _ _ 0); done|].
  eapply rtc_l; [apply (Shutdown.shut_done _ _ _ 0); done|].
  eapply rtc_l; [apply (Shutdown.call_add _ _ _ 0); done|].
  reflexivity.
Qed.


(** ** A concrete bus *)
Module DemoBus.
Import Env.

Inductive value := VNil | VInt (z : Z) | VCmd (s : string) | VErr (e : goerr).
#[export] Instance demo_dynamic : Dynamic value := {
  nil_any := VNil;
  type_of v := match v with
               | VNil => None | VInt _ => Some (TNamed "" "" "int")
               | VCmd s => Some (TPtr (TNamed "demo" "demo" s))
               | VErr _ => Some (TPtr (TNamed "errors" "errors" "errorString")) end;
  as_error v := match v with VErr e => Some e | _ => None end }.
#[export] Instance demo_typed : Typed value Z := {
  inject := VInt; cast v := match v with VInt z => Some z | _ => None end; zero := 0%Z }.

Definition ctx_t : rtype := TNamed "context" "context" "Context".
#[export] Instance demo_reflect : Reflect := {
  methods t := match t with
    | TPtr (TNamed "demo" "demo" "HandlerA") => [mkMethod "Handle" [t; ctx_t; TPtr (TNamed "demo" "demo" "A")]]
    | TPtr (TNamed "demo" "demo" "HandlerB") => [mkMethod "Handle" [t; ctx_t; TPtr (TNamed "demo" "demo" "B")]]
    | TNamed "demo" "demo" "Broken" => [mkMethod "Handle" [t; ctx_t]]
    | _ => [] end;
  assignable a b := bool_decide (a = b);
  has_pointer := is_ptr;
  ctx_dyn := ctx_t }.

Definition world : Type := env * BusState.
#[export] Instance world_clock : Clock world :=
  fun '(e, s) => let (t, e') := now e in (t, (e', s)).

Definition hA : handler world value :=
  mkHandler (Some (TPtr (TNamed "demo" "demo" "HandlerA"))) 1 (fun _ _ => mret [VInt 7; VNil]).
Definition hA2 : handler world value :=
  mkHandler (Some (TPtr (TNamed "demo" "demo" "HandlerA"))) 2 (fun _ _ => mret [VInt 8; VNil]).
Definition hB : handler world value :=
  mkHandler (Some (TPtr (TNamed "demo" "demo" "HandlerB"))) 3 (fun _ _ => go_panic "boom").
Definition broken : handler world value :=
  mkHandler (Some (TNamed "demo" "demo" "Broken")) 4 (fun _ _ => mret []).

Definition table : messageBus world value :=
  match register_all [hA; hA2; hB] (newMessageBus NewAspectChain) with
  | Done (b, _) => b | Panicked _ => newMessageBus NewAspectChain end.
Definition w0 : world := (mkEnv 0 0, bus_open).
End DemoBus.
Import DemoBus.

Example demo_dispatch :
  CommandDispatch (CommandBus_Execute table) Background (VCmd "A") w0 =
    (Done (7%Z, None), w0).
Proof. vm_compute. reflexivity. Qed.

(** The nil payload of a value handler without a message parameter is taken as a type. *)
Example demo_broken :
  match RegisterHandler broken (newMessageBus NewAspectChain) with
  | Done (b, None) => option_map h_pointer (handlers b !! None) = Some (h_pointer broken)
  | _ => False
  end.
Proof. vm_compute. reflexivity. Qed.

Lemma bus_routes_first_witness :
  Forall (fun h => is_Some (h_type h)) [hA; hA2; hB] /\
  exists b errs, register_all [hA; hA2; hB] (newMessageBus NewAspectChain) = Done (b, errs) /\
    (forall i h, [hA; hA2; hB] !! i = Some h ->
       errs !! i = Some None <->
       exists t, payload h = Some t /\ Forall (fun h' => payload h' <> Some t) (take i [hA; hA2; hB])) /\
    forall ctx msg k w, execute b ctx msg k w = execute_spec NewAspectChain [hA; hA2; hB] ctx msg k w.
Proof.
  assert (Forall (fun h => is_Some (h_type h)) [hA; hA2; hB]) as H by (repeat constructor; eauto).
  split; [exact H|]. exact (bus_routes_first NewAspectChain [hA; hA2; hB] H).
Defined.

Lemma execute_balanced_witness :
  (execute table Background (VCmd "B") KQuery w0).1 = Panicked "boom" /\
  part (execute table Background (VCmd "B") KQuery w0).2 = (part w0 : BusState).
Proof.
  split; [vm_compute; reflexivity|].
  apply (execute_balanced table Background (VCmd "B") KQuery w0).
  intros inv wx Hinv.
  assert (invokers table !! type_of (VCmd "B") =
    Some (invoke_with hB (mkMethod "Handle" [TPtr (TNamed "demo" "demo" "HandlerB"); ctx_t; TPtr (TNamed "demo" "demo" "B")])))
    as Hb by reflexivity.
  pose proof (eq_trans (eq_sym Hb) Hinv) as Heq. injection Heq as <-. destruct wx. reflexivity.
Defined.


