(* ===== verification/EventBus.v ===== *)
(** * The event bus: [src/cqrs/impl/memory/event_bus.go]

    Subscription, and [Publish] as a step relation: one goroutine per handler,
    the bus's semaphore, the buffered error channel and the publishing goroutine
    that collects the errors. A handler's body, with the aspects around it, is
    one step on the world: handlers must be safe to run concurrently. *)

From S2P Require Import Prelude Errors Trace Aspect Bus.

Definition second : Z := 1000000000.
Definition defaultHandlerTimeout : Z := 30 * second.

(** [time.Until] and [Time.Sub] saturate. *)
Definition duration_sat (d : Z) : Z := Z.max (- two63) (Z.min max_int64 d).

Section EventBus.
Context {W V : Type} `{!Clock W, !SortSlice, !Reflect, !Dynamic V} `{!Has BusState W}.

Record handlerEntry := mkEntry {
  e_handler : handler W V;
  e_invoke : context -> V -> GoM W error;
  e_name : string }.

Record EventBus := mkEventBus {
  eb_handlers : gmap (option rtype) (list handlerEntry);
  eb_chain : AspectChain W V V V V;
  handlerTimeout : Z;
  sem : option Z }.

Inductive EventBusOption :=
| WithEventBusAspectChain (c : AspectChain W V V V V)
| WithHandlerTimeout (timeout : Z)
| WithConcurrencyLimit (n : Z).

Definition apply_event_bus_option (b : EventBus) (o : EventBusOption) : outcome EventBus :=
  match o with
  | WithEventBusAspectChain c =>
      Done (mkEventBus (eb_handlers b) c (handlerTimeout b) (sem b))
  | WithHandlerTimeout t => Done (mkEventBus (eb_handlers b) (eb_chain b) t (sem b))
  | WithConcurrencyLimit n =>
      if bool_decide (n < 0)%Z then Panicked "makechan: size out of range"
      else Done (mkEventBus (eb_handlers b) (eb_chain b) (handlerTimeout b) (Some n))
  end.

Definition NewEventBus (opts : list EventBusOption) : outcome EventBus :=
  foldl (fun b o => b ← b; apply_event_bus_option b o)
    (Done (mkEventBus ∅ NewAspectChain defaultHandlerTimeout None)) opts.

Definition handlerTypeName (h : handler W V) : outcome string :=
  match h_type h with
  | None => Panicked "nil pointer dereference"
  | Some t => Done (base_name t)
  end.

Definition invoke_event (h : handler W V) (m : method) (ctx : context) (evt : V) : GoM W error :=
  results ← call_method h m ctx evt;
  match results with
  | r0 :: _ => mret (as_error r0)
  | [] => mret None
  end.

Definition makeHandlerInvoker (h : handler W V) (handlerType : option rtype) :
    outcome (result (context -> V -> GoM W error)) :=
  match handlerType with
  | None => Panicked "nil pointer dereference"
  | Some t =>
      match MethodByName "Handle" t with
      | None => Done (Err (ENew ("handler " +:+ type_v (h_type h) +:+
                                 " does not have a Handle method")))
      | Some m => Done (Ok (invoke_event h m))
      end
  end.

(** [reflect.ValueOf(h).Pointer()]: panics for kinds without a pointer. *)
Definition value_Pointer (h : handler W V) : outcome N :=
  match h_type h with
  | None => Panicked "reflect: Pointer of zero Value"
  | Some t => if is_ptr t || has_pointer t then Done (h_pointer h)
              else Panicked "reflect: call of reflect.Value.Pointer on struct Value"
  end.

(** The loop over the existing entries: is the handler there already? *)
Fixpoint subscribed (h : handler W V) (entries : list handlerEntry) : outcome bool :=
  match entries with
  | [] => Done false
  | existing :: rest =>
      p ← value_Pointer (e_handler existing);
      q ← value_Pointer h;
      if bool_decide (p = q) then Done true else subscribed h rest
  end.

Definition entries_for (t : option rtype) (b : EventBus) : list handlerEntry :=
  default [] (eb_handlers b !! t).

Definition SubscribeHandler (h : handler W V) (b : EventBus) : outcome (EventBus * error) :=
  '(evtType, ok) ← extractHandlerPayloadType (h_type h);
  if negb ok then
    mret (b, Some (ENew ("SubscribeHandler: handler must implement event.EventHandler[T], got "
                         +:+ type_v (h_type h))))
  else
    inv ← makeHandlerInvoker h (h_type h);
    match inv with
    | Err err => mret (b, Some (EWrap "SubscribeHandler: " err ""))
    | Ok invoke =>
        name ← handlerTypeName h;
        dup ← subscribed h (entries_for evtType b);
        if (dup : bool) then
          mret (b, Some (ENew ("handler already subscribed for event type: " +:+
            match evtType with Some t => rtype_String t | None => "%!s(<nil>)" end)))
        else
          mret (mkEventBus
                  (<[evtType := entries_for evtType b ++ [mkEntry h invoke name]]> (eb_handlers b))
                  (eb_chain b) (handlerTimeout b) (sem b), None)
    end.

Definition HandlerCount (t : option rtype) (b : EventBus) : Z := zlen (entries_for t b).

Definition SubscribedTypes (b : EventBus) : outcome (list string) :=
  typeNamesFromMap (eb_handlers b).

(** ** One publication *)

(** The timeout of a publication: the bus's, or what is left of the caller's deadline. *)
Definition publish_timeout (b : EventBus) (ctx : context) : GoM W Z :=
  match deadline ctx with
  | None => mret (handlerTimeout b)
  | Some dl =>
      now ← time_now;
      let d := duration_sat (dl - now) in
      mret (if bool_decide (d < handlerTimeout b)%Z then d else handlerTimeout b)
  end.

(** What a worker runs between taking and releasing the semaphore. *)
Definition worker_body (b : EventBus) (ctx : context) (evt : V) (timeout : Z)
    (e : handlerEntry) : GoM W error :=
  now ← time_now;
  let hCtx := with_handler_type (with_deadline ctx (now + timeout)) (e_name e) in
  ExecuteWithEventAspects (eb_chain b) hCtx evt (fun ctx => e_invoke e ctx evt).

Definition handler_panicked (e : handlerEntry) (why : string) : goerr :=
  ENew ("handler " +:+ e_name e +:+ " panicked: " +:+ why).

(** The error a worker sends, for the outcome of its body. *)
Definition worker_error (e : handlerEntry) (o : outcome error) : error :=
  match o with Done err => err | Panicked why => Some (handler_panicked e why) end.

(** Where a worker's goroutine is; what it carries after the body is its error. *)
Inductive worker_pc :=
| WStart
| WBody
| WSend (err : error)       (** the body returned: [errCh <- err] is next *)
| WRelease (err : error)    (** sent; the deferred [<-b.sem] is next *)
| WUnwind (err : error)     (** the body panicked: [<-b.sem] is next *)
| WRecover (err : error)    (** released: the recover's [errCh <-] is next *)
| WExit (err : error)       (** [wg.Done] is next *)
| WDone (err : error).

Record pstate := mkP {
  p_world : W;
  p_held : Z;
  p_workers : list worker_pc;
  p_chan : list error;
  p_errs : list goerr;
  p_result : option error }.

(** What [Publish] returns for the errors it collected. *)
Definition publish_result (errs : list goerr) : error :=
  match errs with
  | [] => None
  | [e] => Some e
  | _ => Some (NewMultiError (map Some errs))
  end.

Definition acquire (s : option Z) (held : Z) : option Z :=
  match s with
  | None => Some held
  | Some cap => if bool_decide (held < cap)%Z then Some (held + 1)%Z else None
  end.
Definition release (s : option Z) (held : Z) : Z :=
  match s with None => held | Some _ => (held - 1)%Z end.

Definition set_worker (i : nat) (pc : worker_pc) (l : list worker_pc) : list worker_pc :=
  <[i := pc]> l.

Section Run.
Context (b : EventBus) (ctx : context) (evt : V) (timeout : Z) (entries : list handlerEntry).

Inductive pstep : pstate -> pstate -> Prop :=
| step_acquire w h h' ws ch es i :
    ws !! i = Some WStart -> acquire (sem b) h = Some h' ->
    pstep (mkP w h ws ch es None) (mkP w h' (set_worker i WBody ws) ch es None)
| step_body w w' h ws ch es i e err :
    ws !! i = Some WBody -> entries !! i = Some e ->
    worker_body b ctx evt timeout e w = (Done err, w') ->
    pstep (mkP w h ws ch es None) (mkP w' h (set_worker i (WSend err) ws) ch es None)
| step_panic w w' h ws ch es i e why :
    ws !! i = Some WBody -> entries !! i = Some e ->
    worker_body b ctx evt timeout e w = (Panicked why, w') ->
    pstep (mkP w h ws ch es None)
          (mkP w' h (set_worker i (WUnwind (Some (handler_panicked e why))) ws) ch es None)
| step_send w h ws ch es i err :
    ws !! i = Some (WSend err) -> (zlen ch < zlen entries)%Z ->
    pstep (mkP w h ws ch es None)
          (mkP w h (set_worker i (WRelease err) ws) (ch ++ [err]) es None)
| step_release w h ws ch es i err :
    ws !! i = Some (WRelease err) ->
    pstep (mkP w h ws ch es None)
          (mkP w (release (sem b) h) (set_worker i (WExit err) ws) ch es None)
| step_unwind w h ws ch es i err :
    ws !! i = Some (WUnwind err) ->
    pstep (mkP w h ws ch es None)
          (mkP w (release (sem b) h) (set_worker i (WRecover err) ws) ch es None)
| step_recover w h ws ch es i err :
    ws !! i = Some (WRecover err) -> (zlen ch < zlen entries)%Z ->
    pstep (mkP w h ws ch es None)
          (mkP w h (set_worker i (WExit err) ws) (ch ++ [err]) es None)
| step_exit w h ws ch es i err :
    ws !! i = Some (WExit err) ->
    pstep (mkP w h ws ch es None) (mkP w h (set_worker i (WDone err) ws) ch es None)
| step_receive w h ws err ch es :
    pstep (mkP w h ws (err :: ch) es None) (mkP w h ws ch (es ++ option_list err) None)
| step_return w h ws es :
    Forall (fun pc => exists err, pc = WDone err) ws ->
    pstep (mkP w h ws [] es None) (mkP w h ws [] es (Some (publish_result es))).

Definition pstart (w : W) : pstate :=
  mkP w 0 (replicate (length entries) WStart) [] [] None.
End Run.

(** [Publish]: its outcome and the world after it. *)
Inductive Publish (b : EventBus) (ctx : context) (evt : V) (w : W) : outcome error -> W -> Prop :=
| publish_closed :
    closed (part w) = true -> Publish b ctx evt w (Done (Some ErrBusClosed)) w
| publish_nil :
    closed (part w) = false -> type_of evt = None ->
    Publish b ctx evt w
      (Done (Some (ENew "Publish: event must be a non-nil pointer implementing Event")))
      (add_in_flight (-1) (add_in_flight 1 w))
| publish_no_handlers t r timeout w1 w2 :
    closed (part w) = false -> type_of evt = Some t -> entries_for (Some t) b = [] ->
    publish_timeout b ctx (add_in_flight 1 w) = (Done timeout, w1) ->
    ExecuteWithEventAspects (eb_chain b) ctx evt (fun _ => mret None) w1 = (r, w2) ->
    Publish b ctx evt w r (add_in_flight (-1) w2)
| publish_handlers t timeout w1 s err :
    closed (part w) = false -> type_of evt = Some t -> entries_for (Some t) b <> [] ->
    publish_timeout b ctx (add_in_flight 1 w) = (Done timeout, w1) ->
    rtc (pstep b ctx evt timeout (entries_for (Some t) b)) (pstart (entries_for (Some t) b) w1) s ->
    p_result s = Some err ->
    Publish b ctx evt w (Done err) (add_in_flight (-1) (p_world s)).
End EventBus.
Arguments handlerEntry : clear implicits.
Arguments EventBus : clear implicits.
Arguments pstate : clear implicits.

(** ** Lemmas on a publication *)

(** The error a worker has sent, the error it carries, whether it holds the
    semaphore, and a bound on the steps it has left. *)
Definition sent (pc : worker_pc) : error :=
  match pc with WRelease err | WExit err | WDone err => err | _ => None end.
Definition carries (pc : worker_pc) : option error :=
  match pc with
  | WStart | WBody => None
  | WSend err | WRelease err | WUnwind err | WRecover err | WExit err | WDone err => Some err
  end.
Definition holding (pc : worker_pc) : bool :=
  match pc with WBody | WSend _ | WRelease _ | WUnwind _ => true | _ => false end.
Definition in_body (pc : worker_pc) : bool := match pc with WBody => true | _ => false end.
Definition is_done (pc : worker_pc) : bool := match pc with WDone _ => true | _ => false end.
Definition steps_left (pc : worker_pc) : Z :=
  match pc with
  | WStart => 7 | WBody => 6 | WSend _ => 5 | WUnwind _ => 5 | WRecover _ => 4
  | WRelease _ => 3 | WExit _ => 2 | WDone _ => 0
  end.

Lemma in_body_holding ws : (zcount in_body ws <= zcount holding ws)%Z.
Proof.
  induction ws as [|pc ws IH]; [done|]. rewrite !zcount_cons. destruct pc; cbn; lia.
Qed.

Section PublishLemmas.
Context {W V : Type} `{!Clock W, !SortSlice, !Reflect, !Dynamic V} `{!Has BusState W}.
Context (b : EventBus W V) (ctx : context) (evt : V) (timeout : Z)
        (entries : list (handlerEntry W V)).
Abbreviation pstep := (pstep b ctx evt timeout entries).

(** A worker's error is the outcome of its own body in some world. *)
Definition from_body (e : handlerEntry W V) (err : error) : Prop :=
  exists w, err = worker_error e (worker_body b ctx evt timeout e w).1.

Record pinv (s : pstate W) : Prop := {
  inv_len : length (p_workers s) = length entries;
  inv_held : forall cap, sem b = Some cap ->
    p_held s = zcount holding (p_workers s) /\ (p_held s <= Z.max cap 0)%Z;
  inv_errs : p_errs s ++ omap id (p_chan s) ≡ₚ omap sent (p_workers s);
  inv_body : forall i pc err, p_workers s !! i = Some pc -> carries pc = Some err ->
    exists e, entries !! i = Some e /\ from_body e err;
  inv_result : forall r, p_result s = Some r ->
    p_chan s = [] /\ r = publish_result (p_errs s) /\
    Forall (fun pc => exists err, pc = WDone err) (p_workers s) }.

Lemma pinv_start w : pinv (pstart entries w).
Proof.
  split; cbn.
  - by rewrite length_replicate.
  - intros cap _. split; [|lia]. symmetry. apply zcount_zero, Forall_replicate. done.
  - clear. by induction (length entries).
  - intros i pc err [-> _]%lookup_replicate. done.
  - done.
Qed.

(** A worker's step that neither sends nor forgets its error. *)
Lemma carries_insert (ws : list worker_pc) i pc pc' :
  ws !! i = Some pc -> carries pc' = carries pc ->
  (forall j p err, ws !! j = Some p -> carries p = Some err ->
     exists e, entries !! j = Some e /\ from_body e err) ->
  forall j p err, set_worker i pc' ws !! j = Some p -> carries p = Some err ->
    exists e, entries !! j = Some e /\ from_body e err.
Proof.
  intros Hi Hc Hws j p err Hj Hp. unfold set_worker in Hj.
  destruct (decide (j = i)) as [->|Hne].
  - rewrite list_lookup_insert_eq in Hj by (by eapply lookup_lt_Some).
    injection Hj as <-. eapply Hws; [done|congruence].
  - rewrite list_lookup_insert_ne in Hj by done. eauto.
Qed.

Lemma carries_body (ws : list worker_pc) i pc' e err :
  ws !! i = Some WBody -> carries pc' = Some err -> entries !! i = Some e ->
  from_body e err ->
  (forall j p err, ws !! j = Some p -> carries p = Some err ->
     exists e, entries !! j = Some e /\ from_body e err) ->
  forall j p err, set_worker i pc' ws !! j = Some p -> carries p = Some err ->
    exists e, entries !! j = Some e /\ from_body e err.
Proof.
  intros Hi Hc He Hf Hws j p err' Hj Hp. unfold set_worker in Hj.
  destruct (decide (j = i)) as [->|Hne].
  - rewrite list_lookup_insert_eq in Hj by (by eapply lookup_lt_Some).
    injection Hj as <-. exists e. split; [done|]. congruence.
  - rewrite list_lookup_insert_ne in Hj by done. eauto.
Qed.

Lemma omap_sent_send (ws : list worker_pc) i pc pc' err (ch : list error) (es : list goerr) :
  ws !! i = Some pc -> sent pc = None -> sent pc' = err ->
  es ++ omap id ch ≡ₚ omap sent ws ->
  es ++ omap id (ch ++ [err]) ≡ₚ omap sent (set_worker i pc' ws).
Proof.
  intros Hi Hpc Hpc' He. rewrite omap_app, app_assoc, He. unfold set_worker.
  destruct err as [err|].
  - change (omap id [Some err]) with [err].
    rewrite (omap_insert_new sent ws i pc pc' err) by done. by rewrite Permutation_app_comm.
  - rewrite (omap_insert_same sent ws i pc pc') by congruence.
    change (omap id [@None goerr]) with (@nil goerr). by rewrite app_nil_r.
Qed.

Lemma pinv_step s s' : pstep s s' -> pinv s -> pinv s'.
Proof.
  intros Hs [Hl Hh He Hb Hr].
  destruct Hs; cbn in *; unfold set_worker in *; split; cbn;
    rewrite ?length_insert; try done;
    try (intros cap Hcap; destruct (Hh _ Hcap) as [-> ?]; unfold release; rewrite ?Hcap;
         erewrite ?zcount_insert by done; cbn; split; lia);
    try (by erewrite omap_insert_same by done);
    try (by eapply carries_insert);
    try (by eapply omap_sent_send);
    try match goal with Hw : worker_body _ _ _ _ _ ?w0 = _ |- _ =>
      eapply carries_body; try done; exists w0; by rewrite Hw end.
  - intros cap Hcap. destruct (Hh _ Hcap) as [? ?]. erewrite zcount_insert by done.
    unfold acquire in *. rewrite Hcap in *. case_bool_decide; simplify_eq; cbn; lia.
  - rewrite <- app_assoc. by destruct err.
  - intros r [= <-]. done.
Qed.

Lemma pinv_reachable w s : rtc pstep (pstart entries w) s -> pinv s.
Proof.
  intros Hr. pose proof (pinv_start w) as Hst. revert Hst. induction Hr; eauto using pinv_step.
Qed.

(** A worker that is in the semaphore can always go on. *)
Lemma holding_step w h ws ch es i pc :
  length ws = length entries -> ws !! i = Some pc -> holding pc = true ->
  (zlen ch < zlen entries)%Z -> exists s', pstep (mkP w h ws ch es None) s'.
Proof.
  intros Hl Hi Hpc Hch.
  destruct pc; try done; try (eexists; econstructor; by eauto).
  destruct (lookup_lt_is_Some_2 entries i) as [e He].
  { rewrite <- Hl. by eapply lookup_lt_Some. }
  destruct (worker_body b ctx evt timeout e w) as [[err|why] w'] eqn:Hbd.
  - eexists. by eapply step_body.
  - eexists. by eapply step_panic.
Qed.

Lemma worker_step w h ws es i pc :
  length ws = length entries -> ws !! i = Some pc -> is_done pc = false ->
  (sem b = None \/ exists cap, sem b = Some cap /\ (0 < cap)%Z /\ h = zcount holding ws) ->
  exists s', pstep (mkP w h ws [] es None) s'.
Proof.
  intros Hl Hi Hpc Hsem.
  assert (zlen (@nil error) < zlen entries)%Z as Hch.
  { apply lookup_lt_Some in Hi. unfold zlen. cbn. lia. }
  destruct (holding pc) eqn:Hho; [by eapply holding_step|].
  destruct pc; try done; try (eexists; econstructor; by eauto).
  destruct Hsem as [Hn|(cap & Hcap & Hpos & Hheld)].
  { eexists. eapply step_acquire; [done|]. by rewrite Hn. }
  destruct (decide (h < cap)%Z) as [Hlt|Hge].
  { eexists. eapply step_acquire; [done|]. rewrite Hcap. cbn. by rewrite bool_decide_eq_true_2. }
  destruct (decide (Forall (fun pc => holding pc = false) ws)) as [Hz|Hex].
  { apply zcount_zero in Hz. lia. }
  apply not_Forall_Exists in Hex; [|apply _]. apply Exists_exists in Hex as (pc & Hin & Hp).
  apply list_elem_of_lookup in Hin as [j Hj]. apply (holding_step w h ws [] es j pc); try done.
  cbn in Hp. by destruct (holding pc).
Qed.

Lemma publish_step s :
  pinv s -> (sem b = None \/ exists cap, sem b = Some cap /\ (0 < cap)%Z) ->
  p_result s = None -> exists s', pstep s s'.
Proof.
  intros [Hl Hh _ _ _] Hsem Hr. destruct s as [w h ws ch es r]. cbn in *. subst r.
  destruct ch as [|err ch]; [|eexists; apply step_receive].
  destruct (decide (Forall (fun pc => is_done pc = true) ws)) as [Hd|Hex].
  - eexists. apply step_return. eapply Forall_impl; [exact Hd|]. intros []; try done. eauto.
  - apply not_Forall_Exists in Hex; [|apply _]. apply Exists_exists in Hex as (pc & Hin & Hp).
    apply list_elem_of_lookup in Hin as [i Hi]. apply (worker_step w h ws es i pc); try done.
    { cbn in Hp. by destruct (is_done pc). }
    destruct Hsem as [|(cap & Hc & ?)]; [by left|]. right.
    destruct (Hh _ Hc). exists cap. by split_and!.
Qed.

(** Every step uses up the measure. *)
Definition publish_measure (s : pstate W) : Z :=
  zsum steps_left (p_workers s) + zlen (p_chan s) +
  match p_result s with None => 1 | Some _ => 0 end.

Lemma steps_left_nonneg pc : (0 <= steps_left pc)%Z.
Proof. by destruct pc. Qed.

Lemma measure_nonneg s : (0 <= publish_measure s)%Z.
Proof.
  unfold publish_measure. pose proof (zsum_nonneg _ (p_workers s) steps_left_nonneg).
  pose proof (zlen_nonneg (p_chan s)). destruct (p_result s); lia.
Qed.

Lemma measure_step s s' : pstep s s' -> (publish_measure s' + 1 <= publish_measure s)%Z.
Proof.
  intros Hs. unfold publish_measure, set_worker.
  destruct Hs; cbn [p_workers p_chan p_result]; unfold set_worker; autorewrite with go_rw;
    try (erewrite zsum_insert by done; cbn [steps_left]); lia.
Qed.

Lemma measure_nsteps k s s' :
  nsteps pstep k s s' -> (publish_measure s' + Z.of_nat k <= publish_measure s)%Z.
Proof.
  intros Hn. induction Hn as [|k s s1 s' Hs Hn IH]; [lia|].
  pose proof (measure_step _ _ Hs). lia.
Qed.

Lemma measure_start w : publish_measure (pstart entries w) = (7 * zlen entries + 1)%Z.
Proof.
  unfold publish_measure, pstart. cbn [p_workers p_chan p_result]. rewrite zlen_nil, Z.add_0_r.
  f_equal. unfold zlen. induction (length entries) as [|n IH]; [done|].
  cbn [replicate zsum foldr]. unfold zsum in IH. rewrite IH. cbn [steps_left]. lia.
Qed.

(** The errors of the workers that have finished, in the order of the handlers. *)
Lemma workers_outcomes s r :
  pinv s -> p_result s = Some r ->
  exists outs, Forall2 from_body entries outs /\
    p_errs s ≡ₚ omap id outs /\ r = publish_result (p_errs s).
Proof.
  intros [Hl _ He Hb Hr] Hres. destruct (Hr _ Hres) as (Hch & -> & Hdone).
  exists (map (fun pc => match pc with WDone err => err | _ => None end) (p_workers s)).
  rewrite Hch, app_nil_r in He. split; [|split; [|done]].
  - apply Forall2_same_length_lookup_2; [by rewrite length_map|].
    intros i e err Hi Herr. apply list_lookup_fmap_Some in Herr as (pc & -> & Hpc).
    apply (Forall_lookup_1 _ _ _ _ Hdone) in Hpc as Hd. destruct Hd as [err ->].
    destruct (Hb i _ err Hpc eq_refl) as (e' & He' & Hf). congruence.
  - rewrite He. clear -Hdone. induction Hdone as [|pc ws [err ->] _ IH]; cbn; [done|].
    destruct err; cbn; by rewrite IH.
Qed.
End PublishLemmas.

(** ** Properties *)

(** C6: [Publish] on an open bus with handlers returns, whatever the schedule,
    nil if no handler failed, the handler's error if one failed, and otherwise a [MultiError] that
    holds exactly the errors of the failed handlers, in some order; a panic of a handler counts as
    a failure that names the handler, and every handler ran its aspects and its code. *)
Theorem publish_collects_errors {W V}
    `{!Clock W, !SortSlice, !Reflect, !Dynamic V, !Has BusState W}
    (b : EventBus W V) ctx evt t w o w' :
  Publish b ctx evt w o w' ->
  closed (part w) = false -> type_of evt = Some t -> entries_for (Some t) b <> [] ->
  exists timeout outs errs,
    Forall2 (fun e err => exists w1,
        err = worker_error e (worker_body b ctx evt timeout e w1).1) (entries_for (Some t) b) outs /\
    errs ≡ₚ omap id outs /\
    o = Done (match errs with
              | [] => None | [e] => Some e | _ => Some (NewMultiError (map Some errs)) end).
Proof.
  intros Hp Hc Ht Hne. destruct Hp as [|? Hn|? ? ? ? ? ? Ht' He| t' timeout w1 s err ? Ht' ? _ Hr Hres];
    try congruence.
  assert (t' = t) as -> by congruence.
  destruct (workers_outcomes _ _ _ _ _ _ _ (pinv_reachable _ _ _ _ _ _ _ Hr) Hres)
    as (outs & Houts & Hperm & ->).
  exists timeout, outs, (p_errs s). split; [done|]. by split.
Qed.


(** The semaphore works: with [WithConcurrencyLimit(n)], in every reachable
    state at most [n] handler bodies are running. *)
Theorem publish_respects_limit {W V}
    `{!Clock W, !SortSlice, !Reflect, !Dynamic V, !Has BusState W}
    (b : EventBus W V) ctx evt timeout entries w s cap :
  sem b = Some cap -> (0 <= cap)%Z ->
  rtc (pstep b ctx evt timeout entries) (pstart entries w) s ->
  (zcount in_body (p_workers s) <= cap)%Z.
Proof.
  intros Hcap Hpos Hr. destruct (inv_held _ _ _ _ _ _ (pinv_reachable _ _ _ _ _ _ _ Hr) _ Hcap).
  pose proof (in_body_holding (p_workers s)). lia.
Qed.

(** [WithConcurrencyLimit(0)] gives an unbuffered semaphore that no worker
    can ever enter: publishing an event that has a handler never returns. *)
Theorem publish_zero_limit_blocks {W V}
    `{!Clock W, !SortSlice, !Reflect, !Dynamic V, !Has BusState W}
    (b : EventBus W V) ctx evt t w :
  sem b = Some 0%Z -> closed (part w) = false -> type_of evt = Some t ->
  entries_for (Some t) b <> [] ->
  ~ exists o w', Publish b ctx evt w o w'.
Proof.
  intros Hsem Hc Ht Hne (o & w' & Hp).
  destruct Hp as [|? Hn|? ? ? ? ? ? Ht' He| t' timeout w1 s err ? Ht' ? _ Hr Hres]; try congruence.
  inversion Hr as [|? s1 ? Hs _]; subst; [done|]. clear Hr Hres. unfold pstart in Hs.
  inversion Hs as [? ? ? ? ? ? ? ? Ha| | | | | | | | |? ? ? ? Hd]; subst;
    try match goal with H : replicate _ _ !! _ = Some _ |- _ =>
      apply lookup_replicate in H as [? _]; done end.
  - unfold acquire in Ha. rewrite Hsem in Ha. cbn in Ha. by case_bool_decide.
  - destruct (entries_for (Some t') b); [done|]. cbn in Hd. apply Forall_cons in Hd as [[? ?] _]. done.
Qed.

(** ** A concrete event bus: one handler, which panics *)
Import DemoBus.
Module DemoEventBus.
Definition tB : rtype := TPtr (TNamed "demo" "demo" "B").
Definition eB : handlerEntry world value :=
  mkEntry hB (invoke_event hB (mkMethod "Handle" [TPtr (TNamed "demo" "demo" "HandlerB"); ctx_t; tB]))
          "HandlerB".
Definition bus (limit : option Z) : EventBus world value :=
  mkEventBus {[ Some tB := [eB] ]} NewAspectChain defaultHandlerTimeout limit.
Definition errB : goerr := handler_panicked eB "boom".
(** The world when the worker starts and when it has panicked: the clock was read once. *)
Definition w1 : world := (Env.mkEnv 0 0, mkBusState false 1).
Definition w2 : world := (Env.mkEnv 1 0, mkBusState false 1).
Definition final : pstate world :=
  mkP w2 0 [WDone (Some errB)] [] [errB] (Some (Some errB)).

Lemma subscribed_bus :
  match SubscribeHandler hB (mkEventBus ∅ NewAspectChain defaultHandlerTimeout None) with
  | Done (b, None) => map e_name (entries_for (Some tB) b) = ["HandlerB"]
  | _ => False
  end.
Proof. vm_compute. reflexivity. Qed.

Lemma run_bus :
  nsteps (pstep (bus (Some 1%Z)) Background (VCmd "B") defaultHandlerTimeout [eB]) 7
    (pstart [eB] w1) final.
Proof.
  eapply nsteps_l; [apply (step_acquire _ _ _ _ _ w1 0 1 [WStart] [] [] 0); reflexivity|].
  eapply nsteps_l; [eapply (step_panic _ _ _ _ _ w1 w2 1 [WBody] [] [] 0); reflexivity|].
  eapply nsteps_l; [apply (step_unwind _ _ _ _ _ w2 1 [WUnwind (Some errB)] [] [] 0 _ eq_refl)|].
  eapply nsteps_l; [apply (step_recover _ _ _ _ _ w2 0 [WRecover (Some errB)] [] [] 0 _ eq_refl); done|].
  eapply nsteps_l; [apply (step_exit _ _ _ _ _ w2 0 [WExit (Some errB)] [Some errB] [] 0 _ eq_refl)|].
  eapply nsteps_l; [apply (step_receive _ _ _ _ _ w2 0 [WDone (Some errB)] (Some errB) [] [])|].
  eapply nsteps_l; [apply (step_return _ _ _ _ _ w2 0 [WDone (Some errB)] [errB])|constructor].
  repeat constructor. eauto.
Qed.

Lemma publish_bus :
  Publish (bus (Some 1%Z)) Background (VCmd "B") w0 (Done (Some errB)) (Env.mkEnv 1 0, bus_open).
Proof.
  change (Env.mkEnv 1 0, bus_open) with (add_in_flight (-1) (p_world final)).
  apply (publish_handlers (bus (Some 1%Z)) Background (VCmd "B") w0 tB defaultHandlerTimeout w1 final);
    try (vm_compute; done).
  eapply rtc_nsteps_2, run_bus.
Qed.
End DemoEventBus.
Import DemoEventBus.

Lemma publish_collects_errors_witness :
  Publish (bus (Some 1%Z)) Background (VCmd "B") w0 (Done (Some errB)) (Env.mkEnv 1 0, bus_open) /\
  exists timeout outs errs,
    Forall2 (fun e err => exists w1,
        err = worker_error e (worker_body (bus (Some 1%Z)) Background (VCmd "B") timeout e w1).1)
      (entries_for (Some tB) (bus (Some 1%Z))) outs /\
    errs ≡ₚ omap id outs /\
    Done (Some errB) = Done (match errs with
              | [] => None | [e] => Some e | _ => Some (NewMultiError (map Some errs)) end).
Proof.
  split; [exact publish_bus|].
  apply (publish_collects_errors _ _ _ _ _ _ _ publish_bus); vm_compute; done.
Defined.


Lemma publish_respects_limit_witness :
  rtc (pstep (bus (Some 1%Z)) Background (VCmd "B") defaultHandlerTimeout [eB]) (pstart [eB] w1) final /\
  (zcount in_body (p_workers final) <= 1)%Z.
Proof.
  split; [exact (rtc_nsteps_2 _ _ _ run_bus)|].
  apply (publish_respects_limit (bus (Some 1%Z)) Background (VCmd "B") defaultHandlerTimeout [eB]
    w1 final 1 eq_refl); [done|]. exact (rtc_nsteps_2 _ _ _ run_bus).
Defined.

Lemma publish_zero_limit_blocks_witness :
  entries_for (Some tB) (bus (Some 0%Z)) = [eB] /\
  ~ exists o w', Publish (bus (Some 0%Z)) Background (VCmd "B") w0 o w'.
Proof.
  split; [reflexivity|].
  apply (publish_zero_limit_blocks (bus (Some 0%Z)) Background (VCmd "B") tB w0); vm_compute; done.
Defined.
