(* ===== verification/EventStore.v ===== *)
(** * The in-memory event store: [src/cqrs/impl/memory/event_store.go]

    The store keeps pointers to events, so the model has the heap they point
    into: an address is a position of [heap]. In copy mode every event is copied
    on the way in and on the way out; in shallow mode (T is an interface type)
    the pointers themselves are kept and handed out.

    Reference: an append-only log of event contents, which the client's memory
    cannot reach. *)

From S2P Require Import Prelude Errors Trace Aggregate.

(** [GlobalEvent] and [globalEntry]. *)
Record globalEntry (T : Type) := mkEntry { position : Z; event : T }.
Arguments mkEntry {T} position event.
Arguments position {T} _.
Arguments event {T} _.

(** The size of the largest allocation, [maxAlloc] of the Go runtime. *)
Definition max_alloc : Z := 281474976710656.

(** The memory events live in. *)
Abbreviation heap E := (list E) (only parsing).

Section EventStore.
Context {E : Type} `{!Event E}.

Record EventSourceStore := mkStore {
  events : gmap string (list nat);
  globalEvents : list (globalEntry nat);
  nextPosition : Z;
  newFunc : option (heap E -> nat * heap E);
  shallowCopy : bool }.

(** What [reflect] says of the type parameter: an interface type (its zero
    value has no type), a pointer type, or anything else. *)
Inductive type_param := TInterface | TPointer | TOther (text : string).

(** [NewEventSourceStore] with the factories given as options, the last one wins. *)
Definition NewEventSourceStore (t : type_param) (opts : list (heap E -> nat * heap E)) :
    result EventSourceStore :=
  match t with
  | TInterface => Ok (mkStore ∅ [] 0 (last opts) true)
  | TOther text =>
      Err (ENew ("EventSourceStore[T]: T must be a pointer type, got " +:+ text))
  | TPointer => Ok (mkStore ∅ [] 0 (last opts) false)
  end.

(** A call on the store sees the heap too. *)
Abbreviation call := (GoM (heap E * EventSourceStore)).
Definition nil_deref {A} : call A := go_panic "nil pointer dereference".

Definition deref (a : nat) : call E := fun '(h, s) =>
  match h !! a with Some e => (Done e, (h, s)) | None => nil_deref (h, s) end.

(** The zero value of the event's struct type. *)
Context (zero_event : E).

(** [alloc]: the factory, or the pool, whose [New] allocates a zero event. *)
Definition alloc : call nat := fun '(h, s) =>
  match newFunc s with
  | Some f => let (a, h') := f h in (Done a, (h', s))
  | None => (Done (length h), (h ++ [zero_event], s))
  end.

(** [*dst = v]. *)
Definition assign (dst : nat) (v : E) : call unit := fun '(h, s) =>
  match h !! dst with
  | Some _ => (Done tt, (<[dst := v]> h, s))
  | None => nil_deref (h, s)
  end.

Definition copyEvent (src : nat) : call nat :=
  dst ← alloc;
  v ← deref src;
  _ ← assign dst v;
  mret dst.

(** The copy of an event that is kept or handed out. *)
Definition copied (src : nat) : call nat := fun '(h, s) =>
  if shallowCopy s then (Done src, (h, s)) else copyEvent src (h, s).

Definition push (aggID : string) (a : nat) (s : EventSourceStore) : EventSourceStore :=
  let p := nextPosition s +i 1 in
  mkStore (<[aggID := mget [] (events s) aggID ++ [a]]> (events s))
          (globalEvents s ++ [mkEntry p a]) p (newFunc s) (shallowCopy s).

Definition push_event (aggID : string) (a : nat) : call unit := fun '(h, s) =>
  (Done tt, (h, push aggID a s)).

Fixpoint append_loop (evts : list nat) : call unit :=
  match evts with
  | [] => mret tt
  | evt :: rest =>
      e ← deref evt;
      let aggID := AggregateID (MetadataOf e) in
      eventToStore ← copied evt;
      _ ← push_event aggID eventToStore;
      append_loop rest
  end.

Definition conflict (expected current : Z) (aggregateID : string) : goerr :=
  EWrap ("concurrency conflict: expected version " +:+ pretty expected +:+ " but got " +:+
         pretty current +:+ " for aggregate " +:+ aggregateID +:+ ": ") ErrConcurrency "".

Definition Append (aggregateID : string) (expectedVersion : Z) (evts : list nat) : call error :=
  fun '(h, s) =>
    let current := zlen (mget [] (events s) aggregateID) in
    if negb (bool_decide (current = expectedVersion)) then
      (Done (Some (conflict expectedVersion current aggregateID)), (h, s))
    else (_ ← append_loop evts; mret None) (h, s).

Definition Load (aggregateID : string) (afterVersion : Z) : call (list nat) :=
  fun '(h, s) =>
    match events s !! aggregateID with
    | None => (Done [], (h, s))
    | Some evs =>
        if bool_decide (zlen evs <= afterVersion)%Z then (Done [], (h, s))
        else match slice_from afterVersion evs with
             | None => go_panic "slice bounds out of range" (h, s)
             | Some slice => mapM copied slice (h, s)
             end
    end.

(** The index of the first entry after a position. *)
Fixpoint start_index (afterPosition : Z) (l : list (globalEntry nat)) : nat :=
  match l with
  | [] => 0
  | entry :: l' => if bool_decide (afterPosition < position entry)%Z then 0
                   else S (start_index afterPosition l')
  end.

(** [make([]T, n)] panics for a negative length and for one that no address
    space can hold. *)
Definition makeslice_ok (n : Z) : bool := bool_decide (0 <= n < max_alloc)%Z.

Definition LoadAll (afterPosition limit : Z) : call (list (globalEntry nat)) :=
  fun '(h, s) =>
    let startIdx := Z.of_nat (start_index afterPosition (globalEvents s)) in
    let len := zlen (globalEvents s) in
    if bool_decide (len <= startIdx)%Z then (Done [], (h, s))
    else
      let endIdx := if bool_decide (0 < limit)%Z && bool_decide (startIdx +i limit < len)%Z
                    then startIdx +i limit else len in
      if negb (makeslice_ok (endIdx -i startIdx)) then
        go_panic "makeslice: len out of range" (h, s)
      else
        mapM (fun entry => evt ← copied (event entry); mret (mkEntry (position entry) evt))
             (take (Z.to_nat (endIdx -i startIdx)) (drop (Z.to_nat startIdx) (globalEvents s)))
             (h, s).
End EventStore.
Arguments EventSourceStore : clear implicits.

(** ** A client program

    A client allocates events, writes to the ones it holds, and calls the
    store. It names what it holds by handles, in the order it got them. *)
Inductive client_op (E : Type) :=
| CNew (e : E)
| CWrite (hd : nat) (e : E)
| CAppend (aggregateID : string) (expectedVersion : Z) (hds : list nat)
| CLoad (aggregateID : string) (afterVersion : Z)
| CLoadAll (afterPosition limit : Z).
Arguments CNew {E} e.
Arguments CWrite {E} hd e.
Arguments CAppend {E} aggregateID expectedVersion hds.
Arguments CLoad {E} aggregateID afterVersion.
Arguments CLoadAll {E} afterPosition limit.

(** What the client sees of a call: an error, a number of new handles, positions. *)
Inductive client_out :=
| ONone
| OError (err : error)
| OEvents (n : nat)
| OGlobal (positions : list Z).

Section Client.
Context {E : Type} `{!Event E} (zero_event : E).

(** The implementation: the addresses of the handles, the heap and the store. *)
Record world := mkWorld { w_known : list nat; w_heap : heap E; w_store : EventSourceStore E }.

(** Run a call on the store and keep what it returns beside the handles. *)
Definition run_call {A} (m : GoM (heap E * EventSourceStore E) A)
    (k : A -> client_out) (got : A -> list nat) : GoM world client_out := fun w =>
  match m (w_heap w, w_store w) with
  | (Done a, (h, s)) => (Done (k a), mkWorld (w_known w ++ got a) h s)
  | (Panicked why, (h, s)) => (Panicked why, mkWorld (w_known w) h s)
  end.

Definition impl_step (o : client_op E) : GoM world client_out := fun w =>
  match o with
  | CNew e => (Done ONone, mkWorld (w_known w ++ [length (w_heap w)]) (w_heap w ++ [e]) (w_store w))
  | CWrite hd e =>
      match w_known w !! hd with
      | Some a => (Done ONone, mkWorld (w_known w) (<[a := e]> (w_heap w)) (w_store w))
      | None => go_panic "no such handle" w
      end
  | CAppend id v hds =>
      match mapM (fun hd => w_known w !! hd) hds with
      | Some evts => run_call (Append zero_event id v evts) OError (fun _ => []) w
      | None => go_panic "no such handle" w
      end
  | CLoad id v => run_call (Load zero_event id v) (fun l => OEvents (length l)) (fun l => l) w
  | CLoadAll p n =>
      run_call (LoadAll zero_event p n) (fun l => OGlobal (map position l)) (map event) w
  end.

(** The reference: the contents of what the client holds, and the log. *)
Record spec := mkSpec { sp_mem : list E; sp_log : list E }.

Definition aggregate_id (e : E) : string := AggregateID (MetadataOf e).
Definition stream (id : string) (log : list E) : list E :=
  List.filter (fun e => bool_decide (aggregate_id e = id)) log.

Definition spec_step (o : client_op E) : GoM spec client_out := fun s =>
  match o with
  | CNew e => (Done ONone, mkSpec (sp_mem s ++ [e]) (sp_log s))
  | CWrite hd e =>
      if bool_decide (hd < length (sp_mem s))
      then (Done ONone, mkSpec (<[hd := e]> (sp_mem s)) (sp_log s))
      else go_panic "no such handle" s
  | CAppend id v hds =>
      match mapM (fun hd => sp_mem s !! hd) hds with
      | None => go_panic "no such handle" s
      | Some evts =>
          let current := zlen (stream id (sp_log s)) in
          if bool_decide (current = v)
          then (Done (OError None), mkSpec (sp_mem s) (sp_log s ++ evts))
          else (Done (OError (Some (conflict v current id))), s)
      end
  | CLoad id v =>
      let st := stream id (sp_log s) in
      if bool_decide (v < 0)%Z && negb (bool_decide (st = []))
      then go_panic "slice bounds out of range" s
      else let l := drop (Z.to_nat v) st in
           (Done (OEvents (length l)), mkSpec (sp_mem s ++ l) (sp_log s))
  | CLoadAll p n =>
      (* event number i of the log, from 0, has position i + 1 *)
      let start := Z.to_nat p in
      let rest := drop start (sp_log s) in
      if bool_decide (0 < zlen rest)%Z && bool_decide (max_int64 < Z.of_nat start + n)%Z
      then go_panic "makeslice: len out of range" s
      else let l := if bool_decide (0 < n)%Z then take (Z.to_nat n) rest else rest in
           (Done (OGlobal (map (fun i => Z.of_nat (S i)) (seq start (length l)))),
            mkSpec (sp_mem s ++ l) (sp_log s))
  end.

(** A program runs its calls one after the other and stops at a panic. *)
Fixpoint run {S} (step : client_op E -> GoM S client_out) (ops : list (client_op E)) :
    GoM S (list client_out) :=
  match ops with
  | [] => mret []
  | o :: rest => out ← step o; outs ← run step rest; mret (out :: outs)
  end.
End Client.
#[global] Arguments stream : simpl never.
Arguments world : clear implicits.
Arguments spec : clear implicits.

(** ** The simulation relation *)

Section Simulation.
Context {E : Type} `{HE : !Event E} (zero_event : E).
Implicit Types (h : heap E) (st : EventSourceStore E).

(** A factory that allocates. *)
Definition allocates (f : heap E -> nat * heap E) : Prop :=
  forall h, exists e, f h = (length h, h ++ [e]).

(** The cells at some addresses hold some events. *)
Definition cells h (addrs : list nat) (es : list E) : Prop :=
  Forall2 (fun a e => h !! a = Some e) addrs es.

Record rel (w : world E) (s : spec E) : Prop := {
  r_copy : shallowCopy (w_store w) = false;
  r_alloc : forall f, newFunc (w_store w) = Some f -> allocates f;
  r_mem : cells (w_heap w) (w_known w) (sp_mem s);
  r_log : cells (w_heap w) (map event (globalEvents (w_store w))) (sp_log s);
  r_pos : map position (globalEvents (w_store w)) =
          map (fun i => Z.of_nat (S i)) (seq 0 (length (sp_log s)));
  r_next : nextPosition (w_store w) = zlen (sp_log s);
  r_streams : forall id, cells (w_heap w) (mget [] (events (w_store w)) id) (stream id (sp_log s));
  r_nonempty : forall id, events (w_store w) !! id <> Some [];
  r_stored : forall id a, a ∈ mget [] (events (w_store w)) id ->
    a ∈ map event (globalEvents (w_store w));
  r_nodup : NoDup (w_known w);
  r_private : forall a, a ∈ w_known w -> a ∉ map event (globalEvents (w_store w)) }.

Lemma cells_app h h' l es : cells h l es -> cells (h ++ h') l es.
Proof. intros Hc. eapply Forall2_impl; [exact Hc|]. intros a e. apply lookup_app_l_Some. Qed.

Lemma cells_write h l es a e : cells h l es -> a ∉ l -> cells (<[a := e]> h) l es.
Proof.
  intros Hc. induction Hc as [|b x l es Hb Hc IH]; intros Ha; constructor.
  - rewrite list_lookup_insert_ne; [done|]. intros ->. apply Ha. left.
  - apply IH. intros ?. apply Ha. by right.
Qed.

Lemma cells_bound h l es a : cells h l es -> a ∈ l -> a < length h.
Proof.
  intros Hc Ha. induction Hc as [|b x l es Hb Hc IH]; [by apply elem_of_nil in Ha|].
  apply elem_of_cons in Ha as [->|Ha]; [by eapply lookup_lt_Some|auto].
Qed.

Lemma cells_fresh h vs : cells (h ++ vs) (seq (length h) (length vs)) vs.
Proof.
  apply Forall2_same_length_lookup_2; [by rewrite length_seq|].
  intros i a e Ha He. apply lookup_seq in Ha as [-> Hlt].
  rewrite lookup_app_r by lia. rewrite <- He. f_equal. lia.
Qed.

Lemma cells_one h v : cells (h ++ [v]) [length h] [v].
Proof. apply (cells_fresh h [v]). Qed.

Lemma copied_copies h st src v :
  shallowCopy st = false -> (forall f, newFunc st = Some f -> allocates f) ->
  h !! src = Some v ->
  copied zero_event src (h, st) = (Done (length h), (h ++ [v], st)).
Proof.
  intros Hs Hf Hv. unfold copied, copyEvent. rewrite Hs. unfold_go. unfold alloc.
  assert (exists e, (match newFunc st with
    | Some f => let (a, h') := f h in (Done a, (h', st))
    | None => (Done (length h), (h ++ [zero_event], st)) end : outcome nat * (heap E * _)) =
    (Done (length h), (h ++ [e], st))) as [e ->].
  { destruct (newFunc st) as [f|]; [|by exists zero_event].
    destruct (Hf f eq_refl h) as [e ->]. by exists e. }
  unfold deref, assign. rewrite (lookup_app_l_Some _ _ _ _ Hv). cbv beta iota.
  rewrite (list_lookup_middle h [] e _ eq_refl).
  replace (length h) with (length h + 0) by lia. by rewrite insert_app_r, Nat.add_0_r.
Qed.

Lemma mapM_copied h st l vs :
  shallowCopy st = false -> (forall f, newFunc st = Some f -> allocates f) ->
  cells h l vs ->
  mapM (copied zero_event) l (h, st) = (Done (seq (length h) (length vs)), (h ++ vs, st)).
Proof.
  intros Hs Hf Hc. revert h vs Hc. induction l as [|a l IH]; intros h vs Hc.
  - inversion Hc; subst. cbn. by rewrite app_nil_r.
  - inversion Hc as [|? v ? vs' Ha Hc']; subst. cbn [mapM]. unfold_go.
    rewrite (copied_copies _ _ _ _ Hs Hf Ha). rewrite (IH (h ++ [v]) vs') by (by apply cells_app).
    rewrite <- app_assoc, length_app, Nat.add_1_r. done.
Qed.

Lemma stream_app id l k : stream id (l ++ k) = stream id l ++ stream id k.
Proof. apply List.filter_app. Qed.

Lemma rel_push known h st mem log v :
  rel (mkWorld known h st) (mkSpec mem log) -> (zlen log + 1 < two63)%Z ->
  rel (mkWorld known (h ++ [v]) (push (aggregate_id v) (length h) st)) (mkSpec mem (log ++ [v])).
Proof.
  intros [Hs Hf Hm Hl Hp Hn Hst Hne Hsub Hnd Hpr] Hb. cbn in *.
  assert (nextPosition st +i 1 = zlen log + 1)%Z as Hnext.
  { rewrite Hn, int_add_id; [done|]. pose proof (zlen_nonneg log). unfold in_int64, two63 in *. lia. }
  split; cbn; rewrite ?map_app; cbn; try done.
  - by apply cells_app.
  - apply Forall2_app; [by apply cells_app|apply cells_one].
  - rewrite Hp, Hnext, length_app, seq_app, map_app. cbn. do 2 f_equal. unfold zlen. lia.
  - rewrite Hnext. unfold zlen. rewrite length_app. cbn. lia.
  - intros id. rewrite stream_app. unfold stream at 2. cbn. destruct (decide (aggregate_id v = id)) as [<-|Hid].
    + rewrite mget_insert_eq, bool_decide_eq_true_2 by done.
      apply Forall2_app; [by apply cells_app|apply cells_one].
    + rewrite mget_insert_ne, bool_decide_eq_false_2, app_nil_r by done. by apply cells_app.
  - intros id. destruct (decide (aggregate_id v = id)) as [<-|Hid].
    + rewrite lookup_insert_eq. intros [=]. by destruct (mget _ _ _).
    + by rewrite lookup_insert_ne.
  - intros id a. destruct (decide (aggregate_id v = id)) as [<-|Hid].
    + rewrite mget_insert_eq, !elem_of_app. intros [Ha|Ha]; [left; eauto|by right].
    + rewrite mget_insert_ne, elem_of_app by done. eauto.
  - intros a Ha [Hin|Hin]%elem_of_app; [by eapply Hpr|].
    apply list_elem_of_singleton in Hin as ->. pose proof (cells_bound _ _ _ _ Hm Ha). lia.
Qed.

Lemma rel_append known h st mem log evts vs :
  rel (mkWorld known h st) (mkSpec mem log) -> cells h evts vs ->
  (zlen (log ++ vs) < two63)%Z ->
  exists st', append_loop zero_event evts (h, st) = (Done tt, (h ++ vs, st')) /\
    rel (mkWorld known (h ++ vs) st') (mkSpec mem (log ++ vs)).
Proof.
  revert h st log vs. induction evts as [|a evts IH]; intros h st log vs Hr Hc Hb.
  - inversion Hc; subst. exists st. by rewrite !app_nil_r.
  - inversion Hc as [|? v ? vs' Ha Hc']; subst. cbn [append_loop]. unfold_go. unfold deref at 1.
    rewrite Ha. pose proof (r_copy _ _ Hr) as Hs. pose proof (r_alloc _ _ Hr) as Hf. cbn in Hs, Hf.
    rewrite (copied_copies _ _ _ _ Hs Hf Ha).
    unfold push_event. cbn [fst snd].
    assert (rel (mkWorld known (h ++ [v]) (push (aggregate_id v) (length h) st))
                (mkSpec mem (log ++ [v]))) as Hr1.
    { apply rel_push; [done|]. revert Hb. autorewrite with go_rw.
      pose proof (zlen_nonneg vs'). lia. }
    destruct (IH _ _ _ vs' Hr1) as (st' & Hl & Hr2).
    { by apply cells_app. } { by rewrite <- app_assoc. }
    exists st'. rewrite <- app_assoc in Hl, Hr2. rewrite <- app_assoc in Hr2.
    split; [exact Hl|exact Hr2].
Qed.

(** The client gets copies of some events. *)
Lemma rel_grow known h st mem log vs :
  rel (mkWorld known h st) (mkSpec mem log) ->
  rel (mkWorld (known ++ seq (length h) (length vs)) (h ++ vs) st) (mkSpec (mem ++ vs) log).
Proof.
  intros [Hs Hf Hm Hl Hp Hn Hst Hne Hsub Hnd Hpr]. split; cbn in *; try done.
  - apply Forall2_app; [by apply cells_app|apply cells_fresh].
  - by apply cells_app.
  - intros id. by apply cells_app.
  - apply NoDup_app. split; [done|]. split; [|apply NoDup_seq].
    intros a Ha [Hge _]%elem_of_seq. pose proof (cells_bound _ _ _ _ Hm Ha). lia.
  - intros a [Ha|[Hge _]%elem_of_seq]%elem_of_app; [by apply Hpr|].
    intros Hin. pose proof (cells_bound _ _ _ _ Hl Hin). lia.
Qed.

Lemma cells_update h l es i a e :
  cells h l es -> NoDup l -> l !! i = Some a -> cells (<[a := e]> h) l (<[i := e]> es).
Proof.
  intros Hc Hnd Hi. apply Forall2_same_length_lookup_2.
  { rewrite length_insert. by eapply Forall2_length. }
  intros j b x Hb Hx. destruct (decide (j = i)) as [->|Hne].
  - rewrite list_lookup_insert_eq in Hx
      by (rewrite <- (Forall2_length _ _ _ Hc); by eapply lookup_lt_Some).
    injection Hx as <-. assert (b = a) as -> by congruence.
    apply list_lookup_insert_eq. eapply cells_bound; [exact Hc|]. by eapply list_elem_of_lookup_2.
  - rewrite list_lookup_insert_ne in Hx by done.
    rewrite list_lookup_insert_ne; [exact (Forall2_lookup_lr _ _ _ _ _ _ Hc Hb Hx)|].
    intros ->. apply Hne. by eapply NoDup_lookup.
Qed.

Lemma rel_write known h st mem log hd a e :
  rel (mkWorld known h st) (mkSpec mem log) -> known !! hd = Some a ->
  rel (mkWorld known (<[a := e]> h) st) (mkSpec (<[hd := e]> mem) log).
Proof.
  intros [Hs Hf Hm Hl Hp Hn Hst Hne Hsub Hnd Hpr] Ha. cbn in *.
  assert (a ∉ map event (globalEvents st)) as Hna.
  { apply Hpr. by eapply list_elem_of_lookup_2. }
  split; cbn; try done.
  - by apply cells_update.
  - by apply cells_write.
  - intros id. apply cells_write; [done|]. eauto.
Qed.

(** Handles name the same events on both sides. *)
Lemma handles_lookup known h mem hds :
  cells h known mem ->
  match mapM (fun hd => known !! hd) hds, mapM (fun hd => mem !! hd) hds with
  | Some evts, Some vs => cells h evts vs
  | None, None => True
  | _, _ => False
  end.
Proof.
  intros Hc. induction hds as [|hd hds IH]; cbn; [constructor|].
  pose proof (Forall2_length _ _ _ Hc) as Hlen.
  destruct (known !! hd) as [a|] eqn:Ha; cbn.
  - destruct (Forall2_lookup_l _ _ _ _ _ Hc Ha) as (v & -> & Hv). cbn.
    destruct (mapM (fun hd => known !! hd) hds), (mapM (fun hd => mem !! hd) hds); cbn; try done.
    by constructor.
  - apply lookup_ge_None in Ha. rewrite (proj2 (lookup_ge_None mem hd)) by lia. done.
Qed.

Lemma mapM_copied_entries h st (l : list (globalEntry nat)) vs :
  shallowCopy st = false -> (forall f, newFunc st = Some f -> allocates f) ->
  cells h (map event l) vs ->
  exists l', mapM (fun entry => evt ← copied zero_event (event entry);
                                mret (mkEntry (position entry) evt)) l (h, st) =
      (Done l', (h ++ vs, st)) /\
    map event l' = seq (length h) (length vs) /\ map position l' = map position l.
Proof.
  intros Hs Hf. revert h vs. induction l as [|en l IH]; intros h vs Hc.
  - inversion Hc; subst. exists []. cbn. by rewrite app_nil_r.
  - inversion Hc as [|? v ? vs' Ha Hc']; subst. cbn [mapM]. unfold_go.
    rewrite (copied_copies _ _ _ _ Hs Hf Ha).
    destruct (IH (h ++ [v]) vs') as (l' & -> & He & Hp); [by apply cells_app|].
    exists (mkEntry (position en) (length h) :: l').
    rewrite <- app_assoc. cbn. rewrite He, Hp, length_app, Nat.add_1_r. done.
Qed.

(** The index [LoadAll] starts from, on positions [i+1, i+2, ...]. *)
Lemma start_index_positions p (l : list (globalEntry nat)) i n :
  map position l = map (fun i => Z.of_nat (S i)) (seq i n) ->
  start_index p l = Nat.min (Z.to_nat p - i) n.
Proof.
  revert i n. induction l as [|en l IH]; intros i [|n]; cbn; try done; [lia|].
  intros [= Hen Hl]. rewrite (IH (S i) n Hl), Hen. case_bool_decide; lia.
Qed.

Lemma cells_drop h l es n : cells h l es -> cells h (drop n l) (drop n es).
Proof. apply Forall2_drop. Qed.
Lemma cells_take h l es n : cells h l es -> cells h (take n l) (take n es).
Proof. apply Forall2_take. Qed.

Lemma map_drop' {A B} (f : A -> B) n (l : list A) : map f (drop n l) = drop n (map f l).
Proof. revert l. induction n; intros []; cbn; auto. Qed.
Lemma map_take' {A B} (f : A -> B) n (l : list A) : map f (take n l) = take n (map f l).
Proof. revert l. induction n; intros []; cbn; congruence. Qed.

(** [LoadAll] returns copies of the entries after a position. *)
Lemma load_all_runs known h st mem log p n :
  rel (mkWorld known h st) (mkSpec mem log) ->
  (zlen log < max_alloc)%Z -> (n <= max_int64)%Z ->
  let start := Z.to_nat p in let rest := drop start log in
  let l := if bool_decide (0 < n)%Z then take (Z.to_nat n) rest else rest in
  if bool_decide (0 < zlen rest)%Z && bool_decide (max_int64 < Z.of_nat start + n)%Z
  then LoadAll zero_event p n (h, st) = (Panicked "makeslice: len out of range", (h, st))
  else exists l', LoadAll zero_event p n (h, st) = (Done l', (h ++ l, st)) /\
    map event l' = seq (length h) (length l) /\
    map position l' = map (fun i => Z.of_nat (S i)) (seq start (length l)).
Proof.
  intros Hr Hlog Hn start rest l. pose proof (r_pos _ _ Hr) as Hp. pose proof (r_log _ _ Hr) as Hl.
  pose proof (r_copy _ _ Hr) as Hs. pose proof (r_alloc _ _ Hr) as Hf. cbn in *.
  assert (length (globalEvents st) = length log) as Hlen.
  { rewrite <- (length_map event). by eapply Forall2_length. }
  assert (zlen (globalEvents st) = zlen log) as Hzl by (unfold zlen; by rewrite Hlen).
  unfold LoadAll. rewrite (start_index_positions _ _ _ _ Hp), Nat.sub_0_r, Hzl.
  fold start. clearbody start.
  assert (zlen rest = Z.max 0 (zlen log - Z.of_nat start))%Z as Hrest.
  { unfold rest, zlen. rewrite length_drop. lia. }
  destruct (decide (length log <= start)) as [Hge|Hlt].
  { rewrite (bool_decide_eq_false_2 (0 < zlen rest)%Z) by (unfold zlen in *; lia). cbn [andb].
    rewrite bool_decide_eq_true_2 by (unfold zlen; lia).
    assert (rest = []) as Hnil by (apply drop_ge; lia).
    assert (l = []) as -> by (unfold l; rewrite Hnil; case_bool_decide; [apply take_nil|done]).
    exists []. by rewrite app_nil_r. }
  rewrite (bool_decide_eq_true_2 (0 < zlen rest)%Z) by (unfold zlen in *; lia). cbn [andb].
  replace (Nat.min start (length log)) with start by lia.
  rewrite (bool_decide_eq_false_2 (zlen log <= Z.of_nat start)%Z) by (unfold zlen; lia).
  assert (Z.of_nat start < zlen log)%Z as Hsl by (unfold zlen; lia).
  unfold max_alloc, max_int64, two63 in *.
  case_bool_decide as Hover.
  { assert (Z.of_nat start +i n < 0)%Z as Hneg.
    { unfold int_add, wrap64, two63, two64.
      replace (Z.of_nat start + n + 9223372036854775808)%Z
        with (Z.of_nat start + n - 9223372036854775808 + 1 * 18446744073709551616)%Z by lia.
      rewrite Z.mod_add, Z.mod_small by lia. lia. }
    rewrite !bool_decide_eq_true_2 by lia. cbn [andb].
    assert ((Z.of_nat start +i n) -i Z.of_nat start = n)%Z as Hd.
    { unfold int_sub, Z.sub, int_add. rewrite wrap64_wrap64_add.
      replace (Z.of_nat start + n + - Z.of_nat start)%Z with n by lia.
      apply wrap64_id. unfold in_int64, two63. lia. }
    rewrite Hd. unfold makeslice_ok, max_alloc. rewrite bool_decide_eq_false_2 by lia. done. }
  assert (forall e, (Z.of_nat start <= e <= zlen log)%Z ->
    e -i Z.of_nat start = (e - Z.of_nat start)%Z) as Hsub.
  { intros e He. apply int_sub_id. unfold in_int64, two63. lia. }
  assert (forall m, (0 < m)%Z -> (Z.of_nat start + m <= 9223372036854775807)%Z ->
    Z.of_nat start +i m = (Z.of_nat start + m)%Z) as Hadd.
  { intros m ??. apply int_add_id. unfold in_int64, two63. lia. }
  set (endIdx := if bool_decide (0 < n)%Z && bool_decide (Z.of_nat start +i n < zlen log)%Z
                 then Z.of_nat start +i n else zlen log).
  assert (l = take (Z.to_nat (endIdx - Z.of_nat start)) rest /\
          (Z.of_nat start <= endIdx <= zlen log)%Z) as [Hlr Hend].
  { unfold l, endIdx. destruct (decide (0 < n)%Z) as [Hn0|Hn0];
      [rewrite !(bool_decide_eq_true_2 (0 < n)%Z) by lia; rewrite Hadd by lia
      |rewrite !(bool_decide_eq_false_2 (0 < n)%Z) by lia]; cbn [andb].
    - case_bool_decide; split; try lia; [f_equal; lia|].
      rewrite !take_ge; [done|unfold zlen in *; lia..].
    - split; [|lia]. rewrite take_ge; [done|]. unfold zlen in *. lia. }
  rewrite Hsub by done. unfold makeslice_ok, max_alloc.
  rewrite bool_decide_eq_true_2 by lia. cbn [negb]. rewrite Nat2Z.id.
  assert (cells h (map event (take (Z.to_nat (endIdx - Z.of_nat start))
    (drop start (globalEvents st)))) l) as Hcl.
  { rewrite Hlr, map_take', map_drop'. by apply cells_take, cells_drop. }
  destruct (mapM_copied_entries h st _ l Hs Hf Hcl) as (l' & -> & He & Hpos).
  exists l'. split; [done|]. split; [done|].
  rewrite Hpos, map_take', map_drop', Hp. clear -Hlr.
  rewrite Hlr. unfold rest. rewrite length_take, length_drop.
  rewrite <- map_drop', <- map_take'. f_equal.
  by rewrite drop_seq, take_seq.
Qed.

(** *** One call *)

(** The arguments of a call fit in Go's integers. *)
Definition op_ok (o : client_op E) : Prop :=
  match o with CLoadAll _ n => (n <= max_int64)%Z | _ => True end.

(** What the two sides of a step owe each other. *)
Definition simulates (i : outcome client_out * world E) (s : outcome client_out * spec E) : Prop :=
  i.1 = s.1 /\ match s.1 with Done _ => rel i.2 s.2 | Panicked _ => True end.

Lemma run_call_simulates {A} (m : GoM (heap E * EventSourceStore E) A) k got w a h' st' o s' :
  m (w_heap w, w_store w) = (Done a, (h', st')) -> o = k a ->
  rel (mkWorld (w_known w ++ got a) h' st') s' ->
  simulates (run_call m k got w) (Done o, s').
Proof. intros Hm -> Hr. unfold run_call. rewrite Hm. by split. Qed.

Lemma append_simulates w s id v hds :
  rel w s -> (zlen (sp_log (spec_step (CAppend id v hds) s).2) < max_alloc)%Z ->
  simulates (impl_step zero_event (CAppend id v hds) w) (spec_step (CAppend id v hds) s).
Proof.
  intros Hr. destruct w as [known h st], s as [mem log]. cbn [impl_step spec_step w_known sp_mem].
  pose proof (handles_lookup _ _ _ hds (r_mem _ _ Hr)) as Hh. cbn [w_known sp_mem w_heap] in Hh.
  destruct (mapM (fun hd => known !! hd) hds) as [evts|],
           (mapM (fun hd => mem !! hd) hds) as [vs|]; try done.
  assert (zlen (mget [] (events st) id) = zlen (stream id log)) as Hlen.
  { unfold zlen. f_equal. apply (Forall2_length _ _ _ (r_streams _ _ Hr id)). }
  cbn [sp_log]. case_bool_decide as Hv; cbn [snd sp_log]; intros Hb.
  - destruct (rel_append known h st mem log evts vs Hr Hh) as (st' & Hl & Hr').
    { unfold max_alloc, two63 in *. lia. }
    eapply run_call_simulates; [|done|cbn; by rewrite app_nil_r]. cbn [w_heap w_store].
    unfold Append. rewrite Hlen, bool_decide_eq_true_2 by done. cbn [negb]. unfold_go.
    by rewrite Hl.
  - eapply run_call_simulates; [|done|cbn; by rewrite app_nil_r]. cbn [w_heap w_store].
    unfold Append. rewrite Hlen, bool_decide_eq_false_2 by done. done.
Qed.

Lemma load_simulates w s id v :
  rel w s -> simulates (impl_step zero_event (CLoad id v) w) (spec_step (CLoad id v) s).
Proof.
  intros Hr. destruct w as [known h st], s as [mem log]. cbn [impl_step spec_step sp_log sp_mem].
  pose proof (r_streams _ _ Hr id) as Hst. pose proof (r_nonempty _ _ Hr id) as Hne.
  pose proof (r_copy _ _ Hr) as Hs. pose proof (r_alloc _ _ Hr) as Hf. cbn in *.
  unfold run_call, Load. cbn [w_heap w_store w_known]. unfold mget in Hst.
  destruct (events st !! id) as [evs|] eqn:Hev; cbn [default] in Hst; unfold Datatypes.id in Hst.
  2:{ assert (stream id log = []) as -> by (by inversion Hst).
      rewrite (bool_decide_eq_true_2 ([] = [])), andb_false_r by done.
      rewrite drop_nil, !app_nil_r. by split. }
  pose proof (Forall2_length _ _ _ Hst) as Hlen.
  rewrite (bool_decide_eq_false_2 (stream id log = [])), andb_true_r.
  2:{ intros Heq. apply Hne. f_equal. rewrite Heq in Hlen. by destruct evs. }
  pose proof (zlen_nonneg evs) as Hpos.
  destruct (decide (zlen evs <= v)%Z) as [Hle|Hle];
    [rewrite (bool_decide_eq_true_2 (zlen evs <= v)%Z) by done
    |rewrite (bool_decide_eq_false_2 (zlen evs <= v)%Z) by done].
  - rewrite (bool_decide_eq_false_2 (v < 0)%Z) by lia.
    rewrite drop_ge by (unfold zlen in *; lia). rewrite !app_nil_r. by split.
  - destruct (decide (v < 0)%Z) as [Hv|Hv].
    + rewrite bool_decide_eq_true_2 by done. unfold slice_from.
      rewrite bool_decide_eq_false_2 by lia. by split.
    + rewrite bool_decide_eq_false_2 by done. rewrite slice_from_Some by lia.
      rewrite (mapM_copied _ _ _ (drop (Z.to_nat v) (stream id log)) Hs Hf) by (by apply cells_drop).
      split; cbn; [by rewrite length_seq|]. by apply rel_grow.
Qed.

Lemma step_simulates w s o :
  rel w s -> op_ok o -> (zlen (sp_log (spec_step o s).2) < max_alloc)%Z ->
  simulates (impl_step zero_event o w) (spec_step o s).
Proof.
  intros Hr Hok Hb.
  destruct o as [e|hd e|id v hds|id v|p n];
    [| |by apply append_simulates|by apply load_simulates|];
    destruct w as [known h st], s as [mem log].
  - split; [done|]. cbn. apply (rel_grow _ _ _ _ _ [e] Hr).
  - cbn [impl_step spec_step w_known sp_mem].
    pose proof (Forall2_length _ _ _ (r_mem _ _ Hr)) as Hlen. cbn in Hlen.
    destruct (known !! hd) as [a|] eqn:Ha.
    + rewrite bool_decide_eq_true_2 by (rewrite <- Hlen; by eapply lookup_lt_Some).
      split; [done|]. cbn. by apply rel_write.
    + apply lookup_ge_None in Ha. rewrite bool_decide_eq_false_2 by lia. by split.
  - assert (zlen log < max_alloc)%Z as Hb'.
    { revert Hb. cbn. by destruct (bool_decide _ && bool_decide _)%bool. }
    pose proof (load_all_runs known h st mem log p n Hr Hb' Hok) as Hl. cbn zeta in Hl.
    cbn [impl_step spec_step sp_log sp_mem]. unfold run_call. cbn [w_heap w_store w_known].
    destruct (bool_decide (0 < zlen (drop (Z.to_nat p) log))%Z &&
      bool_decide (max_int64 < Z.of_nat (Z.to_nat p) + n)%Z)%bool; [by rewrite Hl|].
    destruct Hl as (l' & -> & He & Hpos).
    split; cbn; [by rewrite Hpos|]. rewrite He. by apply rel_grow.
Qed.

Lemma rel_new opts st :
  NewEventSourceStore TPointer opts = Ok st -> Forall allocates opts ->
  rel (mkWorld [] [] st) (mkSpec [] []).
Proof.
  intros [= <-] Hall. split; cbn; try done; try constructor.
  - intros f Hf. apply last_Some_elem_of in Hf. by eapply Forall_forall.
  - intros a Ha. by apply elem_of_nil in Ha.
Qed.

(** The log only grows. *)
Lemma spec_log_grows o s : (zlen (sp_log s) <= zlen (sp_log (spec_step o s).2))%Z.
Proof.
  destruct s as [mem log], o; cbn; repeat case_match; cbn; autorewrite with go_rw; try lia.
  all: pose proof (zlen_nonneg l); lia.
Qed.

Lemma spec_run_grows ops s : (zlen (sp_log s) <= zlen (sp_log (run spec_step ops s).2))%Z.
Proof.
  revert s. induction ops as [|o ops IH]; intros s; cbn [run]; unfold_go; [cbn; lia|].
  pose proof (spec_log_grows o s) as Ho. destruct (spec_step o s) as [[out|why] s1]; cbn in *; [|lia].
  specialize (IH s1). destruct (run spec_step ops s1) as [[outs|why] s2]; cbn in *; lia.
Qed.
End Simulation.

(** ** Properties *)

(** C1: In copy mode the store is an append-only log that its clients cannot reach:
    for every program that allocates events, overwrites events it holds (those it appended and
    those it loaded included), appends, loads and pages through the global stream, the store gives
    the same errors, panics, numbers and positions as the log of contents, and every event the
    program holds has the contents it has over the log. *)
Theorem event_store_refines_log {E} `{!Event E} (zero_event : E) opts st ops :
  NewEventSourceStore TPointer opts = Ok st -> Forall allocates opts -> Forall op_ok ops ->
  (zlen (sp_log (run spec_step ops (mkSpec [] [])).2) < max_alloc)%Z ->
  let '(out, w) := run (impl_step zero_event) ops (mkWorld [] [] st) in
  let '(out', s) := run spec_step ops (mkSpec [] []) in
  out = out' /\
  match out' with
  | Done _ => mapM (fun a => w_heap w !! a) (w_known w) = Some (sp_mem s)
  | Panicked _ => True
  end.
Proof.
  intros Hnew Hall Hok Hb.
  enough (forall w s, rel w s -> (zlen (sp_log (run spec_step ops s).2) < max_alloc)%Z ->
    (run (impl_step zero_event) ops w).1 = (run spec_step ops s).1 /\
    match (run spec_step ops s).1 with
    | Done _ => rel (run (impl_step zero_event) ops w).2 (run spec_step ops s).2
    | Panicked _ => True end) as H.
  { destruct (H _ _ (rel_new _ _ Hnew Hall) Hb) as [H1 H2].
    destruct (run (impl_step zero_event) ops _) as [out w], (run spec_step ops _) as [out' s].
    cbn in *. split; [done|]. destruct out'; [|done].
    apply mapM_Some, (r_mem _ _ H2). }
  clear Hb. induction Hok as [|o ops Ho _ IH]; intros w s Hr Hb; [by split|].
  cbn [run] in *. unfold_go.
  assert (zlen (sp_log (spec_step o s).2) < max_alloc)%Z as Hb1.
  { destruct (spec_step o s) as [[out|why] s1]; cbn in *; [|done].
    pose proof (spec_run_grows ops s1). destruct (run spec_step ops s1) as [[?|?] ?]; cbn in *; lia. }
  destruct (step_simulates zero_event w s o Hr Ho Hb1) as [H1 H2].
  destruct (impl_step zero_event o w) as [r w1], (spec_step o s) as [r' s1]. cbn in H1, H2. subst r.
  destruct r' as [out|why]; [|by split].
  assert (zlen (sp_log (run spec_step ops s1).2) < max_alloc)%Z as Hb2.
  { destruct (run spec_step ops s1) as [[?|?] ?]; cbn in *; lia. }
  destruct (IH w1 s1 H2 Hb2) as [H3 H4].
  destruct (run (impl_step zero_event) ops w1) as [r w2], (run spec_step ops s1) as [r' s2].
  cbn in H3, H4. subst r. by destruct r'.
Qed.

(** ** A concrete store *)
Module DemoEventStore.
Record ev := mkEv { ev_id : string; amount : Z }.
#[export] Instance ev_event : Event ev :=
  { Metadata e := Some (NewBaseEvent (ev_id e) 0); EventNameOf _ := "ev";
    type_string _ := "*demo.ev" }.
Definition zero_ev : ev := mkEv "" 0.
Definition new_store : EventSourceStore ev := mkStore ∅ [] 0 None false.

(** Append two events, overwrite the first one, load the stream back, overwrite
    what was loaded, load again, and page through the global stream. *)
Definition program : list (client_op ev) :=
  [CNew (mkEv "a" 1); CNew (mkEv "a" 2); CAppend "a" 0 [0; 1];
   CWrite 0 (mkEv "a" 99); CLoad "a" 0; CWrite 2 (mkEv "a" 77); CLoad "a" 0;
   CAppend "a" 1 [0]; CLoadAll 1 10].
End DemoEventStore.
Import DemoEventStore.

(** In shallow mode the client's writes reach the store. *)
Example shallow_store_aliases :
  let '(_, w) := run (impl_step zero_ev)
    [CNew (mkEv "a" 1); CAppend "a" 0 [0]; CWrite 0 (mkEv "a" 99); CLoad "a" 0]
    (mkWorld [] [] (mkStore ∅ [] 0 None true)) in
  mapM (fun a => w_heap w !! a) (w_known w) = Some [mkEv "a" 99; mkEv "a" 99].
Proof. vm_compute. reflexivity. Qed.

Lemma event_store_refines_log_witness :
  (run (impl_step zero_ev) program (mkWorld [] [] new_store)).1 =
    Done [ONone; ONone; OError None; ONone; OEvents 2; ONone; OEvents 2;
          OError (Some (conflict 1 2 "a")); OGlobal [2%Z]] /\
  let '(out, w) := run (impl_step zero_ev) program (mkWorld [] [] new_store) in
  let '(out', s) := run spec_step program (mkSpec [] []) in
  out = out' /\
  match out' with
  | Done _ => mapM (fun a => w_heap w !! a) (w_known w) = Some (sp_mem s)
  | Panicked _ => True
  end.
Proof.
  split; [vm_compute; reflexivity|].
  apply (event_store_refines_log zero_ev [] new_store program); [reflexivity|constructor| |].
  - repeat constructor; vm_compute; discriminate.
  - vm_compute. reflexivity.
Defined.
