(* ===== verification/Repository.v ===== *)
(** * The in-memory repositories: [src/infra/repository/memory/repository.go],
    [src/domain/repository/repository.go]

    Snapshots with optimistic locking, for CRUD and for event-sourced aggregates.
    A repository keeps deep copies made by its serializer, so the aggregates it
    keeps are values. *)

From S2P Require Import Prelude Errors Trace Aggregate.
From S2P Require Import Entity.

(** [SnapshotSerializer]; [D] is the type of the serialized data. The default,
    [JSONSerializer], is [encoding/json] on the aggregate. *)
Record SnapshotSerializer (T D : Type) := mkSerializer {
  Serialize : T -> result D;
  Deserialize : D -> result T }.
Arguments mkSerializer {T D} Serialize Deserialize.
Arguments Serialize {T D} _ _.
Arguments Deserialize {T D} _ _.

Section Repository.
Context {T E D : Type} `{!AggregateRef T E}.

Record aggregateRecord := mkRecord { agg : T; rec_version : Z }.

Record InMemoryRepository := mkRepo {
  store : gmap string aggregateRecord;
  serializer : SnapshotSerializer T D }.

(** [NewRepository] and [NewEventSourcedRepository]: the options replace the
    serializer, the last one wins; [json] is the default serializer. *)
Definition NewRepository (json : SnapshotSerializer T D) (opts : list (SnapshotSerializer T D)) :
    InMemoryRepository := mkRepo ∅ (default json (last opts)).
Definition NewEventSourcedRepository := NewRepository.

Definition deepCopy (s : SnapshotSerializer T D) (a : T) : result T :=
  match Serialize s a with
  | Err err => Err (EWrap "serialize aggregate: " err "")
  | Ok data =>
      match Deserialize s data with
      | Err err => Err (EWrap "deserialize aggregate: " err "")
      | Ok copied => Ok copied
      end
  end.

Definition root (a : T) : AggregateRoot E := GetAggregateRoot a.

(** The two optimistic-lock checks of [Save] against the stored record. *)
Definition lock_check (existing : option aggregateRecord) (a : T) (unchanged : bool) : error :=
  match existing with
  | None => None
  | Some existing =>
      let expectedVersion := ExpectedVersion (root a) in
      if negb (bool_decide (expectedVersion = rec_version existing)) then
        Some (EOptimisticLock (ID (root a)) expectedVersion false)
      else if bool_decide (Version (root a) = rec_version existing) && unchanged then
        Some (EOptimisticLock (ID (root a)) expectedVersion true)
      else None
  end.

Definition put_record (a copied : T) (r : InMemoryRepository) : InMemoryRepository :=
  mkRepo (<[ID (root a) := mkRecord copied (Version (root a))]> (store r)) (serializer r).

(** [InMemoryRepository.Save]. *)
Definition Save (a : T) (r : InMemoryRepository) : InMemoryRepository * error :=
  let no_events := bool_decide (zlen (UncommittedEvents (root a)) = 0)%Z in
  match lock_check (store r !! ID (root a)) a no_events with
  | Some err => (r, Some err)
  | None =>
      match deepCopy (serializer r) a with
      | Err err => (r, Some err)
      | Ok copied => (put_record a copied r, None)
      end
  end.

Definition not_found (id : string) : goerr := EWrap ("aggregate " +:+ id +:+ ": ") ErrNotFound "".

Definition FindByID (id : string) (r : InMemoryRepository) : result T :=
  match store r !! id with
  | None => Err (not_found id)
  | Some rec => deepCopy (serializer r) (agg rec)
  end.

Definition Delete (id : string) (r : InMemoryRepository) : InMemoryRepository * error :=
  match store r !! id with
  | None => (r, Some (not_found id))
  | Some _ => (mkRepo (delete id (store r)) (serializer r), None)
  end.

(** The aggregate after [root.MarkEventsAsCommitted()]. *)
Definition committed (a : T) : T := put_root (MarkEventsAsCommitted (root a)) a.

(** [InMemoryEventSourcedRepository.Save]: also gives the caller's aggregate after it. *)
Definition ES_Save (a : T) (r : InMemoryRepository) : InMemoryRepository * T * error :=
  if bool_decide (zlen (UncommittedEvents (root a)) = 0)%Z then (r, a, None)
  else
    match lock_check (store r !! ID (root a)) a true with
    | Some err => (r, a, Some err)
    | None =>
        match deepCopy (serializer r) a with
        | Err err => (r, a, Some err)
        | Ok copied => (put_record a copied r, committed a, None)
        end
    end.

Definition ES_Load := FindByID.
End Repository.
Arguments InMemoryRepository : clear implicits.
Arguments aggregateRecord : clear implicits.

(** What the repositories rely on of a serializer: it restores the aggregate
    with no uncommitted events, and serializes what it restored. *)
Class SerializerLaws {T E D : Type} `{!AggregateRef T E} (s : SnapshotSerializer T D) : Prop := {
  deserialize_serialize : forall a d,
    Serialize s a = Ok d -> Deserialize s d = Ok (committed a);
  serialize_committed : forall a d,
    Serialize s a = Ok d -> exists d', Serialize s (committed a) = Ok d' }.

(** ** Lemmas *)

Section Lemmas.
Context {T E D : Type} `{!AggregateRef T E, !AggregateRefLaws T E}.
Implicit Types (a : T) (r : InMemoryRepository T D) (s : SnapshotSerializer T D).

Lemma root_committed a : root (committed a) = MarkEventsAsCommitted (root a).
Proof. apply root_put. Qed.

Lemma committed_idem a : committed (committed a) = committed a.
Proof.
  unfold committed at 1. rewrite root_committed. unfold committed.
  by rewrite put_put.
Qed.

Lemma deepCopy_ok s `{!SerializerLaws s} a c :
  deepCopy s a = Ok c -> c = committed a /\ deepCopy s c = Ok c.
Proof.
  unfold deepCopy. destruct (Serialize s a) as [d|] eqn:Hd; [|done].
  rewrite (deserialize_serialize _ _ Hd). intros [= <-]. split; [done|].
  destruct (serialize_committed _ _ Hd) as [d' Hd']. rewrite Hd'.
  by rewrite (deserialize_serialize _ _ Hd'), committed_idem.
Qed.

(** What is stored is filed under its identity, committed, at its version. *)
Definition record_ok s (id : string) (rec : aggregateRecord T) : Prop :=
  ID (root (agg rec)) = id /\ rec_version rec = Version (root (agg rec)) /\
  UncommittedEvents (root (agg rec)) = [] /\ deepCopy s (agg rec) = Ok (agg rec).

Definition repo_ok r : Prop := map_Forall (record_ok (serializer r)) (store r).

Lemma repo_ok_new s opts : repo_ok (@NewRepository T D s opts).
Proof. apply map_Forall_empty. Qed.

Lemma put_record_ok r a c `{!SerializerLaws (serializer r)} :
  repo_ok r -> deepCopy (serializer r) a = Ok c -> repo_ok (put_record a c r).
Proof.
  intros Hok Hc. apply deepCopy_ok in Hc as [-> Hc]; [|done].
  apply map_Forall_insert_2; [|exact Hok]. unfold record_ok. cbn.
  by rewrite root_committed.
Qed.

Lemma save_ok r a `{!SerializerLaws (serializer r)} : repo_ok r -> repo_ok (Save a r).1.
Proof.
  intros Hok. unfold Save. destruct (lock_check _ _ _); [done|].
  destruct (deepCopy (serializer r) a) eqn:Hc; [|done]. by apply put_record_ok.
Qed.

Lemma delete_ok r id : repo_ok r -> repo_ok (Delete id r).1.
Proof.
  intros Hok. unfold Delete. destruct (store r !! id); [|done]. by apply map_Forall_delete.
Qed.

Lemma es_save_ok r a `{!SerializerLaws (serializer r)} : repo_ok r -> repo_ok (ES_Save a r).1.1.
Proof.
  intros Hok. unfold ES_Save. case_bool_decide; [done|]. destruct (lock_check _ _ _); [done|].
  destruct (deepCopy (serializer r) a) eqn:Hc; [|done]. by apply put_record_ok.
Qed.

(** An aggregate with events that was at the stored version passes both checks. *)
Lemma lock_check_pass rec a b :
  ExpectedVersion (root a) = rec_version rec -> Version (root a) <> rec_version rec ->
  lock_check (Some rec) a b = None.
Proof.
  intros He Hv. unfold lock_check. rewrite bool_decide_eq_true_2 by done. cbn.
  by rewrite bool_decide_eq_false_2.
Qed.

Lemma lock_check_stale rec a b :
  ExpectedVersion (root a) <> rec_version rec ->
  exists err, lock_check (Some rec) a b = Some err /\ is_concurrency (Some err) = true.
Proof.
  intros He. unfold lock_check. rewrite bool_decide_eq_false_2 by done. cbn. by eexists.
Qed.

(** A version with uncommitted events differs from the expected one. *)
Lemma version_moved a :
  in_int64 (Version (root a)) -> (0 < zlen (UncommittedEvents (root a)) < two64)%Z ->
  Version (root a) <> ExpectedVersion (root a).
Proof.
  unfold ExpectedVersion, Version, UncommittedEvents. intros Hv Hn Heq.
  unfold int_sub, wrap64, in_int64, two63, two64 in *.
  set (v := version (root a)) in *. set (n := zlen (uncommittedEvents (root a))) in *.
  clearbody v n.
  assert ((v - n + 9223372036854775808) mod 18446744073709551616 = v + 9223372036854775808)%Z
    as Hm by lia.
  destruct (Z.lt_ge_cases (v - n + 9223372036854775808) 0) as [Hneg|Hpos].
  - replace (v - n + 9223372036854775808)%Z
      with (v - n + 9223372036854775808 + 18446744073709551616 + (-1) * 18446744073709551616)%Z
      in Hm by lia.
    rewrite Z.mod_add, Z.mod_small in Hm by lia. lia.
  - rewrite Z.mod_small in Hm by lia. lia.
Qed.

Lemma apply_changes_id (a a' : T) `{!Event E} evs :
  apply_changes a evs = (a', None) -> ID (root a') = ID (root a).
Proof.
  revert a. induction evs as [|e evs IH]; intros a; cbn; [by intros [= ->]|].
  pose proof (apply_change_root a e) as Hr.
  destruct (ApplyChange a e) as [a1 [err|]] eqn:Ha; [done|]. intros Hc.
  rewrite (IH _ Hc). unfold root. cbn in Hr. rewrite Hr. by destruct ((When e a).2).
Qed.
End Lemmas.

(** Running a client's calls on the CRUD repository. *)
Inductive repo_op (T : Type) := RSave (a : T) | RDelete (id : string).
Arguments RSave {T} a.
Arguments RDelete {T} id.

Definition repo_step {T E D} `{!AggregateRef T E} (r : InMemoryRepository T D) (o : repo_op T) :
    InMemoryRepository T D :=
  match o with RSave a => (Save a r).1 | RDelete id => (Delete id r).1 end.
Definition repo_run {T E D} `{!AggregateRef T E} (r : InMemoryRepository T D) (ops : list (repo_op T)) :
    InMemoryRepository T D := fold_left repo_step ops r.

Section RunLemmas.
Context {T E D : Type} `{!AggregateRef T E, !AggregateRefLaws T E}.
Implicit Types (a : T) (r : InMemoryRepository T D).

Lemma step_serializer r o : serializer (repo_step r o) = serializer r.
Proof.
  destruct o as [a|id]; cbn.
  - unfold Save. destruct (lock_check _ _ _); [done|]. by destruct (deepCopy _ _).
  - unfold Delete. by destruct (store r !! id).
Qed.

Lemma repo_run_ok (s : SnapshotSerializer T D) `{!SerializerLaws s} ops r :
  serializer r = s -> repo_ok r -> repo_ok (repo_run r ops) /\ serializer (repo_run r ops) = s.
Proof.
  revert r. induction ops as [|o ops IH]; intros r Hs Hok; [done|]. cbn.
  apply IH; [by rewrite step_serializer|].
  destruct o as [a|id]; cbn; [|by apply delete_ok].
  apply save_ok; [|done]. by rewrite Hs.
Qed.

Lemma find_put_record r a c :
  FindByID (ID (root a)) (put_record a c r) = deepCopy (serializer r) c /\
  forall id, id <> ID (root a) -> FindByID id (put_record a c r) = FindByID id r.
Proof.
  unfold FindByID, put_record. cbn. rewrite lookup_insert_eq. split; [done|].
  intros id Hid. by rewrite lookup_insert_ne.
Qed.
End RunLemmas.

(** ** Properties *)

(** What is saved is what is found: a successful [Save] makes [FindByID] of the
    aggregate's identity return the aggregate, with its events committed, and changes no other
    identity; a failed [Save] changes nothing; a successful [Delete] makes exactly that identity
    not found. *)
Theorem save_find_roundtrip {T E D} `{!AggregateRef T E, !AggregateRefLaws T E}
    (r : InMemoryRepository T D) (a : T) (id : string) :
  SerializerLaws (serializer r) ->
  (match Save a r with
   | (r', Some _) => r' = r
   | (r', None) =>
       FindByID (ID (root a)) r' = Ok (committed a) /\
       forall id', id' <> ID (root a) -> FindByID id' r' = FindByID id' r
   end) /\
  (match Delete id r with
   | (r', Some err) => r' = r /\ is_not_found (Some err) = true /\ FindByID id r = Err err
   | (r', None) => FindByID id r' = Err (not_found id) /\
       forall id', id' <> id -> FindByID id' r' = FindByID id' r
   end).
Proof.
  intros Hs. split.
  - unfold Save. destruct (lock_check _ _ _); [done|].
    destruct (deepCopy (serializer r) a) as [c|] eqn:Hc; [|done].
    destruct (find_put_record r a c) as [-> Ho]. by apply deepCopy_ok in Hc as [-> Hc].
  - unfold Delete, FindByID. destruct (store r !! id) eqn:Hid; cbn; [|done].
    rewrite lookup_delete_eq. split; [done|]. intros id' Hne. by rewrite lookup_delete_ne.
Qed.


(** The edit cycle works: in a repository reached by any calls, loading an
    aggregate, applying at least one event to it (all succeeding) and saving it succeeds when
    nobody else saved in between and the serializer accepts it, and loading again gives the edited
    aggregate with its events committed; in the event-sourced repository the caller's aggregate
    becomes exactly the one that loading gives. *)
Theorem edit_cycle {T E D} `{!AggregateRef T E, !AggregateRefLaws T E, !Event E}
    (s : SnapshotSerializer T D) (ops : list (repo_op T)) (id : string) (a a' : T) (evs : list E) :
  SerializerLaws s ->
  let r := repo_run (NewRepository s []) ops in
  FindByID id r = Ok a -> apply_changes a evs = (a', None) ->
  in_int64 (Version (root a)) -> in_int64 (Version (root a')) ->
  (0 < zlen (UncommittedEvents (root a')) < two64)%Z ->
  is_Some (match Serialize s a' with Ok d => Some d | Err _ => None end) ->
  exists r', Save a' r = (r', None) /\ FindByID id r' = Ok (committed a') /\
    ES_Save a' r = (r', committed a', None).
Proof.
  intros Hs r Hf Hc Hva Hva' Hn [d Hd].
  destruct (Serialize s a') as [d'|] eqn:Hser; [|done]. injection Hd as ->.
  destruct (repo_run_ok s ops (NewRepository s []) eq_refl (repo_ok_new s [])) as [Hok Hsr].
  fold r in Hok, Hsr.
  unfold FindByID in Hf. destruct (store r !! id) as [rec|] eqn:Hrec; [|done].
  destruct (Hok _ _ Hrec) as (Hid & Hver & Hunc & Hcopy). rewrite Hcopy in Hf. injection Hf as <-.
  assert (ExpectedVersion (root a') = rec_version rec) as Hexp.
  { pose proof (apply_changes_expected (agg rec) evs) as He. rewrite Hc in He. cbn in He.
    unfold root. rewrite He, Hver. by apply expected_version_clean. }
  assert (ID (root a') = id) as Hid' by (rewrite <- Hid; by eapply apply_changes_id).
  assert (deepCopy (serializer r) a' = Ok (committed a')) as Hdc.
  { rewrite Hsr. unfold deepCopy. rewrite Hser. by rewrite (deserialize_serialize _ _ Hser). }
  assert (forall b, lock_check (Some rec) a' b = None) as Hpass.
  { intros b. apply lock_check_pass; [done|]. rewrite <- Hexp. by apply version_moved. }
  exists (put_record a' (committed a') r).
  unfold Save, ES_Save. rewrite Hid', Hrec, !Hpass, Hdc, (bool_decide_eq_false_2 (zlen _ = 0)%Z) by lia.
  split; [done|]. split; [|done].
  destruct (find_put_record r a' (committed a')) as [Hfind _]. rewrite Hid' in Hfind.
  rewrite Hfind. assert (SerializerLaws (serializer r)) as Hsl by (by rewrite Hsr).
  exact (proj2 (deepCopy_ok (serializer r) a' _ Hdc)).
Qed.

(** ** A concrete repository of counters

    The serialized form is the counter without its events. *)
Module DemoRepo.
Import Demo.
Definition strip (c : counter) : counter :=
  mkCounter (MarkEventsAsCommitted (croot c)) (total c).
Definition demo_serializer : SnapshotSerializer counter counter :=
  mkSerializer (fun c => Ok (strip c)) Ok.
#[export] Instance demo_serializer_laws : SerializerLaws demo_serializer.
Proof.
  split.
  - by intros a d [= <-].
  - intros a d _. by eexists.
Qed.
Definition repo1 : InMemoryRepository counter counter :=
  repo_run (NewRepository demo_serializer []) [RSave c1].
End DemoRepo.
Import Demo DemoRepo.

Lemma save_find_roundtrip_witness :
  SerializerLaws (serializer repo1) /\
  (match Save c2 repo1 with
   | (r', Some _) => r' = repo1
   | (r', None) =>
       FindByID (ID (root c2)) r' = Ok (committed c2) /\
       forall id', id' <> ID (root c2) -> FindByID id' r' = FindByID id' repo1
   end) /\ Save c2 (NewRepository demo_serializer []) =
     (put_record c2 (strip c2) (NewRepository demo_serializer []), None).
Proof.
  split; [exact demo_serializer_laws|]. split; [|vm_compute; reflexivity].
  exact (proj1 (save_find_roundtrip repo1 c2 "c1" demo_serializer_laws)).
Defined.


Definition c3 : counter := mkCounter (mkRoot (Entity.mk "c1") 2 (-1) [7%Z]) 12.

Lemma edit_cycle_witness :
  FindByID "c1" repo1 = Ok (strip c1) /\
  exists r', Save c3 repo1 = (r', None) /\ FindByID "c1" r' = Ok (committed c3) /\
    ES_Save c3 repo1 = (r', committed c3, None).
Proof.
  split; [vm_compute; reflexivity|].
  apply (edit_cycle demo_serializer [RSave c1] "c1" (strip c1) c3 [7%Z]);
    [exact demo_serializer_laws|vm_compute; reflexivity|vm_compute; reflexivity| | | |].
  - vm_compute. split; [discriminate|reflexivity].
  - vm_compute. split; [discriminate|reflexivity].
  - vm_compute. split; reflexivity.
  - eexists. reflexivity.
Defined.
