(* ===== verification/JsonHelpers.v ===== *)
(** * JSON by reflection: [src/domain/entity/json_helper.go],
    [src/domain/aggregate/json_helper.go], [JSONSerializer] of [src/domain/repository]

    The helpers merge the JSON of the embedded base with the JSON of the tagged
    fields, and take it apart again. A Go struct is seen through the descriptions
    that [reflect] gives of its fields; JSON values are those of the class [Json],
    with the documented behaviour of [encoding/json] as its laws. *)

From S2P Require Import Prelude Errors Aggregate Repository.
From S2P Require Import Entity.

(** ** JSON values

    [j_entries]: decoding into a map of raw messages; [j_any]: what is left of a
    value that is decoded into an [interface{}] and encoded again (numbers go
    through [float64]). A decoder into a variable is given the variable's old value. *)
Class Json (J : Type) := {
  j_object : gmap string J -> J;
  j_entries : J -> result (gmap string J);
  j_string : string -> J;
  j_int : Z -> J;
  j_time : Z -> result J;
  j_get_string : J -> string -> result string;
  j_get_int : J -> Z -> result Z;
  j_get_time : J -> Z -> result Z;
  j_is_null : J -> bool;
  j_any : J -> J }.

(** Strings of valid UTF-8, integers that a [float64] holds, and times with a four-digit year come back. *)
Class JsonLaws (J : Type) `{!Json J} (valid_text : string -> Prop) : Prop := {
  j_entries_object : forall m, j_entries (j_object m) = Ok m;
  j_string_back : forall s s0, valid_text s -> j_get_string (j_string s) s0 = Ok s;
  j_string_any : forall s, valid_text s -> j_any (j_string s) = j_string s;
  j_int_back : forall z z0, in_int64 z -> j_get_int (j_int z) z0 = Ok z;
  j_int_any : forall z, (Z.abs z <= 2 ^ 53)%Z -> j_any (j_int z) = j_int z;
  j_time_back : forall t j t0, j_time t = Ok j ->
    j_is_null j = false /\ j_any j = j /\ j_get_time j t0 = Ok t }.

(** ** Structs as [reflect] shows them *)

(** A field: is it exported, is it embedded, the name of its type if it is a struct or a pointer to
    one, its [json] tag; its value's JSON and the decoding into it. *)
Record StructField (T J : Type) := mkStructField {
  sf_Name : string;
  sf_Exported : bool;
  sf_Anonymous : bool;
  sf_Struct : option string;
  sf_Tag : string;
  sf_value : T -> result J;
  sf_decode : J -> T -> T * error }.
Arguments mkStructField {T J} sf_Name sf_Exported sf_Anonymous sf_Struct sf_Tag sf_value sf_decode.
Arguments sf_Name {T J} _.
Arguments sf_Exported {T J} _.
Arguments sf_Anonymous {T J} _.
Arguments sf_Struct {T J} _.
Arguments sf_Tag {T J} _.
Arguments sf_value {T J} _ _.
Arguments sf_decode {T J} _ _ _.

Definition comma : Ascii.ascii := Ascii.ascii_of_nat 44.
Definition json_key {T J} (f : StructField T J) : string := List.hd "" (str_split comma (sf_Tag f)).

Section Fields.
Context {T J : Type} `{!Json J} `{!SortSlice}.
Implicit Types f : StructField T J.

(** The test of [isEmbeddedBase] for the base names of a package. *)
Definition isEmbeddedBase (bases : list string) f : bool :=
  if negb (sf_Anonymous f) then false
  else match sf_Struct f with None => false | Some name => bool_decide (name ∈ bases) end.

Definition skipped (bases : list string) f : bool :=
  negb (sf_Exported f) || isEmbeddedBase bases f || bool_decide (sf_Tag f = "") || bool_decide (sf_Tag f = "-").

(** [extractDomainFields]; [excluded] is empty for aggregates. *)
Definition extractDomainFields (bases excluded : list string) (fields : list (StructField T J)) (v : T) :
    gmap string (result J) :=
  fold_left (fun acc f =>
    if skipped bases f then acc
    else if bool_decide (json_key f ∈ excluded) then acc
    else <[json_key f := sf_value f v]> acc) fields ∅.

(** [json.Marshal] of a map: the keys in order, the first error. *)
Definition key_less (x y : string * result J) : bool := string_ltb x.1 y.1.
Definition marshal_map (m : gmap string (result J)) : result J :=
  match omap (fun x => match x.2 with Err e => Some e | Ok _ => None end) (sort_slice key_less (map_to_list m)) with
  | e :: _ => Err e
  | [] => Ok (j_object (omap (fun r => match r with Ok j => Some j | Err _ => None end) m))
  end.

(** The loop over the fields that both [Unmarshal] functions end with. *)
Fixpoint decode_fields (what : string) (bases : list string) (fields : list (StructField T J)) (raw : gmap string J)
    (v : T) : T * error :=
  match fields with
  | [] => (v, None)
  | f :: rest =>
      if skipped bases f then decode_fields what bases rest raw v
      else match raw !! json_key f with
           | None => decode_fields what bases rest raw v
           | Some msg =>
               match sf_decode f msg v with
               | (v, Some err) => (v, Some (EWrap ("unmarshal " +:+ what +:+ " field " +:+ json_key f +:+ ": ") err ""))
               | (v, None) => decode_fields what bases rest raw v
               end
           end
  end.

(** The entries of [raw] under the keys of the base. *)
Definition base_raw (keys : list string) (raw : gmap string J) : gmap string J :=
  filter (fun e => e.1 ∈ keys) raw.

(** [json.Unmarshal] of an object into a struct field, if the object has the key. *)
Definition decode_key {A} (get : J -> A -> result A) (key : string) (m : gmap string J) (old : A) : result A :=
  match m !! key with Some j => get j old | None => Ok old end.
End Fields.

(** ** Aggregates ([src/domain/aggregate/json_helper.go]) *)

Definition aggregate_bases : list string := ["AggregateRoot"; "Entity"; "AuditableEntity"; "SoftDeletableEntity"].

Section Aggregates.
Context {T E J : Type} `{!AggregateRef T E} `{!Json J} `{!SortSlice} (fields : list (StructField T J)).

(** [structToMap(root.ToJSON())]. *)
Definition root_map (j : AggregateRootJSON) : gmap string J :=
  j_any <$> list_to_map [("id", j_string (Entity.json_id (json_base j))); ("version", j_int (json_version j));
                         ("snapshotVersion", j_int (json_snapshotVersion j))].

Definition baseJSONKeys (j : AggregateRootJSON) : list string := map fst (map_to_list (root_map j)).

(** [json.Unmarshal(baseData, &baseJSON)] into a zero [AggregateRootJSON]. *)
Definition decode_root (m : gmap string J) : result AggregateRootJSON :=
  match decode_key j_get_string "id" m "", decode_key j_get_int "snapshotVersion" m 0%Z,
        decode_key j_get_int "version" m 0%Z with
  | Ok i, Ok s, Ok v => Ok (mkRootJSON (Entity.mkJSON i) v s)
  | Err e, _, _ | _, Err e, _ | _, _, Err e => Err e
  end.

Definition MarshalAggregate (agg : T) : result J :=
  let baseMap := root_map (ToJSON (GetAggregateRoot agg)) in
  let domainMap := extractDomainFields aggregate_bases [] fields agg in
  marshal_map (domainMap ∪ (Ok <$> baseMap)).

Definition UnmarshalAggregate (data : J) (agg : T) : T * error :=
  match j_entries data with
  | Err err => (agg, Some (EWrap "unmarshal aggregate: " err ""))
  | Ok raw =>
      let root := GetAggregateRoot agg in
      let baseKeys := baseJSONKeys (ToJSON root) in
      match j_entries (j_object (base_raw baseKeys raw)) with
      | Err err => (agg, Some (EWrap "unmarshal aggregate base: " err ""))
      | Ok m =>
          match decode_root m with
          | Err err => (agg, Some (EWrap "unmarshal aggregate base: " err ""))
          | Ok baseJSON => decode_fields "aggregate" aggregate_bases fields raw (put_root (FromJSON root baseJSON) agg)
          end
      end
  end.

(** [JSONSerializer] for an aggregate type with these two as its JSON methods: [zero] is what
    [json.Unmarshal] allocates for a nil pointer; [type_text] is the type in the errors of
    [encoding/json]. The text [null], which no aggregate gives, is left out. *)
Definition JSONSerializer (zero : T) (type_text : string) : SnapshotSerializer T J :=
  mkSerializer
    (fun agg => match MarshalAggregate agg with
                | Ok d => Ok d
                | Err err => Err (EWrap ("json: error calling MarshalJSON for type " +:+ type_text +:+ ": ") err "")
                end)
    (fun data => match UnmarshalAggregate data zero with
                 | (_, Some err) => Err err
                 | (v, None) => Ok v
                 end).
End Aggregates.

(** ** Entities ([src/domain/entity/json_helper.go]) *)

Definition entity_bases : list string := ["Entity"; "AuditableEntity"; "SoftDeletableEntity"].

Inductive base_value :=
| BSoft (e : SoftDeletable.t)
| BAudit (e : Auditable.t)
| BEntity (e : Entity.t).

Section Entities.
Context {T J : Type} `{!Json J} `{!SortSlice} (fields : list (StructField T J)).
(** The embedded value behind a field, to read and to write; none if the field has not the type of
    this package that its name suggests, or is a pointer to it: then the type assertions panic. *)
Context (embedded : StructField T J -> option ((T -> base_value) * (base_value -> T -> T))).

(** The embedded base: the first embedded struct with one of the three names. *)
Fixpoint find_base (fs : list (StructField T J)) : option (StructField T J) :=
  match fs with
  | [] => None
  | f :: rest => if isEmbeddedBase entity_bases f then Some f else find_base rest
  end.

(** [json.Marshal] of the base's JSON struct, as a map. *)
Definition times_map (e : Auditable.t) : result (gmap string J) :=
  match j_time (Auditable.createdAt e), j_time (Auditable.updatedAt e) with
  | Ok c, Ok u => Ok (list_to_map [("id", j_string (Entity.id (Auditable.entity e))); ("createdAt", c); ("updatedAt", u)])
  | Err err, _ | _, Err err => Err err
  end.

Definition base_map (b : base_value) : result (gmap string J) :=
  match b with
  | BEntity e => Ok (list_to_map [("id", j_string (Entity.id e))])
  | BAudit e => times_map e
  | BSoft e =>
      match times_map (SoftDeletable.auditable e), SoftDeletable.deletedAt e with
      | Ok m, None => Ok m
      | Ok m, Some t => match j_time t with Ok d => Ok (<["deletedAt" := d]> m) | Err err => Err err end
      | Err err, _ => Err err
      end
  end.

Definition structToMap (b : base_value) : result (gmap string J) :=
  match base_map b with Ok m => Ok (j_any <$> m) | Err err => Err err end.

(** [jsonKeysFromMap], its error dropped. *)
Definition jsonKeysFromMap (b : base_value) : list string :=
  match structToMap b with Ok m => map fst (map_to_list m) | Err _ => [] end.

Definition extractBase (v : T) : outcome (result (base_value * list string)) :=
  match find_base fields with
  | None => Done (Err (ENew "no embedded Entity base found"))
  | Some f =>
      match embedded f with
      | None => Panicked "interface conversion"
      | Some (get, _) => Done (Ok (get v, jsonKeysFromMap (get v)))
      end
  end.

Definition applyBaseFromJSON (b : base_value) (v : T) : T :=
  match find_base fields with
  | None => v
  | Some f => match embedded f with Some (_, set) => set b v | None => v end
  end.

Definition MarshalEntity (ent : T) : outcome (result J) :=
  base ← extractBase ent;
  mret (match base with
        | Err err => Err (EWrap "marshal entity base: " err "")
        | Ok (baseVal, baseKeys) =>
            match structToMap baseVal with
            | Err err => Err (EWrap "marshal entity base to map: " err "")
            | Ok baseMap => marshal_map (extractDomainFields entity_bases baseKeys fields ent ∪ (Ok <$> baseMap))
            end
        end).

(** [json.Unmarshal] into a copy of the base's JSON struct. *)
Definition decode_audit (m : gmap string J) (e : Auditable.t) : result Auditable.t :=
  match decode_key j_get_time "createdAt" m (Auditable.createdAt e),
        decode_key j_get_string "id" m (Entity.id (Auditable.entity e)),
        decode_key j_get_time "updatedAt" m (Auditable.updatedAt e) with
  | Ok c, Ok i, Ok u => Ok (Auditable.mk (Entity.mk i) c u)
  | Err err, _, _ | _, Err err, _ | _, _, Err err => Err err
  end.

(** A pointer field: null clears it, a value is decoded into what it points to, or into a new zero time. *)
Definition get_time_ptr (j : J) (old : option Z) : result (option Z) :=
  if j_is_null j then Ok None
  else match j_get_time j (default time_zero old) with Ok t => Ok (Some t) | Err err => Err err end.

Definition decode_base (m : gmap string J) (b : base_value) : result base_value :=
  match b with
  | BEntity e =>
      match decode_key j_get_string "id" m (Entity.id e) with Ok i => Ok (BEntity (Entity.mk i)) | Err err => Err err end
  | BAudit e => match decode_audit m e with Ok e => Ok (BAudit e) | Err err => Err err end
  | BSoft e =>
      let ae := SoftDeletable.auditable e in
      match decode_key j_get_time "createdAt" m (Auditable.createdAt ae),
            decode_key get_time_ptr "deletedAt" m (SoftDeletable.deletedAt e),
            decode_key j_get_string "id" m (Entity.id (Auditable.entity ae)),
            decode_key j_get_time "updatedAt" m (Auditable.updatedAt ae) with
      | Ok c, Ok d, Ok i, Ok u => Ok (BSoft (SoftDeletable.mk (Auditable.mk (Entity.mk i) c u) d))
      | Err err, _, _, _ | _, Err err, _, _ | _, _, Err err, _ | _, _, _, Err err => Err err
      end
  end.

Definition UnmarshalEntity (data : J) (ent : T) : outcome (T * error) :=
  match j_entries data with
  | Err err => Done (ent, Some (EWrap "unmarshal entity: " err ""))
  | Ok raw =>
      base ← extractBase ent;
      mret (match base with
            | Err err => (ent, Some (EWrap "unmarshal entity base extract: " err ""))
            | Ok (baseVal, baseKeys) =>
                match j_entries (j_object (base_raw baseKeys raw)) with
                | Err err => (ent, Some (EWrap "unmarshal entity base: " err ""))
                | Ok m =>
                    match decode_base m baseVal with
                    | Err err => (ent, Some (EWrap "unmarshal entity base: " err ""))
                    | Ok b => decode_fields "entity" entity_bases fields raw (applyBaseFromJSON b ent)
                    end
                end
            end)
  end.
End Entities.

(** ** What a struct promises of its fields

    [same f x y]: the two structs have the same value in [f]. *)
Section FieldLaws.
Context {T J : Type} `{!Json J} `{HSS : !SortSlice, HSSL : !SortSliceLaws} (bases : list string) (fields : list (StructField T J)).
Context (same : StructField T J -> T -> T -> Prop).

Definition json_fields : list (StructField T J) := List.filter (fun f => negb (skipped bases f)) fields.

Record FieldLaws : Prop := {
  keys_distinct : NoDup (map json_key json_fields);
  same_equivalence : forall f, Equivalence (same f);
  decode_value : forall f a j v, f ∈ json_fields -> sf_value f a = Ok j ->
    exists v', sf_decode f j v = (v', None) /\ same f v' a;
  decode_frame : forall f g j v v', f ∈ json_fields -> g ∈ json_fields -> json_key f <> json_key g ->
    sf_decode f j v = (v', None) -> same g v' v }.

Context (HL : FieldLaws).

Lemma decode_fields_skip what (fs : list (StructField T J)) (raw : gmap string J) (v : T) :
  decode_fields what bases fs raw v = decode_fields what bases (List.filter (fun f => negb (skipped bases f)) fs) raw v.
Proof.
  revert v. induction fs as [|f fs IH]; intros v; cbn; [done|]. destruct (skipped bases f) eqn:Hs; cbn; [apply IH|].
  rewrite Hs. destruct (raw !! json_key f) as [msg|]; [|apply IH]. destruct (sf_decode f msg v) as [v' [err|]]; [done|]. apply IH.
Qed.

(** Decoding the encoded fields of [a] restores them, and keeps what every decoding keeps. *)
Lemma decode_restores what (R : T -> T -> Prop) `{!PreOrder R} (raw : gmap string J) a v :
  (forall f j v v', f ∈ json_fields -> sf_decode f j v = (v', None) -> R v v') ->
  (forall f, f ∈ json_fields -> exists j, raw !! json_key f = Some j /\ sf_value f a = Ok j) ->
  exists v', decode_fields what bases fields raw v = (v', None) /\ R v v' /\
    forall f, f ∈ json_fields -> same f v' a.
Proof.
  intros HR Hraw. rewrite decode_fields_skip. change (List.filter _ fields) with json_fields.
  assert (forall fs done, json_fields = done ++ fs -> (forall f, f ∈ done -> same f v a) ->
    exists v', decode_fields what bases fs raw v = (v', None) /\ R v v' /\ forall f, f ∈ json_fields -> same f v' a) as Hgen.
  2: { apply (Hgen json_fields []); [done|]. by intros f ?%elem_of_nil. }
  intros fs. revert v. induction fs as [|f fs IH]; intros v dn Hsplit Hdone.
  { exists v. rewrite app_nil_r in Hsplit. rewrite Hsplit. by split_and!. }
  assert (f ∈ json_fields) as Hf by (rewrite Hsplit; apply elem_of_app; right; by left).
  cbn. assert (skipped bases f = false) as ->.
  { unfold json_fields in Hf. apply list_elem_of_In, filter_In in Hf as [_ Hf]. by apply negb_true_iff. }
  destruct (Hraw f Hf) as (j & -> & Hv). destruct (decode_value HL f a j v Hf Hv) as (v1 & Hd & Hsame). rewrite Hd.
  destruct (IH v1 (dn ++ [f])) as (v' & Hrun & Hr & Hall).
  - by rewrite <- app_assoc.
  - intros g [Hg| ->%list_elem_of_singleton]%elem_of_app; [|done]. pose proof (same_equivalence HL g).
    transitivity v; [|by apply Hdone]. eapply (decode_frame HL f); [done| | |exact Hd].
    + rewrite Hsplit. apply elem_of_app. by left.
    + intros Heq. pose proof (keys_distinct HL) as Hnd. rewrite Hsplit, map_app in Hnd.
      apply NoDup_app in Hnd as (_ & Hno & _). apply (Hno (json_key g)); [by apply list_elem_of_fmap_2|].
      cbn. rewrite Heq. by left.
  - exists v'. split; [done|]. split; [|done]. transitivity v1; [by eapply HR|done].
Qed.

(** *** Encoding *)

Lemma extract_other (excl : list string) (fs : list (StructField T J)) v k (acc : gmap string (result J)) :
  k ∉ map json_key (List.filter (fun f => negb (skipped bases f)) fs) ->
  fold_left (fun acc f => if skipped bases f then acc else if bool_decide (json_key f ∈ excl) then acc
                          else <[json_key f := sf_value f v]> acc) fs acc !! k = acc !! k.
Proof.
  revert acc. induction fs as [|f fs IH]; intros acc; cbn; [done|]. destruct (skipped bases f); cbn; [apply IH|].
  intros [Hne Hk]%not_elem_of_cons. rewrite IH by done. case_bool_decide; [done|]. by rewrite lookup_insert_ne.
Qed.

Lemma extract_field (excl : list string) v f :
  f ∈ json_fields -> json_key f ∉ excl -> extractDomainFields bases excl fields v !! json_key f = Some (sf_value f v).
Proof.
  unfold extractDomainFields, json_fields. pose proof (keys_distinct HL) as Hnd. unfold json_fields in Hnd.
  generalize (∅ : gmap string (result J)). induction fields as [|g fs IH]; intros acc; cbn in *; [by intros ?%elem_of_nil|].
  destruct (skipped bases g) eqn:Hg; cbn in *; [by apply IH|]. apply NoDup_cons in Hnd as [Hn Hnd].
  intros [<-|Hf]%elem_of_cons Hex; [|by apply IH].
  rewrite extract_other by done. rewrite bool_decide_eq_false_2 by done. by rewrite lookup_insert_eq.
Qed.

Lemma extract_not_field (excl : list string) v k :
  k ∉ map json_key json_fields -> extractDomainFields bases excl fields v !! k = None.
Proof. intros Hk. unfold extractDomainFields. by rewrite extract_other. Qed.

Lemma marshal_map_ok (m : gmap string (result J)) d :
  marshal_map m = Ok d -> exists m', d = j_object m' /\
    (forall k r, m !! k = Some r -> exists j, r = Ok j /\ m' !! k = Some j) /\
    forall k, m !! k = None -> m' !! k = None.
Proof.
  unfold marshal_map. destruct (omap _ (sort_slice key_less (map_to_list m))) as [|e l] eqn:He; [|done].
  intros [= <-]. eexists. split; [done|]. split; [|by intros k Hk; rewrite lookup_omap, Hk].
  intros k r Hk. destruct r as [j|e].
  - exists j. split; [done|]. by rewrite lookup_omap, Hk.
  - exfalso. assert (e ∈ omap (fun x : string * result J => match x.2 with Err e => Some e | Ok _ => None end)
      (sort_slice key_less (map_to_list m))) as Hin.
    { apply list_elem_of_omap. exists (k, Err e). split; [|done]. rewrite sort_slice_perm. by apply elem_of_map_to_list. }
    rewrite He in Hin. by apply elem_of_nil in Hin.
Qed.
End FieldLaws.

(** ** Round trips *)

Section Merged.
Context {T J : Type} `{!Json J} (bases : list string) (fields : list (StructField T J)).

(** The keys of the base and of the fields do not meet: each keeps its own value in the merge. *)
Lemma merged_base (excl : list string) (v : T) (base : gmap string J) k :
  k ∉ map json_key (json_fields bases fields) ->
  (extractDomainFields bases excl fields v ∪ (Ok <$> base)) !! k = Ok <$> base !! k.
Proof. intros Hk. rewrite lookup_union, extract_not_field, lookup_fmap by done. by destruct (base !! k). Qed.

Lemma base_raw_lookup keys (raw : gmap string J) k : k ∈ keys -> base_raw keys raw !! k = raw !! k.
Proof.
  intros Hk. unfold base_raw. destruct (raw !! k) as [j|] eqn:Hj.
  - by apply map_lookup_filter_Some.
  - apply map_lookup_filter_None. by left.
Qed.

Lemma keys_of (m : gmap string J) k : is_Some (m !! k) -> k ∈ map fst (map_to_list m).
Proof. intros [j Hj]. apply list_elem_of_fmap. exists (k, j). split; [done|]. by apply elem_of_map_to_list. Qed.
End Merged.

Section AggregateRoundTrip.
Context {T E J : Type} `{!AggregateRef T E, HAL : !AggregateRefLaws T E} `{!Json J} (valid_text : string -> Prop).
Context `{HJL : !JsonLaws J valid_text} `{HSS : !SortSlice, HSSL : !SortSliceLaws}.
Context (fields : list (StructField T J)) (same : StructField T J -> T -> T -> Prop).
Abbreviation tagged := (json_fields aggregate_bases fields).

(** The tagged fields and the root are all there is of an aggregate, and they are apart. *)
Record AggregateFieldLaws : Prop := {
  agg_fields : FieldLaws aggregate_bases fields same;
  root_kept : forall f j v v', f ∈ tagged -> sf_decode f j v = (v', None) -> GetAggregateRoot v' = GetAggregateRoot v;
  put_kept : forall f r v, f ∈ tagged -> same f (put_root r v) v;
  all_fields : forall x y, GetAggregateRoot x = GetAggregateRoot y -> (forall f, f ∈ tagged -> same f x y) -> x = y;
  no_base_key : forall k, k ∈ ["id"; "version"; "snapshotVersion"] -> k ∉ map json_key tagged }.

Context (HL : AggregateFieldLaws).

Lemma decode_root_back (j : AggregateRootJSON) (m : gmap string J) :
  valid_text (Entity.json_id (json_base j)) -> (Z.abs (json_version j) <= 2 ^ 53)%Z ->
  (Z.abs (json_snapshotVersion j) <= 2 ^ 53)%Z ->
  (forall k, k ∈ ["id"; "version"; "snapshotVersion"] -> m !! k = root_map j !! k) -> decode_root m = Ok j.
Proof.
  intros Hid Hv Hs Hm. unfold decode_root, decode_key.
  rewrite !Hm by (rewrite !elem_of_cons; auto). unfold root_map. rewrite !lookup_fmap.
  cbn [list_to_map foldr]. cbn. rewrite lookup_insert_eq.
  rewrite (lookup_insert_ne _ "id" "snapshotVersion"), (lookup_insert_ne _ "id" "version") by done.
  rewrite (lookup_insert_ne _ "version" "snapshotVersion"), !lookup_insert_eq by done. cbn.
  rewrite (j_string_any _ Hid), (j_string_back _ _ Hid), !j_int_any by done.
  rewrite !j_int_back by (unfold in_int64, two63 in *; lia). by destruct j as [[] ? ?].
Qed.

Lemma root_map_keys (j : AggregateRootJSON) k :
  is_Some ((root_map j : gmap string J) !! k) <-> k ∈ ["id"; "version"; "snapshotVersion"].
Proof.
  unfold root_map. rewrite lookup_fmap, fmap_is_Some. cbn.
  rewrite !lookup_insert_is_Some', lookup_empty, !elem_of_cons. split.
  - intros [?|[?|[?|[? ?]]]]; auto; done.
  - intros [?|[?|[?|?%elem_of_nil]]]; auto; done.
Qed.

Lemma base_entries (zero : T) (m' : gmap string J) k :
  k ∈ ["id"; "version"; "snapshotVersion"] ->
  base_raw (baseJSONKeys (J := J) (ToJSON (GetAggregateRoot zero))) m' !! k = m' !! k.
Proof.
  intros Hk. rewrite base_raw_lookup; [done|]. unfold baseJSONKeys. apply keys_of. by rewrite root_map_keys.
Qed.

(** What [MarshalAggregate] wrote is read back into any aggregate. *)
Lemma unmarshal_marshal a receiver d :
  valid_text (ID (GetAggregateRoot a)) -> (Z.abs (Version (GetAggregateRoot a)) <= 2 ^ 53)%Z ->
  (Z.abs (SnapshotVersion (GetAggregateRoot a)) <= 2 ^ 53)%Z ->
  MarshalAggregate fields a = Ok d ->
  exists a', UnmarshalAggregate fields d receiver = (a', None) /\
    GetAggregateRoot a' = FromJSON (GetAggregateRoot receiver) (ToJSON (GetAggregateRoot a)) /\
    forall f, f ∈ tagged -> same f a' a.
Proof.
  intros Hid Hv Hs Hm. unfold MarshalAggregate in Hm. apply marshal_map_ok in Hm as (m' & -> & Hm' & _).
  unfold UnmarshalAggregate. rewrite !j_entries_object.
  assert (forall k, k ∈ ["id"; "version"; "snapshotVersion"] ->
    m' !! k = root_map (ToJSON (GetAggregateRoot a)) !! k) as Hbase.
  { intros k Hk. destruct (proj2 (root_map_keys (ToJSON (GetAggregateRoot a)) k) Hk) as [j Hj].
    destruct (Hm' k (Ok j)) as (j' & [= <-] & Hj').
    - rewrite merged_base by (by apply (no_base_key HL)). by rewrite Hj.
    - by rewrite Hj', Hj. }
  rewrite (decode_root_back (ToJSON (GetAggregateRoot a))); [|done..|].
  2: { intros k Hk. rewrite base_entries by done. by apply Hbase. }
  assert (PreOrder (fun v v' : T => GetAggregateRoot v' = GetAggregateRoot v)) as Hpre.
  { split; [by intros ?|]. intros x y z H1 H2. congruence. }
  destruct (decode_restores aggregate_bases fields same (agg_fields HL) "aggregate"
    (fun v v' => GetAggregateRoot v' = GetAggregateRoot v) m' a
    (put_root (FromJSON (GetAggregateRoot receiver) (ToJSON (GetAggregateRoot a))) receiver)) as (a' & Hd & Hr & Hsame).
  - intros f j v v' Hf. by apply (root_kept HL).
  - intros f Hf. destruct (Hm' (json_key f) (sf_value f a)) as (j & Hj & Hk); [|by exists j].
    rewrite lookup_union, (extract_field _ _ _ (agg_fields HL)); [|done|by apply not_elem_of_nil].
    by destruct ((Ok <$> root_map (ToJSON (GetAggregateRoot a))) !! json_key f).
  - exists a'. split; [exact Hd|]. split; [|done]. by rewrite Hr, root_put.
Qed.

Lemma root_json_back (r r0 : AggregateRoot E) :
  UncommittedEvents r0 = [] -> FromJSON r0 (ToJSON r) = MarkEventsAsCommitted r.
Proof.
  destruct r as [[] ? ? ?], r0. cbn. unfold FromJSON, ToJSON, MarkEventsAsCommitted. cbn. by intros ->.
Qed.
End AggregateRoundTrip.

(** *** Entities *)

Definition base_keys : list string := ["id"; "createdAt"; "updatedAt"; "deletedAt"].

(** What reading the JSON of [x] makes of a base [r]: everything of [x], except that the deletion
    mark is only touched if [r] has one, and then only set, never cleared. *)
Definition restored (x r : base_value) : option base_value :=
  match x, r with
  | BEntity x, BEntity _ => Some (BEntity x)
  | BAudit x, BAudit _ => Some (BAudit x)
  | BSoft x, BSoft r =>
      Some (BSoft (SoftDeletable.mk (SoftDeletable.auditable x)
        (match SoftDeletable.deletedAt r with
         | None => None
         | Some tr => Some (default tr (SoftDeletable.deletedAt x))
         end)))
  | _, _ => None
  end.

Definition base_text (b : base_value) : string :=
  match b with
  | BEntity e => Entity.id e
  | BAudit e => Entity.id (Auditable.entity e)
  | BSoft e => Entity.id (Auditable.entity (SoftDeletable.auditable e))
  end.

Section EntityRoundTrip.
Context {T J : Type} `{!Json J} (valid_text : string -> Prop) `{HJL : !JsonLaws J valid_text} `{HSS : !SortSlice, HSSL : !SortSliceLaws}.
Context (fields : list (StructField T J)) (same : StructField T J -> T -> T -> Prop).
Context (embedded : StructField T J -> option ((T -> base_value) * (base_value -> T -> T))).
Abbreviation tagged := (json_fields entity_bases fields).

Lemma times_map_ok (e : Auditable.t) (m : gmap string J) :
  times_map e = Ok m -> exists c u, j_time (Auditable.createdAt e) = Ok c /\ j_time (Auditable.updatedAt e) = Ok u /\
    m !! "id" = Some (j_string (Entity.id (Auditable.entity e))) /\ m !! "createdAt" = Some c /\ m !! "updatedAt" = Some u /\
    (forall k, k ∉ ["id"; "createdAt"; "updatedAt"] -> m !! k = None).
Proof.
  unfold times_map. destruct (j_time (Auditable.createdAt e)) as [c|]; [|done].
  destruct (j_time (Auditable.updatedAt e)) as [u|]; [|done]. intros [= <-]. exists c, u. cbn.
  split_and!; try done. intros k Hk.
  rewrite !not_elem_of_cons in Hk. destruct Hk as (H1 & H2 & H3 & _). by rewrite !lookup_insert_ne by congruence.
Qed.

Lemma decode_string_back (m : gmap string J) s old :
  valid_text s -> m !! "id" = Some (j_any (j_string s)) -> decode_key j_get_string "id" m old = Ok s.
Proof. intros Hs Hm. unfold decode_key. by rewrite Hm, (j_string_any _ Hs), (j_string_back _ _ Hs). Qed.

Lemma decode_time_back (m : gmap string J) k t j old :
  j_time t = Ok j -> m !! k = Some (j_any j) -> decode_key j_get_time k m old = Ok t.
Proof.
  intros Ht Hm. unfold decode_key. destruct (j_time_back t j old Ht) as (_ & Hany & Hget). by rewrite Hm, Hany.
Qed.

Lemma decode_ptr_back (m : gmap string J) k t j old :
  j_time t = Ok j -> m !! k = Some (j_any j) -> decode_key get_time_ptr k m old = Ok (Some t).
Proof.
  intros Ht Hm. unfold decode_key, get_time_ptr.
  destruct (j_time_back t j (default time_zero old) Ht) as (Hn & Hany & Hget). by rewrite Hm, Hany, Hn, Hget.
Qed.

Lemma base_map_soft (e : SoftDeletable.t) (m : gmap string J) :
  base_map (BSoft e) = Ok m ->
  exists m0, times_map (SoftDeletable.auditable e) = Ok m0 /\
    match SoftDeletable.deletedAt e with
    | None => m = m0
    | Some t => exists d, j_time t = Ok d /\ m = <["deletedAt" := d]> m0
    end.
Proof.
  cbn. destruct (times_map _) as [m0|]; [|done]. destruct (SoftDeletable.deletedAt e) as [t|].
  - destruct (j_time t) as [d|] eqn:Hd; [|done]. intros [= <-]. eauto 10.
  - intros [= <-]. eauto.
Qed.

(** What a receiver with the entries [mr] reads of the entries [mx]. *)
Definition read_through (mx mr m : gmap string J) : Prop :=
  forall k, k ∈ base_keys -> m !! k = match mr !! k with Some _ => j_any <$> mx !! k | None => None end.

(** Decides whether a key is among given ones. *)
Ltac key := apply (bool_decide_unpack _); by vm_compute.

Lemma decode_soft_back (x r : SoftDeletable.t) mx mr m :
  base_map (BSoft x) = Ok mx -> base_map (BSoft r) = Ok mr -> valid_text (base_text (BSoft x)) -> read_through mx mr m ->
  decode_base m (BSoft r) = Ok (BSoft (SoftDeletable.mk (SoftDeletable.auditable x)
    (match SoftDeletable.deletedAt r with None => None | Some tr => Some (default tr (SoftDeletable.deletedAt x)) end))).
Proof.
  intros Hx Hr Hid Hm.
  apply base_map_soft in Hx as (mx0 & Hx0 & Hxd). apply base_map_soft in Hr as (mr0 & Hr0 & Hrd).
  apply times_map_ok in Hx0 as (c & u & Hc & Hu & Hxi & Hxc & Hxu & Hxn).
  apply times_map_ok in Hr0 as (c' & u' & _ & _ & Hri & Hrc & Hru & Hrn).
  assert (forall k v, k ∈ ["id"; "createdAt"; "updatedAt"] -> mx0 !! k = Some v -> is_Some (mr0 !! k) ->
    m !! k = Some (j_any v)) as Hbase.
  { intros k v Hk Hv [v' Hv']. assert (k <> "deletedAt") as Hne by (intros ->; by apply list_elem_of_In in Hk as [|[|[|]]]).
    rewrite Hm. 2: { unfold base_keys. rewrite !elem_of_cons in *. tauto. }
    assert (mx !! k = Some v) as ->.
    { destruct (SoftDeletable.deletedAt x); [destruct Hxd as (d & _ & ->); by rewrite lookup_insert_ne|by subst]. }
    assert (is_Some (mr !! k)) as [? ->]; [|done].
    destruct (SoftDeletable.deletedAt r); [destruct Hrd as (d & _ & ->); by rewrite lookup_insert_ne|by subst]. }
  cbn [decode_base].
  rewrite (decode_time_back m "createdAt" _ _ _ Hc) by (apply Hbase; [key|done|by eexists]).
  rewrite (decode_time_back m "updatedAt" _ _ _ Hu) by (apply Hbase; [key|done|by eexists]).
  rewrite (decode_string_back m (base_text (BSoft x))) by (first [done | apply Hbase; [key|done|by eexists]]).
  assert (m !! "deletedAt" = match mr !! "deletedAt" with Some _ => j_any <$> mx !! "deletedAt" | None => None end) as Hmd
    by (apply Hm; key).
  destruct (SoftDeletable.deletedAt r) as [tr|].
  + destruct Hrd as (d & _ & ->). rewrite lookup_insert_eq in Hmd. destruct (SoftDeletable.deletedAt x) as [tx|] eqn:Hdx.
    * destruct Hxd as (dx & Hdx' & ->). rewrite lookup_insert_eq in Hmd.
      rewrite (decode_ptr_back m "deletedAt" tx dx _ Hdx' Hmd). by destruct x as [[[]]].
    * subst mx. rewrite Hxn in Hmd by key. unfold decode_key at 1. rewrite Hmd. cbn. by destruct x as [[[]]].
  + subst mr. rewrite Hrn in Hmd by key. unfold decode_key at 1. rewrite Hmd. by destruct x as [[[]]].
Qed.

Lemma decode_base_back x r mx mr m b :
  base_map x = Ok mx -> base_map r = Ok mr -> valid_text (base_text x) -> read_through mx mr m ->
  restored x r = Some b -> decode_base m r = Ok b.
Proof.
  intros Hx Hr Hid Hm. destruct x as [x|x|x], r as [r|r|r]; cbn [restored]; try done; intros [= <-].
  - by apply (decode_soft_back x r mx mr m).
  - cbn [base_map] in Hx, Hr.
    apply times_map_ok in Hx as (c & u & Hc & Hu & Hxi & Hxc & Hxu & _).
    apply times_map_ok in Hr as (c' & u' & _ & _ & Hri & Hrc & Hru & _).
    cbn [decode_base]. unfold decode_audit.
    rewrite (decode_time_back m "createdAt" _ _ _ Hc) by (rewrite Hm by key; by rewrite Hrc, Hxc).
    rewrite (decode_time_back m "updatedAt" _ _ _ Hu) by (rewrite Hm by key; by rewrite Hru, Hxu).
    rewrite (decode_string_back m (base_text (BAudit x))) by (first [done | rewrite Hm by key; by rewrite Hri, Hxi]).
    by destruct x as [[]].
  - cbn in Hx, Hr. injection Hx as <-. injection Hr as <-. cbn [decode_base].
    rewrite (decode_string_back m (base_text (BEntity x))) by (first [done | rewrite Hm by key; by rewrite !lookup_insert_eq]).
    by destruct x.
Qed.

Lemma base_map_keys (b : base_value) (m : gmap string J) k : base_map b = Ok m -> is_Some (m !! k) -> k ∈ base_keys.
Proof.
  intros Hb [v Hk]. destruct (decide (k ∈ base_keys)) as [|Hn]; [done|]. exfalso. unfold base_keys in Hn.
  rewrite !not_elem_of_cons in Hn. destruct Hn as (Hi & Hc & Hu & Hd & _).
  assert (k ∉ ["id"; "createdAt"; "updatedAt"]) as Hn3.
  { rewrite !not_elem_of_cons. split_and!; try done. apply not_elem_of_nil. }
  destruct b as [e|e|e].
  - apply base_map_soft in Hb as (m0 & Hm0 & Hdel). apply times_map_ok in Hm0 as (c & u & _ & _ & _ & _ & _ & Hno).
    destruct (SoftDeletable.deletedAt e).
    + destruct Hdel as (d & _ & ->). rewrite lookup_insert_ne, Hno in Hk by congruence. done.
    + subst. rewrite Hno in Hk by done. done.
  - apply times_map_ok in Hb as (c & u & _ & _ & _ & _ & _ & Hno). rewrite Hno in Hk by done. done.
  - injection Hb as <-. cbn in Hk. rewrite lookup_insert_ne, lookup_empty in Hk by congruence. done.
Qed.

(** The tagged fields and the embedded base are all there is of an entity, and they are apart. *)
Record EntityFieldLaws (get : T -> base_value) (set : base_value -> T -> T) : Prop := {
  ent_fields : FieldLaws entity_bases fields same;
  ent_base : exists f, find_base fields = Some f /\ embedded f = Some (get, set);
  get_set : forall b v, is_Some (restored b (get v)) -> get (set b v) = b;
  base_kept : forall f j v v', f ∈ tagged -> sf_decode f j v = (v', None) -> get v' = get v;
  no_entity_key : forall k, k ∈ base_keys -> k ∉ map json_key tagged }.

Lemma tagged_key get set f : EntityFieldLaws get set -> f ∈ tagged -> json_key f ∉ base_keys.
Proof. intros HL Hf Hk. apply (no_entity_key _ _ HL _ Hk). by apply list_elem_of_fmap_2. Qed.
End EntityRoundTrip.

(** ** Properties *)


(** The JSON of an entity restores its tagged fields and its embedded base into any receiver of
    the same kind, except for the deletion mark of a soft-deletable entity: the helper only reads the
    keys that the JSON of the receiver itself has, so a deleted entity that is read into a fresh one is no
    longer deleted, and an entity that is not deleted stays deleted in a deleted receiver. *)
Theorem entity_json_restores {T J} `{!Json J} valid_text `{HJL : !JsonLaws J valid_text} `{HSS : !SortSlice, HSSL : !SortSliceLaws}
    (fields : list (StructField T J)) same embedded get set (x receiver : T) d b mr :
  EntityFieldLaws fields same embedded get set -> valid_text (base_text (get x)) ->
  base_map (J := J) (get receiver) = Ok mr -> restored (get x) (get receiver) = Some b ->
  MarshalEntity fields embedded x = Done (Ok d) ->
  exists x', UnmarshalEntity fields embedded d receiver = Done (x', None) /\ get x' = b /\
    forall f, f ∈ json_fields entity_bases fields -> same f x' x.
Proof.
  intros HL Hid Hr Hb Hm. destruct (ent_base _ _ _ _ _ HL) as (bf & Hbf & Hemb).
  unfold MarshalEntity, extractBase in Hm. rewrite Hbf, Hemb in Hm. cbn in Hm. unfold structToMap in Hm at 1.
  destruct (base_map (get x)) as [mx|] eqn:Hx; [|done]. injection Hm as Hm. apply marshal_map_ok in Hm as (m' & -> & Hm' & Hno).
  assert (forall k, k ∈ base_keys -> m' !! k = j_any <$> mx !! k) as Hbase.
  { intros k Hk. pose proof (merged_base entity_bases fields (jsonKeysFromMap (J := J) (get x)) x (j_any <$> mx) k
      (no_entity_key _ _ _ _ _ HL k Hk)) as Hmk. rewrite lookup_fmap in Hmk. destruct (mx !! k) as [j|]; [|by apply Hno].
    by destruct (Hm' k _ Hmk) as (j' & [= <-] & ->). }
  assert (read_through mx mr (base_raw (jsonKeysFromMap (J := J) (get receiver)) m')) as Hread.
  { intros k Hk. unfold jsonKeysFromMap, structToMap. rewrite Hr. destruct (mr !! k) as [v|] eqn:Hv.
    - rewrite base_raw_lookup, Hbase; [done|done|]. apply keys_of. rewrite lookup_fmap, Hv. by eexists.
    - apply map_lookup_filter_None. right. intros j _. cbn. intros (e & -> & He)%list_elem_of_fmap. destruct e as [k v].
      apply elem_of_map_to_list in He. cbn in Hv. by rewrite lookup_fmap, Hv in He. }
  unfold UnmarshalEntity, extractBase. rewrite !j_entries_object, Hbf, Hemb. cbn. rewrite j_entries_object.
  rewrite (decode_base_back valid_text _ _ _ _ _ _ Hx Hr Hid Hread Hb). unfold applyBaseFromJSON. rewrite Hbf, Hemb.
  assert (PreOrder (fun v v' => get v' = get v)) as Hpre by (split; [by intros ?|]; intros u v w H1 H2; congruence).
  destruct (decode_restores entity_bases fields same (ent_fields _ _ _ _ _ HL) "entity" (fun v v' => get v' = get v) m' x (set b receiver))
    as (x' & Hd & Hg & Hsame).
  - intros f j v v' Hf. by apply (base_kept _ _ _ _ _ HL).
  - intros f Hf. destruct (Hm' (json_key f) (sf_value f x)) as (j & Hj & Hk); [|by exists j].
    rewrite lookup_union, (extract_field _ _ _ (ent_fields _ _ _ _ _ HL)); [|done|].
    + by destruct ((Ok <$> (j_any <$> mx)) !! json_key f).
    + intros Hin. apply (tagged_key _ _ _ _ _ _ HL Hf). unfold jsonKeysFromMap, structToMap in Hin. rewrite Hx in Hin.
      apply list_elem_of_fmap in Hin as ([k v] & Hkey & Hkv). rewrite Hkey. apply elem_of_map_to_list in Hkv.
      rewrite lookup_fmap in Hkv. apply (base_map_keys (get x) mx); [done|]. cbn. by destruct (mx !! k).
  - exists x'. split; [by rewrite Hd|]. split; [|done]. rewrite Hg. apply (get_set _ _ _ _ _ HL).
    destruct (get x), (get receiver); try done; injection Hb as <-; by eexists.
Qed.

(** ** A concrete JSON, an aggregate and an entity *)
Module DemoJson.
Import Aggregate.Demo.

Inductive jv := JStr (s : string) | JNum (z : Z) | JTime (t : Z) | JNull | JObj (entries : list (string * jv)).
Definition no_type : goerr := ENew "json: cannot unmarshal".

#[export] Instance demo_json : Json jv := {
  j_object m := JObj (map_to_list m);
  j_entries j := match j with JObj l => Ok (list_to_map l) | _ => Err no_type end;
  j_string := JStr; j_int := JNum; j_time t := Ok (JTime t);
  j_get_string j s := match j with JStr s => Ok s | JNull => Ok s | _ => Err no_type end;
  j_get_int j z := match j with JNum z => Ok z | JNull => Ok z | _ => Err no_type end;
  j_get_time j t := match j with JTime t => Ok t | JNull => Ok t | _ => Err no_type end;
  j_is_null j := match j with JNull => true | _ => false end;
  j_any j := j }.
Definition any_text (_ : string) : Prop := True.
#[export] Instance demo_json_laws : JsonLaws jv any_text.
Proof.
  split; cbn; try done.
  - intros m. f_equal. apply list_to_map_to_list.
  - by intros t j t0 [= <-].
Qed.

(** The counter, with its root embedded and its total tagged. *)
Definition total_field : StructField counter jv :=
  mkStructField "Total" true false None "total,omitempty" (fun c => Ok (JNum (total c)))
    (fun j c => match j with JNum z => (mkCounter (croot c) z, None) | _ => (c, Some no_type) end).
Definition root_field : StructField counter jv :=
  mkStructField "AggregateRoot" true true (Some "AggregateRoot") "" (fun _ => Err no_type) (fun _ c => (c, Some no_type)).
Definition counter_fields : list (StructField counter jv) := [root_field; total_field].
Definition same_total (_ : StructField counter jv) (x y : counter) : Prop := total x = total y.

Lemma counter_tagged : json_fields aggregate_bases counter_fields = [total_field].
Proof. reflexivity. Qed.

Lemma counter_field_laws : AggregateFieldLaws counter_fields same_total.
Proof.
  split; rewrite ?counter_tagged.
  - split; rewrite ?counter_tagged.
    + apply NoDup_singleton.
    + intros f. unfold same_total. split; [by intros ?|by intros ?|intros ? ? ?; apply eq_trans].
    + intros f a j v ->%list_elem_of_singleton [= <-]. by eexists.
    + by intros f g j v v' ->%list_elem_of_singleton ->%list_elem_of_singleton ?.
  - intros f j v v' ->%list_elem_of_singleton. cbn. destruct j; try done. by intros [= <-].
  - by intros f r v _.
  - intros [] [] Hr Hs. cbn in *. subst. f_equal. apply (Hs total_field). by left.
  - intros k Hk [= ->]%list_elem_of_singleton. by apply list_elem_of_In in Hk as [|[|[|]]].
Qed.

(** A customer is a soft-deletable entity with a name. *)
Record customer := mkCustomer { c_base : SoftDeletable.t; c_name : string }.
Definition name_field : StructField customer jv :=
  mkStructField "Name" true false None "name" (fun c => Ok (JStr (c_name c)))
    (fun j c => match j with JStr s => (mkCustomer (c_base c) s, None) | _ => (c, Some no_type) end).
Definition base_field : StructField customer jv :=
  mkStructField "SoftDeletableEntity" true true (Some "SoftDeletableEntity") "" (fun _ => Err no_type) (fun _ c => (c, Some no_type)).
Definition customer_fields : list (StructField customer jv) := [base_field; name_field].
Definition get_base (c : customer) : base_value := BSoft (c_base c).
Definition set_base (b : base_value) (c : customer) : customer :=
  match b with BSoft e => mkCustomer e (c_name c) | _ => c end.
Definition customer_embedded (f : StructField customer jv) : option ((customer -> base_value) * (base_value -> customer -> customer)) :=
  if sf_Anonymous f then Some (get_base, set_base) else None.
Definition same_name (_ : StructField customer jv) (x y : customer) : Prop := c_name x = c_name y.

Definition deleted : customer := mkCustomer (SoftDeletable.mk (Auditable.mk (Entity.mk "k1") 10 20) (Some 30%Z)) "Ann".
Definition fresh : customer := mkCustomer (SoftDeletable.mk (Auditable.mk (Entity.mk "") time_zero time_zero) None) "".
End DemoJson.
Import Aggregate.Demo DemoJson.

Lemma customer_tagged : json_fields entity_bases customer_fields = [name_field].
Proof. reflexivity. Qed.

Lemma customer_field_laws : EntityFieldLaws customer_fields same_name customer_embedded get_base set_base.
Proof.
  split; rewrite ?customer_tagged.
  - split; rewrite ?customer_tagged.
    + apply NoDup_singleton.
    + intros f. unfold same_name. split; [by intros ?|by intros ?|intros ? ? ?; apply eq_trans].
    + intros f a j v ->%list_elem_of_singleton [= <-]. by eexists.
    + by intros f g j v v' ->%list_elem_of_singleton ->%list_elem_of_singleton ?.
  - by exists base_field.
  - intros [] v [? ?]; by cbn.
  - intros f j v v' ->%list_elem_of_singleton. cbn. destruct j; try done. by intros [= <-].
  - intros k Hk [= ->]%list_elem_of_singleton. by apply list_elem_of_In in Hk as [|[|[|[|]]]].
Qed.


(** The deleted customer comes back with its name, but no longer deleted. *)
Lemma entity_json_restores_witness :
  exists d x', MarshalEntity customer_fields customer_embedded deleted = Done (Ok d) /\
    UnmarshalEntity customer_fields customer_embedded d fresh = Done (x', None) /\
    c_name x' = "Ann" /\ SoftDeletable.IsDeleted (c_base x') = false.
Proof.
  destruct (MarshalEntity customer_fields customer_embedded deleted) as [[d|?]|?] eqn:Hm;
    [|vm_compute in Hm; discriminate..].
  destruct (base_map (J := jv) (get_base fresh)) as [mr|] eqn:Hr; [|vm_compute in Hr; discriminate].
  destruct (entity_json_restores any_text customer_fields same_name customer_embedded get_base set_base deleted fresh d
    (BSoft (SoftDeletable.mk (SoftDeletable.auditable (c_base deleted)) None)) mr customer_field_laws I Hr eq_refl Hm)
    as (x' & H1 & H2 & H3).
  exists d, x'. split; [reflexivity|]. split; [exact H1|]. split.
  - apply (H3 name_field). rewrite customer_tagged. by left.
  - by injection H2 as ->.
Defined.
