(* ===== verification/EntityJson.v ===== *)
(** * The JSON methods of entities and value objects: [src/domain/entity], [src/domain/valueobject]

    [MarshalJSON] and [UnmarshalJSON] of [Entity], [AuditableEntity],
    [SoftDeletableEntity] and [ValueObject], over JSON values; [String] and
    [DeepEquals] of value objects, over what [fmt] and [reflect] make of a value. *)

From S2P Require Import Prelude Errors Aggregate Repository Entity JsonHelpers.

(** [json.Unmarshal] into a struct: the member that each of its keys takes. A member of a key in another case is
    taken too, which only the decoder decides; text that is no object gives an error, [null] no member. *)
Class JsonStruct (J : Type) := j_members : list string -> J -> result (gmap string J).

(** An object whose members are all named as the struct's keys is read member by member. *)
Class JsonStructLaws (J : Type) `{!Json J, !JsonStruct J} : Prop := {
  j_members_object : forall keys m, (forall k, is_Some (m !! k) -> k ∈ keys) -> j_members keys (j_object m) = Ok m }.

(** ** Entities

    A method on a pointer gives the new value of its receiver beside the error. *)
Section Entities.
Context {J : Type} `{!Json J, !JsonStruct J}.

Definition entity_keys : list string := ["id"].
Definition audit_keys : list string := ["id"; "createdAt"; "updatedAt"].
Definition soft_keys : list string := ["id"; "createdAt"; "updatedAt"; "deletedAt"].

Definition Entity_MarshalJSON (e : Entity.t) : result J :=
  Ok (j_object (list_to_map [("id", j_string (Entity.id e))])).

(** What the anonymous struct of [UnmarshalJSON] is decoded to: an identity, if it is not empty. *)
Definition decode_id (m : gmap string J) : result string :=
  match decode_key j_get_string "id" m "" with
  | Err err => Err err
  | Ok i => if bool_decide (i = "") then Err Entity.id_required else Ok i
  end.

Definition Entity_UnmarshalJSON (data : J) (e : Entity.t) : Entity.t * error :=
  match j_members entity_keys data with
  | Err err => (e, Some err)
  | Ok m => match decode_id m with Err err => (e, Some err) | Ok i => (Entity.mk i, None) end
  end.

Definition Auditable_MarshalJSON (e : Auditable.t) : result J :=
  match times_map e with Ok m => Ok (j_object m) | Err err => Err err end.

(** The two times into zero times, then the identity: an error of any is the error of the decoding. *)
Definition decode_times (m : gmap string J) : result Auditable.t :=
  match decode_key j_get_time "createdAt" m time_zero, decode_key j_get_time "updatedAt" m time_zero, decode_id m with
  | Ok c, Ok u, Ok i => Ok (Auditable.mk (Entity.mk i) c u)
  | Err err, _, _ | _, Err err, _ | _, _, Err err => Err err
  end.

Definition Auditable_UnmarshalJSON (data : J) (e : Auditable.t) : Auditable.t * error :=
  match j_members audit_keys data with
  | Err err => (e, Some err)
  | Ok m => match decode_times m with Err err => (e, Some err) | Ok e' => (e', None) end
  end.

Definition SoftDeletable_MarshalJSON (e : SoftDeletable.t) : result J :=
  match base_map (BSoft e) with Ok m => Ok (j_object m) | Err err => Err err end.

Definition SoftDeletable_UnmarshalJSON (data : J) (e : SoftDeletable.t) : SoftDeletable.t * error :=
  match j_members soft_keys data with
  | Err err => (e, Some err)
  | Ok m =>
      match decode_key get_time_ptr "deletedAt" m None, decode_times m with
      | Ok d, Ok ae => (SoftDeletable.mk ae d, None)
      | Err err, _ | _, Err err => (e, Some err)
      end
  end.

(** The root of an aggregate, over [ToJSON] and [FromJSON]. *)
Definition root_keys : list string := ["id"; "version"; "snapshotVersion"].
Definition root_members (j : AggregateRootJSON) : gmap string J :=
  list_to_map [("id", j_string (Entity.json_id (json_base j))); ("version", j_int (json_version j));
               ("snapshotVersion", j_int (json_snapshotVersion j))].
Definition Root_MarshalJSON {E} (a : AggregateRoot E) : result J := Ok (j_object (root_members (ToJSON a))).
Definition Root_UnmarshalJSON {E} (data : J) (a : AggregateRoot E) : AggregateRoot E * error :=
  match j_members root_keys data with
  | Err err => (a, Some err)
  | Ok m => match decode_root m with Err err => (a, Some err) | Ok aux => (FromJSON a aux, None) end
  end.
End Entities.

(** ** Value objects

    The wrapped type's own JSON, its text under [%v] and [reflect.DeepEqual] are parameters. *)
Section ValueObjects.
Context {T J : Type} `{EqDecision T} (zero : T) `{!Json J, !JsonStruct J}.
Context (encode : T -> result J) (decode : J -> T -> result T).
Context (format_v : T -> string) (reflect_DeepEqual : T -> T -> bool).

Definition ValueObject_String (v : ValueObject.t T) : string := format_v (ValueObject.value v).

Definition ValueObject_MarshalJSON (v : ValueObject.t T) : result J :=
  match encode (ValueObject.value v) with
  | Ok j => Ok (j_object (list_to_map [("value", j)]))
  | Err err => Err err
  end.

Definition ValueObject_UnmarshalJSON (data : J) (v : ValueObject.t T) : ValueObject.t T * error :=
  match j_members ["value"] data with
  | Err err => (v, Some err)
  | Ok m =>
      match decode_key decode "value" m zero with
      | Err err => (v, Some err)
      | Ok x => let v' := ValueObject.mk x (ValueObject.validate v) in (v', ValueObject.Validate zero v')
      end
  end.

Definition DeepEquals (a b : T) : bool := reflect_DeepEqual a b.
End ValueObjects.

(** ** Lemmas *)

Section Lemmas.
Context {J : Type} `{!Json J, !JsonStruct J} (valid_text : string -> Prop).
Context `{HJL : !JsonLaws J valid_text, HJS : !JsonStructLaws J}.

Lemma decode_id_back (m : gmap string J) i :
  valid_text i -> i <> "" -> m !! "id" = Some (j_string i) -> decode_id m = Ok i.
Proof.
  intros Hv Hne Hm. unfold decode_id, decode_key. rewrite Hm, (j_string_back _ _ Hv). by rewrite bool_decide_eq_false_2.
Qed.

Lemma decode_id_nonempty (m : gmap string J) i : decode_id m = Ok i -> i <> "".
Proof.
  unfold decode_id. destruct (decode_key _ _ _ _) as [x|]; [|done]. case_bool_decide; [done|]. by intros [= <-].
Qed.

Lemma decode_time_member (m : gmap string J) k t j :
  j_time t = Ok j -> m !! k = Some j -> decode_key j_get_time k m time_zero = Ok t.
Proof. intros Ht Hm. unfold decode_key. rewrite Hm. by destruct (j_time_back t j time_zero Ht) as (_ & _ & ->). Qed.

Lemma decode_times_back (e : Auditable.t) (m m' : gmap string J) :
  times_map e = Ok m -> (forall k, k ∈ audit_keys -> m' !! k = m !! k) ->
  valid_text (Entity.id (Auditable.entity e)) -> Entity.id (Auditable.entity e) <> "" -> decode_times m' = Ok e.
Proof.
  intros Hm Hsame Hv Hne. apply times_map_ok in Hm as (c & u & Hc & Hu & Hi & Hmc & Hmu & _).
  unfold decode_times. rewrite (decode_id_back _ (Entity.id (Auditable.entity e))); [|done..|].
  2: { rewrite Hsame; [done|]. apply (bool_decide_unpack _); by vm_compute. }
  rewrite (decode_time_member _ _ _ _ Hc), (decode_time_member _ _ _ _ Hu).
  - by destruct e as [[]].
  - rewrite Hsame; [done|]. apply (bool_decide_unpack _); by vm_compute.
  - rewrite Hsame; [done|]. apply (bool_decide_unpack _); by vm_compute.
Qed.

Lemma times_map_keys (e : Auditable.t) (m : gmap string J) k : times_map e = Ok m -> is_Some (m !! k) -> k ∈ audit_keys.
Proof.
  intros (c & u & _ & _ & _ & _ & _ & Hno)%times_map_ok [j Hk].
  destruct (decide (k ∈ audit_keys)) as [|Hn]; [done|]. by rewrite Hno in Hk.
Qed.

Lemma soft_map_keys (e : SoftDeletable.t) (m : gmap string J) k : base_map (BSoft e) = Ok m -> is_Some (m !! k) -> k ∈ soft_keys.
Proof.
  intros (m0 & Hm0 & Hd)%base_map_soft Hk. destruct (decide (k = "deletedAt")) as [->|Hne].
  { apply (bool_decide_unpack _); by vm_compute. }
  assert (k ∈ audit_keys) as Ha.
  { apply (times_map_keys _ _ _ Hm0). destruct (SoftDeletable.deletedAt e); [|by subst].
    destruct Hd as (d & _ & ->). by rewrite lookup_insert_ne in Hk. }
  unfold audit_keys, soft_keys in *. rewrite !elem_of_cons in *. tauto.
Qed.
End Lemmas.

(** ** Properties *)


(** The JSON of an aggregate's root restores its identity and versions exactly, for every version that an [int]
    holds, and leaves the receiver's uncommitted events; unlike an entity, a root takes data without an identity. *)
Theorem root_json_restores {J E} `{!Json J, !JsonStruct J} valid_text `{HJL : !JsonLaws J valid_text, HJS : !JsonStructLaws J}
    (a r : AggregateRoot E) :
  (forall d : J, valid_text (ID a) -> in_int64 (version a) -> in_int64 (snapshotVersion a) ->
     Root_MarshalJSON a = Ok d -> Root_UnmarshalJSON d r = (FromJSON r (ToJSON a), None)) /\
  Root_UnmarshalJSON (j_object (∅ : gmap string J)) r = (mkRoot (Entity.mk "") 0 0 (uncommittedEvents r), None).
Proof.
  split.
  - intros d Hv H1 H2 [= <-]. unfold Root_UnmarshalJSON. rewrite j_members_object.
    + unfold decode_root, decode_key, root_members. cbn.
      rewrite lookup_insert_eq, (lookup_insert_ne _ "id" "snapshotVersion"), (lookup_insert_ne _ "id" "version") by done.
      rewrite (lookup_insert_ne _ "version" "snapshotVersion"), !lookup_insert_eq by done.
      rewrite (j_string_back _ _ Hv), !j_int_back by done. done.
    + intros k Hk. cbn in Hk. rewrite !lookup_insert_is_Some', lookup_empty in Hk. unfold root_keys. rewrite !elem_of_cons.
      destruct Hk as [?|[?|[?|[? ?]]]]; auto; done.
  - unfold Root_UnmarshalJSON. rewrite j_members_object; [|intros k [j Hk]; by rewrite lookup_empty in Hk].
    unfold decode_root, decode_key. by rewrite !lookup_empty.
Qed.

(** The JSON of a value object restores its value into any receiver, which keeps its own validator and applies it:
    a value that the receiver's validator refuses is stored all the same, beside the error. *)
Theorem value_object_json {T J} `{EqDecision T} (zero : T) `{!Json J, !JsonStruct J, HJS : !JsonStructLaws J}
    (encode : T -> result J) (decode : J -> T -> result T) (v r : ValueObject.t T) d :
  (forall x j, encode x = Ok j -> decode j zero = Ok x) ->
  ValueObject_MarshalJSON encode v = Ok d ->
  let v' := ValueObject.mk (ValueObject.value v) (ValueObject.validate r) in
  ValueObject_UnmarshalJSON zero decode d r = (v', ValueObject.Validate zero v').
Proof.
  intros Hback Hm. cbn zeta. unfold ValueObject_MarshalJSON in Hm.
  destruct (encode (ValueObject.value v)) as [j|] eqn:He; [|done]. injection Hm as <-.
  unfold ValueObject_UnmarshalJSON. rewrite j_members_object.
  - unfold decode_key. cbn. rewrite lookup_insert_eq. by rewrite (Hback _ _ He).
  - intros k [x Hk]. cbn in Hk. apply lookup_insert_Some in Hk as [[<- _]|[_ Hk]]; [by left|by rewrite lookup_empty in Hk].
Qed.

(** ** A concrete decoder *)
Module DemoEntityJson.
Import DemoJson.
#[export] Instance demo_members : JsonStruct jv := fun keys j =>
  match j with
  | JObj l => Ok (filter (fun x => x.1 ∈ keys) (list_to_map l : gmap string jv))
  | JNull => Ok ∅
  | _ => Err no_type
  end.
#[export] Instance demo_members_laws : JsonStructLaws jv.
Proof.
  split. intros keys m Hm. cbn. rewrite list_to_map_to_list. f_equal. apply map_eq. intros k.
  rewrite map_lookup_filter. destruct (m !! k) as [j|] eqn:Hk; cbn; [|done].
  rewrite option_guard_True; [done|]. apply Hm. by rewrite Hk.
Qed.
Definition positive : option (Z -> error) := Some (fun z => if bool_decide (0 < z)%Z then None else Some (ENew "not positive")).
End DemoEntityJson.
Import DemoJson DemoEntityJson.


Lemma root_json_restores_witness :
  exists d, Root_MarshalJSON (mkRoot (E := Z) (Entity.mk "o-1") 3 2 [7%Z]) = Ok d /\
    Root_UnmarshalJSON (d : jv) (mkRoot (E := Z) (Entity.mk "x") 9 9 [8%Z]) = (mkRoot (Entity.mk "o-1") 3 2 [8%Z], None).
Proof.
  eexists. split; [reflexivity|].
  apply (proj1 (root_json_restores any_text (mkRoot (E := Z) (Entity.mk "o-1") 3 2 [7%Z]) (mkRoot (E := Z) (Entity.mk "x") 9 9 [8%Z])));
    [exact I|by vm_compute..|reflexivity].
Defined.

Lemma value_object_json_witness :
  ValueObject_UnmarshalJSON 0%Z (fun j z => match j with JNum z => Ok z | _ => Err no_type end)
      (JObj [("value", JNum (-3))]) (ValueObject.mk 5%Z positive) =
    (ValueObject.mk (-3)%Z positive, Some (ENew "not positive")).
Proof.
  apply (value_object_json 0%Z (fun z => Ok (JNum z)) (fun j z => match j with JNum z => Ok z | _ => Err no_type end)
    (ValueObject.mk (-3)%Z None) (ValueObject.mk 5%Z positive)); [by intros x j [= <-]|].
  vm_compute. reflexivity.
Defined.
