(* ===== verification/Job.v ===== *)
(** * Background jobs: [src/job/core/job.go], [src/job/memory]

    The job and its state machine, the in-memory job store, the job manager's
    operations, and the loop of the goroutine that executes a job. Jobs are
    shared by pointer between the manager's map, the executing goroutine and the
    callers, so the live jobs are a part of the world; the store keeps snapshots. *)

From S2P Require Import Prelude Errors Trace Aspect Bus.

Inductive JobStatus :=
| JobStatusPending | JobStatusRunning | JobStatusCompleted | JobStatusFailed | JobStatusCancelled.

#[export] Instance JobStatus_eq_dec : EqDecision JobStatus.
Proof. solve_decision. Defined.

Definition status_String (s : JobStatus) : string :=
  match s with
  | JobStatusPending => "pending" | JobStatusRunning => "running"
  | JobStatusCompleted => "completed" | JobStatusFailed => "failed"
  | JobStatusCancelled => "cancelled"
  end.

(** A job; [done] is nil, or a channel that is closed or not. *)
Record Job (V : Type) := mkJob {
  id : string;
  command : V;
  commandType : string;
  status : JobStatus;
  job_result : V;
  resultType : string;
  err : string;
  createdAt : Z;
  startedAt : Z;
  completedAt : Z;
  timeout : Z;
  retryCount : Z;
  maxRetries : Z;
  done : option bool }.
Arguments mkJob {V} id command commandType status job_result resultType err createdAt startedAt
  completedAt timeout retryCount maxRetries done.
Arguments id {V} _.
Arguments command {V} _.
Arguments commandType {V} _.
Arguments status {V} _.
Arguments job_result {V} _.
Arguments resultType {V} _.
Arguments err {V} _.
Arguments createdAt {V} _.
Arguments startedAt {V} _.
Arguments completedAt {V} _.
Arguments timeout {V} _.
Arguments retryCount {V} _.
Arguments maxRetries {V} _.
Arguments done {V} _.

Definition ErrJobNotFound : goerr := ESentinel "core.ErrJobNotFound" "job not found".
Definition ErrInvalidStateTransition : goerr :=
  ESentinel "core.ErrInvalidStateTransition" "invalid state transition".

Definition isValidTransition (from to : JobStatus) : bool :=
  match from, to with
  | JobStatusPending, JobStatusRunning => true
  | JobStatusRunning, (JobStatusCompleted | JobStatusFailed | JobStatusCancelled) => true
  | JobStatusFailed, JobStatusPending => true
  | _, _ => false
  end.

Inductive JobOption := WithTimeout (t : Z) | WithMaxRetries (n : Z).

Section JobCore.
Context {V : Type} `{!Dynamic V}.
Abbreviation Job := (Job V).
Implicit Types j : Job.

Definition apply_job_option j (o : JobOption) : Job :=
  match o with
  | WithTimeout t =>
      mkJob (id j) (command j) (commandType j) (status j) (job_result j) (resultType j) (err j)
        (createdAt j) (startedAt j) (completedAt j) t (retryCount j) (maxRetries j) (done j)
  | WithMaxRetries n =>
      mkJob (id j) (command j) (commandType j) (status j) (job_result j) (resultType j) (err j)
        (createdAt j) (startedAt j) (completedAt j) (timeout j) (retryCount j) n (done j)
  end.

Definition NewJob (now : Z) (i : string) (cmd : V) (opts : list JobOption) : Job :=
  fold_left apply_job_option opts
    (mkJob i cmd "" JobStatusPending nil_any "" "" now time_zero time_zero 0 0 0 None).

(** The fields that a state change sets. *)
Definition with_state j (s : JobStatus) (res : V) (rt er : string) (st ct : Z) : Job :=
  mkJob (id j) (command j) (commandType j) s res rt er
    (createdAt j) st ct (timeout j) (retryCount j) (maxRetries j) (done j).
Definition with_retries j (n : Z) : Job :=
  mkJob (id j) (command j) (commandType j) (status j) (job_result j) (resultType j) (err j)
    (createdAt j) (startedAt j) (completedAt j) (timeout j) n (maxRetries j) (done j).
Definition with_done j (d : option bool) : Job :=
  mkJob (id j) (command j) (commandType j) (status j) (job_result j) (resultType j) (err j)
    (createdAt j) (startedAt j) (completedAt j) (timeout j) (retryCount j) (maxRetries j) d.

Definition RestoreJobState (s : JobStatus) (res : V) (rt er : string) (st ct : Z) j : Job * error :=
  if isValidTransition (status j) s then (with_state j s res rt er st ct, None)
  else (j, Some (EWrap ("job " +:+ id j +:+ ": ") ErrInvalidStateTransition
                   (": " +:+ status_String (status j) +:+ " -> " +:+ status_String s))).

Definition MarkRunning (now : Z) j : Job :=
  with_state j JobStatusRunning (job_result j) (resultType j) (err j) now (completedAt j).

Definition cancelled_or_pending (s : JobStatus) : bool :=
  bool_decide (s = JobStatusCancelled) || bool_decide (s = JobStatusPending).

Definition TryComplete (now : Z) (res : V) j : Job * bool :=
  if cancelled_or_pending (status j) then (j, false)
  else (with_state j JobStatusCompleted res (resultType j) (err j) (startedAt j) now, true).

(** The pair is Go's [(cancelled, shouldRetry)]. *)
Definition TryFail (now : Z) (errStr : string) j : Job * (bool * bool) :=
  if cancelled_or_pending (status j) then
    (j, (bool_decide (status j = JobStatusCancelled), false))
  else
    let j := with_state j JobStatusFailed (job_result j) (resultType j) errStr (startedAt j) now in
    if bool_decide (retryCount j < maxRetries j)%Z
    then (with_retries j (retryCount j +i 1), (false, true))
    else (j, (false, false)).

Definition TryCancel (now : Z) j : Job * error :=
  if bool_decide (status j = JobStatusCompleted) || bool_decide (status j = JobStatusCancelled) then
    (j, Some (ENew ("job " +:+ id j +:+ " cannot be cancelled (status: " +:+
                    status_String (status j) +:+ ")")))
  else (with_state j JobStatusCancelled (job_result j) (resultType j) (err j) (startedAt j) now, None).

Definition ResetForRetry j : Job * error :=
  if negb (bool_decide (status j = JobStatusFailed)) then
    (j, Some (ENew ("job " +:+ id j +:+ " is not in failed state")))
  else (with_state j JobStatusPending nil_any (resultType j) "" time_zero time_zero, None).

(** [Done]: makes the channel if there is none, and tells whether it is closed. *)
Definition Done_chan j : Job * bool :=
  match done j with
  | None => (with_done j (Some false), false)
  | Some c => (j, c)
  end.
Definition MarkDone j : Job := with_done j (Some true).
Definition ResetDone j : Job := with_done j (Some false).

Definition terminal (s : JobStatus) : bool :=
  match s with
  | JobStatusCompleted | JobStatusFailed | JobStatusCancelled => true
  | _ => false
  end.

Definition Snapshot j : Job := with_done j (Some (terminal (status j))).
End JobCore.

(** ** The type registry of the job stores *)
Section TypeRegistry.
Context {V : Type} `{!Dynamic V} (reflect_New : rtype -> V).

Abbreviation TypeRegistry := (gmap string rtype).
Definition NewTypeRegistry : TypeRegistry := ∅.

Definition elem_type (t : rtype) : rtype := match t with TPtr e => e | _ => t end.

Definition Register (sample : V) (r : TypeRegistry) : outcome TypeRegistry :=
  match type_of sample with
  | None => Panicked "nil pointer dereference"
  | Some t => Done (<[rtype_String (elem_type t) := elem_type t]> r)
  end.

Definition NewInstance (typeName : string) (r : TypeRegistry) : option V :=
  reflect_New <$> r !! typeName.

Definition TypeName (v : V) : string :=
  match type_of v with None => "" | Some t => rtype_String (elem_type t) end.
End TypeRegistry.

(** ** The job stores *)

Record JobStore (W V : Type) := mkJobStore {
  Create : Job V -> GoM W error;
  Get : string -> GoM W (result (Job V));
  Update : Job V -> GoM W error;
  List : JobStatus -> GoM W (result (list (Job V)));
  Delete : string -> GoM W error }.
Arguments mkJobStore {W V} Create Get Update List Delete.
Arguments Create {W V} _ _.
Arguments Get {W V} _ _.
Arguments Update {W V} _ _.
Arguments List {W V} _ _.
Arguments Delete {W V} _ _.

Abbreviation InMemoryJobStore V := (gmap string (Job V)) (only parsing).

Section InMemoryJobStore.
Context {V : Type}.

Abbreviation InMemoryJobStore := (InMemoryJobStore V).
Definition NewJobStore : InMemoryJobStore := ∅.

Definition job_error (i : string) (e : goerr) : goerr := EWrap ("job " +:+ i +:+ ": ") e "".

Definition mem_Create (j : Job V) (s : InMemoryJobStore) : error * InMemoryJobStore :=
  match s !! id j with
  | Some _ => (Some (job_error (id j) ErrAlreadyExists), s)
  | None => (None, <[id j := Snapshot j]> s)
  end.

Definition mem_Get (i : string) (s : InMemoryJobStore) : result (Job V) * InMemoryJobStore :=
  match s !! i with
  | None => (Err (job_error i ErrNotFound), s)
  | Some j => (Ok (Snapshot j), s)
  end.

Definition mem_Update (j : Job V) (s : InMemoryJobStore) : error * InMemoryJobStore :=
  match s !! id j with
  | None => (Some (job_error (id j) ErrNotFound), s)
  | Some _ => (None, <[id j := Snapshot j]> s)
  end.

(** The order of the result is the iteration order of the Go map, which is
    unspecified; here it is the order of the model's map. *)
Definition mem_List (st : JobStatus) (s : InMemoryJobStore) :
    result (list (Job V)) * InMemoryJobStore :=
  (Ok (List.filter (fun j => bool_decide (status j = st)) (map (fun p => Snapshot p.2) (map_to_list s))), s).

Definition mem_Delete (i : string) (s : InMemoryJobStore) : error * InMemoryJobStore :=
  match s !! i with
  | None => (Some (job_error i ErrNotFound), s)
  | Some _ => (None, delete i s)
  end.

Definition in_memory_store {W} `{!Has InMemoryJobStore W} : JobStore W V :=
  mkJobStore (fun j => on_part (mem_Create j)) (fun i => on_part (mem_Get i))
    (fun j => on_part (mem_Update j)) (fun st => on_part (mem_List st)) (fun i => on_part (mem_Delete i)).
End InMemoryJobStore.

(** ** The job manager *)

(** The manager's own state: the live jobs ([m.jobs] and the objects it points
    to), the jobs that have a cancel function and whether it was called, whether
    [stopCh] is closed and [closed] set, and the goroutines started and not yet
    run, with their trace parents. *)
Record Manager (V : Type) := mkManager {
  jobs : gmap string (Job V);
  cancelers : gmap string bool;
  stopped : bool;
  spawned : list (string * (string * string)) }.
Arguments mkManager {V} jobs cancelers stopped spawned.
Arguments jobs {V} _.
Arguments cancelers {V} _.
Arguments stopped {V} _.
Arguments spawned {V} _.

Section Manager.
Context {W V : Type} `{!Dynamic V, !Clock W, !IdGen W} `{!Has (Manager V) W}.
Context (store : JobStore W V) (executor : context -> V -> GoM W (V * error)).
Context (onStoreError : option (goerr -> GoM W unit)).

Definition get_manager : GoM W (Manager V) := fun w => (Done (part w), w).
Definition put_manager (m : Manager V) : GoM W unit := fun w => (Done tt, set_part m w).

Definition set_jobs (f : gmap string (Job V) -> gmap string (Job V)) : GoM W unit :=
  m ← get_manager;
  put_manager (mkManager (f (jobs m)) (cancelers m) (stopped m) (spawned m)).
Definition set_cancelers (f : gmap string bool -> gmap string bool) : GoM W unit :=
  m ← get_manager;
  put_manager (mkManager (jobs m) (f (cancelers m)) (stopped m) (spawned m)).
(** [m.wg.Add(1); go m.executeJob(job, ...)]. *)
Definition go_executeJob (i : string) (ctx : context) : GoM W unit :=
  m ← get_manager;
  put_manager (mkManager (jobs m) (cancelers m) (stopped m)
                         (spawned m ++ [(i, (GetTraceID ctx, GetSpanID ctx))])).

(** An operation on the live job of an identity. *)
Definition on_job {A} (i : string) (op : Job V -> Job V * A) : GoM W (option A) :=
  m ← get_manager;
  match jobs m !! i with
  | None => mret None
  | Some j =>
      let (j', a) := op j in
      _ ← set_jobs <[i := j']>;
      mret (Some a)
  end.

Definition handleStoreError (jobID operation : string) (e : error) : GoM W unit :=
  match e, onStoreError with
  | Some _, Some handler => handler (EStore jobID operation e)
  | _, _ => mret tt
  end.

Definition Submit (ctx : context) (cmd : V) (opts : list JobOption) : GoM W (result (Job V)) :=
  i ← new_uuid;
  now ← time_now;
  let j := NewJob now i cmd opts in
  e ← Create store j;
  match e with
  | Some e => mret (Err e)
  | None =>
      _ ← set_jobs <[i := j]>;
      _ ← go_executeJob i ctx;
      mret (Ok j)
  end.

(** Save the live job and report a failure to the handler. *)
Definition save_job (i operation : string) : GoM W unit :=
  m ← get_manager;
  match jobs m !! i with
  | None => mret tt
  | Some j => e ← Update store j; handleStoreError i operation e
  end.

(** One turn of the loop of [executeJob]; the result says whether to go on. *)
Definition execute_turn (bgCtx : context) (i : string) : GoM W bool :=
  m ← get_manager;
  if stopped m then mret false
  else
    now ← time_now;
    started ← on_job i (fun j => (MarkRunning now j, (command j, timeout j)));
    match started with
    | None => go_panic "nil pointer dereference"
    | Some (cmd, tmo) =>
        _ ← save_job i "update_running";
        now ← time_now;
        let execCtx := if bool_decide (0 < tmo)%Z then with_deadline bgCtx (now + tmo) else bgCtx in
        _ ← set_cancelers <[i := false]>;
        '(res, e) ← executor execCtx cmd;
        _ ← set_cancelers (delete i);
        now ← time_now;
        match e with
        | Some e =>
            r ← on_job i (TryFail now (Error e));
            match r with
            | Some (true, _) => _ ← on_job i (fun j => (MarkDone j, tt)); mret false
            | Some (false, true) => _ ← save_job i "update_retry"; mret true
            | _ =>
                _ ← save_job i "update_final";
                _ ← on_job i (fun j => (MarkDone j, tt)); mret false
            end
        | None =>
            r ← on_job i (TryComplete now res);
            match r with
            | Some false => _ ← on_job i (fun j => (MarkDone j, tt)); mret false
            | _ =>
                _ ← save_job i "update_final";
                _ ← on_job i (fun j => (MarkDone j, tt)); mret false
            end
        end
    end.

(** The loop; the result says that it ended within the fuel. *)
Fixpoint execute_loop (fuel : nat) (bgCtx : context) (i : string) : GoM W bool :=
  match fuel with
  | 0 => mret false
  | S fuel =>
      go_on ← execute_turn bgCtx i;
      if (go_on : bool) then execute_loop fuel bgCtx i else mret true
  end.

Definition background (parentTraceID parentSpanID : string) : GoM W context :=
  if bool_decide (parentTraceID = "") then mret Background
  else
    spanID ← NewSpanID;
    mret (WithParentSpan (WithTrace Background parentTraceID spanID) parentSpanID).

Definition executeJob (fuel : nat) (i parentTraceID parentSpanID : string) : GoM W bool :=
  bgCtx ← background parentTraceID parentSpanID;
  execute_loop fuel bgCtx i.

Definition GetStatus (i : string) : GoM W (result (Job V)) := Get store i.
Definition ListByStatus (st : JobStatus) : GoM W (result (list (Job V))) := List store st.

Definition Cancel (i : string) : GoM W error :=
  now ← time_now;
  r ← on_job i (TryCancel now);
  match r with
  | Some (Some e) => mret (Some e)
  | Some None =>
      _ ← set_cancelers (alter (fun _ => true) i);
      _ ← on_job i (fun j => (MarkDone j, tt));
      m ← get_manager;
      match jobs m !! i with
      | Some j => Update store j
      | None => mret None
      end
  | None =>
      g ← Get store i;
      match g with
      | Err e => mret (Some e)
      | Ok j =>
          now ← time_now;
          match TryCancel now j with
          | (_, Some e) => mret (Some e)
          | (j, None) => Update store j
          end
      end
  end.

Definition retry_failed (e : error) : error :=
  match e with Some e => Some (EWrap "failed to reset job for retry: " e "") | None => None end.

(** [Retry] once the live job's channel is closed; the answer is [None] while
    the call waits for that. *)
Definition Retry (ctx : context) (i : string) : GoM W (option error) :=
  d ← on_job i Done_chan;
  match d with
  | Some false => mret None
  | Some true =>
      r ← on_job i ResetForRetry;
      match r with
      | Some (Some e) => mret (Some (Some e))
      | _ =>
          _ ← on_job i (fun j => (ResetDone j, tt));
          m ← get_manager;
          match jobs m !! i with
          | None => mret (Some None)
          | Some j =>
              e ← Update store j;
              match e with
              | Some _ => mret (Some (retry_failed e))
              | None => _ ← go_executeJob i ctx; mret (Some None)
              end
          end
      end
  | None =>
      g ← Get store i;
      match g with
      | Err e => mret (Some (Some e))
      | Ok j =>
          match ResetForRetry j with
          | (_, Some e) => mret (Some (Some e))
          | (j, None) =>
              let j := ResetDone j in
              e ← Update store j;
              match e with
              | Some _ => mret (Some (retry_failed e))
              | None =>
                  _ ← set_jobs <[i := j]>;
                  _ ← go_executeJob i ctx;
                  mret (Some None)
              end
          end
      end
  end.

(** Which case of its select a waiting call takes: the job's channel, the
    timer, or the end of the caller's context. *)
Inductive wait_case := OnDone | OnTimeout | OnCtx (e : goerr).

(** [Wait]; the answer is [None] while the select has to wait for the channel. *)
Definition Wait (i : string) (c : wait_case) : GoM W (option (result (Job V))) :=
  d ← on_job i Done_chan;
  match d with
  | None => mret (Some (Err (EWrap ("job " +:+ i +:+ ": ") ErrJobNotFound "")))
  | Some closed =>
      match c with
      | OnDone => if (closed : bool) then r ← Get store i; mret (Some r) else mret None
      | OnTimeout => mret (Some (Err (ENew ("job " +:+ i +:+ " timed out waiting for completion"))))
      | OnCtx e => mret (Some (Err e))
      end
  end.

Definition settled_or_running (s : JobStatus) : bool :=
  bool_decide (s = JobStatusRunning) || bool_decide (s = JobStatusCompleted) ||
  bool_decide (s = JobStatusFailed) || bool_decide (s = JobStatusCancelled).

(** The polls of [WaitForRunning]: each select takes the end of the context, or
    the five milliseconds pass ([None]). *)
Fixpoint wait_running_loop (deadline : Z) (i : string) (polls : list (option goerr)) :
    GoM W (option (result (Job V))) :=
  g ← Get store i;
  match g with
  | Err e => mret (Some (Err (EWrap ("job " +:+ i +:+ ": ") e "")))
  | Ok j =>
      if settled_or_running (status j) then mret (Some (Ok j))
      else
        now ← time_now;
        if time_after now deadline
        then mret (Some (Err (ENew ("job " +:+ i +:+ " timed out waiting for running state"))))
        else match polls with
             | [] => mret None
             | Some e :: _ => mret (Some (Err e))
             | None :: polls => wait_running_loop deadline i polls
             end
  end.

Definition WaitForRunning (i : string) (tmo : Z) (polls : list (option goerr)) :
    GoM W (option (result (Job V))) :=
  now ← time_now;
  wait_running_loop (now + tmo)%Z i polls.

(** [Shutdown] up to its wait for the goroutines. *)
Definition Shutdown_stop : GoM W unit :=
  m ← get_manager;
  if stopped m then mret tt
  else put_manager (mkManager (jobs m) ∅ true (spawned m)).

(** [recoverJobs]: running jobs are failed, pending ones are executed. *)
Fixpoint recover_running (l : list (Job V)) : GoM W unit :=
  match l with
  | [] => mret tt
  | j :: l =>
      now ← time_now;
      let j := (RestoreJobState JobStatusFailed nil_any "" "process restarted during execution"
                  time_zero now j).1 in
      e ← Update store j;
      _ ← handleStoreError (id j) "recovery_running" e;
      recover_running l
  end.
Fixpoint recover_pending (l : list (Job V)) : GoM W unit :=
  match l with
  | [] => mret tt
  | j :: l =>
      _ ← set_jobs <[id j := j]>;
      _ ← go_executeJob (id j) Background;
      recover_pending l
  end.
Definition recoverJobs : GoM W unit :=
  running ← List store JobStatusRunning;
  _ ← match running with Ok l => recover_running l | Err _ => mret tt end;
  pending ← List store JobStatusPending;
  match pending with Ok l => recover_pending l | Err _ => mret tt end.
End Manager.

(** ** Construction of a manager

    The fields that its options set; [jm_store] is nil for a nil interface. *)
Record JobManager (W V : Type) := mkJobManager {
  jm_store : option (JobStore W V);
  jm_executor : context -> V -> GoM W (V * error);
  jm_onStoreError : option (goerr -> GoM W unit);
  jm_recovery : bool }.
Arguments mkJobManager {W V} jm_store jm_executor jm_onStoreError jm_recovery.
Arguments jm_store {W V} _.
Arguments jm_executor {W V} _ _ _.
Arguments jm_onStoreError {W V} _.
Arguments jm_recovery {W V} _.

Inductive JobManagerOption (W : Type) :=
| WithStoreErrorHandler (handler : goerr -> GoM W unit)
| WithRecovery.
Arguments WithStoreErrorHandler {W} handler.
Arguments WithRecovery {W}.

Definition apply_manager_option {W V} (m : JobManager W V) (o : JobManagerOption W) : JobManager W V :=
  match o with
  | WithStoreErrorHandler h => mkJobManager (jm_store m) (jm_executor m) (Some h) (jm_recovery m)
  | WithRecovery => mkJobManager (jm_store m) (jm_executor m) (jm_onStoreError m) true
  end.

(** The manager, and the goroutine that it starts if it recovers. *)
Definition NewJobManager {W V} `{!Dynamic V, !Clock W, !Has (Manager V) W} (store : option (JobStore W V))
    (executor : context -> V -> GoM W (V * error)) (opts : list (JobManagerOption W)) :
    GoM W (JobManager W V * option (GoM W unit)) :=
  _ ← put_manager (mkManager ∅ ∅ false []);
  let m := fold_left apply_manager_option opts (mkJobManager store executor None false) in
  mret (m, if jm_recovery m then
             Some (match jm_store m with
                   | Some s => recoverJobs s (jm_onStoreError m)
                   | None => go_panic "nil pointer dereference"
                   end)
           else None).

(** ** Lemmas on the execution loop

    The executor, the store, the clock and the error handler return and leave
    the manager's own state alone: nobody cancels or retries the job meanwhile. *)

Section Execution.
Context {W V : Type} `{!Dynamic V, !Clock W, !IdGen W} `{!Has (Manager V) W, !HasLaws (Manager V) W}.
Context (store : JobStore W V) (executor : context -> V -> GoM W (V * error)).
Context (onStoreError : option (goerr -> GoM W unit)).
Context (Hexec : forall ctx cmd, quiet (S := Manager V) (executor ctx cmd)).
Context (Hupdate : forall j, quiet (S := Manager V) (Update store j)).
Context (Hnow : quiet (S := Manager V) time_now).
Context (Hhandler : forall h e, onStoreError = Some h -> quiet (S := Manager V) (h e)).
Abbreviation man w := (part w : Manager V).

(** The job is live, in the given form, and the manager is not stopped. *)
Definition live (i : string) (j : Job V) (w : W) : Prop :=
  jobs (man w) !! i = Some j /\ stopped (man w) = false.

Lemma set_cancelers_run f w :
  exists w', set_cancelers f w = (Done tt, w') /\
    jobs (man w') = jobs (man w) /\ stopped (man w') = stopped (man w).
Proof.
  unfold set_cancelers, get_manager, put_manager. unfold_go. eexists. split; [reflexivity|].
  by rewrite part_set.
Qed.

Lemma on_job_run {A} i (op : Job V -> Job V * A) j w :
  live i j w -> exists w', on_job i op w = (Done (Some (op j).2), w') /\ live i (op j).1 w'.
Proof.
  intros [Hj Hs]. unfold on_job, set_jobs, get_manager, put_manager. unfold_go. rewrite Hj.
  destruct (op j) as [j' a]. cbn. eexists. split; [reflexivity|].
  unfold live. rewrite part_set. cbn. by rewrite lookup_insert_eq.
Qed.

Lemma quiet_live {A} (m : GoM W A) i j w :
  quiet (S := Manager V) m -> live i j w -> exists a w', m w = (Done a, w') /\ live i j w'.
Proof.
  intros Hq Hl. destruct (Hq w) as (a & w' & Hm & Hp). exists a, w'. split; [done|].
  unfold live. by rewrite Hp.
Qed.

Lemma save_job_run i op j w :
  live i j w -> exists w', save_job store onStoreError i op w = (Done tt, w') /\ live i j w'.
Proof.
  intros Hl. unfold save_job, get_manager. unfold_go. rewrite (proj1 Hl).
  destruct (quiet_live _ _ _ _ (Hupdate j) Hl) as (e & w1 & Hu & Hl1). rewrite Hu.
  unfold handleStoreError. destruct e as [e|]; [|eauto].
  destruct onStoreError as [h|] eqn:Hh; [|eauto].
  destruct (quiet_live _ _ _ _ (Hhandler h (EStore i op (Some e)) eq_refl) Hl1) as ([] & w2 & Hu2 & Hl2).
  rewrite Hu2. eauto.
Qed.

Lemma cancelers_live f i j w :
  live i j w -> exists w', set_cancelers f w = (Done tt, w') /\ live i j w'.
Proof.
  intros Hl. destruct (set_cancelers_run f w) as (w' & H & Hj & Hs). exists w'.
  split; [done|]. unfold live. by rewrite Hj, Hs.
Qed.

(** The command was executed and ended this way. *)
Definition executed (cmd : V) (o : V * error) : Prop :=
  exists ctx w w', executor ctx cmd w = (Done o, w').

(** How a job stands after its execution ended. *)
Definition ended (j j' : Job V) : Prop :=
  command j' = command j /\ maxRetries j' = maxRetries j /\ done j' = Some true /\
  ((status j' = JobStatusCompleted /\ executed (command j) (job_result j', None)) \/
   (status j' = JobStatusFailed /\ retryCount j' = Z.max (retryCount j) (maxRetries j) /\
    exists res e, executed (command j) (res, Some e) /\ err j' = Error e)).

Definition one_more (j j' : Job V) : Prop :=
  command j' = command j /\ maxRetries j' = maxRetries j /\
  (retryCount j < maxRetries j)%Z /\ retryCount j' = (retryCount j + 1)%Z.

Lemma TryFail_running now msg t (j : Job V) :
  TryFail now msg (MarkRunning t j) =
  let j1 := with_state j JobStatusFailed (job_result j) (resultType j) msg t now in
  if bool_decide (retryCount j < maxRetries j)%Z
  then (with_retries j1 (retryCount j +i 1), (false, true)) else (j1, (false, false)).
Proof. reflexivity. Qed.

Lemma TryComplete_running now res t (j : Job V) :
  TryComplete now res (MarkRunning t j) =
  (with_state j JobStatusCompleted res (resultType j) (err j) t now, true).
Proof. reflexivity. Qed.

Lemma execute_turn_run bgCtx i j w :
  live i j w -> in_int64 (retryCount j) -> in_int64 (maxRetries j) ->
  exists b w' j', execute_turn store executor onStoreError bgCtx i w = (Done b, w') /\
    live i j' w' /\
    if (b : bool) then one_more j j'
    else ended j j' /\ retryCount j' = retryCount j.
Proof.
  intros Hl Hr Hm. unfold execute_turn. unfold mbind, go_bind.
  unfold get_manager at 1. cbv beta iota. rewrite (proj2 Hl).
  destruct (quiet_live _ _ _ _ Hnow Hl) as (t1 & w1 & -> & Hl1).
  destruct (on_job_run i (fun j => (MarkRunning t1 j, (command j, timeout j))) _ _ Hl1)
    as (w2 & -> & Hl2). cbn [fst snd] in Hl2 |- *.
  destruct (save_job_run i "update_running" _ _ Hl2) as (w3 & -> & Hl3).
  destruct (quiet_live _ _ _ _ Hnow Hl3) as (t2 & w4 & -> & Hl4).
  destruct (cancelers_live <[i := false]> _ _ _ Hl4) as (w5 & -> & Hl5).
  set (execCtx := if bool_decide _ then _ else _).
  destruct (quiet_live _ _ _ _ (Hexec execCtx (command j)) Hl5) as ([res e] & w6 & He & Hl6).
  rewrite He.
  destruct (cancelers_live (delete i) _ _ _ Hl6) as (w7 & -> & Hl7).
  destruct (quiet_live _ _ _ _ Hnow Hl7) as (t3 & w8 & -> & Hl8).
  assert (executed (command j) (res, e)) as Hx by (by exists execCtx, w5, w6).
  destruct e as [e|].
  - destruct (on_job_run i (TryFail t3 (Error e)) _ _ Hl8) as (w9 & -> & Hl9).
    rewrite TryFail_running in Hl9 |- *. cbv zeta in Hl9 |- *.
    case_bool_decide as Hlt; cbn [fst snd] in Hl9 |- *.
    + destruct (save_job_run i "update_retry" _ _ Hl9) as (w10 & -> & Hl10).
      eexists true, w10, _. split; [reflexivity|]. split; [exact Hl10|].
      unfold one_more. cbn. split_and!; [done..|]. apply int_add_id. unfold in_int64 in *. lia.
    + destruct (save_job_run i "update_final" _ _ Hl9) as (w10 & -> & Hl10).
      destruct (on_job_run i (fun j => (MarkDone j, tt)) _ _ Hl10) as (w11 & -> & Hl11).
      cbn [fst snd] in Hl11. eexists false, w11, _. split; [reflexivity|]. split; [exact Hl11|].
      split; [|done]. unfold ended. cbn. split_and!; [done..|]. right.
      split; [done|]. split; [lia|]. eauto.
  - destruct (on_job_run i (TryComplete t3 res) _ _ Hl8) as (w9 & -> & Hl9).
    rewrite TryComplete_running in Hl9 |- *. cbn [fst snd] in Hl9 |- *.
    destruct (save_job_run i "update_final" _ _ Hl9) as (w10 & -> & Hl10).
    destruct (on_job_run i (fun j => (MarkDone j, tt)) _ _ Hl10) as (w11 & -> & Hl11).
    cbn [fst snd] in Hl11. eexists false, w11, _. split; [reflexivity|]. split; [exact Hl11|].
    split; [|done]. unfold ended. cbn. split_and!; [done..|]. left. done.
Qed.

Lemma execute_loop_run fuel bgCtx i j w :
  live i j w -> in_int64 (retryCount j) -> in_int64 (maxRetries j) ->
  Z.to_nat (maxRetries j - retryCount j) < fuel ->
  exists w' j', execute_loop store executor onStoreError fuel bgCtx i w = (Done true, w') /\
    live i j' w' /\ ended j j' /\ (retryCount j <= retryCount j')%Z.
Proof.
  revert j w. induction fuel as [|fuel IH]; intros j w Hl Hr Hm Hf; [lia|].
  cbn [execute_loop]. unfold mbind, go_bind.
  destruct (execute_turn_run bgCtx i j w Hl Hr Hm) as (b & w1 & j1 & -> & Hl1 & Hb).
  destruct b.
  - destruct Hb as (Hc & Hmax & Hlt & Hrc).
    destruct (IH j1 w1 Hl1) as (w2 & j2 & -> & Hl2 & (Hc2 & Hm2 & Hd2 & Hcase) & Hle).
    { rewrite Hrc. unfold in_int64 in *. lia. } { by rewrite Hmax. } { rewrite Hmax, Hrc. lia. }
    exists w2, j2. split; [done|]. split; [done|]. split; [|lia].
    unfold ended. rewrite Hc2, Hc, Hm2, Hmax. split_and!; [done..|].
    destruct Hcase as [[Hst Hx]|(Hst & Hrm & Hx)]; [left|right]; rewrite Hc in Hx; [done|].
    split; [done|]. split; [|done]. rewrite Hrm, Hmax, Hrc. lia.
  - destruct Hb as [He Hrc]. exists w1, j1. split_and!; [done..|lia].
Qed.
End Execution.

(** ** Concurrency: one executing goroutine and its cancellers

    The goroutine of [executeJob] and calls of [Cancel] on one live job, each
    step one critical section of the job's mutex. *)
Module Concurrency.
Inductive worker :=
| WLoop        (** about to call [MarkRunning] *)
| WExecuting   (** the command runs *)
| WAfter (outcome : option string)  (** the command returned: an error or none *)
| WStopped.

Section Steps.
Context {V : Type} `{!Dynamic V}.

Record state := mkState { s_job : Job V; s_worker : worker }.

Inductive step : state -> state -> Prop :=
| run j now : step (mkState j WLoop) (mkState (MarkRunning now j) WExecuting)
| executed j o : step (mkState j WExecuting) (mkState j (WAfter o))
| fail_retry j j' now msg b :
    TryFail now msg j = (j', (b, true)) -> step (mkState j (WAfter (Some msg))) (mkState j' WLoop)
| fail_final j j' now msg b :
    TryFail now msg j = (j', (b, false)) ->
    step (mkState j (WAfter (Some msg))) (mkState (MarkDone j') WStopped)
| complete j now res :
    step (mkState j (WAfter None)) (mkState (MarkDone (TryComplete now res j).1) WStopped)
| cancel j w now :
    (TryCancel now j).2 = None ->
    step (mkState j w) (mkState (MarkDone (TryCancel now j).1) w).

(** The command is running or has just returned. *)
Definition past_start (w : worker) : Prop :=
  match w with WExecuting | WAfter _ | WStopped => True | WLoop => False end.

Definition cancelled_for_good (s : state) : Prop :=
  status (s_job s) = JobStatusCancelled /\ past_start (s_worker s).

Lemma step_cancelled s s' : step s s' -> cancelled_for_good s -> cancelled_for_good s'.
Proof.
  intros Hs [Hc Hw]. destruct Hs as [j now|j o|j j' now msg b H|j j' now msg b H|j now res|j w now H];
    cbn in *; try done.
  - unfold TryFail in H. by rewrite Hc in H.
  - unfold TryFail in H. rewrite Hc in H. cbn in H. injection H as <- _. by split.
  - unfold TryComplete. rewrite Hc. cbn. by split.
  - unfold TryCancel in H. by rewrite Hc in H.
Qed.

Lemma reachable_cancelled s s' :
  rtc step s s' -> cancelled_for_good s -> cancelled_for_good s'.
Proof. intros Hr. induction Hr; eauto using step_cancelled. Qed.
End Steps.
Arguments state : clear implicits.
End Concurrency.

(** ** The job store *)

Lemma snapshot_idem {V} (j : Job V) : Snapshot (Snapshot j) = Snapshot j.
Proof. by destruct j. Qed.

Lemma mem_get_insert {V} (s : InMemoryJobStore V) (j : Job V) :
  (mem_Get (id j) (<[id j := Snapshot j]> s)).1 = Ok (Snapshot j).
Proof. unfold mem_Get. rewrite lookup_insert_eq. cbn. by rewrite snapshot_idem. Qed.

(** ** Properties *)


(** A cancellation that arrives while the command runs is final: whatever the
    goroutine and the other cancellers do afterwards, the job stays cancelled. *)
Theorem cancel_running_sticks {V} `{!Dynamic V} (s s' : Concurrency.state V) now :
  status (Concurrency.s_job s) = JobStatusRunning ->
  Concurrency.past_start (Concurrency.s_worker s) ->
  rtc Concurrency.step
    (Concurrency.mkState (MarkDone (TryCancel now (Concurrency.s_job s)).1) (Concurrency.s_worker s)) s' ->
  status (Concurrency.s_job s') = JobStatusCancelled.
Proof.
  intros Hst Hp Hr. apply (Concurrency.reachable_cancelled _ _ Hr).
  split; [|done]. cbn. unfold TryCancel. by rewrite Hst.
Qed.

(** A cancellation that arrives before the goroutine has started the command,
    or between two attempts, is lost: [Cancel] succeeds and closes the job's channel, but
    [MarkRunning] has no guard, so the command runs and the job ends completed. *)
Theorem cancel_before_start_is_lost {V} `{!Dynamic V} (j : Job V) now res :
  status j = JobStatusPending \/ status j = JobStatusFailed ->
  (TryCancel now j).2 = None /\ status (TryCancel now j).1 = JobStatusCancelled /\
  exists j', rtc Concurrency.step (Concurrency.mkState j Concurrency.WLoop)
      (Concurrency.mkState j' Concurrency.WStopped) /\
    rtc Concurrency.step
      (Concurrency.mkState (MarkDone (TryCancel now j).1) Concurrency.WLoop)
      (Concurrency.mkState j' Concurrency.WStopped) /\
    status j' = JobStatusCompleted /\ job_result j' = res.
Proof.
  intros Hst. unfold TryCancel.
  assert ((bool_decide (status j = JobStatusCompleted) || bool_decide (status j = JobStatusCancelled))
    = false) as Hc by (destruct Hst as [-> | ->]; done).
  rewrite Hc. split; [done|]. split; [done|].
  assert (rtc Concurrency.step
    (Concurrency.mkState (MarkDone (with_state j JobStatusCancelled (job_result j) (resultType j) (err j)
       (startedAt j) now)) Concurrency.WLoop)
    (Concurrency.mkState (MarkDone (TryComplete now res (MarkRunning now (MarkDone
       (with_state j JobStatusCancelled (job_result j) (resultType j) (err j) (startedAt j) now)))).1)
       Concurrency.WStopped)) as Hrun.
  { eapply rtc_l; [apply Concurrency.run|]. eapply rtc_l; [apply (Concurrency.executed _ None)|].
    eapply rtc_l; [apply (Concurrency.complete _ now res)|]. constructor. }
  eexists. split; [|split; [exact Hrun|done]].
  eapply rtc_l; [|exact Hrun].
  pose proof (Concurrency.cancel j Concurrency.WLoop now) as Hcs. unfold TryCancel in Hcs.
  rewrite Hc in Hcs. by apply Hcs.
Qed.

(** The in-memory job store keeps copies: it is the map of snapshots, in which
    [Create] adds only a new identity, [Update] and [Delete] touch only an existing one, [Get]
    returns the snapshot of what was written last, [List] returns exactly the snapshots with the
    status, and every failure is a not-found or already-exists error that changes nothing. *)
Theorem job_store_spec {V} (s : InMemoryJobStore V) (j : Job V) i st :
  (match mem_Create j s with
   | (None, s') => s !! id j = None /\ s' = <[id j := Snapshot j]> s /\
       (mem_Get (id j) s').1 = Ok (Snapshot j)
   | (Some e, s') => is_Some (s !! id j) /\ s' = s /\ Is (Some e) (TDomain "ALREADY_EXISTS") = true
   end) /\
  (match mem_Update j s with
   | (None, s') => is_Some (s !! id j) /\ s' = <[id j := Snapshot j]> s /\
       (mem_Get (id j) s').1 = Ok (Snapshot j)
   | (Some e, s') => s !! id j = None /\ s' = s /\ is_not_found (Some e) = true
   end) /\
  (match mem_Delete i s with
   | (None, s') => is_Some (s !! i) /\ s' = delete i s
   | (Some e, s') => s !! i = None /\ s' = s /\ is_not_found (Some e) = true
   end) /\
  (exists l, (mem_List st s).1 = Ok l /\
     forall x, x ∈ l <-> exists i j, s !! i = Some j /\ x = Snapshot j /\ status j = st).
Proof.
  split_and!.
  - unfold mem_Create. destruct (s !! id j) eqn:Hj; [done|]. split_and!; [done..|].
    apply mem_get_insert.
  - unfold mem_Update. destruct (s !! id j) eqn:Hj; [|done]. split_and!; [done..|].
    apply mem_get_insert.
  - unfold mem_Delete. by destruct (s !! i) eqn:Hj.
  - eexists. split; [reflexivity|]. intros x. rewrite list_elem_of_In, filter_In, <- list_elem_of_In.
    rewrite list_elem_of_fmap. setoid_rewrite bool_decide_eq_true. split.
    + intros [([k y] & -> & Hin) Hst]. apply elem_of_map_to_list in Hin. by exists k, y.
    + intros (k & y & Hk & -> & Hst). split; [|done]. exists (k, y). split; [done|].
      by apply elem_of_map_to_list.
Qed.

(** ** A concrete manager *)
Module DemoJob.
Import Env DemoBus.
Record jworld := mkW { j_env : env; j_man : Manager value; j_store : InMemoryJobStore value }.
#[export] Instance jw_clock : Clock jworld :=
  fun w => let (t, e) := now (j_env w) in (t, mkW e (j_man w) (j_store w)).
#[export] Instance jw_ids : IdGen jworld :=
  fun w => let (t, e) := fresh_id (j_env w) in (t, mkW e (j_man w) (j_store w)).
#[export] Instance jw_man : Has (Manager value) jworld :=
  { part := j_man; set_part m w := mkW (j_env w) m (j_store w) }.
#[export] Instance jw_man_laws : HasLaws (Manager value) jworld.
Proof. split; intros; try done; by destruct w. Qed.
#[export] Instance jw_store : Has (InMemoryJobStore value) jworld :=
  { part := j_store; set_part s w := mkW (j_env w) (j_man w) s }.

Definition boom : context -> value -> GoM jworld (value * error) :=
  fun _ _ => mret (VNil, Some (ENew "boom")).
Definition job0 : Job value := NewJob 0 "j1" (VCmd "A") [WithMaxRetries 2].
Definition jw0 : jworld :=
  mkW (mkEnv 1 0) (mkManager {[ "j1" := job0 ]} ∅ false []) {[ "j1" := Snapshot job0 ]}.

Lemma update_quiet j : quiet (S := Manager value) (Update (in_memory_store (W := jworld)) j).
Proof. intros w. cbn. rewrite on_part_run. by eexists _, _. Qed.
End DemoJob.
Import DemoBus DemoJob.

(** Submit and execute: the stored job is the final one. *)
Example submit_and_execute :
  let m := j ← Submit in_memory_store Background (VCmd "A") [WithMaxRetries 2];
           match j with
           | Err _ => mret None
           | Ok j => _ ← executeJob in_memory_store boom None 3 (id j) "" "";
                     r ← GetStatus in_memory_store (id j);
                     mret (match r with Ok j => Some (status j, retryCount j, err j) | Err _ => None end)
           end in
  (m (mkW (Env.mkEnv 1 0) (mkManager ∅ ∅ false []) ∅)).1 =
    Done (Some (JobStatusFailed, 2%Z, "boom")).
Proof. vm_compute. reflexivity. Qed.


Lemma cancel_running_sticks_witness :
  status (MarkRunning 1 job0) = JobStatusRunning /\
  status (TryCancel 2 (MarkRunning 1 job0)).1 = JobStatusCancelled.
Proof.
  split; [reflexivity|].
  apply (cancel_running_sticks (Concurrency.mkState (MarkRunning 1 job0) Concurrency.WExecuting)
    (Concurrency.mkState (MarkDone (TryCancel 2 (MarkRunning 1 job0)).1) Concurrency.WExecuting) 2);
    [reflexivity|exact I|constructor].
Defined.

Lemma cancel_before_start_is_lost_witness :
  status job0 = JobStatusPending /\ status (TryCancel 1 job0).1 = JobStatusCancelled.
Proof.
  split; [reflexivity|].
  exact (proj1 (proj2 (cancel_before_start_is_lost job0 1 (VInt 7) (or_introl eq_refl)))).
Defined.
