(* ===== verification/JobShutdown.v ===== *)
(** * The shutdown of the job manager: [src/job/memory/job_manager.go] as a pool of goroutines

    [Job] models each operation of the manager run to its end. Here the same
    operations are cut at their locks and waits and run side by side: the
    goroutines of [executeJob], the calls of [Submit], [Retry] and [Cancel], the
    recovery, and [Shutdown], over the fields of the manager that they share. What the
    store answers to an update changes nothing here but in [Retry], which gives up. *)

From stdpp Require Import gmap relations.
From S2P Require Import Prelude Errors Trace Aspect Bus Job.

(** The goroutine of [executeJob], by the action that it takes next. An attempt
    carries the number of its context; [o] is what the command returned. *)
Inductive go_pc (V : Type) :=
| PTop                                (** the select on [stopCh] *)
| PMark                               (** [MarkRunning] and the first update *)
| PRegister                           (** a new context, its cancel function stored *)
| PExecute (c : nat)                  (** the command runs *)
| PReturned (c : nat) (o : V + string)  (** [cancel()] and the delete *)
| PSettle (o : V + string)            (** [TryFail] or [TryComplete] *)
| PFinal                              (** [MarkDone] *)
| PLeaving                            (** the deferred [wg.Done] *)
| PEnded.
Arguments PTop {V}.
Arguments PMark {V}.
Arguments PRegister {V}.
Arguments PExecute {V} c.
Arguments PReturned {V} c o.
Arguments PSettle {V} o.
Arguments PFinal {V}.
Arguments PLeaving {V}.
Arguments PEnded {V}.

(** A call that starts a goroutine: [Retry] from its wait on, [Submit] and
    [recoverJobs] from [wg.Add] on. *)
Inductive start_pc := StWait | StChecked | StReset | StSave | StReady | StCounted | StGone.

(** A call of [Cancel] on a live job; it has read the cancel function, if any. *)
Inductive cancel_pc := CTry | CTried | CFound (c : option nat) | CSignalled | CReturned.

(** A call of [Shutdown]: how it returned says which of its returns it took. *)
Inductive stop_pc := SEnter | SWaiting | SWaited | SClosed | SDrained | SExpired.

#[export] Instance stop_pc_eq_dec : EqDecision stop_pc.
Proof. solve_decision. Defined.

(** What they share: the jobs behind the pointers, [m.jobs], [m.cancelers] (the
    number of the context that the function cancels), [m.closed] with [stopCh],
    the counter of [m.wg], the contexts cancelled, and the next fresh number. *)
Record shared (V : Type) := mkShared {
  heap : gmap nat (Job V);
  live_jobs : gmap string nat;
  cancel_of : gmap string nat;
  is_closed : bool;
  wg : Z;
  cancelled : gset nat;
  next : nat }.
Arguments mkShared {V} heap live_jobs cancel_of is_closed wg cancelled next.
Arguments heap {V} _.
Arguments live_jobs {V} _.
Arguments cancel_of {V} _.
Arguments is_closed {V} _.
Arguments wg {V} _.
Arguments cancelled {V} _.
Arguments next {V} _.

Section Steps.
Context {V : Type} `{!Dynamic V}.

Definition set_job (p : nat) (j : Job V) (h : shared V) : shared V :=
  mkShared (<[p := j]> (heap h)) (live_jobs h) (cancel_of h) (is_closed h) (wg h) (cancelled h) (next h).
Definition wg_add (d : Z) (h : shared V) : shared V :=
  mkShared (heap h) (live_jobs h) (cancel_of h) (is_closed h) (wg h + d) (cancelled h) (next h).
Definition signal (c : nat) (h : shared V) : shared V :=
  mkShared (heap h) (live_jobs h) (cancel_of h) (is_closed h) (wg h) ({[c]} ∪ cancelled h) (next h).

(** [context.WithTimeout] or [WithCancel], and its function stored under the job's identity. *)
Definition register (i : string) (h : shared V) : shared V :=
  mkShared (heap h) (live_jobs h) (<[i := next h]> (cancel_of h)) (is_closed h) (wg h) (cancelled h)
    (S (next h)).
Definition unregister (i : string) (h : shared V) : shared V :=
  mkShared (heap h) (live_jobs h) (delete i (cancel_of h)) (is_closed h) (wg h) (cancelled h) (next h).

(** A job that enters [m.jobs]: a new object, and the entry of its identity. *)
Definition add_job (j : Job V) (h : shared V) : shared V :=
  mkShared (<[next h := j]> (heap h)) (<[id j := next h]> (live_jobs h)) (cancel_of h) (is_closed h)
    (wg h) (cancelled h) (S (next h)).

(** The critical section of [Shutdown]: every registered cancel function is called. *)
Definition close_all (h : shared V) : shared V :=
  mkShared (heap h) (live_jobs h) ∅ true (wg h) (map_img (cancel_of h) ∪ cancelled h) (next h).

(** One action of the goroutine on the job at [p]. *)
Inductive turn (p : nat) : shared V -> go_pc V -> shared V -> go_pc V -> Prop :=
| turn_stop h : is_closed h = true -> turn p h PTop h PLeaving
| turn_go h : is_closed h = false -> turn p h PTop h PMark
| turn_mark h j now : heap h !! p = Some j -> turn p h PMark (set_job p (MarkRunning now j) h) PRegister
| turn_register h j :
    heap h !! p = Some j -> turn p h PRegister (register (id j) h) (PExecute (next h))
| turn_execute h c o : turn p h (PExecute c) h (PReturned c o)
| turn_cancel h j c o :
    heap h !! p = Some j -> turn p h (PReturned c o) (unregister (id j) (signal c h)) (PSettle o)
| turn_retry h j now msg j' b :
    heap h !! p = Some j -> TryFail now msg j = (j', (b, true)) ->
    turn p h (PSettle (inr msg)) (set_job p j' h) PTop
| turn_fail h j now msg j' b :
    heap h !! p = Some j -> TryFail now msg j = (j', (b, false)) ->
    turn p h (PSettle (inr msg)) (set_job p j' h) PFinal
| turn_complete h j now res :
    heap h !! p = Some j ->
    turn p h (PSettle (inl res)) (set_job p (TryComplete now res j).1 h) PFinal
| turn_done h j : heap h !! p = Some j -> turn p h PFinal (set_job p (MarkDone j) h) PLeaving
| turn_leave h : turn p h PLeaving (wg_add (-1) h) PEnded.

(** One action of a call that starts a goroutine; [true] when it starts it. *)
Inductive start_turn (p : nat) : shared V -> start_pc -> shared V -> start_pc -> bool -> Prop :=
| start_wait h j :
    heap h !! p = Some j -> (Done_chan j).2 = true ->
    start_turn p h StWait (set_job p (Done_chan j).1 h) StChecked false
| start_expired h : start_turn p h StWait h StGone false
| start_reset h j j' :
    heap h !! p = Some j -> ResetForRetry j = (j', None) ->
    start_turn p h StChecked (set_job p j' h) StReset false
| start_refused h j j' e :
    heap h !! p = Some j -> ResetForRetry j = (j', Some e) -> start_turn p h StChecked h StGone false
| start_rearm h j : heap h !! p = Some j -> start_turn p h StReset (set_job p (ResetDone j) h) StSave false
| start_saved h : start_turn p h StSave h StReady false
| start_failed h : start_turn p h StSave h StGone false
| start_add h : start_turn p h StReady (wg_add 1 h) StCounted false
| start_go h : start_turn p h StCounted h StGone true.

(** One action of a call of [Cancel]. *)
Inductive cancel_turn (p : nat) : shared V -> cancel_pc -> shared V -> cancel_pc -> Prop :=
| cancel_try h j now :
    heap h !! p = Some j -> (TryCancel now j).2 = None ->
    cancel_turn p h CTry (set_job p (TryCancel now j).1 h) CTried
| cancel_refused h j now e :
    heap h !! p = Some j -> (TryCancel now j).2 = Some e -> cancel_turn p h CTry h CReturned
| cancel_find h j :
    heap h !! p = Some j -> cancel_turn p h CTried h (CFound (cancel_of h !! id j))
| cancel_call h c : cancel_turn p h (CFound (Some c)) (signal c h) CSignalled
| cancel_none h : cancel_turn p h (CFound None) h CSignalled
| cancel_done h j :
    heap h !! p = Some j -> cancel_turn p h CSignalled (set_job p (MarkDone j) h) CReturned.

(** One action of a call of [Shutdown]. *)
Inductive stop_turn : shared V -> stop_pc -> shared V -> stop_pc -> Prop :=
| stop_again h : is_closed h = true -> stop_turn h SEnter h SClosed
| stop_close h : is_closed h = false -> stop_turn h SEnter (close_all h) SWaiting
| stop_wait h : wg h = 0%Z -> stop_turn h SWaiting h SWaited
| stop_done h : stop_turn h SWaited h SDrained
| stop_expired h p : p = SWaiting \/ p = SWaited -> stop_turn h p h SExpired.

Record pool := mkPool {
  sh : shared V;
  gos : list (nat * go_pc V);
  starts : list (nat * start_pc);
  cancels : list (nat * cancel_pc);
  stops : list stop_pc }.

(** Calls under way and goroutines move on. *)
Inductive istep : pool -> pool -> Prop :=
| step_go h h' gs ss cs ts k p pc pc' :
    gs !! k = Some (p, pc) -> turn p h pc h' pc' ->
    istep (mkPool h gs ss cs ts) (mkPool h' (<[k := (p, pc')]> gs) ss cs ts)
| step_start h h' gs ss cs ts k p pc pc' :
    ss !! k = Some (p, pc) -> start_turn p h pc h' pc' false ->
    istep (mkPool h gs ss cs ts) (mkPool h' gs (<[k := (p, pc')]> ss) cs ts)
| step_spawn h h' gs ss cs ts k p pc pc' :
    ss !! k = Some (p, pc) -> start_turn p h pc h' pc' true ->
    istep (mkPool h gs ss cs ts) (mkPool h' (gs ++ [(p, PTop)]) (<[k := (p, pc')]> ss) cs ts)
| step_cancel h h' gs ss cs ts k p pc pc' :
    cs !! k = Some (p, pc) -> cancel_turn p h pc h' pc' ->
    istep (mkPool h gs ss cs ts) (mkPool h' gs ss (<[k := (p, pc')]> cs) ts)
| step_stop h h' gs ss cs ts k pc pc' :
    ts !! k = Some pc -> stop_turn h pc h' pc' ->
    istep (mkPool h gs ss cs ts) (mkPool h' gs ss cs (<[k := pc']> ts)).

(** New calls arrive. A submitted or recovered job and a stored job that is
    retried are objects of their own. [Retry] looks a stored job up in [m.jobs]
    before it reads the store; by the time it enters the job there another call may have
    done so. *)
Inductive call : pool -> pool -> Prop :=
| call_submit h gs ss cs ts now i cmd opts :
    call (mkPool h gs ss cs ts)
      (mkPool (add_job (NewJob now i cmd opts) h) gs (ss ++ [(next h, StReady)]) cs ts)
| call_recover h gs ss cs ts j :
    status j = JobStatusPending ->
    call (mkPool h gs ss cs ts) (mkPool (add_job j h) gs (ss ++ [(next h, StReady)]) cs ts)
| call_retry h gs ss cs ts i p :
    live_jobs h !! i = Some p -> call (mkPool h gs ss cs ts) (mkPool h gs (ss ++ [(p, StWait)]) cs ts)
| call_retry_stored h gs ss cs ts j j' :
    ResetForRetry j = (j', None) ->
    call (mkPool h gs ss cs ts) (mkPool (add_job (ResetDone j') h) gs (ss ++ [(next h, StReady)]) cs ts)
| call_cancel h gs ss cs ts i p :
    live_jobs h !! i = Some p -> call (mkPool h gs ss cs ts) (mkPool h gs ss (cs ++ [(p, CTry)]) ts)
| call_stop h gs ss cs ts : call (mkPool h gs ss cs ts) (mkPool h gs ss cs (ts ++ [SEnter])).

Definition step (s s' : pool) : Prop := istep s s' \/ call s s'.

(** [NewJobManager]. *)
Definition new_pool : pool := mkPool (mkShared ∅ ∅ ∅ false 0 ∅ 0) [] [] [] [].
End Steps.
Arguments pool : clear implicits.

(** ** Counting *)
Section Counting.
Context {V : Type} `{!Dynamic V}.
Implicit Types (h : shared V) (s : pool V).

Definition busy (g : nat * go_pc V) : bool := match g.2 with PEnded => false | _ => true end.
Definition counted (c : nat * start_pc) : bool := match c.2 with StCounted => true | _ => false end.

(** The wait group counts the goroutines that have not ended and those about to start. *)
Definition wg_counts s : Prop := wg (sh s) = (zcount busy (gos s) + zcount counted (starts s))%Z.

Lemma turn_wg p h pc h' pc' :
  turn p h pc h' pc' -> (wg h' = wg h + Z.b2z (busy (p, pc')) - Z.b2z (busy (p, pc)))%Z.
Proof. intros []; cbn; lia. Qed.

Lemma start_turn_wg p h pc h' pc' b :
  start_turn p h pc h' pc' b ->
  (wg h' = wg h + Z.b2z (counted (p, pc')) - Z.b2z (counted (p, pc)) + Z.b2z b)%Z.
Proof. intros []; cbn; lia. Qed.

Lemma cancel_turn_wg p h pc h' pc' : cancel_turn p h pc h' pc' -> wg h' = wg h.
Proof. by intros []. Qed.

Lemma stop_turn_wg h pc h' pc' : stop_turn h pc h' pc' -> wg h' = wg h.
Proof. by intros []. Qed.

Lemma step_wg_counts s s' : step s s' -> wg_counts s -> wg_counts s'.
Proof.
  unfold wg_counts. intros [Hs|Hs] Hc.
  - destruct Hs as [???????? pc pc' Hk Ht|???????? pc pc' Hk Ht|???????? pc pc' Hk Ht
      |???????? pc pc' Hk Ht|??????? pc pc' Hk Ht]; cbn in *.
    + rewrite (turn_wg _ _ _ _ _ Ht), (zcount_insert _ _ _ _ _ Hk). lia.
    + rewrite (start_turn_wg _ _ _ _ _ _ Ht), (zcount_insert _ _ _ _ _ Hk). cbn. lia.
    + rewrite (start_turn_wg _ _ _ _ _ _ Ht), (zcount_insert _ _ _ _ _ Hk), zcount_snoc. cbn. lia.
    + by rewrite (cancel_turn_wg _ _ _ _ _ Ht).
    + by rewrite (stop_turn_wg _ _ _ _ Ht).
  - destruct Hs; cbn in *; rewrite ?zcount_snoc; cbn; lia.
Qed.

(** ** After the manager is closed *)

(** A goroutine that runs no attempt. *)
Definition idle (g : nat * go_pc V) : Prop :=
  match g.2 with PTop | PLeaving | PEnded => True | _ => False end.

(** Every call of [Shutdown] but a new one has found or made the manager
    closed; once the wait of one is over, no attempt runs. *)
Definition over (c : stop_pc) : Prop := c = SWaited \/ c = SDrained.
Definition stopped_well s : Prop :=
  forall k c, stops s !! k = Some c ->
    (c <> SEnter -> is_closed (sh s) = true) /\ (over c -> Forall idle (gos s)).

Lemma turn_closed p h pc h' pc' : turn p h pc h' pc' -> is_closed h' = is_closed h.
Proof. by intros []. Qed.
Lemma start_turn_closed p h pc h' pc' b : start_turn p h pc h' pc' b -> is_closed h' = is_closed h.
Proof. by intros []. Qed.
Lemma cancel_turn_closed p h pc h' pc' : cancel_turn p h pc h' pc' -> is_closed h' = is_closed h.
Proof. by intros []. Qed.
Lemma stop_turn_closed h pc h' pc' :
  stop_turn h pc h' pc' -> is_closed h = true -> is_closed h' = true.
Proof. by intros []. Qed.

Lemma stop_turn_closes h pc h' pc' :
  stop_turn h pc h' pc' -> (pc <> SEnter -> is_closed h = true) -> is_closed h' = true.
Proof. intros [| | | |h0 p [-> | ->]] Hpc; cbn; auto. Qed.
Lemma stop_turn_over h pc h' pc' : stop_turn h pc h' pc' -> over pc' -> wg h = 0%Z \/ over pc.
Proof. unfold over. intros [] [Ho|Ho]; try discriminate Ho; auto. Qed.

Lemma turn_idle p h pc h' pc' :
  turn p h pc h' pc' -> is_closed h = true -> idle (p, pc) -> idle (p, pc').
Proof. intros [] Hc Hi; cbn in *; try done. congruence. Qed.

Lemma pool_closed s s' : step s s' -> is_closed (sh s) = true -> is_closed (sh s') = true.
Proof.
  intros [[???????? pc pc' Hk Ht|???????? pc pc' Hk Ht|???????? pc pc' Hk Ht
    |???????? pc pc' Hk Ht|??????? pc pc' Hk Ht]|[]] Hc; cbn in *; try done.
  - by rewrite (turn_closed _ _ _ _ _ Ht).
  - by rewrite (start_turn_closed _ _ _ _ _ _ Ht).
  - by rewrite (start_turn_closed _ _ _ _ _ _ Ht).
  - by rewrite (cancel_turn_closed _ _ _ _ _ Ht).
  - by apply (stop_turn_closed _ _ _ _ Ht).
Qed.

(** On a closed manager an idle goroutine stays idle, and a new one is idle. *)
Lemma step_idle s s' :
  step s s' -> is_closed (sh s) = true -> forall m g', gos s' !! m = Some g' ->
  (forall g, gos s !! m = Some g -> idle g) -> idle g'.
Proof.
  intros [[h h' gs ss cs ts n p pc pc' Hk Ht|???????? pc pc' Hk Ht|h h' gs ss cs ts n p pc pc' Hk Ht
    |???????? pc pc' Hk Ht|??????? pc pc' Hk Ht]|[]] Hc m g' Hg' Hg; cbn in *; eauto.
  - destruct (decide (m = n)) as [->|].
    + rewrite list_lookup_insert_eq in Hg' by (by eapply lookup_lt_Some). injection Hg' as <-.
      eapply turn_idle; eauto.
    + rewrite list_lookup_insert_ne in Hg' by done. eauto.
  - apply lookup_app_Some in Hg' as [Hg'|[_ Hg']]; [eauto|].
    apply list_lookup_singleton_Some in Hg' as [_ <-]. done.
Qed.
Lemma step_all_idle s s' :
  step s s' -> is_closed (sh s) = true -> Forall idle (gos s) -> Forall idle (gos s').
Proof.
  intros Hs Hc Hall. apply Forall_lookup. intros k g Hk.
  eapply step_idle; eauto. intros g0. by apply (proj1 (Forall_lookup _ _) Hall).
Qed.

Lemma all_ended s : wg_counts s -> wg (sh s) = 0%Z -> Forall idle (gos s).
Proof.
  unfold wg_counts. intros Hc H0.
  pose proof (zcount_nonneg busy (gos s)). pose proof (zcount_nonneg counted (starts s)).
  assert (zcount busy (gos s) = 0%Z) as Hb by lia. apply zcount_zero in Hb.
  eapply Forall_impl; [exact Hb|]. by intros [p []].
Qed.

(** Where a call of [Shutdown] of the next state comes from. *)
Lemma step_stops s s' k c :
  step s s' -> stops s' !! k = Some c ->
  stops s !! k = Some c \/ c = SEnter \/
  (gos s' = gos s /\ exists c0, stops s !! k = Some c0 /\ stop_turn (sh s) c0 (sh s') c).
Proof.
  intros [[| | | |h h' gs ss cs ts n pc pc' Hk Ht]|[]] Hl; cbn in *; auto.
  - destruct (decide (k = n)) as [->|].
    + rewrite list_lookup_insert_eq in Hl by (by eapply lookup_lt_Some). injection Hl as <-. eauto 6.
    + rewrite list_lookup_insert_ne in Hl by done. auto.
  - apply lookup_app_Some in Hl as [Hl|[_ Hl]]; [by auto|].
    apply list_lookup_singleton_Some in Hl as [_ <-]. auto.
Qed.

Lemma step_stopped_well s s' : step s s' -> wg_counts s -> stopped_well s -> stopped_well s'.
Proof.
  intros Hs Hw Hi k c Hk.
  destruct (step_stops _ _ _ _ Hs Hk) as [Hk0|[->|(Hg & c0 & Hk0 & Ht)]].
  - destruct (Hi _ _ Hk0) as [Hc Hd]. split; [eauto using pool_closed|].
    intros Ho. eapply step_all_idle; [done| |by auto]. apply Hc. by destruct Ho as [-> | ->].
  - split; [done|]. by intros [|].
  - destruct (Hi _ _ Hk0) as [Hc Hd]. rewrite Hg. split.
    + intros _. by apply (stop_turn_closes _ _ _ _ Ht).
    + intros Ho. destruct (stop_turn_over _ _ _ _ Ht Ho); [by apply all_ended|auto].
Qed.

Definition invariant s : Prop := wg_counts s /\ stopped_well s.

Lemma reachable_invariant s : rtc step new_pool s -> invariant s.
Proof.
  assert (invariant new_pool) as H0.
  { split; [done|]. intros k c Hk. cbn in Hk. by destruct k. }
  revert H0. generalize (new_pool (V := V)).
  intros s0 H0 Hr. induction Hr as [|s0 s1 s2 Hs Hr IH]; [done|].
  apply IH. destruct H0. split; eauto using step_wg_counts, step_stopped_well.
Qed.

Lemma reachable_closed s s' : rtc step s s' -> is_closed (sh s) = true -> is_closed (sh s') = true.
Proof. intros Hr. induction Hr; eauto using pool_closed. Qed.

Lemma reachable_idle s s' k g' :
  rtc step s s' -> is_closed (sh s) = true -> gos s' !! k = Some g' ->
  (forall g, gos s !! k = Some g -> idle g) -> idle g'.
Proof.
  intros Hr. induction Hr as [s|s s1 s2 Hs Hr IH]; intros Hc Hg Hi; [by auto|].
  apply IH; [by eapply pool_closed|done|]. intros g1 Hg1. eapply step_idle; eauto.
Qed.
End Counting.

(** ** Pointers *)
Section Pointers.
Context {V : Type} `{!Dynamic V}.
Implicit Types (h : shared V) (s : pool V).

Definition allocated h (p : nat) : Prop := is_Some (heap h !! p).

(** Objects stay, and [m.jobs] is as before. *)
Definition extends h h' : Prop :=
  (forall p, allocated h p -> allocated h' p) /\ live_jobs h' = live_jobs h.

Lemma extends_refl h : extends h h.
Proof. done. Qed.
Lemma extends_set_job p j h : extends h (set_job p j h).
Proof.
  split; [|done]. intros q Hq. unfold allocated. cbn.
  destruct (decide (q = p)) as [->|]; [by rewrite lookup_insert_eq|by rewrite lookup_insert_ne].
Qed.
Hint Resolve extends_refl extends_set_job : core.

Lemma turn_extends p h pc h' pc' : turn p h pc h' pc' -> extends h h'.
Proof. intros []; auto; done. Qed.
Lemma start_turn_extends p h pc h' pc' b : start_turn p h pc h' pc' b -> extends h h'.
Proof. intros []; auto; done. Qed.
Lemma cancel_turn_extends p h pc h' pc' : cancel_turn p h pc h' pc' -> extends h h'.
Proof. intros []; auto; done. Qed.
Lemma stop_turn_extends h pc h' pc' : stop_turn h pc h' pc' -> extends h h'.
Proof. intros []; auto; done. Qed.

Definition all_allocated {A} h (l : list (nat * A)) : Prop := Forall (fun x => allocated h x.1) l.

Definition well_pointed s : Prop :=
  map_Forall (fun _ p => allocated (sh s) p) (live_jobs (sh s)) /\
  all_allocated (sh s) (gos s) /\ all_allocated (sh s) (starts s) /\ all_allocated (sh s) (cancels s).

Lemma all_allocated_mono {A} h h' (l : list (nat * A)) :
  (forall p, allocated h p -> allocated h' p) -> all_allocated h l -> all_allocated h' l.
Proof. intros He Hl. eapply Forall_impl; [exact Hl|]. auto. Qed.

Lemma all_allocated_insert {A} h (l : list (nat * A)) k p a a' :
  l !! k = Some (p, a) -> all_allocated h l -> all_allocated h (<[k := (p, a')]> l).
Proof. intros Hk Hl. apply Forall_insert; [done|]. cbn. by apply (Forall_lookup_1 _ _ _ _ Hl Hk). Qed.

Lemma all_allocated_snoc {A} h (l : list (nat * A)) p a :
  all_allocated h l -> allocated h p -> all_allocated h (l ++ [(p, a)]).
Proof. intros Hl Hp. apply Forall_app. auto. Qed.

Lemma extends_pointed h h' gs ss cs ts :
  extends h h' -> well_pointed (mkPool h gs ss cs ts) -> well_pointed (mkPool h' gs ss cs ts).
Proof.
  intros [He Hj] (Hm & Hg & Hs & Hc). unfold well_pointed. cbn in *. rewrite Hj.
  split_and!; eauto using all_allocated_mono. intros i p Hi. apply He. by apply (Hm i).
Qed.

Lemma add_job_pointed j h gs ss cs ts :
  well_pointed (mkPool h gs ss cs ts) ->
  well_pointed (mkPool (add_job j h) gs (ss ++ [(next h, StReady)]) cs ts).
Proof.
  assert (forall p, allocated h p -> allocated (add_job j h) p) as He.
  { intros p Hp. unfold allocated. cbn. apply lookup_insert_is_Some. destruct (decide (next h = p)); auto. }
  assert (allocated (add_job j h) (next h)) as Hn by (unfold allocated; cbn; by rewrite lookup_insert_eq).
  intros (Hm & Hg & Hs & Hc). unfold well_pointed. cbn in *.
  split_and!; eauto using all_allocated_mono, all_allocated_snoc.
  intros i p Hi. apply lookup_insert_Some in Hi as [[_ <-]|[_ Hi]]; [done|]. apply He. by apply (Hm i).
Qed.

Lemma step_pointed s s' : step s s' -> well_pointed s -> well_pointed s'.
Proof.
  intros [[h h' gs ss cs ts k p pc pc' Hk Ht|h h' gs ss cs ts k p pc pc' Hk Ht
    |h h' gs ss cs ts k p pc pc' Hk Ht|h h' gs ss cs ts k p pc pc' Hk Ht
    |h h' gs ss cs ts k pc pc' Hk Ht]|[]] Hp; eauto using add_job_pointed.
  - eapply extends_pointed in Hp as (Hm & Hg & Hs & Hc); [|by eapply turn_extends].
    split_and!; cbn in *; eauto using all_allocated_insert.
  - eapply extends_pointed in Hp as (Hm & Hg & Hs & Hc); [|by eapply start_turn_extends].
    split_and!; cbn in *; eauto using all_allocated_insert.
  - eapply extends_pointed in Hp as (Hm & Hg & Hs & Hc); [|by eapply start_turn_extends].
    split_and!; cbn in *; eauto using all_allocated_insert.
    apply all_allocated_snoc; [done|]. exact (Forall_lookup_1 _ _ _ _ Hs Hk).
  - eapply extends_pointed in Hp as (Hm & Hg & Hs & Hc); [|by eapply cancel_turn_extends].
    split_and!; cbn in *; eauto using all_allocated_insert.
  - eapply extends_pointed in Hp as (Hm & Hg & Hs & Hc); [|by eapply stop_turn_extends].
    by split_and!.
  - destruct Hp as (Hm & Hg & Hs & Hc). split_and!; cbn in *; auto.
    apply all_allocated_snoc; [done|]. by eapply Hm.
  - destruct Hp as (Hm & Hg & Hs & Hc). split_and!; cbn in *; auto.
    apply all_allocated_snoc; [done|]. by eapply Hm.
Qed.

Lemma reachable_pointed s : rtc step new_pool s -> well_pointed s.
Proof.
  assert (well_pointed (new_pool (V := V))) as H0.
  { split_and!; try apply Forall_nil_2. apply map_Forall_empty. }
  revert H0. generalize (new_pool (V := V)). intros s0 H0 Hr.
  induction Hr; eauto using step_pointed.
Qed.
End Pointers.

(** ** The work that a closed manager has left *)
Section Work.
Context {V : Type} `{!Dynamic V}.
Implicit Types (h : shared V) (s : pool V).

(** How many actions are left at most. *)
Definition go_work (pc : go_pc V) : Z :=
  match pc with
  | PEnded => 0 | PLeaving => 1 | PFinal | PTop => 2 | PSettle _ => 3 | PReturned _ _ => 4
  | PExecute _ => 5 | PRegister => 6 | PMark => 7
  end.
Definition start_work (pc : start_pc) : Z :=
  match pc with
  | StGone => 0 | StCounted => 3 | StReady => 4 | StSave => 5 | StReset => 6 | StChecked => 7 | StWait => 8
  end.
Definition cancel_work (pc : cancel_pc) : Z :=
  match pc with CReturned => 0 | CSignalled => 1 | CFound _ => 2 | CTried => 3 | CTry => 4 end.
Definition stop_work (pc : stop_pc) : Z :=
  match pc with SEnter => 3 | SWaiting => 2 | SWaited => 1 | _ => 0 end.

Definition work s : Z :=
  zsum (fun g => go_work g.2) (gos s) + zsum (fun c => start_work c.2) (starts s) +
  zsum (fun c => cancel_work c.2) (cancels s) + zsum stop_work (stops s).

Lemma work_nonneg s : (0 <= work s)%Z.
Proof.
  unfold work.
  pose proof (zsum_nonneg (fun g => go_work g.2) (gos s) ltac:(by intros [? []])).
  pose proof (zsum_nonneg (fun c => start_work c.2) (starts s) ltac:(by intros [? []])).
  pose proof (zsum_nonneg (fun c => cancel_work c.2) (cancels s) ltac:(by intros [? []])).
  pose proof (zsum_nonneg stop_work (stops s) ltac:(by intros [])). lia.
Qed.

Lemma zsum_snoc {A} (f : A -> Z) l x : zsum f (l ++ [x]) = (zsum f l + f x)%Z.
Proof. unfold zsum. induction l as [|y l IH]; cbn in *; lia. Qed.

Lemma zsum_bound {A} (f : A -> Z) (b : Z) l : (forall x, f x <= b)%Z -> (zsum f l <= b * zlen l)%Z.
Proof.
  intros Hf. unfold zsum. induction l as [|x l IH]; [unfold zlen; cbn; lia|].
  rewrite zlen_cons, Z.mul_add_distr_l. cbn [foldr]. pose proof (Hf x). lia.
Qed.

Lemma work_bound s :
  (work s <= 7 * zlen (gos s) + 8 * zlen (starts s) + 4 * zlen (cancels s) + 3 * zlen (stops s))%Z.
Proof.
  unfold work.
  pose proof (zsum_bound (fun g => go_work g.2) 7 (gos s) ltac:(by intros [? []])).
  pose proof (zsum_bound (fun c => start_work c.2) 8 (starts s) ltac:(by intros [? []])).
  pose proof (zsum_bound (fun c => cancel_work c.2) 4 (cancels s) ltac:(by intros [? []])).
  pose proof (zsum_bound stop_work 3 (stops s) ltac:(by intros [])). lia.
Qed.

Lemma turn_work p h pc h' pc' :
  turn p h pc h' pc' -> is_closed h = true -> (go_work pc' <= go_work pc - 1)%Z.
Proof. intros [] Hc; cbn in *; try lia. congruence. Qed.
Lemma start_turn_work p h pc h' pc' b :
  start_turn p h pc h' pc' b ->
  (start_work pc' + (if b then go_work PTop else 0) <= start_work pc - 1)%Z.
Proof. intros []; cbn; lia. Qed.
Lemma cancel_turn_work p h pc h' pc' :
  cancel_turn p h pc h' pc' -> (cancel_work pc' <= cancel_work pc - 1)%Z.
Proof. intros []; cbn; lia. Qed.
Lemma stop_turn_work h pc h' pc' : stop_turn h pc h' pc' -> (stop_work pc' <= stop_work pc - 1)%Z.
Proof. intros [| | | |h0 p [-> | ->]]; cbn; lia. Qed.

Lemma istep_work s s' : istep s s' -> is_closed (sh s) = true -> (work s' <= work s - 1)%Z.
Proof.
  unfold work. intros [h h' gs ss cs ts k p pc pc' Hk Ht|h h' gs ss cs ts k p pc pc' Hk Ht
    |h h' gs ss cs ts k p pc pc' Hk Ht|h h' gs ss cs ts k p pc pc' Hk Ht
    |h h' gs ss cs ts k pc pc' Hk Ht] Hc; cbn [sh gos starts cancels stops] in *;
    rewrite ?zsum_snoc, (zsum_insert _ _ _ _ _ Hk); cbn [snd].
  - pose proof (turn_work _ _ _ _ _ Ht Hc). lia.
  - pose proof (start_turn_work _ _ _ _ _ _ Ht) as Hw. cbn iota in Hw. lia.
  - pose proof (start_turn_work _ _ _ _ _ _ Ht) as Hw. cbn iota in Hw. lia.
  - pose proof (cancel_turn_work _ _ _ _ _ Ht). lia.
  - pose proof (stop_turn_work _ _ _ _ Ht). lia.
Qed.

Lemma run_work n s s' :
  nsteps istep n s s' -> is_closed (sh s) = true -> (Z.of_nat n + work s' <= work s)%Z.
Proof.
  intros Hr. induction Hr as [s|n s s1 s' Hs Hr IH]; intros Hc; [lia|].
  pose proof (istep_work _ _ Hs Hc). specialize (IH (pool_closed _ _ (or_introl Hs) Hc)). lia.
Qed.

(** ** Progress *)

Lemma turn_progress p h pc : allocated h p -> busy (p, pc) = true -> exists h' pc', turn p h pc h' pc'.
Proof.
  intros [j Hj] Hb. destruct pc as [| | |c|c o|o| | |]; [| | | | | | | |done].
  - destruct (is_closed h) eqn:Hc; eexists _, _; [by apply turn_stop|by apply turn_go].
  - eexists _, _. by apply (turn_mark _ _ _ 0 Hj).
  - eexists _, _. by eapply turn_register.
  - eexists _, _. by apply (turn_execute _ _ _ (inr "")).
  - eexists _, _. by eapply turn_cancel.
  - destruct o as [res|msg].
    + eexists _, _. by apply (turn_complete _ _ _ 0 res Hj).
    + destruct (TryFail 0 msg j) as [j' [b []]] eqn:Ht; eexists _, _;
        [by eapply turn_retry|by eapply turn_fail].
  - eexists _, _. by eapply turn_done.
  - eexists _, _. apply turn_leave.
Qed.

Lemma start_turn_progress p h pc :
  allocated h p -> pc <> StGone -> exists h' pc' b, start_turn p h pc h' pc' b.
Proof.
  intros [j Hj] Hp. destruct pc; [| | | | | |done].
  - eexists _, _, _. apply start_expired.
  - destruct (ResetForRetry j) as [j' [e|]] eqn:Hr; eexists _, _, _;
      [by eapply start_refused|by eapply start_reset].
  - eexists _, _, _. by eapply start_rearm.
  - eexists _, _, _. apply start_saved.
  - eexists _, _, _. apply start_add.
  - eexists _, _, _. apply start_go.
Qed.

Lemma cancel_turn_progress p h pc :
  allocated h p -> pc <> CReturned -> exists h' pc', cancel_turn p h pc h' pc'.
Proof.
  intros [j Hj] Hp. destruct pc as [| |[c|]| |]; [| | | | |done].
  - destruct (TryCancel 0 j).2 as [e|] eqn:Hc; eexists _, _;
      [by eapply cancel_refused|by eapply cancel_try].
  - eexists _, _. by eapply cancel_find.
  - eexists _, _. apply cancel_call.
  - eexists _, _. apply cancel_none.
  - eexists _, _. by eapply cancel_done.
Qed.

Definition stop_returned (c : stop_pc) : Prop := c = SClosed \/ c = SDrained \/ c = SExpired.

Lemma stop_turn_progress h pc : ~ stop_returned pc -> exists h' pc', stop_turn h pc h' pc'.
Proof.
  intros Hp. destruct pc; try (exfalso; apply Hp; unfold stop_returned; tauto).
  - destruct (is_closed h) eqn:Hc; eexists _, _; [by apply stop_again|by apply stop_close].
  - eexists _, _. by apply stop_expired; left.
  - eexists _, _. apply stop_done.
Qed.

(** Every goroutine and every call has come to its end. *)
Definition finished s : Prop :=
  Forall (fun g => busy g = false) (gos s) /\ Forall (fun c => c.2 = StGone) (starts s) /\
  Forall (fun c => c.2 = CReturned) (cancels s) /\ Forall stop_returned (stops s).

Lemma progress s : well_pointed s -> (forall s', ~ istep s s') -> finished s.
Proof.
  destruct s as [h gs ss cs ts]. intros (_ & Hg & Hs & Hc) Hno.
  split_and!; cbn in *; apply Forall_lookup.
  - intros k [p pc] Hk. destruct (busy (p, pc)) eqn:Hb; [|done]. exfalso.
    destruct (turn_progress p h pc (Forall_lookup_1 _ _ _ _ Hg Hk) Hb) as (h' & pc' & Ht).
    eapply Hno. by eapply step_go.
  - intros k [p pc] Hk. cbn. destruct pc; try done; exfalso;
      (edestruct (start_turn_progress p h) as (h' & pc' & [] & Ht);
       [exact (Forall_lookup_1 _ _ _ _ Hs Hk)| |eapply Hno; by eapply step_spawn
       |eapply Hno; by eapply step_start]; done).
  - intros k [p pc] Hk. cbn. destruct pc; try done; exfalso;
      (edestruct (cancel_turn_progress p h) as (h' & pc' & Ht);
       [exact (Forall_lookup_1 _ _ _ _ Hc Hk)| |eapply Hno; by eapply step_cancel]; done).
  - intros k pc Hk. destruct (decide (pc = SClosed \/ pc = SDrained \/ pc = SExpired)) as [|Hn]; [done|].
    exfalso. destruct (stop_turn_progress h pc Hn) as (h' & pc' & Ht).
    eapply Hno. by eapply step_stop.
Qed.

Lemma finished_wg s : wg_counts s -> finished s -> wg (sh s) = 0%Z.
Proof.
  unfold wg_counts. intros -> (Hg & Hs & _).
  apply zcount_zero in Hg. rewrite Hg. cut (zcount counted (starts s) = 0%Z); [lia|].
  apply zcount_zero. eapply Forall_impl; [exact Hs|]. intros [p pc] Hpc. cbn in Hpc. by subst pc.
Qed.
End Work.

(** ** Properties *)

(** C8: The shutdown of the job manager drains it. In every run of submissions, retries, cancellations,
    recovered jobs, goroutines and shutdowns the wait group counts the goroutines that have not ended and those
    about to start. Once the manager is closed, a goroutine that is between attempts never begins another one,
    and a goroutine started later begins none. And once the wait of a shutdown is over, no attempt of any job
    runs, then or ever after, also none of a job that is submitted or retried after it. *)
Theorem job_shutdown_drains {V} `{!Dynamic V} (s : pool V) :
  rtc step new_pool s ->
  wg (sh s) = (zcount busy (gos s) + zcount counted (starts s))%Z /\
  (is_closed (sh s) = true -> forall s' k g', rtc step s s' -> gos s' !! k = Some g' ->
     (forall g, gos s !! k = Some g -> idle g) -> idle g') /\
  (forall c s', c ∈ stops s -> over c -> rtc step s s' -> Forall idle (gos s')).
Proof.
  intros Hr. destruct (reachable_invariant _ Hr) as [Hw Hi]. split; [exact Hw|]. split.
  - intros Hc s' k g' Hr'. by apply (reachable_idle s).
  - intros c s' Hc Ho Hr'. apply list_elem_of_lookup in Hc as [k Hk].
    destruct (Hi _ _ Hk) as [Hcl Hall]. specialize (Hall Ho).
    assert (is_closed (sh s) = true) as Hcl' by (apply Hcl; by destruct Ho as [-> | ->]).
    apply Forall_lookup. intros n g' Hg'. eapply (reachable_idle s s'); [done..|].
    intros g Hg. by apply (Forall_lookup_1 _ _ _ _ Hall Hg).
Qed.

(** C9: A closed manager comes to rest, provided that every command returns and that a retry's wait for its job ends
    at the latest with its context: without new calls, whatever the order of the goroutines and of the calls under way, at most [work s] more actions are possible (seven for a
    goroutine, which thus ends the attempt that it is in and begins no other, eight for a retry, four for a
    cancellation, three for a shutdown); and where no action is possible, every goroutine has ended, every call
    has returned and the wait group is at zero. *)
Theorem job_shutdown_ends {V} `{!Dynamic V} (s : pool V) :
  rtc step new_pool s -> is_closed (sh s) = true ->
  (work s <= 7 * zlen (gos s) + 8 * zlen (starts s) + 4 * zlen (cancels s) + 3 * zlen (stops s))%Z /\
  forall n s', nsteps istep n s s' ->
    (Z.of_nat n <= work s)%Z /\
    ((forall s'', ~ istep s' s'') -> finished s' /\ wg (sh s') = 0%Z).
Proof.
  intros Hr Hc. split; [apply work_bound|]. intros n s' Hn. split.
  - pose proof (run_work _ _ _ Hn Hc). pose proof (work_nonneg s'). lia.
  - intros Hstuck.
    assert (rtc step new_pool s') as Hr'.
    { transitivity s; [done|]. apply (rtc_subrel istep); [by left|]. apply rtc_nsteps. eauto. }
    pose proof (progress _ (reachable_pointed _ Hr') Hstuck) as Hf.
    split; [done|]. apply finished_wg; [|done]. by apply reachable_invariant.
Qed.

(** ** Runs that the manager allows

    The goroutine of the [k]th start, and so on: one action, its parameters computed. *)
Tactic Notation "run_call" uconstr(c) := eapply rtc_l; [right; eapply c; reflexivity || idtac|cbn].
Tactic Notation "run_go" constr(k) uconstr(t) := eapply rtc_l; [left; eapply (step_go _ _ _ _ _ _ k); [reflexivity|eapply t; reflexivity]|cbn].
Tactic Notation "run_start" constr(k) uconstr(t) :=
  eapply rtc_l; [left; eapply (step_start _ _ _ _ _ _ k); [reflexivity|eapply t; reflexivity]|cbn].
Tactic Notation "run_spawn" constr(k) :=
  eapply rtc_l; [left; eapply (step_spawn _ _ _ _ _ _ k); [reflexivity|eapply start_go]|cbn].
Tactic Notation "run_cancel" constr(k) uconstr(t) :=
  eapply rtc_l; [left; eapply (step_cancel _ _ _ _ _ _ k); [reflexivity|eapply t; reflexivity]|cbn].
Tactic Notation "run_stop" constr(k) uconstr(t) :=
  eapply rtc_l; [left; eapply (step_stop _ _ _ _ _ _ k); [reflexivity|eapply t; reflexivity]|cbn].

Section Runs.
Context {V : Type} `{!Dynamic V} (cmd : V).

(** [Shutdown] cancels only the attempts that are registered: one that has passed the check of [stopCh] and
    registers its cancel function after the loop of [Shutdown] runs on with a live context while [Shutdown] waits
    for it; a second [Shutdown] returns nil although it runs. *)
Theorem shutdown_misses_attempt :
  exists s p c, rtc (step (V := V)) new_pool s /\
    gos s = [(p, PExecute c)] /\ ~ (c ∈ cancelled (sh s)) /\ stops s = [SWaiting; SClosed].
Proof.
  eexists _, _, _. split.
  - run_call (call_submit (mkShared ∅ ∅ ∅ false 0 ∅ 0) [] [] [] [] 0 "j1" cmd [WithMaxRetries 1]).
    run_start 0%nat start_add. run_spawn 0%nat.
    run_go 0%nat turn_go. run_go 0%nat (turn_mark 0 _ _ 1).
    run_call call_stop. run_stop 0%nat stop_close.
    run_go 0%nat turn_register.
    run_call call_stop. run_stop 1%nat stop_again. apply rtc_refl.
  - cbn. split; [reflexivity|]. split; [set_solver|reflexivity].
Qed.

(** [Submit] does not ask whether the manager is closed: a job submitted after [Shutdown] has drained it is
    accepted, its goroutine leaves at once, and the job stays pending with its channel open and nothing left to
    run, so that [Wait] on it ends only by its timeout. *)
Theorem submit_after_shutdown_pending :
  exists s p j, rtc (step (V := V)) new_pool s /\
    finished s /\ stops s = [SDrained] /\ gos s = [(p, PEnded)] /\ heap (sh s) !! p = Some j /\
    status j = JobStatusPending /\ (Done_chan j).2 = false.
Proof.
  eexists _, 0%nat, (NewJob 0 "j1" cmd []). split.
  - run_call call_stop. run_stop 0%nat stop_close. run_stop 0%nat stop_wait. run_stop 0%nat stop_done.
    run_call (call_submit _ _ _ _ _ 0 "j1" cmd []).
    run_start 0%nat start_add. run_spawn 0%nat. run_go 0%nat turn_stop. run_go 0%nat turn_leave.
    apply rtc_refl.
  - split; [|done]. unfold finished, stop_returned. cbn. split_and!; repeat constructor; tauto.
Qed.

(** Two attempts of one job can run at once. A [Cancel] that arrives before [MarkRunning] is overwritten but
    leaves the channel closed; if the attempt then fails with a retry left, [Retry] finds the channel closed and
    the status failed while the first goroutine is about to go on, and starts a second one. Only one of the two
    has a cancel function stored. *)
Theorem job_runs_twice :
  exists s p c c', rtc (step (V := V)) new_pool s /\
    gos s = [(p, PExecute c); (p, PExecute c')] /\ c <> c' /\ cancel_of (sh s) = {[ "j1" := c' ]}.
Proof.
  eexists _, 0%nat, 2%nat, 3%nat. split.
  - run_call (call_submit (mkShared ∅ ∅ ∅ false 0 ∅ 0) [] [] [] [] 0 "j1" cmd [WithMaxRetries 1]).
    run_start 0%nat start_add. run_spawn 0%nat. run_go 0%nat turn_go.
    run_call (call_cancel _ _ _ _ _ "j1" 0).
    run_cancel 0%nat (cancel_try _ _ _ 1). run_cancel 0%nat cancel_find. run_cancel 0%nat cancel_none.
    run_cancel 0%nat cancel_done.
    run_go 0%nat (turn_mark _ _ _ 2). run_go 0%nat turn_register. run_go 0%nat (turn_execute _ _ _ (inr "boom")).
    run_go 0%nat turn_cancel. run_go 0%nat (turn_retry _ _ _ 3 "boom").
    run_call (call_retry _ _ _ _ _ "j1" 0).
    run_start 1%nat start_wait. run_start 1%nat start_reset. run_start 1%nat start_rearm.
    run_start 1%nat start_saved. run_start 1%nat start_add. run_spawn 1%nat.
    run_go 0%nat turn_go. run_go 0%nat (turn_mark _ _ _ 4). run_go 0%nat turn_register.
    run_go 1%nat turn_go. run_go 1%nat (turn_mark _ _ _ 4). run_go 1%nat turn_register.
    apply rtc_refl.
  - split; [reflexivity|]. split; [done|]. vm_compute. reflexivity.
Qed.

(** A manager that recovers can execute a job twice: [recoverJobs] lists the stored pending jobs while the
    program already submits, and the job that [Submit] has just stored is one of them. *)
Theorem recovery_runs_submitted :
  exists s p q j j', rtc (step (V := V)) new_pool s /\
    gos s = [(p, PMark); (q, PMark)] /\ p <> q /\
    heap (sh s) !! p = Some j /\ heap (sh s) !! q = Some j' /\ id j = id j' /\
    (mem_List JobStatusPending (mem_Create j NewJobStore).2).1 = Ok [j'].
Proof.
  eexists _, 0%nat, 1%nat, (NewJob 0 "j1" cmd []), (Snapshot (Snapshot (NewJob 0 "j1" cmd []))). split.
  - run_call (call_submit (mkShared ∅ ∅ ∅ false 0 ∅ 0) [] [] [] [] 0 "j1" cmd []).
    run_call (call_recover _ _ _ _ _ (Snapshot (Snapshot (NewJob 0 "j1" cmd [])))).
    run_start 0%nat start_add. run_spawn 0%nat. run_start 1%nat start_add. run_spawn 1%nat.
    run_go 0%nat turn_go. run_go 1%nat turn_go. apply rtc_refl.
  - split; [reflexivity|]. split; [done|]. split_and!; vm_compute; reflexivity.
Qed.
End Runs.

(** ** Witnesses *)
Import DemoBus.

(** One submitted job, executing, and a shutdown that has closed the manager. *)
Definition closing : pool value :=
  mkPool (mkShared {[ 0%nat := MarkRunning 1 (NewJob 0 "j1" (VCmd "A") []) ]} {[ "j1" := 0%nat ]} ∅ true 1 {[ 1%nat ]} 2)
    [(0%nat, PExecute 1)] [(0%nat, StGone)] [] [SWaiting].

Lemma closing_reachable : rtc step new_pool closing.
Proof.
  run_call (call_submit (mkShared ∅ ∅ ∅ false 0 ∅ 0) [] [] [] [] 0 "j1" (VCmd "A") []).
  run_start 0%nat start_add. run_spawn 0%nat.
  run_go 0%nat turn_go. run_go 0%nat (turn_mark _ _ _ 1). run_go 0%nat turn_register.
  run_call call_stop. run_stop 0%nat stop_close. vm_compute. apply rtc_refl.
Qed.

Lemma job_shutdown_drains_witness :
  rtc step new_pool closing /\
  wg (sh closing) = (zcount busy (gos closing) + zcount counted (starts closing))%Z /\
  (is_closed (sh closing) = true -> forall s' k g', rtc step closing s' -> gos s' !! k = Some g' ->
     (forall g, gos closing !! k = Some g -> idle g) -> idle g') /\
  (forall c s', c ∈ stops closing -> over c -> rtc step closing s' -> Forall idle (gos s')).
Proof. split; [exact closing_reachable|]. exact (job_shutdown_drains closing closing_reachable). Defined.

Lemma job_shutdown_ends_witness :
  work closing = 7%Z /\
  (work closing <= 7 * zlen (gos closing) + 8 * zlen (starts closing) + 4 * zlen (cancels closing) +
     3 * zlen (stops closing))%Z /\
  forall n s', nsteps istep n closing s' ->
    (Z.of_nat n <= work closing)%Z /\
    ((forall s'', ~ istep s' s'') -> finished s' /\ wg (sh s') = 0%Z).
Proof.
  split; [reflexivity|]. exact (job_shutdown_ends closing closing_reachable eq_refl).
Defined.

