(* ===== verification/Builtin.v ===== *)
(** * The built-in aspects: [src/aspect/builtin], and the in-memory transaction
    manager of [src/infra/memory_backend.go]

    The interfaces [Logger], [MetricsRecorder], [TraceStore], [MessageStore] and
    [TransactionManager] are records of world-passing operations; a Go aspect
    that implements three aspect interfaces gives three [Aspect]s. *)

From S2P Require Import Prelude Errors Trace Aggregate Aspect Bus.

Section Interfaces.
Context (W : Type).

(** The arguments of a log call. *)
Inductive attr := AStr (key value : string) | AErr (key : string) (e : goerr)
                | ADur (key : string) (d : Z).
Record Logger := mkLogger {
  log_Info : string -> list attr -> GoM W unit;
  log_Error : string -> list attr -> GoM W unit;
  log_Debug : string -> list attr -> GoM W unit }.

Record MetricsRecorder := mkRecorder {
  RecordDuration : string -> Z -> GoM W unit;
  RecordError : string -> goerr -> GoM W unit }.

Record TraceStore := mkTraceStore { store_RecordSpan : context -> Span -> GoM W error }.

Record TransactionManager := mkTxManager {
  tx_Begin : context -> GoM W (context * error);
  tx_Commit : context -> GoM W error;
  tx_Rollback : context -> GoM W error }.
End Interfaces.
Arguments mkLogger {W} log_Info log_Error log_Debug.
Arguments log_Info {W} _ _ _.
Arguments log_Error {W} _ _ _.
Arguments log_Debug {W} _ _ _.
Arguments mkRecorder {W} RecordDuration RecordError.
Arguments RecordDuration {W} _ _ _.
Arguments RecordError {W} _ _ _.
Arguments mkTraceStore {W} store_RecordSpan.
Arguments store_RecordSpan {W} _ _ _.
Arguments mkTxManager {W} tx_Begin tx_Commit tx_Rollback.
Arguments tx_Begin {W} _ _.
Arguments tx_Commit {W} _ _.
Arguments tx_Rollback {W} _ _.

(** [fmt.Sprintf("%T", v)] and the [typeName] of tracing.go. *)
Definition fmt_T {V} `{!Dynamic V} (v : V) : string := type_v (type_of v).
Definition typeName {V} `{!Dynamic V} (v : V) : outcome string :=
  name_of "nil pointer dereference" v.

(** ** Logging ([logging.go]) *)
Section Logging.
Context {W V : Type} `{!Dynamic V} (l : Logger W).

Definition log_before {M} (what key : string) `{!Dynamic M} (ctx : context) (msg : M) :
    GoM W (context * error) :=
  _ ← log_Debug l what [AStr key (fmt_T msg)]; mret (ctx, None).

Definition log_after {M} (what key : string) `{!Dynamic M} (msg : M) (e : error) (duration : Z) :
    GoM W error :=
  _ ← match e with
      | Some e => log_Error l (what +:+ " failed") [AStr key (fmt_T msg); AErr "error" e; ADur "duration" duration]
      | None => log_Debug l what [AStr key (fmt_T msg); ADur "duration" duration]
      end;
  mret None.

Definition LoggingAspect_Query : Aspect W V V :=
  mkAspect "logging" 50 (log_before "BeforeQuery" "type")
    (fun _ q _ e d => log_after "AfterQuery" "type" q e d).
Definition LoggingAspect_Command : Aspect W V V :=
  mkAspect "logging" 50 (log_before "BeforeCommand" "type")
    (fun _ c _ e d => log_after "AfterCommand" "type" c e d).
Definition LoggingAspect_Event : Aspect W V unit :=
  mkAspect "logging" 50 (log_before "BeforePublish" "event")
    (fun _ ev _ e d => log_after "AfterPublish" "event" ev e d).
End Logging.

(** ** Metrics ([metrics.go]) *)

Record metricsData := mkMetrics {
  durations : gmap string (list Z);
  errorCounts : gmap string Z;
  totalCounts : gmap string Z }.

Definition NewInMemMetricsRecorder : metricsData := mkMetrics ∅ ∅ ∅.

Definition mem_RecordDuration (name : string) (d : Z) (m : metricsData) : metricsData :=
  mkMetrics (<[name := mget [] (durations m) name ++ [d]]> (durations m)) (errorCounts m)
            (<[name := mget 0%Z (totalCounts m) name +i 1]> (totalCounts m)).
Definition mem_RecordError (name : string) (e : goerr) (m : metricsData) : metricsData :=
  mkMetrics (durations m) (<[name := mget 0%Z (errorCounts m) name +i 1]> (errorCounts m))
            (<[name := mget 0%Z (totalCounts m) name +i 1]> (totalCounts m)).
Definition GetDurations (name : string) (m : metricsData) : list Z := mget [] (durations m) name.
Definition GetErrorCount (name : string) (m : metricsData) : Z := mget 0%Z (errorCounts m) name.
Definition GetTotalCount (name : string) (m : metricsData) : Z := mget 0%Z (totalCounts m) name.
(** Go's integer division truncates towards zero. *)
Definition GetAverageDuration (name : string) (m : metricsData) : Z :=
  let ds := mget [] (durations m) name in
  match ds with
  | [] => 0%Z
  | _ => Z.quot (fold_left int_add ds 0%Z) (zlen ds)
  end.
Definition metrics_Reset (m : metricsData) : metricsData := mkMetrics ∅ ∅ ∅.

Definition in_mem_recorder {W} `{!Has metricsData W} : MetricsRecorder W :=
  mkRecorder (fun n d => on_part (fun m => (tt, mem_RecordDuration n d m)))
             (fun n e => on_part (fun m => (tt, mem_RecordError n e m))).

Section Metrics.
Context {W V : Type} `{!Dynamic V} (recorder : MetricsRecorder W).

Definition metrics_after (prefix : string) (msg : V) (e : error) (duration : Z) : GoM W error :=
  let name := prefix +:+ fmt_T msg in
  _ ← RecordDuration recorder name duration;
  _ ← match e with Some e => RecordError recorder name e | None => mret tt end;
  mret None.

Definition MetricsAspect_Query : Aspect W V V :=
  mkAspect "metrics" 100 (fun ctx _ => mret (ctx, None))
    (fun _ q _ e d => metrics_after "Query/" q e d).
Definition MetricsAspect_Command : Aspect W V V :=
  mkAspect "metrics" 100 (fun ctx _ => mret (ctx, None))
    (fun _ c _ e d => metrics_after "Command/" c e d).
Definition MetricsAspect_Event : Aspect W V unit :=
  mkAspect "metrics" 100 (fun ctx _ => mret (ctx, None))
    (fun _ ev _ e d => metrics_after "Event/" ev e d).
End Metrics.

(** ** Tracing ([tracing.go]) *)
Section Tracing.
Context {W V : Type} `{!Dynamic V, !Clock W, !IdGen W}.
Context (store : option (TraceStore W)) (logger : option (Logger W)).

Definition tracing_before (spanType : string) (ctx : context) (msg : V) :
    GoM W (context * error) :=
  let parentSpanID := GetSpanID ctx in
  traceID ← (if bool_decide (GetTraceID ctx = "") then NewTraceID else mret (GetTraceID ctx));
  spanID ← NewSpanID;
  spanName ← go_outcome (typeName msg);
  let newCtx := WithParentSpan (WithTrace ctx traceID spanID) parentSpanID in
  now ← time_now;
  let span := mkSpan spanID traceID parentSpanID spanType spanName "" "" now 0 in
  mret (with_open_span newCtx span, None).

Definition span_status (e : error) : string :=
  match e with
  | None => SpanStatusSuccess
  | Some _ => if IsDomainError e then SpanStatusBusinessError else SpanStatusError
  end.

Definition close_span (span : Span) (e : error) (duration : Z) : Span :=
  mkSpan (SpanID span) (TraceID span) (ParentID span) (SpanType span) (SpanName span)
    (span_status e) (match e with Some e => Error e | None => SpanError span end)
    (StartedAt span) duration.

Definition tracing_after (ctx : context) (e : error) (duration : Z) : GoM W error :=
  match openSpan ctx with
  | None => mret None
  | Some span =>
      match store with
      | None => mret None
      | Some store =>
          recErr ← store_RecordSpan store ctx (close_span span e duration);
          match recErr, logger with
          | Some re, Some l =>
              _ ← log_Error l "TracingAspect RecordSpan failed" [AErr "error" re]; mret None
          | _, _ => mret None
          end
      end
  end.

Definition TracingAspect_Command : Aspect W V V :=
  mkAspect "tracing" 0 (tracing_before SpanTypeCommand) (fun ctx _ _ e d => tracing_after ctx e d).
Definition TracingAspect_Query : Aspect W V V :=
  mkAspect "tracing" 0 (tracing_before SpanTypeQuery) (fun ctx _ _ e d => tracing_after ctx e d).
Definition TracingAspect_Event : Aspect W V unit :=
  mkAspect "tracing" 0 (tracing_before SpanTypeEvent) (fun ctx _ _ e d => tracing_after ctx e d).
End Tracing.

(** ** Transactions ([transaction.go], [memory_backend.go]) *)

Definition NoOpTransactionManager {W} : TransactionManager W :=
  mkTxManager (fun ctx => mret (ctx, None)) (fun _ => mret None) (fun _ => mret None).

Definition NewTransactionAspect {W} (tm : option (TransactionManager W)) :
    result (TransactionManager W) :=
  match tm with
  | None => Err (ENew "transaction: TxManager must not be nil, use NoOpTransactionManager for non-transactional scenarios")
  | Some tm => Ok tm
  end.

Section Transaction.
Context {W V R : Type} (txManager : TransactionManager W).

Definition transaction_after (ctx : context) (e : error) : GoM W error :=
  match e with
  | Some er =>
      rbErr ← tx_Rollback txManager ctx;
      match rbErr with
      | Some rb => mret (Some (EWrap "command failed: " er (", rollback failed: " +:+ Error rb)))
      | None => mret (Some er)
      end
  | None => tx_Commit txManager ctx
  end.

Definition TransactionAspect_Command : Aspect W V R :=
  mkAspect "transaction" 10 (fun ctx _ => tx_Begin txManager ctx)
    (fun ctx _ _ e _ => transaction_after ctx e).
Definition TransactionAspect_Query : Aspect W V R :=
  mkAspect "transaction" 10 (fun ctx _ => mret (ctx, None)) (fun _ _ _ _ _ => mret None).
Definition TransactionAspect_Event : Aspect W V unit :=
  mkAspect "transaction" 10 (fun ctx _ => mret (ctx, None)) (fun _ _ _ _ _ => mret None).
End Transaction.

(** The states of the in-memory transactions; a context refers to one by its position. *)
Record memTxState := mkMemTx { tx_depth : Z; tx_aborted : bool }.
Abbreviation tx_heap := (list memTxState).

Definition no_tx : goerr := ENew "memory_tx: no transaction in context".
Definition tx_inner_rollback : goerr := ENew "memory_tx: transaction aborted by inner rollback".

Definition mem_Begin (ctx : context) (h : tx_heap) : (context * error) * tx_heap :=
  match memTx ctx ≫= fun r => p ← h !! r; Some (r, p) with
  | Some (r, s) => ((ctx, None), <[r := mkMemTx (tx_depth s +i 1) (tx_aborted s)]> h)
  | None => ((with_mem_tx ctx (length h), None), h ++ [mkMemTx 1 false])
  end.

Definition mem_Commit (ctx : context) (h : tx_heap) : error * tx_heap :=
  match memTx ctx ≫= fun r => p ← h !! r; Some (r, p) with
  | None => (Some no_tx, h)
  | Some (r, s) =>
      if bool_decide (tx_depth s <= 0)%Z then (Some no_tx, h)
      else (if tx_aborted s then Some tx_inner_rollback else None,
            <[r := mkMemTx (tx_depth s -i 1) (tx_aborted s)]> h)
  end.

Definition mem_Rollback (ctx : context) (h : tx_heap) : error * tx_heap :=
  match memTx ctx ≫= fun r => p ← h !! r; Some (r, p) with
  | None => (Some no_tx, h)
  | Some (r, s) =>
      if bool_decide (tx_depth s <= 0)%Z then (Some no_tx, h)
      else (None, <[r := mkMemTx (tx_depth s -i 1) true]> h)
  end.

Definition MemoryTransactionManager {W} `{!Has tx_heap W} : TransactionManager W :=
  mkTxManager (fun ctx => on_part (mem_Begin ctx)) (fun ctx => on_part (mem_Commit ctx))
              (fun ctx => on_part (mem_Rollback ctx)).

(** ** Persistence ([persistence.go], [in_memory_message_store.go]) *)

Record CommandEntry := mkCommandEntry {
  ce_TraceID : string; ce_SpanID : string; ce_CommandType : string; ce_CommandData : string;
  ce_ResultType : string; ce_ResultData : string; ce_Error : string; ce_Duration : Z;
  ce_CreatedAt : Z }.

Record QueryEntry := mkQueryEntry {
  qe_TraceID : string; qe_SpanID : string; qe_QueryType : string; qe_QueryData : string;
  qe_ResultType : string; qe_ResultData : string; qe_Error : string; qe_Duration : Z;
  qe_CreatedAt : Z }.

Record EventEntry := mkEventEntry {
  ee_TraceID : string; ee_SpanID : string; ee_AggregateID : string; ee_EventType : string;
  ee_EventData : string; ee_HandlerCount : Z; ee_Error : string; ee_Duration : Z;
  ee_CreatedAt : Z }.

Record EventHandlerEntry := mkEventHandlerEntry {
  he_TraceID : string; he_SpanID : string; he_AggregateID : string; he_EventType : string;
  he_HandlerType : string; he_Status : string; he_Error : string; he_Duration : Z;
  he_CreatedAt : Z }.

Record MessageStore (W : Type) := mkMessageStore {
  RecordCommand : CommandEntry -> GoM W error;
  RecordQuery : QueryEntry -> GoM W error;
  RecordEvent : EventEntry -> GoM W error;
  RecordEventHandler : EventHandlerEntry -> GoM W error }.
Arguments mkMessageStore {W} RecordCommand RecordQuery RecordEvent RecordEventHandler.
Arguments RecordCommand {W} _ _.
Arguments RecordQuery {W} _ _.
Arguments RecordEvent {W} _ _.
Arguments RecordEventHandler {W} _ _.

(** [append] followed by the trim to the last [maxSize] entries. *)
Definition append_capped {A} (maxSize : Z) (l : list A) (x : A) : outcome (list A) :=
  let l := l ++ [x] in
  if bool_decide (maxSize < zlen l)%Z then
    match slice_from (zlen l -i maxSize) l with
    | Some l => Done l
    | None => Panicked "slice bounds out of range"
    end
  else Done l.

Record InMemoryMessageStore := mkMemMessages {
  ms_commands : list CommandEntry;
  ms_queries : list QueryEntry;
  ms_events : list EventEntry;
  ms_handlers : list EventHandlerEntry;
  ms_maxSize : Z }.

(** The option [WithInMemoryMaxSize], the last one wins. *)
Definition NewInMemoryMessageStore (maxSizes : list Z) : InMemoryMessageStore :=
  mkMemMessages [] [] [] [] (default 1000%Z (last maxSizes)).

Definition GetCommands (s : InMemoryMessageStore) := ms_commands s.
Definition GetQueries (s : InMemoryMessageStore) := ms_queries s.
Definition GetEvents (s : InMemoryMessageStore) := ms_events s.
Definition GetHandlers (s : InMemoryMessageStore) := ms_handlers s.

Definition mem_RecordCommand (e : CommandEntry) (s : InMemoryMessageStore) : outcome InMemoryMessageStore :=
  l ← append_capped (ms_maxSize s) (ms_commands s) e;
  mret (mkMemMessages l (ms_queries s) (ms_events s) (ms_handlers s) (ms_maxSize s)).
Definition mem_RecordQuery (e : QueryEntry) (s : InMemoryMessageStore) : outcome InMemoryMessageStore :=
  l ← append_capped (ms_maxSize s) (ms_queries s) e;
  mret (mkMemMessages (ms_commands s) l (ms_events s) (ms_handlers s) (ms_maxSize s)).
Definition mem_RecordEvent (e : EventEntry) (s : InMemoryMessageStore) : outcome InMemoryMessageStore :=
  l ← append_capped (ms_maxSize s) (ms_events s) e;
  mret (mkMemMessages (ms_commands s) (ms_queries s) l (ms_handlers s) (ms_maxSize s)).
Definition mem_RecordEventHandler (e : EventHandlerEntry) (s : InMemoryMessageStore) :
    outcome InMemoryMessageStore :=
  l ← append_capped (ms_maxSize s) (ms_handlers s) e;
  mret (mkMemMessages (ms_commands s) (ms_queries s) (ms_events s) l (ms_maxSize s)).

(** A recording step as a call of the interface: it never returns an error. *)
Definition recording {W} `{!Has InMemoryMessageStore W}
    (f : InMemoryMessageStore -> outcome InMemoryMessageStore) : GoM W error := fun w =>
  match f (part w) with
  | Done s => (Done None, set_part s w)
  | Panicked why => (Panicked why, w)
  end.
Definition in_memory_messages {W} `{!Has InMemoryMessageStore W} : MessageStore W :=
  mkMessageStore (fun e => recording (mem_RecordCommand e)) (fun e => recording (mem_RecordQuery e))
    (fun e => recording (mem_RecordEvent e)) (fun e => recording (mem_RecordEventHandler e)).

Section Persistence.
Context {W V : Type} `{!Dynamic V, !Event V, !Clock W}.
Context (store : MessageStore W).
(** [json.Marshal], and the quoting of [%q]. *)
Context (json_Marshal : V -> string + string) (quote : string -> string).

Definition json_data (v : V) : string :=
  match json_Marshal v with
  | inl data => data
  | inr marshalErr => "{" +:+ quote "_marshal_error" +:+ ":" +:+ quote marshalErr +:+ "}"
  end.

(** The type and the data of a result, empty for nil. *)
Definition result_data (res : V) : outcome (string * string) :=
  match type_of res with
  | None => Done ("", "")
  | Some _ => t ← typeName res; mret (t, json_data res)
  end.

Definition error_text (e : error) : string := match e with Some e => Error e | None => "" end.

Definition persist_command (ctx : context) (cmd res : V) (e : error) (duration : Z) : GoM W error :=
  t ← go_outcome (typeName cmd);
  now ← time_now;
  '(rt, rd) ← go_outcome (result_data res);
  RecordCommand store
    (mkCommandEntry (GetTraceID ctx) (GetSpanID ctx) t (json_data cmd) rt rd (error_text e) duration now).

Definition persist_query (ctx : context) (q res : V) (e : error) (duration : Z) : GoM W error :=
  t ← go_outcome (typeName q);
  now ← time_now;
  '(rt, rd) ← go_outcome (result_data res);
  RecordQuery store
    (mkQueryEntry (GetTraceID ctx) (GetSpanID ctx) t (json_data q) rt rd (error_text e) duration now).

Definition extractHandlerType (ctx : context) : string := default "" (handlerType ctx).
Definition extractEventMeta (evt : V) : outcome (string * string) :=
  name ← Bus.EventNameOf evt; mret (AggregateID (MetadataOf evt), name).

Definition persist_event (ctx : context) (evt : V) (e : error) (duration : Z) : GoM W error :=
  '(aggregateID, eventType) ← go_outcome (extractEventMeta evt);
  now ← time_now;
  recErr ← RecordEvent store
    (mkEventEntry (GetTraceID ctx) (GetSpanID ctx) aggregateID eventType (json_data evt) 0
       (error_text e) duration now);
  match recErr with
  | Some re => mret (Some re)
  | None =>
      if bool_decide (extractHandlerType ctx = "") then mret None
      else
        now ← time_now;
        RecordEventHandler store
          (mkEventHandlerEntry (GetTraceID ctx) (GetSpanID ctx) aggregateID eventType
             (extractHandlerType ctx) (match e with Some _ => "error" | None => "success" end)
             (error_text e) duration now)
  end.

Definition PersistenceAspect_Command : Aspect W V V :=
  mkAspect "persistence" 200 (fun ctx _ => mret (ctx, None)) persist_command.
Definition PersistenceAspect_Query : Aspect W V V :=
  mkAspect "persistence" 200 (fun ctx _ => mret (ctx, None)) persist_query.
Definition PersistenceAspect_Event : Aspect W V unit :=
  mkAspect "persistence" 200 (fun ctx _ => mret (ctx, None)) (fun ctx evt _ e d => persist_event ctx evt e d).
End Persistence.

(** ** Nested commands in one transaction

    A command that runs other commands with its context before it ends, with an
    error or not; every one goes through the transaction aspect. *)
Inductive tx_call := TxCall (fails : bool) (inner : list tx_call).

(** Whether a command or one inside it fails, and how deep they are nested. *)
Fixpoint any_fails (c : tx_call) : bool :=
  match c with TxCall f inner => f || existsb any_fails inner end.
Fixpoint tx_height (c : tx_call) : Z :=
  match c with TxCall _ inner => (1 + foldr (fun c h => Z.max (tx_height c) h) 0 inner)%Z end.

Definition command_failed : goerr := ENew "command failed".
Definition own_error (fails : bool) : error := if fails then Some command_failed else None.

Section TxCalls.
Context {W : Type} `{!Clock W} `{!Has tx_heap W, !HasLaws tx_heap W}.

Fixpoint run_tx (c : tx_call) (ctx : context) {struct c} : GoM W (unit * error) :=
  match c with
  | TxCall fails inner =>
      run_aspects tt ctx tt
        (fun ctx =>
           _ ← (fix go (l : list tx_call) : GoM W unit :=
                  match l with
                  | [] => mret tt
                  | c :: l => _ ← run_tx c ctx; go l
                  end) inner;
           mret (tt, own_error fails))
        [TransactionAspect_Command MemoryTransactionManager]
  end.

Definition run_inner (l : list tx_call) (ctx : context) : GoM W unit :=
  (fix go (l : list tx_call) : GoM W unit :=
     match l with
     | [] => mret tt
     | c :: l => _ ← run_tx c ctx; go l
     end) l.
End TxCalls.

(** ** Lemmas on transactions *)

Section TxInduction.
Context (P : tx_call -> Prop).
Context (H : forall fails inner, Forall P inner -> P (TxCall fails inner)).
Fixpoint tx_call_rect' (c : tx_call) : P c :=
  match c with
  | TxCall fails inner =>
      H fails inner
        ((fix go (l : list tx_call) : Forall P l :=
            match l with
            | [] => Forall_nil_2 P
            | c :: l => Forall_cons_2 P c l (tx_call_rect' c) (go l)
            end) inner)
  end.
End TxInduction.

Section TxLemmas.
Context {W : Type} `{!Clock W} `{!Has tx_heap W, !HasLaws tx_heap W}.
Context (Hnow : quiet (S := tx_heap) (W := W) time_now).
Abbreviation heap w := (part w : tx_heap).

Lemma now_run (w : W) : exists t w', now w = (t, w') /\ heap w' = heap w.
Proof.
  destruct (Hnow w) as (t & w' & Ht & Hp). unfold time_now in Ht.
  destruct (now w) as [t' w'']. injection Ht as -> ->. eauto.
Qed.

Lemma begin_inside ctx r d a w :
  memTx ctx = Some r -> heap w !! r = Some (mkMemTx d a) ->
  tx_Begin MemoryTransactionManager ctx w =
    (Done (ctx, None), set_part (<[r := mkMemTx (d +i 1) a]> (heap w)) w).
Proof. intros Hr Hh. cbn. rewrite on_part_run. unfold mem_Begin. rewrite Hr. cbn. by rewrite Hh. Qed.

Lemma begin_outside ctx w :
  memTx ctx = None ->
  tx_Begin MemoryTransactionManager ctx w =
    (Done (with_mem_tx ctx (length (heap w)), None), set_part (heap w ++ [mkMemTx 1 false]) w).
Proof. intros Hr. cbn. rewrite on_part_run. unfold mem_Begin. by rewrite Hr. Qed.

Lemma commit_run ctx r s (h : tx_heap) :
  memTx ctx = Some r -> h !! r = Some s -> (0 < tx_depth s)%Z ->
  mem_Commit ctx h = (if tx_aborted s then Some tx_inner_rollback else None,
                      <[r := mkMemTx (tx_depth s -i 1) (tx_aborted s)]> h).
Proof.
  intros Hr Hh Hd. unfold mem_Commit, mbind, option_bind. rewrite Hr, Hh.
  by rewrite bool_decide_eq_false_2 by lia.
Qed.

Lemma rollback_run ctx r s (h : tx_heap) :
  memTx ctx = Some r -> h !! r = Some s -> (0 < tx_depth s)%Z ->
  mem_Rollback ctx h = (None, <[r := mkMemTx (tx_depth s -i 1) true]> h).
Proof.
  intros Hr Hh Hd. unfold mem_Rollback, mbind, option_bind. rewrite Hr, Hh.
  by rewrite bool_decide_eq_false_2 by lia.
Qed.

(** The end of a command that is inside [d] others and itself. *)
Lemma after_run ctx r d a fails w :
  memTx ctx = Some r -> heap w !! r = Some (mkMemTx (d + 1) a) ->
  (0 <= d)%Z -> (d + 1 <= max_int64)%Z ->
  exists e w', transaction_after MemoryTransactionManager ctx
      (own_error fails) w = (Done e, w') /\
    heap w' = <[r := mkMemTx d (a || fails)]> (heap w) /\
    (combine_errors (own_error fails) e = None <-> a || fails = false).
Proof.
  intros Hr Hh Hd Hmax. unfold transaction_after. unfold_go.
  assert ((d + 1) -i 1 = d)%Z as Hsub.
  { rewrite int_sub_id; [lia|]. unfold in_int64, max_int64, two63 in *. lia. }
  destruct fails; cbn [own_error tx_Rollback tx_Commit MemoryTransactionManager]; rewrite on_part_run.
  - rewrite (rollback_run _ _ _ _ Hr Hh) by (cbn; lia). cbn [fst snd tx_depth]. rewrite Hsub, orb_true_r.
    do 2 eexists. split; [reflexivity|]. by rewrite part_set.
  - rewrite (commit_run _ _ _ _ Hr Hh) by (cbn; lia). cbn [fst snd tx_depth tx_aborted].
    rewrite Hsub, orb_false_r.
    do 2 eexists. split; [reflexivity|]. rewrite part_set. by destruct a.
Qed.

Definition inside (c : tx_call) : Prop := forall ctx r d a w,
  memTx ctx = Some r -> heap w !! r = Some (mkMemTx d a) ->
  (0 <= d)%Z -> (d + tx_height c <= max_int64)%Z ->
  exists e w', run_tx c ctx w = (Done (tt, e), w') /\
    heap w' = <[r := mkMemTx d (a || any_fails c)]> (heap w) /\
    (e = None <-> a || any_fails c = false).

Lemma inner_run inner ctx r d a w :
  Forall inside inner -> memTx ctx = Some r -> heap w !! r = Some (mkMemTx d a) ->
  (0 <= d)%Z -> (d + foldr (fun c h => Z.max (tx_height c) h) 0 inner <= max_int64)%Z ->
  exists w', run_inner inner ctx w = (Done tt, w') /\
    heap w' = <[r := mkMemTx d (a || existsb any_fails inner)]> (heap w).
Proof.
  intros Hall Hr. revert a w. induction Hall as [|c inner Hc _ IH]; intros a w Hh Hd Hmax.
  - exists w. split; [done|]. cbn. rewrite orb_false_r. by rewrite list_insert_id.
  - cbn [foldr] in Hmax. cbn [existsb].
    change (run_inner (c :: inner) ctx w) with ((_ ← run_tx c ctx; run_inner inner ctx) w). unfold_go.
    destruct (Hc ctx r d a w Hr Hh Hd ltac:(lia)) as (e & w1 & -> & Hh1 & _).
    assert (heap w1 !! r = Some (mkMemTx d (a || any_fails c))) as Hr1.
    { rewrite Hh1. apply list_lookup_insert_eq. by eapply lookup_lt_Some. }
    destruct (IH _ w1 Hr1 Hd ltac:(lia)) as (w2 & -> & Hh2).
    exists w2. split; [done|]. by rewrite Hh2, Hh1, list_insert_insert_eq, orb_assoc.
Qed.

(** The body of a command and its end, once its transaction has begun. *)
Lemma body_run fails inner ctx r d w :
  Forall inside inner -> memTx ctx = Some r -> (0 <= d)%Z ->
  (d + 1 + foldr (fun c h => Z.max (tx_height c) h) 0 inner <= max_int64)%Z ->
  forall a, heap w !! r = Some (mkMemTx (d + 1) a) ->
  exists e w' t1 w1 t2 w2 w3 e', now w = (t1, w1) /\ run_inner inner ctx w1 = (Done tt, w2) /\
    now w2 = (t2, w3) /\
    transaction_after MemoryTransactionManager ctx (own_error fails) w3
      = (Done e', w') /\
    e = combine_errors (own_error fails) e' /\
    heap w' = <[r := mkMemTx d (a || any_fails (TxCall fails inner))]> (heap w) /\
    (e = None <-> a || any_fails (TxCall fails inner) = false).
Proof.
  intros Hall Hr Hd Hmax a Hh.
  destruct (now_run w) as (t1 & w1 & Ht1 & Hh1).
  destruct (inner_run inner ctx r (d + 1) a w1 Hall Hr) as (w2 & Hrun & Hh2); try lia.
  { by rewrite Hh1. }
  destruct (now_run w2) as (t2 & w3 & Ht2 & Hh3).
  assert (0 <= foldr (fun c h => Z.max (tx_height c) h) 0 inner)%Z as Hpos.
  { clear. induction inner; cbn; lia. }
  destruct (after_run ctx r d (a || existsb any_fails inner) fails w3 Hr) as (e' & w' & Ha & Hh' & He);
    [|done|lia|].
  { rewrite Hh3, Hh2. apply list_lookup_insert_eq. rewrite Hh1. by eapply lookup_lt_Some. }
  assert (a || existsb any_fails inner || fails = a || any_fails (TxCall fails inner)) as Hb.
  { cbn. rewrite <- orb_assoc. f_equal. apply orb_comm. }
  exists (combine_errors (own_error fails) e'), w', t1, w1, t2, w2, w3, e'.
  split_and!; try done.
  - by rewrite Hh', Hh3, Hh2, list_insert_insert_eq, Hh1, Hb.
  - by rewrite <- Hb.
Qed.

Lemma run_tx_unfold fails inner ctx :
  run_tx (W := W) (TxCall fails inner) ctx =
  run_aspects tt ctx tt
    (fun ctx => _ ← run_inner inner ctx; mret (tt, own_error fails))
    [TransactionAspect_Command MemoryTransactionManager].
Proof. reflexivity. Qed.

Lemma run_tx_inside c : inside c.
Proof.
  induction c as [fails inner IH] using tx_call_rect'. intros ctx r d a w Hr Hh Hd Hmax.
  rewrite run_tx_unfold. cbn [run_aspects TransactionAspect_Command Before After]. unfold_go.
  rewrite (begin_inside _ _ _ _ _ Hr Hh). cbn [tx_height] in Hmax.
  assert (0 <= foldr (fun c h => Z.max (tx_height c) h) 0 inner)%Z as Hpos.
  { clear. induction inner; cbn; lia. }
  rewrite int_add_id by (unfold in_int64, max_int64, two63 in *; lia).
  set (w0 := set_part _ w).
  assert (heap w0 = <[r := mkMemTx (d + 1) a]> (heap w)) as Hw0 by apply part_set.
  destruct (body_run fails inner ctx r d w0 IH Hr Hd ltac:(lia) a)
    as (e & w' & t1 & w1 & t2 & w2 & w3 & e' & E1 & E2 & E3 & E4 & -> & Hh' & He).
  { rewrite Hw0. apply list_lookup_insert_eq. by eapply lookup_lt_Some. }
  rewrite E1. cbv beta iota. rewrite E2. cbv beta iota. rewrite E3. cbv beta iota. rewrite E4.
  do 2 eexists. split; [reflexivity|]. split; [|exact He].
  by rewrite Hh', Hw0, list_insert_insert_eq.
Qed.
End TxLemmas.

(** ** Properties *)

(** C10: Nested commands share one in-memory transaction: running any tree of
    commands outside a transaction opens one transaction, closes it again (its depth is back to
    zero), and the outermost command reports success exactly when no command of the tree failed;
    the transaction is marked aborted exactly when one failed. *)
Theorem memory_transaction_atomic {W} `{!Clock W, !Has tx_heap W, !HasLaws tx_heap W}
    (c : tx_call) ctx (w : W) :
  quiet (S := tx_heap) (W := W) time_now -> memTx ctx = None -> (tx_height c <= max_int64)%Z ->
  exists e w', run_tx c ctx w = (Done (tt, e), w') /\
    part w' = (part w : tx_heap) ++ [mkMemTx 0 (any_fails c)] /\
    (e = None <-> any_fails c = false).
Proof.
  intros Hnow Hc Hmax. destruct c as [fails inner].
  rewrite run_tx_unfold. cbn [run_aspects TransactionAspect_Command Before After]. unfold_go.
  rewrite (begin_outside _ _ Hc). cbn [tx_height] in Hmax.
  set (w0 := set_part _ w). set (ctx' := with_mem_tx _ _).
  assert (part w0 = (part w : tx_heap) ++ [mkMemTx 1 false]) as Hw0 by apply part_set.
  destruct (body_run Hnow fails inner ctx' (length (part w : tx_heap)) 0 w0)
    with (a := false) as (e & w' & t1 & w1 & t2 & w2 & w3 & e' & E1 & E2 & E3 & E4 & -> & Hh' & He);
    [|done|lia|lia| |].
  { apply Forall_forall. intros c _. by apply run_tx_inside. }
  { rewrite Hw0. by apply list_lookup_middle. }
  rewrite E1. cbv beta iota. rewrite E2. cbv beta iota. rewrite E3. cbv beta iota. rewrite E4.
  do 2 eexists. split; [reflexivity|]. split; [|exact He].
  rewrite Hh', Hw0. replace (length (part w)) with (length (part w : tx_heap) + 0) by lia.
  by rewrite insert_app_r.
Qed.

(** What [tracing_before] puts into the context. *)
Lemma tracing_before_ctx {W V} `{!Dynamic V, !Clock W, !IdGen W} kind ctx (msg : V) (w w0 : W) newCtx :
  tracing_before kind ctx msg w = (Done (newCtx, None), w0) ->
  exists span, openSpan newCtx = Some span /\
    (GetTraceID ctx <> "" -> GetTraceID newCtx = GetTraceID ctx) /\
    GetParentSpanID newCtx = GetSpanID ctx /\
    SpanID span = GetSpanID newCtx /\ TraceID span = GetTraceID newCtx /\
    ParentID span = GetSpanID ctx /\ SpanType span = kind /\ typeName msg = Done (SpanName span) /\
    SpanError span = "".
Proof.
  unfold tracing_before. unfold_go. intros Hrun.
  set (tid := if bool_decide (GetTraceID ctx = "") then NewTraceID else _) in Hrun.
  assert (forall t w1, tid w = (Done t, w1) -> GetTraceID ctx <> "" -> t = GetTraceID ctx) as Htid.
  { intros t w1 Ht Hne. unfold tid in Ht. rewrite bool_decide_eq_false_2 in Ht by done. by injection Ht. }
  destruct (tid w) as [[t|?] w1] eqn:Et; [|done]. clearbody tid.
  unfold NewSpanID, new_uuid in Hrun. destruct (fresh_id w1) as [sid w2].
  destruct (typeName msg) as [name|?] eqn:En; [|done].
  destruct (now w2) as [started w3]. injection Hrun as <- <-.
  eexists. split; [reflexivity|]. split; [by intros Hne; apply (Htid t w1 eq_refl)|]. by cbn.
Qed.


(** ** Concrete runs *)
Module DemoBuiltin.
Import Env.
Definition world : Type := env * tx_heap.
Definition w0 : world := (mkEnv 0 0, []).
(** A command that runs two others and succeeds itself; the second one fails. *)
Definition tree : tx_call := TxCall false [TxCall false []; TxCall true []].
Lemma clock_quiet : quiet (S := tx_heap) (W := world) time_now.
Proof. intros [[t n] h]. by eexists _, _. Qed.

Definition broken_store : TraceStore env := mkTraceStore (fun _ _ => mret (Some (ENew "disk full"))).
Definition traced_next : context -> GoM env (DemoBus.value * error) :=
  fun _ => mret (DemoBus.VInt 7, Some ErrInvalidState).
End DemoBuiltin.
Import Env DemoBus DemoBuiltin.

Lemma memory_transaction_atomic_witness :
  (run_tx tree Background w0).2.2 = [mkMemTx 0 true] /\
  exists e w', run_tx tree Background w0 = (Done (tt, e), w') /\
    part w' = (part w0 : tx_heap) ++ [mkMemTx 0 (any_fails tree)] /\
    (e = None <-> any_fails tree = false).
Proof.
  split; [vm_compute; reflexivity|].
  apply (memory_transaction_atomic tree Background w0 clock_quiet); [reflexivity|].
  vm_compute. discriminate.
Defined.

