(* ===== verification/StdLogger.v ===== *)
(** * The standard logger: [src/aspect/builtin/default_logger.go]

    [StdLogger] over [log/slog]: a logger of that package is its attributes and the level of its handler, and what
    it writes are records; the text of a record is not modelled. *)

From S2P Require Import Prelude Errors Trace Aspect Bus Builtin.

(** ** [log/slog]

    An attribute of the aspects, or a number. *)
Inductive log_attr := Attr (a : attr) | IntAttr (key : string) (z : Z).
Record log_record := mkRecord { lr_Level : Z; lr_Msg : string; lr_Attrs : list log_attr }.

Definition LevelDebug : Z := -4.
Definition LevelInfo : Z := 0.
Definition LevelError : Z := 8.

(** The level of [slog.HandlerOptions], which need not be given. *)
Record HandlerOptions := mkHandlerOptions { ho_Level : option Z }.
Record slog_logger := mkSlog { sl_Level : Z; sl_Attrs : list log_attr }.

(** [slog.New(slog.NewTextHandler(os.Stdout, opts))]: the level is that of the options, or [LevelInfo]. *)
Definition slog_New (opts : option HandlerOptions) : slog_logger :=
  mkSlog (default LevelInfo (opts ≫= ho_Level)) [].
Definition slog_With (l : slog_logger) (attrs : list log_attr) : slog_logger :=
  mkSlog (sl_Level l) (sl_Attrs l ++ attrs).

Section StdLogger.
Context {W : Type} `{!Has (list log_record) W}.

(** [Logger.Log]: a record below the level of the handler is dropped. *)
Definition slog_Log (l : slog_logger) (level : Z) (msg : string) (args : list log_attr) : GoM W unit := fun w =>
  (Done tt, if bool_decide (sl_Level l <= level)%Z
            then set_part (part w ++ [mkRecord level msg (sl_Attrs l ++ args)]) w else w).

Definition StdLogger : Type := slog_logger.
Definition NewStdLogger : StdLogger := slog_New (Some (mkHandlerOptions (Some LevelDebug))).
Definition NewStdLoggerWithOptions (opts : option HandlerOptions) : StdLogger := slog_New opts.

Definition std_Info (l : StdLogger) (msg : string) (args : list attr) : GoM W unit :=
  slog_Log l LevelInfo msg (map Attr args).
Definition std_Error (l : StdLogger) (msg : string) (args : list attr) : GoM W unit :=
  slog_Log l LevelError msg (map Attr args).
Definition std_Debug (l : StdLogger) (msg : string) (args : list attr) : GoM W unit :=
  slog_Log l LevelDebug msg (map Attr args).

(** The interface of the aspects, which [StdLogger] implements. *)
Definition std_logger (l : StdLogger) : Logger W := mkLogger (std_Info l) (std_Error l) (std_Debug l).

Definition WithContext (l : StdLogger) (ctx : context) : slog_logger :=
  let l := if bool_decide (GetTraceID ctx <> "") then slog_With l [Attr (AStr "trace_id" (GetTraceID ctx))] else l in
  if bool_decide (GetSpanID ctx <> "") then slog_With l [Attr (AStr "span_id" (GetSpanID ctx))] else l.

(** [time.Duration.Milliseconds]. *)
Definition Milliseconds (d : Z) : Z := Z.quot d 1000000.

Definition log_outcome (l : slog_logger) (failed done : string) (err : error) : GoM W unit :=
  match err with
  | Some e => slog_Log l LevelError failed [Attr (AStr "error" (Error e))]
  | None => slog_Log l LevelInfo done []
  end.

Definition LogCommand (l : StdLogger) (ctx : context) (name : string) (duration : Z) (err : error) : GoM W unit :=
  log_outcome (slog_With (WithContext l ctx) [Attr (AStr "command" name); IntAttr "duration_ms" (Milliseconds duration)])
    "command failed" "command executed" err.
Definition LogQuery (l : StdLogger) (ctx : context) (name : string) (duration : Z) (err : error) : GoM W unit :=
  log_outcome (slog_With (WithContext l ctx) [Attr (AStr "query" name); IntAttr "duration_ms" (Milliseconds duration)])
    "query failed" "query executed" err.
Definition LogEvent (l : StdLogger) (ctx : context) (name : string) (err : error) : GoM W unit :=
  log_outcome (slog_With (WithContext l ctx) [Attr (AStr "event" name)]) "event publish failed" "event published" err.
End StdLogger.

(** ** Lemmas *)

(** The attributes that a context adds. *)
Definition trace_attrs (ctx : context) : list log_attr :=
  (if bool_decide (GetTraceID ctx <> "") then [Attr (AStr "trace_id" (GetTraceID ctx))] else []) ++
  (if bool_decide (GetSpanID ctx <> "") then [Attr (AStr "span_id" (GetSpanID ctx))] else []).

Lemma with_context l ctx : WithContext l ctx = mkSlog (sl_Level l) (sl_Attrs l ++ trace_attrs ctx).
Proof.
  unfold WithContext, trace_attrs, slog_With. destruct l as [lv ats]. cbn.
  repeat case_bool_decide; cbn; by rewrite ?app_nil_r, <- ?app_assoc.
Qed.

Section Outcome.
Context {W : Type} `{!Has (list log_record) W}.
Lemma log_outcome_run (l : slog_logger) failed done err (w : W) : exists r,
  log_outcome l failed done err w = (Done tt, if bool_decide (sl_Level l <= lr_Level r)%Z then set_part (part w ++ [r]) w else w) /\
  r = match err with
      | Some e => mkRecord LevelError failed (sl_Attrs l ++ [Attr (AStr "error" (Error e))])
      | None => mkRecord LevelInfo done (sl_Attrs l)
      end.
Proof.
  destruct err as [e|]; cbn; (eexists; split; [|reflexivity]); [done|]. unfold slog_Log. by rewrite app_nil_r.
Qed.
End Outcome.

(** ** Properties *)

(** The standard logger writes one record per message that its level admits: an error record with the error's
    text if the operation failed and an informative one otherwise. Its attributes are those of the logger, then
    the trace and the span of the context if it has them, then the name of the message and, for commands and
    queries, the duration in whole milliseconds. With its default level it writes every record. *)
Theorem std_logger_records {W} `{!Has (list log_record) W} (l : StdLogger) ctx name duration err (w : W) :
  let record failed done attrs :=
    match err with
    | Some e => mkRecord LevelError failed (sl_Attrs l ++ trace_attrs ctx ++ attrs ++ [Attr (AStr "error" (Error e))])
    | None => mkRecord LevelInfo done (sl_Attrs l ++ trace_attrs ctx ++ attrs)
    end in
  let written r := if bool_decide (sl_Level l <= lr_Level r)%Z then set_part (part w ++ [r]) w else w in
  LogCommand l ctx name duration err w =
    (Done tt, written (record "command failed" "command executed"
       [Attr (AStr "command" name); IntAttr "duration_ms" (Milliseconds duration)])) /\
  LogQuery l ctx name duration err w =
    (Done tt, written (record "query failed" "query executed"
       [Attr (AStr "query" name); IntAttr "duration_ms" (Milliseconds duration)])) /\
  LogEvent l ctx name err w =
    (Done tt, written (record "event publish failed" "event published" [Attr (AStr "event" name)])) /\
  (l = NewStdLogger -> forall r, written r = set_part (part w ++ [r]) w \/ (lr_Level r < LevelDebug)%Z).
Proof.
  cbn zeta. unfold LogCommand, LogQuery, LogEvent. rewrite with_context. unfold slog_With. cbn.
  split_and!.
  - destruct (log_outcome_run (mkSlog (sl_Level l) ((sl_Attrs l ++ trace_attrs ctx) ++ [Attr (AStr "command" name);
      IntAttr "duration_ms" (Milliseconds duration)])) "command failed" "command executed" err w) as (r & -> & ->).
    destruct err; cbn; by rewrite <- ?app_assoc.
  - destruct (log_outcome_run (mkSlog (sl_Level l) ((sl_Attrs l ++ trace_attrs ctx) ++ [Attr (AStr "query" name);
      IntAttr "duration_ms" (Milliseconds duration)])) "query failed" "query executed" err w) as (r & -> & ->).
    destruct err; cbn; by rewrite <- ?app_assoc.
  - destruct (log_outcome_run (mkSlog (sl_Level l) ((sl_Attrs l ++ trace_attrs ctx) ++ [Attr (AStr "event" name)]))
      "event publish failed" "event published" err w) as (r & -> & ->).
    destruct err; cbn; by rewrite <- ?app_assoc.
  - intros -> r. unfold LevelDebug. cbn. unfold LevelDebug. case_bool_decide; [by left|right; lia].
Qed.

Lemma std_logger_records_witness :
  LogCommand NewStdLogger (WithTrace Background "t1" "s1") "PlaceOrder" 1999999 (Some (ENew "no stock")) [] =
    (Done tt, [mkRecord LevelError "command failed"
       [Attr (AStr "trace_id" "t1"); Attr (AStr "span_id" "s1"); Attr (AStr "command" "PlaceOrder"); IntAttr "duration_ms" 1;
        Attr (AStr "error" "no stock")]]).
Proof.
  exact (proj1 (std_logger_records NewStdLogger (WithTrace Background "t1" "s1") "PlaceOrder" 1999999
    (Some (ENew "no stock")) ([] : list log_record))).
Defined.
