(* ===== verification/Relationship.v ===== *)
(** * The relationship registry: [src/relationship]

    Which handler handles what, which events it emits, and to which domain each
    type belongs; the graph that is shown of it; and the bus wrappers that fill
    it in. *)

From S2P Require Import Prelude Errors Trace Aspect Bus.

Record RelationshipRegistry := mkRegistry {
  commandHandlers : gmap string string;
  queryHandlers : gmap string string;
  eventHandlers : gmap string (list string);
  handlerEmits : gmap string (list string);
  typeDomains : gmap string string }.

Definition NewRegistry : RelationshipRegistry := mkRegistry ∅ ∅ ∅ ∅ ∅.

Section Registry.
Implicit Types r : RelationshipRegistry.

Definition RecordCommandHandler (commandName handlerName : string) r :=
  mkRegistry (<[commandName := handlerName]> (commandHandlers r)) (queryHandlers r)
    (eventHandlers r) (handlerEmits r) (typeDomains r).
Definition RecordQueryHandler (queryName handlerName : string) r :=
  mkRegistry (commandHandlers r) (<[queryName := handlerName]> (queryHandlers r))
    (eventHandlers r) (handlerEmits r) (typeDomains r).
Definition RecordEventHandler (eventName handlerName : string) r :=
  let handlers := mget [] (eventHandlers r) eventName in
  if existsb (fun h => bool_decide (h = handlerName)) handlers then r
  else mkRegistry (commandHandlers r) (queryHandlers r)
         (<[eventName := handlers ++ [handlerName]]> (eventHandlers r)) (handlerEmits r) (typeDomains r).
Definition RecordTypeDomain (tn domain : string) r :=
  mkRegistry (commandHandlers r) (queryHandlers r) (eventHandlers r) (handlerEmits r)
    (<[tn := domain]> (typeDomains r)).
Definition GetTypeDomain (tn : string) r : string := mget "" (typeDomains r) tn.

Definition RecordHandlerEmits (handlerName eventName : string) r :=
  let events := mget [] (handlerEmits r) handlerName in
  if existsb (fun e => bool_decide (e = eventName)) events then r
  else
    let r := mkRegistry (commandHandlers r) (queryHandlers r) (eventHandlers r)
               (<[handlerName := events ++ [eventName]]> (handlerEmits r)) (typeDomains r) in
    let handlerDomain := GetTypeDomain handlerName r in
    if bool_decide (handlerDomain <> "") && bool_decide (GetTypeDomain eventName r = "")
    then RecordTypeDomain eventName handlerDomain r else r.

Definition GetCommandHandler (n : string) r : string := mget "" (commandHandlers r) n.
Definition GetQueryHandler (n : string) r : string := mget "" (queryHandlers r) n.
Definition GetEventHandlers (n : string) r : list string := mget [] (eventHandlers r) n.
Definition GetHandlerEmits (n : string) r : list string := mget [] (handlerEmits r) n.
End Registry.

(** ** The graph *)

Record Node := mkNode { n_ID : string; n_Type : string; n_Domain : string }.
Record Edge := mkEdge { e_Source : string; e_Target : string; e_Type : string }.
Record Graph := mkGraph { g_Nodes : list Node; g_Edges : list Edge; g_Domains : list string }.

#[export] Instance Edge_eq_dec : EqDecision Edge.
Proof. solve_decision. Defined.

(** The calls of [addNode] and [addEdge] that the loops make, in order. *)
Inductive draw := DNode (i t d : string) | DEdge (s t k : string).

Section Graph.
Context `{!SortSlice, !MapRange}.
Implicit Types r : RelationshipRegistry.

Definition draw_messages (kind : string) (r : RelationshipRegistry) (m : gmap string string) : list draw :=
  flat_map (fun '(msg, handler) =>
    let domain := GetTypeDomain msg r in
    [DNode msg kind domain; DNode handler "handler" domain; DEdge msg handler "handles"])
    (map_range m).

Definition draw_events r : list draw :=
  flat_map (fun '(evt, handlers) =>
    let domain := GetTypeDomain evt r in
    DNode evt "event" domain ::
    flat_map (fun handler => [DNode handler "handler" domain; DEdge evt handler "subscribes"]) handlers)
    (map_range (eventHandlers r)).

Definition draw_emits r : list draw :=
  flat_map (fun '(handler, events) =>
    let handlerDomain := GetTypeDomain handler r in
    DNode handler "handler" handlerDomain ::
    flat_map (fun evt =>
      let evtDomain := if bool_decide (GetTypeDomain evt r = "") then handlerDomain
                       else GetTypeDomain evt r in
      [DNode evt "event" evtDomain; DEdge handler evt "emits"]) events)
    (map_range (handlerEmits r)).

Definition draws r : list draw :=
  draw_messages "command" r (commandHandlers r) ++ draw_messages "query" r (queryHandlers r) ++
  draw_events r ++ draw_emits r.

(** [addNode]. *)
Definition add_node (domainFilter typeFilter : string) (i t d : string)
    (acc : gmap string Node * gset string) : gmap string Node * gset string :=
  if bool_decide (domainFilter <> "") && bool_decide (d <> domainFilter) then acc
  else if bool_decide (typeFilter <> "") && bool_decide (t <> typeFilter) then acc
  else (<[i := mkNode i t d]> acc.1, if bool_decide (d <> "") then {[d]} ∪ acc.2 else acc.2).

Definition draw_step (df tf : string) (acc : gmap string Node * gset string * list Edge) (c : draw) :=
  match c with
  | DNode i t d => (add_node df tf i t d acc.1, acc.2)
  | DEdge s t k => (acc.1, acc.2 ++ [mkEdge s t k])
  end.

Definition node_less (a b : Node) : bool :=
  if bool_decide (n_Type a = n_Type b) then string_ltb (n_ID a) (n_ID b)
  else string_ltb (n_Type a) (n_Type b).

Definition BuildGraph (domainFilter typeFilter : string) r : Graph :=
  let '(nodesMap, domainsMap, edges) :=
    fold_left (draw_step domainFilter typeFilter) (draws r) (∅, ∅, []) in
  mkGraph (sort_slice node_less (map snd (map_range nodesMap))) edges
          (sort_slice string_ltb (elements domainsMap)).

Definition list_keys {A} (m : gmap string A) : list string :=
  sort_slice string_ltb (map fst (map_range m)).
Definition ListCommandTypes r : list string := list_keys (commandHandlers r).
Definition ListQueryTypes r : list string := list_keys (queryHandlers r).
Definition ListEventTypes r : list string := list_keys (eventHandlers r).
End Graph.

(** ** Domains of packages *)

(** [strings.Index(s, sub)], [-1] being none. *)
Definition str_index (s sub : string) : option nat := String.index 0 sub s.

(** The text from [start] to the next slash. *)
Definition domain_from (start : nat) (pkgPath : string) : string :=
  let rest := str_from start pkgPath in
  match str_index rest "/" with
  | None => if bool_decide (start < String.length pkgPath) then rest else ""
  | Some e => str_to e rest
  end.

Definition InferDomainFromPkgPath (pkgPath : string) : string :=
  if bool_decide (pkgPath = "") then ""
  else match str_index pkgPath "/ddd/" with
       | Some idx => domain_from (idx + 5) pkgPath
       | None => if str_has_prefix pkgPath "ddd/" then domain_from 4 pkgPath else ""
       end.

(** ** The bus wrappers ([notifying_bus.go]) *)

Definition typePkgPath (t : rtype) : string :=
  match t with TPtr e => PkgPath e | _ => PkgPath t end.

(** What the command, query and event buses have in common: registration may
    panic, and changes the bus. *)
Section Notifying.
Context {W V B : Type} `{!Reflect, !Dynamic V}.
Context (inner_register : handler W V -> B -> outcome (B * error)).

Definition NotifyingBus : Type := B * RelationshipRegistry.
Definition WrapBus (inner : B) (reg : RelationshipRegistry) : NotifyingBus := (inner, reg).

(** [RegisterHandler] of the command and query wrappers and [SubscribeHandler]
    of the event wrapper; [record] is the registry call of each. *)
Definition notifying_register (record : string -> string -> RelationshipRegistry -> RelationshipRegistry)
    (h : handler W V) (b : NotifyingBus) : outcome (NotifyingBus * error) :=
  '(payloadType, ok) ← extractHandlerPayloadType (h_type h);
  if negb ok then
    '(inner, e) ← inner_register h b.1; mret ((inner, b.2), e)
  else
    match payloadType, h_type h with
    | Some pt, Some ht =>
        let name := base_name pt in
        let handlerName := base_name ht in
        let domain := InferDomainFromPkgPath (typePkgPath pt) in
        let reg := RecordTypeDomain handlerName domain
                     (RecordTypeDomain name domain (record name handlerName b.2)) in
        '(inner, e) ← inner_register h b.1; mret ((inner, reg), e)
    | _, _ => Panicked "nil pointer dereference"
    end.

Definition NotifyingCommandBus_RegisterHandler := notifying_register RecordCommandHandler.
Definition NotifyingQueryBus_RegisterHandler := notifying_register RecordQueryHandler.
Definition NotifyingEventBus_SubscribeHandler := notifying_register RecordEventHandler.

(** [Execute], [Publish], [RegisteredTypes], [SubscribedTypes] and [Shutdown]
    are those of the inner bus. *)
Definition notifying_call {A} (inner_call : B -> A) (b : NotifyingBus) : A := inner_call b.1.
End Notifying.
Arguments NotifyingBus : clear implicits.

(** ** Lemmas on the graph *)

(** A recorded relation. *)
Definition related (r : RelationshipRegistry) (e : Edge) : Prop :=
  (e_Type e = "handles" /\
     (commandHandlers r !! e_Source e = Some (e_Target e) \/
      queryHandlers r !! e_Source e = Some (e_Target e))) \/
  (e_Type e = "subscribes" /\
     exists hs, eventHandlers r !! e_Source e = Some hs /\ e_Target e ∈ hs) \/
  (e_Type e = "emits" /\
     exists es, handlerEmits r !! e_Source e = Some es /\ e_Target e ∈ es).

Section GraphLemmas.
Context `{HSS : !SortSlice, HSSL : !SortSliceLaws, HMR : !MapRange, HMRL : !MapRangeLaws}.
Implicit Types r : RelationshipRegistry.

Lemma range_elem {A} (m : gmap string A) k v : In (k, v) (map_range m) <-> m !! k = Some v.
Proof. by rewrite <- list_elem_of_In, map_range_perm, elem_of_map_to_list. Qed.

Definition edge_of (c : draw) : option Edge :=
  match c with DEdge s t k => Some (mkEdge s t k) | DNode _ _ _ => None end.

Lemma fold_edges df tf ds acc :
  (fold_left (draw_step df tf) ds acc).2 = acc.2 ++ omap edge_of ds.
Proof.
  revert acc. induction ds as [|c ds IH]; intros acc; [by rewrite app_nil_r|].
  cbn [fold_left]. rewrite IH. destruct c; cbn; [done|]. by rewrite <- app_assoc.
Qed.

Lemma fold_node_ids df tf ds acc :
  (forall i n, acc.1.1 !! i = Some n -> n_ID n = i) ->
  forall i n, (fold_left (draw_step df tf) ds acc).1.1 !! i = Some n -> n_ID n = i.
Proof.
  revert acc. induction ds as [|c ds IH]; intros acc Hacc; [done|].
  cbn [fold_left]. apply IH. intros i n. destruct c as [i' t d|]; cbn; [|apply Hacc].
  unfold add_node. do 2 (case_match; [apply Hacc|]). cbn.
  intros [[<- <-]|[_ Hn]]%lookup_insert_Some; [done|by apply Hacc].
Qed.

Lemma add_node_unfiltered i t d acc :
  add_node "" "" i t d acc =
  (<[i := mkNode i t d]> acc.1, if bool_decide (d <> "") then {[d]} ∪ acc.2 else acc.2).
Proof. reflexivity. Qed.

Lemma fold_nodes ds acc i :
  is_Some ((fold_left (draw_step "" "") ds acc).1.1 !! i) <->
  is_Some (acc.1.1 !! i) \/ exists t d, In (DNode i t d) ds.
Proof.
  revert acc. induction ds as [|c ds IH]; intros acc; cbn [fold_left].
  { split; [by left|]. by intros [?|(? & ? & [])]. }
  rewrite IH. destruct c as [i' t d|s t k]; cbn [draw_step fst snd].
  - rewrite add_node_unfiltered. cbn [fst]. cbn [In].
    destruct (decide (i = i')) as [->|Hne].
    + rewrite lookup_insert_eq. split; [|by left; eauto]. right. eauto.
    + rewrite lookup_insert_ne by done. split; intros [?|(t' & d' & H)]; auto; right.
      * eauto.
      * destruct H as [H|H]; [congruence|eauto].
  - cbn [In]. split; (intros [?|(t' & d' & H)]; [by left|right]); [eauto|].
    destruct H as [H|H]; [done|eauto].
Qed.

Lemma fold_filter df tf ds acc :
  (forall i n, acc.1.1 !! i = Some n ->
     (df = "" \/ n_Domain n = df) /\ (tf = "" \/ n_Type n = tf)) ->
  forall i n, (fold_left (draw_step df tf) ds acc).1.1 !! i = Some n ->
    (df = "" \/ n_Domain n = df) /\ (tf = "" \/ n_Type n = tf).
Proof.
  revert acc. induction ds as [|c ds IH]; intros acc Hacc; [done|].
  cbn [fold_left]. apply IH. intros i n. destruct c as [i' t d|]; cbn; [|apply Hacc].
  unfold add_node.
  destruct (decide (df = "")) as [Hdf|Hdf], (decide (d = df)) as [Hd|Hd],
    (decide (tf = "")) as [Htf|Htf], (decide (t = tf)) as [Ht|Ht];
    rewrite ?(bool_decide_eq_true_2 (df <> "")), ?(bool_decide_eq_false_2 (df <> "")),
      ?(bool_decide_eq_true_2 (d <> df)), ?(bool_decide_eq_false_2 (d <> df)),
      ?(bool_decide_eq_true_2 (tf <> "")), ?(bool_decide_eq_false_2 (tf <> "")),
      ?(bool_decide_eq_true_2 (t <> tf)), ?(bool_decide_eq_false_2 (t <> tf)) by tauto;
    cbn; try apply Hacc;
    (intros [[<- <-]|[_ Hn]]%lookup_insert_Some; [cbn; tauto|by eapply Hacc]).
Qed.

(** Every edge that is drawn has both its nodes drawn. *)
Definition drawn_closed (ds : list draw) : Prop := forall s t k, In (DEdge s t k) ds ->
  (exists ty d, In (DNode s ty d) ds) /\ (exists ty d, In (DNode t ty d) ds).

Lemma drawn_closed_app ds1 ds2 :
  drawn_closed ds1 -> drawn_closed ds2 -> drawn_closed (ds1 ++ ds2).
Proof.
  intros H1 H2 s t k [H|H]%in_app_or; [apply H1 in H|apply H2 in H];
    destruct H as [(a & b & Ha) (c & d & Hb)];
    split; eexists _, _; apply in_or_app; eauto.
Qed.

Lemma drawn_closed_flat_map {A} (f : A -> list draw) l :
  (forall x, drawn_closed (f x)) -> drawn_closed (flat_map f l).
Proof.
  intros Hf. induction l as [|x l IH]; [done|]. by apply drawn_closed_app.
Qed.

(** The drawing of one message with its handlers, or of a handler with its events. *)
Definition star (c kind cd ty : string) (dm : string -> string) (ek : string) (hs : list string) :
    list draw :=
  DNode c kind cd :: flat_map (fun h => [DNode h ty (dm h); DEdge c h ek]) hs.

Lemma star_edge c kind cd ty dm ek hs s t k :
  In (DEdge s t k) (star c kind cd ty dm ek hs) <-> k = ek /\ s = c /\ In t hs.
Proof.
  unfold star. cbn [In]. rewrite in_flat_map. split.
  - intros [H|(h & Hh & [H|[H|[]]])]; try done. injection H as <- <- <-. done.
  - intros (-> & -> & Ht). right. exists t. cbn. auto.
Qed.

Lemma star_closed c kind cd ty dm ek hs : drawn_closed (star c kind cd ty dm ek hs).
Proof.
  intros s t k H. apply star_edge in H as (-> & -> & Ht). unfold star. split.
  - exists kind, cd. by left.
  - exists ty, (dm t). right. apply in_flat_map. exists t. cbn. auto.
Qed.

Lemma draw_events_star r :
  draw_events r = flat_map (fun p => let '(evt, hs) := p in
    star evt "event" (GetTypeDomain evt r) "handler" (fun _ => GetTypeDomain evt r) "subscribes" hs)
    (map_range (eventHandlers r)).
Proof. reflexivity. Qed.

Lemma draw_emits_star r :
  draw_emits r = flat_map (fun p => let '(handler, es) := p in
    star handler "handler" (GetTypeDomain handler r) "event"
      (fun evt => if bool_decide (GetTypeDomain evt r = "") then GetTypeDomain handler r
                  else GetTypeDomain evt r) "emits" es)
    (map_range (handlerEmits r)).
Proof. reflexivity. Qed.

Lemma draw_messages_edge kind r m s t k :
  In (DEdge s t k) (draw_messages kind r m) <-> k = "handles" /\ m !! s = Some t.
Proof.
  unfold draw_messages. rewrite in_flat_map. split.
  - intros ([c h] & Hc & [H|[H|[H|[]]]]); try done. injection H as <- <- <-.
    by apply range_elem in Hc.
  - intros [-> Hc]. exists (s, t). rewrite range_elem. split; [done|]. cbn. auto.
Qed.

Lemma draws_closed r : drawn_closed (draws r).
Proof.
  unfold draws. rewrite draw_events_star, draw_emits_star.
  repeat apply drawn_closed_app; apply drawn_closed_flat_map; intros [k v];
    try apply star_closed; intros s t e [H|[H|[H|[]]]]; try done; injection H as <- <- <-;
    cbn; eauto 10.
Qed.

Lemma draws_edges r s t k : In (DEdge s t k) (draws r) <-> related r (mkEdge s t k).
Proof.
  unfold draws, related. cbn [e_Type e_Source e_Target].
  rewrite !in_app_iff, !draw_messages_edge, draw_events_star, draw_emits_star, !in_flat_map.
  split.
  - intros [?|[?|[([c hs] & Hc & H)|([c hs] & Hc & H)]]]; try tauto;
      apply range_elem in Hc; apply star_edge in H as (-> & -> & Ht);
      apply list_elem_of_In in Ht; eauto 8.
  - intros [[-> [?|?]]|[(-> & hs & Hc & Ht)|(-> & hs & Hc & Ht)]]; [tauto|tauto| |];
      apply list_elem_of_In in Ht; apply range_elem in Hc.
    + do 2 right. left. exists (s, hs). split; [done|]. by apply star_edge.
    + do 3 right. exists (s, hs). split; [done|]. by apply star_edge.
Qed.

(** What [BuildGraph] shows of the drawing. *)
Lemma graph_edges df tf r : g_Edges (BuildGraph df tf r) = omap edge_of (draws r).
Proof.
  unfold BuildGraph.
  pose proof (fold_edges df tf (draws r) (∅, ∅, [])) as He.
  destruct (fold_left _ _ _) as [[nodes doms] es]. exact He.
Qed.

Lemma graph_nodes df tf r :
  g_Nodes (BuildGraph df tf r) ≡ₚ
  map snd (map_to_list (fold_left (draw_step df tf) (draws r) (∅, ∅, [])).1.1).
Proof.
  unfold BuildGraph. destruct (fold_left _ _ _) as [[nodes doms] es]. cbn.
  rewrite sort_slice_perm. by rewrite map_range_perm.
Qed.

Lemma edges_drawn r e : e ∈ omap edge_of (draws r) <-> related r e.
Proof.
  destruct e as [s t k]. rewrite <- draws_edges, list_elem_of_omap. split.
  - intros ([] & Hin & He); [done|]. injection He as -> -> ->. by apply list_elem_of_In.
  - intros H. eexists. split; [by apply list_elem_of_In|done].
Qed.
End GraphLemmas.

(** ** Properties *)

(** C29: The graph shows exactly what was recorded: an edge is in the graph, whatever
    the filters, iff it is a recorded handling, subscription or emission; without filters both
    its ends are nodes; every node has its own identity; and with filters every node is of the
    wanted domain and type. None of this depends on the order in which Go ranges over maps. *)
Theorem graph_shows_records `{!SortSlice, !SortSliceLaws, !MapRange, !MapRangeLaws}
    (df tf : string) (r : RelationshipRegistry) :
  (forall e, e ∈ g_Edges (BuildGraph df tf r) <-> related r e) /\
  (forall e, e ∈ g_Edges (BuildGraph "" "" r) ->
     e_Source e ∈ map n_ID (g_Nodes (BuildGraph "" "" r)) /\
     e_Target e ∈ map n_ID (g_Nodes (BuildGraph "" "" r))) /\
  NoDup (map n_ID (g_Nodes (BuildGraph df tf r))) /\
  (forall n, n ∈ g_Nodes (BuildGraph df tf r) ->
     (df = "" \/ n_Domain n = df) /\ (tf = "" \/ n_Type n = tf)).
Proof.
  assert (forall df tf i n,
    (fold_left (draw_step df tf) (draws r) (∅, ∅, [])).1.1 !! i = Some n -> n_ID n = i) as Hid.
  { intros df' tf'. apply fold_node_ids. by intros i n. }
  assert (forall i, is_Some ((fold_left (draw_step "" "") (draws r) (∅, ∅, [])).1.1 !! i) ->
    i ∈ map n_ID (g_Nodes (BuildGraph "" "" r))) as Hin.
  { intros i [n Hn]. rewrite graph_nodes. apply list_elem_of_fmap. exists n.
    split; [by rewrite (Hid _ _ _ _ Hn)|]. apply list_elem_of_fmap. exists (i, n).
    split; [done|]. by apply elem_of_map_to_list. }
  split_and!.
  - intros e. rewrite graph_edges. apply edges_drawn.
  - intros [s t k] He. rewrite graph_edges, edges_drawn, <- draws_edges in He.
    destruct (draws_closed r _ _ _ He) as [Hs Ht].
    split; apply Hin, fold_nodes; by right.
  - rewrite graph_nodes.
    set (m := (fold_left _ _ _).1.1). pose proof (Hid df tf) as Hm. fold m in Hm. clearbody m.
    rewrite map_map.
    assert (map (fun p : string * Node => n_ID p.2) (map_to_list m) = map fst (map_to_list m)) as ->.
    { apply map_ext_in. intros [i n] Hin'. cbn. apply Hm. apply elem_of_map_to_list.
      by apply list_elem_of_In. }
    apply NoDup_fst_map_to_list.
  - intros n. rewrite graph_nodes. intros ([i n'] & -> & Hn)%list_elem_of_fmap. cbn.
    apply elem_of_map_to_list in Hn. revert Hn. apply (fold_filter df tf (draws r) (∅, ∅, [])).
    by intros.
Qed.

Module DemoGraph.
Definition reg : RelationshipRegistry :=
  RecordHandlerEmits "PlaceOrderHandler" "OrderPlaced"
    (RecordTypeDomain "PlaceOrderHandler" "order"
      (RecordTypeDomain "PlaceOrder" "order"
        (RecordCommandHandler "PlaceOrder" "PlaceOrderHandler" NewRegistry))).
End DemoGraph.

(** With a filter the edges stay, also those whose ends are filtered out. *)
Example filtered_edges_dangle :
  g_Nodes (BuildGraph "billing" "" DemoGraph.reg) = [] /\
  length (g_Edges (BuildGraph "billing" "" DemoGraph.reg)) = 2.
Proof. vm_compute. done. Qed.

Lemma graph_shows_records_witness :
  g_Edges (BuildGraph "order" "" DemoGraph.reg) =
    [mkEdge "PlaceOrder" "PlaceOrderHandler" "handles"; mkEdge "PlaceOrderHandler" "OrderPlaced" "emits"] /\
  NoDup (map n_ID (g_Nodes (BuildGraph "order" "" DemoGraph.reg))).
Proof.
  split; [vm_compute; reflexivity|].
  exact (proj1 (proj2 (proj2 (graph_shows_records "order" "" DemoGraph.reg)))).
Defined.
