(* ===== verification/NotifyingBus.v ===== *)
(** * The bus interfaces and the wrapped buses: [src/relationship/notifying_bus.go]

    The interfaces [command.CommandBus], [query.QueryBus] and [event.EventBus] as
    records of operations on a bus of any kind, and the three wrappers as
    implementations of them by an inner one: a wrapped bus answers as the inner
    bus does, and the registry holds what was registered through it. *)

From S2P Require Import Prelude Errors Trace Aspect Bus EventBus Relationship.

(** ** The interfaces

    [Shutdown] takes the caller's context; [B] is the state of the bus itself. *)
Record CommandBus (W V B : Type) := mkCommandBus {
  cb_Execute : B -> context -> V -> GoM W (V * error);
  cb_RegisterHandler : handler W V -> B -> outcome (B * error);
  cb_RegisteredTypes : B -> outcome (list string);
  cb_Shutdown : B -> context -> GoM W error }.
Arguments mkCommandBus {W V B} _ _ _ _.
Arguments cb_Execute {W V B} _ _ _ _.
Arguments cb_RegisterHandler {W V B} _ _ _.
Arguments cb_RegisteredTypes {W V B} _ _.
Arguments cb_Shutdown {W V B} _ _ _.

Record QueryBus (W V B : Type) := mkQueryBus {
  qb_Execute : B -> context -> V -> GoM W (V * error);
  qb_RegisterHandler : handler W V -> B -> outcome (B * error);
  qb_RegisteredTypes : B -> outcome (list string);
  qb_Shutdown : B -> context -> GoM W error }.
Arguments mkQueryBus {W V B} _ _ _ _.
Arguments qb_Execute {W V B} _ _ _ _.
Arguments qb_RegisterHandler {W V B} _ _ _.
Arguments qb_RegisteredTypes {W V B} _ _.
Arguments qb_Shutdown {W V B} _ _ _.

Record EventBusI (W V B : Type) := mkEventBusI {
  eb_SubscribeHandler : handler W V -> B -> outcome (B * error);
  eb_Publish : B -> context -> V -> GoM W error;
  eb_SubscribedTypes : B -> outcome (list string);
  eb_Shutdown : B -> context -> GoM W error }.
Arguments mkEventBusI {W V B} _ _ _ _.
Arguments eb_SubscribeHandler {W V B} _ _ _.
Arguments eb_Publish {W V B} _ _ _ _.
Arguments eb_SubscribedTypes {W V B} _ _.
Arguments eb_Shutdown {W V B} _ _ _.

(** ** The wrappers *)

Section Wrappers.
Context {W V B : Type} `{!Reflect, !Dynamic V}.

Definition WrapCommandBus (inner : B) (reg : RelationshipRegistry) : NotifyingBus B := WrapBus inner reg.
Definition WrapQueryBus (inner : B) (reg : RelationshipRegistry) : NotifyingBus B := WrapBus inner reg.
Definition WrapEventBus (inner : B) (reg : RelationshipRegistry) : NotifyingBus B := WrapBus inner reg.

Section Command.
Context (inner : CommandBus W V B).
Definition NotifyingCommandBus_Execute (b : NotifyingBus B) (ctx : context) (cmd : V) : GoM W (V * error) :=
  cb_Execute inner b.1 ctx cmd.
Definition NotifyingCommandBus_RegisteredTypes (b : NotifyingBus B) : outcome (list string) :=
  cb_RegisteredTypes inner b.1.
Definition NotifyingCommandBus_Shutdown (b : NotifyingBus B) (ctx : context) : GoM W error :=
  cb_Shutdown inner b.1 ctx.
Definition NotifyingCommandBus : CommandBus W V (NotifyingBus B) :=
  mkCommandBus NotifyingCommandBus_Execute (NotifyingCommandBus_RegisterHandler (cb_RegisterHandler inner))
    NotifyingCommandBus_RegisteredTypes NotifyingCommandBus_Shutdown.
End Command.

Section Query.
Context (inner : QueryBus W V B).
Definition NotifyingQueryBus_Execute (b : NotifyingBus B) (ctx : context) (q : V) : GoM W (V * error) :=
  qb_Execute inner b.1 ctx q.
Definition NotifyingQueryBus_RegisteredTypes (b : NotifyingBus B) : outcome (list string) :=
  qb_RegisteredTypes inner b.1.
Definition NotifyingQueryBus_Shutdown (b : NotifyingBus B) (ctx : context) : GoM W error :=
  qb_Shutdown inner b.1 ctx.
Definition NotifyingQueryBus : QueryBus W V (NotifyingBus B) :=
  mkQueryBus NotifyingQueryBus_Execute (NotifyingQueryBus_RegisterHandler (qb_RegisterHandler inner))
    NotifyingQueryBus_RegisteredTypes NotifyingQueryBus_Shutdown.
End Query.

Section Event.
Context (inner : EventBusI W V B).
Definition NotifyingEventBus_Publish (b : NotifyingBus B) (ctx : context) (evt : V) : GoM W error :=
  eb_Publish inner b.1 ctx evt.
Definition NotifyingEventBus_SubscribedTypes (b : NotifyingBus B) : outcome (list string) :=
  eb_SubscribedTypes inner b.1.
Definition NotifyingEventBus_Shutdown (b : NotifyingBus B) (ctx : context) : GoM W error :=
  eb_Shutdown inner b.1 ctx.
Definition NotifyingEventBus : EventBusI W V (NotifyingBus B) :=
  mkEventBusI (NotifyingEventBus_SubscribeHandler (eb_SubscribeHandler inner)) NotifyingEventBus_Publish
    NotifyingEventBus_SubscribedTypes NotifyingEventBus_Shutdown.
End Event.
End Wrappers.

(** ** Registering through a wrapper *)

Section Registering.
Context {W V B : Type} `{!Reflect, !Dynamic V}.
Implicit Types (h : handler W V) (r : RelationshipRegistry).

(** A list of handlers registered one after the other; the answers. *)
Fixpoint register_each {S} (register : handler W V -> S -> outcome (S * error)) (hs : list (handler W V)) (s : S) :
    outcome (S * list error) :=
  match hs with
  | [] => Done (s, [])
  | h :: hs =>
      '(s, e) ← register h s;
      '(s, es) ← register_each register hs s;
      mret (s, e :: es)
  end.

(** The message and the handler that the wrapper names, if it names one. *)
Definition names h : option (rtype * rtype) :=
  match extractHandlerPayloadType (h_type h), h_type h with
  | Done (Some pt, true), Some ht => Some (pt, ht)
  | _, _ => None
  end.

(** The wrapper does not fail itself: it names the handler, or leaves it to the inner bus. *)
Definition wrappable h : Prop :=
  is_Some (names h) \/ exists pt, extractHandlerPayloadType (h_type h) = Done (pt, false).

Definition note (record : string -> string -> RelationshipRegistry -> RelationshipRegistry) r h : RelationshipRegistry :=
  match names h with
  | None => r
  | Some (pt, ht) =>
      let domain := InferDomainFromPkgPath (typePkgPath pt) in
      RecordTypeDomain (base_name ht) domain (RecordTypeDomain (base_name pt) domain (record (base_name pt) (base_name ht) r))
  end.

Lemma notifying_register_clear (inner_register : handler W V -> B -> outcome (B * error)) record h b r :
  wrappable h ->
  notifying_register inner_register record h (b, r) =
    ('(b', e) ← inner_register h b; mret ((b', note record r h), e)).
Proof.
  unfold wrappable, notifying_register, note, names. intros Hh.
  destruct (extractHandlerPayloadType (h_type h)) as [[[pt|] []]|why]; cbn;
    destruct Hh as [[x Hx]|[pt' Hpt]]; try done; destruct (h_type h); done.
Qed.

Lemma register_each_wrapped (inner_register : handler W V -> B -> outcome (B * error)) record hs b r :
  Forall wrappable hs ->
  register_each (notifying_register inner_register record) hs (b, r) =
    ('(b', es) ← register_each inner_register hs b; mret ((b', fold_left (note record) hs r), es)).
Proof.
  intros Hhs. revert b r. induction Hhs as [|h hs Hh _ IH]; intros b r; [done|].
  cbn [register_each fold_left]. rewrite notifying_register_clear by done.
  unfold mbind, outcome_bind. destruct (inner_register h b) as [[b' e]|]; [|done].
  cbn. rewrite IH. unfold mbind, outcome_bind. by destruct (register_each inner_register hs b') as [[b'' es]|].
Qed.

(** The name of the handler last registered for a message name. *)
Fixpoint last_named (n : string) (hs : list (handler W V)) (old : string) : string :=
  match hs with
  | [] => old
  | h :: hs =>
      last_named n hs (match names h with
                       | Some (pt, ht) => if bool_decide (base_name pt = n) then base_name ht else old
                       | None => old
                       end)
  end.

Lemma command_noted hs n r :
  GetCommandHandler n (fold_left (note RecordCommandHandler) hs r) = last_named n hs (GetCommandHandler n r).
Proof.
  revert r. induction hs as [|h hs IH]; intros r; [done|]. cbn [fold_left last_named]. rewrite IH. f_equal.
  unfold note. destruct (names h) as [[pt ht]|]; [|done]. unfold GetCommandHandler. cbn. case_bool_decide as Hn.
  - subst. apply mget_insert_eq.
  - by apply mget_insert_ne.
Qed.
End Registering.

(** ** Properties *)

(** C30: A wrapped command bus is the inner bus to its callers: registering handlers through it, whatever the inner
    bus is, gives the same answers and leaves the inner bus as registering them there does, also when the inner
    bus refuses some or panics; execution, the registered types and shutdown are those of the inner bus. The
    registry names for every message the handler that was registered last for it, and has what it had for the
    others. The condition is that the wrapper can name each handler or passes it on: it panics on a handler by
    value whose Handle takes no message. *)
Theorem notifying_transparent {W V B} `{!Reflect, !Dynamic V} (inner : CommandBus W V B) (hs : list (handler W V)) b r :
  Forall wrappable hs ->
  register_each (cb_RegisterHandler (NotifyingCommandBus inner)) hs (WrapCommandBus b r) =
    ('(b', es) ← register_each (cb_RegisterHandler inner) hs b;
     mret (WrapCommandBus b' (fold_left (note RecordCommandHandler) hs r), es)) /\
  (forall b' r', cb_Execute (NotifyingCommandBus inner) (WrapCommandBus b' r') = cb_Execute inner b' /\
     cb_RegisteredTypes (NotifyingCommandBus inner) (WrapCommandBus b' r') = cb_RegisteredTypes inner b' /\
     cb_Shutdown (NotifyingCommandBus inner) (WrapCommandBus b' r') = cb_Shutdown inner b') /\
  forall n, GetCommandHandler n (fold_left (note RecordCommandHandler) hs r) = last_named n hs (GetCommandHandler n r).
Proof.
  intros Hhs. split; [by apply register_each_wrapped|]. split; [done|]. intros n. apply command_noted.
Qed.

(** ** A duplicate

    The bus keeps the first of two handlers of a command, the registry names the second. *)
Module DemoNotify.
Import DemoBus.
#[export] Instance two_handlers : Reflect := {
  methods t := match t with
    | TPtr (TNamed "demo" "demo" "First") => [mkMethod "Handle" [t; ctx_t; TPtr (TNamed "demo" "demo" "A")]]
    | TPtr (TNamed "demo" "demo" "Second") => [mkMethod "Handle" [t; ctx_t; TPtr (TNamed "demo" "demo" "A")]]
    | _ => [] end;
  assignable a b := bool_decide (a = b);
  has_pointer := is_ptr;
  ctx_dyn := ctx_t }.
Definition first : handler world value :=
  mkHandler (Some (TPtr (TNamed "demo" "demo" "First"))) 1 (fun _ _ => mret [VInt 1; VNil]).
Definition second_ : handler world value :=
  mkHandler (Some (TPtr (TNamed "demo" "demo" "Second"))) 2 (fun _ _ => mret [VInt 2; VNil]).

(** The in-memory bus as an implementation of the interface; its shutdown, which is a protocol of several steps,
    plays no part here. *)
Definition memory_bus : CommandBus world value (messageBus world value) :=
  mkCommandBus CommandBus_Execute RegisterHandler registeredTypes (fun _ _ => mret None).
End DemoNotify.
Import DemoBus DemoNotify.

Lemma notifying_transparent_witness :
  register_each (cb_RegisterHandler (NotifyingCommandBus memory_bus)) [first; second_]
      (WrapCommandBus (newMessageBus NewAspectChain) NewRegistry) =
    ('(b', es) ← register_each (cb_RegisterHandler memory_bus) [first; second_] (newMessageBus NewAspectChain);
     mret (WrapCommandBus b' (fold_left (note RecordCommandHandler) [first; second_] NewRegistry), es)) /\
  GetCommandHandler "A" (fold_left (note RecordCommandHandler) [first; second_] NewRegistry) = "Second".
Proof.
  assert (Forall wrappable [first; second_]) as Hc by (apply Forall_cons; split; [|apply Forall_cons; split; [|constructor]]; left; vm_compute; by eexists).
  destruct (notifying_transparent memory_bus [first; second_] (newMessageBus NewAspectChain) NewRegistry Hc) as (H1 & _ & H3).
  split; [exact H1|]. rewrite (H3 "A"). vm_compute. reflexivity.
Defined.

(** What runs is the first. *)
Example first_runs :
  match register_each (cb_RegisterHandler (NotifyingCommandBus memory_bus)) [first; second_]
          (WrapCommandBus (newMessageBus NewAspectChain) NewRegistry) with
  | Done (b, [None; Some _]) =>
      (cb_Execute (NotifyingCommandBus memory_bus) b Background (VCmd "A") DemoBus.w0).1 = Done (VInt 1, None) /\
      GetCommandHandler "A" b.2 = "Second"
  | _ => False
  end.
Proof. vm_compute. done. Qed.
