(* ===== verification/Lint.v ===== *)
(** * The architecture linters: [src/lint]

    The package-path convention of [src/lint/convention/paths.go] and the
    analyzers built on it, as functions from what a pass shows of a package
    (its path, its imports, its declarations) to the diagnostics they report. *)

From S2P Require Import Prelude Errors Relationship.

(** ** Package paths ([paths.go]) *)

Inductive PackageKind := KindOther | KindPublic | KindInternal | KindWire.

#[export] Instance PackageKind_eq_dec : EqDecision PackageKind.
Proof. solve_decision. Defined.

Record PkgInfo := mkPkgInfo {
  DDDPrefix : string;
  ModuleName : string;
  DomainName : string;
  SubPkg : string;
  Kind : PackageKind }.

(** The byte of ["/"]. *)
Definition slash : Ascii.ascii := Ascii.Ascii true true true true false true false false.

Definition classifySubPkg (subPkg : string) : PackageKind :=
  if bool_decide (subPkg = "") then KindInternal
  else
    let firstSeg := match str_index subPkg "/" with Some idx => str_to idx subPkg | None => subPkg end in
    if bool_decide (firstSeg ∈ ["command"; "query"; "event"]) then KindPublic
    else if bool_decide (firstSeg ∈ ["domain"; "service"; "repository"]) then KindInternal
    else if bool_decide (firstSeg = "wire") then KindWire
    else KindOther.

(** The index of the first segment that is [ddd]. *)
Definition ddd_index (parts : list string) : option nat :=
  fst <$> list_find (fun p => p = "ddd") parts.

(** [parts[dddIdx-1]] panics when the first segment is [ddd]. *)
Definition ParsePkgPath (pkgPath : string) : outcome (option PkgInfo) :=
  let parts := str_split slash pkgPath in
  match ddd_index parts with
  | None => Done None
  | Some dddIdx =>
      if bool_decide (length parts <= dddIdx + 1) then Done None
      else
        let prefix := str_join "/" (take dddIdx parts) in
        moduleName ← (match dddIdx with
                      | 0 => Panicked "index out of range"
                      | S i => index_get parts i
                      end);
        domainName ← index_get parts (dddIdx + 1);
        let subPkg := if bool_decide (dddIdx + 2 < length parts)
                      then str_join "/" (drop (dddIdx + 2) parts) else "" in
        mret (Some (mkPkgInfo prefix moduleName domainName subPkg (classifySubPkg subPkg)))
  end.

Definition IsDDDPackage (pkgPath : string) : outcome bool :=
  info ← ParsePkgPath pkgPath; mret (match info with Some _ => true | None => false end).
Definition IsInternalPackage (pkgPath : string) : outcome bool :=
  info ← ParsePkgPath pkgPath;
  mret (match info with Some i => bool_decide (Kind i = KindInternal) | None => false end).

Definition same_domain (i1 i2 : PkgInfo) : bool :=
  bool_decide (DDDPrefix i1 = DDDPrefix i2) && bool_decide (DomainName i1 = DomainName i2).

Definition SameDomain (p1 p2 : string) : outcome bool :=
  i1 ← ParsePkgPath p1; i2 ← ParsePkgPath p2;
  mret (match i1, i2 with Some i1, Some i2 => same_domain i1 i2 | _, _ => false end).
Definition SameModule (p1 p2 : string) : outcome bool :=
  i1 ← ParsePkgPath p1; i2 ← ParsePkgPath p2;
  mret (match i1, i2 with
        | Some i1, Some i2 => bool_decide (ModuleName i1 = ModuleName i2) | _, _ => false end).

(** ** What a pass shows, and what it reports *)

(** An import: its position and its path, the quotes of the literal trimmed. *)
Record import_spec := mkImport { imp_Pos : Z; imp_Path : string }.

(** A diagnostic: its position, the analyzer, and the arguments of its message. *)
Record diagnostic := mkDiag { d_Pos : Z; d_Analyzer : string; d_Args : list string }.

(** A pass over imports: [check] gives the diagnostic of one import, if any. *)
Fixpoint over_imports (check : import_spec -> outcome (option diagnostic)) (imps : list import_spec) :
    outcome (list diagnostic) :=
  match imps with
  | [] => Done []
  | imp :: rest =>
      d ← check imp;
      ds ← over_imports check rest;
      mret (match d with Some d => d :: ds | None => ds end)
  end.

Definition crossdomain_check (current : PkgInfo) (imp : import_spec) : outcome (option diagnostic) :=
  importInfo ← ParsePkgPath (imp_Path imp);
  mret (match importInfo with
        | None => None
        | Some i =>
            if same_domain current i then None
            else if bool_decide (Kind i = KindInternal)
            then Some (mkDiag (imp_Pos imp) "dddcrossdomain" [imp_Path imp; DomainName i; DomainName current])
            else None
        end).

Definition crossdomain_run (pkg : string) (imps : list import_spec) : outcome (list diagnostic) :=
  currentInfo ← ParsePkgPath pkg;
  match currentInfo with
  | None => mret []
  | Some current => over_imports (crossdomain_check current) imps
  end.

Definition crossmodule_check (pkg : string) (current : PkgInfo) (imp : import_spec) :
    outcome (option diagnostic) :=
  importInfo ← ParsePkgPath (imp_Path imp);
  match importInfo with
  | None => mret None
  | Some i =>
      same ← SameModule pkg (imp_Path imp);
      mret (if (same : bool) then None
            else if bool_decide (Kind i = KindInternal)
            then Some (mkDiag (imp_Pos imp) "dddcrossmodule" [imp_Path imp; ModuleName i; ModuleName current])
            else None)
  end.

Definition crossmodule_run (pkg : string) (imps : list import_spec) : outcome (list diagnostic) :=
  currentInfo ← ParsePkgPath pkg;
  match currentInfo with
  | None => mret []
  | Some current => over_imports (crossmodule_check pkg current) imps
  end.

Definition isImplPackage (importPath : string) : bool := str_contains importPath "/cqrs/impl/".

Definition implimport_run (pkg : string) (imps : list import_spec) : outcome (list diagnostic) :=
  currentInfo ← ParsePkgPath pkg;
  match currentInfo with
  | None => mret []
  | Some current =>
      if bool_decide (Kind current = KindWire) then mret []
      else over_imports (fun imp =>
             Done (if isImplPackage (imp_Path imp)
                   then Some (mkDiag (imp_Pos imp) "dddimplimport" [imp_Path imp]) else None)) imps
  end.

Definition isAllowedImport (importPath : string) (current : PkgInfo) : outcome bool :=
  if negb (str_contains importPath ".") then Done true
  else if str_contains importPath "/cqrs/impl/" then Done true
  else if str_has_prefix importPath "github.com/ddd-qce/core/" then Done true
  else
    importInfo ← ParsePkgPath importPath;
    mret (match importInfo with
          | None => true
          | Some i => same_domain current i || bool_decide (Kind i = KindWire)
          end).

Definition wireimport_run (pkg : string) (imps : list import_spec) : outcome (list diagnostic) :=
  currentInfo ← ParsePkgPath pkg;
  match currentInfo with
  | None => mret []
  | Some current =>
      if negb (bool_decide (Kind current = KindWire)) then mret []
      else over_imports (fun imp =>
             ok ← isAllowedImport (imp_Path imp) current;
             mret (if (ok : bool) then None
                   else Some (mkDiag (imp_Pos imp) "dddwireimport" [imp_Path imp]))) imps
  end.

(** ** Field counts ([fieldcount]) *)

(** A type declaration: its position, its name, and, for a struct, its fields,
    each the list of the names it declares (none for an embedded field); the
    field list itself may be nil. *)
Record type_spec := mkTypeSpec {
  ts_Pos : Z; ts_Name : string; ts_Struct : option (option (list (list string))) }.

Definition countFields (fields : option (list (list string))) : Z :=
  match fields with
  | None => 0
  | Some l => zlen (List.filter (fun names => negb (bool_decide (names = []))) l)
  end.

Definition message_kind (subPkg typeName : string) : string :=
  if bool_decide (subPkg = "command") then
    if str_has_suffix typeName "Command" then "command" else ""
  else if bool_decide (subPkg = "query") then
    if str_has_suffix typeName "Query" then "query" else ""
  else if bool_decide (subPkg = "event") then
    if str_has_suffix typeName "Event" then "event" else ""
  else "".

Definition fieldcount_run (maxFields : Z) (pkg : string) (specs : list type_spec) :
    outcome (list diagnostic) :=
  pkgInfo ← ParsePkgPath pkg;
  mret (match pkgInfo with
        | None => []
        | Some i =>
            if negb (bool_decide (Kind i = KindPublic)) then []
            else omap (fun ts =>
              match ts_Struct ts with
              | None => None
              | Some fields =>
                  let kind := message_kind (SubPkg i) (ts_Name ts) in
                  if bool_decide (kind = "") then None
                  else if str_has_suffix (ts_Name ts) "Result" then None
                  else if bool_decide (maxFields < countFields fields)%Z
                  then Some (mkDiag (ts_Pos ts) "dddfieldcount"
                               [kind; ts_Name ts; pretty (countFields fields); pretty maxFields; kind])
                  else None
              end) specs
        end).

(** ** Assignments to entity fields ([fieldaccess]) *)

Definition protectedFieldPatterns : list string :=
  ["Status"; "Mode"; "At"; "Error"; "ID"; "Index"; "Name"; "From"; "Reason"; "Output"].

Definition isProtectedField (name : string) : bool :=
  if bool_decide (name ∈ ["ID"; "Name"; "PID"]) then false
  else if bool_decide (name ∈ ["Status"; "ErrorMessage"; "StartedAt"; "EndedAt"; "CompletedAt"]) then true
  else existsb (fun suffix => str_has_suffix name suffix &&
                              bool_decide (String.length suffix < String.length name))
         protectedFieldPatterns.

(** An assigned selector expression: its position and field name, and what type
    checking knows of it: nothing, or whether it selects a field, and the path of
    the package of the field, if any. *)
Record selector := mkSelector {
  sel_Pos : Z; sel_Name : string; sel_Selection : option (bool * option string) }.

Definition isDomainEntityField (selection : bool * option string) : bool :=
  match selection with
  | (true, Some pkgPath) => str_contains pkgPath "/ddd/" && str_contains pkgPath "/domain"
  | _ => false
  end.

Definition isExemptPkg (p : string) : bool := str_has_suffix p "_test" || str_contains p "/infra/pg".

(** [lhss]: the left-hand sides of the assignments that are selectors, in order. *)
Definition fieldaccess_run (pkg : string) (lhss : list selector) : outcome (list diagnostic) :=
  currentInfo ← ParsePkgPath pkg;
  mret (match currentInfo with
        | None => []
        | Some i =>
            if bool_decide (Kind i = KindInternal) && bool_decide (SubPkg i = "domain") then []
            else omap (fun sel =>
              if negb (isProtectedField (sel_Name sel)) then None
              else match sel_Selection sel with
                   | None => None
                   | Some selection =>
                       if negb (isDomainEntityField selection) then None
                       else if isExemptPkg pkg then None
                       else Some (mkDiag (sel_Pos sel) "dddfieldaccess" [sel_Name sel])
                   end) lhss
        end).

(** ** Agent creation ([agentcreate]) *)

Definition isWhitelisted (pkgPath filename : string) : bool :=
  str_contains pkgPath "/ddd/agent/command" || str_contains pkgPath "/cmd/server" ||
  bool_decide (filename = "pool_dispatcher.go") || bool_decide (filename = "sample_provider.go") ||
  str_has_suffix filename "_test.go".

(** Selector expressions: position, name, base name of the file. *)
Definition agentcreate_run (pkg : string) (sels : list (Z * string * string)) : list diagnostic :=
  omap (fun '(pos, name, filename) =>
    if negb (bool_decide (name = "CreatePendingAgentCommand")) &&
       negb (bool_decide (name = "CreatePendingAgentResult")) then None
    else if isWhitelisted pkg filename then None
    else Some (mkDiag pos "dddagentcreate" [])) sels.

(** ** Complexity of wiring code ([wirecomplexity]) *)

(** A syntax tree: is the node a branching one (if, for, range, switch, type
    switch, select, case clause), and its children. *)
Inductive ast := Node (branching : bool) (children : list ast).

Fixpoint branches (t : ast) : Z :=
  match t with Node b cs => (Z.b2z b + foldr (fun c acc => branches c + acc) 0 cs)%Z end.

(** A function declaration: position, name, exported, and its body with the
    lines it starts and ends at. *)
Record func_decl := mkFunc {
  fd_Pos : Z; fd_Name : string; fd_Exported : bool; fd_Body : option ast;
  fd_Start : Z; fd_End : Z }.

Definition calculateComplexity (body : ast) : Z := (1 + branches body)%Z.

Definition maxFunctionLines : Z := 80.
Definition maxFunctions : Z := 20.
Definition maxComplexity : Z := 25.

Definition func_diags (fd : func_decl) : list diagnostic :=
  match fd_Body fd with
  | None => []
  | Some body =>
      let lineCount := ((fd_End fd -i fd_Start fd) +i 1)%go in
      let complexity := calculateComplexity body in
      (if bool_decide (maxFunctionLines < lineCount)%Z
       then [mkDiag (fd_Pos fd) "dddwirecomplexity" [fd_Name fd; pretty lineCount; pretty maxFunctionLines]]
       else []) ++
      (if bool_decide (maxComplexity < complexity)%Z
       then [mkDiag (fd_Pos fd) "dddwirecomplexity" [fd_Name fd; pretty complexity; pretty maxComplexity]]
       else [])
  end.

Definition wirecomplexity_run (pkg : string) (decls : list func_decl) : outcome (list diagnostic) :=
  currentInfo ← ParsePkgPath pkg;
  mret (match currentInfo with
        | None => []
        | Some i =>
            if negb (bool_decide (Kind i = KindWire)) then []
            else
              let exportedFuncCount := zcount fd_Exported decls in
              flat_map func_diags decls ++
              (if bool_decide (maxFunctions < exportedFuncCount)%Z
               then [mkDiag 0 "dddwirecomplexity" [pretty exportedFuncCount; pretty maxFunctions]]
               else [])
        end).

(** ** Lemmas on paths *)

Lemma str_split_join l :
  l <> [] -> Forall (no_byte slash) l -> str_split slash (str_join "/" l) = l.
Proof.
  induction l as [|x l IH]; [done|]. intros _ [Hx Hl]%Forall_cons.
  destruct l as [|y l]; [by apply str_split_no_byte|].
  change (str_join "/" (x :: y :: l)) with (x +:+ String slash (str_join "/" (y :: l))).
  rewrite str_split_app by done. by rewrite IH.
Qed.

Lemma no_byte_ddd : no_byte slash "ddd".
Proof.
  unfold no_byte. cbn. rewrite !not_elem_of_cons. split_and!; try done. apply not_elem_of_nil.
Qed.

Lemma prefix_slash a c s : c <> slash -> String.prefix (String slash a) (String c s) = false.
Proof.
  intros Hne. cbn [String.prefix]. destruct (Ascii.ascii_dec slash c) as [E|]; congruence.
Qed.

(** The rest of a path at its first slash. *)
Lemma index_slash t :
  match str_index t "/" with
  | Some e => exists rest, str_split slash t = str_to e t :: rest
  | None => str_split slash t = [t]
  end.
Proof.
  unfold str_index, str_to. induction t as [|c t IH]; [done|].
  cbn [String.index]. destruct (Ascii.eqb_spec c slash) as [->|Hne].
  - assert (String.prefix "/" (String slash t) = true) as -> by (by destruct t).
    exists (str_split slash t). by destruct t.
  - assert (String.prefix "/" (String c t) = false) as -> by by apply (prefix_slash "").
    cbn [str_split]. rewrite (proj2 (Ascii.eqb_neq c slash) Hne).
    destruct (String.index 0 "/" t) as [e|].
    + destruct IH as [rest ->]. exists rest. by cbn.
    + by rewrite IH.
Qed.

Lemma substring_zero n s : String.substring n 0 s = "".
Proof. revert n. induction s as [|c s IH]; intros [|n]; cbn; auto. Qed.

Lemma str_from_S k c s : str_from (S k) (String c s) = str_from k s.
Proof. reflexivity. Qed.

Lemma str_from_0 s : str_from 0 s = s.
Proof.
  unfold str_from. rewrite Nat.sub_0_r. induction s as [|c s IH]; [done|]. cbn. by f_equal.
Qed.

(** The domain is the first segment of the rest of the path. *)
Lemma domain_from_hd start p :
  exists rest, str_split slash (str_from start p) = domain_from start p :: rest.
Proof.
  unfold domain_from. pose proof (index_slash (str_from start p)) as H.
  destruct (str_index (str_from start p) "/") as [e|]; [done|]. exists []. rewrite H.
  case_bool_decide; [done|]. unfold str_from.
  replace (String.length p - start) with 0 by lia. by rewrite substring_zero.
Qed.

Lemma prefix_app a b : String.prefix a (a +:+ b) = true.
Proof.
  induction a as [|c a IH]; [by destruct b|]. cbn. by destruct (Ascii.ascii_dec c c).
Qed.

Lemma prefix_split_inv a s : String.prefix a s = true -> exists t, s = a +:+ t.
Proof.
  revert s. induction a as [|c a IH]; intros s; cbn; [by exists s|].
  destruct s as [|c' s]; [discriminate|].
  cbn [String.prefix]. destruct (Ascii.ascii_dec c c') as [->|]; [|discriminate].
  intros [t ->]%IH. by exists t.
Qed.

Lemma split_ddd_prefix s y rest :
  str_split slash s = "ddd" :: y :: rest -> String.prefix "ddd/" s = true.
Proof.
  intros H. pose proof (str_join_split slash s) as Hj. rewrite H in Hj.
  rewrite <- Hj. exact (prefix_app "ddd/" (str_join "/" (y :: rest))).
Qed.

(** [strings.Index(s, "/ddd/")] finds the first [ddd] segment that is neither
    the first nor the last one. *)
Lemma index_ddd s :
  match str_index s "/ddd/" with
  | Some n => exists x pre rest, str_split slash s = x :: pre ++ "ddd" :: rest /\
                ("ddd" ∉ pre) /\ str_split slash (str_from (n + 5) s) = rest
  | None => forall x pre rest, str_split slash s = x :: pre ++ "ddd" :: rest -> rest = []
  end.
Proof.
  unfold str_index. induction s as [|c s IH].
  { cbn. intros x pre rest [= _ H]. by destruct pre. }
  cbn [String.index str_split]. destruct (Ascii.eqb_spec c slash) as [->|Hne].
  - destruct (String.prefix "/ddd/" (String slash s)) eqn:Hp.
    { apply (prefix_split_inv "/ddd/") in Hp as [t Ht]. injection Ht as ->.
      exists "", [], (str_split slash t). split; [done|]. split; [apply not_elem_of_nil|].
      change (str_from (0 + 5) _) with (str_from 0 t). by rewrite str_from_0. }
    assert (forall y rest, str_split slash s <> "ddd" :: y :: rest) as Hno.
    { intros y rest H%split_ddd_prefix. revert Hp H. cbn. destruct s as [|c' s]; [done|].
      by intros ->. }
    destruct (String.index 0 "/ddd/" s) as [n|].
    + destruct IH as (x & pre & rest & Hs & Hpre & Hr). exists "", (x :: pre), rest.
      rewrite Hs. split; [done|]. split; [|exact Hr].
      intros [<-|?]%elem_of_cons; [|done]. destruct pre; by eapply Hno.
    + intros x pre rest [= _ H]. destruct pre as [|y pre]; [|by eapply IH].
      destruct rest as [|z rest]; [done|]. by apply Hno in H.
  - assert (String.prefix "/ddd/" (String c s) = false) as ->.
    { by apply prefix_slash. }
    destruct (str_split slash s) as [|seg more] eqn:Hs; [by apply str_split_nonempty in Hs|].
    destruct (String.index 0 "/ddd/" s) as [n|].
    + destruct IH as (x & pre & rest & [= -> ->] & Hpre & Hr).
      exists (String c x), pre, rest. done.
    + intros x pre rest [= _ ->]. by eapply IH.
Qed.

Lemma over_imports_elem check imps ds :
  over_imports check imps = Done ds ->
  forall d, d ∈ ds <-> exists imp, imp ∈ imps /\ check imp = Done (Some d).
Proof.
  revert ds. induction imps as [|imp imps IH]; intros ds; cbn.
  { intros [= <-] d. rewrite elem_of_nil. split; [done|]. by intros (? & ?%elem_of_nil & _). }
  destruct (check imp) as [o|] eqn:Hc; [|done]. cbn.
  destruct (over_imports check imps) as [ds'|]; [|done]. cbn. intros [= <-] d.
  specialize (IH ds' eq_refl d). transitivity (o = Some d \/ d ∈ ds').
  - destruct o as [d'|]; [rewrite elem_of_cons|]; intuition congruence.
  - rewrite IH. split.
    + intros [->|(imp' & Hin & Hd)]; [exists imp|exists imp']; (split; [|done]); [left|by right].
    + intros (imp' & [->|Hin]%elem_of_cons & Hd); [left; congruence|right; eauto].
Qed.

(** ** Properties *)

(** The kind of a package by the first segment below its domain. *)
Definition kind_of_segment (seg : string) : PackageKind :=
  if bool_decide (seg ∈ ["command"; "query"; "event"]) then KindPublic
  else if bool_decide (seg ∈ ["domain"; "service"; "repository"]) then KindInternal
  else if bool_decide (seg = "wire") then KindWire
  else KindOther.

Lemma classify_segments seg sub :
  seg <> "" -> Forall (no_byte slash) (seg :: sub) ->
  classifySubPkg (str_join "/" (seg :: sub)) = kind_of_segment seg.
Proof.
  intros Hne Hall. unfold classifySubPkg.
  assert (str_join "/" (seg :: sub) <> "") as Hj.
  { destruct seg; [done|]. by destruct sub. }
  rewrite bool_decide_eq_false_2 by done.
  pose proof (index_slash (str_join "/" (seg :: sub))) as Hi.
  rewrite str_split_join in Hi by done. revert Hi. generalize (str_join "/" (seg :: sub)).
  intros j Hi. destruct (str_index j "/") as [e|].
  - destruct Hi as [rest Hi]. by assert (str_to e j = seg) as -> by congruence.
  - by assert (j = seg) as -> by congruence.
Qed.

Lemma ddd_index_build pre rest :
  "ddd" ∉ pre -> ddd_index (pre ++ "ddd" :: rest) = Some (length pre).
Proof.
  intros Hpre. unfold ddd_index. induction pre as [|x pre IH]; [done|].
  apply not_elem_of_cons in Hpre as [Hx Hpre]. cbn.
  rewrite decide_False by congruence.
  specialize (IH Hpre). destruct (list_find _ (pre ++ "ddd" :: rest)) as [[i y]|]; [|done].
  cbn in *. congruence.
Qed.

Lemma ddd_index_None parts : ddd_index parts = None <-> "ddd" ∉ parts.
Proof.
  unfold ddd_index. rewrite fmap_None, list_find_None, Forall_forall. split.
  - intros H Hin. by apply (H _ Hin).
  - intros H x Hx ->. done.
Qed.

(** What [ParsePkgPath] computes once the [ddd] segment is found. *)
Lemma parse_segments parts pre m d sub :
  "ddd" ∉ pre ++ [m] -> parts = (pre ++ [m]) ++ "ddd" :: d :: sub ->
  forall p, str_split slash p = parts ->
  ParsePkgPath p = Done (Some (mkPkgInfo (str_join "/" (pre ++ [m])) m d (str_join "/" sub)
                                 (classifySubPkg (str_join "/" sub)))).
Proof.
  intros Hpre -> p Hp. unfold ParsePkgPath. rewrite Hp, ddd_index_build by done.
  rewrite bool_decide_eq_false_2 by (rewrite length_app; cbn; lia).
  rewrite take_app_length.
  assert (length (pre ++ [m]) = S (length pre)) as Hl by (rewrite length_app; cbn; lia).
  rewrite Hl at 1. unfold index_get.
  assert (((pre ++ [m]) ++ "ddd" :: d :: sub) !! length pre = Some m) as Hm.
  { rewrite <- app_assoc. by apply list_lookup_middle. }
  assert (((pre ++ [m]) ++ "ddd" :: d :: sub) !! (length (pre ++ [m]) + 1) = Some d) as Hd.
  { rewrite lookup_app_r by lia. by replace (length (pre ++ [m]) + 1 - length (pre ++ [m])) with 1 by lia. }
  rewrite Hm, Hd. cbn [mbind outcome_bind].
  assert (drop (length (pre ++ [m]) + 2) ((pre ++ [m]) ++ "ddd" :: d :: sub) = sub) as Hsub.
  { rewrite drop_app_ge by lia. by replace (length (pre ++ [m]) + 2 - length (pre ++ [m])) with 2 by lia. }
  rewrite Hsub. case_bool_decide as Hlt; [done|].
  assert (sub = []) as ->; [|done]. rewrite !length_app in Hlt. cbn in Hlt.
  destruct sub; [done|cbn in Hlt; lia].
Qed.

(** Building a package path and parsing it are inverse: for a path made of
    slash-free segments with a [ddd] segment that has a segment before and after it (the first
    such), [ParsePkgPath] gives back the prefix, the module (the segment before [ddd]), the domain
    (the one after) and the rest, and its kind depends only on the rest's first segment. *)
Theorem parse_pkg_path_build (pre sub : list string) (m d : string) :
  Forall (no_byte slash) (pre ++ m :: d :: sub) -> "ddd" ∉ pre ++ [m] ->
  ParsePkgPath (str_join "/" (pre ++ m :: "ddd" :: d :: sub)) =
    Done (Some (mkPkgInfo (str_join "/" (pre ++ [m])) m d (str_join "/" sub)
      (match sub with
       | [] => KindInternal
       | seg :: _ => if bool_decide (seg = "") then classifySubPkg (str_join "/" sub)
                     else kind_of_segment seg
       end))).
Proof.
  intros Hall Hddd.
  assert (str_split slash (str_join "/" (pre ++ m :: "ddd" :: d :: sub)) =
          (pre ++ [m]) ++ "ddd" :: d :: sub) as Hs.
  { rewrite str_split_join; [by rewrite <- app_assoc|by destruct pre|].
    apply Forall_app in Hall as [Hp [Hm Hd]%Forall_cons]. apply Forall_app. split; [done|].
    repeat (rewrite Forall_cons; split); [done|apply no_byte_ddd|..]; by apply Forall_cons in Hd as [??]. }
  rewrite (parse_segments _ pre m d sub Hddd eq_refl _ Hs). do 3 f_equal.
  destruct sub as [|seg sub]; [done|]. case_bool_decide as Hseg; [done|].
  apply classify_segments; [done|]. apply Forall_app in Hall as [_ Hall].
  by do 2 apply Forall_cons in Hall as [_ Hall].
Qed.

(** The two readings of the convention agree: on every package path on which the
    linters' [ParsePkgPath] returns, the registry's [InferDomainFromPkgPath] gives the same domain,
    and the empty one exactly where the path is not a DDD package (or its domain is empty). *)
Theorem domain_inference_agrees (p : string) :
  match ParsePkgPath p with
  | Done (Some i) => InferDomainFromPkgPath p = DomainName i
  | Done None => InferDomainFromPkgPath p = ""
  | Panicked _ => str_has_prefix p "ddd/" = true
  end.
Proof.
  destruct (decide (p = "")) as [->|Hne]; [vm_compute; reflexivity|].
  unfold InferDomainFromPkgPath. rewrite bool_decide_eq_false_2 by done.
  pose proof (index_ddd p) as Hidx.
  destruct (str_split slash p) as [|x parts] eqn:Hp; [by apply str_split_nonempty in Hp|].
  destruct (decide (x = "ddd")) as [->|Hx].
  { (* the first segment is [ddd]: a panic, unless it is the only one *)
    unfold ParsePkgPath. rewrite Hp. destruct parts as [|y parts]; cbn.
    - pose proof (str_join_split slash p) as Hj. rewrite Hp in Hj. cbn in Hj. by subst p.
    - by apply (split_ddd_prefix p y parts). }
  assert (str_has_prefix p "ddd/" = false) as ->.
  { unfold str_has_prefix. destruct (String.prefix "ddd/" p) eqn:E; [|done].
    apply prefix_split_inv in E as [t ->]. revert Hp.
    change ("ddd/" +:+ t) with ("ddd" +:+ String slash t).
    rewrite str_split_app by apply no_byte_ddd. by intros [= <- _]. }
  destruct (str_index p "/ddd/") as [n|].
  - destruct Hidx as (x' & pre & rest & [= <- ->] & Hpre & Hrest).
    destruct (domain_from_hd (n + 5) p) as [rest' Hd]. rewrite Hd in Hrest.
    assert (x :: pre <> []) as Hnil by discriminate.
    destruct (exists_last Hnil) as (pre' & m & Hpm).
    assert ("ddd" ∉ pre' ++ [m]) as H1.
    { rewrite <- Hpm. intros [Heq|Hin]%elem_of_cons; [by apply Hx|by apply Hpre]. }
    assert (x :: pre ++ "ddd" :: domain_from (n + 5) p :: rest' =
            (pre' ++ [m]) ++ "ddd" :: domain_from (n + 5) p :: rest') as H2.
    { rewrite <- Hpm. reflexivity. }
    rewrite <- Hrest, H2 in Hp. by rewrite (parse_segments _ _ _ _ _ H1 eq_refl p Hp).
  - unfold ParsePkgPath. rewrite Hp. destruct (ddd_index (x :: parts)) as [i|] eqn:Hi; [|done].
    unfold ddd_index in Hi. apply fmap_Some in Hi as ([i' y] & Hf & ->). cbn.
    apply list_find_Some in Hf as (Hl & -> & _).
    assert (i' <> 0) as Hi0 by (intros ->; cbn in Hl; congruence).
    destruct i' as [|i']; [done|]. cbn in Hl.
    apply list_elem_of_split_length in Hl as (l1 & l2 & -> & ->).
    rewrite (Hidx x l1 l2 eq_refl), length_app. cbn.
    by rewrite bool_decide_eq_true_2 by lia.
Qed.

(** The cross-domain linter reports exactly the forbidden imports: in a DDD
    package, importing a package that parses is reported iff it belongs to another domain (prefix
    or domain name differ) and is internal to it; the public packages ([command], [query],
    [event]) of every domain may always be imported. *)
Theorem crossdomain_reports_iff (pkg : string) (current : PkgInfo) (imps : list import_spec) ds d :
  ParsePkgPath pkg = Done (Some current) -> crossdomain_run pkg imps = Done ds ->
  d ∈ ds <->
  exists imp i, imp ∈ imps /\ ParsePkgPath (imp_Path imp) = Done (Some i) /\
    Kind i = KindInternal /\
    (DDDPrefix current <> DDDPrefix i \/ DomainName current <> DomainName i) /\
    d = mkDiag (imp_Pos imp) "dddcrossdomain" [imp_Path imp; DomainName i; DomainName current].
Proof.
  intros Hc. unfold crossdomain_run. rewrite Hc. cbn [mbind outcome_bind].
  intros Hrun. rewrite (over_imports_elem _ _ _ Hrun). split.
  - intros (imp & Himp & Hd). exists imp. unfold crossdomain_check in Hd.
    destruct (ParsePkgPath (imp_Path imp)) as [[i|]|]; try done. exists i. cbn in Hd.
    destruct (same_domain current i) eqn:Hs; [done|]. case_bool_decide as Hk; [|done].
    injection Hd as <-. split_and!; try done. unfold same_domain in Hs.
    apply andb_false_iff in Hs as [Hs|Hs]; apply bool_decide_eq_false in Hs; auto.
  - intros (imp & i & Himp & Hp & Hk & Hne & ->). exists imp. split; [done|].
    unfold crossdomain_check. rewrite Hp. cbn. rewrite (bool_decide_eq_true_2 _ Hk).
    assert (same_domain current i = false) as ->; [|done].
    unfold same_domain. apply andb_false_iff. rewrite !bool_decide_eq_false. exact Hne.
Qed.

Lemma parse_pkg_path_build_witness :
  ParsePkgPath "example.com/billing/ddd/order/command/v2" =
    Done (Some (mkPkgInfo "example.com/billing" "billing" "order" "command/v2" KindPublic)).
Proof.
  apply (parse_pkg_path_build ["example.com"] ["command"; "v2"] "billing" "order").
  - repeat (apply Forall_cons; split; [vm_compute; repeat (apply not_elem_of_cons; split; [discriminate|]);
      apply not_elem_of_nil|]). apply Forall_nil; exact I.
  - cbn. repeat (apply not_elem_of_cons; split; [discriminate|]). apply not_elem_of_nil.
Defined.

Lemma crossdomain_reports_iff_witness :
  let imp := mkImport 7 "m/ddd/billing/domain" in
  crossdomain_run "m/ddd/order/command" [imp] =
    Done [mkDiag 7 "dddcrossdomain" ["m/ddd/billing/domain"; "billing"; "order"]] /\
  exists imp' i, imp' ∈ [imp] /\ ParsePkgPath (imp_Path imp') = Done (Some i) /\ Kind i = KindInternal.
Proof.
  cbv zeta. split; [vm_compute; reflexivity|].
  destruct (proj1 (crossdomain_reports_iff "m/ddd/order/command"
    (mkPkgInfo "m" "m" "order" "command" KindPublic) [mkImport 7 "m/ddd/billing/domain"]
    [mkDiag 7 "dddcrossdomain" ["m/ddd/billing/domain"; "billing"; "order"]]
    (mkDiag 7 "dddcrossdomain" ["m/ddd/billing/domain"; "billing"; "order"])
    ltac:(vm_compute; reflexivity) ltac:(vm_compute; reflexivity)) ltac:(left))
    as (imp & i & H1 & H2 & H3 & _).
  exists imp, i. split; [exact H1|]. split; [exact H2|exact H3].
Defined.
