(* ===== verification/LintTypes.v ===== *)
(** * The linters that look at types and statements: [src/lint/publicleak],
    [infraimplement], [eventimmutable], [eventpublish], [wirelogic]

    As in [Lint], an analyzer is a function from what a pass shows of a package to
    the diagnostics. What [go/types] says of a type is data here; whether a type
    implements an interface is a parameter with its documented law. *)

From S2P Require Import Prelude Errors Relationship Lint.

(** ** Types as [go/types] shows them *)

(** A named type: its object's name and package path, the names of the methods
    declared for it, and, if its underlying type is an interface, the names of that interface's methods. *)
Record named_type := mkNamed {
  nt_Name : string;
  nt_Pkg : option string;
  nt_Methods : list string;
  nt_Interface : option (list string) }.

(** [TInterface]: a literal, with its numbers of methods and of embedded types;
    [TOther]: the types without elements, with their text. *)
Inductive gtype :=
| TNamedType (n : named_type)
| TPointer (elem : gtype)
| TSlice (elem : gtype)
| TArray (elem : gtype)
| TMap (key elem : gtype)
| TChan (elem : gtype)
| TInterface (methods embeddeds : Z)
| TOther (text : string).

(** ** Leaks of internal types ([publicleak]) *)

(** [a || b] on calls that may panic. *)
Definition or_else (a b : outcome bool) : outcome bool := x ← a; if (x : bool) then Done true else b.

Fixpoint refersToCrossDomainInternal (t : gtype) (currentInfo : PkgInfo) : outcome bool :=
  match t with
  | TNamedType n =>
      match nt_Pkg n with
      | None => Done false
      | Some p =>
          info ← ParsePkgPath p;
          mret (match info with
                | None => false
                | Some i =>
                    if negb (bool_decide (Kind i = KindInternal)) then false
                    else if same_domain currentInfo i then false else true
                end)
      end
  | TPointer e | TSlice e | TArray e | TChan e => refersToCrossDomainInternal e currentInfo
  | TMap k e => or_else (refersToCrossDomainInternal k currentInfo) (refersToCrossDomainInternal e currentInfo)
  | TInterface _ _ | TOther _ => Done false
  end.

(** A type expression: its position, and its type if type checking found one. *)
Record type_expr := mkTypeExpr { te_Pos : Z; te_Type : option gtype }.

(** A declaration that the analyzer visits. A type is a struct or not, and a struct has a field
    list or not; a function has its parameters and results, nil or not. *)
Inductive public_decl :=
| PType (exported : bool) (name : string) (fields : option (option (list type_expr)))
| PFunc (exported : bool) (name : string) (params results : option (list type_expr)).

Definition checkTypeExpr (currentInfo : PkgInfo) (contextName : string) (expr : type_expr) :
    outcome (option diagnostic) :=
  match te_Type expr with
  | None => Done None
  | Some t =>
      leak ← refersToCrossDomainInternal t currentInfo;
      mret (if (leak : bool) then Some (mkDiag (te_Pos expr) "dddpublicleak" [contextName]) else None)
  end.

(** A loop that reports at most one diagnostic per element. *)
Fixpoint over {A} (check : A -> outcome (option diagnostic)) (l : list A) : outcome (list diagnostic) :=
  match l with
  | [] => Done []
  | x :: rest => d ← check x; ds ← over check rest; mret (option_list d ++ ds)
  end.

Fixpoint over_each {A} (check : A -> outcome (list diagnostic)) (l : list A) : outcome (list diagnostic) :=
  match l with
  | [] => Done []
  | x :: rest => ds ← check x; ds' ← over_each check rest; mret (ds ++ ds')
  end.

(** The type expressions of a declaration that are checked. *)
Definition checked_exprs (d : public_decl) : list type_expr :=
  match d with
  | PType false _ _ | PType _ _ None | PType _ _ (Some None) | PFunc false _ _ _ => []
  | PType true _ (Some (Some fields)) => fields
  | PFunc true _ params results => default [] params ++ default [] results
  end.
Definition decl_name (d : public_decl) : string := match d with PType _ n _ | PFunc _ n _ _ => n end.

(** [decls]: the type and function declarations of the package, in preorder. *)
Definition publicleak_run (pkg : string) (decls : list public_decl) : outcome (list diagnostic) :=
  currentInfo ← ParsePkgPath pkg;
  match currentInfo with
  | None => mret []
  | Some i =>
      if negb (bool_decide (Kind i = KindPublic)) then mret []
      else over_each (fun d => over (checkTypeExpr i (decl_name d)) (checked_exprs d)) decls
  end.

(** ** Repositories of the infrastructure ([infraimplement]) *)

(** An object in the scope of an imported package: its name and, if its type is an
    interface underneath, the names of the interface's methods. *)
Record scope_obj := mkObj { so_Name : string; so_Interface : option (list string) }.
Record package := mkPackage { pk_Path : string; pk_Scope : list scope_obj }.

Record repoInterface := mkRepoIface { ri_Name : string; Methods : gmap string unit; ri_PkgPath : string }.

(** The declarations of the package's files, in order: a type, struct or not, and whether the
    scope knows it; a function with the name of its receiver's base type, if it is a method. *)
Inductive infra_decl :=
| IType (pos : Z) (name : string) (is_struct in_scope : bool)
| IFunc (recv : option string) (name : string).

Section InfraImplement.
Context `{!MapRange}.

(** [types.Implements] for the pointer to a struct of the package and an interface, by the
    names of the methods. *)
Context (Implements : string -> list string -> bool).

Definition isInfraPackage (subPkg : string) : bool := str_has_prefix subPkg "infra".

Definition interfaces_of (imp : package) : list repoInterface :=
  omap (fun o => match so_Interface o with
                 | Some ms => Some (mkRepoIface (so_Name o) (list_to_map (map (fun m => (m, tt)) ms)) (pk_Path imp))
                 | None => None
                 end) (pk_Scope imp).

Fixpoint findRepositoryInterfaces (pkg : string) (imports : list package) : outcome (list repoInterface) :=
  match imports with
  | [] => Done []
  | imp :: rest =>
      info ← ParsePkgPath (pk_Path imp);
      found ← match info with
              | None => Done []
              | Some info =>
                  if negb (bool_decide (Kind info = KindInternal)) || negb (bool_decide (SubPkg info = "repository"))
                  then Done []
                  else
                    currentInfo ← ParsePkgPath pkg;
                    mret (match currentInfo with
                          | None => []
                          | Some current => if negb (same_domain current info) then [] else interfaces_of imp
                          end)
              end;
      more ← findRepositoryInterfaces pkg rest;
      mret (found ++ more)
  end.

(** nil if it is not found. [Lookup] of a name in a scope. *)
Fixpoint getInterfaceType (imports : list package) (iface : repoInterface) : option (list string) :=
  match imports with
  | [] => None
  | imp :: rest =>
      if negb (bool_decide (pk_Path imp = ri_PkgPath iface)) then getInterfaceType rest iface
      else match list_find (fun o => so_Name o = ri_Name iface) (pk_Scope imp) ≫= (fun p => so_Interface p.2) with
           | Some ms => Some ms
           | None => getInterfaceType rest iface
           end
  end.

Definition hasMethod (decls : list infra_decl) (structName methodName : string) : bool :=
  existsb (fun d => match d with
                    | IFunc (Some recv) name => bool_decide (recv = structName) && bool_decide (name = methodName)
                    | _ => false
                    end) decls.

Definition missing_method (decls : list infra_decl) (iface : repoInterface) (pos : Z) (name : string)
    (m : string * unit) : option diagnostic :=
  if negb (hasMethod decls name m.1)
  then Some (mkDiag pos "dddinfraimplement" [name; m.1; ri_Name iface]) else None.

(** [types.Implements] panics on a nil interface. *)
Definition checkImplementation (imports : list package) (decls : list infra_decl) (iface : repoInterface) :
    outcome (list diagnostic) :=
  over_each (fun d =>
    match d with
    | IType pos name true true =>
        match getInterfaceType imports iface with
        | None => Panicked "nil pointer dereference"
        | Some ms =>
            if negb (Implements name ms) then Done []
            else Done (omap (missing_method decls iface pos name) (map_range (Methods iface)))
        end
    | _ => Done []
    end) decls.

Definition infraimplement_run (pkg : string) (imports : list package) (decls : list infra_decl) :
    outcome (list diagnostic) :=
  currentInfo ← ParsePkgPath pkg;
  match currentInfo with
  | None => mret []
  | Some i =>
      if negb (isInfraPackage (SubPkg i)) then mret []
      else
        repoInterfaces ← findRepositoryInterfaces pkg imports;
        over_each (checkImplementation imports decls) repoInterfaces
  end.
End InfraImplement.

(** ** Mutation of events ([eventimmutable]) *)

Definition baseEventPkgPath : string := "github.com/ddd-qce/core/cqrs/event".
Definition baseEventFieldNames : list string := ["AggregateID"; "OccurredAt"; "CorrelationID"; "CausationID"].

Definition isBaseEventField (selection : bool * option string) : bool :=
  match selection with
  | (false, _) => false
  | (true, None) => false
  | (true, Some p) => bool_decide (p = baseEventPkgPath)
  end.

(** [lhss]: the left-hand sides of the assignments that are selectors, in order. *)
Definition eventimmutable_run (pkg : string) (lhss : list selector) : outcome (list diagnostic) :=
  currentInfo ← ParsePkgPath pkg;
  mret (match currentInfo with
        | None => []
        | Some _ =>
            omap (fun sel =>
              if negb (bool_decide (sel_Name sel ∈ baseEventFieldNames)) then None
              else match sel_Selection sel with
                   | None => None
                   | Some selection =>
                       if negb (isBaseEventField selection) then None
                       else Some (mkDiag (sel_Pos sel) "dddeventimmutable" [sel_Name sel])
                   end) lhss
        end).

(** ** Discarded publication errors ([eventpublish]) *)

(** A signature: the types of its results and the type of its receiver, if it has one. *)
Record signature := mkSignature { sg_Results : list gtype; sg_Recv : option gtype }.

(** The function of a call: a selector [x.Sel], with [x]'s name if it is an identifier, or not;
    and the function's type, if it is a signature. *)
Inductive call_fun := FSelector (x : option string) (sel : string) | FOther.
Record call_expr := mkCall { ce_Pos : Z; ce_Fun : call_fun; ce_Type : option signature }.

Definition eventBusInterface : string := "EventBus".

(** [t.String()] of a type with elements does not spell [error]. *)
Definition isErrorType (t : gtype) : bool :=
  match t with
  | TNamedType n => bool_decide (nt_Name n = "error") && bool_decide (nt_Pkg n = None)
  | TInterface methods embeddeds => bool_decide (methods = 1)%Z && bool_decide (embeddeds = 0)%Z
  | TOther text => bool_decide (text = "error")
  | TPointer _ | TSlice _ | TArray _ | TMap _ _ | TChan _ => false
  end.

Definition implementsEventBus (recv : option gtype) : bool :=
  match recv with
  | Some (TNamedType named) =>
      if bool_decide ("Publish" ∈ nt_Methods named) then bool_decide (nt_Name named = eventBusInterface)
      else
        match nt_Interface named with
        | Some ms => if bool_decide ("Publish" ∈ ms) then true else bool_decide (nt_Name named = eventBusInterface)
        | None => bool_decide (nt_Name named = eventBusInterface)
        end
  | _ => false
  end.

Definition isPublishCall (call : call_expr) : bool :=
  match ce_Fun call with
  | FOther => false
  | FSelector _ sel =>
      if negb (bool_decide (sel = "Publish")) && negb (bool_decide (sel = "PublishEvent")) then false
      else
        match ce_Type call with
        | None => false
        | Some sig =>
            match last (sg_Results sig) with
            | None => false
            | Some t =>
                if negb (isErrorType t) then false
                else if bool_decide (sel = "PublishEvent") then true
                else implementsEventBus (sg_Recv sig)
            end
        end
  end.

Definition callStr (call : call_expr) : string :=
  match ce_Fun call with
  | FSelector (Some x) sel => x +:+ "." +:+ sel +:+ "(...)"
  | FSelector None sel => sel +:+ "(...)"
  | FOther => "function(...)"
  end.

(** [calls]: the expression statements that are calls, in preorder. *)
Definition eventpublish_run (calls : list call_expr) : list diagnostic :=
  omap (fun call => if isPublishCall call then Some (mkDiag (ce_Pos call) "dddeventpublish" [callStr call]) else None)
    calls.

(** ** Logic in wiring code ([wirelogic]) *)

Inductive branch_kind := BFor | BRange | BSwitch | BTypeSwitch | BSelect.

(** Syntax trees, with positions where the analyzer reports; [NOther] has the
    children of any other node. *)
Inductive node :=
| NIdent (name : string)
| NSelector (x : node) (sel : string)
| NBinary (neq : bool) (x y : node)
| NCall (pos : Z) (fn : node) (args : list node)
| NIf (pos : Z) (init : list node) (cond : node) (body : list node) (els : list node)
| NBranch (k : branch_kind) (pos : Z) (children : list node)
| NReturn (results : list node)
| NOther (children : list node).

Definition isNil (e : node) : bool := match e with NIdent n => bool_decide (n = "nil") | _ => false end.

Definition isSimpleErrorCheck (cond : node) (body : list node) : bool :=
  match cond with
  | NBinary neq x y =>
      if negb neq then false
      else if negb (isNil x) && negb (isNil y) then false
      else match body with
           | [NReturn _] => true
           | _ => false
           end
  | _ => false
  end.

Definition isDomainObjectCreation (fn : node) : bool :=
  match fn with
  | NSelector (NIdent pkgName) name =>
      if str_has_prefix name "New" || str_has_prefix name "Create" then
        if bool_decide (pkgName = "domain") || str_has_suffix pkgName "domain" then true else false
      else false
  | _ => false
  end.

Definition branch_text (k : branch_kind) : string :=
  match k with
  | BFor => "loop statement"
  | BRange => "range loop"
  | BSwitch => "switch statement"
  | BTypeSwitch => "type switch"
  | BSelect => "select statement"
  end.

(** The function given to [ast.Inspect], on one node. *)
Definition node_diags (fn : string) (n : node) : list diagnostic :=
  match n with
  | NBranch k pos _ => [mkDiag pos "dddwirelogic" [branch_text k; fn]]
  | NIf pos _ cond body _ =>
      if negb (isSimpleErrorCheck cond body) then [mkDiag pos "dddwirelogic" ["if statement"; fn]] else []
  | NCall pos f _ =>
      if isDomainObjectCreation f then [mkDiag pos "dddwirelogic" ["domain object creation"; fn]] else []
  | _ => []
  end.

(** The nodes under a node, in the order of [ast.Inspect]. *)
Definition children (n : node) : list node :=
  match n with
  | NIdent _ => []
  | NSelector x _ => [x]
  | NBinary _ x y => [x; y]
  | NCall _ f args => f :: args
  | NIf _ init cond body els => init ++ [cond] ++ body ++ els
  | NBranch _ _ cs | NReturn cs | NOther cs => cs
  end.

(** [ast.Inspect] with a function that always goes on. *)
Fixpoint inspect (fn : string) (n : node) : list diagnostic :=
  node_diags fn n ++
  match n with
  | NIdent _ => []
  | NSelector x _ => inspect fn x
  | NBinary _ x y => inspect fn x ++ inspect fn y
  | NCall _ f args => inspect fn f ++ flat_map (inspect fn) args
  | NIf _ init cond body els =>
      flat_map (inspect fn) init ++ inspect fn cond ++ flat_map (inspect fn) body ++ flat_map (inspect fn) els
  | NBranch _ _ cs | NReturn cs | NOther cs => flat_map (inspect fn) cs
  end.

(** [funcs]: the functions of the package with a body, in order: name and statements. *)
Definition wirelogic_run (pkg : string) (funcs : list (string * list node)) : outcome (list diagnostic) :=
  currentInfo ← ParsePkgPath pkg;
  mret (match currentInfo with
        | None => []
        | Some i =>
            if negb (bool_decide (Kind i = KindWire)) then []
            else flat_map (fun '(name, body) => flat_map (inspect name) body) funcs
        end).

(** ** Lemmas *)

Lemma over_spec {A} (check : A -> outcome (option diagnostic)) (f : A -> option diagnostic) l :
  (forall x, x ∈ l -> check x = Done (f x)) -> over check l = Done (omap f l).
Proof.
  induction l as [|x l IH]; intros Hf; [done|]. cbn [over]. rewrite Hf by left. cbn.
  rewrite IH by (intros y Hy; apply Hf; by right). by destruct (f x).
Qed.

Lemma over_each_spec {A} (check : A -> outcome (list diagnostic)) (f : A -> list diagnostic) l :
  (forall x, x ∈ l -> check x = Done (f x)) -> over_each check l = Done (flat_map f l).
Proof.
  induction l as [|x l IH]; intros Hf; [done|]. cbn [over_each]. rewrite Hf by left. cbn.
  by rewrite IH by (intros y Hy; apply Hf; by right).
Qed.

Lemma elem_of_flat_map {A B} (f : A -> list B) l y : y ∈ flat_map f l <-> exists x, x ∈ l /\ y ∈ f x.
Proof.
  rewrite list_elem_of_In, in_flat_map. split; intros (x & Hx & Hy); exists x; by rewrite ?list_elem_of_In in *.
Qed.

(** The named types that a type is made of, as far as the analyzer looks. *)
Inductive mentions : gtype -> named_type -> Prop :=
| mentions_named n : mentions (TNamedType n) n
| mentions_pointer e n : mentions e n -> mentions (TPointer e) n
| mentions_slice e n : mentions e n -> mentions (TSlice e) n
| mentions_array e n : mentions e n -> mentions (TArray e) n
| mentions_chan e n : mentions e n -> mentions (TChan e) n
| mentions_key k e n : mentions k n -> mentions (TMap k e) n
| mentions_value k e n : mentions e n -> mentions (TMap k e) n.

(** A named type of an internal package of another domain. *)
Definition foreign (current : PkgInfo) (n : named_type) : Prop :=
  exists p i, nt_Pkg n = Some p /\ ParsePkgPath p = Done (Some i) /\ Kind i = KindInternal /\ same_domain current i = false.

(** Every package path in a type can be parsed. *)
Definition parses (t : gtype) : Prop :=
  forall n p, mentions t n -> nt_Pkg n = Some p -> exists i, ParsePkgPath p = Done i.

#[local] Arguments same_domain : simpl never.
#[local] Arguments ParsePkgPath : simpl never.

Lemma parses_elem t e : (forall n, mentions e n -> mentions t n) -> parses t -> parses e.
Proof. intros He Hp n p Hm. apply Hp. auto. Qed.

Lemma leak_named current n :
  parses (TNamedType n) ->
  exists b, refersToCrossDomainInternal (TNamedType n) current = Done b /\ (b = true <-> foreign current n).
Proof.
  intros Hp. cbn. destruct (nt_Pkg n) as [p|] eqn:Hn.
  - destruct (Hp n p (mentions_named n) Hn) as [[i|] Hi]; rewrite Hi; cbn.
    + eexists. split; [done|]. unfold foreign. split.
      * case_bool_decide as Hk; [|done]. cbn. destruct (same_domain current i) eqn:Hs; [done|]. eauto 10.
      * intros (p' & i' & Hp' & Hi' & Hk & Hs). assert (i' = i) as -> by congruence. by rewrite bool_decide_eq_true_2, Hs.
    + exists false. split; [done|]. split; [done|]. intros (p' & i' & Hp' & Hi' & _). congruence.
  - exists false. split; [done|]. split; [done|]. intros (p' & i' & Hp' & _). congruence.
Qed.

(** A type that is made of what its element is made of. *)
Ltac elem :=
  match goal with
  | IH : parses ?e -> _, Hp : parses ?t |- _ =>
      destruct IH as (b & Hb & Hiff); [eapply parses_elem; [|exact Hp]; by constructor|];
      exists b; split; [exact Hb|]; rewrite Hiff;
      split; intros (n & Hm & Hf); exists n; (split; [|exact Hf]); [by constructor|by inversion Hm]
  end.

Lemma leak_spec current t :
  parses t ->
  exists b, refersToCrossDomainInternal t current = Done b /\
    (b = true <-> exists n, mentions t n /\ foreign current n).
Proof.
  induction t as [n|e IH|e IH|e IH|k IHk e IHe|e IH|m em|s]; intros Hp; cbn [refersToCrossDomainInternal].
  - destruct (leak_named current n Hp) as (b & Hb & Hiff). exists b. split; [exact Hb|]. rewrite Hiff. split.
    + intros Hf. exists n. split; [constructor|done].
    + intros (n' & Hm & Hf). by inversion Hm; subst.
  - elem.
  - elem.
  - elem.
  - destruct IHk as (bk & Hbk & Hk); [eapply parses_elem; [|exact Hp]; eauto using mentions|].
    destruct IHe as (be & Hbe & He); [eapply parses_elem; [|exact Hp]; eauto using mentions|].
    exists (bk || be). split; [unfold or_else; rewrite Hbk; cbn; by destruct bk|].
    rewrite orb_true_iff, Hk, He. split.
    + intros [(n & ? & ?)|(n & ? & ?)]; exists n; eauto using mentions.
    + intros (n & Hm & Hf). inversion Hm; subst; eauto.
  - elem.
  - exists false. split; [done|]. split; [done|]. intros (n & Hm & _). inversion Hm.
  - exists false. split; [done|]. split; [done|]. intros (n & Hm & _). inversion Hm.
Qed.

(** ** Lemmas on repositories *)

(** [types.Implements] holds only if the method set of the pointer to the struct has the
    interface's methods. *)
Class ImplementsLaw (method_set : string -> string -> Prop) (Implements : string -> list string -> bool) : Prop :=
  implements_law : forall s ms m, Implements s ms = true -> m ∈ ms -> method_set s m.

Section Infra.
Context `{HMR : !MapRange, HMRL : !MapRangeLaws} (method_set : string -> string -> Prop) (Implements : string -> list string -> bool).
Context `{HIL : !ImplementsLaw method_set Implements}.

(** Imports have different paths, scopes have different names, and the paths can be parsed. *)
Record imports_ok (imports : list package) : Prop := {
  imports_distinct : NoDup (map pk_Path imports);
  imports_scopes : Forall (fun imp => NoDup (map so_Name (pk_Scope imp))) imports;
  imports_parse : Forall (fun imp => exists i, ParsePkgPath (pk_Path imp) = Done i) imports }.

(** An interface of an import. *)
Definition from_import (imports : list package) (iface : repoInterface) (ms : list string) : Prop :=
  exists imp o, imp ∈ imports /\ o ∈ pk_Scope imp /\ so_Interface o = Some ms /\
    iface = mkRepoIface (so_Name o) (list_to_map (map (fun m => (m, tt)) ms)) (pk_Path imp).

Lemma found_interfaces pkg imports i :
  ParsePkgPath pkg = Done i -> Forall (fun imp => exists i, ParsePkgPath (pk_Path imp) = Done i) imports ->
  exists found, findRepositoryInterfaces pkg imports = Done found /\
    Forall (fun iface => exists ms, from_import imports iface ms) found.
Proof.
  intros Hpkg. induction 1 as [|imp imports [info Hinfo] _ (found & Hf & Hall)]; [by exists []|].
  cbn [findRepositoryInterfaces]. rewrite Hinfo. cbn.
  assert (Forall (fun iface => exists ms, from_import (imp :: imports) iface ms) found) as Hmore.
  { eapply Forall_impl; [exact Hall|]. intros iface (ms & imp' & o & H1 & H2). exists ms, imp', o. split; [by right|done]. }
  assert (Forall (fun iface => exists ms, from_import (imp :: imports) iface ms) (interfaces_of imp)) as Hnew.
  { apply Forall_forall. intros iface (o & Hio & Ho)%list_elem_of_omap.
    destruct (so_Interface o) as [ms|] eqn:Hms; [|done]. simplify_eq. exists ms, imp, o. split; [by left|done]. }
  destruct info as [info|]; cbn; [|rewrite Hf; by exists found].
  destruct (negb _ || negb _); cbn; [rewrite Hf; by exists found|]. rewrite Hpkg. cbn.
  destruct i as [current|]; cbn; rewrite Hf; cbn; [|by exists found].
  destruct (negb (same_domain _ _)); cbn; [by exists found|]. eexists. split; [done|]. by apply Forall_app.
Qed.

Lemma lookup_scope (scope : list scope_obj) o :
  NoDup (map so_Name scope) -> o ∈ scope -> exists k, list_find (fun x => so_Name x = so_Name o) scope = Some (k, o).
Proof.
  induction scope as [|x l IH]; intros Hnd Ho; [by apply elem_of_nil in Ho|].
  cbn in Hnd. apply NoDup_cons in Hnd as [Hn Hnd]. cbn. apply elem_of_cons in Ho as [->|Ho].
  { rewrite decide_True by done. eauto. }
  rewrite decide_False by (intros Heq; apply Hn; rewrite Heq; by apply list_elem_of_fmap_2).
  destruct (IH Hnd Ho) as [k ->]. cbn. eauto.
Qed.

Lemma lookup_interface imports iface ms :
  imports_ok imports -> from_import imports iface ms -> getInterfaceType imports iface = Some ms.
Proof.
  intros [Hd Hs _] (imp & o & Himp & Ho & Hms & ->).
  induction imports as [|imp' imports IH]; [by apply elem_of_nil in Himp|].
  cbn in Hd. apply NoDup_cons in Hd as [Hnew Hd]. apply Forall_cons in Hs as [Hsc Hs].
  cbn [getInterfaceType ri_PkgPath ri_Name]. apply elem_of_cons in Himp as [->|Himp].
  - rewrite bool_decide_eq_true_2 by done. destruct (lookup_scope _ _ Hsc Ho) as [k ->]. cbn. by rewrite Hms.
  - rewrite bool_decide_eq_false_2; [by apply IH|]. intros Heq. apply Hnew. rewrite Heq. by apply list_elem_of_fmap_2.
Qed.

(** What a diagnostic of [checkImplementation] says. *)
Definition missing_methods (decls : list infra_decl) (iface : repoInterface) (ms : list string) (d : infra_decl) :
    list diagnostic :=
  match d with
  | IType pos name true true =>
      if negb (Implements name ms) then [] else omap (missing_method decls iface pos name) (map_range (Methods iface))
  | _ => []
  end.

Lemma check_run imports decls iface ms :
  imports_ok imports -> from_import imports iface ms ->
  checkImplementation Implements imports decls iface = Done (flat_map (missing_methods decls iface ms) decls).
Proof.
  intros Hok Hfrom. apply over_each_spec. intros [pos name [] []|recv name] _; cbn; try done.
  rewrite (lookup_interface _ _ _ Hok Hfrom). by destruct (Implements name ms).
Qed.

(** A diagnostic: the struct implements the interface, but does not declare the method itself. *)
Definition false_positive (decls : list infra_decl) (d : diagnostic) : Prop :=
  exists name m iface, d_Args d = [name; m; iface] /\ method_set name m /\ hasMethod decls name m = false.

Lemma missing_false_positive imports decls iface ms d :
  from_import imports iface ms -> d ∈ flat_map (missing_methods decls iface ms) decls -> false_positive decls d.
Proof.
  intros (imp & o & _ & _ & _ & ->) (x & _ & Hd)%elem_of_flat_map.
  destruct x as [pos name [] []|]; cbn in Hd; try by apply elem_of_nil in Hd.
  destruct (Implements name ms) eqn:Himpl; cbn in Hd; [|by apply elem_of_nil in Hd].
  apply list_elem_of_omap in Hd as ([m []] & Hm & Hd). unfold missing_method in Hd. cbn in Hd.
  destruct (hasMethod decls name m) eqn:Hh; [done|]. cbn in Hd. injection Hd as <-.
  exists name, m, (so_Name o). split; [done|]. split; [|done]. eapply implements_law; [exact Himpl|].
  rewrite map_range_perm in Hm. apply elem_of_map_to_list, elem_of_list_to_map_2, list_elem_of_fmap in Hm.
  destruct Hm as (m' & [= ->] & Hm'). done.
Qed.
End Infra.

(** ** Lemmas on syntax trees *)

Lemma forall_app_2 {A} (P : A -> Prop) l1 l2 : Forall P l1 -> Forall P l2 -> Forall P (l1 ++ l2).
Proof. induction 1; cbn; [done|]. intros H2. constructor; auto. Defined.

Section NodeInduction.
Context (P : node -> Prop) (HP : forall n, Forall P (children n) -> P n).
Fixpoint node_children_ind (n : node) : P n :=
  let all := fix all (l : list node) : Forall P l :=
    match l return Forall P l with [] => @List.Forall_nil _ P | x :: l => @List.Forall_cons _ P x l (node_children_ind x) (all l) end in
  HP n match n return Forall P (children n) with
       | NIdent _ => all []
       | NSelector x _ => @List.Forall_cons _ P x [] (node_children_ind x) (all [])
       | NBinary _ x y => @List.Forall_cons _ P x [y] (node_children_ind x) (@List.Forall_cons _ P y [] (node_children_ind y) (all []))
       | NCall _ f args => @List.Forall_cons _ P f args (node_children_ind f) (all args)
       | NIf _ init cond body els =>
           forall_app_2 P init _ (all init)
             (@List.Forall_cons _ P cond _ (node_children_ind cond) (forall_app_2 P body els (all body) (all els)))
       | NBranch _ _ cs | NReturn cs | NOther cs => all cs
       end.
End NodeInduction.

Lemma inspect_unfold fn n : inspect fn n = node_diags fn n ++ flat_map (inspect fn) (children n).
Proof.
  destruct n; cbn [inspect children]; rewrite ?flat_map_app; cbn [flat_map]; by rewrite ?app_nil_r, ?app_assoc.
Qed.

(** [ast.Inspect] visits the nodes under a node. *)
Definition child (n c : node) : Prop := c ∈ children n.

Lemma inspect_visits fn n d : d ∈ inspect fn n <-> exists m, rtc child n m /\ d ∈ node_diags fn m.
Proof.
  induction n as [n IH] using node_children_ind. rewrite inspect_unfold, elem_of_app, elem_of_flat_map.
  rewrite Forall_forall in IH. split.
  - intros [Hd|(c & Hc & Hd)]; [by exists n|]. apply IH in Hd as (m & Hm & Hd); [|done].
    exists m. split; [by eapply rtc_l|done].
  - intros (m & Hm & Hd). inversion Hm as [|? c ? Hc Hcm]; subst; [by left|]. right. exists c. split; [done|].
    apply IH; [done|]. by exists m.
Qed.

(** ** Properties *)

(** C39: In a public package of a domain, the leak linter reports a type expression of an exported
    struct or function if and only if its type is made, through pointers, slices, arrays, maps and
    channels, of a named type that an internal package of another domain declares; it reports
    nothing else, and it does not panic if the package paths can be parsed. *)
Theorem publicleak_reports_iff pkg current decls :
  ParsePkgPath pkg = Done (Some current) -> Kind current = KindPublic ->
  (forall d e t, d ∈ decls -> e ∈ checked_exprs d -> te_Type e = Some t -> parses t) ->
  exists ds, publicleak_run pkg decls = Done ds /\
    forall diag, diag ∈ ds <->
      exists d e t n, d ∈ decls /\ e ∈ checked_exprs d /\ te_Type e = Some t /\ mentions t n /\ foreign current n /\
        diag = mkDiag (te_Pos e) "dddpublicleak" [decl_name d].
Proof.
  intros Hpkg Hk Hp. unfold publicleak_run. rewrite Hpkg. cbn. rewrite bool_decide_eq_true_2 by done. cbn.
  set (report := fun d e =>
    match te_Type e with
    | Some t => match refersToCrossDomainInternal t current with
                | Done true => Some (mkDiag (te_Pos e) "dddpublicleak" [decl_name d]) | _ => None end
    | None => None
    end).
  exists (flat_map (fun d => omap (report d) (checked_exprs d)) decls). split.
  - apply over_each_spec. intros d Hd. apply over_spec. intros e He. unfold checkTypeExpr, report.
    destruct (te_Type e) as [t|] eqn:Ht; [|done]. destruct (leak_spec current t) as (b & -> & _); [eauto|]. by destruct b.
  - intros diag. rewrite elem_of_flat_map. setoid_rewrite list_elem_of_omap. unfold report. split.
    + intros (d & Hd & e & He & Hr). destruct (te_Type e) as [t|] eqn:Ht; [|done].
      destruct (leak_spec current t) as (b & Hb & Hiff); [eauto|]. rewrite Hb in Hr. destruct b; [|done].
      injection Hr as <-. destruct (proj1 Hiff eq_refl) as (n & Hm & Hf). exists d, e, t, n. by split_and!.
    + intros (d & e & t & n & Hd & He & Ht & Hm & Hf & ->). exists d. split; [done|]. exists e. split; [done|].
      rewrite Ht. destruct (leak_spec current t) as (b & -> & Hiff); [eauto|].
      by rewrite (proj2 Hiff) by (by exists n).
Qed.

(** The infrastructure linter never finds a missing method: it only compares structs that
    [go/types] says implement the interface, so every diagnostic is about a method that the pointer to
    the struct does have (from an embedded field), and there is none at all if the structs declare
    their methods themselves; nor does it panic, for distinct imports whose paths can be parsed. *)
Theorem infraimplement_no_true_positive `{HMR : !MapRange, HMRL : !MapRangeLaws}
    (method_set : string -> string -> Prop) (Implements : string -> list string -> bool) pkg current imports decls :
  ImplementsLaw method_set Implements -> ParsePkgPath pkg = Done current -> imports_ok imports ->
  exists ds, infraimplement_run Implements pkg imports decls = Done ds /\
    Forall (false_positive method_set decls) ds /\
    ((forall name m, method_set name m -> hasMethod decls name m = true) -> ds = []).
Proof.
  intros HIL Hpkg Hok. unfold infraimplement_run. rewrite Hpkg. cbn. destruct current as [i|]; cbn; [|by exists []].
  destruct (negb (isInfraPackage (SubPkg i))); cbn; [by exists []|].
  destruct (found_interfaces pkg imports _ Hpkg (imports_parse _ Hok)) as (found & -> & Hall). cbn.
  assert (exists ds, over_each (checkImplementation Implements imports decls) found = Done ds /\
    Forall (false_positive method_set decls) ds) as (ds & Hds & Hfp).
  { induction Hall as [|iface found [ms Hfrom] _ (ds & Hds & Hfp)]; [by exists []|]. cbn [over_each].
    rewrite (check_run Implements imports decls iface ms Hok Hfrom). cbn. rewrite Hds. eexists. split; [done|].
    apply Forall_app. split; [|done]. apply Forall_forall. intros d Hd. by eapply missing_false_positive. }
  exists ds. split; [done|]. split; [done|]. intros Hdecl. destruct Hfp as [|d ds (name & m & ifc & _ & Hm & Hh)]; [done|].
  by rewrite (Hdecl _ _ Hm) in Hh.
Qed.

(** The linter of wiring code reports on a node of a function exactly what its rules say of that
    node, wherever the node is. *)
Theorem wirelogic_reports_iff pkg current funcs :
  ParsePkgPath pkg = Done (Some current) -> Kind current = KindWire ->
  exists ds, wirelogic_run pkg funcs = Done ds /\
    forall diag, diag ∈ ds <->
      exists name body stmt n, (name, body) ∈ funcs /\ stmt ∈ body /\ rtc child stmt n /\ diag ∈ node_diags name n.
Proof.
  intros Hpkg Hk. unfold wirelogic_run. rewrite Hpkg. cbn. rewrite bool_decide_eq_true_2 by done.
  eexists. split; [reflexivity|]. intros diag. cbn [negb]. rewrite elem_of_flat_map. split.
  - intros ([name body] & Hf & (stmt & Hs & (n & Hn & Hd)%inspect_visits)%elem_of_flat_map). by exists name, body, stmt, n.
  - intros (name & body & stmt & n & Hf & Hs & Hn & Hd). exists (name, body). split; [done|]. apply elem_of_flat_map.
    exists stmt. split; [done|]. apply inspect_visits. by exists n.
Qed.

(** A discarded error of [Publish] is reported only if the type checker recorded a receiver for the
    method, which is then a named type: never for a method value, which has none, nor for a pointer. *)
Lemma publish_needs_named_receiver call x sig :
  ce_Fun call = FSelector x "Publish" -> ce_Type call = Some sig ->
  isPublishCall call = true -> exists n, sg_Recv sig = Some (TNamedType n).
Proof.
  unfold isPublishCall. intros -> ->. cbn. destruct (last (sg_Results sig)) as [t|]; [|done].
  destruct (isErrorType t); [|done]. cbn. unfold implementsEventBus. destruct (sg_Recv sig) as [[]|]; try done. eauto.
Qed.

(** ** Concrete packages *)
Module DemoLintTypes.
Definition order_domain : named_type := mkNamed "Order" (Some "app/ddd/order/domain") [] None.
Definition stock_item : named_type := mkNamed "Item" (Some "app/ddd/stock/domain") [] None.
Definition leaks : list public_decl :=
  [PType true "PlaceOrderCommand" (Some (Some [mkTypeExpr 1 (Some (TSlice (TPointer (TNamedType stock_item))));
                                               mkTypeExpr 2 (Some (TNamedType order_domain))]));
   PFunc false "helper" (Some [mkTypeExpr 3 (Some (TNamedType stock_item))]) None].

(** The struct embeds a base with the method [FindByID]; it declares [Save] itself. *)
Definition repositories : list package := [mkPackage "app/ddd/order/repository" [mkObj "OrderRepository" (Some ["FindByID"; "Save"])]].
Definition pg_decls : list infra_decl := [IType 7 "PgOrders" true true; IFunc (Some "PgOrders") "Save"].
Definition method_set (s m : string) : Prop := s = "PgOrders" /\ m ∈ ["FindByID"; "Save"].
Definition implements (s : string) (ms : list string) : bool :=
  bool_decide (s = "PgOrders") && forallb (fun m => bool_decide (m ∈ ["FindByID"; "Save"])) ms.
#[export] Instance implements_ok : ImplementsLaw method_set implements.
Proof.
  intros s ms m [Hs Hms]%andb_true_iff Hm. apply bool_decide_eq_true in Hs. split; [done|].
  rewrite forallb_forall in Hms. apply list_elem_of_In, Hms, bool_decide_eq_true in Hm. done.
Qed.
End DemoLintTypes.
Import DemoLintTypes.

Example infra_false_positive :
  infraimplement_run implements "app/ddd/order/infra/pg" repositories pg_decls =
    Done [mkDiag 7 "dddinfraimplement" ["PgOrders"; "FindByID"; "OrderRepository"]].
Proof. by vm_compute. Qed.

Lemma publicleak_reports_iff_witness :
  exists ds, publicleak_run "app/ddd/order/command" leaks = Done ds /\ mkDiag 1 "dddpublicleak" ["PlaceOrderCommand"] ∈ ds.
Proof.
  destruct (publicleak_reports_iff "app/ddd/order/command"
    (mkPkgInfo "app" "app" "order" "command" KindPublic) leaks) as (ds & Hds & Hiff);
    [reflexivity|reflexivity| |].
  - intros d e t Hd He Ht n p Hm Hp.
    assert (p = "app/ddd/order/domain" \/ p = "app/ddd/stock/domain") as [-> | ->]; [|by eexists..].
    repeat (apply elem_of_cons in Hd as [-> | Hd]; [|try by apply elem_of_nil in Hd]); cbn in He;
      repeat (apply elem_of_cons in He as [-> | He]; [|try by apply elem_of_nil in He]);
      try (by apply elem_of_nil in He); injection Ht as <-; repeat (inversion Hm as [| | | | | |]; subst; clear Hm; rename select (mentions _ _) into Hm);
      inversion Hm; subst; injection Hp as <-; auto.
  - exists ds. split; [exact Hds|]. apply Hiff.
    eexists _, _, _, stock_item. split; [by left|]. split; [by left|]. split; [reflexivity|].
    split; [repeat constructor|]. split; [|reflexivity].
    exists "app/ddd/stock/domain", (mkPkgInfo "app" "app" "stock" "domain" KindInternal). by split_and!.
Defined.

Lemma infraimplement_no_true_positive_witness :
  exists ds, infraimplement_run implements "app/ddd/order/infra/pg" repositories pg_decls = Done ds /\
    Forall (false_positive method_set pg_decls) ds /\ length ds = 1.
Proof.
  destruct (infraimplement_no_true_positive method_set implements "app/ddd/order/infra/pg"
    (Some (mkPkgInfo "app" "app" "order" "infra/pg" KindOther)) repositories pg_decls) as (ds & Hds & Hfp & _).
  - exact implements_ok.
  - reflexivity.
  - split.
    + apply NoDup_singleton.
    + repeat constructor. by apply not_elem_of_nil.
    + apply Forall_singleton. by eexists.
  - exists ds. split; [exact Hds|]. split; [exact Hfp|]. rewrite infra_false_positive in Hds. by injection Hds as <-.
Defined.
