(* ===== verification/LintDriver.v ===== *)
(** * The lint command: [src/lint/analyzer.go], [src/lint/cmd/ddd-lint]

    The list of all analyzers, the list that the command runs, and the command itself: what it prints about the
    packages before it hands them to [multichecker]. Loading the packages and [multichecker] are parameters. *)

From S2P Require Import Prelude Errors Lint LintTypes.

(** ** Analyzers

    What the analyzers look at in a package, each in its own view. *)
Record package_view := mkView {
  vw_Path : string;
  vw_Imports : list import_spec;
  vw_Types : list type_spec;
  vw_Assigned : list selector;
  vw_Selectors : list (Z * string * string);
  vw_Funcs : list func_decl;
  vw_Public : list public_decl;
  vw_Imported : list package;
  vw_Decls : list infra_decl;
  vw_Calls : list call_expr;
  vw_Bodies : list (string * list node) }.

Record Analyzer := mkAnalyzer { an_Name : string; an_Run : package_view -> outcome (list diagnostic) }.

Section Analyzers.
Context `{!MapRange} (Implements : string -> list string -> bool).
(** The flag of fieldcount, five if it is not given. *)
Context (maxFields : Z).

Definition agentcreate := mkAnalyzer "dddagentcreate" (fun v => Done (agentcreate_run (vw_Path v) (vw_Selectors v))).
Definition crossdomain := mkAnalyzer "dddcrossdomain" (fun v => crossdomain_run (vw_Path v) (vw_Imports v)).
Definition crossmodule := mkAnalyzer "dddcrossmodule" (fun v => crossmodule_run (vw_Path v) (vw_Imports v)).
Definition publicleak := mkAnalyzer "dddpublicleak" (fun v => publicleak_run (vw_Path v) (vw_Public v)).
Definition implimport := mkAnalyzer "dddimplimport" (fun v => implimport_run (vw_Path v) (vw_Imports v)).
Definition eventimmutable := mkAnalyzer "dddeventimmutable" (fun v => eventimmutable_run (vw_Path v) (vw_Assigned v)).
Definition eventpublish := mkAnalyzer "dddeventpublish" (fun v => Done (eventpublish_run (vw_Calls v))).
Definition fieldaccess := mkAnalyzer "dddfieldaccess" (fun v => fieldaccess_run (vw_Path v) (vw_Assigned v)).
Definition fieldcount := mkAnalyzer "dddfieldcount" (fun v => fieldcount_run maxFields (vw_Path v) (vw_Types v)).
Definition wirecomplexity := mkAnalyzer "dddwirecomplexity" (fun v => wirecomplexity_run (vw_Path v) (vw_Funcs v)).
Definition wireimport := mkAnalyzer "dddwireimport" (fun v => wireimport_run (vw_Path v) (vw_Imports v)).
Definition wirelogic := mkAnalyzer "dddwirelogic" (fun v => wirelogic_run (vw_Path v) (vw_Bodies v)).
Definition infraimplement :=
  mkAnalyzer "dddinfraimplement" (fun v => infraimplement_run Implements (vw_Path v) (vw_Imported v) (vw_Decls v)).

Definition AllAnalyzers : list Analyzer :=
  [agentcreate; crossdomain; crossmodule; publicleak; implimport; eventimmutable; eventpublish; fieldaccess;
   fieldcount; wirecomplexity; wireimport; wirelogic; infraimplement].

(** [analyzers] of the command. *)
Definition analyzers : list Analyzer :=
  [crossdomain; crossmodule; publicleak; implimport; eventimmutable; eventpublish; fieldaccess;
   wirecomplexity; wireimport; wirelogic; infraimplement].
End Analyzers.

(** ** The command *)

Record loaded_package := mkLoaded { PkgPath : string; GoFiles : list string }.

(** The directories as the loop has met them, and the files counted. *)
Definition collect_step (acc : gset string * Z) (pkg : loaded_package) : gset string * Z :=
  if bool_decide (PkgPath pkg = "") then acc
  else if bool_decide (PkgPath pkg ∈ acc.1) then acc
  else ({[PkgPath pkg]} ∪ acc.1, acc.2 +i zlen (GoFiles pkg)).
Definition collect (pkgs : list loaded_package) : gset string * Z := fold_left collect_step pkgs (∅, 0%Z).

(** [os.Exit] with a status, or what [multichecker.Main] makes of the analyzers. *)
Inductive ending (A : Type) := Exit (status : Z) | Checked (result : A).
Arguments Exit {A} status.
Arguments Checked {A} result.

Section Command.
Context {W A : Type} `{!Clock W, !SortSlice, !MapRange} (Implements : string -> list string -> bool).
Context (packages_Load : list string -> GoM W (result (list loaded_package))).
Context (multichecker_Main : list Analyzer -> GoM W A) (stderr : string -> GoM W unit).
(** The text of a duration rounded to milliseconds. *)
Context (round_ms : Z -> string).

Fixpoint print_lines (lines : list string) : GoM W unit :=
  match lines with [] => mret tt | l :: lines => _ ← stderr l; print_lines lines end.

(** The text after the loading; the directories are the keys of a map, sorted. *)
Definition sorted_dirs (dirSet : gset string) : list string := sort_slice string_ltb (elements dirSet).
Definition listing (dirs : list string) : list string :=
  [""; "ddd-lint: checking packages..."] ++ map (fun d => "  " +:+ d) dirs ++ [""].
Definition rule : string := "────────────────────────────────────────".
Definition summary (dirs : list string) (fileCount load : Z) : list string :=
  [rule; "Pre-analysis:"; "  Directories: " +:+ pretty (zlen dirs); "  Files:       " +:+ pretty fileCount;
   "  Load time:   " +:+ round_ms load; rule; ""].

Definition main (args : list string) : GoM W (ending A) :=
  start ← time_now;
  match args with
  | [] => r ← multichecker_Main (analyzers Implements); mret (Checked r)
  | _ =>
      _ ← print_lines [""; "ddd-lint: loading packages..."];
      loadedPkgs ← packages_Load args;
      match loadedPkgs with
      | Err err => _ ← stderr ("ddd-lint: error loading packages: " +:+ Error err); mret (Exit 1)
      | Ok loadedPkgs =>
          let '(dirSet, fileCount) := collect loadedPkgs in
          let dirs := sorted_dirs dirSet in
          _ ← print_lines (listing dirs);
          now ← time_now;
          _ ← print_lines (summary dirs fileCount (now - start));
          r ← multichecker_Main (analyzers Implements);
          mret (Checked r)
      end
  end.
End Command.

(** ** Lemmas *)

(** The first package of each path. *)
Fixpoint firsts (seen : gset string) (pkgs : list loaded_package) : list loaded_package :=
  match pkgs with
  | [] => []
  | p :: pkgs =>
      if bool_decide (PkgPath p = "") || bool_decide (PkgPath p ∈ seen) then firsts seen pkgs
      else p :: firsts ({[PkgPath p]} ∪ seen) pkgs
  end.

Lemma collect_from pkgs dirs n :
  fold_left collect_step pkgs (dirs, n) =
    (list_to_set (map PkgPath (firsts dirs pkgs)) ∪ dirs,
     fold_left (fun n p => n +i zlen (GoFiles p)) (firsts dirs pkgs) n).
Proof.
  revert dirs n. induction pkgs as [|p pkgs IH]; intros dirs n; cbn [fold_left firsts map].
  { cbn. by rewrite union_empty_l_L. }
  unfold collect_step at 2. cbn [fst snd]. repeat case_bool_decide; cbn [orb]; rewrite IH; [done..|].
  cbn. f_equal. rewrite (assoc_L (∪)). f_equal. apply (comm_L (∪)).
Qed.

Lemma firsts_paths pkgs seen d :
  d ∈ map PkgPath (firsts seen pkgs) <-> d ∈ map PkgPath pkgs /\ d <> "" /\ ~ (d ∈ seen).
Proof.
  revert seen. induction pkgs as [|p pkgs IH]; intros seen; cbn.
  { split; [intros Hd; by apply elem_of_nil in Hd|intros [Hd _]; by apply elem_of_nil in Hd]. }
  destruct (bool_decide (PkgPath p = "") || bool_decide (PkgPath p ∈ seen)) eqn:Hskip.
  - rewrite IH, elem_of_cons. split; [tauto|]. intros ([->|Hd] & Hne & Hn); [|tauto]. exfalso.
    apply orb_true_iff in Hskip as [H%bool_decide_eq_true|H%bool_decide_eq_true]; auto.
  - apply orb_false_iff in Hskip as [He%bool_decide_eq_false Hs%bool_decide_eq_false].
    cbn. rewrite !elem_of_cons, IH, elem_of_union, elem_of_singleton. split.
    + intros [->|(Hd & Hne & Hn)]; [auto|]. tauto.
    + intros ([->|Hd] & Hne & Hn); [by left|]. destruct (decide (d = PkgPath p)) as [->|]; [by left|right; tauto].
Qed.

Lemma firsts_NoDup pkgs seen : NoDup (map PkgPath (firsts seen pkgs)).
Proof.
  revert seen. induction pkgs as [|p pkgs IH]; intros seen; cbn; [constructor|].
  destruct (bool_decide (PkgPath p = "") || bool_decide (PkgPath p ∈ seen)); [apply IH|].
  cbn. apply NoDup_cons. split; [|apply IH]. rewrite firsts_paths, elem_of_union, elem_of_singleton. tauto.
Qed.

(** ** Properties *)

(** What the lint command reports. On every package its list of analyzers finds exactly what all analyzers find
    but for the creation of agents and the number of fields, which it never looks at. Of the packages that it is
    given it lists every path once, in order and without the empty path, and counts the files of the first
    package of each path, in 64 bits. *)
Theorem command_covers `{!SortSlice, !SortSliceLaws, !MapRange} Implements maxFields (v : package_view) (pkgs : list loaded_package) :
  map (fun a => (an_Name a, an_Run a v)) (analyzers Implements) =
    List.filter (fun r => negb (bool_decide (r.1 = "dddagentcreate")) && negb (bool_decide (r.1 = "dddfieldcount")))
      (map (fun a => (an_Name a, an_Run a v)) (AllAnalyzers Implements maxFields)) /\
  NoDup (sorted_dirs (collect pkgs).1) /\
  Sorted (fun x y => string_ltb y x = false) (sorted_dirs (collect pkgs).1) /\
  (forall d, d ∈ sorted_dirs (collect pkgs).1 <-> d <> "" /\ d ∈ map PkgPath pkgs) /\
  (collect pkgs).2 = fold_left (fun n p => n +i zlen (GoFiles p)) (firsts ∅ pkgs) 0%Z /\
  map PkgPath (firsts ∅ pkgs) ≡ₚ sorted_dirs (collect pkgs).1.
Proof.
  assert (collect pkgs = (list_to_set (map PkgPath (firsts ∅ pkgs)),
    fold_left (fun n p => n +i zlen (GoFiles p)) (firsts ∅ pkgs) 0%Z)) as ->.
  { unfold collect. by rewrite collect_from, union_empty_r_L. }
  cbn [fst snd]. assert (forall l d, d ∈ sorted_dirs (list_to_set l) <-> d ∈ l) as Hin.
  { intros l d. unfold sorted_dirs. by rewrite sort_slice_perm, elem_of_elements, elem_of_list_to_set. }
  split; [reflexivity|]. split; [unfold sorted_dirs; rewrite sort_slice_perm; apply NoDup_elements|].
  split; [apply sort_slice_sorted, string_ltb_weak|]. split; [|split; [done|]].
  - intros d. rewrite Hin, firsts_paths. split; [tauto|]. intros [Hne Hd]. split_and!; [done..|apply not_elem_of_empty].
  - unfold sorted_dirs. rewrite sort_slice_perm. symmetry. apply elements_list_to_set. apply firsts_NoDup.
Qed.

(** A package outside the convention: only discarded errors of publications are reported in it. *)
Theorem command_outside_convention `{!MapRange} Implements (v : package_view) :
  ParsePkgPath (vw_Path v) = Done None ->
  forall a ds d, a ∈ analyzers Implements -> an_Run a v = Done ds -> d ∈ ds -> d_Analyzer d = "dddeventpublish".
Proof.
  intros Hv a ds d Ha Hrun Hd. unfold analyzers in Ha.
  repeat (apply elem_of_cons in Ha as [->|Ha];
    [cbn in Hrun; try (unfold crossdomain_run, crossmodule_run, publicleak_run, implimport_run, eventimmutable_run,
       fieldaccess_run, wirecomplexity_run, wireimport_run, wirelogic_run, infraimplement_run in Hrun;
       rewrite Hv in Hrun; injection Hrun as <-; by apply elem_of_nil in Hd)|]).
  - injection Hrun as <-. unfold eventpublish_run in Hd. apply list_elem_of_omap in Hd as (c & _ & Hc).
    destruct (isPublishCall c); [|done]. by injection Hc as <-.
  - by apply elem_of_nil in Ha.
Qed.

(** ** A concrete package *)
Module DemoDriver.
Definition outside : package_view :=
  mkView "app/web" [mkImport 3 "app/ddd/order/domain"] [] [] [] [] [] [] []
    [mkCall 9 (FSelector (Some "bus") "PublishEvent") (Some (mkSignature [] None))] [].
Definition loaded : list loaded_package :=
  [mkLoaded "app/b" ["x.go"; "y.go"]; mkLoaded "" ["z.go"]; mkLoaded "app/a" ["u.go"]; mkLoaded "app/b" ["x.go"; "x_test.go"]].
Definition no_method (_ : string) (_ : list string) : bool := false.
End DemoDriver.
Import DemoDriver.

Example lists_packages : sorted_dirs (collect loaded).1 = ["app/a"; "app/b"] /\ (collect loaded).2 = 3%Z.
Proof. vm_compute. done. Qed.

Lemma command_covers_witness :
  NoDup (sorted_dirs (collect loaded).1) /\ (collect loaded).2 = 3%Z /\
  map PkgPath (firsts ∅ loaded) ≡ₚ sorted_dirs (collect loaded).1.
Proof.
  destruct (command_covers no_method 5 outside loaded) as (_ & H1 & _ & _ & H2 & H3).
  split; [exact H1|]. split; [|exact H3]. rewrite H2. vm_compute. reflexivity.
Defined.

Lemma command_outside_convention_witness :
  ParsePkgPath (vw_Path outside) = Done None /\
  forall a ds d, a ∈ analyzers no_method -> an_Run a outside = Done ds -> d ∈ ds -> d_Analyzer d = "dddeventpublish".
Proof.
  split; [vm_compute; reflexivity|]. apply (command_outside_convention no_method outside). vm_compute. reflexivity.
Defined.
