(* ===== verification/Pg.v ===== *)
(** * PostgreSQL transactions: [src/pg/transaction.go], [src/pg/util.go]

    The transaction manager that nests commands with savepoints, over a database
    that is a parameter: [SqlDB] has the calls of [database/sql] that the manager
    makes, [WorkingDatabase] what PostgreSQL documents of them as long as no
    statement fails: savepoints are a stack, [ROLLBACK TO] restores and keeps its
    savepoint, [RELEASE] forgets it and the later ones. *)

From S2P Require Import Prelude Errors Trace Aspect Builtin.

(** ** The database *)

Class SqlDB (W Tx : Type) := {
  db_BeginTx : context -> GoM W (Tx + goerr);
  db_ExecContext : context -> string -> GoM W error;
  tx_ExecContext : Tx -> context -> string -> GoM W error;
  tx_CommitTx : Tx -> GoM W error;
  tx_RollbackTx : Tx -> GoM W error }.

(** ** The transaction manager *)

(** The state that a context points to; a context refers to it by its position. *)
Record txState (Tx : Type) := mkTxState {
  st_tx : Tx;
  depth : Z;
  aborted : bool;
  nextSpSeq : Z;
  parentSp : list Z }.
Arguments mkTxState {Tx} st_tx depth aborted nextSpSeq parentSp.
Arguments st_tx {Tx} _.
Arguments depth {Tx} _.
Arguments aborted {Tx} _.
Arguments nextSpSeq {Tx} _.
Arguments parentSp {Tx} _.

Abbreviation tx_states Tx := (list (txState Tx)) (only parsing).

Section Manager.
Context {W Tx : Type} `{!SqlDB W Tx} `{!Has (tx_states Tx) W}.

(** The state that [ctx.Value(txKey)] gives, if any. *)
Definition get_state (ctx : context) : GoM W (option (nat * txState Tx)) := fun w =>
  (Done (pgTx ctx ≫= fun r => s ← (part w : tx_states Tx) !! r; Some (r, s)), w).
Definition put_state (r : nat) (s : txState Tx) : GoM W unit := fun w =>
  (Done tt, set_part (<[r := s]> (part w : tx_states Tx)) w).
Definition new_state (s : txState Tx) : GoM W nat := fun w =>
  (Done (length (part w : tx_states Tx)), set_part ((part w : tx_states Tx) ++ [s]) w).

Definition sp_name (seq : Z) : string := "sp_" +:+ pretty seq.

(** The nil context beside an error is given as [ctx]: no caller looks at it. *)
Definition pg_Begin (ctx : context) : GoM W (context * error) :=
  st ← get_state ctx;
  match st with
  | Some (r, s) =>
      let spSeq := nextSpSeq s +i 1 in
      _ ← put_state r (mkTxState (st_tx s) (depth s +i 1) (aborted s) spSeq (parentSp s ++ [spSeq]));
      e ← tx_ExecContext (st_tx s) ctx ("SAVEPOINT " +:+ sp_name spSeq);
      match e with
      | Some e =>
          _ ← put_state r (mkTxState (st_tx s) ((depth s +i 1) -i 1) (aborted s) (spSeq -i 1) (parentSp s));
          mret (ctx, Some (EWrap "create savepoint: " e ""))
      | None =>
          _ ← put_state r (mkTxState (st_tx s) (depth s +i 1) false spSeq (parentSp s ++ [spSeq]));
          mret (ctx, None)
      end
  | None =>
      b ← db_BeginTx ctx;
      match b with
      | inr e => mret (ctx, Some e)
      | inl tx => r ← new_state (mkTxState tx 1 false 1 [1%Z]); mret (with_pg_tx ctx r, None)
      end
  end.

Definition pg_no_tx : goerr := ENew "pg_tx: no transaction in context".
Definition pg_inner_rollback : goerr := ENew "pg_tx: transaction aborted by inner rollback".

(** The state without its last savepoint, and the name of that. *)
Definition pop_savepoint (s : txState Tx) (ab : bool) : option (string * txState Tx) :=
  match last (parentSp s) with
  | None => None
  | Some spSeq =>
      Some (sp_name spSeq,
            mkTxState (st_tx s) (depth s -i 1) ab (nextSpSeq s) (removelast (parentSp s)))
  end.

Definition pg_Commit (ctx : context) : GoM W error :=
  st ← get_state ctx;
  match st with
  | None => mret (Some pg_no_tx)
  | Some (r, s) =>
      if bool_decide (depth s <= 0)%Z then mret (Some pg_no_tx)
      else
        match pop_savepoint s (aborted s) with
        | None => go_panic "index out of range"
        | Some (spName, s) =>
            _ ← put_state r s;
            if bool_decide (0 < depth s)%Z then
              if aborted s then
                rbErr ← tx_ExecContext (st_tx s) ctx ("ROLLBACK TO SAVEPOINT " +:+ spName);
                match rbErr with
                | Some e => mret (Some (EWrap "pg_tx: rollback to savepoint: " e
                                          " (transaction was already aborted)"))
                | None => mret (Some pg_inner_rollback)
                end
              else tx_ExecContext (st_tx s) ctx ("RELEASE SAVEPOINT " +:+ spName)
            else if aborted s then
              _ ← tx_RollbackTx (st_tx s); mret (Some pg_inner_rollback)
            else tx_CommitTx (st_tx s)
        end
  end.

Definition pg_Rollback (ctx : context) : GoM W error :=
  st ← get_state ctx;
  match st with
  | None => mret (Some pg_no_tx)
  | Some (r, s) =>
      if bool_decide (depth s <= 0)%Z then mret (Some pg_no_tx)
      else
        match pop_savepoint s true with
        | None =>
            _ ← put_state r (mkTxState (st_tx s) (depth s) true (nextSpSeq s) (parentSp s));
            go_panic "index out of range"
        | Some (spName, s) =>
            _ ← put_state r s;
            if bool_decide (0 < depth s)%Z
            then tx_ExecContext (st_tx s) ctx ("ROLLBACK TO SAVEPOINT " +:+ spName)
            else tx_RollbackTx (st_tx s)
        end
  end.

Definition PgTransactionManager : TransactionManager W :=
  mkTxManager pg_Begin pg_Commit pg_Rollback.

Definition HasTransaction (ctx : context) : GoM W bool :=
  st ← get_state ctx; mret (match st with Some _ => true | None => false end).

(** [GetQuerier]: the context's transaction, or the database itself ([None]). *)
Definition GetQuerier (ctx : context) : GoM W (option Tx) :=
  st ← get_state ctx; mret (match st with Some (_, s) => Some (st_tx s) | None => None end).

(** What a handler does with it. *)
Definition querier_exec (ctx : context) (q : string) : GoM W error :=
  querier ← GetQuerier ctx;
  match querier with
  | Some tx => tx_ExecContext tx ctx q
  | None => db_ExecContext ctx q
  end.
End Manager.

(** ** What the stores share

    A statement is run on the transaction of the context or on the database. It
    gives an error or a result, which gives the number of rows or an error; a query
    gives an error, or what [Scan] gives row after row and then [rows.Err()]. *)
Abbreviation sql_result := (Z + goerr)%type (only parsing).
Abbreviation query_result R := (list (R + goerr) * error + goerr)%type (only parsing).

Definition sql_ErrNoRows : goerr := ESentinel "sql.ErrNoRows" "sql: no rows in result set".
Definition is_no_rows (e : goerr) : bool := node_is (TSentinel "sql.ErrNoRows") e.

(** The querier that [GetQuerier] finds. *)
Definition querier_at {W Tx} `{!Has (tx_states Tx) W} (ctx : context) (w : W) : option Tx :=
  (pgTx ctx ≫= fun r => (part w : tx_states Tx) !! r) ≫= fun s => Some (st_tx s).

Lemma GetQuerier_at {W Tx} `{!Has (tx_states Tx) W} ctx (w : W) : GetQuerier (Tx := Tx) ctx w = (Done (querier_at ctx w), w).
Proof.
  unfold GetQuerier, get_state, querier_at. unfold_go.
  destruct (pgTx ctx) as [r|]; cbn; [|done]. by destruct (_ !! r).
Qed.

(** ** Helpers of the stores ([util.go]) *)

Definition NullString (s : string) : option string :=
  if bool_decide (s = "") then None else Some s.
Definition NullTime (t : Z) : option Z := if time_is_zero t then None else Some t.

(** [v] is none for nil; [json_Marshal] gives the bytes or an error. *)
Definition JSONOrNull {V} (json_Marshal : V -> string + goerr) (v : option V) :
    result (option string) :=
  match v with
  | None => Ok None
  | Some v => match json_Marshal v with
              | inr err => Err (EWrap "marshal JSON: " err "")
              | inl data => Ok (Some data)
              end
  end.

(** [sql_state]: the [SQLState()] of the errors that have one. *)
Definition IsUniqueViolation (sql_state : goerr -> option string) (err : error) : bool :=
  match err ≫= sql_state with Some st => bool_decide (st = "23505") | None => false end.

(** ** What PostgreSQL documents

    The rows visible in a transaction and its stack of savepoints, newest first. *)
Record session (D : Type) := mkSession { saved : list (string * D); visible : D }.
Arguments mkSession {D} saved visible.
Arguments saved {D} _.
Arguments visible {D} _.

(** As long as no statement fails: [dml] are the statements that change rows and
    [apply_sql] is what they do. Calls of the database and of the clock leave the
    manager's states alone, and the manager's states are not in the database. *)
Class WorkingDatabase (W Tx D : Type) `{!SqlDB W Tx, !Has (tx_states Tx) W, !Clock W} := {
  session_of : Tx -> W -> option (session D);
  committed : W -> D;
  dml : string -> bool;
  apply_sql : string -> D -> D;
  db_leads (t : Tx) (w w' : W) (s : option (session D)) (c : D) : Prop :=
    session_of t w' = s /\ committed w' = c /\ part w' = (part w : tx_states Tx);
  db_begin : forall ctx w, exists t w', db_BeginTx ctx w = (Done (inl t), w') /\
    db_leads t w w' (Some (mkSession [] (committed w))) (committed w);
  db_savepoint : forall t ctx n w sv d, session_of t w = Some (mkSession sv d) ->
    exists w', tx_ExecContext t ctx ("SAVEPOINT " +:+ n) w = (Done None, w') /\
      db_leads t w w' (Some (mkSession ((n, d) :: sv) d)) (committed w);
  db_rollback_to : forall t ctx n w pre post d d', n ∉ pre.*1 ->
    session_of t w = Some (mkSession (pre ++ (n, d) :: post) d') ->
    exists w', tx_ExecContext t ctx ("ROLLBACK TO SAVEPOINT " +:+ n) w = (Done None, w') /\
      db_leads t w w' (Some (mkSession ((n, d) :: post) d)) (committed w);
  db_release : forall t ctx n w pre post d d', n ∉ pre.*1 ->
    session_of t w = Some (mkSession (pre ++ (n, d) :: post) d') ->
    exists w', tx_ExecContext t ctx ("RELEASE SAVEPOINT " +:+ n) w = (Done None, w') /\
      db_leads t w w' (Some (mkSession post d')) (committed w);
  db_dml : forall t ctx q w sv d, dml q = true -> session_of t w = Some (mkSession sv d) ->
    exists w', tx_ExecContext t ctx q w = (Done None, w') /\
      db_leads t w w' (Some (mkSession sv (apply_sql q d))) (committed w);
  db_commit : forall t w sv d, session_of t w = Some (mkSession sv d) ->
    exists w', tx_CommitTx t w = (Done None, w') /\ db_leads t w w' None d;
  db_rollback : forall t w s, session_of t w = Some s ->
    exists w', tx_RollbackTx t w = (Done None, w') /\ db_leads t w w' None (committed w);
  db_clock : forall t w, exists now' w', now w = (now', w') /\
    db_leads t w w' (session_of t w) (committed w);
  db_session_part : forall t (h : tx_states Tx) w, session_of t (set_part h w) = session_of t w;
  db_committed_part : forall (h : tx_states Tx) w, committed (set_part h w) = committed w }.

(** ** Nested commands

    A command that executes a statement and then other commands, with its
    context, before it ends with an error or not. *)
Inductive pg_call := PgCall (stmt : string) (fails : bool) (inner : list pg_call).

(** What the manager makes of a command: it aborts if it fails, or if the last
    command that it ran aborted. *)
Fixpoint aborts (c : pg_call) : bool :=
  match c with PgCall _ f inner => f || fold_left (fun _ c => aborts c) inner false end.

(** The number of commands. *)
Fixpoint calls (c : pg_call) : Z :=
  match c with PgCall _ _ inner => (1 + foldr (fun c n => calls c + n) 0 inner)%Z end.

Section Calls.
Context {W Tx : Type} `{!SqlDB W Tx} `{!Has (tx_states Tx) W} `{!Clock W}.

Fixpoint run_pg (c : pg_call) (ctx : context) {struct c} : GoM W (unit * error) :=
  match c with
  | PgCall q fails inner =>
      run_aspects tt ctx tt
        (fun ctx =>
           e ← querier_exec ctx q;
           match e with
           | Some e => mret (tt, Some e)
           | None =>
               _ ← (fix go (l : list pg_call) : GoM W unit :=
                      match l with
                      | [] => mret tt
                      | c :: l => _ ← run_pg c ctx; go l
                      end) inner;
               mret (tt, own_error fails)
           end)
        [TransactionAspect_Command PgTransactionManager]
  end.

Definition run_pg_inner (l : list pg_call) (ctx : context) : GoM W unit :=
  (fix go (l : list pg_call) : GoM W unit :=
     match l with
     | [] => mret tt
     | c :: l => _ ← run_pg c ctx; go l
     end) l.
End Calls.

(** ** Lemmas *)

Section CallInduction.
Context (P : pg_call -> Prop).
Context (H : forall q fails inner, Forall P inner -> P (PgCall q fails inner)).
Fixpoint pg_call_rect' (c : pg_call) : P c :=
  match c with
  | PgCall q fails inner =>
      H q fails inner
        ((fix go (l : list pg_call) : Forall P l :=
            match l with
            | [] => Forall_nil_2 P
            | c :: l => Forall_cons_2 P c l (pg_call_rect' c) (go l)
            end) inner)
  end.
End CallInduction.

Lemma sp_name_inj m n : sp_name m = sp_name n -> m = n.
Proof. intros H. apply (inj (String.append "sp_")) in H. by apply (inj pretty). Qed.

Lemma calls_pos c : (1 <= calls c)%Z.
Proof.
  induction c as [q f inner IH] using pg_call_rect'. cbn [calls].
  induction IH as [|c inner Hc _ IH]; cbn [foldr]; lia.
Qed.

(** What a command that does not abort does to the rows: its own statement, and
    the commands it ran that did not abort; the others are undone. *)
Fixpoint pg_effect {D} (apply : string -> D -> D) (c : pg_call) (d : D) : D :=
  match c with
  | PgCall q _ inner =>
      fold_left (fun d c => if aborts c then d else pg_effect apply c d) inner (apply q d)
  end.

Fixpoint all_stmts (ok : string -> bool) (c : pg_call) : bool :=
  match c with PgCall q _ inner => ok q && forallb (all_stmts ok) inner end.

(** The names of savepoints made after [lo] and up to [hi]. *)
Definition names_in (lo hi : Z) {D} (l : list (string * D)) : Prop :=
  Forall (fun p => exists m, p.1 = sp_name m /\ (lo < m <= hi)%Z) l.

Lemma names_in_fresh lo hi {D} (l : list (string * D)) : names_in lo hi l -> sp_name lo ∉ l.*1.
Proof.
  intros Hl ([n d] & Hn & Hin)%list_elem_of_fmap.
  eapply Forall_forall in Hl as (m & Hm & Hlt); [|exact Hin]. cbn in *.
  rewrite Hm in Hn. apply sp_name_inj in Hn. lia.
Qed.

Lemma names_in_weaken lo lo' hi hi' {D} (l : list (string * D)) :
  names_in lo hi l -> (lo' <= lo)%Z -> (hi <= hi')%Z -> names_in lo' hi' l.
Proof.
  intros Hl Hlo Hhi. eapply Forall_impl; [exact Hl|]. intros p (m & Hm & ?). exists m. split; [done|lia].
Qed.

Section Nesting.
Context {W Tx D : Type} `{!SqlDB W Tx} `{!Has (tx_states Tx) W, !HasLaws (tx_states Tx) W}.
Context `{!Clock W, !WorkingDatabase W Tx D}.
Abbreviation states w := (part w : tx_states Tx).
Abbreviation committed := (committed (W := W) (Tx := Tx) (D := D)).
Abbreviation session_of := (session_of (W := W) (Tx := Tx) (D := D)).
Abbreviation dml := (dml (W := W) (Tx := Tx) (D := D)).
Abbreviation apply_sql := (apply_sql (W := W) (Tx := Tx) (D := D)).

(** The context's transaction is in state [s], with savepoints [sv] and rows [d]. *)
Definition in_tx (ctx : context) (r : nat) (s : txState Tx) (sv : list (string * D)) (d : D) (w : W) : Prop :=
  pgTx ctx = Some r /\ states w !! r = Some s /\ session_of (st_tx s) w = Some (mkSession sv d).

(** From [w] to [w'] the context's transaction got into state [s]; nothing was committed. *)
Definition got_to (r : nat) (s : txState Tx) (sv : list (string * D)) (d : D) (w w' : W) : Prop :=
  states w' = <[r := s]> (states w) /\ session_of (st_tx s) w' = Some (mkSession sv d) /\
  committed w' = committed w.

Lemma got_to_in_tx ctx r s s' sv sv' d d' w w' :
  in_tx ctx r s sv d w -> got_to r s' sv' d' w w' -> in_tx ctx r s' sv' d' w'.
Proof.
  intros (Hr & Hs & _) (Hst & Hse & _). split_and!; [done| |done].
  rewrite Hst. apply list_lookup_insert_eq. by eapply lookup_lt_Some.
Qed.

Lemma got_to_trans r s1 s2 sv1 sv2 d1 d2 w w1 w2 :
  got_to r s1 sv1 d1 w w1 -> got_to r s2 sv2 d2 w1 w2 -> got_to r s2 sv2 d2 w w2.
Proof.
  intros (H1 & _ & Hc1) (H2 & Hs2 & Hc2). split_and!; [|done|congruence].
  by rewrite H2, H1, list_insert_insert_eq.
Qed.

Lemma clock_got_to ctx r s sv d w :
  in_tx ctx r s sv d w -> exists t w', now w = (t, w') /\ got_to r s sv d w w'.
Proof.
  intros (Hr & Hs & Hse). destruct (db_clock (st_tx s) w) as (t & w' & Hn & Hse' & Hc & Hp).
  exists t, w'. split; [done|]. split_and!; [|by rewrite Hse'|done].
  by rewrite Hp, list_insert_id.
Qed.

Lemma get_state_in_tx ctx r s sv d w :
  in_tx ctx r s sv d w -> get_state ctx w = (Done (Some (r, s)), w).
Proof. intros (Hr & Hs & _). unfold get_state. rewrite Hr. cbn. by rewrite Hs. Qed.

Lemma begin_nested ctx r s sv d w :
  in_tx ctx r s sv d w -> in_int64 (nextSpSeq s + 1) -> in_int64 (depth s + 1) ->
  let s' := mkTxState (st_tx s) (depth s + 1) false (nextSpSeq s + 1) (parentSp s ++ [nextSpSeq s + 1])%Z in
  exists w', pg_Begin ctx w = (Done (ctx, None), w') /\
    got_to r s' ((sp_name (nextSpSeq s + 1), d) :: sv) d w w'.
Proof.
  intros Hin Hn Hd s'. pose proof Hin as (Hr & Hs & Hse).
  unfold pg_Begin, put_state. unfold_go. rewrite (get_state_in_tx _ _ _ _ _ _ Hin). cbn beta iota.
  rewrite !int_add_id by done. set (w1 := set_part _ w).
  destruct (db_savepoint (st_tx s) ctx (sp_name (nextSpSeq s + 1)) w1 sv d)
    as (w2 & He & Hse2 & Hc2 & Hp2).
  { unfold w1. by rewrite db_session_part. }
  rewrite He. eexists. split; [reflexivity|]. split_and!.
  - rewrite part_set, Hp2. unfold w1. by rewrite part_set, list_insert_insert_eq.
  - by rewrite db_session_part.
  - rewrite db_committed_part, Hc2. unfold w1. apply db_committed_part.
Qed.

Lemma pop_savepoint_snoc (s : txState Tx) ab tx dep a n k ps :
  s = mkTxState tx (dep + 1) a n (ps ++ [k]) -> in_int64 dep ->
  pop_savepoint s ab = Some (sp_name k, mkTxState tx dep ab n ps).
Proof.
  intros -> Hd. unfold pop_savepoint. cbn. rewrite last_snoc, removelast_last.
  rewrite int_sub_id by (by replace (dep + 1 - 1)%Z with dep by lia). do 4 f_equal. lia.
Qed.

(** The end of a nested command: its savepoint is released, or everything since
    it is undone. *)
Lemma end_nested ctx r tx dep a n k ps pre sv d d0 f w :
  in_tx ctx r (mkTxState tx (dep + 1) a n (ps ++ [k])) (pre ++ (sp_name k, d0) :: sv) d w ->
  (0 < dep)%Z -> in_int64 dep -> sp_name k ∉ pre.*1 ->
  exists e w', transaction_after PgTransactionManager ctx (own_error f) w = (Done e, w') /\
    got_to r (mkTxState tx dep (a || f) n ps)
      (if a || f then (sp_name k, d0) :: sv else sv) (if a || f then d0 else d) w w' /\
    (combine_errors (own_error f) e = None <-> a || f = false).
Proof.
  intros Hin Hd Hi Hk. pose proof Hin as (Hr & Hs & Hse). cbn [st_tx] in Hse.
  assert (forall s', session_of tx (set_part (<[r := s']> (states w)) w) =
    Some (mkSession (pre ++ (sp_name k, d0) :: sv) d)) as Hse1.
  { intros s'. by rewrite db_session_part. }
  unfold transaction_after, PgTransactionManager, pg_Rollback, pg_Commit, put_state. unfold_go.
  destruct f; cbn [own_error tx_Rollback tx_Commit]; unfold_go;
    rewrite (get_state_in_tx _ _ _ _ _ _ Hin); cbn beta iota; cbn [depth aborted];
    rewrite bool_decide_eq_false_2 by lia; erewrite pop_savepoint_snoc by done;
    cbn [depth st_tx aborted]; rewrite bool_decide_eq_true_2 by lia.
  - destruct (db_rollback_to _ ctx (sp_name k) _ pre sv d0 d Hk (Hse1 (mkTxState tx dep true n ps)))
      as (w2 & He & Hse2 & Hc2 & Hp2).
    rewrite He, orb_true_r. do 2 eexists. split; [reflexivity|]. split; [split_and!|done].
    + by rewrite Hp2, part_set.
    + done.
    + by rewrite Hc2, db_committed_part.
  - destruct a; cbn [orb].
    + destruct (db_rollback_to _ ctx (sp_name k) _ pre sv d0 d Hk (Hse1 (mkTxState tx dep true n ps)))
        as (w2 & He & Hse2 & Hc2 & Hp2).
      rewrite He. do 2 eexists. split; [reflexivity|]. split; [split_and!|done].
      * by rewrite Hp2, part_set.
      * done.
      * by rewrite Hc2, db_committed_part.
    + destruct (db_release _ ctx (sp_name k) _ pre sv d0 d Hk (Hse1 (mkTxState tx dep false n ps)))
        as (w2 & He & Hse2 & Hc2 & Hp2).
      rewrite He. do 2 eexists. split; [reflexivity|]. split; [split_and!|done].
      * by rewrite Hp2, part_set.
      * done.
      * by rewrite Hc2, db_committed_part.
Qed.

Abbreviation effect := (pg_effect apply_sql).
Abbreviation last_aborts inner a := (fold_left (fun _ c => aborts c) inner a).
Abbreviation inner_effect inner d :=
  (fold_left (fun x c => if aborts c then x else effect c x) inner d).

(** A command inside a transaction gives back the depth and the savepoints it
    found, up to savepoints of its own; its effect is there iff it did not abort. *)
Definition nested_ok (c : pg_call) : Prop := forall ctx r s sv d w,
  in_tx ctx r s sv d w -> (1 <= depth s <= nextSpSeq s)%Z ->
  (nextSpSeq s + calls c <= max_int64)%Z -> all_stmts dml c = true ->
  exists e w' n pre, run_pg c ctx w = (Done (tt, e), w') /\
    got_to r (mkTxState (st_tx s) (depth s) (aborts c) n (parentSp s)) (pre ++ sv)
      (if aborts c then d else effect c d) w w' /\
    (nextSpSeq s <= n <= nextSpSeq s + calls c)%Z /\ names_in (nextSpSeq s) n pre /\
    (e = None <-> aborts c = false).

Lemma inner_ok inner : Forall nested_ok inner -> forall ctx r s sv d w,
  in_tx ctx r s sv d w -> (1 <= depth s <= nextSpSeq s)%Z ->
  (nextSpSeq s + foldr (fun c n => calls c + n) 0 inner <= max_int64)%Z ->
  forallb (all_stmts dml) inner = true ->
  exists w' n pre, run_pg_inner inner ctx w = (Done tt, w') /\
    got_to r (mkTxState (st_tx s) (depth s) (last_aborts inner (aborted s)) n (parentSp s)) (pre ++ sv)
      (inner_effect inner d) w w' /\
    (nextSpSeq s <= n <= nextSpSeq s + foldr (fun c n => calls c + n) 0 inner)%Z /\
    names_in (nextSpSeq s) n pre.
Proof.
  induction 1 as [|c inner Hc Hall IH]; intros ctx r s sv d w Hin Hb Hmax Hok.
  - exists w, (nextSpSeq s), []. split; [done|]. split; [|split; [cbn; lia|constructor]].
    destruct Hin as (Hr & Hs & Hse). split_and!; [|done..]. destruct s. cbn. by rewrite list_insert_id.
  - cbn [foldr forallb] in *. apply andb_true_iff in Hok as [Hokc Hok].
    change (run_pg_inner (c :: inner) ctx w) with ((_ ← run_pg c ctx; run_pg_inner inner ctx) w).
    unfold_go. assert (0 <= foldr (fun c n => calls c + n) 0 inner)%Z as Hpos.
    { clear. induction inner as [|c l IH]; cbn [foldr]; [lia|]. pose proof (calls_pos c). lia. }
    destruct (Hc ctx r s sv d w Hin Hb ltac:(lia) Hokc) as (e & w1 & n1 & pre1 & Hrun & Hg1 & Hn1 & Hp1 & _).
    rewrite Hrun. cbv beta iota.
    edestruct (IH ctx r _ _ _ w1 (got_to_in_tx _ _ _ _ _ _ _ _ _ _ Hin Hg1))
      as (w2 & n2 & pre2 & Hrun2 & Hg2 & Hn2 & Hp2); cbn [depth nextSpSeq aborted parentSp st_tx] in *;
      [lia|lia|done|].
    exists w2, n2, (pre2 ++ pre1). split; [done|]. split; [|split; [lia|]].
    + rewrite <- app_assoc. by eapply got_to_trans.
    + apply Forall_app. split; eapply names_in_weaken; try done; lia.
Qed.

(** The operation of a command, between the two readings of the clock. *)
Definition pg_body (q : string) (f : bool) (inner : list pg_call) (ctx : context) : GoM W (unit * error) :=
  e ← querier_exec ctx q;
  match e with
  | Some e => mret (tt, Some e)
  | None => _ ← run_pg_inner inner ctx; mret (tt, own_error f)
  end.

Lemma run_pg_unfold q f inner ctx :
  run_pg (PgCall q f inner) ctx =
  run_aspects tt ctx tt (pg_body q f inner) [TransactionAspect_Command PgTransactionManager].
Proof. reflexivity. Qed.

Lemma body_ok q f inner ctx r s sv d w :
  Forall nested_ok inner -> in_tx ctx r s sv d w -> (1 <= depth s <= nextSpSeq s)%Z ->
  (nextSpSeq s + foldr (fun c n => calls c + n) 0 inner <= max_int64)%Z ->
  all_stmts dml (PgCall q f inner) = true ->
  exists t1 w1 w2 t2 w3 n pre, now w = (t1, w1) /\
    pg_body q f inner ctx w1 = (Done (tt, own_error f), w2) /\ now w2 = (t2, w3) /\
    got_to r (mkTxState (st_tx s) (depth s) (last_aborts inner (aborted s)) n (parentSp s)) (pre ++ sv)
      (inner_effect inner (apply_sql q d)) w w3 /\
    (nextSpSeq s <= n <= nextSpSeq s + foldr (fun c n => calls c + n) 0 inner)%Z /\
    names_in (nextSpSeq s) n pre.
Proof.
  intros Hall Hin Hb Hmax Hok. cbn [all_stmts] in Hok. apply andb_true_iff in Hok as [Hq Hok].
  destruct (clock_got_to _ _ _ _ _ _ Hin) as (t1 & w1 & Ht1 & Hg1).
  pose proof (got_to_in_tx _ _ _ _ _ _ _ _ _ _ Hin Hg1) as Hin1. pose proof Hin1 as (Hr & Hs1 & Hse1).
  destruct (db_dml (st_tx s) ctx q w1 sv d Hq Hse1) as (w2 & He & Hse2 & Hc2 & Hp2).
  assert (got_to r s sv (apply_sql q d) w1 w2) as Hg2.
  { split_and!; [|done..]. by rewrite Hp2, list_insert_id. }
  pose proof (got_to_in_tx _ _ _ _ _ _ _ _ _ _ Hin1 Hg2) as Hin2.
  destruct (inner_ok inner Hall ctx r s sv _ w2 Hin2 Hb Hmax Hok) as (w3 & n & pre & Hrun & Hg3 & Hn & Hp).
  destruct (clock_got_to _ _ _ _ _ _ (got_to_in_tx _ _ _ _ _ _ _ _ _ _ Hin2 Hg3)) as (t2 & w4 & Ht2 & Hg4).
  exists t1, w1, w3, t2, w4, n, pre. split; [done|]. split; [|split; [done|split; [|done]]].
  - unfold pg_body, querier_exec, GetQuerier. unfold_go. rewrite (get_state_in_tx _ _ _ _ _ _ Hin1).
    cbv beta iota. rewrite He. cbv beta iota. by rewrite Hrun.
  - do 3 (eapply got_to_trans; [eassumption|]). exact Hg4.
Qed.

Lemma run_pg_nested c : nested_ok c.
Proof.
  induction c as [q f inner IH] using pg_call_rect'. intros ctx r s sv d w Hin Hb Hmax Hok.
  cbn [calls] in Hmax.
  assert (0 <= foldr (fun c n => calls c + n) 0 inner)%Z as Hpos.
  { clear. induction inner as [|c l IH]; cbn [foldr]; [lia|]. pose proof (calls_pos c). lia. }
  assert (forall z, 0 <= z <= max_int64 -> in_int64 z)%Z as Hint.
  { intros z Hz. unfold in_int64, max_int64, two63 in *. lia. }
  destruct (begin_nested ctx r s sv d w Hin) as (w1 & HB & Hg1); [apply Hint; lia..|].
  edestruct (body_ok q f inner ctx r _ _ _ w1 IH (got_to_in_tx _ _ _ _ _ _ _ _ _ _ Hin Hg1))
    as (t1 & w2 & w3 & t2 & w4 & n & pre & Ht1 & Hbody & Ht2 & Hg2 & Hn & Hp);
    cbn [depth nextSpSeq aborted parentSp st_tx] in *; [lia|lia|done|].
  pose proof (got_to_trans _ _ _ _ _ _ _ _ _ _ Hg1 Hg2) as Hg.
  destruct (end_nested ctx r (st_tx s) (depth s) (last_aborts inner false) n (nextSpSeq s + 1)
    (parentSp s) pre sv (inner_effect inner (apply_sql q d)) d f w4) as (e & w5 & Ha & Hg5 & He);
    [by eapply got_to_in_tx|lia|apply Hint; lia|by eapply names_in_fresh|].
  rewrite run_pg_unfold. cbn [run_aspects TransactionAspect_Command Before After tx_Begin PgTransactionManager].
  unfold_go. rewrite HB. cbv beta iota. rewrite Ht1. cbv beta iota. rewrite Hbody. cbv beta iota.
  rewrite Ht2. cbv beta iota. rewrite Ha. cbn [aborts pg_effect calls].
  rewrite (orb_comm f). set (ab := last_aborts inner false || f) in *.
  exists (combine_errors (own_error f) e), w5, n, (if ab then [(sp_name (nextSpSeq s + 1), d)] else []).
  split; [done|]. split; [|split; [lia|split; [|done]]].
  - pose proof (got_to_trans _ _ _ _ _ _ _ _ _ _ Hg Hg5) as Hg'. by destruct ab.
  - destruct ab; constructor; [|constructor]. exists (nextSpSeq s + 1)%Z. split; [done|lia].
Qed.

(** ** The outermost command *)

Lemma begin_top ctx w :
  pgTx ctx = None -> exists t w', pg_Begin ctx w = (Done (with_pg_tx ctx (length (states w)), None), w') /\
    states w' = states w ++ [mkTxState t 1 false 1 [1%Z]] /\
    session_of t w' = Some (mkSession [] (committed w)) /\ committed w' = committed w.
Proof.
  intros Hc. unfold pg_Begin, get_state, new_state. unfold_go. rewrite Hc. cbn [mbind option_bind].
  destruct (db_begin ctx w) as (t & w1 & HB & Hse & Hc1 & Hp1). rewrite HB. cbv beta iota.
  exists t. eexists. rewrite Hp1. split; [reflexivity|].
  split; [by rewrite part_set|]. rewrite db_session_part, db_committed_part. done.
Qed.

Lemma end_top ctx r tx a n sv d f w :
  in_tx ctx r (mkTxState tx 1 a n [1%Z]) sv d w ->
  exists e w', transaction_after PgTransactionManager ctx (own_error f) w = (Done e, w') /\
    states w' = <[r := mkTxState tx 0 (a || f) n []]> (states w) /\
    committed w' = (if a || f then committed w else d) /\
    (combine_errors (own_error f) e = None <-> a || f = false).
Proof.
  intros Hin. pose proof Hin as (Hr & Hs & Hse). cbn [st_tx] in Hse.
  assert (forall s', session_of tx (set_part (<[r := s']> (states w)) w) = Some (mkSession sv d)) as Hse1.
  { intros s'. by rewrite db_session_part. }
  assert (forall ab, pop_savepoint (mkTxState tx 1 a n [1%Z]) ab =
    Some (sp_name 1, mkTxState tx 0 ab n [])) as Hpop by done.
  unfold transaction_after, PgTransactionManager, pg_Rollback, pg_Commit, put_state. unfold_go.
  destruct f; cbn [own_error tx_Rollback tx_Commit]; unfold_go;
    rewrite (get_state_in_tx _ _ _ _ _ _ Hin); cbn beta iota; cbn [depth aborted];
    rewrite bool_decide_eq_false_2 by lia; rewrite Hpop; cbn [depth st_tx aborted];
    rewrite bool_decide_eq_false_2 by lia.
  - destruct (db_rollback tx _ _ (Hse1 (mkTxState tx 0 true n []))) as (w2 & He & _ & Hc2 & Hp2).
    rewrite He, orb_true_r. do 2 eexists. split; [reflexivity|].
    by rewrite Hp2, part_set, Hc2, db_committed_part.
  - destruct a; cbn [orb].
    + destruct (db_rollback tx _ _ (Hse1 (mkTxState tx 0 true n []))) as (w2 & He & _ & Hc2 & Hp2).
      rewrite He. do 2 eexists. split; [reflexivity|].
      by rewrite Hp2, part_set, Hc2, db_committed_part.
    + destruct (db_commit tx _ _ _ (Hse1 (mkTxState tx 0 false n []))) as (w2 & He & _ & Hc2 & Hp2).
      rewrite He. do 2 eexists. split; [reflexivity|]. by rewrite Hp2, part_set, Hc2.
Qed.
End Nesting.

(** ** Properties *)

(** C11: Nested commands on PostgreSQL: running any tree of commands outside a
    transaction opens one transaction and ends it; the outermost command reports success exactly
    when it does not abort, where a command aborts if it fails itself or if the last command that it
    ran aborted. On success exactly the rows of the commands that did not abort, below commands
    that did not either, are committed, in order; otherwise nothing is. So an earlier failed
    command is undone and forgotten, because the next [Begin] clears the aborted mark. *)
Theorem pg_transaction_outcome {W Tx D} `{!SqlDB W Tx}
    `{!Has (tx_states Tx) W, !HasLaws (tx_states Tx) W, !Clock W, !WorkingDatabase W Tx D}
    (c : pg_call) ctx (w : W) :
  let rows := committed (W := W) (Tx := Tx) (D := D) in
  pgTx ctx = None -> (calls c <= max_int64)%Z -> all_stmts (dml (Tx := Tx) (D := D)) c = true ->
  exists e w', run_pg c ctx w = (Done (tt, e), w') /\
    (e = None <-> aborts c = false) /\
    rows w' = (if aborts c then rows w else pg_effect (apply_sql (Tx := Tx)) c (rows w)) /\
    exists s, part w' = (part w : tx_states Tx) ++ [s] /\ depth s = 0%Z.
Proof.
  intros rows Hc Hmax Hok. destruct c as [q f inner]. cbn [calls] in Hmax.
  rewrite run_pg_unfold. cbn [run_aspects TransactionAspect_Command Before After tx_Begin PgTransactionManager].
  unfold_go. destruct (begin_top ctx w Hc) as (t & w1 & HB & Hw1 & Hse1 & Hc1). rewrite HB. cbv beta iota.
  set (r := length (part w : tx_states Tx)) in *. set (s1 := mkTxState t 1 false 1 [1%Z]) in *.
  assert (in_tx (with_pg_tx ctx r) r s1 [] (committed w) w1) as Hin.
  { split_and!; [done| |done]. rewrite Hw1. by apply list_lookup_middle. }
  destruct (body_ok q f inner (with_pg_tx ctx r) r s1 [] (committed w) w1) as
    (t1 & w2 & w3 & t2 & w4 & n & pre & Ht1 & Hbody & Ht2 & Hg & _); try done; try (cbn; lia).
  { apply Forall_forall. intros c _. apply run_pg_nested. }
  rewrite Ht1. cbv beta iota. rewrite Hbody. cbv beta iota. rewrite Ht2. cbv beta iota.
  cbn [aborts pg_effect]. set (ab := fold_left _ inner _) in *.
  destruct (end_top (with_pg_tx ctx r) r t ab n (pre ++ []) _ f w4 (got_to_in_tx _ _ _ _ _ _ _ _ _ _ Hin Hg))
    as (e & w5 & Ha & Hp5 & Hc5 & He).
  rewrite Ha. do 2 eexists. split; [reflexivity|]. rewrite (orb_comm f). split; [exact He|]. split.
  - unfold rows. rewrite Hc5. destruct Hg as (_ & _ & ->). by rewrite Hc1.
  - exists (mkTxState t 0 (ab || f) n []). split; [|done]. rewrite Hp5.
    destruct Hg as (-> & _). rewrite Hw1, list_insert_insert_eq. unfold r.
    replace (length (part w)) with (length (part w : tx_states Tx) + 0) by lia. by rewrite insert_app_r.
Qed.

(** ** A concrete database

    Rows are a list; a statement that is not about savepoints adds itself to it. *)
Module DemoPg.
Fixpoint strip (pre s : string) : option string :=
  match pre, s with
  | "", _ => Some s
  | String a pre, String b s => if Ascii.eqb a b then strip pre s else None
  | _, _ => None
  end.

Record db := mkDb { clock : Z; sessions : list (option (session (list string))); rows : list string }.
Definition world : Type := db * tx_states nat.

#[export] Instance demo_clock : Clock world := fun '(b, h) =>
  (clock b, (mkDb (clock b + 1) (sessions b) (rows b), h)).

(** The newest savepoint of a name, with the ones before it. *)
Fixpoint find_savepoint (n : string) (l : list (string * list string)) :
    option (list string * list (string * list string)) :=
  match l with
  | [] => None
  | (m, d) :: post => if bool_decide (m = n) then Some (d, post) else find_savepoint n post
  end.

Definition sql (q : string) (s : session (list string)) : option (session (list string)) :=
  match strip "SAVEPOINT " q with
  | Some n => Some (mkSession ((n, visible s) :: saved s) (visible s))
  | None =>
      match strip "ROLLBACK TO SAVEPOINT " q with
      | Some n => '(d, post) ← find_savepoint n (saved s); Some (mkSession ((n, d) :: post) d)
      | None =>
          match strip "RELEASE SAVEPOINT " q with
          | Some n => '(_, post) ← find_savepoint n (saved s); Some (mkSession post (visible s))
          | None => Some (mkSession (saved s) (visible s ++ [q]))
          end
      end
  end.

Definition demo_session (t : nat) (w : world) : option (session (list string)) :=
  default None (sessions w.1 !! t).
Definition set_session (t : nat) (s : option (session (list string))) (rs : list string) (w : world) : world :=
  (mkDb (clock w.1) (<[t := s]> (sessions w.1)) rs, w.2).
Definition sql_error : goerr := ENew "sql error".

#[export] Instance demo_db : SqlDB world nat := {
  db_BeginTx _ := fun w =>
    (Done (inl (length (sessions w.1))),
     (mkDb (clock w.1) (sessions w.1 ++ [Some (mkSession [] (rows w.1))]) (rows w.1), w.2));
  db_ExecContext _ q := fun w => (Done None, (mkDb (clock w.1) (sessions w.1) (rows w.1 ++ [q]), w.2));
  tx_ExecContext t _ q := fun w =>
    match demo_session t w ≫= sql q with
    | Some s => (Done None, set_session t (Some s) (rows w.1) w)
    | None => (Done (Some sql_error), w)
    end;
  tx_CommitTx t := fun w =>
    match demo_session t w with
    | Some s => (Done None, set_session t None (visible s) w)
    | None => (Done (Some sql_error), w)
    end;
  tx_RollbackTx t := fun w =>
    match demo_session t w with
    | Some s => (Done None, set_session t None (rows w.1) w)
    | None => (Done (Some sql_error), w)
    end }.

Lemma find_savepoint_app n pre d post :
  n ∉ pre.*1 -> find_savepoint n (pre ++ (n, d) :: post) = Some (d, post).
Proof.
  induction pre as [|[m d'] pre IH]; cbn; intros Hn.
  - by rewrite bool_decide_eq_true_2.
  - apply not_elem_of_cons in Hn as [Hne Hn]. rewrite bool_decide_eq_false_2 by congruence. by apply IH.
Qed.

Lemma sql_savepoint n s :
  sql ("SAVEPOINT " +:+ n) s = Some (mkSession ((n, visible s) :: saved s) (visible s)).
Proof. reflexivity. Qed.

Lemma sql_rollback_to n pre d post d' :
  n ∉ pre.*1 -> sql ("ROLLBACK TO SAVEPOINT " +:+ n) (mkSession (pre ++ (n, d) :: post) d') =
    Some (mkSession ((n, d) :: post) d).
Proof.
  intros Hn. change (('(d, post) ← find_savepoint n (pre ++ (n, d) :: post);
    Some (mkSession ((n, d) :: post) d)) = Some (mkSession ((n, d) :: post) d)).
  by rewrite (find_savepoint_app _ _ _ _ Hn).
Qed.

Lemma sql_release n pre d post d' :
  n ∉ pre.*1 -> sql ("RELEASE SAVEPOINT " +:+ n) (mkSession (pre ++ (n, d) :: post) d') =
    Some (mkSession post d').
Proof.
  intros Hn. change (('(_, post) ← find_savepoint n (pre ++ (n, d) :: post);
    Some (mkSession post d')) = Some (mkSession post d')).
  by rewrite (find_savepoint_app _ _ _ _ Hn).
Qed.

Lemma session_set t s rs w s0 :
  demo_session t w = Some s0 -> demo_session t (set_session t s rs w) = s.
Proof.
  unfold demo_session, set_session. cbn. intros H.
  destruct (sessions w.1 !! t) as [x|] eqn:Ht; [|done].
  by rewrite list_lookup_insert_eq by (by eapply lookup_lt_Some).
Qed.

Definition changes_rows (q : string) : bool :=
  match strip "SAVEPOINT " q, strip "ROLLBACK TO SAVEPOINT " q, strip "RELEASE SAVEPOINT " q with
  | None, None, None => true
  | _, _, _ => false
  end.

#[export] Program Instance demo_working : WorkingDatabase world nat (list string) := {
  session_of := demo_session;
  committed w := rows w.1;
  dml := changes_rows;
  apply_sql q d := d ++ [q] }.
Next Obligation.
  intros ctx w. do 2 eexists. split; [reflexivity|]. split_and!; [|done..].
  unfold demo_session. cbn. by rewrite list_lookup_middle.
Qed.
Next Obligation.
  intros t ctx n w sv d Hs. cbn [tx_ExecContext demo_db]. rewrite Hs.
  cbn [mbind option_bind]. rewrite sql_savepoint.
  eexists. split; [reflexivity|]. split_and!; [by eapply session_set|done..].
Qed.
Next Obligation.
  intros t ctx n w pre post d d' Hn Hs. cbn [tx_ExecContext demo_db]. rewrite Hs.
  cbn [mbind option_bind]. rewrite (sql_rollback_to _ _ _ _ _ Hn).
  eexists. split; [reflexivity|]. split_and!; [by eapply session_set|done..].
Qed.
Next Obligation.
  intros t ctx n w pre post d d' Hn Hs. cbn [tx_ExecContext demo_db]. rewrite Hs.
  cbn [mbind option_bind]. rewrite (sql_release _ _ _ _ _ Hn).
  eexists. split; [reflexivity|]. split_and!; [by eapply session_set|done..].
Qed.
Next Obligation.
  intros t ctx q w sv d Hq Hs. cbn [tx_ExecContext demo_db]. rewrite Hs. cbn [mbind option_bind].
  unfold changes_rows in Hq. unfold sql. repeat case_match; try done.
  eexists. split; [reflexivity|]. split_and!; [by eapply session_set|done..].
Qed.
Next Obligation.
  intros t w sv d Hs. cbn [tx_CommitTx demo_db]. rewrite Hs.
  eexists. split; [reflexivity|]. split_and!; [by eapply session_set|done..].
Qed.
Next Obligation.
  intros t w s Hs. cbn [tx_RollbackTx demo_db]. rewrite Hs.
  eexists. split; [reflexivity|]. split_and!; [by eapply session_set|done..].
Qed.
Next Obligation. intros t [b h]. do 2 eexists. split; [reflexivity|]. by split_and!. Qed.
Next Obligation. by intros t h [b h']. Qed.
Next Obligation. by intros h [b h']. Qed.

(** A command whose first inner command fails and whose second does not. *)
Definition forgets : pg_call := PgCall "a" false [PgCall "b" true []; PgCall "c" false []].
Definition w0 : world := (mkDb 0 [] [], []).
End DemoPg.
Import DemoPg.

Lemma pg_transaction_outcome_witness :
  exists e w', run_pg forgets Background w0 = (Done (tt, e), w') /\
    (e = None <-> aborts forgets = false) /\ rows w'.1 = ["a"; "c"].
Proof.
  destruct (pg_transaction_outcome (Tx := nat) (D := list string) forgets Background w0
    eq_refl ltac:(vm_compute; discriminate) eq_refl) as (e & w' & H1 & H2 & H3 & _).
  exists e, w'. split; [exact H1|]. split; [exact H2|]. exact H3.
Defined.
