(* ===== verification/EventLog.v ===== *)
(** * The event store as repositories see it: [AggregateEventStore] of
    [src/cqrs/event/event.go]

    The interface, the laws that its clients rely on, and the in-memory store of
    event interfaces as an implementation of it. *)

From S2P Require Import Prelude Errors Trace Aggregate EventStore.

Class AggregateEventStore (W E : Type) := {
  es_Append : context -> string -> Z -> list E -> GoM W error;
  es_Load : context -> string -> Z -> GoM W (result (list E)) }.

(** The longest stream: the database keeps versions in 32 bits. *)
Definition max_stream : Z := 2147483647.

(** From [w] to [w'] the stream of [id] got [evts] and no other stream changed. *)
Definition stream_extends {W E} (es_stream : W -> string -> list E) (w w' : W) (id : string)
    (evts : list E) : Prop :=
  forall i, es_stream w' i = if bool_decide (i = id) then es_stream w i ++ evts else es_stream w i.

(** What a store promises in the states [es_ok] and contexts [es_usable]: appending at the
    end of a stream extends it, appending at an earlier version is a concurrency
    error that changes nothing, and loading gives what follows a version. *)
Class AggregateEventStoreLaws (W E : Type) `{!Event E, !AggregateEventStore W E} := {
  es_ok : W -> Prop;
  es_usable : context -> Prop;
  es_stream : W -> string -> list E;
  es_append_ok : forall ctx w id evts,
    es_ok w -> es_usable ctx -> Forall (fun e => aggregate_id e = id) evts ->
    (zlen (es_stream w id ++ evts) <= max_stream)%Z ->
    exists w', es_Append ctx id (zlen (es_stream w id)) evts w = (Done None, w') /\
      es_ok w' /\ stream_extends es_stream w w' id evts;
  es_append_conflict : forall ctx w id v evts,
    es_ok w -> es_usable ctx -> Forall (fun e => aggregate_id e = id) evts -> evts <> [] ->
    (0 <= v < zlen (es_stream w id))%Z -> (zlen (es_stream w id) <= max_stream)%Z ->
    exists e w', es_Append ctx id v evts w = (Done (Some e), w') /\
      errors_Is (TDomain "CONCURRENCY") e = true /\ es_ok w' /\ stream_extends es_stream w w' id [];
  es_load_ok : forall ctx w id v, es_ok w -> es_usable ctx -> (0 <= v)%Z ->
    exists w', es_Load ctx id v w = (Done (Ok (drop (Z.to_nat v) (es_stream w id))), w') /\
      es_ok w' /\ stream_extends es_stream w w' id [] }.

(** A store that takes the version before the first one, -1, for "from the start". *)
Class LoadsFromStart (W E : Type) `{AggregateEventStoreLaws W E} : Prop :=
  es_load_start : forall ctx w id, es_ok w -> es_usable ctx ->
    exists w', es_Load ctx id (-1) w = (Done (Ok (es_stream w id)), w') /\
      es_ok w' /\ stream_extends es_stream w w' id [].

Lemma stream_extends_nil {W E} (es_stream : W -> string -> list E) w w' id :
  stream_extends es_stream w w' id [] -> forall i, es_stream w' i = es_stream w i.
Proof. intros H i. rewrite H, app_nil_r. by case_bool_decide. Qed.

(** ** The in-memory store

    Of a type parameter that is an interface (shallow mode) or a pointer (copy mode).
    The events an aggregate holds are pointers to memory that nobody writes to again. *)
Section Memory.
Context {E : Type} `{!Event E} (zero_event : E).
Abbreviation memory := (list E * EventSourceStore E)%type.
Implicit Types (h k : list E) (l : list nat) (s : EventSourceStore E).

Definition memory_Append (id : string) (v : Z) (evts : list E) : GoM memory error := fun '(h, s) =>
  Append zero_event id v (seq (length h) (length evts)) (h ++ evts, s).
Definition memory_Load (id : string) (v : Z) : GoM memory (result (list E)) :=
  l ← Load zero_event id v;
  es ← mapM deref l;
  mret (Ok es).

Definition memory_store : AggregateEventStore memory E :=
  {| es_Append _ := memory_Append; es_Load _ := memory_Load |}.
#[local] Existing Instance memory_store.

(** In copy mode, events are copied into what the factory allocates. *)
Definition copies_ok s : Prop :=
  shallowCopy s = false -> forall f, newFunc s = Some f -> allocates f.

Definition memory_ok : memory -> Prop := fun '(h, s) =>
  copies_ok s /\ forall id, events s !! id <> Some [] /\
    Forall (fun a => a < length h) (mget [] (events s) id).
Definition memory_stream : memory -> string -> list E := fun '(h, s) id =>
  omap (fun a => h !! a) (mget [] (events s) id).

Lemma cells_stream h l : Forall (fun a => a < length h) l -> cells h l (omap (fun a => h !! a) l).
Proof.
  induction 1 as [|a l Ha _ IH]; [constructor|].
  destruct (lookup_lt_is_Some_2 _ _ Ha) as [e He]. cbn. rewrite He. by constructor.
Qed.

Lemma omap_grow h k l :
  Forall (fun a => a < length h) l -> omap (fun a => (h ++ k) !! a) l = omap (fun a => h !! a) l.
Proof.
  induction 1 as [|a l Ha _ IH]; [done|]. cbn. by rewrite lookup_app_l, IH.
Qed.

Lemma omap_fresh h k : omap (fun a => (h ++ k) !! a) (seq (length h) (length k)) = k.
Proof.
  revert h. induction k as [|e k IH]; intros h; [done|]. cbn.
  rewrite list_lookup_middle by done. f_equal.
  specialize (IH (h ++ [e])). rewrite <- app_assoc, length_app, Nat.add_1_r in IH. exact IH.
Qed.

Lemma omap_read_drop h l n : Forall (fun a => a < length h) l ->
  omap (fun a => h !! a) (drop n l) = drop n (omap (fun a => h !! a) l).
Proof.
  intros Hf. revert n. induction Hf as [|a l Ha Hf IH]; intros [|n]; [done..|].
  destruct (lookup_lt_is_Some_2 _ _ Ha) as [e He]. cbn. rewrite He. apply IH.
Qed.

Lemma mapM_deref h s l : Forall (fun a => a < length h) l ->
  mapM deref l (h, s) = (Done (omap (fun a => h !! a) l), (h, s)).
Proof.
  induction 1 as [|a l Ha _ IH]; [done|].
  destruct (lookup_lt_is_Some_2 _ _ Ha) as [e He].
  cbn [mapM]. unfold_go. unfold deref at 1. rewrite He, IH. cbn. by rewrite He.
Qed.

Lemma cells_read h l vs : cells h l vs -> omap (fun a => h !! a) l = vs /\ Forall (fun a => a < length h) l.
Proof.
  induction 1 as [|a v l vs Ha _ [IH1 IH2]]; [done|]. cbn. rewrite Ha, IH1. split; [done|].
  constructor; [by eapply lookup_lt_Some|done].
Qed.

(** What is kept or handed out is a cell with the event's contents. *)
Lemma copied_stores h s a v : copies_ok s -> h !! a = Some v ->
  exists b k, copied zero_event a (h, s) = (Done b, (h ++ k, s)) /\ (h ++ k) !! b = Some v.
Proof.
  intros Hc Ha. destruct (shallowCopy s) eqn:Hs.
  - exists a, []. unfold copied. by rewrite Hs, app_nil_r.
  - exists (length h), [v]. split; [by apply copied_copies; [|apply Hc|]|]. by rewrite list_lookup_middle.
Qed.

Lemma mapM_copied_stores h s l vs : copies_ok s -> cells h l vs ->
  exists l' k, mapM (copied zero_event) l (h, s) = (Done l', (h ++ k, s)) /\ cells (h ++ k) l' vs.
Proof.
  intros Hs Hc. revert h vs Hc. induction l as [|a l IH]; intros h vs Hc; inversion Hc as [|? v ? vs' Ha Hc']; subst.
  { exists [], []. rewrite app_nil_r. split; [done|constructor]. }
  destruct (copied_stores h s a v Hs Ha) as (b & k & Hb & Hv).
  destruct (IH (h ++ k) vs' (cells_app h k l vs' Hc')) as (l' & k' & Hl & Hc2).
  exists (b :: l'), (k ++ k'). rewrite app_assoc. split; [|constructor; [by apply lookup_app_l_Some|done]].
  cbn [mapM]. unfold_go. by rewrite Hb, Hl.
Qed.

(** Events are filed under their identity. *)
Lemma append_loop_stores id h s l vs :
  copies_ok s -> cells h l vs -> Forall (fun e => aggregate_id e = id) vs ->
  exists l' k s', append_loop zero_event l (h, s) = (Done tt, (h ++ k, s')) /\ copies_ok s' /\ cells (h ++ k) l' vs /\
    (forall i, mget [] (events s') i =
      if bool_decide (i = id) then mget [] (events s) i ++ l' else mget [] (events s) i) /\
    (forall i, events s !! i <> Some [] -> events s' !! i <> Some []).
Proof.
  intros Hs Hc. revert h s vs Hs Hc. induction l as [|a l IH]; intros h s vs Hs Hc Hid;
    inversion Hc as [|? e ? vs' Ha Hc']; subst.
  - exists [], [], s. rewrite !app_nil_r. split_and!; [done..|constructor| |done].
    intros i. rewrite app_nil_r. by case_bool_decide.
  - inversion Hid as [|? ? He Hid']; subst. destruct (copied_stores h s a e Hs Ha) as (b & k & Hb & Hv).
    destruct (IH (h ++ k) (push (aggregate_id e) b s) vs') as (l' & k' & s' & Hr & Hs' & Hl & Hm & Hn);
      [exact Hs|by apply cells_app|done|].
    exists (b :: l'), (k ++ k'), s'. rewrite app_assoc. split_and!; [|done| | |].
    + cbn [append_loop]. unfold_go. unfold deref at 1. rewrite Ha, Hb. cbn [push_event]. exact Hr.
    + constructor; [by apply lookup_app_l_Some|done].
    + intros i. rewrite Hm. cbn. case_bool_decide as Hi.
      * subst i. by rewrite mget_insert_eq, <- app_assoc.
      * by rewrite mget_insert_ne.
    + intros i Hi. apply Hn. cbn. destruct (decide (aggregate_id e = i)) as [<-|Hne].
      * rewrite lookup_insert_eq. intros [=]. by destruct (mget _ _ _).
      * by rewrite lookup_insert_ne.
Qed.

Lemma memory_stream_length h s id : memory_ok (h, s) ->
  zlen (memory_stream (h, s) id) = zlen (mget [] (events s) id).
Proof.
  intros [_ Hok]. unfold zlen. f_equal. symmetry.
  apply (Forall2_length _ _ _ (cells_stream h _ (proj2 (Hok id)))).
Qed.

Lemma memory_ok_grow h s k : memory_ok (h, s) -> memory_ok (h ++ k, s) /\
  forall id, memory_stream (h ++ k, s) id = memory_stream (h, s) id.
Proof.
  intros [Hs Hok]. split; [split; [done|]|].
  - intros id. destruct (Hok id) as [Hn Hf]. split; [done|].
    eapply Forall_impl; [exact Hf|]. intros a Ha. cbn in Ha. rewrite length_app. lia.
  - intros id. apply omap_grow, Hok.
Qed.

#[refine] Definition memory_laws : AggregateEventStoreLaws memory E :=
  {| es_ok := memory_ok; es_usable _ := True; es_stream := memory_stream |}.
Proof.
  - intros ctx [h s] id evts Hok _ Hid _. rewrite (memory_stream_length _ _ _ Hok).
    cbn [es_Append memory_store]. unfold memory_Append, Append. rewrite bool_decide_eq_true_2 by done.
    cbn [negb]. unfold_go. pose proof Hok as [Hs Hcells].
    destruct (append_loop_stores id (h ++ evts) s (seq (length h) (length evts)) evts)
      as (l' & k & s' & -> & Hs' & Hl & Hm & Hn); [done|apply cells_fresh|done|].
    destruct (cells_read _ _ _ Hl) as [Hread Hbound]. rewrite <- app_assoc in *.
    exists (h ++ evts ++ k, s'). split; [done|]. split; [split; [done|]|].
    + intros i. destruct (Hcells i) as [Hne Hf]. split; [by apply Hn|].
      assert (Forall (fun a => a < length (h ++ evts ++ k)) (mget [] (events s) i)) as Hf'.
      { eapply Forall_impl; [exact Hf|]. intros a Ha. cbn in Ha. rewrite length_app. lia. }
      rewrite Hm. case_bool_decide; [|done]. by apply Forall_app.
    + intros i. unfold memory_stream. rewrite Hm. destruct (Hcells i) as [_ Hf].
      case_bool_decide; [|by apply omap_grow]. by rewrite omap_app, omap_grow, Hread.
  - intros ctx [h s] id v evts Hok _ _ _ Hv _. rewrite (memory_stream_length _ _ _ Hok) in Hv.
    cbn [es_Append memory_store]. unfold memory_Append, Append. rewrite bool_decide_eq_false_2 by lia.
    cbn [negb]. do 2 eexists. split; [reflexivity|]. split; [reflexivity|].
    destruct (memory_ok_grow h s evts Hok) as [Hok' Hst]. split; [done|].
    intros i. rewrite Hst, app_nil_r. by case_bool_decide.
  - intros ctx [h s] id v Hok _ Hv.
    assert (forall k, memory_ok (h ++ k, s) /\
      stream_extends memory_stream (h, s) (h ++ k, s) id []) as Hgrow.
    { intros k. destruct (memory_ok_grow h s k Hok) as [Hok' Hst]. split; [done|].
      intros i. rewrite Hst, app_nil_r. by case_bool_decide. }
    cbn [es_Load memory_store]. unfold memory_Load, Load. unfold_go.
    pose proof Hok as [Hs Hcells]. destruct (Hcells id) as [Hne Hf]. unfold memory_stream at 1.
    unfold mget in *. destruct (events s !! id) as [evs|] eqn:Hev; cbn [default] in *;
      unfold Datatypes.id in *.
    2:{ exists (h, s). specialize (Hgrow []). rewrite app_nil_r in Hgrow. split; [cbn; by rewrite drop_nil|done]. }
    pose proof (Forall2_length _ _ _ (cells_stream h evs Hf)) as Hlen'. case_bool_decide as Hlen.
    + exists (h, s). specialize (Hgrow []). rewrite app_nil_r in Hgrow. split; [|done].
      rewrite drop_ge; [done|]. unfold zlen in *. lia.
    + rewrite slice_from_Some by lia.
      destruct (mapM_copied_stores h s (drop (Z.to_nat v) evs) (drop (Z.to_nat v) (omap (fun a => h !! a) evs)))
        as (l' & k & Hcp & Hl); [done|by apply Forall2_drop, cells_stream|].
      unfold_go. rewrite Hcp.
      destruct (cells_read _ _ _ Hl) as [Hread Hbound].
      exists (h ++ k, s). pose proof (mapM_deref _ s _ Hbound) as Hmd. unfold_go. rewrite Hmd, Hread. by split.
Defined.
End Memory.

(** ** A store as a part of a larger world *)
Section Lift.
Context {S W E : Type} `{!Event E} (store : AggregateEventStore S E) `{!Has S W, !HasLaws S W}.

Definition lifted {A} (m : GoM S A) : GoM W A :=
  fun w => let '(r, s) := m (part w) in (r, set_part s w).

Definition lift_store : AggregateEventStore W E :=
  {| es_Append ctx id v evts := lifted (@es_Append _ _ store ctx id v evts);
     es_Load ctx id v := lifted (@es_Load _ _ store ctx id v) |}.

#[refine] Definition lift_laws (laws : @AggregateEventStoreLaws S E _ store) :
    @AggregateEventStoreLaws W E _ lift_store :=
  {| es_ok w := @es_ok _ _ _ _ laws (part w); es_usable := @es_usable _ _ _ _ laws;
     es_stream w := @es_stream _ _ _ _ laws (part w) |}.
Proof.
  - intros ctx w id evts Hok Hu Hid Hn. destruct (es_append_ok ctx (part w) id evts Hok Hu Hid Hn) as (s & Hr & Hs & Hx).
    exists (set_part s w). cbn. unfold lifted, stream_extends. rewrite Hr, !part_set. done.
  - intros ctx w id v evts Hok Hu Hid Hne Hv Hn.
    destruct (es_append_conflict ctx (part w) id v evts Hok Hu Hid Hne Hv Hn) as (e & s & Hr & He & Hs & Hx).
    exists e, (set_part s w). cbn. unfold lifted, stream_extends. rewrite Hr, !part_set. done.
  - intros ctx w id v Hok Hu Hv. destruct (es_load_ok ctx (part w) id v Hok Hu Hv) as (s & Hr & Hs & Hx).
    exists (set_part s w). cbn. unfold lifted, stream_extends. rewrite Hr, !part_set. done.
Defined.
End Lift.

Import DemoEventStore.

(** The in-memory store does not load from the start: the version -1 is out of range. *)
Example memory_load_start_panics :
  let w := (memory_Append zero_ev "a" 0 [mkEv "a" 1]
              ([], mkStore ∅ [] 0 None true)).2 in
  (memory_Load zero_ev "a" (-1) w).1 = Panicked "slice bounds out of range".
Proof. vm_compute. reflexivity. Qed.
