(* ===== verification/ContractEvents.v ===== *)
(** * The contract of event stores: [src/cqrs/impl/event_store_contract.go],
      [src/cqrs/event/eventtest/eventtest.go]

    The suites as tests of any event store, and the proof that a store with the
    laws of [EventLog] passes them; the in-memory store with its global stream. *)

From S2P Require Import Prelude Errors Testing Trace Aggregate EventStore EventLog.

Record TestEvent := mkTestEvent { te_base : BaseEvent; Data : string }.

#[export] Instance test_event : Event TestEvent := {
  Metadata e := Some (te_base e);
  EventNameOf _ := "TestEvent";
  type_string _ := "*impl.TestEvent" }.

(** [GlobalEventStore], which a store may implement. *)
Record GlobalEventStore (W E : Type) := mkGlobal {
  gs_LoadAll : context -> Z -> Z -> GoM W (result (list (globalEntry E))) }.
Arguments mkGlobal {W E} gs_LoadAll.
Arguments gs_LoadAll {W E} _ _ _ _.

Section Suite.
Context {W : Type} `{!Clock W, !AggregateEventStore W TestEvent} (newStore : GoM W unit).
Abbreviation ctx := Background.

Definition NewTestEvent (aggID data : string) : GoM W TestEvent :=
  t ← time_now; mret (mkTestEvent (NewBaseEvent aggID t) data).

(** [if err := store.Append(...); err != nil { t.Fatalf(...) }]. *)
Definition must_append (id : string) (v : Z) (evts : list TestEvent) (format : string) : TestM W unit :=
  err ← call (es_Append ctx id v evts); must err format.
Definition must_load (id : string) (v : Z) (format : string) : TestM W (list TestEvent) :=
  r ← call (es_Load ctx id v); must_ok r format.
Definition len_is {A} (l : list A) (n : Z) : bool := bool_decide (zlen l = n).
(** [l[i]]. *)
Definition at_ {A} (l : list A) (i : nat) : TestM W A := call (go_outcome (index_get l i)).

(** The last two subtests of the suite. *)
Definition range_and_data_tests : TestM W unit :=
  _ ← t_Run "LoadAfterVersionBeyondRange" (
    _ ← call newStore;
    e1 ← call (NewTestEvent "contract-6" "e1");
    _ ← must_append "contract-6" 0 [e1] "Append failed: %v";
    loaded ← must_load "contract-6" 5 "Load failed: %v";
    expect (len_is loaded 0) "expected 0 events, got %d");
  t_Run "EventDataRoundTrip" (
    _ ← call newStore;
    e1 ← call (NewTestEvent "contract-7" "hello");
    _ ← must_append "contract-7" 0 [e1] "Append failed: %v";
    loaded ← must_load "contract-7" 0 "Load failed: %v";
    _ ← require (len_is loaded 1) "expected 1 event, got %d";
    l0 ← at_ loaded 0;
    _ ← expect (bool_decide (Data l0 = "hello")) "expected Data 'hello', got '%s'";
    expect (bool_decide (AggregateID (te_base l0) = "contract-7")) "expected AggregateID 'contract-7', got '%s'").

Definition TestAggregateEventStoreContract : TestM W unit :=
  _ ← t_Run "AppendAndLoad" (
    _ ← call newStore;
    e1 ← call (NewTestEvent "contract-1" "e1");
    e2 ← call (NewTestEvent "contract-1" "e2");
    e3 ← call (NewTestEvent "contract-1" "e3");
    _ ← must_append "contract-1" 0 [e1; e2; e3] "Append failed: %v";
    loaded ← must_load "contract-1" 0 "Load failed: %v";
    expect (len_is loaded 3) "expected 3 events, got %d");
  _ ← t_Run "LoadAfterVersion" (
    _ ← call newStore;
    e0 ← call (NewTestEvent "contract-2" "v0");
    e1 ← call (NewTestEvent "contract-2" "v1");
    e2 ← call (NewTestEvent "contract-2" "v2");
    e3 ← call (NewTestEvent "contract-2" "v3");
    _ ← must_append "contract-2" 0 [e0; e1; e2; e3] "Append failed: %v";
    loaded ← must_load "contract-2" 2 "Load failed: %v";
    _ ← require (len_is loaded 2) "expected 2 events after version 2, got %d";
    l0 ← at_ loaded 0;
    _ ← expect (bool_decide (Data l0 = "v2")) "expected first event data 'v2', got '%s'";
    l1 ← at_ loaded 1;
    expect (bool_decide (Data l1 = "v3")) "expected second event data 'v3', got '%s'");
  _ ← t_Run "LoadNonExistentAggregate" (
    _ ← call newStore;
    loaded ← must_load "contract-nonexistent" 0 "unexpected error: %v";
    expect (len_is loaded 0) "expected empty slice for nonexistent aggregate, got %d events");
  _ ← t_Run "AppendMultipleBatches" (
    _ ← call newStore;
    e0 ← call (NewTestEvent "contract-3" "e0");
    e1 ← call (NewTestEvent "contract-3" "e1");
    e2 ← call (NewTestEvent "contract-3" "e2");
    _ ← must_append "contract-3" 0 [e0; e1] "first Append failed: %v";
    _ ← must_append "contract-3" 2 [e2] "second Append failed: %v";
    loaded ← must_load "contract-3" 0 "Load failed: %v";
    expect (len_is loaded 3) "expected 3 events, got %d");
  _ ← t_Run "ConcurrencyConflict" (
    _ ← call newStore;
    e1 ← call (NewTestEvent "contract-4" "e1");
    _ ← must_append "contract-4" 0 [e1] "first Append failed: %v";
    e2 ← call (NewTestEvent "contract-4" "e2");
    err ← call (es_Append ctx "contract-4" 0 [e2]);
    err ← must_fail err "expected concurrency conflict error";
    expect (errors_Is (TDomain "CONCURRENCY") err) "expected ErrConcurrency, got: %v");
  _ ← t_Run "MultipleAggregates" (
    _ ← call newStore;
    a1 ← call (NewTestEvent "contract-5a" "a1-e1");
    a2 ← call (NewTestEvent "contract-5a" "a1-e2");
    _ ← must_append "contract-5a" 0 [a1; a2] "Append agg1 failed: %v";
    b1 ← call (NewTestEvent "contract-5b" "a2-e1");
    b2 ← call (NewTestEvent "contract-5b" "a2-e2");
    _ ← must_append "contract-5b" 0 [b1; b2] "Append agg2 failed: %v";
    loaded1 ← must_load "contract-5a" 0 "Load agg1 failed: %v";
    _ ← expect (len_is loaded1 2) "expected 2 events for agg1, got %d";
    loaded2 ← must_load "contract-5b" 0 "Load agg2 failed: %v";
    expect (len_is loaded2 2) "expected 2 events for agg2, got %d");
  range_and_data_tests.

(** *** The global stream

    [global]: the type assertion of the store to [GlobalEventStore]. Errors of
    [Append] are ignored. *)
Context (global : option (GlobalEventStore W TestEvent)).

Definition append_new (id : string) (v : Z) (data : string) : TestM W error :=
  e ← call (NewTestEvent id data); call (es_Append ctx id v [e]).
Definition must_load_all (afterPosition limit : Z) : TestM W (list (globalEntry TestEvent)) :=
  match global with
  | None => t_Skip
  | Some g => r ← call (gs_LoadAll g ctx afterPosition limit); must_ok r "LoadAll failed: %v"
  end.
Definition position_is (all : list (globalEntry TestEvent)) (i : nat) (p : Z) (format : string) : TestM W unit :=
  e ← at_ all i; expect (bool_decide (position e = p)) format.

Definition TestGlobalEventStoreContract : TestM W unit :=
  _ ← t_Run "LoadAllReturnsAllEventsInOrder" (
    _ ← call newStore;
    _ ← append_new "la-1" 0 "a1-e1";
    _ ← append_new "la-2" 0 "a2-e1";
    _ ← append_new "la-1" 1 "a1-e2";
    all ← must_load_all 0 0;
    _ ← require (len_is all 3) "expected 3 events, got %d";
    _ ← position_is all 0 1 "first event position = %d, want 1";
    _ ← position_is all 1 2 "second event position = %d, want 2";
    position_is all 2 3 "third event position = %d, want 3");
  _ ← t_Run "LoadAllWithAfterPosition" (
    _ ← call newStore;
    _ ← append_new "la-3" 0 "e1";
    _ ← append_new "la-3" 1 "e2";
    _ ← append_new "la-3" 2 "e3";
    all ← must_load_all 1 0;
    _ ← require (len_is all 2) "expected 2 events after position 1, got %d";
    position_is all 0 2 "first event position = %d, want 2");
  _ ← t_Run "LoadAllWithLimit" (
    _ ← call newStore;
    _ ← append_new "la-4" 0 "e1";
    _ ← append_new "la-4" 1 "e2";
    _ ← append_new "la-4" 2 "e3";
    all ← must_load_all 0 2;
    require (len_is all 2) "expected 2 events with limit 2, got %d");
  t_Run "LoadAllEmpty" (
    _ ← call newStore;
    all ← must_load_all 0 0;
    expect (len_is all 0) "expected 0 events, got %d").
End Suite.

(** [eventtest.TestAggregateEventStoreContract]: four of the subtests. *)
Definition eventtest_TestAggregateEventStoreContract {W} `{!Clock W, !AggregateEventStore W TestEvent}
    (newStore : GoM W unit) : TestM W unit :=
  _ ← t_Run "AppendAndLoad" (
    _ ← call newStore;
    e1 ← call (NewTestEvent "contract-1" "e1");
    e2 ← call (NewTestEvent "contract-1" "e2");
    e3 ← call (NewTestEvent "contract-1" "e3");
    _ ← must_append "contract-1" 0 [e1; e2; e3] "Append failed: %v";
    loaded ← must_load "contract-1" 0 "Load failed: %v";
    expect (len_is loaded 3) "expected 3 events, got %d");
  _ ← t_Run "LoadAfterVersion" (
    _ ← call newStore;
    e0 ← call (NewTestEvent "contract-2" "v0");
    e1 ← call (NewTestEvent "contract-2" "v1");
    e2 ← call (NewTestEvent "contract-2" "v2");
    e3 ← call (NewTestEvent "contract-2" "v3");
    _ ← must_append "contract-2" 0 [e0; e1; e2; e3] "Append failed: %v";
    loaded ← must_load "contract-2" 2 "Load failed: %v";
    _ ← require (len_is loaded 2) "expected 2 events after version 2, got %d";
    l0 ← at_ loaded 0;
    _ ← expect (bool_decide (Data l0 = "v2")) "expected first event data 'v2', got '%s'";
    l1 ← at_ loaded 1;
    expect (bool_decide (Data l1 = "v3")) "expected second event data 'v3', got '%s'");
  _ ← t_Run "LoadNonExistentAggregate" (
    _ ← call newStore;
    loaded ← must_load "contract-nonexistent" 0 "unexpected error: %v";
    expect (len_is loaded 0) "expected empty slice for nonexistent aggregate, got %d events");
  t_Run "ConcurrencyConflict" (
    _ ← call newStore;
    e1 ← call (NewTestEvent "contract-4" "e1");
    _ ← must_append "contract-4" 0 [e1] "first Append failed: %v";
    e2 ← call (NewTestEvent "contract-4" "e2");
    err ← call (es_Append Background "contract-4" 0 [e2]);
    err ← must_fail err "expected concurrency conflict error";
    expect (errors_Is (TDomain "CONCURRENCY") err) "expected ErrConcurrency, got: %v").

(** ** Stores with the laws pass *)

(** A test bench: the clock leaves the store alone. *)
Class EventBench (W : Type) `{!Clock W, !AggregateEventStore W TestEvent, !AggregateEventStoreLaws W TestEvent} : Prop := {
  bench_usable : es_usable (W := W) (E := TestEvent) Background;
  bench_clock : forall w, es_ok (E := TestEvent) w -> exists t w', now w = (t, w') /\ es_ok (E := TestEvent) w' /\
    forall i, es_stream (E := TestEvent) w' i = es_stream w i }.

(** What [newStore] makes is empty. *)
Definition makes_empty {W} `{!AggregateEventStore W TestEvent, !AggregateEventStoreLaws W TestEvent}
    (newStore : GoM W unit) : Prop :=
  forall w, es_ok (E := TestEvent) w -> exists w', newStore w = (Done tt, w') /\ es_ok (E := TestEvent) w' /\
    forall i, es_stream (E := TestEvent) w' i = [].

Section Passing.
Context {W : Type} `{!Clock W, !AggregateEventStore W TestEvent, !AggregateEventStoreLaws W TestEvent}.
Context `{HB : !EventBench W}.
Abbreviation ok := (es_ok (W := W) (E := TestEvent)).
Context {B : Type}.
Implicit Types (Q : option B -> W -> Prop).

(** The store is in order and its streams are [m]. *)
Definition holds (m : string -> list TestEvent) (w : W) : Prop := ok w /\ forall i, es_stream w i = m i.

Lemma step_new newStore (k : unit -> TestM W B) w Q :
  makes_empty newStore -> ok w -> (forall w', holds (fun _ => []) w' -> passing (k tt) w' Q) -> passing (x ← call newStore; k x) w Q.
Proof.
  intros Hnew Hw Hk. destruct (Hnew w Hw) as (w' & Hr & Hh). test_call Hr. by apply Hk.
Qed.

Lemma step_event m id data (k : TestEvent -> TestM W B) w Q : holds m w ->
  (forall t w', holds m w' -> passing (k (mkTestEvent (NewBaseEvent id t) data)) w' Q) ->
  passing (e ← call (NewTestEvent id data); k e) w Q.
Proof.
  intros [Hw Hm] Hk. destruct (bench_clock w Hw) as (t & w' & Hr & Hw' & Hs).
  eapply passing_step_call; [unfold NewTestEvent; unfold_go; rewrite Hr; reflexivity|].
  apply Hk. split; [done|]. intros i. by rewrite Hs, Hm.
Qed.

Lemma holds_extends m w w' id evts : holds m w -> ok w' -> stream_extends es_stream w w' id evts ->
  holds (fun i => if bool_decide (i = id) then m i ++ evts else m i) w'.
Proof. intros [_ Hm] Hw' Hx. split; [done|]. intros i. rewrite Hx, Hm. done. Qed.

(** Appending at the end of a stream. *)
Lemma append_ends m w id l evts : holds m w -> m id = l -> Forall (fun e => aggregate_id e = id) evts ->
  (zlen (l ++ evts) <= max_stream)%Z ->
  exists w', es_Append Background id (zlen l) evts w = (Done None, w') /\
    holds (fun i => if bool_decide (i = id) then m i ++ evts else m i) w'.
Proof.
  intros Hh <- Hid Hmax. pose proof Hh as [Hw Hm]. rewrite <- Hm in *.
  destruct (es_append_ok Background w id evts Hw bench_usable Hid Hmax) as (w' & Hr & Hw' & Hx).
  exists w'. split; [exact Hr|]. by eapply holds_extends.
Qed.

Lemma step_append m l id v evts format (k : unit -> TestM W B) w Q :
  holds m w -> m id = l -> v = zlen l -> Forall (fun e => aggregate_id e = id) evts ->
  (zlen (l ++ evts) <= max_stream)%Z ->
  (forall w', holds (fun i => if bool_decide (i = id) then m i ++ evts else m i) w' -> passing (k tt) w' Q) ->
  passing (x ← must_append id v evts format; k x) w Q.
Proof.
  intros Hh Hl -> Hid Hmax Hk. destruct (append_ends m w id l evts Hh Hl Hid Hmax) as (w' & Hr & Hh').
  unfold must_append. test_step. test_call Hr. test_step. by apply Hk.
Qed.

Lemma step_load m id v format (k : list TestEvent -> TestM W B) w Q : holds m w -> (0 <= v)%Z ->
  (forall w', holds m w' -> passing (k (drop (Z.to_nat v) (m id))) w' Q) ->
  passing (x ← must_load id v format; k x) w Q.
Proof.
  intros [Hw Hm] Hv Hk. destruct (es_load_ok Background w id v Hw bench_usable Hv) as (w' & Hr & Hw' & Hx).
  unfold must_load. test_step. test_call Hr. test_step. rewrite Hm. apply Hk. split; [done|].
  intros i. by rewrite (stream_extends_nil _ _ _ _ Hx).
Qed.

(** Appending where events are already. *)
Lemma step_conflict m l id v evts (k : error -> TestM W B) w Q : holds m w -> m id = l ->
  (0 <= v < zlen l)%Z -> (zlen l <= max_stream)%Z -> Forall (fun e => aggregate_id e = id) evts -> evts <> [] ->
  (forall e w', holds m w' -> errors_Is (TDomain "CONCURRENCY") e = true -> passing (k (Some e)) w' Q) ->
  passing (x ← call (es_Append Background id v evts); k x) w Q.
Proof.
  intros [Hw Hm] <- Hv Hmax Hid Hne Hk. rewrite <- Hm in *.
  destruct (es_append_conflict Background w id v evts Hw bench_usable Hid Hne Hv Hmax) as (e & w' & Hr & He & Hw' & Hx).
  test_call Hr. apply Hk; [|done]. split; [done|]. intros i. by rewrite (stream_extends_nil _ _ _ _ Hx).
Qed.

Lemma step_at {A} (l : list A) i a (k : A -> TestM W B) w Q :
  l !! i = Some a -> passing (k a) w Q -> passing (x ← at_ l i; k x) w Q.
Proof. intros Hi Hk. unfold at_. eapply passing_step_call; [|exact Hk]. unfold go_outcome, index_get. by rewrite Hi. Qed.
End Passing.

(** One step of a test of an event store. *)
Ltac event_step :=
  lazymatch goal with
  | |- passing (mbind _ (must_append _ _ _ _)) _ _ =>
      eapply step_append; [eassumption|vm_compute; reflexivity|reflexivity|by repeat constructor|by vm_compute|];
      intros ? ?
  | |- passing (mbind _ (must_load _ _ _)) _ _ => eapply step_load; [eassumption|lia|]; intros ? ?
  | |- passing (mbind _ (at_ _ _)) _ _ => eapply step_at; [vm_compute; reflexivity|]
  | |- passing (mbind _ (call (NewTestEvent _ _))) _ _ => eapply step_event; [eassumption|]; intros ? ? ?
  | |- passing (mbind _ (call (es_Append _ _ _ _))) _ _ =>
      eapply step_conflict; [eassumption|vm_compute; reflexivity|done|by vm_compute|by repeat constructor|done|];
      intros ? ? ? ?
  | _ => test_step
  end.

(** ** Properties *)

(** The streams do not matter after a test. *)
Ltac test_end := match goal with H : holds _ ?w |- es_ok ?w => apply H end.

Section Contract.
Context {W : Type} `{!Clock W, !AggregateEventStore W TestEvent, !AggregateEventStoreLaws W TestEvent}.
Context `{HB : !EventBench W} (newStore : GoM W unit) (Hnew : makes_empty newStore).

Lemma store_contract_passes : passes (es_ok (E := TestEvent)) (TestAggregateEventStoreContract newStore).
Proof.
  unfold TestAggregateEventStoreContract, range_and_data_tests. subtests; intros w Hw; (apply step_new; [done..|]);
    intros ? ?; repeat event_step; test_end.
Qed.

Lemma eventtest_contract_passes : passes (es_ok (E := TestEvent)) (eventtest_TestAggregateEventStoreContract newStore).
Proof.
  unfold eventtest_TestAggregateEventStoreContract. subtests; intros w Hw; (apply step_new; [done..|]);
    intros ? ?; repeat event_step; test_end.
Qed.

(** A store without a global stream skips the tests of one. *)
Lemma step_append_any m l id v data (k : error -> TestM W unit) w Q :
  holds m w -> m id = l -> v = zlen l -> (zlen l < max_stream)%Z ->
  (forall e w', holds (fun i => if bool_decide (i = id) then m i ++ [e] else m i) w' -> passing (k None) w' Q) ->
  passing (x ← append_new id v data; k x) w Q.
Proof.
  intros Hh Hl -> Hmax Hk. unfold append_new. test_step. eapply step_event; [exact Hh|]. intros t w' Hh'.
  destruct (append_ends m w' id l [mkTestEvent (NewBaseEvent id t) data] Hh' Hl) as (w2 & Hr & Hh2);
    [by repeat constructor|rewrite zlen_app, zlen_cons, zlen_nil; lia|].
  test_call Hr. by eapply Hk.
Qed.

Lemma global_contract_skipped : passes (es_ok (E := TestEvent)) (TestGlobalEventStoreContract newStore None).
Proof.
  unfold TestGlobalEventStoreContract. subtests; intros w Hw; (apply step_new; [done..|]); intros ? ?;
    repeat (eapply step_append_any; [eassumption|vm_compute; reflexivity|reflexivity|by vm_compute|]; intros ? ? ?);
    apply passing_bind, passing_skip; cbn; test_end.
Qed.
End Contract.

(** ** The in-memory store, with its global stream

    [W] has the memory and the store; the clock is elsewhere. *)
Section Memory.
Definition zero_TestEvent : TestEvent := mkTestEvent zero_base "".
Abbreviation memory := (list TestEvent * EventSourceStore TestEvent)%type.
Context {W : Type} `{!Clock W, !Has memory W, !HasLaws memory W}.
Context (Hclock : forall w, part (S := memory) (now w).2 = part w).

#[local] Instance mem_store : AggregateEventStore W TestEvent := lift_store (memory_store zero_TestEvent).
#[local] Instance mem_laws : AggregateEventStoreLaws W TestEvent :=
  lift_laws (memory_store zero_TestEvent) (memory_laws zero_TestEvent).

(** The function that the tests of the in-memory store pass to the suites. *)
Definition new_memory_store : GoM W unit := fun w =>
  match EventStore.NewEventSourceStore TPointer [] with
  | Ok s => (Done tt, set_part ((part w).1, s) w)
  | Err _ => (Panicked "create event store: %v", w)
  end.

Definition deref_entry (g : globalEntry nat) : GoM memory (globalEntry TestEvent) :=
  e ← deref (event g); mret (mkEntry (position g) e).
Definition memory_LoadAll (p n : Z) : GoM memory (result (list (globalEntry TestEvent))) :=
  l ← LoadAll zero_TestEvent p n;
  l ← mapM deref_entry l;
  mret (Ok l).
Definition memory_global : GlobalEventStore W TestEvent :=
  mkGlobal (fun _ p n => lifted (memory_LoadAll p n)).

Lemma memory_bench : EventBench W.
Proof.
  split; [done|]. intros w Hw. specialize (Hclock w). destruct (now w) as [t w'] eqn:E. cbn in Hclock.
  exists t, w'. split; [done|]. unfold es_ok, es_stream in *. cbn in *. by rewrite Hclock.
Qed.

Lemma memory_makes_empty : makes_empty new_memory_store.
Proof.
  intros w _. eexists. split; [reflexivity|]. unfold es_ok, es_stream. cbn. rewrite part_set. cbn.
  split; [split; [done|]|done]. intros id. split; [done|constructor].
Qed.

(** *** The global stream is the log of [EventStore] *)

Definition logs (log : list TestEvent) (w : W) : Prop :=
  exists known mem h st, part w = (h, st) /\ rel (mkWorld known h st) (mkSpec mem log).

Lemma logs_new w : exists w', new_memory_store w = (Done tt, w') /\ logs [] w'.
Proof.
  eexists. split; [reflexivity|]. destruct (part w) as [h s] eqn:E.
  exists (seq 0 (length h)), h, h, (EventStore.mkStore ∅ [] 0 None false). rewrite part_set. split; [done|].
  apply (rel_grow [] [] _ [] [] h). by apply (rel_new []).
Qed.

Lemma logs_append log w id v e :
  logs log w -> v = zlen (stream id log) -> (zlen log < max_stream)%Z ->
  exists w', es_Append Background id v [e] w = (Done None, w') /\ logs (log ++ [e]) w'.
Proof.
  intros (known & mem & h & st & Hp & Hr) -> Hb. cbn [es_Append mem_store lift_store memory_store].
  unfold lifted. rewrite Hp. unfold memory_Append.
  apply (rel_grow _ _ _ _ _ [e]) in Hr. unfold Append.
  assert (zlen (mget [] (events st) id) = zlen (stream id log)) as ->.
  { unfold zlen. f_equal. apply (Forall2_length _ _ _ (r_streams _ _ Hr id)). }
  rewrite bool_decide_eq_true_2 by done. cbn [negb]. unfold_go.
  destruct (rel_append zero_TestEvent _ _ _ _ _ (seq (length h) (length [e])) [e] Hr) as (st' & -> & Hr').
  - apply cells_one.
  - rewrite zlen_app, zlen_cons, zlen_nil. unfold max_stream, two63 in *. lia.
  - eexists. split; [reflexivity|]. do 4 eexists. split; [apply part_set|exact Hr'].
Qed.

(** What [LoadAll] gives of a log: the events after a position, up to a number of them. *)
Definition page (log : list TestEvent) (p n : Z) : list TestEvent :=
  let rest := drop (Z.to_nat p) log in if bool_decide (0 < n)%Z then take (Z.to_nat n) rest else rest.

Lemma deref_entries h (st : EventSourceStore TestEvent) l es : cells h (map event l) es ->
  exists l', mapM deref_entry l (h, st) = (Done l', (h, st)) /\ map position l' = map position l /\ map event l' = es.
Proof.
  revert es. induction l as [|g l IH]; intros es Hc; inversion Hc as [|? e ? es' He Hc']; subst; [by exists []|].
  destruct (IH es' Hc') as (l' & Hl & Hp & <-). exists (mkEntry (position g) e :: l'). cbn [map position event].
  rewrite Hp. split; [|done]. cbn [mapM]. unfold_go. unfold deref_entry at 1. unfold_go. unfold deref at 1.
  rewrite He. by rewrite Hl.
Qed.

Lemma logs_load log w p n : logs log w -> (zlen log < max_stream)%Z -> (0 <= p <= max_stream)%Z -> (0 <= n <= max_stream)%Z ->
  exists l w', gs_LoadAll memory_global Background p n w = (Done (Ok l), w') /\ logs log w' /\
    map event l = page log p n /\
    map position l = map (fun i => Z.of_nat (S i)) (seq (Z.to_nat p) (length (page log p n))).
Proof.
  intros (known & mem & h & st & Hw & Hr) Hb Hp Hn.
  pose proof (load_all_runs zero_TestEvent known h st mem log p n Hr) as Hl. cbn zeta in Hl.
  rewrite (bool_decide_eq_false_2 (max_int64 < _)%Z), andb_false_r in Hl by (unfold max_stream, max_int64, two63 in *; lia).
  destruct Hl as (l & Hl & He & Hpos); [unfold max_stream, max_alloc, max_int64, two63 in *; lia..|].
  cbn [gs_LoadAll memory_global]. unfold lifted. rewrite Hw. fold (page log p n) in Hl, He, Hpos.
  destruct (deref_entries (h ++ page log p n) st l (page log p n)) as (l' & Hd & Hpos' & He');
    [rewrite He; apply cells_fresh|].
  exists l', (set_part (h ++ page log p n, st) w). split_and!; [|do 4 eexists|done|by rewrite Hpos'].
  - unfold memory_LoadAll. unfold_go. by rewrite Hl, Hd.
  - split; [apply part_set|]. by apply rel_grow.
Qed.
Lemma logs_clock log w : logs log w -> exists t w', now w = (t, w') /\ logs log w'.
Proof.
  intros (known & mem & h & st & Hp & Hr). specialize (Hclock w). destruct (now w) as [t w'] eqn:E.
  exists t, w'. split; [done|]. exists known, mem, h, st. by rewrite <- Hp.
Qed.

Lemma step_log_append log id v data (k : error -> TestM W unit) w Q :
  logs log w -> v = zlen (stream id log) -> (zlen log < max_stream)%Z ->
  (forall t w', logs (log ++ [mkTestEvent (NewBaseEvent id t) data]) w' -> passing (k None) w' Q) ->
  passing (x ← append_new id v data; k x) w Q.
Proof.
  intros Hl Hv Hb Hk. destruct (logs_clock log w Hl) as (t & w1 & Hn & Hl1).
  destruct (logs_append log w1 id v (mkTestEvent (NewBaseEvent id t) data) Hl1 Hv Hb) as (w2 & Ha & Hl2).
  unfold append_new. test_step. eapply passing_step_call; [unfold NewTestEvent; unfold_go; rewrite Hn; reflexivity|].
  test_call Ha. by eapply Hk.
Qed.

Lemma step_load_all log p n (k : list (globalEntry TestEvent) -> TestM W unit) w Q :
  logs log w -> (zlen log < max_stream)%Z -> (0 <= p <= max_stream)%Z -> (0 <= n <= max_stream)%Z ->
  (forall l w', logs log w' -> map event l = page log p n ->
     map position l = map (fun i => Z.of_nat (S i)) (seq (Z.to_nat p) (length (page log p n))) ->
     passing (k l) w' Q) ->
  passing (x ← must_load_all (Some memory_global) p n; k x) w Q.
Proof.
  intros Hl Hb Hp Hn Hk. destruct (logs_load log w p n Hl Hb Hp Hn) as (l & w' & Hr & Hl' & He & Hpos).
  unfold must_load_all. test_step. test_call Hr. test_step. by apply Hk.
Qed.

Lemma len_of_map {A B} (f : A -> B) l k n : map f l = k -> zlen k = n -> len_is l n = true.
Proof. intros <- <-. apply bool_decide_eq_true_2. unfold zlen. by rewrite length_map. Qed.

Lemma step_position (l : list (globalEntry TestEvent)) i p format (k : unit -> TestM W unit) w Q :
  map position l !! i = Some p -> passing (k tt) w Q -> passing (x ← position_is l i p format; k x) w Q.
Proof.
  intros (e & -> & He)%list_lookup_fmap_Some Hk. unfold position_is. test_step. eapply step_at; [exact He|].
  apply passing_step_expect; [by apply bool_decide_eq_true_2|done].
Qed.

(** One step of a test of the global stream. *)
Ltac global_step :=
  lazymatch goal with
  | |- passing (mbind _ (append_new _ _ _)) _ _ =>
      eapply step_log_append; [eassumption|vm_compute; reflexivity|by vm_compute|]; intros ? ? ?
  | |- passing (mbind _ (must_load_all _ _ _)) _ _ =>
      eapply step_load_all; [eassumption|by vm_compute|by vm_compute|by vm_compute|]; intros ? ? ? ? ?
  | |- passing (mbind _ (position_is _ _ _ _)) _ _ =>
      eapply step_position;
      [match goal with H : map position _ = _ |- _ => rewrite H; vm_compute; reflexivity end|]
  | |- passing (position_is _ _ _ _) _ _ => apply passing_last
  | |- passing (mbind _ (require _ _)) _ _ =>
      apply passing_step_require; [by (eapply len_of_map; [eassumption|vm_compute])|]
  | |- passing (mbind _ (expect _ _)) _ _ =>
      apply passing_step_expect; [by (eapply len_of_map; [eassumption|vm_compute])|]
  | _ => test_step
  end.

Lemma global_contract_passes : passes (fun w => exists log, logs log w)
  (TestGlobalEventStoreContract new_memory_store (Some memory_global)).
Proof.
  unfold TestGlobalEventStoreContract. subtests; intros w _; destruct (logs_new w) as (w0 & Hnew & Hlog);
    test_call Hnew; repeat global_step; by eexists.
Qed.
End Memory.

(** ** Properties *)

(** C14: The contract of event stores holds: every store that keeps the laws of an event log passes
    the three suites on it (the one of the global stream by skipping it): no check of a test
    fails and no call panics, from any state of the store. The in-memory store, behind any clock,
    keeps the laws, so it passes them too, and with its global stream it passes the suite of the
    global stream, whose positions are numbered from one across the aggregates. *)
Theorem event_store_contract {W} `{!Clock W, !AggregateEventStore W TestEvent, HL : !AggregateEventStoreLaws W TestEvent}
    (newStore : GoM W unit) {M} `{!Clock M, !Has (list TestEvent * EventSourceStore TestEvent) M}
    `{!HasLaws (list TestEvent * EventSourceStore TestEvent) M} :
  EventBench W -> makes_empty newStore ->
  (forall w : M, part (S := list TestEvent * EventSourceStore TestEvent) (now w).2 = part w) ->
  (passes es_ok (TestAggregateEventStoreContract newStore) /\
   passes es_ok (eventtest_TestAggregateEventStoreContract newStore) /\
   passes es_ok (TestGlobalEventStoreContract newStore None)) /\
  let in_order := es_ok (W := M) (E := TestEvent) (AggregateEventStoreLaws := mem_laws) in
  passes in_order (TestAggregateEventStoreContract (AggregateEventStore0 := mem_store) new_memory_store) /\
  passes in_order (eventtest_TestAggregateEventStoreContract (AggregateEventStore0 := mem_store) new_memory_store) /\
  passes (fun w : M => exists log, logs log w)
    (TestGlobalEventStoreContract (AggregateEventStore0 := mem_store) new_memory_store (Some memory_global)).
Proof.
  intros HB Hnew Hclock. split.
  - split; [by apply store_contract_passes|]. split; [by apply eventtest_contract_passes|by apply global_contract_skipped].
  - pose proof (memory_bench (W := M) Hclock) as HM. pose proof (memory_makes_empty (W := M)) as HE.
    split; [by apply (store_contract_passes (HB := HM))|]. split; [by apply (eventtest_contract_passes (HB := HM))|].
    by apply global_contract_passes.
Qed.

(** A clock beside the in-memory store. *)
Module DemoContractEvents.
Definition world : Type := Z * (list TestEvent * EventSourceStore TestEvent).
#[export] Instance demo_clock : Clock world := fun w => (w.1, ((w.1 + 1)%Z, w.2)).
End DemoContractEvents.
Import DemoContractEvents.

Lemma event_store_contract_witness :
  let w0 : world := (5%Z, ([], EventStore.mkStore ∅ [] 0 None true)) in
  passing (TestAggregateEventStoreContract (AggregateEventStore0 := mem_store) new_memory_store) w0 (fun _ _ => True) /\
  exists w', TestGlobalEventStoreContract (AggregateEventStore0 := mem_store) new_memory_store (Some memory_global) w0 =
    (Done ([], Some tt), w').
Proof.
  intros w0. split; [|eexists; vm_compute; reflexivity].
  pose proof (memory_bench (W := world) ltac:(by intros w)) as HM.
  pose proof (memory_makes_empty (W := world)) as HE.
  destruct (event_store_contract (W := world) (M := world) (HL := mem_laws)
    new_memory_store HM HE ltac:(by intros w)) as [(H & _) _].
  eapply passing_conseq; [apply H|done]. split; [done|]. intros id. split; [discriminate|constructor].
Defined.
