(* ===== verification/SqlQuery.v ===== *)
(** * Queries with filters: conditions, their arguments and [LIKE]

    The PostgreSQL readers build the text of a query from a filter. A condition of
    the text is a [sql_cond], with the number of the placeholder that the code
    gives it; what conditions and [LIKE] mean is documented behaviour of
    PostgreSQL, the latter the law of a parameter. *)

From S2P Require Import Prelude Errors.

Inductive sql_arg := ArgText (s : string) | ArgTime (t : Z) | ArgInt (z : Z).

Inductive sql_cond :=
| CondEq (column : string) (n : nat)      (** [column = $n] *)
| CondGe (column : string) (n : nat)      (** [column >= $n] *)
| CondLe (column : string) (n : nat)      (** [column <= $n] *)
| CondLike (column : string) (n : nat)    (** [column LIKE $n], backslash escapes *)
| CondSet (column : string)               (** [(column IS NOT NULL AND column != '')] *)
| CondUnset (column : string).            (** [(column IS NULL OR column = '')] *)

(** [$n] *)
Definition sql_param (args : list sql_arg) (n : nat) : option sql_arg :=
  match n with O => None | S i => args !! i end.

(** ** What the conditions mean

    A row is seen through its text and time columns; a null column satisfies no
    comparison. Times have the resolution of the database. *)
Section Meaning.
Context {R : Type} (text : string -> R -> option string) (time : string -> R -> option Z).
Context (resolution : Z -> Z) (like : string -> string -> bool).

Definition cond_holds (args : list sql_arg) (r : R) (c : sql_cond) : bool :=
  match c with
  | CondEq col n =>
      match sql_param args n, text col r with Some (ArgText s), Some v => bool_decide (v = s) | _, _ => false end
  | CondGe col n =>
      match sql_param args n, time col r with Some (ArgTime t), Some v => bool_decide (resolution t <= v)%Z | _, _ => false end
  | CondLe col n =>
      match sql_param args n, time col r with Some (ArgTime t), Some v => bool_decide (v <= resolution t)%Z | _, _ => false end
  | CondLike col n =>
      match sql_param args n, text col r with Some (ArgText p), Some v => like p v | _, _ => false end
  | CondSet col => match text col r with Some v => negb (bool_decide (v = "")) | None => false end
  | CondUnset col => match text col r with Some v => bool_decide (v = "") | None => true end
  end.

(** Every placeholder has an argument of its type. *)
Definition cond_typed (args : list sql_arg) (c : sql_cond) : Prop :=
  match c with
  | CondEq _ n | CondLike _ n => exists s, sql_param args n = Some (ArgText s)
  | CondGe _ n | CondLe _ n => exists t, sql_param args n = Some (ArgTime t)
  | CondSet _ | CondUnset _ => True
  end.
End Meaning.

(** ** The text of a query as the code builds it

    Its conditions, its arguments and the number of the next placeholder. *)
Abbreviation query_text := (list sql_cond * list sql_arg * nat)%type.

Definition no_cond : query_text := ([], [], 1).

Definition and_cond (set : bool) (c : nat -> sql_cond) (a : sql_arg) (q : query_text) : query_text :=
  let '(conds, args, idx) := q in
  if set then (conds ++ [c idx], args ++ [a], S idx) else q.

(** A condition without an argument. *)
Definition and_fixed (c : sql_cond) (q : query_text) : query_text :=
  let '(conds, args, idx) := q in (conds ++ [c], args, idx).

(** ** [LIKE] with backslash as its escape character

    Strings are their bytes. Of texts in UTF-8, one contains another by characters
    exactly when it does by bytes. *)

Definition percent : Ascii.ascii := Ascii.ascii_of_nat 37.
Definition underscore : Ascii.ascii := Ascii.ascii_of_nat 95.
Definition backslash : Ascii.ascii := Ascii.ascii_of_nat 92.

Class LikeLaws (like : string -> string -> bool) : Prop := {
  like_nil : forall s, like "" s = bool_decide (s = "");
  like_percent : forall p s,
    like (String percent p) s = like p s || match s with String _ s' => like (String percent p) s' | EmptyString => false end;
  like_escape : forall c p s,
    like (String backslash (String c p)) s = match s with String c' s' => Ascii.eqb c c' && like p s' | EmptyString => false end;
  like_char : forall c p s, c <> percent -> c <> underscore -> c <> backslash ->
    like (String c p) s = match s with String c' s' => Ascii.eqb c c' && like p s' | EmptyString => false end }.

(** [strings.ReplaceAll(s, old, new)] for a one-byte [old]. *)
Fixpoint replace_byte (old : Ascii.ascii) (new s : string) : string :=
  match s with
  | EmptyString => EmptyString
  | String c s' => if Ascii.eqb c old then new +:+ replace_byte old new s' else String c (replace_byte old new s')
  end.

Definition escaped (c : Ascii.ascii) : string := String backslash (String c "").

Definition escapeLike (s : string) : string :=
  let s := replace_byte backslash (escaped backslash) s in
  let s := replace_byte percent (escaped percent) s in
  replace_byte underscore (escaped underscore) s.

(** ** Lemmas *)

Lemma escape_cons c s :
  escapeLike (String c s) =
    (if Ascii.eqb c backslash || Ascii.eqb c percent || Ascii.eqb c underscore then escaped c else String c "") +:+ escapeLike s.
Proof.
  unfold escapeLike. cbn [replace_byte].
  destruct (Ascii.eqb_spec c backslash) as [->|H1]; [reflexivity|]. cbn [replace_byte orb].
  destruct (Ascii.eqb_spec c percent) as [->|H2]; [reflexivity|]. cbn [replace_byte orb].
  by destruct (Ascii.eqb_spec c underscore) as [->|H3].
Qed.

Lemma str_app_assoc (s t u : string) : (s +:+ t) +:+ u = s +:+ (t +:+ u).
Proof. induction s as [|c s IH]; [done|]. cbn. f_equal. exact IH. Qed.

Section Like.
Context (like : string -> string -> bool) `{HLL : !LikeLaws like}.

Lemma like_anything s : like (String percent "") s = true.
Proof. induction s as [|c s IH]; rewrite like_percent; [by rewrite like_nil|]. by rewrite IH, orb_true_r. Qed.

(** An escaped text, and then anything: the strings that start with the text. *)
Lemma like_prefix s v : like (escapeLike s +:+ String percent "") v = String.prefix s v.
Proof.
  revert v. induction s as [|c s IH]; intros v; [by rewrite like_anything; destruct v|].
  rewrite escape_cons, str_app_assoc.
  assert (forall p, like ((if Ascii.eqb c backslash || Ascii.eqb c percent || Ascii.eqb c underscore
                           then escaped c else String c "") +:+ p) v =
    match v with String c' v' => Ascii.eqb c c' && like p v' | EmptyString => false end) as ->.
  { intros p. destruct (Ascii.eqb_spec c backslash) as [->|H1]; [apply like_escape|].
    destruct (Ascii.eqb_spec c percent) as [->|H2]; [apply like_escape|].
    destruct (Ascii.eqb_spec c underscore) as [->|H3]; [apply like_escape|]. by apply like_char. }
  destruct v as [|c' v]; [done|]. rewrite IH. cbn [String.prefix].
  destruct (Ascii.ascii_dec c c') as [->|Hne]; [by rewrite Ascii.eqb_refl|].
  by rewrite (proj2 (Ascii.eqb_neq c c') Hne).
Qed.

(** The pattern of the code matches the strings that contain the text. *)
Lemma like_contains s v : like (String percent (escapeLike s +:+ String percent "")) v = str_contains v s.
Proof.
  unfold str_contains. induction v as [|c v IH]; rewrite like_percent, like_prefix.
  - by destruct s.
  - rewrite IH. cbn [String.index]. destruct (String.prefix s (String c v)); [done|].
    by destruct (String.index 0 s v).
Qed.
End Like.

(** The text of a query is well formed and says [m] of a row. *)
Section TextMeaning.
Context {R : Type} (text : string -> R -> option string) (time : string -> R -> option Z).
Context (resolution : Z -> Z) (like : string -> string -> bool).
Abbreviation holds := (cond_holds text time resolution like).

Definition text_means (q : query_text) (m : R -> bool) : Prop :=
  let '(conds, args, idx) := q in
  idx = S (length args) /\ Forall (cond_typed args) conds /\ forall r, forallb (holds args r) conds = m r.

Lemma param_app args more n a : sql_param args n = Some a -> sql_param (args ++ more) n = Some a.
Proof. destruct n; [done|]. apply lookup_app_l_Some. Qed.

Lemma param_last args a : sql_param (args ++ [a]) (S (length args)) = Some a.
Proof. cbn. by rewrite lookup_app_r, Nat.sub_diag. Qed.

(** The placeholders of [LIMIT] and [OFFSET]. *)
Lemma param_limit args a b : let args' := args ++ [a; b] in
  sql_param args' (length args' - 1) = Some a /\ sql_param args' (length args') = Some b.
Proof.
  cbn zeta. rewrite length_app. cbn [length].
  replace (length args + 2 - 1) with (S (length args)) by lia. replace (length args + 2) with (S (S (length args))) by lia.
  cbn [sql_param]. rewrite !lookup_app_r by lia. rewrite Nat.sub_diag. split; [done|].
  by replace (S (length args) - length args) with 1 by lia.
Qed.

Lemma cond_app args more c : cond_typed args c ->
  cond_typed (args ++ more) c /\ forall r, holds (args ++ more) r c = holds args r c.
Proof.
  destruct c as [col n|col n|col n|col n|col|col]; cbn; try done; intros [x Hx];
    pose proof (param_app _ more _ _ Hx) as Hy; rewrite Hx, Hy; (split; [by eexists|done]).
Qed.

Lemma conds_app args more conds : Forall (cond_typed args) conds ->
  Forall (cond_typed (args ++ more)) conds /\
  forall r, forallb (holds (args ++ more) r) conds = forallb (holds args r) conds.
Proof.
  induction 1 as [|c conds Hc _ [IH1 IH2]]; [done|]. destruct (cond_app args more c Hc) as [H1 H2].
  split; [by constructor|]. intros r. cbn. by rewrite H2, IH2.
Qed.

Lemma no_cond_means : text_means no_cond (fun _ => true).
Proof. by split_and!. Qed.

Lemma text_means_ext q m m' : text_means q m -> (forall r, m r = m' r) -> text_means q m'.
Proof. destruct q as [[conds args] idx]. intros (H1 & H2 & H3) He. split_and!; [done..|]. intros r. by rewrite H3. Qed.

Lemma and_cond_means set c a q m m' :
  text_means q m ->
  (forall args n, sql_param args n = Some a -> cond_typed args (c n) /\ forall r, holds args r (c n) = m' r) ->
  text_means (and_cond set c a q) (fun r => m r && (negb set || m' r)).
Proof.
  destruct q as [[conds args] idx]. intros (-> & Ht & Hm) Hc. destruct set; cbn.
  - destruct (Hc _ _ (param_last args a)) as [Hc1 Hc2]. destruct (conds_app args [a] conds Ht) as [Ha1 Ha2].
    split_and!.
    + by rewrite length_app, Nat.add_1_r.
    + apply Forall_app. split; [done|]. by constructor.
    + intros r. by rewrite forallb_app, Ha2, Hm; cbn; rewrite Hc2, andb_true_r.
  - split_and!; [done..|]. intros r. by rewrite Hm, andb_true_r.
Qed.

Lemma and_fixed_means c q m m' :
  text_means q m -> (forall args, cond_typed args c /\ forall r, holds args r c = m' r) ->
  text_means (and_fixed c q) (fun r => m r && m' r).
Proof.
  destruct q as [[conds args] idx]. intros (-> & Ht & Hm) Hc. destruct (Hc args) as [Hc1 Hc2]. cbn.
  split_and!; [done| |].
  - apply Forall_app. split; [done|]. by constructor.
  - intros r. by rewrite forallb_app, Hm; cbn; rewrite Hc2, andb_true_r.
Qed.
End TextMeaning.

(** ** A concrete [LIKE] *)
Module DemoLike.
Fixpoint demo_like (p : string) : string -> bool :=
  match p with
  | EmptyString => fun s => bool_decide (s = "")
  | String c p' =>
      if Ascii.eqb c percent then
        fix star s := demo_like p' s || match s with String _ s' => star s' | EmptyString => false end
      else if Ascii.eqb c underscore then
        fun s => match s with String _ s' => demo_like p' s' | EmptyString => false end
      else match Ascii.eqb c backslash, p' with
      | true, String e p'' =>
          fun s => match s with String c' s' => Ascii.eqb e c' && demo_like p'' s' | EmptyString => false end
      | _, _ => fun s => match s with String c' s' => Ascii.eqb c c' && demo_like p' s' | EmptyString => false end
      end
  end.

#[export] Instance demo_like_laws : LikeLaws demo_like.
Proof.
  split; [done|by intros p []|done|]. intros c p s H1 H2 H3. cbn.
  rewrite (proj2 (Ascii.eqb_neq c percent) H1), (proj2 (Ascii.eqb_neq c underscore) H2),
    (proj2 (Ascii.eqb_neq c backslash) H3). by destruct p, s.
Qed.
End DemoLike.
