(* ===== verification/PgTrace.v ===== *)
(** * The PostgreSQL trace store: [src/trace/pg/trace_store.go]

    A span is a row of [ddd_spans] ([src/pg/migrate.go]). The statements on the table
    are a parameter, [SpanTable]; [SpanTableLaws] is what PostgreSQL documents of them. *)

From S2P Require Import Prelude Errors Trace Pg SqlQuery.

Record span_row := mkSpanRow {
  sr_id : string;
  sr_trace_id : string;
  sr_parent_id : option string;
  sr_type : string;
  sr_name : string;
  sr_status : string;
  sr_error : option string;
  sr_started_at : Z;
  sr_duration_ns : Z }.

Class SpanTable (W Tx : Type) := {
  (** [INSERT INTO ddd_spans ...] *)
  spans_insert : option Tx -> context -> span_row -> GoM W error;
  (** [SELECT ... FROM ddd_spans WHERE trace_id = $1 ORDER BY started_at] *)
  spans_of_trace : option Tx -> context -> string -> GoM W (query_result span_row);
  (** [SELECT DISTINCT trace_id FROM ddd_spans WHERE 1=1 AND ...] *)
  spans_distinct : option Tx -> context -> list sql_cond -> list sql_arg -> GoM W (query_result string) }.

(** [corepg.NullString], and what is kept of a null one. *)
Definition row_of_span (sp : Span) : span_row :=
  mkSpanRow (SpanID sp) (TraceID sp) (NullString (ParentID sp)) (SpanType sp) (SpanName sp) (Status sp)
    (NullString (SpanError sp)) (StartedAt sp) (Duration sp).

Definition scan_span (r : span_row) : Span :=
  mkSpan (sr_id r) (sr_trace_id r) (match sr_parent_id r with Some p => p | None => "" end) (sr_type r) (sr_name r)
    (sr_status r) (match sr_error r with Some e => e | None => "" end) (sr_started_at r) (sr_duration_ns r).

Definition contains_pattern (s : string) : string :=
  String percent "" +:+ escapeLike s +:+ String percent "".

(** The query of [ListTraces]; [argIdx] is the number of the next placeholder. *)
Definition list_query (f : TraceFilter) : query_text :=
  let q := no_cond in
  let q := and_cond (negb (bool_decide (f_TraceID f = ""))) (CondEq "trace_id") (ArgText (f_TraceID f)) q in
  let q := and_cond (negb (bool_decide (f_Type f = ""))) (CondEq "type") (ArgText (f_Type f)) q in
  let q := and_cond (negb (bool_decide (f_Status f = ""))) (CondEq "status") (ArgText (f_Status f)) q in
  let q := and_cond (negb (time_is_zero (f_StartTime f))) (CondGe "started_at") (ArgTime (f_StartTime f)) q in
  let q := and_cond (negb (time_is_zero (f_EndTime f))) (CondLe "started_at") (ArgTime (f_EndTime f)) q in
  and_cond (negb (bool_decide (f_NameContains f = ""))) (CondLike "name")
    (ArgText (contains_pattern (f_NameContains f))) q.

(** The loops [for rows.Next()], and [rows.Err()] after them. *)
Fixpoint scan_rows {R T} (scan : R -> T) (what : string) (rows : list (R + goerr)) (rows_err : error) : result (list T) :=
  match rows with
  | [] => match rows_err with Some e => Err (EWrap (what +:+ ": ") e "") | None => Ok [] end
  | inr e :: _ => Err e
  | inl r :: rest =>
      match scan_rows scan what rest rows_err with Ok l => Ok (scan r :: l) | Err e => Err e end
  end.

Section Operations.
Context {W Tx : Type} `{!Has (tx_states Tx) W, !SpanTable W Tx}.

Definition pg_Close : GoM W error := mret None.

Definition pg_RecordSpan (ctx : context) (sp : Span) : GoM W error :=
  q ← GetQuerier (Tx := Tx) ctx;
  spans_insert q ctx (row_of_span sp).

Definition pg_GetTrace (ctx : context) (traceID : string) : GoM W (result (list Span)) :=
  q ← GetQuerier (Tx := Tx) ctx;
  rows ← spans_of_trace q ctx traceID;
  mret (match rows with
        | inr err => Err err
        | inl (rows, rows_err) =>
            match scan_rows scan_span "iterate spans" rows rows_err with
            | Ok [] => Err (trace_not_found traceID)
            | r => r
            end
        end).

Definition pg_ListTraces (ctx : context) (f : TraceFilter) : GoM W (result (list string)) :=
  q ← GetQuerier (Tx := Tx) ctx;
  let '(conds, args, _) := list_query f in
  rows ← spans_distinct q ctx conds args;
  mret (match rows with
        | inr err => Err err
        | inl (rows, rows_err) => scan_rows (fun i => i) "iterate traces" rows rows_err
        end).

(** Spans recorded one after the other, until one is refused. *)
Fixpoint record_spans (ctx : context) (l : list Span) : GoM W error :=
  match l with
  | [] => mret None
  | sp :: l =>
      e ← pg_RecordSpan ctx sp;
      match e with Some e => mret (Some e) | None => record_spans ctx l end
  end.
End Operations.

(** ** What PostgreSQL documents of the table *)

Definition span_text (col : string) (r : span_row) : option string :=
  if bool_decide (col = "trace_id") then Some (sr_trace_id r)
  else if bool_decide (col = "type") then Some (sr_type r)
  else if bool_decide (col = "status") then Some (sr_status r)
  else if bool_decide (col = "name") then Some (sr_name r)
  else None.
Definition span_time (col : string) (r : span_row) : option Z :=
  if bool_decide (col = "started_at") then Some (sr_started_at r) else None.

Definition resolve_row (time : Z -> Z) (r : span_row) : span_row :=
  mkSpanRow (sr_id r) (sr_trace_id r) (sr_parent_id r) (sr_type r) (sr_name r) (sr_status r) (sr_error r)
    (time (sr_started_at r)) (sr_duration_ns r).

Definition table_rows (m : gmap string span_row) : list span_row := map snd (map_to_list m).

(** [sr_id] is the primary key; times have the resolution [spans_time]. The order of rows
    that started at the same time, and that of distinct values, is not specified. *)
Class SpanTableLaws (W Tx : Type) `{!Has (tx_states Tx) W, !SpanTable W Tx} := {
  spans_ok : W -> Prop;
  spans_usable : context -> Prop;
  span_rows : W -> gmap string span_row;
  spans_time : Z -> Z;
  spans_like : string -> string -> bool;
  spans_like_laws :: LikeLaws spans_like;
  spans_leads (w w' : W) (rows : gmap string span_row) : Prop := spans_ok w' /\ span_rows w' = rows;
  spans_insert_law : forall ctx w r, spans_ok w -> spans_usable ctx ->
    exists w', match span_rows w !! sr_id r with
      | None => spans_insert (querier_at ctx w) ctx r w = (Done None, w') /\
          spans_leads w w' (<[sr_id r := resolve_row spans_time r]> (span_rows w))
      | Some _ => exists e, spans_insert (querier_at ctx w) ctx r w = (Done (Some e), w') /\
          spans_leads w w' (span_rows w)
      end;
  spans_of_trace_law : forall ctx w t, spans_ok w -> spans_usable ctx ->
    exists l w', spans_leads w w' (span_rows w) /\
      spans_of_trace (querier_at ctx w) ctx t w = (Done (inl (map inl l, None)), w') /\
      l ≡ₚ List.filter (fun r => bool_decide (sr_trace_id r = t)) (table_rows (span_rows w)) /\
      Sorted (fun a b => sr_started_at a <= sr_started_at b)%Z l;
  spans_distinct_law : forall ctx w conds args, spans_ok w -> spans_usable ctx -> Forall (cond_typed args) conds ->
    exists ids w', spans_leads w w' (span_rows w) /\
      spans_distinct (querier_at ctx w) ctx conds args w = (Done (inl (map inl ids, None)), w') /\ NoDup ids /\
      forall t, t ∈ ids <-> exists r, r ∈ table_rows (span_rows w) /\ sr_trace_id r = t /\
        forallb (cond_holds span_text span_time spans_time spans_like args r) conds = true }.

(** ** What the store promises *)

(** One span that meets every criterion that is set. *)
Definition span_matches (f : TraceFilter) (sp : Span) : bool :=
  (bool_decide (f_TraceID f = "") || bool_decide (TraceID sp = f_TraceID f)) &&
  (bool_decide (f_Type f = "") || bool_decide (SpanType sp = f_Type f)) &&
  (bool_decide (f_Status f = "") || bool_decide (Status sp = f_Status f)) &&
  (time_is_zero (f_StartTime f) || negb (time_before (StartedAt sp) (f_StartTime f))) &&
  (time_is_zero (f_EndTime f) || negb (time_after (StartedAt sp) (f_EndTime f))) &&
  (bool_decide (f_NameContains f = "") || str_contains (SpanName sp) (f_NameContains f)).

(** The number of criteria set, that on the trace's id apart. *)
Definition criteria (f : TraceFilter) : nat :=
  length (List.filter negb [bool_decide (f_Type f = ""); bool_decide (f_Status f = "");
    time_is_zero (f_StartTime f); time_is_zero (f_EndTime f); bool_decide (f_NameContains f = "")]).

(** ** Lemmas *)

Lemma scan_row_of_span sp : scan_span (row_of_span sp) = sp.
Proof. destruct sp as [i t p ty n st e a d]. unfold scan_span, row_of_span, NullString. cbn. by do 2 case_bool_decide; subst. Qed.

Lemma scan_rows_ok {R T} (scan : R -> T) what l : scan_rows scan what (map inl l) None = Ok (map scan l).
Proof. induction l as [|r l IH]; [done|]. cbn. by rewrite IH. Qed.

Lemma like_contains_pattern like `{!LikeLaws like} s v : like (contains_pattern s) v = str_contains v s.
Proof. by apply like_contains. Qed.

(** What the query of [ListTraces] says of a row. *)
Lemma list_query_means time like `{!LikeLaws like} f :
  time (f_StartTime f) = f_StartTime f -> time (f_EndTime f) = f_EndTime f ->
  text_means span_text span_time time like (list_query f) (fun r => span_matches f (scan_span r)).
Proof.
  intros Hs He. unfold list_query. eapply text_means_ext; [do 6 (eapply and_cond_means; [|intros args n Ha; split;
    [by eexists|intros r; cbn; rewrite Ha; reflexivity]]); apply no_cond_means|].
  intros r. cbv beta. change (span_text "trace_id" r) with (Some (sr_trace_id r)).
  change (span_text "type" r) with (Some (sr_type r)). change (span_text "status" r) with (Some (sr_status r)).
  change (span_text "name" r) with (Some (sr_name r)). change (span_time "started_at" r) with (Some (sr_started_at r)).
  cbv beta iota. unfold span_matches, time_before, time_after.
  rewrite Hs, He, !negb_involutive, (like_contains_pattern like), <- !bool_decide_not.
  cbn [scan_span TraceID SpanType Status StartedAt SpanName andb].
  rewrite (bool_decide_ext (~ _ < f_StartTime f)%Z (f_StartTime f <= sr_started_at r)%Z) by lia.
  by rewrite (bool_decide_ext (~ f_EndTime f < _)%Z (sr_started_at r <= f_EndTime f)%Z) by lia.
Qed.

Lemma table_rows_insert m r : m !! sr_id r = None ->
  table_rows (<[sr_id r := r]> m) ≡ₚ table_rows m ++ [r].
Proof.
  intros Hm. unfold table_rows. rewrite (map_to_list_insert m _ _ Hm). cbn. by rewrite Permutation_cons_append.
Qed.

Lemma filter_perm {A} (p : A -> bool) l l' : l ≡ₚ l' -> List.filter p l ≡ₚ List.filter p l'.
Proof.
  induction 1 as [|x l l' _ IH|x y l|]; cbn; [done| | |by etrans].
  - destruct (p x); [by apply perm_skip|done].
  - destruct (p x), (p y); done || apply perm_swap.
Qed.

Lemma filter_rows t l :
  List.filter (fun r => bool_decide (sr_trace_id r = t)) (map row_of_span l) = map row_of_span (List.filter (of_trace t) l).
Proof. induction l as [|sp l IH]; [done|]. cbn. unfold of_trace at 1. rewrite IH. by case_bool_decide. Qed.

Section Store.
Context {W Tx : Type} `{!Has (tx_states Tx) W, !SpanTable W Tx, HST : !SpanTableLaws W Tx}.

(** A time that the table keeps as it is. *)
Definition kept (t : Z) : Prop := spans_time (Tx := Tx) (W := W) t = t.

Lemma record_spans_rows ctx l w :
  spans_ok (Tx := Tx) w -> spans_usable (W := W) (Tx := Tx) ctx -> NoDup (map SpanID l) ->
  (forall sp, sp ∈ l -> span_rows (Tx := Tx) w !! SpanID sp = None) -> Forall (fun sp => kept (StartedAt sp)) l ->
  exists w', record_spans ctx l w (Tx := Tx) = (Done None, w') /\ spans_ok (Tx := Tx) w' /\
    table_rows (span_rows (Tx := Tx) w') ≡ₚ table_rows (span_rows (Tx := Tx) w) ++ map row_of_span l.
Proof.
  intros Hok Hu. revert w Hok. induction l as [|sp l IH]; intros w Hok Hnd Hfresh Hk.
  { exists w. cbn. by rewrite app_nil_r. }
  inversion Hnd as [|? ? Hni Hnd']; inversion Hk as [|? ? Hk1 Hk2]; subst.
  destruct (spans_insert_law ctx w (row_of_span sp) Hok Hu) as (w1 & Hins). cbn [sr_id row_of_span] in Hins.
  rewrite Hfresh in Hins by apply list_elem_of_here. destruct Hins as (Hins & Hok1 & Hr1).
  assert (resolve_row (spans_time (W := W) (Tx := Tx)) (row_of_span sp) = row_of_span sp) as Hres
    by (unfold resolve_row; cbn; by rewrite Hk1).
  rewrite Hres in Hr1. destruct (IH w1) as (w2 & Hrun & Hok2 & Hp); [done|done| |done|].
  { intros sp' Hin. rewrite Hr1, lookup_insert_ne; [apply Hfresh; by apply list_elem_of_further|].
    intros Heq. apply Hni. rewrite Heq. by apply list_elem_of_fmap_2. }
  exists w2. split; [|split; [done|]].
  - cbn [record_spans]. unfold_go. unfold pg_RecordSpan at 1. unfold_go. rewrite GetQuerier_at, Hins. exact Hrun.
  - rewrite Hp, Hr1. change (SpanID sp) with (sr_id (row_of_span sp)). rewrite table_rows_insert.
    + by rewrite <- app_assoc.
    + apply Hfresh, list_elem_of_here.
Qed.

Lemma record_spans_empty ctx l w :
  spans_ok (Tx := Tx) w -> spans_usable (W := W) (Tx := Tx) ctx -> NoDup (map SpanID l) ->
  span_rows (Tx := Tx) w = ∅ -> Forall (fun sp => kept (StartedAt sp)) l ->
  exists w', record_spans ctx l w (Tx := Tx) = (Done None, w') /\ spans_ok (Tx := Tx) w' /\
    table_rows (span_rows (Tx := Tx) w') ≡ₚ map row_of_span l.
Proof.
  intros Hok Hu Hnd He Hk. destruct (record_spans_rows ctx l w) as (w' & H1 & H2 & H3); [done..| |done|].
  - intros sp _. by rewrite He.
  - exists w'. split_and!; [done..|]. rewrite H3, He. unfold table_rows. by rewrite map_to_list_empty.
Qed.

Lemma pg_GetTrace_rows ctx w l t :
  spans_ok (Tx := Tx) w -> spans_usable (W := W) (Tx := Tx) ctx -> table_rows (span_rows (Tx := Tx) w) ≡ₚ map row_of_span l ->
  exists sps w', sps ≡ₚ List.filter (of_trace t) l /\ Sorted (fun a b => StartedAt a <= StartedAt b)%Z sps /\
    pg_GetTrace ctx t w (Tx := Tx) = (Done (match sps with [] => Err (trace_not_found t) | _ => Ok sps end), w') /\
    spans_leads (Tx := Tx) w w' (span_rows (Tx := Tx) w).
Proof.
  intros Hok Hu Hp. destruct (spans_of_trace_law ctx w t Hok Hu) as (rows & w' & Hlead & Hsel & Hrows & Hs).
  exists (map scan_span rows), w'. split_and!.
  - rewrite Hrows, (filter_perm _ _ _ Hp), filter_rows, map_map.
    induction (List.filter (of_trace t) l) as [|sp k IH]; [done|]. cbn. by rewrite scan_row_of_span, IH.
  - clear -Hs. induction Hs as [|r rows _ IH Hhd]; [constructor|]. constructor; [done|].
    destruct Hhd; by constructor.
  - unfold pg_GetTrace. unfold_go. rewrite GetQuerier_at, Hsel. rewrite scan_rows_ok. by destruct rows.
  - exact Hlead.
Qed.

Lemma pg_ListTraces_rows ctx w l f :
  spans_ok (Tx := Tx) w -> spans_usable (W := W) (Tx := Tx) ctx -> table_rows (span_rows (Tx := Tx) w) ≡ₚ map row_of_span l ->
  kept (f_StartTime f) -> kept (f_EndTime f) ->
  exists ids w', pg_ListTraces ctx f w (Tx := Tx) = (Done (Ok ids), w') /\
    spans_leads (Tx := Tx) w w' (span_rows (Tx := Tx) w) /\ NoDup ids /\
    forall t, t ∈ ids <-> exists sp, sp ∈ l /\ TraceID sp = t /\ span_matches f sp = true.
Proof.
  intros Hok Hu Hp Hs He.
  pose proof (list_query_means (spans_time (W := W) (Tx := Tx)) spans_like f Hs He) as Hq.
  unfold pg_ListTraces. destruct (list_query f) as [[conds args] idx] eqn:Eq. destruct Hq as (_ & Ht & Hm).
  destruct (spans_distinct_law ctx w conds args Hok Hu Ht) as (ids & w' & Hlead & Hsel & Hnd & Hids).
  exists ids, w'. split; [|split; [exact Hlead|split; [done|]]].
  - unfold_go. rewrite GetQuerier_at, Hsel, scan_rows_ok. by rewrite map_id.
  - intros t. rewrite Hids. setoid_rewrite Hp. split.
    + intros (r & (sp & -> & Hin)%list_elem_of_fmap & Ht' & Hh). rewrite Hm, scan_row_of_span in Hh. by exists sp.
    + intros (sp & Hin & Ht' & Hh). exists (row_of_span sp). split; [by apply list_elem_of_fmap_2|].
      split; [done|]. by rewrite Hm, scan_row_of_span.
Qed.
End Store.

(** The in-memory store asks for each criterion a span of the trace, not the same one for all. *)
Lemma matches_listed f l sp : sp ∈ l -> span_matches f sp = true -> trace_listed f l (TraceID sp) = true.
Proof.
  intros Hin Hm.
  assert (sp ∈ List.filter (of_trace (TraceID sp)) l) as Hk.
  { apply list_elem_of_In, filter_In. split; [by apply list_elem_of_In|]. by apply bool_decide_eq_true_2. }
  assert (forall b p, b || p sp = true -> b || anyMatch (List.filter (of_trace (TraceID sp)) l) p = true) as Hany.
  { intros [] p Hp; [done|]. apply existsb_exists. exists sp. split; [by apply list_elem_of_In|done]. }
  unfold span_matches in Hm. rewrite !andb_true_iff in Hm. destruct Hm as [[[[[H1 H2] H3] H4] H5] H6].
  unfold trace_listed, matchesFilter. rewrite H1. cbn [andb]. rewrite !andb_true_iff. by split_and!; apply Hany.
Qed.

Lemma listed_matches f l t :
  criteria f <= 1 -> List.filter (of_trace t) l <> [] -> trace_listed f l t = true ->
  exists sp, sp ∈ l /\ TraceID sp = t /\ span_matches f sp = true.
Proof.
  intros Hc Hne Hl. unfold trace_listed, matchesFilter in Hl. rewrite !andb_true_iff in Hl.
  destruct Hl as [Ht [[[[[_ H2] H3] H4] H5] H6]].
  assert (forall sp, sp ∈ List.filter (of_trace t) l ->
    (bool_decide (f_Type f = "") || bool_decide (SpanType sp = f_Type f)) = true ->
    (bool_decide (f_Status f = "") || bool_decide (Status sp = f_Status f)) = true ->
    (time_is_zero (f_StartTime f) || negb (time_before (StartedAt sp) (f_StartTime f))) = true ->
    (time_is_zero (f_EndTime f) || negb (time_after (StartedAt sp) (f_EndTime f))) = true ->
    (bool_decide (f_NameContains f = "") || str_contains (SpanName sp) (f_NameContains f)) = true ->
    exists sp, sp ∈ l /\ TraceID sp = t /\ span_matches f sp = true) as Hgo.
  { intros sp [Hin Hsp]%list_elem_of_In%filter_In G2 G3 G4 G5 G6. apply bool_decide_eq_true_1 in Hsp. exists sp.
    split; [by apply list_elem_of_In|]. split; [done|]. unfold span_matches. by rewrite Hsp, Ht, G2, G3, G4, G5, G6. }
  assert (forall p, anyMatch (List.filter (of_trace t) l) p = true ->
    exists sp, sp ∈ List.filter (of_trace t) l /\ p sp = true) as Hany.
  { intros p (sp & Hin & Hp)%existsb_exists. exists sp. split; [by apply list_elem_of_In|done]. }
  destruct (List.filter (of_trace t) l) as [|sp0 k] eqn:Ek; [done|]. clear Hne Ht.
  pose proof (Hgo sp0 (list_elem_of_here _ _)) as Hgo0. unfold criteria in Hc.
  destruct (bool_decide (f_Type f = "")), (bool_decide (f_Status f = "")), (time_is_zero (f_StartTime f)),
    (time_is_zero (f_EndTime f)), (bool_decide (f_NameContains f = "")); cbn in Hc; try lia; cbn [orb] in *;
    try (by apply Hgo0);
    match goal with H : anyMatch _ _ = true |- _ => apply Hany in H as (sp & Hin & Hp); by apply (Hgo sp Hin) end.
Qed.

(** ** Properties *)

(** Spans are read back from PostgreSQL as they were recorded: when spans with distinct ids and
    times that the database can represent are recorded, every call succeeds, and asking for a trace
    gives its spans and no others, sorted by their start (the in-memory store gives the order of
    recording), or a not-found error when it has none. *)
Theorem pg_trace_roundtrip {W Tx} `{!Has (tx_states Tx) W, !SpanTable W Tx, HST : !SpanTableLaws W Tx} ctx (w : W) l t :
  spans_ok (Tx := Tx) w -> spans_usable (W := W) (Tx := Tx) ctx -> span_rows (Tx := Tx) w = ∅ ->
  NoDup (map SpanID l) -> Forall (fun sp => kept (W := W) (Tx := Tx) (StartedAt sp)) l ->
  exists w1 w2 sps, record_spans ctx l w (Tx := Tx) = (Done None, w1) /\
    pg_GetTrace ctx t w1 (Tx := Tx) = (Done (match sps with [] => Err (trace_not_found t) | _ => Ok sps end), w2) /\
    sps ≡ₚ List.filter (of_trace t) l /\ Sorted (fun a b => StartedAt a <= StartedAt b)%Z sps.
Proof.
  intros Hok Hu He Hnd Hk. destruct (record_spans_empty ctx l w) as (w1 & Hrun & Hok1 & Hp); [done..|].
  destruct (pg_GetTrace_rows ctx w1 l t) as (sps & w2 & Hsps & Hs & Hget & _); [done..|]. by exists w1, w2, sps.
Qed.

(** The two trace stores on the same spans: PostgreSQL lists, without repetition, exactly the traces
    that have one span meeting all the criteria of the filter, the name being searched literally
    whatever wildcards it contains; the in-memory store lists all of these, and only these when the
    filter has at most one criterion beside the trace's id (with more it may list others, see
    [failed_commands_diverge]). *)
Theorem pg_traces_within_memory {W Tx} `{!Has (tx_states Tx) W, !SpanTable W Tx, HST : !SpanTableLaws W Tx}
    ctx (w : W) (s : InMemoryTraceStore) f :
  spans_ok (Tx := Tx) w -> spans_usable (W := W) (Tx := Tx) ctx -> span_rows (Tx := Tx) w = ∅ ->
  store_ok s -> NoDup (map SpanID (spans s)) -> Forall (fun sp => kept (W := W) (Tx := Tx) (StartedAt sp)) (spans s) ->
  kept (W := W) (Tx := Tx) (f_StartTime f) -> kept (W := W) (Tx := Tx) (f_EndTime f) ->
  exists w1 w2 ids mem, record_spans ctx (spans s) w (Tx := Tx) = (Done None, w1) /\
    pg_ListTraces ctx f w1 (Tx := Tx) = (Done (Ok ids), w2) /\ ListTraces f s = Done mem /\
    NoDup ids /\ (forall t, t ∈ ids <-> exists sp, sp ∈ spans s /\ TraceID sp = t /\ span_matches f sp = true) /\
    ids ⊆ mem /\ (criteria f <= 1 -> mem ≡ₚ ids).
Proof.
  intros Hok Hu He Hs Hnd Hk Hf1 Hf2.
  destruct (record_spans_empty ctx (spans s) w) as (w1 & Hrun & Hok1 & Hp); [done..|].
  destruct (pg_ListTraces_rows ctx w1 (spans s) f) as (ids & w2 & Hl & _ & Hndi & Hids); [done..|].
  destruct (list_traces_spec f s Hs) as (mem & Hm & Hndm & Hmem).
  assert (ids ⊆ mem) as Hsub.
  { intros t (sp & Hin & <- & Hmt)%Hids. apply Hmem. split; [|by apply matches_listed].
    intros Hnil. assert (In sp (List.filter (of_trace (TraceID sp)) (spans s))) as Hi.
    { apply filter_In. split; [by apply list_elem_of_In|]. by apply bool_decide_eq_true_2. }
    by rewrite Hnil in Hi. }
  exists w1, w2, ids, mem. split_and!; [done..|].
  intros Hc. apply NoDup_Permutation; [done..|]. intros t. split; [|by apply Hsub].
  intros [Hne Htl]%Hmem. apply Hids. by apply listed_matches.
Qed.

(** ** A concrete table *)
Module DemoPgTrace.
Record world := mkWorld { table : gmap string span_row; txs : tx_states unit }.
#[export] Instance demo_txs : Has (tx_states unit) world := { part := txs; set_part t w := mkWorld (table w) t }.

Fixpoint insert_by_start (r : span_row) (l : list span_row) : list span_row :=
  match l with
  | [] => [r]
  | x :: l' => if bool_decide (sr_started_at r <= sr_started_at x)%Z then r :: l else x :: insert_by_start r l'
  end.
Definition by_start (l : list span_row) : list span_row := fold_right insert_by_start [] l.

Lemma insert_by_start_perm r l : insert_by_start r l ≡ₚ r :: l.
Proof. induction l as [|x l IH]; [done|]. cbn. case_bool_decide; [done|]. by rewrite IH, Permutation_swap. Qed.

Lemma by_start_perm l : by_start l ≡ₚ l.
Proof. induction l as [|r l IH]; [done|]. cbn. by rewrite insert_by_start_perm, IH. Qed.

Abbreviation sorted := (Sorted (fun a b => sr_started_at a <= sr_started_at b)%Z) (only parsing).

Lemma insert_by_start_sorted r l : sorted l -> sorted (insert_by_start r l).
Proof.
  induction 1 as [|x k Hk IHk Hhd]; [repeat constructor|]. cbn.
  case_bool_decide; [repeat constructor; done|]. constructor; [done|].
  destruct Hhd as [|y k' Hy]; cbn; [constructor; lia|]. case_bool_decide; constructor; [lia|done].
Qed.

Lemma by_start_sorted l : sorted (by_start l).
Proof. induction l as [|r l IH]; [constructor|]. by apply insert_by_start_sorted. Qed.

#[export] Instance demo_table : SpanTable world unit := {
  spans_insert _ _ r := fun w =>
    match table w !! sr_id r with
    | Some _ => (Done (Some (ENew "duplicate key")), w)
    | None => (Done None, mkWorld (<[sr_id r := r]> (table w)) (txs w))
    end;
  spans_of_trace _ _ t := fun w =>
    (Done (inl (map inl (by_start (List.filter (fun r => bool_decide (sr_trace_id r = t)) (table_rows (table w)))), None)), w);
  spans_distinct _ _ conds args := fun w =>
    (Done (inl (map inl (remove_dups (map sr_trace_id
       (List.filter (fun r => forallb (cond_holds span_text span_time (fun t => t) DemoLike.demo_like args r) conds)
          (table_rows (table w))))), None)), w) }.

#[export] Program Instance demo_laws : SpanTableLaws world unit := {
  spans_ok _ := True;
  spans_usable _ := True;
  span_rows := table;
  spans_time t := t;
  spans_like := DemoLike.demo_like }.
Next Obligation. apply DemoLike.demo_like_laws. Qed.
Next Obligation.
  intros ctx w r _ _. cbn. destruct (table w !! sr_id r); eexists; [eexists; by split_and!|].
  split_and!; [done..|]. by destruct r.
Qed.
Next Obligation.
  intros ctx w t _ _. eexists _, w. split_and!; [done..|reflexivity| |].
  - apply by_start_perm.
  - apply by_start_sorted.
Qed.
Next Obligation.
  intros ctx w conds args _ _ _. eexists _, w. split_and!; [done..|reflexivity| |].
  - apply NoDup_remove_dups.
  - intros t. rewrite elem_of_remove_dups, list_elem_of_fmap. split.
    + intros (r & -> & [Hin Hh]%list_elem_of_In%filter_In). exists r. split; [by apply list_elem_of_In|done].
    + intros (r & Hin & <- & Hh). exists r. split; [done|]. apply list_elem_of_In, filter_In.
      split; [by apply list_elem_of_In|done].
Qed.

Definition span (i t ty st : string) (at_ : Z) : Span := mkSpan i t "" ty "Pay_50%" st "" at_ 1.
(** Trace [a] has a failed query and a successful command, trace [b] a failed command. *)
Definition history : list Span :=
  [span "1" "a" SpanTypeQuery SpanStatusError 20; span "2" "b" SpanTypeCommand SpanStatusError 15;
   span "3" "a" SpanTypeCommand SpanStatusSuccess 10].
Definition w0 : world := mkWorld ∅ [].
Definition mem : InMemoryTraceStore :=
  match trace_run (NewInMemoryTraceStore []) (map (OpRecord 20) history) with
  | Done s => s
  | Panicked _ => NewInMemoryTraceStore []
  end.

Lemma mem_ok : store_ok mem /\ spans mem = history.
Proof.
  split; [|vm_compute; reflexivity].
  assert (store_ok (NewInMemoryTraceStore [])) as Hnew by (apply new_store_ok; by vm_compute).
  destruct (trace_run_ok (map (OpRecord 20) history) _ Hnew) as (s & Hr & Hok & _). unfold mem. by rewrite Hr.
Qed.

Lemma history_ids : NoDup (map SpanID history).
Proof. apply (bool_decide_unpack _). by vm_compute. Qed.

Definition failed_commands : TraceFilter := mkFilter "" SpanTypeCommand SpanStatusError 0 0 "_50%".
End DemoPgTrace.
Import DemoPgTrace.

(** Trace [a] has no failed command; only the in-memory store lists it. *)
Example failed_commands_diverge :
  (_ ← record_spans Background history; pg_ListTraces Background failed_commands) w0 =
    (Done (Ok ["b"]), ((record_spans Background history (Tx := unit)) w0).2) /\
  exists ids, ListTraces failed_commands mem = Done ids /\ "a" ∈ ids.
Proof. split; [vm_compute; reflexivity|]. eexists. split; [vm_compute; reflexivity|]. set_solver. Qed.

Lemma pg_trace_roundtrip_witness :
  exists w1 w2 sps, record_spans Background history w0 (Tx := unit) = (Done None, w1) /\
    pg_GetTrace Background "a" w1 (Tx := unit) = (Done (match sps with [] => Err (trace_not_found "a") | _ => Ok sps end), w2) /\
    sps ≡ₚ List.filter (of_trace "a") history /\ Sorted (fun a b => StartedAt a <= StartedAt b)%Z sps.
Proof.
  apply (pg_trace_roundtrip (HST := demo_laws)); [exact I|exact I|reflexivity|apply history_ids|].
  by repeat constructor.
Defined.

Lemma pg_traces_within_memory_witness :
  exists w1 w2 ids l, record_spans Background (spans mem) w0 (Tx := unit) = (Done None, w1) /\
    pg_ListTraces Background failed_commands w1 (Tx := unit) = (Done (Ok ids), w2) /\
    ListTraces failed_commands mem = Done l /\ "b" ∈ ids /\ ids ⊆ l.
Proof.
  destruct mem_ok as [Hok Hs].
  destruct (pg_traces_within_memory (HST := demo_laws) Background w0 mem failed_commands)
    as (w1 & w2 & ids & l & H1 & H2 & H3 & _ & H4 & H5 & _);
    [exact I|exact I|reflexivity|exact Hok|rewrite Hs; apply history_ids|rewrite Hs; by repeat constructor|done|done|].
  exists w1, w2, ids, l. split; [exact H1|]. split; [exact H2|]. split; [exact H3|]. split; [|exact H5].
  apply H4. exists (span "2" "b" SpanTypeCommand SpanStatusError 15). rewrite Hs. split; [|split; vm_compute; reflexivity].
  apply list_elem_of_further, list_elem_of_here.
Defined.
