(* ===== verification/PgEventStore.v ===== *)
(** * The PostgreSQL event store: [src/cqrs/impl/pg/event_store.go]

    Events are rows of [ddd_domain_events] ([src/pg/migrate.go]) with a unique key of
    aggregate and version. The statements on the table are a parameter,
    [EventTable]; [EventTableLaws] is what PostgreSQL documents of them. The store
    discharges the interface [AggregateEventStore] of the repositories. *)

From S2P Require Import Prelude Errors Trace Pg Aggregate EventStore EventLog.

Record event_row (Dat : Type) := mkEventRow {
  er_id : Z;
  er_aggregate_id : string;
  er_event_type : string;
  er_event_data : Dat;
  er_occurred_at : Z;
  er_version : Z;
  er_correlation_id : string;
  er_causation_id : string }.
Arguments mkEventRow {Dat} _ _ _ _ _ _ _ _.
Arguments er_id {Dat} _.
Arguments er_aggregate_id {Dat} _.
Arguments er_event_type {Dat} _.
Arguments er_event_data {Dat} _.
Arguments er_occurred_at {Dat} _.
Arguments er_version {Dat} _.
Arguments er_correlation_id {Dat} _.
Arguments er_causation_id {Dat} _.

Class EventTable (W Tx Dat : Type) := {
  (** [INSERT INTO ddd_domain_events (aggregate_id, event_type, event_data, occurred_at, version,
      correlation_id, causation_id) ...] *)
  ev_insert : option Tx -> context -> string -> string -> Dat -> Z -> Z -> string -> string -> GoM W error;
  (** [SELECT ... WHERE aggregate_id = $1 AND version > $2 ORDER BY version] *)
  ev_select : option Tx -> context -> string -> Z -> GoM W (query_result (event_row Dat));
  (** [SELECT ... WHERE id > $1 ORDER BY id ASC], with a [LIMIT] or not *)
  ev_select_all : option Tx -> context -> Z -> option Z -> GoM W (query_result (event_row Dat)) }.

(** [defer fin()] where [fin] has effects and its result is dropped. *)
Definition defer_run {W A B} (m : GoM W A) (fin : GoM W B) : GoM W A := fun w =>
  let (r, w1) := m w in
  let (r2, w2) := fin w1 in
  (match r2 with Done _ => r | Panicked why => Panicked why end, w2).

Section Operations.
Context {W Tx Dat P E : Type} `{!Event E}.
Context `{!SqlDB W Tx, !Has (tx_states Tx) W, !EventTable W Tx Dat}.
Context (sql_state : goerr -> option string).
Context (json_Marshal : E -> result Dat) (json_Unmarshal : Dat -> P -> result E).

(** Factories give blank events, of type [P]; [pool] is what the pool's [New] gives. *)
Record PgEventSourceStore := mkPgStore {
  pool : option P;
  pg_newFunc : option P;
  factoryMap : option (gmap string P) }.

Inductive EventSourceStoreOption :=
| WithFactory (factory : P)
| WithFactoryMap (m : gmap string P).

Definition apply_option (s : PgEventSourceStore) (o : EventSourceStoreOption) : PgEventSourceStore :=
  match o with
  | WithFactory f => mkPgStore (pool s) (Some f) (factoryMap s)
  | WithFactoryMap m => mkPgStore (pool s) (pg_newFunc s) (Some (m ∪ default ∅ (factoryMap s)))
  end.

(** [blank] is [reflect.New(t.Elem())] for a pointer type. *)
Definition NewEventSourceStore (t : type_param) (blank : P) (opts : list EventSourceStoreOption) :
    result PgEventSourceStore :=
  let s := fold_left apply_option opts (mkPgStore None None None) in
  match t with
  | TInterface =>
      match pg_newFunc s, factoryMap s with
      | None, None => Err (ENew "PgEventSourceStore[T]: WithFactory or WithFactoryMap is required when T is an interface type")
      | _, _ => Ok s
      end
  | TOther text => Err (ENew ("PgEventSourceStore[T]: T must be a pointer type, got " +:+ text))
  | TPointer =>
      match pg_newFunc s with
      | Some _ => Ok s
      | None => Ok (mkPgStore (Some blank) None (factoryMap s))
      end
  end.

Context (T_text : string) (s : PgEventSourceStore).

Definition alloc (eventType : string) : result P :=
  match factoryMap s ≫= fun m => m !! eventType with
  | Some p => Ok p
  | None =>
      match pg_newFunc s with
      | Some p => Ok p
      | None =>
          match pool s with
          | Some p => Ok p
          | None => Err (ENew ("PgEventSourceStore[T]: pool returned unexpected type, expected " +:+ T_text))
          end
      end
  end.

Definition version_conflict (version : Z) (aggregateID : string) : goerr :=
  EWrap ("concurrency conflict: version " +:+ pretty version +:+ " already exists for aggregate "
         +:+ aggregateID +:+ ": ") ErrConcurrency "".

(** [i] is the index of the first event. *)
Fixpoint appendEvents (ctx : context) (q : option Tx) (aggregateID : string) (expectedVersion i : Z)
    (events : list E) : GoM W error :=
  match events with
  | [] => mret None
  | evt :: rest =>
      match json_Marshal evt with
      | Err err => mret (Some (EWrap "marshal event: " err ""))
      | Ok data =>
          let meta := MetadataOf evt in
          let version := (expectedVersion +i i) +i 1 in
          err ← ev_insert q ctx (AggregateID meta) (EventNameOf evt) data (OccurredAt meta) version
                  (CorrelationID meta) (CausationID meta);
          match err with
          | Some e =>
              mret (Some (if IsUniqueViolation sql_state (Some e) then version_conflict version aggregateID
                          else EWrap "insert event: " e ""))
          | None => appendEvents ctx q aggregateID expectedVersion (i +i 1) rest
          end
      end
  end.

Definition Append (ctx : context) (aggregateID : string) (expectedVersion : Z) (events : list E) :
    GoM W error :=
  has ← HasTransaction (Tx := Tx) ctx;
  if has : bool then
    q ← GetQuerier ctx;
    appendEvents ctx q aggregateID expectedVersion 0 events
  else
    b ← db_BeginTx ctx;
    match b with
    | inr err => mret (Some (EWrap "begin tx: " err ""))
    | inl tx =>
        defer_run
          (err ← appendEvents ctx (Some tx) aggregateID expectedVersion 0 events;
           match err with Some e => mret (Some e) | None => tx_CommitTx tx end)
          (tx_RollbackTx tx)
    end.

(** The loop over the rows of a query; [f] is what is made of a row's event. *)
Fixpoint read_rows {A} (f : event_row Dat -> E -> A) (rows : list (event_row Dat + goerr)) (rows_err : error) :
    result (list A) :=
  match rows with
  | [] => match rows_err with Some e => Err (EWrap "iterate events: " e "") | None => Ok [] end
  | inr e :: _ => Err (EWrap "scan event: " e "")
  | inl row :: rest =>
      match alloc (er_event_type row) with
      | Err e => Err (EWrap "allocate event: " e "")
      | Ok blank =>
          match json_Unmarshal (er_event_data row) blank with
          | Err e => Err (EWrap "unmarshal event: " e "")
          | Ok evt =>
              match read_rows f rest rows_err with Err e => Err e | Ok l => Ok (f row evt :: l) end
          end
      end
  end.

Definition Load (ctx : context) (aggregateID : string) (afterVersion : Z) : GoM W (result (list E)) :=
  q ← GetQuerier ctx;
  rows ← ev_select q ctx aggregateID afterVersion;
  mret (match rows with
        | inr err => Err (EWrap "query events: " err "")
        | inl (rows, rows_err) => read_rows (fun _ evt => evt) rows rows_err
        end).

Definition LoadAll (ctx : context) (afterPosition limit : Z) : GoM W (result (list (globalEntry E))) :=
  q ← GetQuerier ctx;
  rows ← ev_select_all q ctx afterPosition (if bool_decide (0 < limit)%Z then Some limit else None);
  mret (match rows with
        | inr err => Err (EWrap "query all events: " err "")
        | inl (rows, rows_err) => read_rows (fun row evt => mkEntry (er_id row) evt) rows rows_err
        end).
End Operations.
Arguments PgEventSourceStore : clear implicits.

(** ** What PostgreSQL documents of the table

    In the states [ev_ok]: rows have a unique key; a transaction sees what was
    committed and what it inserted itself; an insertion whose key exists fails with
    SQL state 23505; ids grow. [ev_jsonb] is what a JSONB column makes of the
    data; the time of a row has another resolution. *)
Definition ev_key {Dat} (r : event_row Dat) : string * Z := (er_aggregate_id r, er_version r).

Definition ev_filter {Dat} (id : string) (v : Z) (rows : list (event_row Dat)) : list (event_row Dat) :=
  List.filter (fun r => bool_decide (er_aggregate_id r = id) && bool_decide (v < er_version r)%Z) rows.

Class EventTableLaws (W Tx Dat : Type) (sql_state : goerr -> option string)
    `{!SqlDB W Tx, !Has (tx_states Tx) W, !EventTable W Tx Dat} := {
  ev_ok : W -> Prop;
  ev_committed : W -> list (event_row Dat);
  ev_session : Tx -> W -> option (list (event_row Dat));
  ev_jsonb : Dat -> Dat;
  ev_leads (w w' : W) (rows : list (event_row Dat)) : Prop :=
    ev_ok w' /\ ev_committed w' = rows;
  ev_unique : forall w, ev_ok w -> NoDup (map ev_key (ev_committed w));
  ev_begin : forall ctx w, ev_ok w -> exists t w', db_BeginTx ctx w = (Done (inl t), w') /\
    ev_leads w w' (ev_committed w) /\ ev_session t w' = Some (ev_committed w);
  ev_insert_law : forall t ctx w rows id ty d oc v co ca,
    ev_ok w -> ev_session t w = Some rows -> (0 <= v <= max_stream)%Z ->
    exists w', ev_leads w w' (ev_committed w) /\
      if bool_decide ((id, v) ∈ map ev_key rows)
      then exists e, ev_insert (Some t) ctx id ty d oc v co ca w = (Done (Some e), w') /\
             sql_state e = Some "23505"
      else exists n oc', Forall (fun r => er_id r < n)%Z rows /\
             ev_insert (Some t) ctx id ty d oc v co ca w = (Done None, w') /\
             ev_session t w' = Some (rows ++ [mkEventRow n id ty (ev_jsonb d) oc' v co ca]);
  ev_commit : forall t w rows, ev_ok w -> ev_session t w = Some rows -> NoDup (map ev_key rows) ->
    exists w', tx_CommitTx t w = (Done None, w') /\ ev_leads w w' rows;
  ev_rollback : forall t w, ev_ok w ->
    exists e w', tx_RollbackTx t w = (Done e, w') /\ ev_leads w w' (ev_committed w);
  ev_select_law : forall ctx w id v, ev_ok w ->
    exists rs w', ev_select None ctx id v w = (Done (inl (map inl rs, None)), w') /\
      ev_leads w w' (ev_committed w) /\ rs ≡ₚ ev_filter id v (ev_committed w) /\
      Sorted Z.le (map er_version rs) }.

(** What the store relies on of its codec and factories: the blank event made for
    a type takes the data of an event of that type back. *)
Class EventCodec {E Dat P} `{!Event E} (json_Marshal : E -> result Dat) (json_Unmarshal : Dat -> P -> result E)
    (jsonb : Dat -> Dat) (T_text : string) (s : PgEventSourceStore P) : Prop :=
  decode_encode : forall e d, json_Marshal e = Ok d ->
    exists p, alloc T_text s (EventNameOf e) = Ok p /\ json_Unmarshal (jsonb d) p = Ok e.

(** ** Lemmas *)

(** A permutation that is sorted by a key that is unique is the only one. *)
Lemma sorted_by_key {A} (f : A -> Z) (l k : list A) :
  l ≡ₚ k -> Sorted Z.le (map f l) -> Sorted Z.le (map f k) -> NoDup (map f k) -> l = k.
Proof.
  intros Hp Hl Hk Hnd.
  assert (map f l = map f k) as Hmap.
  { apply (Sorted_unique Z.le); [done..|]. by apply Permutation_map. }
  apply list_eq_same_length with (n := length k); [done|by apply Permutation_length|].
  intros i a b _ Ha Hb.
  assert (a ∈ k) as (j & Hj)%list_elem_of_lookup.
  { rewrite <- Hp. by eapply list_elem_of_lookup_2. }
  assert (map f k !! j = Some (f a)) as Hfj by (by rewrite list_lookup_fmap, Hj).
  assert (map f k !! i = Some (f a)) as Hfi by (by rewrite <- Hmap, list_lookup_fmap, Ha).
  assert (j = i) as -> by (by eapply NoDup_lookup). congruence.
Qed.

Section Lemmas.
Context {W Tx Dat P E : Type} `{!Event E}.
Context `{!SqlDB W Tx, !Has (tx_states Tx) W, !EventTable W Tx Dat} (sql_state : goerr -> option string).
Context `{!EventTableLaws W Tx Dat sql_state}.
Context (json_Marshal : E -> result Dat) (json_Unmarshal : Dat -> P -> result E).
Context (T_text : string) (s : PgEventSourceStore P).
Abbreviation rows_in := (ev_committed (sql_state := sql_state) (Tx := Tx) (Dat := Dat)).
Abbreviation table_ok := (ev_ok (sql_state := sql_state) (Tx := Tx) (Dat := Dat)).
Abbreviation session := (ev_session (sql_state := sql_state) (Tx := Tx) (Dat := Dat)).
Abbreviation jsonb := (ev_jsonb (sql_state := sql_state) (Tx := Tx) (Dat := Dat)).
Implicit Types (evts : list E) (rows new : list (event_row Dat)).

(** The row of an event at a version. *)
Definition row_of (e : E) (v : Z) (r : event_row Dat) : Prop :=
  exists d, json_Marshal e = Ok d /\ er_event_data r = jsonb d /\ ev_key r = (aggregate_id e, v) /\
    er_event_type r = EventNameOf e /\ er_correlation_id r = CorrelationID (MetadataOf e) /\
    er_causation_id r = CausationID (MetadataOf e).

(** The keys that events appended after version [v] take. *)
Fixpoint new_keys (v : Z) (evts : list E) : list (string * Z) :=
  match evts with [] => [] | e :: evts => (aggregate_id e, v + 1)%Z :: new_keys (v + 1) evts end.

(** Rows for events in order, from the version after [v] on. *)
Fixpoint rows_for (v : Z) evts new : Prop :=
  match evts, new with
  | [], [] => True
  | e :: evts, r :: new => row_of e (v + 1) r /\ rows_for (v + 1) evts new
  | _, _ => False
  end.

Lemma rows_for_keys v evts new : rows_for v evts new -> map ev_key new = new_keys v evts.
Proof.
  revert v new. induction evts as [|e evts IH]; intros v [|r new]; cbn; [done..|].
  intros [(d & _ & _ & -> & _) Hr]. by rewrite (IH _ _ Hr).
Qed.

(** What the inserts of one transaction do. *)
Lemma appendEvents_run ctx t id v i evts rows w :
  table_ok w -> session t w = Some rows -> NoDup (map ev_key rows) ->
  (0 <= v)%Z -> (0 <= i)%Z -> (v + i + zlen evts <= max_stream)%Z ->
  exists err w', appendEvents sql_state json_Marshal ctx (Some t) id v i evts w = (Done err, w') /\
    table_ok w' /\ rows_in w' = rows_in w /\
    match err with
    | None => exists new, session t w' = Some (rows ++ new) /\ rows_for (v + i) evts new /\
                NoDup (map ev_key (rows ++ new))
    | Some e => Forall (fun e => exists d, json_Marshal e = Ok d) evts ->
                errors_Is (TDomain "CONCURRENCY") e = true /\
                ~ NoDup (map ev_key rows ++ new_keys (v + i) evts)
    end.
Proof.
  revert i rows w. induction evts as [|e evts IH]; intros i rows w Hok Hs Hnd Hv Hi Hmax; cbn [appendEvents].
  { exists None, w. split_and!; [done..|]. exists []. by rewrite app_nil_r. }
  rewrite zlen_cons in Hmax. pose proof (zlen_nonneg evts) as Hlen.
  destruct (json_Marshal e) as [d|err] eqn:Hd.
  2:{ do 2 eexists. split; [reflexivity|]. split_and!; [done..|].
      intros Hall. inversion Hall as [|? ? [d' Hd'] _]; subst. congruence. }
  assert ((v +i i) +i 1 = v + i + 1)%Z as ->.
  { rewrite (int_add_id v i), int_add_id; unfold max_stream, in_int64, two63 in *; lia. }
  assert (i +i 1 = i + 1)%Z as -> by (rewrite int_add_id; unfold max_stream, in_int64, two63 in *; lia).
  unfold_go. assert (0 <= v + i + 1 <= max_stream)%Z as Hver by lia.
  destruct (ev_insert_law t ctx w rows (AggregateID (MetadataOf e)) (EventNameOf e) d (OccurredAt (MetadataOf e))
    (v + i + 1) (CorrelationID (MetadataOf e)) (CausationID (MetadataOf e)) Hok Hs Hver)
    as (w1 & [Hok1 Hc1] & Hins).
  case_bool_decide as Hin.
  - destruct Hins as (err & -> & Hst). do 2 eexists. split; [reflexivity|]. split_and!; [done..|].
    intros _. unfold IsUniqueViolation. cbn [mbind option_bind]. rewrite Hst. cbn. split; [done|].
    intros [_ [Hx _]]%NoDup_app. apply (Hx _ Hin). left.
  - destruct Hins as (n & oc' & _ & -> & Hs1).
    set (r := mkEventRow n _ _ _ _ _ _ _) in Hs1.
    destruct (IH (i + 1)%Z _ w1 Hok1 Hs1) as (err & w2 & -> & Hok2 & Hc2 & Hres); [|lia..|].
    { rewrite map_app. apply NoDup_app. split; [done|]. split; [|apply NoDup_singleton].
      intros x Hx ->%list_elem_of_singleton. by apply Hin. }
    do 2 eexists. split; [reflexivity|]. split; [done|]. split; [congruence|].
    rewrite Z.add_assoc in Hres. destruct err as [err|].
    + intros Hall. inversion Hall; subst. destruct Hres as [Hc Hn]; [done|]. split; [done|].
      cbn [new_keys]. rewrite map_app, <- app_assoc in Hn. exact Hn.
    + destruct Hres as (new & Hs2 & Hf & Hn2). exists (r :: new). rewrite <- app_assoc in Hs2, Hn2.
      split_and!; [done| |done]. split; [|done]. exists d. by split_and!.
Qed.

Lemma get_state_none ctx (w : W) :
  pgTx ctx = None -> get_state (Tx := Tx) ctx w = (Done None, w).
Proof. intros Hc. unfold get_state. by rewrite Hc. Qed.

(** Append in a transaction of its own. *)
Lemma append_run ctx id v evts w :
  pgTx ctx = None -> table_ok w -> (0 <= v)%Z -> (v + zlen evts <= max_stream)%Z ->
  exists err w', Append sql_state json_Marshal ctx id v evts w = (Done err, w') /\ table_ok w' /\
    match err with
    | None => exists new, rows_in w' = rows_in w ++ new /\ rows_for v evts new
    | Some e => rows_in w' = rows_in w /\
        (Forall (fun e => exists d, json_Marshal e = Ok d) evts ->
         errors_Is (TDomain "CONCURRENCY") e = true /\ ~ NoDup (map ev_key (rows_in w) ++ new_keys v evts))
    end.
Proof.
  intros Hc Hok Hv Hmax. unfold Append, HasTransaction. unfold_go. rewrite (get_state_none _ _ Hc). cbv beta iota.
  destruct (ev_begin ctx w Hok) as (t & w1 & Hb & [Hok1 Hc1] & Hs1). rewrite Hb. cbv beta iota. rewrite <- Hc1 in Hs1.
  unfold defer_run. destruct (appendEvents_run ctx t id v 0 evts _ w1 Hok1 Hs1 (ev_unique _ Hok1) Hv ltac:(lia) ltac:(lia))
    as (err & w2 & Ha & Hok2 & Hc2 & Hres).
  rewrite Ha, Z.add_0_r in *. destruct err as [err|].
  - destruct (ev_rollback t w2 Hok2) as (e & w3 & -> & Hok3 & Hc3).
    do 2 eexists. split; [reflexivity|]. split; [done|]. split; [congruence|]. by rewrite <- Hc1.
  - destruct Hres as (new & Hs2 & Hf & Hnd).
    destruct (ev_commit t w2 _ Hok2 Hs2 Hnd) as (w3 & -> & Hok3 & Hc3).
    destruct (ev_rollback t w3 Hok3) as (e & w4 & -> & Hok4 & Hc4).
    do 2 eexists. split; [reflexivity|]. split; [done|]. exists new. split; [congruence|done].
Qed.

Context `{!EventCodec json_Marshal json_Unmarshal jsonb T_text s}.

(** Reading back the rows of events. *)
Lemma read_rows_for v evts new {A} (f : event_row Dat -> E -> A) :
  rows_for v evts new ->
  read_rows json_Unmarshal T_text s f (map inl new) None = Ok (zip_with f new evts).
Proof.
  revert v new. induction evts as [|e evts IH]; intros v [|r new]; cbn; [done..|].
  intros [(d & Hd & Hdat & _ & Hty & _) Hr]. rewrite Hty, Hdat.
  destruct (decode_encode e d Hd) as (p & -> & ->). by rewrite (IH _ _ Hr).
Qed.

Lemma zip_with_snd {A B} (l : list A) (k : list B) :
  length l = length k -> zip_with (fun _ b => b) l k = k.
Proof. revert k. induction l as [|a l IH]; intros [|b k]; cbn; try done. intros [= H]. by rewrite IH. Qed.

Lemma rows_for_length v evts new : rows_for v evts new -> length new = length evts.
Proof. intros H. apply rows_for_keys in H. apply (f_equal length) in H. revert H. rewrite length_map. intros ->.
  clear. revert v. induction evts as [|e evts IH]; intros v; cbn; [done|]. by rewrite IH. Qed.

(** The versions of a stream's rows grow, so a query gives them in order. *)
Lemma new_versions_sorted v evts :
  Sorted Z.le (map snd (new_keys v evts)) /\ Forall (fun z => v < z <= v + zlen evts)%Z (map snd (new_keys v evts)).
Proof.
  revert v. induction evts as [|e evts IH]; intros v; cbn; [by split; constructor|].
  destruct (IH (v + 1)%Z) as [Hs Hf]. pose proof (zlen_nonneg evts). rewrite zlen_cons. split.
  - constructor; [done|]. destruct evts; constructor; cbn; lia.
  - constructor; [lia|]. eapply Forall_impl; [exact Hf|]. intros z Hz. cbn in Hz. lia.
Qed.

Lemma new_versions_nodup v evts : NoDup (map snd (new_keys v evts)).
Proof.
  revert v. induction evts as [|e evts IH]; intros v; cbn; constructor; [|apply IH].
  intros Hin. destruct (new_versions_sorted (v + 1) evts) as [_ Hf].
  eapply Forall_forall in Hf; [|exact Hin]. cbn in Hf. lia.
Qed.

Lemma ev_filter_app id v (k l : list (event_row Dat)) : ev_filter id v (k ++ l) = ev_filter id v k ++ ev_filter id v l.
Proof. apply List.filter_app. Qed.

Lemma ev_filter_none id v (l : list (event_row Dat)) :
  Forall (fun r => er_aggregate_id r = id -> er_version r <= v)%Z l -> ev_filter id v l = [].
Proof.
  unfold ev_filter. induction 1 as [|r l Hr _ IH]; [done|]. cbn [List.filter]. rewrite IH.
  destruct (decide (er_aggregate_id r = id)) as [He|He].
  - rewrite (bool_decide_eq_false_2 (v < er_version r)%Z), andb_false_r by (apply Hr in He; lia). done.
  - by rewrite bool_decide_eq_false_2.
Qed.

Lemma ev_filter_all id v (l : list (event_row Dat)) :
  Forall (fun r => er_aggregate_id r = id /\ v < er_version r)%Z l -> ev_filter id v l = l.
Proof.
  unfold ev_filter. induction 1 as [|r l [He Hv] _ IH]; [done|]. cbn [List.filter]. rewrite IH.
  by rewrite (bool_decide_eq_true_2 _ He), (bool_decide_eq_true_2 _ Hv).
Qed.

(** The rows of a query whose rows are those of events in order. *)
Lemma load_rows ctx id v u evts new w :
  pgTx ctx = None -> table_ok w -> ev_filter id v (rows_in w) = new -> rows_for u evts new ->
  exists w', Load json_Unmarshal T_text s ctx id v w = (Done (Ok evts), w') /\ table_ok w' /\ rows_in w' = rows_in w.
Proof.
  intros Hc Hok Hf Hr. unfold Load, GetQuerier. unfold_go. rewrite (get_state_none _ _ Hc). cbv beta iota.
  destruct (ev_select_law ctx w id v Hok) as (rs & w' & -> & [Hok' Hc'] & Hp & Hs).
  exists w'. split; [|done]. rewrite Hf in Hp.
  assert (map er_version new = map snd (new_keys u evts)) as Hver.
  { rewrite <- (rows_for_keys _ _ _ Hr). by rewrite map_map. }
  assert (rs = new) as ->.
  { apply (sorted_by_key er_version); [done..| |]; rewrite Hver; [apply new_versions_sorted|apply new_versions_nodup]. }
  rewrite (read_rows_for _ _ _ _ Hr). by rewrite zip_with_snd by (by eapply rows_for_length).
Qed.

Lemma rows_for_stream id v evts new :
  rows_for v evts new -> Forall (fun e => aggregate_id e = id) evts ->
  Forall (fun r => er_aggregate_id r = id /\ v < er_version r)%Z new.
Proof.
  intros Hr Hid. pose proof (rows_for_keys _ _ _ Hr) as Hk.
  destruct (new_versions_sorted v evts) as [_ Hv]. rewrite <- Hk, map_map in Hv.
  clear Hk. revert v new Hr Hv. induction Hid as [|e evts He _ IH]; intros v [|r new]; cbn; try done.
  intros [(d & _ & _ & Hkey & _) Hr] Hv. inversion Hv as [|? ? Hv1 Hv2]; subst. injection Hkey as Hk1 Hk2.
  constructor; [split; [congruence|cbn in Hv1; lia]|].
  eapply Forall_impl; [apply (IH (v + 1)%Z new Hr)|].
  - clear -Hr. destruct (new_versions_sorted (v + 1) evts) as [_ Hf].
    rewrite <- (rows_for_keys _ _ _ Hr), map_map in Hf. eapply Forall_impl; [exact Hf|].
    intros r' Hr'. cbn in *. lia.
  - intros r' [? ?]. split; [done|lia].
Qed.
End Lemmas.

(** ** The interface of the repositories

    Outside a transaction, with events that can be marshalled, the store keeps its
    promises as long as its clients append at the ends of streams. *)
Section Interface.
Context {W Tx Dat P E : Type} `{!Event E}.
Context `{!SqlDB W Tx, !Has (tx_states Tx) W, !EventTable W Tx Dat} (sql_state : goerr -> option string).
Context `{!EventTableLaws W Tx Dat sql_state}.
Context (json_Marshal : E -> result Dat) (json_Unmarshal : Dat -> P -> result E).
Context (T_text : string) (s : PgEventSourceStore P).
Abbreviation rows_in := (ev_committed (sql_state := sql_state) (Tx := Tx) (Dat := Dat)).
Abbreviation table_ok := (ev_ok (sql_state := sql_state) (Tx := Tx) (Dat := Dat)).
Abbreviation jsonb := (ev_jsonb (sql_state := sql_state) (Tx := Tx) (Dat := Dat)).
Abbreviation rows_for := (rows_for (Tx := Tx) sql_state json_Marshal).
Context `{!EventCodec json_Marshal json_Unmarshal jsonb T_text s}.
Context (Hmarshal : forall e, exists d, json_Marshal e = Ok d).

Definition pg_store : AggregateEventStore W E :=
  {| es_Append := Append sql_state json_Marshal; es_Load := Load json_Unmarshal T_text s |}.
#[local] Existing Instance pg_store.

(** The rows of a stream, and the events that they are read as. *)
Definition stream_rows (w : W) (id : string) : list (event_row Dat) := ev_filter id (-1) (rows_in w).
Definition pg_stream (w : W) (id : string) : list E :=
  match read_rows json_Unmarshal T_text s (fun _ e => e) (map inl (stream_rows w id)) None with
  | Ok l => l | Err _ => [] end.
Definition pg_ok (w : W) : Prop := table_ok w /\ forall id,
  exists evts, rows_for 0 evts (stream_rows w id) /\ Forall (fun e => aggregate_id e = id) evts.

Lemma rows_for_app v a b x y :
  rows_for v a x -> rows_for (v + zlen a) b y -> rows_for v (a ++ b) (x ++ y).
Proof.
  revert v x. induction a as [|e a IH]; intros v [|r x]; cbn; try done.
  - by rewrite Z.add_0_r.
  - rewrite zlen_cons. intros [Hr Ha] Hb. split; [done|]. apply IH; [done|].
    by replace (v + 1 + zlen a)%Z with (v + (1 + zlen a))%Z by lia.
Qed.

(** The rows after a version are the rows without the first ones. *)
Lemma rows_for_drop n u a x :
  rows_for u a x ->
  rows_for (u + Z.of_nat (Nat.min n (length a))) (drop n a) (drop n x) /\
  List.filter (fun r => bool_decide (u + Z.of_nat n < er_version r)%Z) x = drop n x.
Proof.
  revert n u x. induction a as [|e a IH]; intros n u [|r x]; cbn; try done.
  - by rewrite !drop_nil.
  - intros [(d & Hd) Hr]. assert (er_version r = u + 1)%Z as Hv.
    { destruct Hd as (_ & _ & [= _ ->] & _). done. }
    destruct n as [|n]; cbn.
    + rewrite bool_decide_eq_true_2 by lia. split; [rewrite Z.add_0_r; by split; [exists d|]|].
      f_equal. destruct (IH 0 (u + 1)%Z x Hr) as [_ Hf]. rewrite drop_0 in Hf. rewrite <- Hf at 2.
      pose proof (rows_for_keys _ _ _ _ _ Hr) as Hk. destruct (new_versions_sorted (u + 1) a) as [_ Hall].
      rewrite <- Hk, map_map in Hall. clear -Hall.
      induction x as [|y x IHx]; [done|]. inversion Hall as [|? ? Hy Hx]; subst. cbn in *.
      rewrite !bool_decide_eq_true_2 by lia. f_equal. by apply IHx.
    + rewrite bool_decide_eq_false_2 by lia. destruct (IH n (u + 1)%Z x Hr) as [Hf1 Hf2].
      replace (u + Z.of_nat (S (Nat.min n (length a))))%Z with (u + 1 + Z.of_nat (Nat.min n (length a)))%Z by lia.
      replace (u + Z.of_nat (S n))%Z with (u + 1 + Z.of_nat n)%Z by lia. done.
Qed.

Lemma filter_after id v (l : list (event_row Dat)) : (-1 <= v)%Z ->
  ev_filter id v l = List.filter (fun r => bool_decide (v < er_version r)%Z) (ev_filter id (-1) l).
Proof.
  intros Hv. unfold ev_filter. induction l as [|r l IH]; [done|]. cbn [List.filter]. rewrite IH.
  destruct (decide (er_aggregate_id r = id)) as [He|He]; [|by rewrite !(bool_decide_eq_false_2 _ He)].
  rewrite !(bool_decide_eq_true_2 _ He). cbn [andb].
  destruct (decide (-1 < er_version r)%Z) as [Hr|Hr].
  - rewrite (bool_decide_eq_true_2 _ Hr). cbn [List.filter]. done.
  - rewrite (bool_decide_eq_false_2 _ Hr), bool_decide_eq_false_2 by lia. done.
Qed.

Lemma pg_stream_is w id evts : rows_for 0 evts (stream_rows w id) -> pg_stream w id = evts.
Proof.
  intros Hr. unfold pg_stream. rewrite (read_rows_for _ _ _ _ _ _ _ _ _ Hr).
  apply zip_with_snd. by eapply rows_for_length.
Qed.

Lemma pg_ok_same w w' : pg_ok w -> table_ok w' -> rows_in w' = rows_in w ->
  pg_ok w' /\ forall id, pg_stream w' id = pg_stream w id.
Proof.
  intros [_ Hok] Ht Hr. unfold pg_ok, pg_stream, stream_rows in *. by rewrite Hr.
Qed.

(** The versions of a stream in the table are those of its events. *)
Lemma stream_version w id evts r :
  rows_for 0 evts (stream_rows w id) -> r ∈ rows_in w -> er_aggregate_id r = id -> (0 <= er_version r)%Z ->
  (er_version r <= zlen evts)%Z.
Proof.
  intros Hr Hin Hid Hv. assert (r ∈ stream_rows w id) as Hs.
  { apply list_elem_of_In, List.filter_In. split; [by apply list_elem_of_In|].
    rewrite !bool_decide_eq_true_2 by (done || lia). done. }
  pose proof (rows_for_keys _ _ _ _ _ Hr) as Hk. destruct (new_versions_sorted 0 evts) as [_ Hf].
  rewrite <- Hk, map_map in Hf. eapply Forall_forall in Hf; [|by apply list_elem_of_fmap_2].
  cbn in Hf. lia.
Qed.

Lemma new_keys_elem id v evts x : Forall (fun e => aggregate_id e = id) evts ->
  x ∈ new_keys v evts -> x.1 = id /\ (v < x.2)%Z.
Proof.
  intros Hid. revert v. induction Hid as [|e evts He _ IH]; intros v; cbn; [by intros ?%elem_of_nil|].
  intros [->|Hin]%elem_of_cons; cbn; [split; [done|lia]|]. destruct (IH _ Hin). split; [done|lia].
Qed.

Lemma fresh_keys w id evts0 evts :
  pg_ok w -> rows_for 0 evts0 (stream_rows w id) -> Forall (fun e => aggregate_id e = id) evts ->
  NoDup (map ev_key (rows_in w) ++ new_keys (zlen evts0) evts).
Proof.
  intros [Hok _] Hr Hid. pose proof (zlen_nonneg evts0). apply NoDup_app. split; [by apply ev_unique|]. split.
  - intros x (r & -> & Hin)%list_elem_of_fmap Hnew.
    destruct (new_keys_elem _ _ _ _ Hid Hnew) as [H1 H2]. cbn in H1, H2.
    pose proof (stream_version w id evts0 r Hr Hin H1 ltac:(lia)). lia.
  - apply (NoDup_fmap_1 snd), new_versions_nodup.
Qed.

Lemma filter_new i id v evts new : (0 <= v)%Z ->
  rows_for v evts new -> Forall (fun e => aggregate_id e = id) evts ->
  ev_filter i (-1) new = if bool_decide (i = id) then new else [].
Proof.
  intros Hv Hf Hid. pose proof (rows_for_stream _ _ _ _ _ _ Hf Hid) as Hall. case_bool_decide as Hi.
  - apply ev_filter_all. eapply Forall_impl; [exact Hall|]. intros r [? ?]. split; [congruence|lia].
  - apply ev_filter_none. eapply Forall_impl; [exact Hall|]. intros r [? ?] ?. congruence.
Qed.

(** The first insert fails if its version exists. *)
Lemma append_stale ctx id v e evts w :
  pgTx ctx = None -> table_ok w -> (0 <= v < max_stream)%Z ->
  (aggregate_id e, v + 1)%Z ∈ map ev_key (rows_in w) ->
  exists err w', Append sql_state json_Marshal ctx id v (e :: evts) w = (Done (Some err), w') /\
    errors_Is (TDomain "CONCURRENCY") err = true /\ table_ok w' /\ rows_in w' = rows_in w.
Proof.
  intros Hc Hok Hv Hin. unfold Append, HasTransaction. unfold_go. rewrite (get_state_none _ _ Hc). cbv beta iota.
  destruct (ev_begin ctx w Hok) as (t & w1 & -> & [Hok1 Hc1] & Hs1). cbv beta iota. rewrite <- Hc1 in Hs1.
  unfold defer_run. cbn [appendEvents]. destruct (Hmarshal e) as [d ->].
  assert ((v +i 0) +i 1 = v + 1)%Z as ->.
  { rewrite (int_add_id v 0), int_add_id; unfold max_stream, in_int64, two63 in *; lia. }
  assert (0 <= v + 1 <= max_stream)%Z as Hv1 by lia. unfold_go.
  destruct (ev_insert_law t ctx w1 _ (AggregateID (MetadataOf e)) (EventNameOf e) d (OccurredAt (MetadataOf e))
    (v + 1) (CorrelationID (MetadataOf e)) (CausationID (MetadataOf e)) Hok1 Hs1 Hv1)
    as (w2 & [Hok2 Hc2] & Hins).
  rewrite bool_decide_eq_true_2 in Hins by (rewrite Hc1; exact Hin). destruct Hins as (err & -> & Hst).
  destruct (ev_rollback t w2 Hok2) as (e' & w3 & -> & Hok3 & Hc3).
  do 2 eexists. split; [reflexivity|]. split; [|split; [done|congruence]].
  unfold IsUniqueViolation. cbn [mbind option_bind]. by rewrite Hst.
Qed.

(** Every version of a stream is in the table. *)
Lemma version_exists id v z evts new : rows_for v evts new -> Forall (fun e => aggregate_id e = id) evts ->
  (v < z <= v + zlen evts)%Z -> (id, z) ∈ map ev_key new.
Proof.
  intros Hr Hid. rewrite (rows_for_keys _ _ _ _ _ Hr). clear Hr. revert v.
  induction Hid as [|e evts He _ IH]; intros v Hz; cbn; rewrite ?zlen_nil, ?zlen_cons in Hz; [lia|].
  apply elem_of_cons. destruct (decide (z = v + 1)%Z) as [->|]; [left; congruence|right; apply IH; lia].
Qed.

#[refine] Definition pg_laws : AggregateEventStoreLaws W E :=
  {| es_ok := pg_ok; es_usable ctx := pgTx ctx = None; es_stream := pg_stream |}.
Proof.
  - intros ctx w id evts Hok Hc Hid Hmax. pose proof Hok as [Ht Hst]. destruct (Hst id) as (e0 & H0 & Hid0).
    rewrite (pg_stream_is _ _ _ H0) in *. rewrite zlen_app in Hmax.
    destruct (append_run sql_state json_Marshal ctx id (zlen e0) evts w Hc Ht (zlen_nonneg e0) Hmax)
      as (err & w' & Ha & Ht' & Hres). destruct err as [err|].
    { destruct Hres as [_ Hno]. destruct Hno as [_ Hno]; [by apply Forall_true|].
      destruct Hno. by apply (fresh_keys w id). }
    destruct Hres as (new & Hr & Hf). exists w'. split; [exact Ha|].
    assert (forall i, exists a, rows_for 0 a (stream_rows w' i) /\ Forall (fun e => aggregate_id e = i) a /\
      a = if bool_decide (i = id) then pg_stream w i ++ evts else pg_stream w i) as Hall.
    { intros i. destruct (Hst i) as (a & Ha' & Hia). rewrite (pg_stream_is _ _ _ Ha').
      eexists. split; [|split; [|reflexivity]]; unfold stream_rows;
        rewrite ?Hr, ?ev_filter_app, ?(filter_new i id (zlen e0) evts new (zlen_nonneg e0) Hf Hid);
        case_bool_decide as Hi; rewrite ?app_nil_r; try done.
      - subst i. apply rows_for_app; [exact Ha'|]. rewrite Z.add_0_l.
        by rewrite <- (pg_stream_is _ _ _ Ha'), (pg_stream_is _ _ _ H0).
      - subst i. by apply Forall_app. }
    split; [split; [done|]|].
    + intros i. destruct (Hall i) as (a & ? & ? & _). by exists a.
    + intros i. destruct (Hall i) as (a & Ha' & _ & ->). by rewrite (pg_stream_is _ _ _ Ha').
  - intros ctx w id v evts Hok Hc Hid Hne Hv Hmax. pose proof Hok as [Ht Hst].
    destruct (Hst id) as (e0 & H0 & Hid0). rewrite (pg_stream_is _ _ _ H0) in *.
    destruct Hid as [|e evts He Hid]; [done|].
    destruct (append_stale ctx id v e evts w Hc Ht ltac:(lia)) as (err & w' & Ha & Hcon & Ht' & Hr).
    { pose proof (version_exists id 0 (v + 1) e0 _ H0 Hid0 ltac:(lia)) as Hin. rewrite He.
      apply list_elem_of_fmap in Hin as (r & -> & Hin). apply list_elem_of_fmap_2.
      apply list_elem_of_In, List.filter_In in Hin as [Hin _]. by apply list_elem_of_In. }
    exists err, w'. split; [exact Ha|]. split; [done|].
    destruct (pg_ok_same w w' Hok Ht' Hr) as [Hok' Hsame]. split; [done|].
    intros i. rewrite Hsame, app_nil_r. by case_bool_decide.
  - intros ctx w id v Hok Hc Hv. pose proof Hok as [Ht Hst]. destruct (Hst id) as (e0 & H0 & _).
    rewrite (pg_stream_is _ _ _ H0).
    destruct (rows_for_drop (Z.to_nat v) 0 e0 _ H0) as [Hd Hf].
    replace (0 + Z.of_nat (Z.to_nat v))%Z with v in Hf by lia. unfold stream_rows in Hf at 1.
    rewrite <- filter_after in Hf by lia.
    destruct (load_rows sql_state json_Marshal json_Unmarshal T_text s ctx id v _ _ _ w Hc Ht Hf Hd) as (w' & Hl & Ht' & Hr).
    exists w'. split; [exact Hl|]. destruct (pg_ok_same w w' Hok Ht' Hr) as [Hok' Hsame]. split; [done|].
    intros i. rewrite Hsame, app_nil_r. by case_bool_decide.
Defined.

Lemma pg_loads_from_start : LoadsFromStart W E (H := pg_laws).
Proof.
  intros ctx w id Hok Hc. pose proof Hok as [Ht Hst]. destruct (Hst id) as (e0 & H0 & _).
  change (es_stream w id) with (pg_stream w id). rewrite (pg_stream_is _ _ _ H0).
  destruct (load_rows sql_state json_Marshal json_Unmarshal T_text s ctx id (-1) 0 e0 _ w Hc Ht eq_refl H0)
    as (w' & Hl & Ht' & Hr).
  exists w'. split; [exact Hl|]. destruct (pg_ok_same w w' Hok Ht' Hr) as [Hok' Hsame]. split; [done|].
  intros i. cbn. rewrite Hsame, app_nil_r. by case_bool_decide.
Qed.
End Interface.

(** ** Properties *)

(** C12: Appending to the PostgreSQL store outside a transaction is atomic: it returns, and either
    every event has become a row, in order, under its own aggregate at the versions after the
    expected one, or the table is unchanged. If the events can be marshalled it fails exactly if one
    of those versions exists, with a concurrency error. What was appended to the end of a
    stream is what loading from there gives. (A version beyond the end of the stream is accepted.) *)
Theorem pg_append_atomic {W Tx Dat P E} `{!Event E}
    `{!SqlDB W Tx, !Has (tx_states Tx) W, !EventTable W Tx Dat} (sql_state : goerr -> option string)
    `{!EventTableLaws W Tx Dat sql_state}
    (json_Marshal : E -> result Dat) (json_Unmarshal : Dat -> P -> result E) T_text (s : PgEventSourceStore P)
    `{!EventCodec json_Marshal json_Unmarshal (ev_jsonb (sql_state := sql_state) (Tx := Tx)) T_text s}
    ctx id v (evts : list E) (w : W) :
  let ok := ev_ok (sql_state := sql_state) (Tx := Tx) (Dat := Dat) in
  let rows := ev_committed (sql_state := sql_state) (Tx := Tx) (Dat := Dat) in
  pgTx ctx = None -> ok w -> (0 <= v)%Z -> (v + zlen evts <= max_stream)%Z ->
  exists err w', Append sql_state json_Marshal ctx id v evts w = (Done err, w') /\ ok w' /\
    match err with
    | None => exists new, rows w' = rows w ++ new /\
        rows_for sql_state json_Marshal (Tx := Tx) v evts new /\
        (Forall (fun e => aggregate_id e = id) evts -> ev_filter id v (rows w) = [] ->
         exists w2, Load json_Unmarshal T_text s ctx id v w' = (Done (Ok evts), w2))
    | Some _ => rows w' = rows w
    end /\
    (Forall (fun e => exists d, json_Marshal e = Ok d) evts ->
     (err = None <-> NoDup (map ev_key (rows w) ++ new_keys v evts)) /\
     (err <> None -> Is err (TDomain "CONCURRENCY") = true)).
Proof.
  intros ok rows Hc Hok Hv Hmax.
  destruct (append_run sql_state json_Marshal ctx id v evts w Hc Hok Hv Hmax) as (err & w' & Ha & Hok' & Hres).
  exists err, w'. split; [exact Ha|]. split; [exact Hok'|]. destruct err as [err|].
  - destruct Hres as [Hr Hcon]. split; [exact Hr|]. intros Hall. destruct (Hcon Hall) as [Hc' Hn].
    split; [split; [done|intros Hnd; by destruct (Hn Hnd)]|done].
  - destruct Hres as (new & Hr & Hf). split.
    + exists new. split; [exact Hr|]. split; [exact Hf|]. intros Hid Hend.
      destruct (load_rows sql_state json_Marshal json_Unmarshal T_text s ctx id v v evts new w' Hc Hok') as (w2 & Hl & _);
        [|exact Hf|by exists w2].
      fold rows in Hr. unfold rows in Hr. rewrite Hr, ev_filter_app. fold rows. rewrite Hend. cbn.
      apply ev_filter_all. by eapply rows_for_stream.
    + intros _. split; [|done]. split; [|done]. intros _.
      rewrite <- (rows_for_keys _ _ _ _ _ Hf), <- map_app. unfold rows. rewrite <- Hr. by apply ev_unique.
Qed.

(** ** A concrete database *)
Module DemoPgEventStore.
Import DemoEventStore.

Record world := mkWorld {
  rows : list (event_row ev);
  sessions : list (option (list (event_row ev)));
  txs : tx_states nat }.

#[export] Instance demo_txs : Has (tx_states nat) world :=
  { part := txs; set_part t w := mkWorld (rows w) (sessions w) t }.

Definition demo_session (t : nat) (w : world) : option (list (event_row ev)) :=
  default None (sessions w !! t).
Definition set_session (t : nat) (x : option (list (event_row ev))) (w : world) : world :=
  mkWorld (rows w) (<[t := x]> (sessions w)) (txs w).
Definition dup : goerr := ENew "duplicate key".
Definition tx_done : goerr := ENew "sql: transaction has already been committed or rolled back".
Definition demo_state (e : goerr) : option string :=
  match e with ENew "duplicate key" => Some "23505" | _ => None end.

#[export] Instance demo_db : SqlDB world nat := {
  db_BeginTx _ := fun w =>
    (Done (inl (length (sessions w))), mkWorld (rows w) (sessions w ++ [Some (rows w)]) (txs w));
  db_ExecContext _ _ := mret None;
  tx_ExecContext _ _ _ := mret None;
  tx_CommitTx t := fun w =>
    match demo_session t w with
    | Some rs => (Done None, set_session t None (mkWorld rs (sessions w) (txs w)))
    | None => (Done (Some tx_done), w)
    end;
  tx_RollbackTx t := fun w =>
    match demo_session t w with
    | Some _ => (Done None, set_session t None w)
    | None => (Done (Some tx_done), w)
    end }.

(** Ids grow with the rows. *)
Definition next_id (rs : list (event_row ev)) : Z := foldr (fun r n => Z.max (er_id r + 1) n) 1%Z rs.

(** Insertion sort by version. *)
Definition by_version (rs : list (event_row ev)) : list (event_row ev) :=
  insertion_sort (fun a b => bool_decide (er_version a < er_version b)%Z) rs.

#[export] Instance demo_table : EventTable world nat ev := {
  ev_insert q _ id ty d oc v co ca := fun w =>
    match q ≫= fun t => rs ← demo_session t w; Some (t, rs) with
    | Some (t, rs) =>
        if bool_decide ((id, v) ∈ map ev_key rs) then (Done (Some dup), set_session t None w)
        else (Done None, set_session t (Some (rs ++ [mkEventRow (next_id rs) id ty d oc v co ca])) w)
    | None => (Done (Some tx_done), w)
    end;
  ev_select _ _ id v := fun w => (Done (inl (map inl (by_version (ev_filter id v (rows w))), None)), w);
  ev_select_all _ _ p n := fun w =>
    let rs := List.filter (fun r => bool_decide (p < er_id r)%Z) (rows w) in
    (Done (inl (map inl (match n with Some n => take (Z.to_nat n) rs | None => rs end), None)), w) }.

Lemma next_id_bound rs : Forall (fun r => er_id r < next_id rs)%Z rs.
Proof.
  induction rs as [|r rs IH]; [constructor|].
  change (next_id (r :: rs)) with (Z.max (er_id r + 1) (next_id rs)). constructor; [lia|].
  eapply Forall_impl; [exact IH|]. intros r' Hr. cbn in Hr. lia.
Qed.

Lemma by_version_sorted rs : Sorted Z.le (map er_version (by_version rs)).
Proof.
  assert (Sorted (fun x y => bool_decide (er_version y < er_version x)%Z = false) (by_version rs)) as Hs.
  { apply (sort_slice_sorted (H := insertion_sort_slice)). split; [|split]; intros *;
      rewrite ?bool_decide_eq_true, ?bool_decide_eq_false; lia. }
  induction Hs as [|r l _ IH Hd]; cbn; constructor; [done|].
  destruct Hd as [|r' l Hr]; constructor. apply bool_decide_eq_false in Hr. lia.
Qed.

Lemma demo_session_set t x w y : demo_session t w = Some y -> demo_session t (set_session t x w) = x.
Proof.
  unfold demo_session, set_session. cbn. intros H. destruct (sessions w !! t) eqn:Ht; [|done].
  by rewrite list_lookup_insert_eq by (by eapply lookup_lt_Some).
Qed.

#[export] Program Instance demo_laws : EventTableLaws world nat ev demo_state := {
  ev_ok w := NoDup (map ev_key (rows w));
  ev_committed := rows;
  ev_session := demo_session;
  ev_jsonb d := d }.
Next Obligation. done. Qed.
Next Obligation.
  intros ctx w Hok. do 2 eexists. split; [reflexivity|]. split; [done|].
  unfold demo_session. cbn. by rewrite list_lookup_middle.
Qed.
Next Obligation.
  intros t ctx w rs id ty d oc v co ca Hok Hs _. cbn [ev_insert demo_table].
  cbn [mbind option_bind]. rewrite Hs. cbn [mbind option_bind]. case_bool_decide.
  - exists (set_session t None w). split; [by split|]. by exists dup.
  - eexists (set_session t (Some _) w). split; [by split|]. exists (next_id rs), oc.
    split; [apply next_id_bound|]. split; [done|]. by eapply demo_session_set.
Qed.
Next Obligation.
  intros t w rs Hok Hs Hnd. cbn. rewrite Hs. eexists. split; [reflexivity|]. by split.
Qed.
Next Obligation. intros t w Hok. cbn. destruct (demo_session t w); do 2 eexists; (split; [reflexivity|]); by split. Qed.
Next Obligation.
  intros ctx w id v Hok. do 2 eexists. split; [reflexivity|]. split; [by split|]. split.
  - apply (sort_slice_perm (H := insertion_sort_slice)).
  - apply by_version_sorted.
Qed.
End DemoPgEventStore.
Import DemoEventStore DemoPgEventStore.

(** Two appends at one version: the second one, in part overlapping, changes nothing. *)
Lemma pg_append_atomic_witness :
  let s := mkPgStore (Some tt) None None in
  let marshal := fun e : ev => Ok e : result ev in
  let unmarshal := fun (e : ev) (_ : unit) => Ok e : result ev in
  let evts := [mkEv "a" 1; mkEv "a" 2] in
  let w0 := mkWorld [] [] [] in
  exists w1, Append demo_state marshal Background "a" 0 evts w0 = (Done None, w1) /\
    (exists w2, Load unmarshal "*ev" s Background "a" 0 w1 = (Done (Ok evts), w2)) /\
    exists err w2, Append demo_state marshal Background "a" 1 evts w1 = (Done (Some err), w2) /\
      errors_Is (TDomain "CONCURRENCY") err = true /\ rows w2 = rows w1.
Proof.
  intros s marshal unmarshal evts w0.
  assert (EventCodec marshal unmarshal (ev_jsonb (sql_state := demo_state) (Tx := nat)) "*ev" s) as Hcodec.
  { intros e d [= <-]. by exists tt. }
  assert (Forall (fun e => exists d, marshal e = Ok d) evts) as Hall by (repeat constructor; by eexists).
  destruct (pg_append_atomic (EventTableLaws0 := demo_laws) demo_state marshal unmarshal "*ev" s Background "a" 0 evts w0
    eq_refl (NoDup_nil_2 : NoDup (map ev_key (rows w0))) ltac:(lia) ltac:(vm_compute; discriminate)) as (err & w1 & H1 & Hok & H2 & H3).
  assert (err = None) as ->.
  { apply (H3 Hall). apply (bool_decide_unpack (NoDup _)). vm_compute. exact I. }
  destruct H2 as (new & _ & _ & Hl). exists w1. split; [exact H1|]. split; [apply Hl; [by repeat constructor|done]|].
  injection H1 as <-.
  destruct (pg_append_atomic (EventTableLaws0 := demo_laws) demo_state marshal unmarshal "*ev" s Background "a" 1 evts _
    eq_refl Hok ltac:(lia) ltac:(vm_compute; discriminate)) as (err & w2 & H4 & _ & H5 & H6).
  destruct err as [err|].
  - exists err, w2. split; [exact H4|]. split; [by apply (H6 Hall)|exact H5].
  - exfalso. assert (NoDup [("a", 1%Z); ("a", 2%Z); ("a", 2%Z); ("a", 3%Z)]) as Hnd
      by (apply (proj1 (proj1 (H6 Hall)) eq_refl)).
    inversion Hnd as [|? ? _ Hnd']; subst. inversion Hnd' as [|? ? Hx _]; subst. apply Hx. left.
Defined.
