(* ===== verification/PgRepository.v ===== *)
(** * The PostgreSQL repositories: [src/infra/repository/pg/repository.go]

    Snapshots of aggregates in the table [ddd_aggregate_snapshots], for the CRUD
    repository, and event streams with a snapshot every so many versions for the
    event-sourced one. The statements on the table are a parameter,
    [SnapshotTable]; [SnapshotTableLaws] is what PostgreSQL documents of them.

    Reference for the event-sourced repository: one that has no snapshots. *)

From S2P Require Import Prelude Errors Trace Pg Aggregate EventStore EventLog Repository.
From S2P Require Import Entity.

(** ** The statements *)

Class SnapshotTable (W Tx Dat : Type) := {
  (** [INSERT INTO ddd_aggregate_snapshots (aggregate_id, aggregate_type, snapshot_data, version, updated_at) ...] *)
  snap_insert : option Tx -> context -> string -> string -> Dat -> Z -> Z -> GoM W (sql_result + goerr);
  (** [UPDATE ... SET snapshot_data, version, updated_at WHERE aggregate_id AND aggregate_type AND version] *)
  snap_update : option Tx -> context -> string -> string -> Dat -> Z -> Z -> Z -> GoM W (sql_result + goerr);
  (** [SELECT snapshot_data, version ... WHERE aggregate_id AND aggregate_type] and [Scan] *)
  snap_select : option Tx -> context -> string -> string -> GoM W (Dat * Z + goerr);
  (** [DELETE ... WHERE aggregate_id AND aggregate_type] *)
  snap_delete : option Tx -> context -> string -> string -> GoM W (sql_result + goerr) }.

Section Operations.
Context {W Tx T E Dat : Type} `{!AggregateRef T E, !Event E}.
Context `{!Has (tx_states Tx) W, !Clock W, !SnapshotTable W Tx Dat, !AggregateEventStore W E}.
Context (sql_state : goerr -> option string).

Abbreviation querier := (GetQuerier (Tx := Tx)).
Definition at_snapshot (v : Z) (a : T) : T := put_root (SetSnapshotVersion v (root a)) a.

Definition lock_error (id : string) (v : Z) : goerr := EOptimisticLock id v false.

(** The two statements that [Save] and [saveSnapshot] choose from. *)
Definition write_snapshot (q : option Tx) (ctx : context) (typeName : string) (data : Dat)
    (a : T) : GoM W (T * error) :=
  let id := ID (root a) in
  let snapshotVersion := SnapshotVersion (root a) in
  let newVersion := Version (root a) in
  if bool_decide (snapshotVersion < 0)%Z then
    t ← time_now;
    res ← snap_insert q ctx id typeName data newVersion t;
    match res with
    | inr err => mret (a, Some (if IsUniqueViolation sql_state (Some err)
                                then lock_error id snapshotVersion else err))
    | inl n =>
        if bool_decide ((match n with inl n => n | inr _ => 0 end) = 0)%Z
        then mret (a, Some (lock_error id snapshotVersion))
        else mret (at_snapshot newVersion a, None)
    end
  else
    t ← time_now;
    res ← snap_update q ctx id typeName data newVersion t snapshotVersion;
    match res with
    | inr err => mret (a, Some err)
    | inl (inr err) => mret (a, Some (EWrap "check rows affected: " err ""))
    | inl (inl n) =>
        if bool_decide (n = 0)%Z then mret (a, Some (lock_error id snapshotVersion))
        else mret (at_snapshot newVersion a, None)
    end.

(** *** [PgRepository] *)

Record PgRepository := mkPgRepo {
  repo_serializer : SnapshotSerializer T Dat;
  repo_typeName : string }.

(** [T_name] is what [reflect] says of the type; [json] is the default serializer. *)
Definition NewRepository (json : SnapshotSerializer T Dat) (T_name : string)
    (opts : list (SnapshotSerializer T Dat)) : PgRepository :=
  mkPgRepo (default json (last opts)) T_name.

(** The aggregate is the caller's after the call. *)
Definition Save (r : PgRepository) (ctx : context) (a : T) : GoM W (T * error) :=
  q ← querier ctx;
  match Serialize (repo_serializer r) a with
  | Err err => mret (a, Some (EWrap "serialize aggregate: " err ""))
  | Ok data => write_snapshot q ctx (repo_typeName r) data a
  end.

Definition FindByID (r : PgRepository) (ctx : context) (id : string) : GoM W (result T) :=
  q ← querier ctx;
  row ← snap_select q ctx id (repo_typeName r);
  match row with
  | inr err => if is_no_rows err then mret (Err (not_found id)) else mret (Err err)
  | inl (data, version) =>
      match Deserialize (repo_serializer r) data with
      | Err err => mret (Err (EWrap "deserialize aggregate: " err ""))
      | Ok a => mret (Ok (at_snapshot version a))
      end
  end.

Definition Delete (r : PgRepository) (ctx : context) (id : string) : GoM W error :=
  q ← querier ctx;
  res ← snap_delete q ctx id (repo_typeName r);
  match res with
  | inr err => mret (Some err)
  | inl (inr err) => mret (Some (EWrap "check rows affected: " err ""))
  | inl (inl n) => mret (if bool_decide (n = 0)%Z then Some (not_found id) else None)
  end.

(** *** [PgEventSourcedRepository] *)

Record PgEventSourcedRepository := mkPgESRepo {
  reconstructor : string -> T;
  es_serializer : SnapshotSerializer T Dat;
  es_typeName : string;
  snapshotEvery : Z }.

Inductive EventSourcedRepoOption :=
| WithSnapshotEvery (n : Z)
| WithSerializer (s : SnapshotSerializer T Dat).

Definition apply_es_option (r : PgEventSourcedRepository) (o : EventSourcedRepoOption) :=
  match o with
  | WithSnapshotEvery n => mkPgESRepo (reconstructor r) (es_serializer r) (es_typeName r) n
  | WithSerializer s => mkPgESRepo (reconstructor r) s (es_typeName r) (snapshotEvery r)
  end.

Definition NewEventSourcedRepository (json : SnapshotSerializer T Dat) (T_name : string)
    (recon : string -> T) (opts : list EventSourcedRepoOption) : PgEventSourcedRepository :=
  fold_left apply_es_option opts (mkPgESRepo recon json T_name 10).

Definition saveSnapshot (r : PgEventSourcedRepository) (ctx : context) (a : T) : GoM W (T * error) :=
  q ← querier ctx;
  match Serialize (es_serializer r) a with
  | Err err => mret (a, Some err)
  | Ok data => write_snapshot q ctx (es_typeName r) data a
  end.

Definition loadSnapshot (r : PgEventSourcedRepository) (ctx : context) (id : string) :
    GoM W (Dat * Z + goerr) :=
  q ← querier ctx; snap_select q ctx id (es_typeName r).

Definition snapshot_due (r : PgEventSourcedRepository) (v : Z) : bool :=
  bool_decide (0 < snapshotEvery r)%Z && bool_decide (Z.rem v (snapshotEvery r) = 0)%Z.

Definition ES_Save (r : PgEventSourcedRepository) (ctx : context) (a : T) : GoM W (T * error) :=
  let domainEvents := UncommittedEvents (root a) in
  if bool_decide (zlen domainEvents = 0)%Z then mret (a, None)
  else
    e ← es_Append ctx (ID (root a)) (Version (root a) -i zlen domainEvents) domainEvents;
    match e with
    | Some err => mret (a, Some (EWrap "append events: " err ""))
    | None =>
        '(a, e) ← (if snapshot_due r (Version (root a)) then saveSnapshot r ctx a
                   else mret (a, None));
        match e with
        | Some err => mret (a, Some (EWrap "save snapshot: " err ""))
        | None => mret (committed a, None)
        end
    end.

(** The aggregate that [Load] returns beside an error is kept, as in the code. *)
Definition ES_Load (r : PgEventSourcedRepository) (ctx : context) (id : string) :
    GoM W (T * error) :=
  snap ← loadSnapshot r ctx id;
  match (match snap with
         | inr _ => Ok (reconstructor r id, (-1)%Z)
         | inl (data, version) =>
             match Deserialize (es_serializer r) data with
             | Err err2 => Err err2
             | Ok a => Ok (at_snapshot version a, version)
             end
         end) with
  | Err err2 => mret (reconstructor r id,
                      Some (EWrap ("deserialize snapshot for aggregate " +:+ id +:+ ": ") err2 ""))
  | Ok (a, snapshotVersion) =>
      events ← (es_Load ctx id snapshotVersion : GoM W (result (list E)));
      match events with
      | Err err => mret (a, Some (EWrap ("load events for aggregate " +:+ id +:+ ": ") err ""))
      | Ok events =>
          if bool_decide (zlen events = 0)%Z && bool_decide (snapshotVersion < 0)%Z
          then mret (a, Some (not_found id))
          else match LoadFromHistory a events with
               | (a, Some err) =>
                   mret (a, Some (EWrap ("load from history for aggregate " +:+ id +:+ ": ") err ""))
               | (a, None) => mret (a, None)
               end
      end
  end.
End Operations.
Arguments PgRepository : clear implicits.
Arguments PgEventSourcedRepository : clear implicits.

(** ** What PostgreSQL documents of the table

    [aggregate_id] is the primary key ([src/pg/migrate.go]); a row has the type, the
    data and the version, an INT. The laws hold in the states [snap_ok] and the
    contexts [snap_usable], as long as no statement fails for another reason;
    [snap_only w w'] says that nothing outside the table changed. *)

Abbreviation row Dat := (string * Dat * Z)%type (only parsing).

Class SnapshotTableLaws (W Tx Dat : Type) (sql_state : goerr -> option string)
    `{!Has (tx_states Tx) W, !Clock W, !SnapshotTable W Tx Dat} := {
  snap_ok : W -> Prop;
  snap_usable : context -> Prop;
  snap_rows : W -> gmap string (row Dat);
  snap_only : W -> W -> Prop;
  snap_leads (w w' : W) (rows : gmap string (row Dat)) : Prop :=
    snap_ok w' /\ snap_rows w' = rows /\ snap_only w w';
  snap_only_trans : forall w1 w2 w3, snap_only w1 w2 -> snap_only w2 w3 -> snap_only w1 w3;
  snap_only_tx : forall w w' ctx, snap_only w w' -> querier_at (Tx := Tx) ctx w' = querier_at ctx w;
  snap_clock : forall w, snap_ok w -> exists t w', now w = (t, w') /\ snap_leads w w' (snap_rows w);
  snap_insert_law : forall ctx w id ty d v t, snap_ok w -> snap_usable ctx -> (0 <= v <= max_stream)%Z ->
    exists w', match snap_rows w !! id with
      | None => snap_insert (querier_at ctx w) ctx id ty d v t w = (Done (inl (inl 1%Z)), w') /\
                snap_leads w w' (<[id := (ty, d, v)]> (snap_rows w))
      | Some _ => exists e, snap_insert (querier_at ctx w) ctx id ty d v t w = (Done (inr e), w') /\
                  sql_state e = Some "23505" /\ snap_leads w w' (snap_rows w)
      end;
  snap_update_law : forall ctx w id ty d v t old, snap_ok w -> snap_usable ctx -> (0 <= v <= max_stream)%Z ->
    exists w', match snap_rows w !! id with
      | Some (ty', _, v') =>
          if bool_decide (ty' = ty /\ v' = old)
          then snap_update (querier_at ctx w) ctx id ty d v t old w = (Done (inl (inl 1%Z)), w') /\
               snap_leads w w' (<[id := (ty, d, v)]> (snap_rows w))
          else snap_update (querier_at ctx w) ctx id ty d v t old w = (Done (inl (inl 0%Z)), w') /\
               snap_leads w w' (snap_rows w)
      | None => snap_update (querier_at ctx w) ctx id ty d v t old w = (Done (inl (inl 0%Z)), w') /\
                snap_leads w w' (snap_rows w)
      end;
  snap_select_law : forall ctx w id ty, snap_ok w -> snap_usable ctx ->
    exists w', snap_leads w w' (snap_rows w) /\
      snap_select (querier_at ctx w) ctx id ty w =
        (Done (match snap_rows w !! id with
               | Some (ty', d, v) => if bool_decide (ty' = ty) then inl (d, v) else inr sql_ErrNoRows
               | None => inr sql_ErrNoRows
               end), w');
  snap_delete_law : forall ctx w id ty, snap_ok w -> snap_usable ctx ->
    exists w', match snap_rows w !! id with
      | Some (ty', _, _) =>
          if bool_decide (ty' = ty)
          then snap_delete (querier_at ctx w) ctx id ty w = (Done (inl (inl 1%Z)), w') /\
               snap_leads w w' (delete id (snap_rows w))
          else snap_delete (querier_at ctx w) ctx id ty w = (Done (inl (inl 0%Z)), w') /\
               snap_leads w w' (snap_rows w)
      | None => snap_delete (querier_at ctx w) ctx id ty w = (Done (inl (inl 0%Z)), w') /\
                snap_leads w w' (snap_rows w)
      end }.

(** The reference: a compare-and-swap on the rows. [sv] is the version the writer
    started from, negative if it found no row. *)
Definition swap_row {Dat} (rows : gmap string (row Dat)) (id ty : string) (d : Dat) (v sv : Z) :
    option (gmap string (row Dat)) :=
  if bool_decide (sv < 0)%Z then
    match rows !! id with None => Some (<[id := (ty, d, v)]> rows) | Some _ => None end
  else
    match rows !! id with
    | Some (ty', _, v') => if bool_decide (ty' = ty /\ v' = sv) then Some (<[id := (ty, d, v)]> rows) else None
    | None => None
    end.

Section TableLemmas.
Context {W Tx T E Dat : Type} `{!AggregateRef T E, !AggregateRefLaws T E}.
Context (sql_state : goerr -> option string).
Context `{!Has (tx_states Tx) W, !Clock W, !SnapshotTable W Tx Dat}.
Context `{!SnapshotTableLaws W Tx Dat sql_state}.
Abbreviation rows_of := (snap_rows (sql_state := sql_state) (Tx := Tx) (Dat := Dat)).
Abbreviation table_ok := (snap_ok (sql_state := sql_state) (Tx := Tx) (Dat := Dat)).
Abbreviation usable := (snap_usable (sql_state := sql_state) (Tx := Tx) (Dat := Dat)).
Abbreviation leads := (snap_leads (sql_state := sql_state) (Tx := Tx) (Dat := Dat)).

Lemma write_snapshot_run ctx (w : W) ty d (a : T) :
  table_ok w -> usable ctx -> (0 <= Version (root a) <= max_stream)%Z ->
  let id := ID (root a) in let sv := SnapshotVersion (root a) in
  let swapped := swap_row (rows_of w) id ty d (Version (root a)) sv in
  exists w', write_snapshot sql_state (querier_at (Tx := Tx) ctx w) ctx ty d a w =
      (Done (match swapped with
             | Some _ => (at_snapshot (Version (root a)) a, None)
             | None => (a, Some (lock_error id sv))
             end), w') /\
    leads w w' (default (rows_of w) swapped).
Proof.
  intros Hok Hu Hv id sv swapped. unfold write_snapshot. fold id sv.
  destruct (snap_clock (Tx := Tx) (Dat := Dat) w Hok) as (t & w1 & Hn & Hok1 & Hr1 & Ho1).
  unfold swapped, swap_row.
  destruct (decide (sv < 0)%Z) as [Hsv|Hsv];
    [rewrite !bool_decide_eq_true_2 by done|rewrite !bool_decide_eq_false_2 by done];
    unfold_go; rewrite Hn; cbv beta iota;
    rewrite <- (snap_only_tx w w1 ctx Ho1), <- Hr1.
  - destruct (snap_insert_law ctx w1 id ty d (Version (root a)) t Hok1 Hu Hv) as (w2 & H2).
    exists w2. destruct (rows_of w1 !! id) as [rw|].
    + destruct H2 as (e & -> & He & Hok2 & Hr2 & Ho2). unfold IsUniqueViolation. cbn [mbind option_bind]. rewrite He. cbn.
      split; [done|]. split; [done|]. split; [done|]. by eapply snap_only_trans.
    + destruct H2 as (-> & Hok2 & Hr2 & Ho2). split; [done|].
      split; [done|]. split; [done|]. by eapply snap_only_trans.
  - destruct (snap_update_law ctx w1 id ty d (Version (root a)) t sv Hok1 Hu Hv) as (w2 & H2).
    exists w2. destruct (rows_of w1 !! id) as [[[ty' d'] v']|]; [case_bool_decide|];
      destruct H2 as (-> & Hok2 & Hr2 & Ho2); (split; [done|]); (split; [done|]);
      (split; [done|]); by eapply snap_only_trans.
Qed.
End TableLemmas.

(** ** A client program of the event-sourced repository

    Clients hold aggregates in variables, apply events to them and save them, in any
    interleaving. A client that could not apply an event drops the aggregate. *)
Inductive client_op (E : Type) :=
| CNew (c : nat) (id : string)
| CLoad (c : nat) (id : string)
| CApply (c : nat) (e : E)
| CSave (c : nat).
Arguments CNew {E} c id.
Arguments CLoad {E} c id.
Arguments CApply {E} c e.
Arguments CSave {E} c.

Inductive client_out := ODone | OFailed (err : goerr) | OConflict | OSaveFailed.

Definition save_out (e : error) : client_out :=
  match e with
  | None => ODone
  | Some err => if errors_Is (TDomain "CONCURRENCY") err then OConflict else OSaveFailed
  end.

Section Client.
Context {W Tx T E Dat : Type} `{!AggregateRef T E, !Event E}.
Context `{!Has (tx_states Tx) W, !Clock W, !SnapshotTable W Tx Dat, !AggregateEventStore W E}.
Context (sql_state : goerr -> option string) (r : PgEventSourcedRepository T Dat) (ctx : context).

Abbreviation vars := (gmap nat T).

(** What the variables hold after an operation on one of them. *)
Definition apply_op {S} (c : nat) (e : E) : GoM (vars * S) client_out := fun '(vs, s) =>
  match vs !! c with
  | Some a =>
      if bool_decide (aggregate_id e = ID (root a)) then
        match ApplyChange a e with
        | (a, None) => (Done ODone, (<[c := a]> vs, s))
        | (_, Some err) => (Done (OFailed err), (delete c vs, s))
        end
      else go_panic "not an event of this aggregate" (vs, s)
  | None => go_panic "no such variable" (vs, s)
  end.

Definition impl_step (o : client_op E) : GoM (vars * W) client_out := fun '(vs, w) =>
  match o with
  | CNew c id => (Done ODone, (<[c := reconstructor r id]> vs, w))
  | CLoad c id =>
      match ES_Load (Tx := Tx) r ctx id w with
      | (Done (a, None), w) => (Done ODone, (<[c := a]> vs, w))
      | (Done (_, Some err), w) => (Done (OFailed err), (vs, w))
      | (Panicked why, w) => (Panicked why, (vs, w))
      end
  | CApply c e => apply_op c e (vs, w)
  | CSave c =>
      match vs !! c with
      | Some a =>
          match ES_Save (Tx := Tx) sql_state r ctx a w with
          | (Done (a, e), w) => (Done (save_out e), (<[c := a]> vs, w))
          | (Panicked why, w) => (Panicked why, (vs, w))
          end
      | None => go_panic "no such variable" (vs, w)
      end
  end.

(** The reference has the streams and no snapshots: a load replays the whole stream,
    a save appends if nobody else did since the load. *)
Abbreviation streams := (gmap string (list E)).

Definition spec_load (id : string) (log : streams) : T * error :=
  match mget [] log id with
  | [] => (reconstructor r id, Some (not_found id))
  | l => match LoadFromHistory (reconstructor r id) l with
         | (a, Some err) => (a, Some (EWrap ("load from history for aggregate " +:+ id +:+ ": ") err ""))
         | (a, None) => (a, None)
         end
  end.

Definition spec_step (o : client_op E) : GoM (vars * streams) client_out := fun '(vs, log) =>
  match o with
  | CNew c id => (Done ODone, (<[c := reconstructor r id]> vs, log))
  | CLoad c id =>
      match spec_load id log with
      | (a, None) => (Done ODone, (<[c := a]> vs, log))
      | (_, Some err) => (Done (OFailed err), (vs, log))
      end
  | CApply c e => apply_op c e (vs, log)
  | CSave c =>
      match vs !! c with
      | Some a =>
          let id := ID (root a) in
          let evs := UncommittedEvents (root a) in
          if bool_decide (evs = []) then (Done ODone, (vs, log))
          else if bool_decide (ExpectedVersion (root a) = zlen (mget [] log id))
          then (Done ODone, (<[c := committed a]> vs, <[id := mget [] log id ++ evs]> log))
          else (Done OConflict, (vs, log))
      | None => go_panic "no such variable" (vs, log)
      end
  end.

Fixpoint run {S} (step : client_op E -> GoM S client_out) (ops : list (client_op E)) :
    GoM S (list client_out) :=
  match ops with
  | [] => mret []
  | o :: ops => out ← step o; outs ← run step ops; mret (out :: outs)
  end.
End Client.

(** ** Replaying *)

Section Replay.
Context {T E : Type} `{!AggregateRef T E, !AggregateRefLaws T E, !Event E}.
Implicit Types (a x y : T) (q : AggregateRoot E) (l k : list E).

(** The aggregate without its snapshot version, and as a replay leaves it. *)
Definition forget a : T :=
  let q := root a in put_root (mkRoot (root_entity q) (version q) (-1) (uncommittedEvents q)) a.
Definition replayed a : T :=
  let q := root a in put_root (mkRoot (root_entity q) (version q) (-1) []) a.

Lemma root_put_eq q a : root (put_root q a) = q.
Proof. apply root_put. Qed.
Lemma put_put_eq q q' a : put_root q (put_root q' a) = put_root q a.
Proof. apply put_put. Qed.
Hint Rewrite root_put_eq put_put_eq : go_rw.

Lemma replayed_forget a : replayed (forget a) = replayed a.
Proof. unfold replayed, forget. by autorewrite with go_rw. Qed.
Lemma replayed_committed a : replayed (committed a) = replayed a.
Proof. unfold replayed, committed. by autorewrite with go_rw. Qed.
Lemma replayed_snapshot v a : Version (root a) = v -> replayed (at_snapshot v a) = replayed a.
Proof. intros <-. unfold replayed, at_snapshot. by autorewrite with go_rw. Qed.
Lemma forget_replayed a : uncommittedEvents (root a) = [] -> forget a = replayed a.
Proof. intros Hu. unfold forget, replayed. by rewrite Hu. Qed.
Lemma forget_committed a : forget (committed a) = committed (forget a).
Proof. unfold forget, committed. by autorewrite with go_rw. Qed.

Lemma LoadFromHistory_app a l k :
  LoadFromHistory a (l ++ k) =
  match LoadFromHistory a l with (x, None) => LoadFromHistory x k | r => r end.
Proof.
  revert a. induction l as [|e l IH]; intros a; cbn; [done|].
  by destruct (ApplyHistory a e) as [x [err|]].
Qed.

(** The bookkeeping of the root does not influence a replay, except its version. *)
Lemma load_put a q l x err :
  LoadFromHistory a l = (x, err) -> version q = version (root a) ->
  LoadFromHistory (put_root q a) l =
    (put_root (mkRoot (root_entity q) (version (root x)) (snapshotVersion q) (uncommittedEvents q)) x, err).
Proof.
  revert a q. induction l as [|e l IH]; intros a q; cbn.
  - intros [= <- <-] <-. by destruct q.
  - unfold ApplyHistory. rewrite when_put. pose proof (when_root e a) as Hw.
    destruct (When e a) as [a' [w|]]; cbn in Hw |- *; intros Hl Hv.
    + injection Hl as <- <-. unfold root. rewrite Hw. fold (root a). rewrite <- Hv. by destruct q.
    + unfold root in Hv. rewrite <- Hw in Hv. rewrite root_put, put_put.
      specialize (IH _ (bump q) Hl). rewrite put_put in IH. apply IH.
      rewrite root_put_eq. cbn. by rewrite Hv.
Qed.

(** What a replay does to the bookkeeping. *)
Lemma load_root a l x err :
  LoadFromHistory a l = (x, err) -> in_int64 (version (root a)) ->
  root_entity (root x) = root_entity (root a) /\
  snapshotVersion (root x) = snapshotVersion (root a) /\
  uncommittedEvents (root x) = uncommittedEvents (root a) /\
  (err = None -> version (root x) = version (root a) +i zlen l).
Proof.
  revert a. induction l as [|e l IH]; intros a; cbn.
  - intros [= <- <-] Hv. split_and!; [done..|]. intros _. rewrite int_add_id; by rewrite Z.add_0_r.
  - unfold ApplyHistory. pose proof (when_root e a) as Hw.
    destruct (When e a) as [a' [w|]]; cbn in Hw |- *; intros Hl Hv.
    + injection Hl as <- <-. unfold root. by rewrite Hw.
    + destruct (IH _ Hl) as (H1 & H2 & H3 & H4); rewrite root_put_eq in *.
      { apply wrap64_range. }
      unfold root at 2 4 6. rewrite <- Hw. split_and!; [done..|]. intros He. rewrite (H4 He). cbn.
      unfold root, int_add. rewrite Hw, wrap64_wrap64_add, zlen_cons. f_equal. lia.
Qed.

(** Applying an event goes on with the replay. *)
Lemma apply_replay a0 l a a' e :
  LoadFromHistory a0 l = (replayed a, None) -> ApplyChange a e = (a', None) ->
  LoadFromHistory a0 (l ++ [e]) = (replayed a', None).
Proof.
  intros Hl Ha. rewrite LoadFromHistory_app, Hl. cbn.
  set (q := mkRoot (root_entity (root a)) (version (root a)) (-1) [] : AggregateRoot E).
  destruct (apply_history_of_change a a' e q Ha eq_refl) as [Hh _].
  pose proof (apply_change_root a e) as Hr. rewrite Ha in Hr. cbn in Hr.
  unfold ApplyChange in Ha. destruct (When e a) as [x [w|]]; [done|]. cbn in Hr.
  change (replayed a) with (put_root q a). rewrite Hh. f_equal. unfold replayed, root.
  rewrite Hr. by autorewrite with go_rw.
Qed.

Lemma apply_forget a e :
  ApplyChange (forget a) e =
  match ApplyChange a e with
  | (a', None) => (forget a', None)
  | (a', Some err) => (put_root (root (forget a)) a', Some err)
  end.
Proof.
  unfold forget at 1, ApplyChange. rewrite when_put. pose proof (when_root e a) as Hw.
  destruct (When e a) as [x [w|]]; cbn in *.
  - unfold forget. by rewrite root_put_eq.
  - unfold forget. rewrite root_put. autorewrite with go_rw. unfold root. cbn. by rewrite Hw.
Qed.
End Replay.

(** ** The simulation

    What the event-sourced repository relies on beside the laws of the table and of
    the event store: they share the database without touching each other's tables,
    aggregates serialize, the reconstructor gives a fresh aggregate. *)

Class SharedDatabase (W Tx E Dat : Type) (sql_state : goerr -> option string)
    `{!Event E, !AggregateEventStore W E, !AggregateEventStoreLaws W E}
    `{!Has (tx_states Tx) W, !Clock W, !SnapshotTable W Tx Dat, !SnapshotTableLaws W Tx Dat sql_state} : Prop := {
  table_keeps_streams : forall w w', snap_only (Tx := Tx) (Dat := Dat) w w' -> es_ok w ->
    es_ok w' /\ forall i, es_stream w' i = es_stream w i;
  append_keeps_table : forall ctx id v evts w, snap_ok (Tx := Tx) (Dat := Dat) w ->
    snap_ok (Tx := Tx) (Dat := Dat) (es_Append ctx id v evts w).2 /\
    snap_rows (Tx := Tx) (Dat := Dat) (es_Append ctx id v evts w).2 = snap_rows (Tx := Tx) w;
  load_keeps_table : forall ctx id v w, snap_ok (Tx := Tx) (Dat := Dat) w ->
    snap_ok (Tx := Tx) (Dat := Dat) (es_Load ctx id v w).2 /\
    snap_rows (Tx := Tx) (Dat := Dat) (es_Load ctx id v w).2 = snap_rows (Tx := Tx) w }.

Class RepositoryLaws {T E Dat} `{!AggregateRef T E} (r : PgEventSourcedRepository T Dat) : Prop := {
  es_serializer_laws :: SerializerLaws (es_serializer r);
  serializes : forall a, exists d, Serialize (es_serializer r) a = Ok d;
  recon_root : forall id, root (reconstructor r id) = mkRoot (Entity.mk id) 0 (-1) [] }.

Section Simulation.
Context {W Tx T E Dat : Type} (sql_state : goerr -> option string).
Context `{!AggregateRef T E, !AggregateRefLaws T E, !Event E}.
Context `{!AggregateEventStore W E, !AggregateEventStoreLaws W E, !LoadsFromStart W E}.
Context `{!Has (tx_states Tx) W, !Clock W, !SnapshotTable W Tx Dat, !SnapshotTableLaws W Tx Dat sql_state}.
Context `{!SharedDatabase W Tx E Dat sql_state}.
Context (r : PgEventSourcedRepository T Dat) `{!RepositoryLaws r} (ctx : context).
Context (Hes : es_usable (W := W) (E := E) ctx).
Context (Htab : snap_usable (W := W) (Tx := Tx) (Dat := Dat) (sql_state := sql_state) ctx).
Abbreviation rows_of := (snap_rows (sql_state := sql_state) (Tx := Tx) (Dat := Dat)).
Abbreviation table_ok := (snap_ok (sql_state := sql_state) (Tx := Tx) (Dat := Dat)).
Abbreviation streams := (gmap string (list E)).
Implicit Types (a x y : T) (w : W) (log : streams).
Hint Rewrite @root_put_eq @put_put_eq using exact _ : go_rw.

(** A row of the table agrees with the stream up to its version. *)
Definition row_ok (l : list E) (id : string) (rw : row Dat) : Prop :=
  let '(ty, d, v) := rw in
  ty = es_typeName r /\ (1 <= v <= zlen l)%Z /\
  exists y, Deserialize (es_serializer r) d = Ok y /\ UncommittedEvents (root y) = [] /\
    LoadFromHistory (reconstructor r id) (take (Z.to_nat v) l) = (replayed y, None).

(** An aggregate that a client holds: loaded at version [n] of the stream, with its
    events applied. If nobody appended since, it knows the row of the table. *)
Record held_ok (l : list E) (rw : option (row Dat)) (n : Z) (a : T) : Prop := {
  h_n : (0 <= n <= zlen l)%Z;
  h_expected : ExpectedVersion (root a) = n;
  h_version : Version (root a) = n +i zlen (UncommittedEvents (root a));
  h_events : Forall (fun e => aggregate_id e = ID (root a)) (UncommittedEvents (root a));
  h_replay : LoadFromHistory (reconstructor r (ID (root a)))
               (take (Z.to_nat n) l ++ UncommittedEvents (root a)) = (replayed a, None);
  h_row : n = zlen l -> match rw with
                        | Some (_, _, v) => SnapshotVersion (root a) = v
                        | None => (SnapshotVersion (root a) < 0)%Z
                        end }.

(** The store and the table follow the streams. *)
Record db_sim (w : W) (log : streams) : Prop := {
  d_es : es_ok w;
  d_table : table_ok w;
  d_streams : forall id, es_stream w id = mget [] log id;
  d_rows : forall id rw, rows_of w !! id = Some rw -> row_ok (mget [] log id) id rw }.

Record sim (s : gmap nat T * W) (s' : gmap nat T * streams) : Prop := {
  s_db : db_sim s.2 s'.2;
  s_vars : forget <$> s.1 = s'.1;
  s_held : forall c a, s.1 !! c = Some a ->
    exists n, held_ok (mget [] s'.2 (ID (root a))) (rows_of s.2 !! ID (root a)) n a }.

Definition small log : Prop := forall id, (zlen (mget [] log id) <= max_stream)%Z.

Lemma small_in_int64 n : (0 <= n <= max_stream)%Z -> in_int64 n.
Proof. unfold max_stream, in_int64, two63. lia. Qed.

Lemma held_new l rw id : (l = [] -> rw = None) -> held_ok l rw 0 (reconstructor r id).
Proof.
  intros Hrw. split; rewrite ?recon_root; cbn; try done.
  - pose proof (zlen_nonneg l). lia.
  - change (Z.to_nat 0) with 0. rewrite take_0. cbn. f_equal.
    unfold replayed. rewrite recon_root. cbn. rewrite <- (recon_root id).
    symmetry. apply put_root_get.
  - intros Hl. rewrite Hrw; [done|]. destruct l; [done|]. unfold zlen in Hl. cbn in Hl. lia.
Qed.

Lemma row_nonempty w log id rw : db_sim w log -> rows_of w !! id = Some rw -> mget [] log id <> [].
Proof.
  intros Hd Hr Hn. apply (d_rows _ _ Hd) in Hr. destruct rw as [[ty d] v]. rewrite Hn in Hr.
  destruct Hr as (_ & Hv & _). rewrite zlen_nil in Hv. lia.
Qed.

Lemma db_frame w w' log :
  db_sim w log -> es_ok w' -> table_ok w' -> (forall i, es_stream w' i = es_stream w i) ->
  rows_of w' = rows_of w -> db_sim w' log.
Proof.
  intros [_ _ Hs Hr] He Ht Hs' Hr'. split; [done..| |].
  - intros id. by rewrite Hs'.
  - rewrite Hr'. done.
Qed.

Lemma snap_frame w w' log :
  db_sim w log -> snap_leads (Tx := Tx) w w' (rows_of w) -> db_sim w' log.
Proof.
  intros Hd (Hok & Hr & Ho). destruct (table_keeps_streams _ _ Ho (d_es _ _ Hd)) as [He Hs].
  by apply (db_frame w).
Qed.

Lemma replayed_fresh id : replayed (reconstructor r id) = reconstructor r id.
Proof.
  unfold replayed. rewrite recon_root. cbn. rewrite <- (recon_root id). apply put_root_get.
Qed.

Lemma fresh_in_int64 id : in_int64 (version (root (reconstructor r id))).
Proof. rewrite recon_root. by apply small_in_int64. Qed.

Lemma take_zlen (l : list E) : take (Z.to_nat (zlen l)) l = l.
Proof. unfold zlen. rewrite Nat2Z.id. apply take_ge. lia. Qed.

(** A prefix of the stream was replayed, into an aggregate with snapshot version
    [s]; replaying the rest gives what replaying the whole stream gives. *)
Lemma finish_load id l n y rw a e :
  (zlen l <= max_stream)%Z ->
  LoadFromHistory (reconstructor r id) (take n l) = (replayed y, None) ->
  UncommittedEvents (root y) = [] ->
  match rw with Some (_, _, v) => SnapshotVersion (root y) = v | None => (SnapshotVersion (root y) < 0)%Z end ->
  LoadFromHistory y (drop n l) = (a, e) ->
  exists x, LoadFromHistory (reconstructor r id) l = (x, e) /\
    (e = None -> forget a = x /\ ID (root a) = id /\ held_ok l rw (zlen l) a).
Proof.
  intros Hsmall Ht Hu Hrw Hl.
  destruct (LoadFromHistory (replayed y) (drop n l)) as [x e'] eqn:Hx.
  assert (LoadFromHistory (reconstructor r id) l = (x, e')) as Hfull.
  { rewrite <- (take_drop n l), LoadFromHistory_app, Ht. exact Hx. }
  pose proof (load_put _ (root y) _ _ _ Hx) as Hp. unfold replayed in Hp.
  autorewrite with go_rw in Hp. rewrite put_root_get in Hp. specialize (Hp eq_refl).
  rewrite Hp in Hl. injection Hl as <- <-. exists x. split; [done|]. intros ->.
  destruct (load_root _ _ _ _ Hfull (fresh_in_int64 id)) as (H1 & H2 & H3 & H4).
  destruct (load_root _ _ _ _ Ht (fresh_in_int64 id)) as (H5 & _).
  rewrite recon_root in *. unfold replayed in H5. autorewrite with go_rw in H5. cbn in H1, H2, H3, H5.
  pose proof (zlen_nonneg l) as Hpos. specialize (H4 eq_refl). cbn in H4.
  rewrite int_add_id, Z.add_0_l in H4 by (apply small_in_int64; lia).
  assert (x = put_root (mkRoot (Entity.mk id) (zlen l) (-1) []) x) as Hself.
  { rewrite <- (put_root_get x) at 1. f_equal. fold (root x). destruct (root x). cbn in *. by subst. }
  unfold UncommittedEvents in Hu. rewrite H5, H4, Hu.
  split; [|split; [by autorewrite with go_rw|split]].
  - unfold forget. autorewrite with go_rw. cbn. by rewrite <- Hself.
  - lia.
  - autorewrite with go_rw. unfold ExpectedVersion. cbn. rewrite zlen_nil, int_sub_id; [lia|].
    apply small_in_int64. lia.
  - autorewrite with go_rw. cbn. change (zlen []) with 0%Z. rewrite int_add_id; [lia|]. apply small_in_int64. lia.
  - autorewrite with go_rw. constructor.
  - autorewrite with go_rw. cbn. rewrite app_nil_r, take_zlen, Hfull. f_equal. unfold replayed. autorewrite with go_rw. exact Hself.
  - intros _. by autorewrite with go_rw.
Qed.

(** The rest of a load, from the events on. *)
Definition after_events (id : string) (a : T) (v : Z) (evs : list E) : T * error :=
  if bool_decide (zlen evs = 0)%Z && bool_decide (v < 0)%Z then (a, Some (not_found id))
  else match LoadFromHistory a evs with
       | (a, Some err) => (a, Some (EWrap ("load from history for aggregate " +:+ id +:+ ": ") err ""))
       | (a, None) => (a, None)
       end.

Lemma spec_load_eq id log :
  spec_load r id log =
  if bool_decide (mget [] log id = []) then (reconstructor r id, Some (not_found id))
  else match LoadFromHistory (reconstructor r id) (mget [] log id) with
       | (a, Some err) => (a, Some (EWrap ("load from history for aggregate " +:+ id +:+ ": ") err ""))
       | (a, None) => (a, None)
       end.
Proof. unfold spec_load. by destruct (mget [] log id). Qed.

(** Where the replay starts: from the row of the table, or from a fresh aggregate. *)
Lemma load_start w log id :
  db_sim w log -> (zlen (mget [] log id) <= max_stream)%Z ->
  let l := mget [] log id in
  exists w1, db_sim w1 log /\ rows_of w1 = rows_of w /\
    exists y v n, ES_Load (Tx := Tx) r ctx id w =
      (match es_Load ctx id v w1 with
       | (Done (Ok evs), w2) => (Done (after_events id y v evs), w2)
       | (Done (Err err), w2) => (Done (y, Some (EWrap ("load events for aggregate " +:+ id +:+ ": ") err "")), w2)
       | (Panicked why, w2) => (Panicked why, w2)
       end) /\
      (l = [] <-> drop n l = [] /\ (v < 0)%Z) /\
      LoadFromHistory (reconstructor r id) (take n l) = (replayed y, None) /\
      UncommittedEvents (root y) = [] /\
      match rows_of w !! id with
      | Some (_, _, v) => SnapshotVersion (root y) = v | None => (SnapshotVersion (root y) < 0)%Z end /\
      (exists w2, es_Load ctx id v w1 = (Done (Ok (drop n l)), w2) /\ es_ok w2 /\ stream_extends es_stream w1 w2 id []).
Proof.
  intros Hd Hlen l. fold l in Hlen. destruct (snap_select_law ctx w id (es_typeName r) (d_table _ _ Hd) Htab) as (w1 & Hl1 & Hsel).
  pose proof (snap_frame _ _ _ Hd Hl1) as Hd1. destruct Hl1 as (Hok1 & Hr1 & _).
  exists w1. split; [done|]. split; [done|].
  unfold ES_Load, loadSnapshot. unfold_go. rewrite GetQuerier_at. cbv beta iota. rewrite Hsel. cbv beta iota.
  destruct (rows_of w !! id) as [[[ty d] v]|] eqn:Hrow.
  - pose proof (d_rows _ _ Hd _ _ Hrow) as (-> & Hv & y0 & Hdes & Hu & Ht). fold l in Hv, Ht.
    rewrite bool_decide_eq_true_2 by done. rewrite Hdes.
    exists (at_snapshot v y0), v, (Z.to_nat v). split; [|split; [|split; [|split; [|split]]]].
    + destruct (es_Load ctx id v w1) as [[[evs|err]|why] w2]; [|done..].
      unfold after_events. destruct (_ && _)%bool; [done|]. by destruct (LoadFromHistory _ evs) as [? [?|]].
    + split; [intros Hn; rewrite Hn, zlen_nil in Hv; lia|lia].
    + rewrite replayed_snapshot; [done|].
      destruct (load_root _ _ _ _ Ht (fresh_in_int64 id)) as (_ & _ & _ & Hver).
      specialize (Hver eq_refl). rewrite recon_root in Hver. unfold replayed in Hver.
      autorewrite with go_rw in Hver. cbn in Hver. unfold Version. rewrite Hver.
      unfold zlen. rewrite length_take_le by (unfold zlen in Hv; lia).
      rewrite int_add_id; [lia|]. apply small_in_int64. lia.
    + unfold at_snapshot. by autorewrite with go_rw.
    + unfold at_snapshot. by autorewrite with go_rw.
    + unfold l. rewrite <- (d_streams _ _ Hd1). apply es_load_ok; [apply Hd1|done|lia].
  - exists (reconstructor r id), (-1)%Z, 0. split; [|split; [|split; [|split; [|split]]]].
    + change (is_no_rows sql_ErrNoRows) with true.
      destruct (es_Load ctx id (-1) w1) as [[[evs|err]|why] w2]; [|done..].
      unfold after_events. destruct (_ && _)%bool; [done|]. by destruct (LoadFromHistory _ evs) as [? [?|]].
    + rewrite drop_0. split; [done|by intros [? _]].
    + by rewrite take_0, replayed_fresh.
    + by rewrite recon_root.
    + by rewrite recon_root.
    + rewrite drop_0. unfold l. rewrite <- (d_streams _ _ Hd1). apply es_load_start; [apply Hd1|done].
Qed.

Lemma load_run w log id :
  db_sim w log -> small log ->
  exists a w', ES_Load (Tx := Tx) r ctx id w = (Done (a, (spec_load r id log).2), w') /\
    db_sim w' log /\ rows_of w' = rows_of w /\
    ((spec_load r id log).2 = None -> forget a = (spec_load r id log).1 /\ ID (root a) = id /\
       exists n, held_ok (mget [] log id) (rows_of w' !! id) n a).
Proof.
  intros Hd Hsmall. pose proof (Hsmall id) as Hlen.
  destruct (load_start w log id Hd Hlen)
    as (w1 & Hd1 & Hr1 & y & v & n & Hrun & Hnil & Ht & Hu & Hrw & w2 & Hload & He2 & Hs2).
  set (l := mget [] log id) in *. pose proof (d_table _ _ Hd1) as Hok1.
  rewrite Hrun, Hload.
  destruct (load_keeps_table (Tx := Tx) (Dat := Dat) (sql_state := sql_state) ctx id v w1 Hok1) as [Hok2 Hr2].
  rewrite Hload in Hok2, Hr2. cbn in Hok2, Hr2.
  assert (db_sim w2 log) as Hd2.
  { apply (db_frame w1); [done..|by apply (stream_extends_nil _ _ _ id)|done]. }
  destruct (LoadFromHistory y (drop n l)) as [a e] eqn:Hl.
  destruct (finish_load _ _ _ _ _ _ _ Hlen Ht Hu Hrw Hl) as (x & Hfull & Hfin).
  rewrite spec_load_eq. fold l. unfold after_events. rewrite Hl.
  destruct (decide (l = [])) as [Hn|Hn].
  - rewrite (bool_decide_eq_true_2 _ Hn). destruct (proj1 Hnil Hn) as [Hdn Hv]. rewrite Hdn. cbn.
    rewrite (bool_decide_eq_true_2 _ Hv). exists y, w2. split_and!; [done..|congruence|done].
  - rewrite (bool_decide_eq_false_2 _ Hn).
    assert (bool_decide (zlen (drop n l) = 0)%Z && bool_decide (v < 0)%Z = false) as ->.
    { apply not_true_is_false. intros [H1%bool_decide_eq_true H2%bool_decide_eq_true]%andb_true_iff.
      apply Hn, Hnil. split; [|done]. destruct (drop n l); [done|]. unfold zlen in H1. cbn in H1. lia. }
    rewrite Hfull. exists a, w2. split; [by destruct e|]. split; [done|]. split; [congruence|].
    destruct e as [e|]; cbn; [done|]. intros _. destruct (Hfin eq_refl) as (? & ? & ?).
    split_and!; [done..|]. exists (zlen l). by rewrite Hr2, Hr1.
Qed.

Lemma held_take (l evs : list E) n : (0 <= n <= zlen l)%Z -> take (Z.to_nat n) (l ++ evs) = take (Z.to_nat n) l.
Proof. intros. apply take_app_le. unfold zlen in *. lia. Qed.

Lemma save_nothing w a :
  UncommittedEvents (root a) = [] -> ES_Save (Tx := Tx) sql_state r ctx a w = (Done (a, None), w).
Proof. intros Hu. unfold ES_Save. by rewrite Hu. Qed.

Lemma save_conflict w log a n :
  db_sim w log -> small log -> held_ok (mget [] log (ID (root a))) (rows_of w !! ID (root a)) n a ->
  UncommittedEvents (root a) <> [] -> (n < zlen (mget [] log (ID (root a))))%Z ->
  exists e w', ES_Save (Tx := Tx) sql_state r ctx a w = (Done (a, e), w') /\ save_out e = OConflict /\
    db_sim w' log /\ rows_of w' = rows_of w.
Proof.
  intros Hd Hsmall Hh Hne Hn. unfold ES_Save. rewrite bool_decide_eq_false_2.
  2:{ destruct (UncommittedEvents (root a)); [done|]. unfold zlen. cbn. lia. }
  change (Version (root a) -i zlen (UncommittedEvents (root a))) with (ExpectedVersion (root a)).
  rewrite (h_expected _ _ _ _ Hh). pose proof (h_n _ _ _ _ Hh). rewrite <- (d_streams _ _ Hd) in *.
  destruct (es_append_conflict ctx w (ID (root a)) n (UncommittedEvents (root a)))
    as (e & w1 & Ha & Hc & He1 & Hs1); [apply Hd|done|apply Hh|done|lia| |].
  { rewrite (d_streams _ _ Hd). apply Hsmall. }
  unfold_go. rewrite Ha. do 2 eexists. split; [reflexivity|]. split; [cbn; by rewrite Hc|].
  destruct (append_keeps_table (Tx := Tx) (Dat := Dat) (sql_state := sql_state) ctx (ID (root a)) n
    (UncommittedEvents (root a)) w (d_table _ _ Hd)) as [Ht1 Hr1].
  rewrite Ha in Ht1, Hr1. cbn in Ht1, Hr1.
  split; [|done]. apply (db_frame w); [done..|by apply (stream_extends_nil _ _ _ (ID (root a)))|done].
Qed.

(** The snapshot that a save may take. *)
Lemma snapshot_run w a v :
  table_ok w -> Version (root a) = v -> (1 <= v <= max_stream)%Z ->
  match rows_of w !! ID (root a) with
  | Some (ty, _, sv) => ty = es_typeName r /\ SnapshotVersion (root a) = sv /\ (0 <= sv)%Z
  | None => (SnapshotVersion (root a) < 0)%Z end ->
  exists d w', saveSnapshot (Tx := Tx) sql_state r ctx a w = (Done (at_snapshot v a, None), w') /\
    Deserialize (es_serializer r) d = Ok (committed a) /\
    snap_leads (sql_state := sql_state) (Tx := Tx) w w'
      (<[ID (root a) := (es_typeName r, d, v)]> (rows_of w)).
Proof.
  intros Hok <- Hv Hrow. destruct (serializes a) as [d Hser].
  unfold saveSnapshot. unfold_go. rewrite GetQuerier_at. cbv beta iota. rewrite Hser.
  assert (0 <= Version (root a) <= max_stream)%Z as Hv' by lia.
  destruct (write_snapshot_run sql_state ctx w (es_typeName r) d a Hok Htab Hv') as (w' & Hw & Hl).
  exists d, w'. unfold_go. rewrite Hw. unfold swap_row in *.
  assert (Deserialize (es_serializer r) d = Ok (committed a)) as Hdes by (by apply deserialize_serialize).
  destruct (rows_of w !! ID (root a)) as [[[ty d'] sv]|].
  - destruct Hrow as (-> & Hsv & Hpos). rewrite bool_decide_eq_false_2 in * by lia.
    rewrite bool_decide_eq_true_2 in * by done. by split_and!.
  - rewrite bool_decide_eq_true_2 in * by done. by split_and!.
Qed.

Lemma row_ok_grow l evs id rw : row_ok l id rw -> row_ok (l ++ evs) id rw.
Proof.
  destruct rw as [[ty d] v]. intros (Hty & Hv & y & Hd & Hu & Ht). split; [done|]. split.
  - rewrite zlen_app. pose proof (zlen_nonneg evs). lia.
  - exists y. rewrite held_take by lia. done.
Qed.

(** The version of an aggregate whose events follow the end of the stream. *)
Lemma held_version l rw a :
  held_ok l rw (zlen l) a -> (zlen (l ++ UncommittedEvents (root a)) <= max_stream)%Z ->
  Version (root a) = zlen (l ++ UncommittedEvents (root a)).
Proof.
  intros Hh Hs. rewrite (h_version _ _ _ _ Hh), zlen_app in *. apply int_add_id, small_in_int64.
  pose proof (zlen_nonneg l). pose proof (zlen_nonneg (UncommittedEvents (root a))). lia.
Qed.

(** After its save the aggregate is held at the end of the longer stream. *)
Lemma held_committed l rw rw' a a' :
  held_ok l rw (zlen l) a -> (zlen (l ++ UncommittedEvents (root a)) <= max_stream)%Z ->
  root_entity (root a') = root_entity (root a) -> Version (root a') = Version (root a) ->
  replayed a' = replayed a ->
  match rw' with
  | Some (_, _, v) => SnapshotVersion (root a') = v | None => (SnapshotVersion (root a') < 0)%Z end ->
  held_ok (l ++ UncommittedEvents (root a)) rw' (zlen (l ++ UncommittedEvents (root a))) (committed a').
Proof.
  intros Hh Hs Hent Hver Hrep Hrw. pose proof (held_version _ _ _ Hh Hs) as Hv.
  set (k := l ++ UncommittedEvents (root a)) in *. pose proof (zlen_nonneg k).
  unfold Version in *. split; rewrite ?root_committed; cbn.
  - lia.
  - unfold ExpectedVersion. cbn. change (zlen []) with 0%Z.
    rewrite Hver, Hv, int_sub_id; [lia|]. apply small_in_int64. lia.
  - change (zlen []) with 0%Z. rewrite Hver, Hv, int_add_id; [lia|]. apply small_in_int64. lia.
  - constructor.
  - rewrite app_nil_r, take_zlen, replayed_committed, Hrep. unfold ID. cbn. rewrite Hent.
    rewrite <- (h_replay _ _ _ _ Hh), take_zlen. done.
  - done.
Qed.

Lemma save_appends w log a :
  let id := ID (root a) in let l := mget [] log id in let evs := UncommittedEvents (root a) in
  db_sim w log -> held_ok l (rows_of w !! id) (zlen l) a -> evs <> [] ->
  small (<[id := l ++ evs]> log) ->
  exists a' w', ES_Save (Tx := Tx) sql_state r ctx a w = (Done (a', None), w') /\
    db_sim w' (<[id := l ++ evs]> log) /\ forget a' = committed (forget a) /\ ID (root a') = id /\
    (forall i, i <> id -> rows_of w' !! i = rows_of w !! i) /\
    held_ok (l ++ evs) (rows_of w' !! id) (zlen (l ++ evs)) a'.
Proof.
  intros id l evs Hd Hh Hne Hsmall. pose proof (Hsmall id) as Hlen. rewrite mget_insert_eq in Hlen.
  pose proof (held_version _ _ _ Hh Hlen) as Hver. fold evs in Hver.
  destruct (es_append_ok ctx w id evs) as (w1 & Ha & He1 & Hs1); [apply Hd|done|apply Hh| |].
  { rewrite (d_streams _ _ Hd). done. }
  rewrite (d_streams _ _ Hd) in Ha. fold l in Ha.
  destruct (append_keeps_table (Tx := Tx) (Dat := Dat) (sql_state := sql_state) ctx id (zlen l) evs w
    (d_table _ _ Hd)) as [Ht1 Hr1]. rewrite Ha in Ht1, Hr1. cbn in Ht1, Hr1.
  assert (db_sim w1 (<[id := l ++ evs]> log)) as Hd1.
  { split; [done..| |].
    - intros i. rewrite Hs1, (d_streams _ _ Hd). case_bool_decide as Hi.
      + subst i. by rewrite mget_insert_eq.
      + by rewrite mget_insert_ne.
    - rewrite Hr1. intros i rw Hrw. apply (d_rows _ _ Hd) in Hrw. destruct (decide (id = i)) as [<-|Hi].
      + rewrite mget_insert_eq. by apply row_ok_grow.
      + by rewrite mget_insert_ne. }
  assert (1 <= zlen (l ++ evs) <= max_stream)%Z as Hv.
  { split; [|done]. rewrite zlen_app. pose proof (zlen_nonneg l).
    destruct evs; [done|]. rewrite zlen_cons. pose proof (zlen_nonneg evs). lia. }
  unfold ES_Save. fold evs. rewrite bool_decide_eq_false_2.
  2:{ destruct evs; [done|]. unfold zlen. cbn. lia. }
  change (Version (root a) -i zlen evs) with (ExpectedVersion (root a)). fold id.
  rewrite (h_expected _ _ _ _ Hh). unfold_go. rewrite Ha. cbv beta iota.
  pose proof (h_row _ _ _ _ Hh eq_refl) as Hrow.
  destruct (snapshot_due r (Version (root a))).
  - destruct (snapshot_run w1 a _ Ht1 Hver Hv) as (d & w2 & Hsnap & Hdes & Hl2).
    { rewrite Hr1. fold id. destruct (rows_of w !! id) as [[[ty d] sv]|] eqn:Hrw; [|done].
      destruct (d_rows _ _ Hd _ _ Hrw) as (-> & ? & _). split_and!; [done..|lia]. }
    rewrite Hsnap. cbv beta iota. exists (committed (at_snapshot (zlen (l ++ evs)) a)), w2.
    pose proof Hl2 as (Ht2 & Hr2 & Ho2). fold id in Hr2. rewrite Hr2, lookup_insert_eq.
    assert (held_ok (l ++ evs) (Some (es_typeName r, d, zlen (l ++ evs))) (zlen (l ++ evs))
      (committed (at_snapshot (zlen (l ++ evs)) a))) as Hheld.
    { apply (held_committed _ _ _ _ _ Hh Hlen); [| |by apply replayed_snapshot|];
        unfold at_snapshot; rewrite root_put_eq; [done|by rewrite Hver|done]. }
    split; [done|]. split; [|split; [|split; [|split]]]; [| | | |done].
    + destruct (table_keeps_streams _ _ Ho2 He1) as [He2 Hs2]. split; [done..| |].
      * intros i. rewrite Hs2. apply Hd1.
      * intros i rw. rewrite Hr2. destruct (decide (id = i)) as [<-|Hi].
        -- rewrite lookup_insert_eq, mget_insert_eq. intros [= <-]. split; [done|]. split; [lia|].
           exists (committed a). split; [done|]. split; [by rewrite root_committed|].
           rewrite take_zlen, replayed_committed, <- (h_replay _ _ _ _ Hh), take_zlen. done.
        -- rewrite lookup_insert_ne, Hr1, mget_insert_ne by done. apply (d_rows _ _ Hd).
    + rewrite forget_committed. f_equal. unfold forget, at_snapshot. autorewrite with go_rw.
      cbn. by rewrite <- zlen_app, <- Hver.
    + rewrite root_committed. unfold at_snapshot. by autorewrite with go_rw.
    + intros i Hi. rewrite lookup_insert_ne, Hr1 by done. done.
  - exists (committed a), w1. split; [done|]. split; [done|].
    split; [apply forget_committed|]. split; [by rewrite root_committed|].
    rewrite Hr1. split; [done|]. by apply (held_committed _ _ _ _ _ Hh Hlen).
Qed.

Lemma held_apply l rw n a a' e :
  held_ok l rw n a -> aggregate_id e = ID (root a) -> ApplyChange a e = (a', None) ->
  ID (root a') = ID (root a) /\ held_ok l rw n a'.
Proof.
  intros Hh He Ha. pose proof (apply_change_root a e) as Hr. pose proof (apply_replay _ _ _ _ _ (h_replay _ _ _ _ Hh) Ha) as Hrep.
  rewrite Ha in Hr. unfold ApplyChange in Ha. destruct (When e a) as [x [err|]]; [done|].
  cbn in Hr. fold (root a') (root a) in Hr. split; [by rewrite Hr|].
  destruct Hh as [Hn Hexp Hver Hev _ Hrow]. split; rewrite ?Hr; [done| | | | |done].
  - by rewrite expected_version_record.
  - unfold Version, UncommittedEvents in *. cbn. rewrite Hver, zlen_app, zlen_cons, zlen_nil.
    unfold int_add. rewrite wrap64_wrap64_add. f_equal. lia.
  - apply Forall_app. by repeat constructor.
  - cbn. by rewrite app_assoc.
Qed.

Lemma sim_set vs w vs' log w' c a a' :
  sim (vs, w) (vs', log) -> db_sim w' log -> rows_of w' = rows_of w -> a' = forget a ->
  (exists n, held_ok (mget [] log (ID (root a))) (rows_of w' !! ID (root a)) n a) ->
  sim (<[c := a]> vs, w') (<[c := a']> vs', log).
Proof.
  intros [_ Hvars Hheld] Hd Hr -> Ha. split; cbn in *; [done|by rewrite fmap_insert, Hvars|].
  intros c' b. destruct (decide (c = c')) as [<-|Hc].
  - rewrite lookup_insert_eq. by intros [= <-].
  - rewrite lookup_insert_ne by done. rewrite Hr. apply Hheld.
Qed.

Lemma sim_db vs w vs' log w' :
  sim (vs, w) (vs', log) -> db_sim w' log -> rows_of w' = rows_of w -> sim (vs, w') (vs', log).
Proof. intros [_ Hvars Hheld] Hd Hr. split; cbn in *; [done..|]. by rewrite Hr. Qed.

Lemma apply_sim vs w vs' log c e :
  sim (vs, w) (vs', log) ->
  (apply_op c e (vs, w)).1 = (apply_op c e (vs', log)).1 /\
  match (apply_op c e (vs', log)).1 with
  | Done _ => sim (apply_op c e (vs, w)).2 (apply_op c e (vs', log)).2 | Panicked _ => True end.
Proof.
  intros Hs. pose proof (s_vars _ _ Hs) as Hv. cbn in Hv. subst vs'. unfold apply_op. rewrite lookup_fmap.
  destruct (vs !! c) as [a|] eqn:Ha; cbn; [|done].
  assert (ID (root (forget a)) = ID (root a)) as -> by (unfold forget; by autorewrite with go_rw).
  case_bool_decide as He; [|done]. rewrite apply_forget.
  destruct (s_held _ _ Hs c a Ha) as [n Hh]. cbn in Hh.
  destruct (ApplyChange a e) as [a' [err|]] eqn:Hap; cbn.
  - split; [done|]. split; cbn; [apply Hs|by rewrite fmap_delete|].
    intros c' b [_ Hb]%lookup_delete_Some. by apply (s_held _ _ Hs c').
  - destruct (held_apply _ _ _ _ _ _ Hh He Hap) as [Hid Hh'].
    split; [done|]. eapply sim_set; [exact Hs|apply Hs|done|done|]. exists n. by rewrite Hid.
Qed.

Lemma save_sim vs w vs' log c :
  sim (vs, w) (vs', log) -> small (spec_step r (CSave c) (vs', log)).2.2 ->
  (impl_step (Tx := Tx) sql_state r ctx (CSave c) (vs, w)).1 = (spec_step r (CSave c) (vs', log)).1 /\
  match (spec_step r (CSave c) (vs', log)).1 with
  | Done _ => sim (impl_step (Tx := Tx) sql_state r ctx (CSave c) (vs, w)).2 (spec_step r (CSave c) (vs', log)).2
  | Panicked _ => True end.
Proof.
  intros Hs. pose proof (s_vars _ _ Hs) as Hv. pose proof (s_db _ _ Hs) as Hd. cbn in Hv, Hd. subst vs'.
  cbn [impl_step spec_step]. rewrite lookup_fmap. destruct (vs !! c) as [a|] eqn:Ha; cbn [fmap option_fmap option_map]; [|done].
  destruct (s_held _ _ Hs c a Ha) as [n Hh]. cbn [fst snd] in Hh.
  assert (root (forget a) = mkRoot (root_entity (root a)) (version (root a)) (-1) (UncommittedEvents (root a))) as ->
    by (unfold forget; by autorewrite with go_rw).
  change (ExpectedVersion (mkRoot _ _ _ _)) with (ExpectedVersion (root a)). cbn [UncommittedEvents uncommittedEvents].
  change (ID (mkRoot _ _ _ _)) with (ID (root a)). rewrite (h_expected _ _ _ _ Hh).
  case_bool_decide as Hevs; [|case_bool_decide as Hn]; cbn [fst snd]; intros Hsmall.
  - rewrite (save_nothing w a Hevs), (insert_id vs c a Ha). by split.
  - rewrite Hn in Hh. destruct (save_appends w log a Hd Hh Hevs Hsmall) as (a' & w' & -> & Hd' & Hf & Hid & Hrows & Hh').
    cbn [save_out]. split; [done|]. split; cbn [fst snd]; [done|by rewrite fmap_insert, Hf|].
    intros c' b. destruct (decide (c = c')) as [<-|Hc].
    { rewrite lookup_insert_eq. intros [= <-]. rewrite Hid, mget_insert_eq. by eexists. }
    rewrite lookup_insert_ne by done. intros Hb. destruct (s_held _ _ Hs c' b Hb) as [m Hm]. cbn [fst snd] in Hm.
    exists m. destruct (decide (ID (root b) = ID (root a))) as [Hsame|Hdiff].
    + rewrite Hsame in *. rewrite mget_insert_eq. destruct Hm as [Hm1 Hm2 Hm3 Hm4 Hm5 _].
      split; [|done..| |].
      * rewrite zlen_app. pose proof (zlen_nonneg (UncommittedEvents (root a))). lia.
      * by rewrite held_take.
      * rewrite zlen_app. intros Heq. destruct (UncommittedEvents (root a)); [done|].
        rewrite zlen_cons in Heq. pose proof (zlen_nonneg l). lia.
    + rewrite mget_insert_ne, Hrows by done. exact Hm.
  - pose proof (h_n _ _ _ _ Hh).
    destruct (save_conflict w log a n Hd Hsmall Hh Hevs ltac:(lia)) as (e & w' & -> & -> & Hd' & Hr').
    split; [done|]. rewrite (insert_id vs) by done. by eapply sim_db.
Qed.

Lemma step_sim s s' o :
  sim s s' -> small (spec_step r o s').2.2 ->
  (impl_step (Tx := Tx) sql_state r ctx o s).1 = (spec_step r o s').1 /\
  match (spec_step r o s').1 with
  | Done _ => sim (impl_step (Tx := Tx) sql_state r ctx o s).2 (spec_step r o s').2
  | Panicked _ => True end.
Proof.
  destruct s as [vs w], s' as [vs' log]. intros Hs Hsmall. pose proof (s_db _ _ Hs) as Hd. cbn in Hd.
  destruct o as [c id|c id|c e|c]; [| |by apply apply_sim|by apply save_sim]; cbn [impl_step spec_step] in *.
  - split; [done|]. cbn. eapply sim_set; [exact Hs|done|done| |].
    + rewrite forget_replayed; [by rewrite replayed_fresh|]. by rewrite recon_root.
    + exists 0%Z. rewrite recon_root. apply held_new. intros Hn.
      destruct (rows_of w !! _) eqn:Hrw; [|done]. by destruct (row_nonempty _ _ _ _ Hd Hrw).
  - assert (small log) as Hsm by (destruct (spec_load r id log) as [? [?|]]; exact Hsmall).
    destruct (load_run w log id Hd Hsm) as (a & w' & -> & Hd' & Hr' & Hok).
    destruct (spec_load r id log) as [x [err|]]; cbn in *.
    + split; [done|]. by eapply sim_db.
    + split; [done|]. destruct (Hok eq_refl) as (Hf & Hid & Hh). eapply sim_set; [exact Hs|done..|]. by rewrite Hid.
Qed.

Lemma spec_grows o (s : gmap nat T * streams) : small (spec_step r o s).2.2 -> small s.2.
Proof.
  destruct s as [vs log], o as [c id|c id|c e|c]; cbn [spec_step]; [done| | |].
  - by destruct (spec_load r id log) as [? [?|]].
  - unfold apply_op. repeat case_match; cbn; by simplify_eq.
  - destruct (vs !! c) as [a|]; [|done]. repeat case_bool_decide; cbn [fst snd]; [done| |done].
    intros Hs i. specialize (Hs i). destruct (decide (ID (root a) = i)) as [<-|Hi].
    + rewrite mget_insert_eq, zlen_app in Hs. pose proof (zlen_nonneg (UncommittedEvents (root a))). lia.
    + by rewrite mget_insert_ne in Hs.
Qed.

Lemma run_grows ops (s : gmap nat T * streams) : small (run (spec_step r) ops s).2.2 -> small s.2.
Proof.
  revert s. induction ops as [|o ops IH]; intros s; cbn [run]; unfold_go; [done|].
  intros Hs. apply (spec_grows o). destruct (spec_step r o s) as [[out|why] s1]; [|exact Hs].
  apply (IH s1). revert Hs. by destruct (run (spec_step r) ops s1) as [[outs|why] s2].
Qed.

Lemma run_sim ops s s' :
  sim s s' -> small (run (spec_step r) ops s').2.2 ->
  (run (impl_step (Tx := Tx) sql_state r ctx) ops s).1 = (run (spec_step r) ops s').1 /\
  match (run (spec_step r) ops s').1 with
  | Done _ => sim (run (impl_step (Tx := Tx) sql_state r ctx) ops s).2 (run (spec_step r) ops s').2
  | Panicked _ => True end.
Proof.
  revert s s'. induction ops as [|o ops IH]; intros s s' Hs Hsmall; [by split|].
  cbn [run] in *. unfold_go.
  assert (small (spec_step r o s').2.2) as Hsm1.
  { destruct (spec_step r o s') as [[out|why] s1]; [|exact Hsmall].
    apply (run_grows ops s1). revert Hsmall. by destruct (run (spec_step r) ops s1) as [[outs|why] s2]. }
  destruct (step_sim s s' o Hs Hsm1) as [H1 H2].
  destruct (impl_step sql_state r ctx o s) as [q s1], (spec_step r o s') as [q' s1'].
  cbn in H1, H2, Hsmall. subst q. destruct q' as [out|why]; [|by split].
  assert (small (run (spec_step r) ops s1').2.2) as Hsm2.
  { revert Hsmall. by destruct (run (spec_step r) ops s1') as [[outs|why] s2]. }
  destruct (IH s1 s1' H2 Hsm2) as [H3 H4].
  destruct (run (impl_step sql_state r ctx) ops s1) as [q s2], (run (spec_step r) ops s1') as [q' s2'].
  cbn in H3, H4. subst q. by destruct q'.
Qed.
End Simulation.

(** ** Properties *)


(** C18: Saving a snapshot is a compare-and-swap on its row: it succeeds exactly if the row is the
    one the aggregate came from (no row for a new aggregate, or a row of its type with its
    snapshot version), and otherwise changes nothing and gives a concurrency error. After a
    success the aggregate is found as it was saved, and a second writer that started from the
    same row is rejected exactly if the first one changed the version: two edits that
    leave the version alone overwrite each other. *)
Theorem pg_save_compare_and_swap {W Tx T E Dat} (sql_state : goerr -> option string)
    `{!AggregateRef T E, !AggregateRefLaws T E}
    `{!Has (tx_states Tx) W, !Clock W, !SnapshotTable W Tx Dat, !SnapshotTableLaws W Tx Dat sql_state}
    (r : PgRepository T Dat) `{!SerializerLaws (repo_serializer r)} ctx (w : W) (a : T) d :
  let rows := snap_rows (Tx := Tx) (Dat := Dat) (sql_state := sql_state) in
  let sized := fun a : T => (0 <= Version (root a) <= max_stream)%Z in
  snap_ok (Tx := Tx) (Dat := Dat) (sql_state := sql_state) w ->
  snap_usable (W := W) (Tx := Tx) (Dat := Dat) (sql_state := sql_state) ctx ->
  Serialize (repo_serializer r) a = Ok d -> sized a ->
  let swapped := swap_row (rows w) (ID (root a)) (repo_typeName r) d (Version (root a)) (SnapshotVersion (root a)) in
  exists a' e w', Save (Tx := Tx) sql_state r ctx a w = (Done (a', e), w') /\
    rows w' = default (rows w) swapped /\
    match e with
    | Some err => swapped = None /\ a' = a /\ errors_Is (TDomain "CONCURRENCY") err = true
    | None => is_Some swapped /\ a' = at_snapshot (Version (root a)) a /\
        (exists w2, FindByID (Tx := Tx) r ctx (ID (root a)) w' = (Done (Ok (committed a')), w2)) /\
        forall b db, Serialize (repo_serializer r) b = Ok db -> sized b ->
          ID (root b) = ID (root a) -> SnapshotVersion (root b) = SnapshotVersion (root a) ->
          exists b' eb w2, Save (Tx := Tx) sql_state r ctx b w' = (Done (b', eb), w2) /\
            (eb = None <-> Version (root a) = SnapshotVersion (root a))
    end.
Proof.
  intros rows sized Hok Hu Hser Hsz swapped. unfold Save, FindByID. unfold_go.
  rewrite GetQuerier_at. cbv beta iota. rewrite Hser.
  destruct (write_snapshot_run sql_state ctx w (repo_typeName r) d a Hok Hu Hsz) as (w' & Hw & Hok' & Hr' & Ho').
  fold rows in Hw, Hr'. fold swapped in Hw, Hr'. rewrite Hw.
  destruct swapped as [rs|] eqn:Hsw; cbn [default] in Hr'; unfold Datatypes.id in Hr';
    do 3 eexists; (split; [reflexivity|]); (split; [exact Hr'|]); [|by split_and!].
  split; [done|]. split; [done|].
  assert (rows w' !! ID (root a) = Some (repo_typeName r, d, Version (root a))) as Hrow.
  { rewrite Hr'. subst swapped. unfold swap_row in Hsw. clear -Hsw.
    repeat case_match; try done; injection Hsw as <-; by rewrite lookup_insert_eq. }
  split.
  - rewrite GetQuerier_at. cbv beta iota.
    destruct (snap_select_law ctx w' (ID (root a)) (repo_typeName r) Hok' Hu) as (w2 & _ & Hsel).
    rewrite Hsel. fold rows. rewrite Hrow, bool_decide_eq_true_2 by done. cbv beta iota.
    rewrite (deserialize_serialize _ _ Hser). exists w2. do 3 f_equal.
    unfold at_snapshot, committed. by rewrite !root_put_eq, !put_put_eq.
  - intros b db Hb Hszb Hid Hsv. rewrite GetQuerier_at. cbv beta iota. rewrite Hb.
    destruct (write_snapshot_run sql_state ctx w' (repo_typeName r) db b Hok' Hu Hszb) as (w2 & -> & _).
    fold rows. unfold swap_row. rewrite Hid, Hrow, Hsv. unfold sized in *.
    destruct (decide (SnapshotVersion (root a) < 0)%Z);
      [rewrite bool_decide_eq_true_2 by done|rewrite bool_decide_eq_false_2 by done; case_bool_decide as Heq];
      do 3 eexists; (split; [reflexivity|]); (split; [try done|]); [lia|tauto| |].
    + done.
    + intros ?. by destruct Heq.
Qed.

(** ** A concrete database

    Streams and rows are maps, an account adds up its events and refuses to go
    below zero. *)
Module DemoPgRepository.
Import DemoEventStore.

Record account := mkAccount { account_root : AggregateRoot ev; balance : Z }.

#[export] Instance account_ref : AggregateRef account ev := {
  GetAggregateRoot := account_root;
  put_root q a := mkAccount q (balance a);
  When e a := if bool_decide (balance a + amount e < 0)%Z then (a, Some (ENew "overdrawn"))
              else (mkAccount (account_root a) (balance a + amount e), None) }.

#[export] Instance account_laws : AggregateRefLaws account ev.
Proof.
  split; intros; try done; try by destruct a.
  - cbn. by case_bool_decide.
  - cbn. by case_bool_decide.
Qed.

Record world := mkWorld {
  time : Z;
  log : gmap string (list ev);
  table : gmap string (string * account * Z);
  txs : tx_states unit }.

#[export] Instance demo_clock : Clock world := fun w =>
  (time w, mkWorld (time w + 1) (log w) (table w) (txs w)).
#[export] Instance demo_txs : Has (tx_states unit) world :=
  { part := txs; set_part t w := mkWorld (time w) (log w) (table w) t }.

Definition set_table (t : gmap string (string * account * Z)) (w : world) : world :=
  mkWorld (time w) (log w) t (txs w).
Definition dup : goerr := ENew "duplicate key".
Definition demo_state (e : goerr) : option string :=
  match e with ENew "duplicate key" => Some "23505" | _ => None end.

#[export] Instance demo_table : SnapshotTable world unit account := {
  snap_insert _ _ id ty d v _ := fun w =>
    match table w !! id with
    | Some _ => (Done (inr dup), w)
    | None => (Done (inl (inl 1%Z)), set_table (<[id := (ty, d, v)]> (table w)) w)
    end;
  snap_update _ _ id ty d v _ old := fun w =>
    match table w !! id with
    | Some (ty', _, v') =>
        if bool_decide (ty' = ty /\ v' = old)
        then (Done (inl (inl 1%Z)), set_table (<[id := (ty, d, v)]> (table w)) w)
        else (Done (inl (inl 0%Z)), w)
    | None => (Done (inl (inl 0%Z)), w)
    end;
  snap_select _ _ id ty := fun w =>
    (Done (match table w !! id with
           | Some (ty', d, v) => if bool_decide (ty' = ty) then inl (d, v) else inr sql_ErrNoRows
           | None => inr sql_ErrNoRows
           end), w);
  snap_delete _ _ id ty := fun w =>
    match table w !! id with
    | Some (ty', _, _) =>
        if bool_decide (ty' = ty) then (Done (inl (inl 1%Z)), set_table (delete id (table w)) w)
        else (Done (inl (inl 0%Z)), w)
    | None => (Done (inl (inl 0%Z)), w)
    end }.

#[export] Program Instance demo_table_laws : SnapshotTableLaws world unit account demo_state := {
  snap_ok _ := True;
  snap_usable _ := True;
  snap_rows := table;
  snap_only w w' := log w' = log w /\ txs w' = txs w }.
Next Obligation. intros w1 w2 w3 [-> ->] [-> ->]. done. Qed.
Next Obligation. intros w w' ctx [_ H]. unfold querier_at. cbn. by rewrite H. Qed.
Next Obligation. intros w _. do 2 eexists. by split_and!. Qed.
Next Obligation.
  intros ctx w id ty d v t _ _ _. cbn. destruct (table w !! id).
  - exists w, dup. by split_and!.
  - eexists. by split_and!.
Qed.
Next Obligation.
  intros ctx w id ty d v t old _ _ _. cbn.
  destruct (table w !! id) as [[[ty' d'] v']|]; [case_bool_decide|]; eexists; by split_and!.
Qed.
Next Obligation. intros ctx w id ty _ _. exists w. by split_and!. Qed.
Next Obligation.
  intros ctx w id ty _ _. cbn.
  destruct (table w !! id) as [[[ty' d'] v']|]; [case_bool_decide|]; eexists; by split_and!.
Qed.

#[export] Instance demo_store : AggregateEventStore world ev := {
  es_Append _ id v evts := fun w =>
    if bool_decide (v = zlen (mget [] (log w) id))
    then (Done None, mkWorld (time w) (<[id := mget [] (log w) id ++ evts]> (log w)) (table w) (txs w))
    else (Done (Some (EWrap "stale: " ErrConcurrency "")), w);
  es_Load _ id v := fun w => (Done (Ok (drop (Z.to_nat v) (mget [] (log w) id))), w) }.

#[export] Program Instance demo_store_laws : AggregateEventStoreLaws world ev := {
  es_ok _ := True; es_usable _ := True; es_stream w id := mget [] (log w) id }.
Next Obligation.
  intros ctx w id evts _ _ _ _. cbn. rewrite bool_decide_eq_true_2 by done.
  eexists. split; [done|]. split; [done|]. intros i. cbn. case_bool_decide as Hi.
  - subst i. by rewrite mget_insert_eq.
  - by rewrite mget_insert_ne.
Qed.
Next Obligation.
  intros ctx w id v evts _ _ _ _ Hv _. cbn. rewrite bool_decide_eq_false_2 by lia.
  do 2 eexists. split; [done|]. split; [done|]. split; [done|].
  intros i. rewrite app_nil_r. by case_bool_decide.
Qed.
Next Obligation.
  intros ctx w id v _ _ _. exists w. split; [done|]. split; [done|].
  intros i. rewrite app_nil_r. by case_bool_decide.
Qed.

#[export] Instance demo_from_start : LoadsFromStart world ev.
Proof.
  intros ctx w id _ _. exists w. split; [done|]. split; [done|].
  intros i. rewrite app_nil_r. by case_bool_decide.
Qed.

#[export] Instance demo_shared : SharedDatabase world unit ev account demo_state.
Proof.
  split.
  - intros w w' [Hl _] _. split; [done|]. intros i. cbn. by rewrite Hl.
  - intros ctx id v evts w _. cbn. by case_bool_decide.
  - done.
Qed.

Definition repo (every : Z) : PgEventSourcedRepository account account :=
  mkPgESRepo (fun id => mkAccount (mkRoot (Entity.mk id) 0 (-1) []) 0)
    (mkSerializer (fun a => Ok (committed a)) Ok) "Account" every.

#[export] Instance demo_repo_laws every : RepositoryLaws (repo every).
Proof.
  split; [split|by eexists|done].
  - by intros a d [= <-].
  - by eexists.
Qed.

Definition w0 : world := mkWorld 0 ∅ ∅ [].

(** Two clients edit one account; a snapshot is taken at every second version. *)
Definition program : list (client_op ev) :=
  [CNew 0 "a"; CApply 0 (mkEv "a" 5); CApply 0 (mkEv "a" 7); CSave 0;
   CLoad 1 "a"; CApply 0 (mkEv "a" 1); CApply 1 (mkEv "a" (-2)); CSave 1; CSave 0;
   CLoad 0 "a"; CApply 0 (mkEv "a" (-50)); CLoad 0 "a"; CLoad 2 "b"].
End DemoPgRepository.
Import DemoEventStore DemoPgRepository.


(** A new account is saved; a second one of the same identity is rejected. *)
Lemma pg_save_compare_and_swap_witness :
  let r := mkPgRepo (es_serializer (repo 2)) "Account" in
  let a := mkAccount (mkRoot (Entity.mk "a") 1 (-1) [mkEv "a" 5]) 5 in
  exists a' w', Save (Tx := unit) demo_state r Background a w0 = (Done (a', None), w') /\
    (exists w2, FindByID (Tx := unit) r Background "a" w' = (Done (Ok (committed a')), w2)) /\
    exists b' eb w2, Save (Tx := unit) demo_state r Background a w' = (Done (b', eb), w2) /\
      (eb = None <-> 1%Z = (-1)%Z).
Proof.
  intros r a.
  destruct (pg_save_compare_and_swap (Tx := unit) (E := ev) (SnapshotTableLaws0 := demo_table_laws)
    demo_state r Background w0 a (committed a) I I eq_refl
    ltac:(split; vm_compute; discriminate)) as (a' & e & w' & H1 & _ & H2).
  destruct e as [e|]; [destruct H2 as [H2 _]; discriminate|].
  destruct H2 as (_ & _ & H3 & H4). exists a', w'. split; [exact H1|]. split; [exact H3|].
  exact (H4 a (committed a) eq_refl ltac:(split; vm_compute; discriminate) eq_refl eq_refl).
Defined.
