(* ===== verification/ContractRepos.v ===== *)
(** * The contract of repositories: [src/domain/repository/repositorytest/repository_contract.go]

    The two suites, what the CRUD and the event-sourced repositories promise, and the proofs that
    the in-memory ones and those on PostgreSQL pass. *)

From S2P Require Import Prelude Errors Testing Trace Pg Aggregate EventStore EventLog Repository PgRepository.
From S2P Require Import Entity.

(** ** The aggregate of the suite *)

Record TestAggregate (E : Type) := mkTestAggregate {
  ta_root : AggregateRoot E;
  ta_Name : string;
  ta_Amount : Z }.
Arguments mkTestAggregate {E} ta_root ta_Name ta_Amount.
Arguments ta_root {E} _.
Arguments ta_Name {E} _.
Arguments ta_Amount {E} _.

(** [When] ignores its event. *)
#[export] Instance test_aggregate_ref E : AggregateRef (TestAggregate E) E := {|
  GetAggregateRoot := ta_root;
  put_root r a := mkTestAggregate r (ta_Name a) (ta_Amount a);
  When _ a := (a, None) |}.
#[export] Instance test_aggregate_laws E : AggregateRefLaws (TestAggregate E) E.
Proof. split; try done; by intros; destruct a. Qed.

Definition NewTestAggregate {E} (i : string) : outcome (TestAggregate E) :=
  match NewAggregateRoot i with
  | Ok ar => Done (mkTestAggregate ar "" 0)
  | Err err => Panicked (Error err)
  end.

(** ** The suites *)

(** The interfaces [Repository] and [EventSourcingRepository]; [Save] changes the aggregate that it is given. *)
Record RepositoryOps (W T : Type) := mkRepoOps {
  ro_Save : context -> T -> GoM W (T * error);
  ro_FindByID : context -> string -> GoM W (result T);
  ro_Delete : context -> string -> GoM W error }.
Arguments mkRepoOps {W T} ro_Save ro_FindByID ro_Delete.
Arguments ro_Save {W T} _ _ _ _.
Arguments ro_FindByID {W T} _ _ _ _.
Arguments ro_Delete {W T} _ _ _ _.

Record EventSourcingOps (W T : Type) := mkESOps {
  so_Save : context -> T -> GoM W (T * error);
  so_Load : context -> string -> GoM W (T * error) }.
Arguments mkESOps {W T} so_Save so_Load.
Arguments so_Save {W T} _ _ _ _.
Arguments so_Load {W T} _ _ _ _.

Section Suites.
Context {W T E : Type} `{!AggregateRef T E, !Event E, !Clock W}.
Context (repo : RepositoryOps W T) (newAgg : string -> outcome T) (setFields : option (T -> T)).
(** [&testContractEvent{BaseEvent: base}]. *)
Context (testContractEvent : BaseEvent -> E).
Abbreviation ctx := Background.
Abbreviation NOT_FOUND := (TDomain "NOT_FOUND").
Abbreviation CONCURRENCY := (TDomain "CONCURRENCY").

Definition new_agg (i : string) : TestM W T := call (go_outcome (newAgg i)).
(** [if setFields != nil { setFields(agg) }]. *)
Definition with_fields (a : T) : T := match setFields with Some f => f a | None => a end.
Definition must_save (a : T) (format : string) : TestM W T :=
  r ← call (ro_Save repo ctx a); _ ← must r.2 format; mret r.1.
Definition must_find (i format : string) : TestM W T :=
  r ← call (ro_FindByID repo ctx i); must_ok r format.
(** An event of the aggregate [i], applied to [a]. *)
Definition must_apply (i : string) (a : T) (format : string) : TestM W T :=
  t ← call time_now;
  let r := ApplyChange a (testContractEvent (NewBaseEvent i t)) in
  _ ← must r.2 format; mret r.1.
Definition has_id (a : T) (i : string) : bool := bool_decide (ID (root a) = i).

Definition TestRepositoryContract : TestM W unit :=
  _ ← t_Run "SaveAndFindByID" (
    agg ← new_agg "contract-1";
    _ ← must_save (with_fields agg) "Save: %v";
    found ← must_find "contract-1" "FindByID: %v";
    expect (has_id found "contract-1") "GetID() = %q, want %q");
  _ ← t_Run "FindByID_NotFound" (
    r ← call (ro_FindByID repo ctx "nonexistent");
    err ← must_err r "expected error, got nil";
    expect (errors_Is NOT_FOUND err) "error should wrap ErrNotFound, got: %v");
  _ ← t_Run "Delete" (
    agg ← new_agg "contract-del";
    _ ← must_save agg "Save: %v";
    err ← call (ro_Delete repo ctx "contract-del");
    _ ← must err "Delete: %v";
    r ← call (ro_FindByID repo ctx "contract-del");
    expect (match r with Err err => errors_Is NOT_FOUND err | Ok _ => false end)
      "after delete, FindByID should wrap ErrNotFound, got: %v");
  _ ← t_Run "Delete_NotFound" (
    err ← call (ro_Delete repo ctx "nonexistent");
    err ← must_fail err "expected error, got nil";
    expect (errors_Is NOT_FOUND err) "error should wrap ErrNotFound, got: %v");
  _ ← t_Run "OptimisticLock" (
    agg ← new_agg "contract-lock";
    _ ← must_save agg "first Save: %v";
    loaded ← must_find "contract-lock" "FindByID: %v";
    duplicate ← new_agg "contract-lock";
    r ← call (ro_Save repo ctx duplicate);
    err ← must_fail r.2 "expected optimistic lock error, got nil";
    _ ← expect (errors_Is CONCURRENCY err) "error should wrap ErrConcurrency, got: %v";
    loaded ← must_apply "contract-lock" loaded "ApplyChange on loaded: %v";
    _ ← must_save loaded "update after failed duplicate Save: %v";
    mret tt);
  t_Run "UpdateExistingAggregate" (
    agg ← new_agg "contract-update";
    _ ← must_save (with_fields agg) "first Save: %v";
    loaded ← must_find "contract-update" "FindByID: %v";
    loaded ← must_apply "contract-update" loaded "ApplyChange: %v";
    _ ← must_save loaded "second Save: %v";
    again ← must_find "contract-update" "FindByID after update: %v";
    expect (has_id again "contract-update") "GetID() = %q, want %q").

(** [applyEvent] applies one event to the aggregate. *)
Context (es_repo : EventSourcingOps W T) (applyEvent : option (T -> GoM W T)).

Definition TestEventSourcingRepositoryContract : TestM W unit :=
  _ ← t_Run "SaveAndLoad" (
    agg ← new_agg "es-contract-1";
    agg ← call (match applyEvent with Some f => f agg | None => mret agg end);
    r ← call (so_Save es_repo ctx agg);
    _ ← must r.2 "Save: %v";
    l ← call (so_Load es_repo ctx "es-contract-1");
    _ ← must l.2 "Load: %v";
    _ ← expect (has_id l.1 "es-contract-1") "GetID() = %q, want %q";
    expect (bool_decide (Version (root l.1) = 1%Z)) "Version() = %d, want %d");
  t_Run "Load_NotFound" (
    l ← call (so_Load es_repo ctx "nonexistent");
    err ← must_fail l.2 "expected error, got nil";
    expect (errors_Is NOT_FOUND err) "error should wrap ErrNotFound, got: %v").
End Suites.

(** ** What the CRUD repositories promise

    A repository maps identities to versions. [rl_loaded v a]: [a] was found at the version [v],
    [rl_edited v a]: and one event was applied to it since. *)

Section Laws.
Context {W T E : Type} `{!AggregateRef T E, !AggregateRefLaws T E, !Event E, !Clock W}.

Definition fresh_root (i : string) : AggregateRoot E := mkRoot (Entity.mk i) 0 (-1) [].

Class CrudLaws (repo : RepositoryOps W T) := {
  rl_ok : W -> Prop;
  rl_rows : W -> gmap string Z;
  rl_leads (w w' : W) (rows : gmap string Z) : Prop := rl_ok w' /\ rl_rows w' = rows;
  rl_loaded : Z -> T -> Prop;
  rl_clock : forall w, rl_ok w -> exists t w', now w = (t, w') /\ rl_leads w w' (rl_rows w);
  rl_save_new : forall w a i, rl_ok w -> root a = fresh_root i ->
    match rl_rows w !! i with
    | None => exists a' w', ro_Save repo Background a w = (Done (a', None), w') /\
                rl_leads w w' (<[i := 0%Z]> (rl_rows w))
    | Some _ => exists a' e w', ro_Save repo Background a w = (Done (a', Some e), w') /\
                  errors_Is (TDomain "CONCURRENCY") e = true /\ rl_leads w w' (rl_rows w)
    end;
  rl_find : forall w i, rl_ok w ->
    match rl_rows w !! i with
    | None => exists e w', ro_FindByID repo Background i w = (Done (Err e), w') /\
                errors_Is (TDomain "NOT_FOUND") e = true /\ rl_leads w w' (rl_rows w)
    | Some v => exists a w', ro_FindByID repo Background i w = (Done (Ok a), w') /\
                  ID (root a) = i /\ rl_loaded v a /\ rl_leads w w' (rl_rows w)
    end;
  rl_save_edited : forall w a a' e v, rl_ok w -> rl_loaded v a -> (0 <= v < max_stream)%Z ->
    rl_rows w !! ID (root a) = Some v -> ApplyChange a e = (a', None) ->
    exists a'' w', ro_Save repo Background a' w = (Done (a'', None), w') /\
      rl_leads w w' (<[ID (root a) := (v + 1)%Z]> (rl_rows w));
  rl_delete : forall w i, rl_ok w ->
    match rl_rows w !! i with
    | None => exists e w', ro_Delete repo Background i w = (Done (Some e), w') /\
                errors_Is (TDomain "NOT_FOUND") e = true /\ rl_leads w w' (rl_rows w)
    | Some _ => exists w', ro_Delete repo Background i w = (Done None, w') /\
                  rl_leads w w' (delete i (rl_rows w))
    end }.

(** What the suite is given: aggregates without history, to which every event applies. *)
Record suited (newAgg : string -> outcome T) (setFields : option (T -> T)) (mk : BaseEvent -> E) : Prop := {
  news : forall i, i <> "" -> exists a, newAgg i = Done a /\ root a = fresh_root i;
  fields : forall f a, setFields = Some f -> root (f a) = root a;
  applies : forall (b : BaseEvent) (a : T), (When (mk b) a).2 = None }.
End Laws.

Section Crud.
Context {W T E : Type} `{!AggregateRef T E, !AggregateRefLaws T E, !Event E, !Clock W}.
Context (repo : RepositoryOps W T) (newAgg : string -> outcome T) (setFields : option (T -> T)) (mk : BaseEvent -> E).
Context `{HR : !CrudLaws repo} (Hs : suited newAgg setFields mk).

Definition stored_at (m : gmap string Z) (w : W) : Prop := rl_ok w /\ rl_rows w = m.

Section Steps.
Context {B : Type}.
Implicit Types (Q : option B -> W -> Prop).

Lemma step_new_agg i (k : T -> TestM W B) w Q : i <> "" ->
  (forall a, root a = fresh_root i -> passing (k a) w Q) -> passing (x ← new_agg newAgg i; k x) w Q.
Proof.
  intros Hi Hk. destruct (news _ _ _ Hs i Hi) as (a & Ha & Hr).
  eapply passing_step_call; [by rewrite Ha|]. by apply Hk.
Qed.

Lemma root_with_fields a : root (with_fields setFields a) = root a.
Proof. unfold with_fields. destruct setFields as [f|] eqn:Hf; [|done]. by apply (fields _ _ _ Hs). Qed.

Lemma step_save m a i format (k : T -> TestM W B) w Q : stored_at m w -> root a = fresh_root i -> m !! i = None ->
  (forall a' w', stored_at (<[i := 0%Z]> m) w' -> passing (k a') w' Q) ->
  passing (x ← must_save repo a format; k x) w Q.
Proof.
  intros [Hw <-] Ha Hm Hk. pose proof (rl_save_new w a i Hw Ha) as Hc. rewrite Hm in Hc.
  destruct Hc as (a' & w' & Hr & Hh). unfold must_save. test_step. test_call Hr. cbn [fst snd]. repeat test_step. by apply Hk.
Qed.

Lemma step_save_duplicate m a i v (k : T * error -> TestM W B) w Q : stored_at m w -> root a = fresh_root i ->
  m !! i = Some v ->
  (forall a' e w', stored_at m w' -> errors_Is (TDomain "CONCURRENCY") e = true -> passing (k (a', Some e)) w' Q) ->
  passing (x ← call (ro_Save repo Background a); k x) w Q.
Proof.
  intros [Hw <-] Ha Hm Hk. pose proof (rl_save_new w a i Hw Ha) as Hc. rewrite Hm in Hc.
  destruct Hc as (a' & e & w' & Hr & He & Hh). test_call Hr. by apply Hk.
Qed.

Lemma step_find m i v format (k : T -> TestM W B) w Q : stored_at m w -> m !! i = Some v ->
  (forall a w', stored_at m w' -> ID (root a) = i -> rl_loaded v a -> passing (k a) w' Q) ->
  passing (x ← must_find repo i format; k x) w Q.
Proof.
  intros [Hw <-] Hm Hk. pose proof (rl_find w i Hw) as Hc. rewrite Hm in Hc.
  destruct Hc as (a & w' & Hr & Hi & Hl & Hh). unfold must_find. test_step. test_call Hr. test_step. by apply Hk.
Qed.

Lemma step_find_none m i (k : result T -> TestM W B) w Q : stored_at m w -> m !! i = None ->
  (forall e w', stored_at m w' -> errors_Is (TDomain "NOT_FOUND") e = true -> passing (k (Err e)) w' Q) ->
  passing (x ← call (ro_FindByID repo Background i); k x) w Q.
Proof.
  intros [Hw <-] Hm Hk. pose proof (rl_find w i Hw) as Hc. rewrite Hm in Hc.
  destruct Hc as (e & w' & Hr & He & Hh). test_call Hr. by apply Hk.
Qed.

Lemma step_edit m i v a f1 f2 (k : T -> TestM W B) w Q : stored_at m w -> m !! i = Some v -> ID (root a) = i ->
  rl_loaded v a -> (0 <= v < max_stream)%Z ->
  (forall a' w', stored_at (<[i := (v + 1)%Z]> m) w' -> passing (k a') w' Q) ->
  passing (x ← must_apply mk i a f1; y ← must_save repo x f2; k y) w Q.
Proof.
  intros [Hw <-] Hm <- Hl Hv Hk. unfold must_apply. test_step.
  destruct (rl_clock w Hw) as (t & w1 & Ht & Hh1 & Hr1).
  eapply passing_step_call; [unfold time_now; by rewrite Ht|].
  set (e := mk _). destruct (ApplyChange a e) as [a1 err] eqn:Ha.
  assert (err = None) as ->.
  { pose proof (applies _ _ _ Hs (NewBaseEvent (ID (root a)) t) a) as Hw2. fold e in Hw2.
    unfold ApplyChange in Ha. destruct (When e a) as [x [z|]]; [done|]. by injection Ha as _ <-. }
  cbn [fst snd]. repeat test_step. rewrite <- Hr1 in Hm.
  destruct (rl_save_edited w1 a a1 e v Hh1 Hl Hv Hm Ha) as (a2 & w2 & Hs2 & Hh2 & Hr2).
  unfold must_save. test_step. test_call Hs2. cbn [fst snd]. repeat test_step. apply Hk. split; [done|]. by rewrite Hr2, Hr1.
Qed.

Lemma step_remove m i v (k : error -> TestM W B) w Q : stored_at m w -> m !! i = v ->
  match v with
  | Some _ => forall w', stored_at (delete i m) w' -> passing (k None) w' Q
  | None => forall e w', stored_at m w' -> errors_Is (TDomain "NOT_FOUND") e = true -> passing (k (Some e)) w' Q
  end -> passing (x ← call (ro_Delete repo Background i); k x) w Q.
Proof.
  intros [Hw <-] <- Hk. pose proof (rl_delete w i Hw) as Hc. destruct (rl_rows w !! i).
  - destruct Hc as (w' & Hr & Hh). test_call Hr. by apply Hk.
  - destruct Hc as (e & w' & Hr & He & Hh). test_call Hr. by apply Hk.
Qed.
End Steps.
End Crud.

Ltac repo_step :=
  cbv beta; cbn [fst snd];
  lazymatch goal with
  | |- passing (mbind _ (t_Run _ _)) _ _ => apply passing_step_run
  | |- passing (t_Run _ _) _ _ => apply passing_last, passing_step_run
  | Hs : suited _ _ _ |- passing (mbind _ (new_agg _ _)) _ _ =>
      eapply (step_new_agg _ _ _ Hs); [done|]; intros ? ?
  | Hs : suited _ _ _ |- passing (mbind _ (must_save _ _ _)) _ _ =>
      eapply step_save; [eassumption|by rewrite ?(root_with_fields _ _ _ Hs)|vm_compute; reflexivity|]; intros ? ? ?
  | |- passing (mbind _ (must_find _ _ _)) _ _ =>
      eapply step_find; [eassumption|vm_compute; reflexivity|]; intros ? ? ? ? ?
  | Hs : suited _ _ _ |- passing (mbind _ (must_apply _ _ _ _)) _ _ =>
      eapply (step_edit _ _ _ _ Hs); [eassumption|vm_compute; reflexivity|eassumption|eassumption|by vm_compute|]; intros ? ? ?
  | |- passing (mbind _ (call (ro_FindByID _ _ _))) _ _ =>
      eapply step_find_none; [eassumption|vm_compute; reflexivity|]; intros ? ? ? ?
  | |- passing (mbind _ (call (ro_Save _ _ _))) _ _ =>
      eapply step_save_duplicate; [eassumption|eassumption|vm_compute; reflexivity|]; intros ? ? ? ? ?
  | |- passing (mbind _ (call (ro_Delete _ _ _))) _ _ =>
      eapply step_remove; [eassumption|vm_compute; reflexivity|]; cbv beta iota; intros
  | |- passing (mbind _ (expect (has_id _ _) _)) _ _ => apply passing_step_expect; [by apply bool_decide_eq_true_2|]
  | _ => test_step
  end.

Section CrudContract.
Context {W T E : Type} `{!AggregateRef T E, !AggregateRefLaws T E, !Event E, !Clock W}.
Context (repo : RepositoryOps W T) (newAgg : string -> outcome T) (setFields : option (T -> T)) (mk : BaseEvent -> E).
Context `{HR : !CrudLaws repo} (Hs : suited newAgg setFields mk).

Lemma crud_contract_passes (w : W) : rl_ok w -> rl_rows w = ∅ ->
  passing (TestRepositoryContract repo newAgg setFields mk) w (fun _ w' => rl_ok w').
Proof.
  intros Hok He. assert (stored_at repo ∅ w) by done. unfold TestRepositoryContract.
  repeat repo_step. match goal with H : stored_at _ _ ?w |- rl_ok ?w => exact (proj1 H) end.
Qed.
End CrudContract.

(** ** What the event-sourced repositories promise

    A repository has streams, as [holds] says; [recon] makes an aggregate without history. *)

Section EventSourced.
Context {W T E : Type} `{!AggregateRef T E, !AggregateRefLaws T E, !Event E}.

Class EventSourcingLaws (recon : string -> T) (repo : EventSourcingOps W T) := {
  sl_holds : gmap string (list E) -> W -> Prop;
  sl_save_new : forall w log a e i, sl_holds log w -> log !! i = None -> aggregate_id e = i ->
    ApplyChange (recon i) e = (a, None) ->
    exists a' w', so_Save repo Background a w = (Done (a', None), w') /\ sl_holds (<[i := [e]]> log) w';
  sl_load : forall w log i, sl_holds log w ->
    match log !! i with
    | None => exists a e w', so_Load repo Background i w = (Done (a, Some e), w') /\
                errors_Is (TDomain "NOT_FOUND") e = true /\ sl_holds log w'
    | Some [e] => (When e (recon i)).2 = None ->
        exists a w', so_Load repo Background i w = (Done (a, None), w') /\ ID (root a) = i /\
          Version (root a) = 1%Z /\ sl_holds log w'
    | Some _ => True
    end }.

Context (repo : EventSourcingOps W T) (recon : string -> T) `{HR : !EventSourcingLaws recon repo}.

(** What the function applied to the new aggregate does. *)
Definition applies_event (f : T -> GoM W T) : Prop :=
  forall w log i, sl_holds log w -> exists a e w', f (recon i) w = (Done a, w') /\ sl_holds log w' /\
    aggregate_id e = i /\ ApplyChange (recon i) e = (a, None).

Lemma es_contract_passes newAgg f (w : W) : (forall i, i <> "" -> newAgg i = Done (recon i)) -> applies_event f ->
  sl_holds ∅ w ->
  passing (TestEventSourcingRepositoryContract newAgg repo (Some f)) w (fun _ w' => exists log, sl_holds log w').
Proof.
  intros Hnew Hf Hw. unfold TestEventSourcingRepositoryContract.
  apply passing_step_run. unfold new_agg. eapply passing_step_call; [by rewrite Hnew|].
  destruct (Hf w ∅ "es-contract-1" Hw) as (a & e & w1 & Hr1 & Hw1 & He & Ha). test_call Hr1.
  destruct (sl_save_new w1 ∅ a e _ Hw1 (lookup_empty _) He Ha) as (a' & w2 & Hr2 & Hw2). test_call Hr2.
  cbn [fst snd]. repeat test_step.
  pose proof (sl_load w2 _ "es-contract-1" Hw2) as Hl. rewrite lookup_insert_eq in Hl.
  destruct Hl as (b & w3 & Hr3 & Hid & Hv & Hw3).
  { unfold ApplyChange in Ha. by destruct (When e _) as [? [?|]]. }
  test_call Hr3. cbn [fst snd]. repeat test_step; [by apply bool_decide_eq_true_2..|].
  apply passing_last, passing_step_run.
  pose proof (sl_load w3 _ "nonexistent" Hw3) as Hl.
  rewrite lookup_insert_ne, lookup_empty in Hl by done.
  destruct Hl as (b' & e' & w4 & Hr4 & He' & Hw4). test_call Hr4. cbn [fst snd]. repeat test_step.
  by eexists.
Qed.
End EventSourced.

(** ** Applying one event *)

Section OneEvent.
Context {T E : Type} `{!AggregateRef T E, !AggregateRefLaws T E, !Event E}.

Lemma apply_one (a a' : T) e : ApplyChange a e = (a', None) -> root a' = record_event e (root a).
Proof.
  intros H. pose proof (apply_change_root a e) as Hr. rewrite H in Hr. unfold root.
  unfold ApplyChange in H. destruct (When e a) as [x [err|]]; [done|]. exact Hr.
Qed.

Lemma small_version v : (0 <= v < max_stream)%Z -> in_int64 v /\ (v +i 1 = v + 1)%Z.
Proof. unfold max_stream. intros. assert (in_int64 v) by (unfold in_int64, two63; lia). split; [done|].
  apply int_add_id. unfold in_int64, two63. lia. Qed.
End OneEvent.

(** ** The repositories in memory *)

Section Memory.
Context {W T E D : Type} `{!AggregateRef T E, !AggregateRefLaws T E, !Event E, !Clock W}.
Context `{!Has (InMemoryRepository T D) W, !HasLaws (InMemoryRepository T D) W}.
Context (Hclock : forall w, part (S := InMemoryRepository T D) (now w).2 = part w).
Context (s : SnapshotSerializer T D) `{!SerializerLaws s} (Hser : forall a, exists d, Serialize s a = Ok d).
Abbreviation of_world := (part (S := InMemoryRepository T D)).

Definition memory_crud : RepositoryOps W T := mkRepoOps
  (fun _ a w => let '(r, e) := Repository.Save a (of_world w) in (Done (a, e), set_part r w))
  (fun _ i w => (Done (Repository.FindByID i (of_world w)), w))
  (fun _ i w => let '(r, e) := Repository.Delete i (of_world w) in (Done e, set_part r w)).

Definition memory_sourced (nothing : T) : EventSourcingOps W T := mkESOps
  (fun _ a w => let '(r, a', e) := Repository.ES_Save a (of_world w) in (Done (a', e), set_part r w))
  (fun _ i w => (Done (match Repository.ES_Load i (of_world w) with Ok a => (a, None) | Err e => (nothing, Some e) end), w)).

Definition repository_ok (r : InMemoryRepository T D) : Prop := repo_ok r /\ serializer r = s.

Lemma copies a : deepCopy s a = Ok (committed a).
Proof. destruct (Hser a) as [d Hd]. unfold deepCopy. by rewrite Hd, (deserialize_serialize _ _ Hd). Qed.

Lemma stored_copy r i rec : repository_ok r -> store r !! i = Some rec ->
  Repository.FindByID i r = Ok (agg rec) /\ ID (root (agg rec)) = i /\ Version (root (agg rec)) = rec_version rec /\
  UncommittedEvents (root (agg rec)) = [].
Proof.
  intros [Hok Hs] Hi. destruct (Hok _ _ Hi) as (H1 & H2 & H3 & H4).
  unfold Repository.FindByID. by rewrite Hi.
Qed.

Lemma save_put a r : repository_ok r ->
  lock_check (store r !! ID (root a)) a (bool_decide (zlen (UncommittedEvents (root a)) = 0)%Z) = None ->
  Repository.Save a r = (put_record a (committed a) r, None) /\ repository_ok (put_record a (committed a) r).
Proof.
  intros [Hok Hs] Hl. unfold Repository.Save. rewrite Hl, Hs, copies. split; [done|].
  split; [|done]. apply put_record_ok; [|done|]; rewrite Hs; [done|apply copies].
Qed.

Lemma put_record_versions a c (r : InMemoryRepository T D) :
  rec_version <$> store (put_record a c r) = <[ID (root a) := Version (root a)]> (rec_version <$> store r).
Proof. unfold put_record. cbn. by rewrite fmap_insert. Qed.

(** Aggregates without events at the stored version, or at a version that is not the stored one. *)
Lemma lock_check_fresh (rec : aggregateRecord T) a i : root a = fresh_root i ->
  exists e, lock_check (Some rec) a true = Some e /\ is_concurrency (Some e) = true.
Proof.
  intros Ha. unfold lock_check. rewrite Ha. change (ExpectedVersion (fresh_root i)) with (0 -i 0)%Z.
  rewrite int_sub_id by done. cbn. case_bool_decide; cbn; [|by eexists].
  rewrite bool_decide_eq_true_2 by done. by eexists.
Qed.

#[refine] Definition memory_crud_laws : CrudLaws memory_crud :=
  {| rl_ok w := repository_ok (of_world w); rl_rows w := rec_version <$> store (of_world w);
     rl_loaded v a := Version (root a) = v /\ UncommittedEvents (root a) = [] |}.
Proof.
  - intros w Hw. specialize (Hclock w). destruct (now w) as [t w']. cbn in Hclock. exists t, w'. split; [done|].
    by rewrite Hclock.
  - intros w a i Hw Ha. rewrite lookup_fmap. cbn [ro_Save memory_crud].
    assert (ID (root a) = i) as Hi by by rewrite Ha.
    destruct (store (of_world w) !! i) as [rec|] eqn:Hrec; cbn [fmap option_fmap option_map].
    + destruct (lock_check_fresh rec a i Ha) as (e & Hl & He). exists a, e. eexists.
      split; [|split; [exact He|]].
      * unfold Repository.Save. rewrite Hi, Hrec. replace (UncommittedEvents (root a)) with (@nil E) by by rewrite Ha.
        cbn [bool_decide]. change (bool_decide (zlen (@nil E) = 0)%Z) with true. by rewrite Hl.
      * by rewrite part_set.
    + destruct (save_put a (of_world w) Hw) as [-> Hok]; [by rewrite Hi, Hrec|]. do 2 eexists. split; [reflexivity|].
      rewrite !part_set. split; [done|]. by rewrite put_record_versions, Ha.
  - intros w i Hw. rewrite lookup_fmap. cbn [ro_FindByID memory_crud].
    destruct (store (of_world w) !! i) as [rec|] eqn:Hrec; cbn [fmap option_fmap option_map].
    + destruct (stored_copy _ _ _ Hw Hrec) as (Hf & Hid & Hv & Hu). exists (agg rec), w. by rewrite Hf.
    + exists (not_found i), w. unfold Repository.FindByID. by rewrite Hrec.
  - intros w a a' e v Hw [Hv Hu] Hb Hrow Ha. cbn [ro_Save memory_crud].
    destruct (small_version v Hb) as [Hin Hadd]. pose proof (apply_one _ _ _ Ha) as Hroot.
    rewrite lookup_fmap in Hrow. destruct (store (of_world w) !! ID (root a)) as [rec|] eqn:Hrec; [|done].
    injection Hrow as Hrv. assert (Version (root a') = (v + 1)%Z) as Hv'.
    { rewrite Hroot. unfold Version in *. cbn. by rewrite Hv. }
    destruct (save_put a' (of_world w) Hw) as [-> Hok].
    { assert (ID (root a') = ID (root a)) as -> by by rewrite Hroot. rewrite Hrec. apply lock_check_pass.
      - rewrite Hroot, expected_version_record, Hrv. rewrite expected_version_clean; [done|done|].
        unfold Version in Hv. by rewrite Hv.
      - rewrite Hv', Hrv. lia. }
    do 2 eexists. split; [reflexivity|]. rewrite !part_set. split; [done|].
    by rewrite put_record_versions, Hv', Hroot.
  - intros w i Hw. rewrite lookup_fmap. cbn [ro_Delete memory_crud]. unfold Repository.Delete.
    destruct (store (of_world w) !! i) as [rec|] eqn:Hrec; cbn [fmap option_fmap option_map].
    + eexists. split; [reflexivity|]. rewrite !part_set. cbn. rewrite fmap_delete. split; [|done].
      destruct Hw as [Hok Hs]. split; [by apply map_Forall_delete|done].
    + do 2 eexists. split; [reflexivity|]. by rewrite !part_set.
Defined.

Context (recon : string -> T) (Hrecon : forall i, root (recon i) = fresh_root i) (nothing : T).

Definition holds_streams (log : gmap string (list E)) (w : W) : Prop :=
  repository_ok (of_world w) /\ rec_version <$> store (of_world w) = zlen <$> log.

#[refine] Definition memory_sourced_laws : EventSourcingLaws recon (memory_sourced nothing) :=
  {| sl_holds := holds_streams |}.
Proof.
  - intros w log a e i [Hw Hrows] Hi He Ha. cbn [so_Save memory_sourced].
    pose proof (apply_one _ _ _ Ha) as Hroot. rewrite Hrecon in Hroot.
    assert (ID (root a) = i) as Hid by by rewrite Hroot.
    assert (store (of_world w) !! i = None) as Hnone.
    { pose proof (f_equal (lookup i) Hrows) as Hl. rewrite !lookup_fmap, Hi in Hl. by destruct (store (of_world w) !! i). }
    unfold Repository.ES_Save. replace (UncommittedEvents (root a)) with [e] by by rewrite Hroot.
    rewrite bool_decide_eq_false_2 by done. rewrite Hid, Hnone. cbn [lock_check].
    destruct Hw as [Hok Hs]. rewrite Hs, copies. do 2 eexists. split; [reflexivity|].
    unfold holds_streams. rewrite part_set. split; [split; [|done]|].
    + apply put_record_ok; [|done|]; rewrite Hs; [done|apply copies].
    + rewrite put_record_versions, fmap_insert, Hrows, Hid. f_equal. by rewrite Hroot.
  - intros w log i [Hw Hrows]. cbn [so_Load memory_sourced]. unfold Repository.ES_Load.
    pose proof (f_equal (lookup i) Hrows) as Hl. rewrite !lookup_fmap in Hl.
    destruct (store (of_world w) !! i) as [rec|] eqn:Hrec, (log !! i) as [[|e [|e' l]]|]; try done.
    + intros _. destruct (stored_copy _ _ _ Hw Hrec) as (Hf & Hid & Hv & Hu). rewrite Hf.
      injection Hl as Hl. exists (agg rec), w. rewrite Hv, Hl. split; [done|]. split; [exact Hid|]. by split.
    + unfold Repository.FindByID. rewrite Hrec. do 3 eexists. split; [reflexivity|]. done.
Defined.
End Memory.

(** ** The repositories on PostgreSQL *)

Section PgCrud.
Context {W Tx T E Dat : Type} `{!AggregateRef T E, !AggregateRefLaws T E, !Event E, !Clock W}.
Context (sql_state : goerr -> option string).
Context `{!Has (tx_states Tx) W, !SnapshotTable W Tx Dat, HST : !SnapshotTableLaws W Tx Dat sql_state}.
Context (r : PgRepository T Dat) `{!SerializerLaws (repo_serializer r)}.
Context (Hser : forall a, exists d, Serialize (repo_serializer r) a = Ok d).
Context (Husable : snap_usable (W := W) (Tx := Tx) (Dat := Dat) (sql_state := sql_state) Background).
Abbreviation rows_of := (snap_rows (sql_state := sql_state) (Tx := Tx) (Dat := Dat)).
Abbreviation table_ok := (snap_ok (sql_state := sql_state) (Tx := Tx) (Dat := Dat)).
Abbreviation leads := (snap_leads (sql_state := sql_state) (Tx := Tx) (Dat := Dat)).

Definition pg_crud : RepositoryOps W T := mkRepoOps
  (PgRepository.Save (Tx := Tx) sql_state r) (PgRepository.FindByID (Tx := Tx) r) (PgRepository.Delete (Tx := Tx) r).

(** A row of the repository: of its type, with the data of an aggregate of that identity and version. *)
Definition saved_row (i : string) (rw : string * Dat * Z) : Prop :=
  let '(ty, d, v) := rw in
  ty = repo_typeName r /\ exists a, Serialize (repo_serializer r) a = Ok d /\ ID (root a) = i /\ Version (root a) = v.
Definition crud_ok (w : W) : Prop := table_ok w /\ map_Forall saved_row (rows_of w).
Definition row_version (rw : string * Dat * Z) : Z := rw.2.

Lemma crud_ok_same w w' : crud_ok w -> leads w w' (rows_of w) ->
  crud_ok w' /\ row_version <$> rows_of w' = row_version <$> rows_of w.
Proof. intros [_ Hr] (Hw' & Heq & _). unfold crud_ok. by rewrite Heq. Qed.

(** [Save], by what the compare-and-swap of its row does. *)
Lemma save_swaps w a :
  crud_ok w -> (0 <= Version (root a) <= max_stream)%Z ->
  exists d w', Serialize (repo_serializer r) a = Ok d /\
    match swap_row (rows_of w) (ID (root a)) (repo_typeName r) d (Version (root a)) (SnapshotVersion (root a)) with
    | None => PgRepository.Save (Tx := Tx) sql_state r Background a w =
        (Done (a, Some (lock_error (ID (root a)) (SnapshotVersion (root a)))), w') /\ leads w w' (rows_of w)
    | Some rows => PgRepository.Save (Tx := Tx) sql_state r Background a w =
        (Done (at_snapshot (Version (root a)) a, None), w') /\ leads w w' rows
    end.
Proof.
  intros [Hw _] Hv. destruct (Hser a) as [d' Hd]. unfold PgRepository.Save.
  destruct (write_snapshot_run sql_state Background w (repo_typeName r) d' a Hw Husable Hv) as (w' & Hrun & Hl).
  exists d', w'. split; [done|]. unfold_go. rewrite GetQuerier_at, Hd. rewrite Hrun.
  by destruct (swap_row _ _ _ _ _ _).
Qed.

Lemma crud_ok_insert w w' a d : crud_ok w -> Serialize (repo_serializer r) a = Ok d ->
  leads w w' (<[ID (root a) := (repo_typeName r, d, Version (root a))]> (rows_of w)) ->
  crud_ok w' /\ row_version <$> rows_of w' = <[ID (root a) := Version (root a)]> (row_version <$> rows_of w).
Proof.
  intros [_ Hr] Hd (Hw' & Heq & _). unfold crud_ok. rewrite Heq, fmap_insert. split; [|done]. split; [done|].
  apply map_Forall_insert_2; [|done]. split; [done|]. by exists a.
Qed.

#[refine] Definition pg_crud_laws : CrudLaws pg_crud :=
  {| rl_ok := crud_ok; rl_rows w := row_version <$> rows_of w;
     rl_loaded v a := Version (root a) = v /\ SnapshotVersion (root a) = v |}.
Proof.
  - intros w Hw. destruct (snap_clock (Tx := Tx) (Dat := Dat) w (proj1 Hw)) as (t & w' & Hn & Hl). exists t, w'.
    split; [done|]. by apply crud_ok_same.
  - intros w a i Hw Ha. cbn [ro_Save pg_crud]. rewrite lookup_fmap.
    destruct (save_swaps w a Hw) as (d & w' & Hd & Hs); [by rewrite Ha|].
    rewrite Ha in Hs. change (ID (fresh_root i)) with i in Hs. unfold swap_row in Hs.
    rewrite bool_decide_eq_true_2 in Hs by done.
    destruct (rows_of w !! i) as [rw|]; cbn [fmap option_fmap option_map]; destruct Hs as [-> Hl].
    + do 3 eexists. split; [reflexivity|]. split; [done|]. by apply crud_ok_same.
    + do 2 eexists. split; [reflexivity|].
      destruct (crud_ok_insert w w' a d Hw Hd) as [H1 H2]; [by rewrite Ha|]. split; [done|]. by rewrite H2, Ha.
  - intros w i Hw. cbn [ro_FindByID pg_crud]. rewrite lookup_fmap. unfold PgRepository.FindByID. unfold_go.
    rewrite GetQuerier_at. destruct (snap_select_law Background w i (repo_typeName r) (proj1 Hw) Husable) as (w1 & Hl & ->).
    destruct (rows_of w !! i) as [[[ty d] v]|] eqn:Hrow; cbn [fmap option_fmap option_map].
    + destruct (proj2 Hw _ _ Hrow) as (-> & a & Hd & Hid & Hv). rewrite bool_decide_eq_true_2 by done.
      rewrite (deserialize_serialize _ _ Hd). do 2 eexists. split; [reflexivity|].
      unfold at_snapshot. rewrite root_put_eq, root_committed. split; [exact Hid|]. split; [done|]. by apply crud_ok_same.
    + do 2 eexists. split; [reflexivity|]. split; [done|]. by apply crud_ok_same.
  - intros w a a' e v Hw [Hv Hsv] Hb Hrow Ha. cbn [ro_Save pg_crud].
    destruct (small_version v Hb) as [Hin Hadd]. pose proof (apply_one _ _ _ Ha) as Hroot.
    rewrite lookup_fmap in Hrow. destruct (rows_of w !! ID (root a)) as [[[ty d0] v0]|] eqn:Hr0; [|done].
    injection Hrow as Hv0. cbn in Hv0. subst v0.
    assert (Version (root a') = (v + 1)%Z) as Hv'.
    { rewrite Hroot. unfold Version in *. cbn. by rewrite Hv. }
    destruct (save_swaps w a' Hw) as (d & w' & Hd & Hs); [rewrite Hv'; lia|].
    assert (ID (root a') = ID (root a)) as Hid by by rewrite Hroot.
    assert (SnapshotVersion (root a') = v) as Hsv' by by rewrite Hroot.
    destruct (proj2 Hw _ _ Hr0) as (-> & _). unfold swap_row in Hs. rewrite Hsv', Hid, Hr0 in Hs.
    rewrite bool_decide_eq_false_2 in Hs by lia; rewrite bool_decide_eq_true_2 in Hs by done. destruct Hs as [-> Hl].
    do 2 eexists. split; [reflexivity|]. rewrite <- Hid in Hl |- *. rewrite <- Hv'. by apply (crud_ok_insert w w' a' d).
  - intros w i Hw. cbn [ro_Delete pg_crud]. rewrite lookup_fmap. unfold PgRepository.Delete. unfold_go.
    rewrite GetQuerier_at. destruct (snap_delete_law Background w i (repo_typeName r) (proj1 Hw) Husable) as (w1 & Hdel).
    destruct (rows_of w !! i) as [[[ty d] v]|] eqn:Hrow; cbn [fmap option_fmap option_map].
    + destruct (proj2 Hw _ _ Hrow) as (-> & _). rewrite bool_decide_eq_true_2 in Hdel by done.
      destruct Hdel as (-> & Hw1 & Hr1 & _). eexists. split; [reflexivity|]. unfold rl_leads, crud_ok.
      rewrite Hr1, fmap_delete. split; [|done]. split; [done|]. by apply map_Forall_delete, Hw.
    + destruct Hdel as (-> & Hl). do 2 eexists. split; [reflexivity|]. split; [done|]. by apply crud_ok_same.
Defined.
End PgCrud.

Section PgSourced.
Context {W Tx T E Dat : Type} (sql_state : goerr -> option string).
Context `{!AggregateRef T E, !AggregateRefLaws T E, !Event E}.
Context `{!AggregateEventStore W E, HES : !AggregateEventStoreLaws W E, !LoadsFromStart W E}.
Context `{!Has (tx_states Tx) W, !Clock W, !SnapshotTable W Tx Dat, HST : !SnapshotTableLaws W Tx Dat sql_state}.
Context `{!SharedDatabase W Tx E Dat sql_state}.
Context (r : PgEventSourcedRepository T Dat) `{!RepositoryLaws r}.
Context (Hes : es_usable (W := W) (E := E) Background).
Context (Htab : snap_usable (W := W) (Tx := Tx) (Dat := Dat) (sql_state := sql_state) Background).
Abbreviation rows_of := (snap_rows (sql_state := sql_state) (Tx := Tx) (Dat := Dat)).

Definition pg_sourced : EventSourcingOps W T := mkESOps
  (PgRepository.ES_Save (Tx := Tx) sql_state r) (PgRepository.ES_Load (Tx := Tx) r).

(** The streams of the suite have one event each. *)
Definition pg_holds (log : gmap string (list E)) (w : W) : Prop :=
  db_sim (Tx := Tx) sql_state r w log /\ map_Forall (fun _ l => length l = 1) log.

Lemma one_event_small log : map_Forall (fun _ l => length l = 1) log -> small (E := E) log.
Proof.
  intros Hl i. unfold mget. destruct (log !! i) as [l|] eqn:Hi; [|done]. specialize (Hl _ _ Hi). cbn in Hl.
  cbn. unfold zlen. rewrite Hl. done.
Qed.

#[refine] Definition pg_sourced_laws : EventSourcingLaws (reconstructor r) pg_sourced := {| sl_holds := pg_holds |}.
Proof.
  - intros w log a e i [Hd Hone] Hi He Ha. cbn [so_Save pg_sourced].
    pose proof (apply_one _ _ _ Ha) as Hroot. rewrite recon_root in Hroot.
    assert (mget [] log i = []) as Hnil by by unfold mget; rewrite Hi.
    assert (rows_of w !! i = None) as Hrow.
    { destruct (rows_of w !! i) as [rw|] eqn:Hrw; [|done]. by pose proof (row_nonempty _ _ _ _ _ _ Hd Hrw). }
    pose proof (held_new r (mget [] log i) (rows_of w !! i) i (fun _ => Hrow)) as Hh.
    assert (aggregate_id e = ID (root (reconstructor r i))) as He' by by rewrite recon_root.
    destruct (held_apply r _ _ _ _ _ _ Hh He' Ha) as [_ Hh'].
    assert (ID (root a) = i) as Hid by by rewrite Hroot.
    assert (map_Forall (fun _ l => length l = 1) (<[i := [e]]> log)) as Hone' by by apply map_Forall_insert_2.
    destruct (save_appends sql_state r Background Hes Htab w log a) as (a' & w' & Hs & Hd' & _).
    + done.
    + by rewrite Hid, Hnil in *.
    + by rewrite Hroot.
    + rewrite Hid, Hnil, Hroot. by apply one_event_small.
    + exists a', w'. split; [exact Hs|]. split; [|done]. by rewrite Hid, Hnil, Hroot in Hd'.
  - intros w log i [Hd Hone]. cbn [so_Load pg_sourced].
    destruct (load_run sql_state r Background Hes Htab w log i Hd (one_event_small _ Hone)) as (a & w' & Hl & Hd' & _ & Hfound).
    unfold spec_load in *. rewrite Hl. unfold mget in *.
    destruct (log !! i) as [[|e [|e' l]]|]; cbn [default] in *; try done.
    + intros Hw. unfold Datatypes.id in *. cbn [LoadFromHistory] in *. unfold ApplyHistory in *.
      pose proof (when_root e (reconstructor r i)) as Hwr.
      destruct (When e (reconstructor r i)) as [x [err|]]; [done|]. cbn [fst snd] in *.
      destruct (Hfound eq_refl) as (Hf & Hid & n & Hh). exists a, w'. split; [done|]. split; [done|]. split; [|done].
      apply (f_equal root) in Hf. unfold forget in Hf. rewrite !root_put_eq in Hf.
      apply (f_equal version) in Hf. unfold Version. cbn in Hf. rewrite Hf, Hwr.
      fold (root (reconstructor r i)). by rewrite recon_root.
    + exists a, (not_found i), w'. by split_and!.
Defined.
End PgSourced.

(** ** Properties *)

(** C15: The contract of repositories holds for all four: for aggregates of any type that start without
    history, to which every event of the suite applies, and which serialize, the CRUD repository in
    memory and the one on PostgreSQL pass every test of their suite from a repository without
    aggregates (a saved aggregate is found, a missing one is not found, a duplicate is a concurrency
    error after which the loaded aggregate can still be saved), and the event-sourced repository in
    memory and the one on PostgreSQL, at any snapshot interval, pass theirs, if the function that
    the caller gives applies one event. *)
Theorem repository_contract {T E D Dat} `{!AggregateRef T E, !AggregateRefLaws T E, !Event E}
    {M} `{!Clock M, !Has (InMemoryRepository T D) M, !HasLaws (InMemoryRepository T D) M}
    {W Tx} (sql_state : goerr -> option string) `{!Clock W, !Has (tx_states Tx) W}
    `{!SnapshotTable W Tx Dat, HST : !SnapshotTableLaws W Tx Dat sql_state}
    `{!AggregateEventStore W E, HES : !AggregateEventStoreLaws W E, !LoadsFromStart W E, !SharedDatabase W Tx E Dat sql_state}
    (s : SnapshotSerializer T D) `{!SerializerLaws s} (r : PgRepository T Dat) `{!SerializerLaws (repo_serializer r)}
    (er : PgEventSourcedRepository T Dat) `{HER : !RepositoryLaws er}
    (setFields : option (T -> T)) (mk : BaseEvent -> E) (fm : T -> GoM M T) (fw : T -> GoM W T) (nothing : T)
    (m : M) (w : W) :
  let newAgg := fun i => Done (reconstructor er i) in
  let rows := snap_rows (Tx := Tx) (Dat := Dat) (sql_state := sql_state) in
  (forall a, exists d, Serialize s a = Ok d) -> (forall a, exists d, Serialize (repo_serializer r) a = Ok d) ->
  suited newAgg setFields mk ->
  (forall m : M, part (S := InMemoryRepository T D) (now m).2 = part m) ->
  snap_usable (W := W) (Tx := Tx) (Dat := Dat) (sql_state := sql_state) Background ->
  es_usable (W := W) (E := E) Background ->
  (forall m i, exists e m', fm (reconstructor er i) m = (Done (ApplyChange (reconstructor er i) e).1, m') /\
     part (S := InMemoryRepository T D) m' = part m /\ aggregate_id e = i /\ (ApplyChange (reconstructor er i) e).2 = None) ->
  (forall w log i, db_sim (Tx := Tx) sql_state er w log ->
     exists e w', fw (reconstructor er i) w = (Done (ApplyChange (reconstructor er i) e).1, w') /\
       db_sim (Tx := Tx) sql_state er w' log /\ aggregate_id e = i /\ (ApplyChange (reconstructor er i) e).2 = None) ->
  part m = mkRepo ∅ s -> snap_ok (Tx := Tx) (Dat := Dat) (sql_state := sql_state) w -> es_ok (E := E) w ->
  rows w = ∅ -> (forall i, es_stream (E := E) w i = []) ->
  passing (TestRepositoryContract (memory_crud (D := D)) newAgg setFields mk) m (fun _ _ => True) /\
  passing (TestRepositoryContract (pg_crud (Tx := Tx) sql_state r) newAgg setFields mk) w (fun _ _ => True) /\
  passing (TestEventSourcingRepositoryContract newAgg (memory_sourced (D := D) nothing) (Some fm)) m (fun _ _ => True) /\
  passing (TestEventSourcingRepositoryContract newAgg (pg_sourced (Tx := Tx) sql_state er) (Some fw)) w (fun _ _ => True).
Proof.
  intros newAgg rows Hs Hr Hsuit Hclock Hu Heu Hfm Hfw Hm Hw Hew Hrows Hstr.
  assert (repository_ok s (part m)) as Hmem by by rewrite Hm; split; [apply map_Forall_empty|].
  split; [|split; [|split]].
  - eapply passing_conseq; [apply (crud_contract_passes _ _ _ _ (HR := memory_crud_laws Hclock s Hs) Hsuit m Hmem)|done].
    unfold rl_rows. cbn. by rewrite Hm.
  - eapply passing_conseq; [apply (crud_contract_passes _ _ _ _ (HR := pg_crud_laws sql_state r Hr Hu) Hsuit w)|done].
    + split; [exact Hw|]. unfold rows in Hrows. rewrite Hrows. apply map_Forall_empty.
    + unfold rl_rows. cbn. unfold rows in Hrows. by rewrite Hrows.
  - eapply passing_conseq; [eapply (es_contract_passes _ (reconstructor er) (HR := memory_sourced_laws s Hs _ (recon_root (r := er)) nothing) _ fm m); [done| |]|done].
    + intros m' log i [H1 H2]. destruct (Hfm m' i) as (e & m'' & H3 & H4 & H5 & H6).
      exists (ApplyChange (reconstructor er i) e).1, e, m''. split; [done|]. split; [by split; rewrite H4|].
      split; [done|]. by rewrite <- H6, <- surjective_pairing.
    + split; [done|]. by rewrite Hm.
  - eapply passing_conseq; [eapply (es_contract_passes _ (reconstructor er) (HR := pg_sourced_laws sql_state er Heu Hu) _ fw w); [done| |]|done].
    + intros w' log i [H1 H2]. destruct (Hfw w' log i H1) as (e & w'' & H3 & H4 & H5 & H6).
      exists (ApplyChange (reconstructor er i) e).1, e, w''. split; [done|]. split; [by split|].
      split; [done|]. by rewrite <- H6, <- surjective_pairing.
    + split; [|apply map_Forall_empty]. split; [done|done| |].
      * intros i. by rewrite Hstr.
      * intros i rw Hrw. unfold rows in Hrows. by rewrite Hrows in Hrw.
Qed.

(** ** Concrete repositories: accounts that take every event *)
Module DemoContractRepos.
Import DemoEventStore.
Export DemoPgRepository.

#[export] Instance open_account : AggregateRef account ev := {
  GetAggregateRoot := account_root;
  put_root q a := mkAccount q (balance a);
  When e a := (mkAccount (account_root a) (balance a + amount e), None) }.
#[export] Instance open_account_laws : AggregateRefLaws account ev.
Proof. split; by intros; destruct a. Qed.

Definition plain : SnapshotSerializer account account := mkSerializer (fun a => Ok (committed a)) Ok.
#[export] Instance plain_laws : SerializerLaws plain.
Proof. split; [by intros a d [= <-]|by eexists]. Qed.

Definition crud_repo : PgRepository account account := mkPgRepo plain "Account".
Definition sourced_repo (every : Z) : PgEventSourcedRepository account account :=
  mkPgESRepo (fun id => mkAccount (mkRoot (Entity.mk id) 0 (-1) []) 0) plain "Account" every.
#[export] Instance sourced_repo_laws every : RepositoryLaws (sourced_repo every).
Proof. split; [exact plain_laws|by eexists|done]. Qed.

Definition rich (a : account) : account := mkAccount (account_root a) 100.
Definition mk_ev (b : BaseEvent) : ev := mkEv (AggregateID b) 1.
Definition deposit {S} (a : account) : GoM S account :=
  mret (ApplyChange a (mkEv (ID (root a)) 5)).1.

Definition memory_world : Type := Z * InMemoryRepository account account.
#[export] Instance memory_clock : Clock memory_world := fun w => (w.1, ((w.1 + 1)%Z, w.2)).
Definition m0 : memory_world := (3%Z, mkRepo ∅ plain).
End DemoContractRepos.
Import DemoEventStore DemoContractRepos.

(** The event-sourced repository takes a snapshot at every version. *)
Lemma repository_contract_witness :
  let newAgg := fun i => Done (reconstructor (sourced_repo 1) i) in
  passing (TestRepositoryContract (memory_crud (D := account)) newAgg (Some rich) mk_ev) m0 (fun _ _ => True) /\
  passing (TestRepositoryContract (pg_crud (Tx := unit) demo_state crud_repo) newAgg (Some rich) mk_ev) w0 (fun _ _ => True) /\
  passing (TestEventSourcingRepositoryContract newAgg (pg_sourced (Tx := unit) demo_state (sourced_repo 1)) (Some deposit)) w0
    (fun _ _ => True).
Proof.
  intros newAgg.
  destruct (repository_contract (M := memory_world) (W := world) (Tx := unit) demo_state plain crud_repo (sourced_repo 1)
    (Some rich) mk_ev deposit deposit (mkAccount (mkRoot (Entity.mk "") 0 (-1) []) 0) m0 w0)
    as (H1 & H2 & _ & H4); [by eexists|by eexists| |by intros|exact I|exact I| | |reflexivity|exact I|exact I|reflexivity|done|].
  - split; [|by intros f a [= <-]|done]. intros i _. by eexists.
  - intros m i. by do 2 eexists.
  - intros w log i Hd. do 2 eexists. split; [reflexivity|]. by split.
  - split; [exact H1|]. split; [exact H2|exact H4].
Defined.
