(* ===== verification/PgJob.v ===== *)
(** * The PostgreSQL job store: [src/job/pg/job_store.go]

    A job is a row of [ddd_jobs] ([src/pg/migrate.go]). The statements on the table
    are a parameter, [JobTable]; [JobTableLaws] is what PostgreSQL documents of them.
    What is read back of a row is [restored]. *)

From S2P Require Import Prelude Errors Trace Pg Bus Job.

Record job_row := mkJobRow {
  jr_id : string;
  jr_command : string;
  jr_command_type : string;
  jr_status : string;
  jr_result : option string;
  jr_result_type : option string;
  jr_error : option string;
  jr_created_at : Z;
  jr_started_at : option Z;
  jr_completed_at : option Z;
  jr_timeout_ns : Z;
  jr_retry_count : Z;
  jr_max_retries : Z }.

(** The columns that [Update] sets. *)
Record job_update := mkJobUpdate {
  ju_status : string;
  ju_result : option string;
  ju_result_type : option string;
  ju_error : option string;
  ju_started_at : option Z;
  ju_completed_at : option Z;
  ju_timeout_ns : Z;
  ju_retry_count : Z;
  ju_max_retries : Z }.

Record execution_row := mkExecutionRow {
  xr_job_id : string;
  xr_attempt : Z;
  xr_status : string;
  xr_error : option string;
  xr_started_at : Z;
  xr_completed_at : Z;
  xr_duration_ns : option Z }.

Class JobTable (W Tx : Type) := {
  (** [INSERT INTO ddd_jobs ...] *)
  jobs_insert : option Tx -> context -> job_row -> GoM W error;
  (** [UPDATE ddd_jobs SET ... WHERE id=$1] *)
  jobs_update : option Tx -> context -> string -> job_update -> GoM W (sql_result + goerr);
  (** [SELECT ... FROM ddd_jobs WHERE id = $1] and [Scan] *)
  jobs_select : option Tx -> context -> string -> GoM W (job_row + goerr);
  (** [SELECT ... FROM ddd_jobs WHERE status = $1] *)
  jobs_list : option Tx -> context -> string -> GoM W (query_result job_row);
  (** [DELETE FROM ddd_jobs WHERE id = $1] *)
  jobs_delete : option Tx -> context -> string -> GoM W (sql_result + goerr);
  (** [INSERT INTO ddd_job_execution_log ...] *)
  executions_insert : option Tx -> context -> execution_row -> GoM W error }.

(** The [%q] rendering of a type name, which has nothing to escape. *)
Definition quoted (s : string) : string :=
  let q := String (Ascii.ascii_of_nat 34) "" in q +:+ s +:+ q.

(** The conversion [JobStatus(status)] of a text, if it is one of the statuses. *)
Definition status_of_string (s : string) : option JobStatus :=
  if bool_decide (s = "pending") then Some JobStatusPending
  else if bool_decide (s = "running") then Some JobStatusRunning
  else if bool_decide (s = "completed") then Some JobStatusCompleted
  else if bool_decide (s = "failed") then Some JobStatusFailed
  else if bool_decide (s = "cancelled") then Some JobStatusCancelled
  else None.

Section Operations.
Context {W Tx V : Type} `{!Dynamic V, !Clock W, !Has (tx_states Tx) W, !JobTable W Tx}.
Context (reflect_New : rtype -> V) (json_Marshal : V -> string + goerr).
(** [json.Unmarshal] into a new [any], and into an instance. *)
Context (json_Unmarshal_any : string -> result V) (json_Unmarshal : string -> V -> result V).

Record PgJobStore := mkPgJobStore { registry : option (gmap string rtype) }.

(** [NewJobStore] with the registries given as options, the last one wins. *)
Definition NewJobStore (opts : list (option (gmap string rtype))) : PgJobStore :=
  mkPgJobStore (default None (last opts)).

Context (s : PgJobStore).

(** [v == nil]. *)
Definition is_nil (v : V) : bool := match type_of v with None => true | Some _ => false end.
Definition nilable (v : V) : option V := if is_nil v then None else Some v.

Definition pg_Create (ctx : context) (job : Job V) : GoM W error :=
  q ← GetQuerier (Tx := Tx) ctx;
  match json_Marshal (command job) with
  | inr err => mret (Some (EWrap "marshal command: " err ""))
  | inl cmdData =>
      let commandType := if bool_decide (commandType job = "") then TypeName (command job) else commandType job in
      match JSONOrNull json_Marshal (nilable (job_result job)) with
      | Err err => mret (Some (EWrap "marshal result: " err ""))
      | Ok resultData =>
          jobs_insert q ctx (mkJobRow (id job) cmdData commandType (status_String (status job)) resultData
            (NullString (resultType job)) (NullString (err job)) (createdAt job) (NullTime (startedAt job))
            (NullTime (completedAt job)) (timeout job) (retryCount job) (maxRetries job))
      end
  end.

Definition unmarshalTyped (data typeName : string) : result V :=
  match registry s, bool_decide (typeName = "") with
  | None, _ | Some _, true =>
      match json_Unmarshal_any data with
      | Err err => Err (EWrap "unmarshal untyped data: " err "")
      | Ok v => Ok v
      end
  | Some reg, false =>
      match NewInstance reflect_New typeName reg with
      | None =>
          match json_Unmarshal_any data with
          | Err err => Err (EWrap ("unmarshal unregistered type " +:+ quoted typeName +:+ ": ") err "")
          | Ok v => Ok v
          end
      | Some inst =>
          match json_Unmarshal data inst with
          | Err err => Err (EWrap ("unmarshal type " +:+ quoted typeName +:+ ": ") err "")
          | Ok v => Ok v
          end
      end
  end.

(** The JSON columns: [len(data) > 0]. *)
Definition unmarshal_column (data : option string) (typeName what : string) : result V :=
  match data with
  | None | Some "" => Ok nil_any
  | Some data =>
      match unmarshalTyped data typeName with
      | Err err => Err (EWrap ("unmarshal " +:+ what +:+ ": ") err "")
      | Ok v => Ok v
      end
  end.

(** The job of a row. A status that is none of the constants is no valid transition,
    and the error of [RestoreJobState] is ignored. *)
Definition scanJob (row : job_row + goerr) : GoM W (result (Job V)) :=
  match row with
  | inr err => mret (Err err)
  | inl row =>
      match unmarshal_column (jr_result row) (default "" (jr_result_type row)) "result" with
      | Err err => mret (Err err)
      | Ok result =>
          match unmarshal_column (Some (jr_command row)) (jr_command_type row) "command" with
          | Err err => mret (Err err)
          | Ok cmd =>
              now ← time_now;
              let job := NewJob now (jr_id row) cmd
                [WithTimeout (jr_timeout_ns row); WithMaxRetries (jr_max_retries row)] in
              mret (Ok (match status_of_string (jr_status row) with
                        | Some st =>
                            (RestoreJobState st result (default "" (jr_result_type row))
                               (default "" (jr_error row)) (default time_zero (jr_started_at row))
                               (default time_zero (jr_completed_at row)) job).1
                        | None => job
                        end))
          end
      end
  end.

Definition pg_Get (ctx : context) (i : string) : GoM W (result (Job V)) :=
  q ← GetQuerier (Tx := Tx) ctx;
  row ← jobs_select q ctx i;
  job ← scanJob row;
  mret (match job with
        | Ok job => Ok job
        | Err err => Err (if is_no_rows err then job_error i ErrNotFound else err)
        end).

Definition affected (i : string) (res : sql_result + goerr) : error :=
  match res with
  | inr err => Some err
  | inl (inr err) => Some (EWrap "check rows affected: " err "")
  | inl (inl n) => if bool_decide (n = 0)%Z then Some (job_error i ErrNotFound) else None
  end.

Definition pg_Update (ctx : context) (job : Job V) : GoM W error :=
  q ← GetQuerier (Tx := Tx) ctx;
  let rt := if bool_decide (resultType job = "") && negb (is_nil (job_result job))
            then TypeName (job_result job) else resultType job in
  match JSONOrNull json_Marshal (nilable (job_result job)) with
  | Err err => mret (Some (EWrap "marshal result: " err ""))
  | Ok resultData =>
      res ← jobs_update q ctx (id job) (mkJobUpdate (status_String (status job)) resultData (NullString rt)
        (NullString (err job)) (NullTime (startedAt job)) (NullTime (completedAt job))
        (timeout job) (retryCount job) (maxRetries job));
      mret (affected (id job) res)
  end.

(** The loop over the rows of [List]. *)
Fixpoint scan_jobs (rows : list (job_row + goerr)) (rows_err : error) : GoM W (result (list (Job V))) :=
  match rows with
  | [] => mret (match rows_err with Some e => Err (EWrap "iterate jobs: " e "") | None => Ok [] end)
  | row :: rest =>
      job ← scanJob row;
      match job with
      | Err err => mret (Err err)
      | Ok job =>
          jobs ← scan_jobs rest rows_err;
          mret (match jobs with Ok l => Ok (job :: l) | Err err => Err err end)
      end
  end.

Definition pg_List (ctx : context) (st : JobStatus) : GoM W (result (list (Job V))) :=
  q ← GetQuerier (Tx := Tx) ctx;
  rows ← jobs_list q ctx (status_String st);
  match rows with
  | inr err => mret (Err err)
  | inl (rows, rows_err) => scan_jobs rows rows_err
  end.

Definition pg_Delete (ctx : context) (i : string) : GoM W error :=
  q ← GetQuerier (Tx := Tx) ctx;
  res ← jobs_delete q ctx i;
  mret (affected i res).

(** [time.Since] is read before [time.Now]. *)
Definition RecordJobExecution (ctx : context) (jobID : string) (attempt : Z) (st : string) (jobErr : error)
    (started : Z) : GoM W error :=
  q ← GetQuerier (Tx := Tx) ctx;
  durationNs ← (if time_is_zero started then mret None
                else now ← time_now; mret (Some (now -i started)));
  now ← time_now;
  executions_insert q ctx (mkExecutionRow jobID attempt st
    (match jobErr with Some e => Some (Error e) | None => None end) started now durationNs).

Definition pg_job_store (ctx : context) : JobStore W V :=
  mkJobStore (pg_Create ctx) (pg_Get ctx) (pg_Update ctx) (pg_List ctx) (pg_Delete ctx).
End Operations.
Arguments PgJobStore : clear implicits.

(** ** What PostgreSQL documents of the table

    [jr_id] is the primary key. JSONB columns normalize their text ([jobs_jsonb]) and
    times have another resolution ([jobs_time]). *)
Section Rows.
Context (jsonb : string -> string) (time : Z -> Z).

Definition stored_row (r : job_row) : job_row :=
  mkJobRow (jr_id r) (jsonb (jr_command r)) (jr_command_type r) (jr_status r) (jsonb <$> jr_result r)
    (jr_result_type r) (jr_error r) (time (jr_created_at r)) (time <$> jr_started_at r)
    (time <$> jr_completed_at r) (jr_timeout_ns r) (jr_retry_count r) (jr_max_retries r).

Definition updated_row (u : job_update) (r : job_row) : job_row :=
  mkJobRow (jr_id r) (jr_command r) (jr_command_type r) (ju_status u) (jsonb <$> ju_result u)
    (ju_result_type u) (ju_error u) (jr_created_at r) (time <$> ju_started_at u)
    (time <$> ju_completed_at u) (ju_timeout_ns u) (ju_retry_count u) (ju_max_retries u).
End Rows.

Class JobTableLaws (W Tx : Type) `{!Has (tx_states Tx) W, !Clock W, !JobTable W Tx} := {
  jobs_ok : W -> Prop;
  jobs_usable : context -> Prop;
  jobs_rows : W -> gmap string job_row;
  jobs_jsonb : string -> string;
  jobs_time : Z -> Z;
  jobs_leads (w w' : W) (rows : gmap string job_row) : Prop := jobs_ok w' /\ jobs_rows w' = rows;
  jobs_clock : forall w, jobs_ok w -> exists t w', now w = (t, w') /\ jobs_leads w w' (jobs_rows w);
  jobs_insert_law : forall ctx w r, jobs_ok w -> jobs_usable ctx ->
    exists w', match jobs_rows w !! jr_id r with
      | None => jobs_insert (querier_at ctx w) ctx r w = (Done None, w') /\
          jobs_leads w w' (<[jr_id r := stored_row jobs_jsonb jobs_time r]> (jobs_rows w))
      | Some _ => exists e, jobs_insert (querier_at ctx w) ctx r w = (Done (Some e), w') /\
          jobs_leads w w' (jobs_rows w)
      end;
  jobs_update_law : forall ctx w i u, jobs_ok w -> jobs_usable ctx ->
    exists w', match jobs_rows w !! i with
      | Some r => jobs_update (querier_at ctx w) ctx i u w = (Done (inl (inl 1%Z)), w') /\
          jobs_leads w w' (<[i := updated_row jobs_jsonb jobs_time u r]> (jobs_rows w))
      | None => jobs_update (querier_at ctx w) ctx i u w = (Done (inl (inl 0%Z)), w') /\
          jobs_leads w w' (jobs_rows w)
      end;
  jobs_select_law : forall ctx w i, jobs_ok w -> jobs_usable ctx ->
    exists w', jobs_leads w w' (jobs_rows w) /\
      jobs_select (querier_at ctx w) ctx i w =
        (Done (match jobs_rows w !! i with Some r => inl r | None => inr sql_ErrNoRows end), w') }.

(** What the store relies on of its codec for a value: it marshals, and what PostgreSQL
    keeps of its text unmarshals, under the name of its type, to that value. *)
Definition decodes {V} `{!Dynamic V} (reflect_New : rtype -> V) (json_Marshal : V -> string + goerr)
    (json_Unmarshal_any : string -> result V) (json_Unmarshal : string -> V -> result V)
    (jsonb : string -> string) (s : PgJobStore) (v : V) : Prop :=
  exists d, json_Marshal v = inl d /\ jsonb d <> "" /\
    unmarshalTyped reflect_New json_Unmarshal_any json_Unmarshal s (jsonb d) (TypeName v) = Ok v.

(** ** Lemmas *)

Section Readback.
Context {W Tx V : Type} `{!Dynamic V, !Clock W, !Has (tx_states Tx) W, !JobTable W Tx}.
Context (reflect_New : rtype -> V) (json_Marshal : V -> string + goerr).
Context (json_Unmarshal_any : string -> result V) (json_Unmarshal : string -> V -> result V).
Context (time : Z -> Z).

(** What a job is read back as: the status of a running job and its outcome are
    restored, any other status is lost, and so are the number of retries, the
    creation time and the type of the command. *)
Definition restored (now : Z) (rt : string) (j : Job V) : Job V :=
  let fresh := NewJob now (id j) (command j) [WithTimeout (timeout j); WithMaxRetries (maxRetries j)] in
  if bool_decide (status j = JobStatusRunning)
  then with_state fresh JobStatusRunning (job_result j) rt (err j)
         (default time_zero (time <$> NullTime (startedAt j))) (default time_zero (time <$> NullTime (completedAt j)))
  else fresh.

Lemma status_of_status st : status_of_string (status_String st) = Some st.
Proof. by destruct st. Qed.

Lemma json_or_null v :
  (is_nil v = false -> exists d, json_Marshal v = inl d) ->
  exists o, JSONOrNull json_Marshal (nilable v) = Ok o /\
    (if is_nil v then o = None else exists d, json_Marshal v = inl d /\ o = Some d).
Proof.
  intros Hm. unfold nilable. destruct (is_nil v) eqn:Hn; [by exists None|].
  destruct (Hm eq_refl) as [d Hd]. exists (Some d). cbn. rewrite Hd. split; [done|]. by exists d.
Qed.

(** The JSON column of a value that decodes. *)
Lemma column_restored s (jsonb : string -> string) v o what :
  (is_nil v = true -> v = nil_any) ->
  (is_nil v = false -> decodes reflect_New json_Marshal json_Unmarshal_any json_Unmarshal jsonb s v) ->
  (if is_nil v then o = None else exists d, json_Marshal v = inl d /\ o = Some d) ->
  unmarshal_column reflect_New json_Unmarshal_any json_Unmarshal s (jsonb <$> o) (TypeName v) what = Ok v.
Proof.
  intros Hnil Hc Ho. destruct (is_nil v) eqn:Hn.
  - subst o. cbn. by rewrite Hnil.
  - destruct Ho as (d & Hd & ->). destruct (Hc eq_refl) as (d' & Hd' & Hne & Hu).
    rewrite Hd in Hd'. injection Hd' as <-. cbn. destruct (jsonb d); [done|]. by rewrite Hu.
Qed.

(** The type kept beside a result. *)
Lemma result_type_kept v ty : ty = "" \/ ty = TypeName v ->
  (if bool_decide (ty = "") && true then TypeName v else ty) = TypeName v.
Proof. intros [-> | ->]; [done|]. by case_bool_decide. Qed.

Lemma null_string x : default "" (NullString x) = x.
Proof. unfold NullString. by case_bool_decide. Qed.

(** A row whose JSON columns decode, scanned. *)
Lemma scanJob_stored s (jsonb : string -> string) (j : Job V) c ct o rt created (w w' : W) t :
  unmarshal_column reflect_New json_Unmarshal_any json_Unmarshal s (jsonb <$> o) rt "result" = Ok (job_result j) ->
  unmarshal_column reflect_New json_Unmarshal_any json_Unmarshal s (Some (jsonb c)) ct "command" = Ok (command j) ->
  now w = (t, w') ->
  scanJob reflect_New json_Unmarshal_any json_Unmarshal s
    (inl (mkJobRow (id j) (jsonb c) ct (status_String (status j)) (jsonb <$> o) (NullString rt) (NullString (err j)) created
       (time <$> NullTime (startedAt j)) (time <$> NullTime (completedAt j)) (timeout j) (retryCount j) (maxRetries j))) w =
  (Done (Ok (restored t rt j)), w').
Proof.
  intros Hr Hc Hnow. unfold scanJob. cbn [jr_result jr_result_type jr_command jr_command_type]. rewrite null_string, Hr, Hc.
  unfold_go. rewrite Hnow. cbv beta iota. cbn [jr_status jr_error jr_started_at jr_completed_at jr_timeout_ns jr_max_retries jr_id].
  rewrite status_of_status, !null_string. do 3 f_equal. unfold restored. clear. by destruct (status j).
Qed.
End Readback.

(** ** Properties *)


(** ** A concrete table *)
Module DemoPgJob.
Inductive value := VNil | VText (s : string).
#[export] Instance demo_dynamic : Dynamic value := {
  nil_any := VNil;
  type_of v := match v with VNil => None | VText _ => Some (TNamed "" "" "text") end;
  as_error _ := None }.

Definition marshal (v : value) : string + goerr :=
  match v with VNil => inl "null" | VText s => inl ("t" +:+ s) end.
Definition unmarshal_any (d : string) : result value :=
  match d with String _ s => Ok (VText s) | "" => Err (ENew "unexpected end of JSON input") end.
Definition unmarshal (d : string) (_ : value) : result value := unmarshal_any d.
Definition store : PgJobStore := mkPgJobStore None.

Record world := mkWorld { time : Z; table : gmap string job_row; txs : tx_states unit }.
#[export] Instance demo_clock : Clock world := fun w => (time w, mkWorld (time w + 1) (table w) (txs w)).
#[export] Instance demo_txs : Has (tx_states unit) world :=
  { part := txs; set_part t w := mkWorld (time w) (table w) t }.
Definition set_table (t : gmap string job_row) (w : world) : world := mkWorld (time w) t (txs w).

#[export] Instance demo_table : JobTable world unit := {
  jobs_insert _ _ r := fun w =>
    match table w !! jr_id r with
    | Some _ => (Done (Some (ENew "duplicate key")), w)
    | None => (Done None, set_table (<[jr_id r := stored_row (fun d => d) (fun t => t) r]> (table w)) w)
    end;
  jobs_update _ _ i u := fun w =>
    match table w !! i with
    | Some r => (Done (inl (inl 1%Z)), set_table (<[i := updated_row (fun d => d) (fun t => t) u r]> (table w)) w)
    | None => (Done (inl (inl 0%Z)), w)
    end;
  jobs_select _ _ i := fun w =>
    (Done (match table w !! i with Some r => inl r | None => inr sql_ErrNoRows end), w);
  jobs_list _ _ st := fun w =>
    (Done (inl (map inl (List.filter (fun r => bool_decide (jr_status r = st)) (map snd (map_to_list (table w)))), None)), w);
  jobs_delete _ _ i := fun w =>
    match table w !! i with
    | Some _ => (Done (inl (inl 1%Z)), set_table (delete i (table w)) w)
    | None => (Done (inl (inl 0%Z)), w)
    end;
  executions_insert _ _ _ := mret None }.

#[export] Program Instance demo_laws : JobTableLaws world unit := {
  jobs_ok _ := True;
  jobs_usable _ := True;
  jobs_rows := table;
  jobs_jsonb d := d;
  jobs_time t := t }.
Next Obligation. intros w _. do 2 eexists. by split_and!. Qed.
Next Obligation.
  intros ctx w r _ _. cbn. destruct (table w !! jr_id r); eexists; [|by split_and!].
  eexists. by split_and!.
Qed.
Next Obligation. intros ctx w i u _ _. cbn. destruct (table w !! i); eexists; by split_and!. Qed.
Next Obligation. intros ctx w i _ _. exists w. by split_and!. Qed.

Definition job0 : Job value := NewJob 7 "j1" (VText "cmd") [WithMaxRetries 3].
(** The job after two attempts, the second of which succeeded. *)
Definition job1 : Job value := with_retries (with_state job0 JobStatusCompleted (VText "ok") "" "" 8 9) 1.
Definition w0 : world := mkWorld 20 ∅ [].
End DemoPgJob.
Import DemoPgJob.

(** The completed job is listed as completed and read back as pending. *)
Example completed_reads_pending :
  let s := pg_job_store (fun _ => VNil) marshal unmarshal_any unmarshal store Background (W := world) (Tx := unit) in
  let m := _ ← Job.Create s job0; _ ← Job.Update s job1; Job.List s JobStatusCompleted in
  match (m w0).1 with Done (Ok l) => map status l = [JobStatusPending] | _ => False end.
Proof. vm_compute. reflexivity. Qed.

