(* ===== verification/ContractJobs.v ===== *)
(** * The contract of job stores: [src/job/core/jobtest/job_store_contract.go]

    The suite, an interface of laws that says what both job stores promise, the
    proof that a store with these laws passes, and the two stores: in memory and
    on PostgreSQL, which loses most of a job's state but not what the laws ask. *)

From S2P Require Import Prelude Errors Testing Trace Pg Bus Job PgJob.

Section Suite.
Context {W V : Type} `{!Dynamic V, !Clock W} (newStore : GoM W unit) (store : JobStore W V).
(** [map[string]any{"action": "test"}]. *)
Context (action_test : V).

Definition new_job (i : string) (cmd : V) : GoM W (Job V) :=
  t ← time_now; mret (NewJob t i cmd []).
Definition must_create (j : Job V) (format : string) : TestM W unit :=
  err ← call (Job.Create store j); must err format.
Definition must_get (i format : string) : TestM W (Job V) :=
  r ← call (Job.Get store i); must_ok r format.
Definition must_list (st : JobStatus) (format : string) : TestM W (list (Job V)) :=
  r ← call (Job.List store st); must_ok r format.
(** [job.RestoreJobState(JobStatusRunning, nil, "", "", time.Time{}, time.Time{})]; its error is ignored. *)
Definition restored_running (j : Job V) : Job V :=
  (RestoreJobState JobStatusRunning nil_any "" "" time_zero time_zero j).1.
Definition has_status (j : Job V) (st : JobStatus) : bool := bool_decide (status j = st).

Fixpoint create_all (l : list (Job V)) : TestM W unit :=
  match l with
  | [] => mret tt
  | j :: l => _ ← must_create j "Create failed: %v"; create_all l
  end.

Definition TestJobStoreContract : TestM W unit :=
  _ ← t_Run "CreateAndGet" (
    _ ← call newStore;
    job ← call (new_job "contract-create-get" action_test);
    _ ← must_create job "Create failed: %v";
    got ← must_get "contract-create-get" "Get failed: %v";
    _ ← expect (bool_decide (id got = "contract-create-get")) "expected ID 'contract-create-get', got %q";
    expect (has_status got JobStatusPending) "expected status pending, got %s");
  _ ← t_Run "CreateDuplicate" (
    _ ← call newStore;
    job ← call (new_job "contract-dup" action_test);
    _ ← must_create job "first Create failed: %v";
    err ← call (Job.Create store job);
    _ ← must_fail err "expected error for duplicate job";
    mret tt);
  _ ← t_Run "GetNotFound" (
    _ ← call newStore;
    r ← call (Job.Get store "contract-nonexistent");
    _ ← must_err r "expected error for nonexistent job";
    mret tt);
  _ ← t_Run "Update" (
    _ ← call newStore;
    job ← call (new_job "contract-update" action_test);
    _ ← must_create job "Create failed: %v";
    t ← call time_now;
    let job := MarkRunning t job in
    err ← call (Job.Update store job);
    _ ← must err "Update failed: %v";
    got ← must_get "contract-update" "Get failed: %v";
    expect (has_status got JobStatusRunning) "expected status running, got %s");
  _ ← t_Run "UpdateNotFound" (
    _ ← call newStore;
    job ← call (new_job "contract-update-noexist" nil_any);
    err ← call (Job.Update store (restored_running job));
    _ ← must_fail err "expected error for updating nonexistent job";
    mret tt);
  _ ← t_Run "Delete" (
    _ ← call newStore;
    job ← call (new_job "contract-delete" action_test);
    _ ← must_create job "Create failed: %v";
    err ← call (Job.Delete store "contract-delete");
    _ ← must err "Delete failed: %v";
    r ← call (Job.Get store "contract-delete");
    _ ← must_err r "expected error after delete";
    mret tt);
  _ ← t_Run "DeleteNotFound" (
    _ ← call newStore;
    err ← call (Job.Delete store "contract-del-noexist");
    _ ← must_fail err "expected error for deleting nonexistent job";
    mret tt);
  t_Run "ListByStatus" (
    _ ← call newStore;
    p1 ← call (new_job "contract-list-p1" action_test);
    p2 ← call (new_job "contract-list-p2" action_test);
    r1 ← call (new_job "contract-list-r1" action_test);
    _ ← create_all [p1; p2; restored_running r1];
    pending ← must_list JobStatusPending "List pending failed: %v";
    _ ← expect (bool_decide (zlen pending = 2%Z)) "expected 2 pending, got %d";
    running ← must_list JobStatusRunning "List running failed: %v";
    _ ← expect (bool_decide (zlen running = 1%Z)) "expected 1 running, got %d";
    completed ← must_list JobStatusCompleted "List completed failed: %v";
    expect (bool_decide (zlen completed = 0%Z)) "expected 0 completed, got %d").
End Suite.

(** ** What both job stores promise

    A store maps identities to statuses. The status of a job that is read back is the stored
    one only if that is pending or running. *)

Definition with_status (st : JobStatus) (rows : gmap string JobStatus) : list string :=
  map fst (List.filter (fun p => bool_decide (p.2 = st)) (map_to_list rows)).

Class JobStoreLaws {W V : Type} `{!Dynamic V, !Clock W} (store : JobStore W V) := {
  js_ok : W -> Prop;
  js_storable : V -> Prop;
  js_rows : W -> gmap string JobStatus;
  js_leads (w w' : W) (rows : gmap string JobStatus) : Prop := js_ok w' /\ js_rows w' = rows;
  js_clock : forall w, js_ok w -> exists t w', now w = (t, w') /\ js_leads w w' (js_rows w);
  js_create : forall w j, js_ok w -> js_storable (command j) -> commandType j = "" -> job_result j = nil_any ->
    match js_rows w !! id j with
    | None => exists w', Job.Create store j w = (Done None, w') /\ js_leads w w' (<[id j := status j]> (js_rows w))
    | Some _ => exists e w', Job.Create store j w = (Done (Some e), w') /\ js_leads w w' (js_rows w)
    end;
  js_get : forall w i, js_ok w ->
    match js_rows w !! i with
    | None => exists e w', Job.Get store i w = (Done (Err e), w') /\ js_leads w w' (js_rows w)
    | Some st => exists j w', Job.Get store i w = (Done (Ok j), w') /\ js_leads w w' (js_rows w) /\ id j = i /\
        (st = JobStatusPending \/ st = JobStatusRunning -> status j = st)
    end;
  js_update : forall w j, js_ok w -> job_result j = nil_any ->
    match js_rows w !! id j with
    | None => exists e w', Job.Update store j w = (Done (Some e), w') /\ js_leads w w' (js_rows w)
    | Some _ => exists w', Job.Update store j w = (Done None, w') /\ js_leads w w' (<[id j := status j]> (js_rows w))
    end;
  js_delete : forall w i, js_ok w ->
    match js_rows w !! i with
    | None => exists e w', Job.Delete store i w = (Done (Some e), w') /\ js_leads w w' (js_rows w)
    | Some _ => exists w', Job.Delete store i w = (Done None, w') /\ js_leads w w' (delete i (js_rows w))
    end;
  js_list : forall w st, js_ok w -> exists l w', Job.List store st w = (Done (Ok l), w') /\ js_leads w w' (js_rows w) /\
    map id l ≡ₚ with_status st (js_rows w) }.

Section Passing.
Context {W V : Type} `{!Dynamic V, !Clock W} (newStore : GoM W unit) (store : JobStore W V) `{HJ : !JobStoreLaws store}.
Context (action_test : V) (Hcmd : js_storable action_test).
Context (Hnew : forall w, js_ok w -> exists w', newStore w = (Done tt, w') /\ js_leads w w' ∅).
Context {B : Type}.
Implicit Types (Q : option B -> W -> Prop).

Definition rows_are (m : gmap string JobStatus) (w : W) : Prop := js_ok w /\ js_rows w = m.

Lemma step_new_jobs (k : unit -> TestM W B) w Q :
  js_ok w -> (forall w', rows_are ∅ w' -> passing (k tt) w' Q) -> passing (x ← call newStore; k x) w Q.
Proof. intros Hw Hk. destruct (Hnew w Hw) as (w' & Hr & Hh). test_call Hr. by apply Hk. Qed.

Lemma step_now m (k : Z -> TestM W B) w Q :
  rows_are m w -> (forall t w', rows_are m w' -> passing (k t) w' Q) -> passing (x ← call time_now; k x) w Q.
Proof.
  intros [Hw Hm] Hk. destruct (js_clock w Hw) as (t & w' & Hr & Hh). rewrite Hm in Hh.
  eapply passing_step_call; [unfold time_now; by rewrite Hr|]. by apply Hk.
Qed.

Lemma step_job m i cmd (k : Job V -> TestM W B) w Q : rows_are m w ->
  (forall t w', rows_are m w' -> passing (k (NewJob t i cmd [])) w' Q) -> passing (x ← call (new_job i cmd); k x) w Q.
Proof.
  intros [Hw Hm] Hk. destruct (js_clock w Hw) as (t & w' & Hr & Hh). rewrite Hm in Hh.
  eapply passing_step_call; [unfold new_job; unfold_go; by rewrite Hr|]. by apply Hk.
Qed.

Lemma step_create m j format (k : unit -> TestM W B) w Q :
  rows_are m w -> js_storable (command j) -> commandType j = "" -> job_result j = nil_any -> m !! id j = None ->
  (forall w', rows_are (<[id j := status j]> m) w' -> passing (k tt) w' Q) ->
  passing (x ← must_create store j format; k x) w Q.
Proof.
  intros [Hw <-] Hs Ht Hn Hm Hk. pose proof (js_create w j Hw Hs Ht Hn) as Hc. rewrite Hm in Hc.
  destruct Hc as (w' & Hr & Hh). unfold must_create. test_step. test_call Hr. test_step. by apply Hk.
Qed.

Lemma step_duplicate m st j (k : error -> TestM W B) w Q :
  rows_are m w -> js_storable (command j) -> commandType j = "" -> job_result j = nil_any -> m !! id j = Some st ->
  (forall e w', rows_are m w' -> passing (k (Some e)) w' Q) ->
  passing (x ← call (Job.Create store j); k x) w Q.
Proof.
  intros [Hw <-] Hs Ht Hn Hm Hk. pose proof (js_create w j Hw Hs Ht Hn) as Hc. rewrite Hm in Hc.
  destruct Hc as (e & w' & Hr & Hh). test_call Hr. by apply Hk.
Qed.

Lemma step_get m st i format (k : Job V -> TestM W B) w Q :
  rows_are m w -> m !! i = Some st -> st = JobStatusPending \/ st = JobStatusRunning ->
  (forall j w', rows_are m w' -> id j = i -> status j = st -> passing (k j) w' Q) ->
  passing (x ← must_get store i format; k x) w Q.
Proof.
  intros [Hw <-] Hm Hst Hk. pose proof (js_get w i Hw) as Hc. rewrite Hm in Hc.
  destruct Hc as (j & w' & Hr & Hh & Hi & Hj). unfold must_get. test_step. test_call Hr. test_step. by apply Hk; auto.
Qed.

Lemma step_get_none m i (k : result (Job V) -> TestM W B) w Q :
  rows_are m w -> m !! i = None -> (forall e w', rows_are m w' -> passing (k (Err e)) w' Q) ->
  passing (x ← call (Job.Get store i); k x) w Q.
Proof.
  intros [Hw <-] Hm Hk. pose proof (js_get w i Hw) as Hc. rewrite Hm in Hc.
  destruct Hc as (e & w' & Hr & Hh). test_call Hr. by apply Hk.
Qed.

Lemma step_update m j st (k : error -> TestM W B) w Q : rows_are m w -> job_result j = nil_any ->
  m !! id j = st ->
  match st with
  | Some _ => forall w', rows_are (<[id j := status j]> m) w' -> passing (k None) w' Q
  | None => forall e w', rows_are m w' -> passing (k (Some e)) w' Q
  end -> passing (x ← call (Job.Update store j); k x) w Q.
Proof.
  intros [Hw <-] Hn <- Hk. pose proof (js_update w j Hw Hn) as Hc. destruct (js_rows w !! id j).
  - destruct Hc as (w' & Hr & Hh). test_call Hr. by apply Hk.
  - destruct Hc as (e & w' & Hr & Hh). test_call Hr. by apply Hk.
Qed.

Lemma step_delete m i st (k : error -> TestM W B) w Q : rows_are m w -> m !! i = st ->
  match st with
  | Some _ => forall w', rows_are (delete i m) w' -> passing (k None) w' Q
  | None => forall e w', rows_are m w' -> passing (k (Some e)) w' Q
  end -> passing (x ← call (Job.Delete store i); k x) w Q.
Proof.
  intros [Hw <-] <- Hk. pose proof (js_delete w i Hw) as Hc. destruct (js_rows w !! i).
  - destruct Hc as (w' & Hr & Hh). test_call Hr. by apply Hk.
  - destruct Hc as (e & w' & Hr & Hh). test_call Hr. by apply Hk.
Qed.

Lemma step_list m st format (k : list (Job V) -> TestM W B) w Q : rows_are m w ->
  (forall l w', rows_are m w' -> zlen l = zlen (with_status st m) -> passing (k l) w' Q) ->
  passing (x ← must_list store st format; k x) w Q.
Proof.
  intros [Hw <-] Hk. destruct (js_list w st Hw) as (l & w' & Hr & Hh & Hl).
  unfold must_list. test_step. test_call Hr. test_step. apply Hk; [done|].
  apply Permutation_length in Hl. unfold zlen. by rewrite <- Hl, length_map.
Qed.
End Passing.

Ltac job_step :=
  lazymatch goal with
  | |- passing (mbind _ (must_create _ _ _)) _ _ =>
      eapply step_create; [eassumption|assumption|reflexivity|reflexivity|vm_compute; reflexivity|]; intros ? ?
  | |- passing (mbind _ (must_get _ _ _)) _ _ =>
      eapply step_get; [eassumption|vm_compute; reflexivity|by (left + right)|]; intros ? ? ? ? ?
  | |- passing (mbind _ (must_list _ _ _)) _ _ => eapply step_list; [eassumption|]; intros ? ? ? ?
  | |- passing (mbind _ (call (new_job _ _))) _ _ => eapply step_job; [eassumption|]; intros ? ? ?
  | |- passing (mbind _ (call time_now)) _ _ => eapply step_now; [eassumption|]; intros ? ? ?
  | |- passing (mbind _ (call (Job.Create _ _))) _ _ =>
      eapply step_duplicate; [eassumption|assumption|reflexivity|reflexivity|vm_compute; reflexivity|]; intros ? ? ?
  | |- passing (mbind _ (call (Job.Get _ _))) _ _ =>
      eapply step_get_none; [eassumption|vm_compute; reflexivity|]; intros ? ? ?
  | |- passing (mbind _ (call (Job.Update _ _))) _ _ => eapply step_update; [eassumption|reflexivity|vm_compute; reflexivity|]; cbv beta iota; intros
  | |- passing (mbind _ (call (Job.Delete _ _))) _ _ => eapply step_delete; [eassumption|vm_compute; reflexivity|]; cbv beta iota; intros
  | |- passing (mbind _ (create_all _ _)) _ _ => cbn [create_all]
  | |- passing (mbind _ (expect (bool_decide (zlen _ = _)) _)) _ _ =>
      apply passing_step_expect; [apply bool_decide_eq_true_2; etrans; [eassumption|by vm_compute]|]
  | |- passing (mbind _ (expect _ _)) _ _ => apply passing_step_expect; [by apply bool_decide_eq_true_2|]
  | _ => test_step
  end.

Ltac job_end := match goal with H : rows_are _ _ _ |- _ => exact (proj1 H) end.

Section Contract.
Context {W V : Type} `{!Dynamic V, !Clock W} (newStore : GoM W unit) (store : JobStore W V) `{HJ : !JobStoreLaws store}.
Context (action_test : V) (Hcmd : js_storable action_test).
Context (Hnew : forall w, js_ok w -> exists w', newStore w = (Done tt, w') /\ js_leads w w' ∅).

Lemma job_contract_passes : passes js_ok (TestJobStoreContract newStore store action_test).
Proof.
  unfold TestJobStoreContract. subtests; intros w Hw; (apply (step_new_jobs newStore store); [done..|]); intros ? ?;
    repeat job_step; job_end.
Qed.
End Contract.

(** ** The in-memory store *)

Lemma with_status_map {A} (f : A -> JobStatus) (m : gmap string A) st :
  with_status st (f <$> m) ≡ₚ map fst (List.filter (fun p => bool_decide (f p.2 = st)) (map_to_list m)).
Proof.
  unfold with_status. rewrite map_to_list_fmap.
  induction (map_to_list m) as [|[i a] l IH]; [done|]. cbn. case_bool_decide; cbn; by rewrite IH.
Qed.

Section Memory.
Context {W V : Type} `{!Dynamic V, !Clock W, !Has (InMemoryJobStore V) W, !HasLaws (InMemoryJobStore V) W}.
Context (Hclock : forall w, part (S := InMemoryJobStore V) (now w).2 = part w).

Definition new_memory_store : GoM W unit := fun w => (Done tt, set_part (Job.NewJobStore (V := V)) w).

(** Jobs are filed under their identity. *)
Definition filed (s : InMemoryJobStore V) : Prop := map_Forall (fun i j => id j = i) s.

Lemma filed_insert (s : InMemoryJobStore V) j : filed s -> filed (<[id j := Snapshot j]> s).
Proof. intros Hs. by apply map_Forall_insert_2. Qed.

#[refine] Definition memory_job_laws : JobStoreLaws (in_memory_store (W := W) (V := V)) :=
  {| js_ok w := filed (part w); js_storable _ := True; js_rows w := status <$> (part w : InMemoryJobStore V) |}.
Proof.
  - intros w Hw. specialize (Hclock w). destruct (now w) as [t w']. cbn in Hclock. exists t, w'. split; [done|].
    by rewrite Hclock.
  - intros w j Hw _ _ _. cbn [Job.Create in_memory_store]. rewrite lookup_fmap, on_part_run. unfold mem_Create.
    destruct (part w !! id j) as [x|] eqn:E; cbn; [do 2 eexists|eexists]; split; try reflexivity; rewrite !part_set.
    + done.
    + split; [by apply filed_insert|]. by rewrite fmap_insert.
  - intros w i Hw. cbn [Job.Get in_memory_store]. rewrite lookup_fmap, on_part_run. unfold mem_Get.
    destruct (part w !! i) as [x|] eqn:E; cbn; do 2 eexists; split; try reflexivity; rewrite !part_set; [|done].
    split; [done|]. split; [by apply (Hw _ _ E)|done].
  - intros w j Hw _. cbn [Job.Update in_memory_store]. rewrite lookup_fmap, on_part_run. unfold mem_Update.
    destruct (part w !! id j) as [x|] eqn:E; cbn; [eexists|do 2 eexists]; split; try reflexivity; rewrite !part_set.
    + split; [by apply filed_insert|]. by rewrite fmap_insert.
    + done.
  - intros w i Hw. cbn [Job.Delete in_memory_store]. rewrite lookup_fmap, on_part_run. unfold mem_Delete.
    destruct (part w !! i) as [x|] eqn:E; cbn; [eexists|do 2 eexists]; split; try reflexivity; rewrite !part_set.
    + split; [by apply map_Forall_delete|]. by rewrite fmap_delete.
    + done.
  - intros w st Hw. cbn [Job.List in_memory_store]. rewrite on_part_run. do 2 eexists. split; [reflexivity|].
    cbn. rewrite part_set. split; [done|]. rewrite with_status_map.
    assert (forall p, p ∈ map_to_list (part w : InMemoryJobStore V) -> id p.2 = p.1) as Hid.
    { intros [i j] Hin. apply elem_of_map_to_list in Hin. apply (Hw _ _ Hin). }
    induction (map_to_list (part w : InMemoryJobStore V)) as [|[i j] l IH]; [done|]. cbn.
    assert (forall p, p ∈ l -> id p.2 = p.1) as Hid' by (intros p Hp; apply Hid; by right).
    specialize (IH Hid'). unfold Snapshot at 1, with_done at 1. cbn [status].
    case_bool_decide; cbn; [|done]. rewrite IH. pose proof (Hid (i, j) ltac:(left)) as Hi. cbn in Hi. by rewrite Hi.
Defined.

Lemma new_job_memory (w : W) : exists w', new_memory_store w = (Done tt, w') /\
  @js_leads _ _ _ _ _ memory_job_laws w w' ∅.
Proof.
  eexists. split; [reflexivity|]. unfold js_leads, js_rows, js_ok. cbn. rewrite part_set.
  split; [apply map_Forall_empty|]. apply fmap_empty.
Qed.
End Memory.

(** ** The store on PostgreSQL *)

(** What PostgreSQL documents of the statements that [JobTableLaws] leaves out. *)
Class JobTableMoreLaws (W Tx : Type) `{!Has (tx_states Tx) W, !Clock W, !JobTable W Tx, HJT : !JobTableLaws W Tx} : Prop := {
  jobs_delete_law : forall ctx w i, jobs_ok (Tx := Tx) w -> jobs_usable (W := W) (Tx := Tx) ctx ->
    exists w', match jobs_rows (Tx := Tx) w !! i with
      | Some _ => jobs_delete (querier_at ctx w) ctx i w = (Done (inl (inl 1%Z)), w') /\
          jobs_leads (Tx := Tx) w w' (delete i (jobs_rows (Tx := Tx) w))
      | None => jobs_delete (querier_at ctx w) ctx i w = (Done (inl (inl 0%Z)), w') /\
          jobs_leads (Tx := Tx) w w' (jobs_rows (Tx := Tx) w)
      end;
  jobs_list_law : forall ctx w st, jobs_ok (Tx := Tx) w -> jobs_usable (W := W) (Tx := Tx) ctx ->
    exists l w', jobs_list (querier_at ctx w) ctx st w = (Done (inl (map inl l, None)), w') /\
      jobs_leads (Tx := Tx) w w' (jobs_rows (Tx := Tx) w) /\
      l ≡ₚ List.filter (fun r => bool_decide (jr_status r = st)) (map snd (map_to_list (jobs_rows (Tx := Tx) w))) }.

Section Pg.
Context {W Tx V : Type} `{!Dynamic V, !Clock W, !Has (tx_states Tx) W, !JobTable W Tx}.
Context `{HJT : !JobTableLaws W Tx, !JobTableMoreLaws W Tx}.
Context (reflect_New : rtype -> V) (json_Marshal : V -> string + goerr).
Context (json_Unmarshal_any : string -> result V) (json_Unmarshal : string -> V -> result V) (s : PgJobStore).
Context (Hnil : type_of (nil_any : V) = None) (Husable : jobs_usable (W := W) (Tx := Tx) Background).
Abbreviation rows_in := (jobs_rows (W := W) (Tx := Tx)).
Abbreviation column := (unmarshal_column reflect_New json_Unmarshal_any json_Unmarshal s).
Abbreviation store := (pg_job_store (Tx := Tx) (W := W) reflect_New json_Marshal json_Unmarshal_any json_Unmarshal s Background).

(** A row that can be read: it has a status and its JSON columns unmarshal. *)
Definition readable (i : string) (r : job_row) : Prop :=
  jr_id r = i /\ (exists st, status_of_string (jr_status r) = Some st) /\
  (exists v, column (jr_result r) (default "" (jr_result_type r)) "result" = Ok v) /\
  (exists c, column (Some (jr_command r)) (jr_command_type r) "command" = Ok c).
Definition row_status (r : job_row) : JobStatus := default JobStatusPending (status_of_string (jr_status r)).

(** A command that is stored: it marshals, and what is kept of it unmarshals. *)
Definition storable (c : V) : Prop :=
  exists d, json_Marshal c = inl d /\
    exists v, column (Some (jobs_jsonb (Tx := Tx) d)) (TypeName c) "command" = Ok v.

Definition pg_ok (w : W) : Prop := jobs_ok (Tx := Tx) w /\ map_Forall readable (rows_in w).

Lemma scan_readable i r w : readable i r -> jobs_ok (Tx := Tx) w ->
  exists j w', scanJob reflect_New json_Unmarshal_any json_Unmarshal s (inl r) w = (Done (Ok j), w') /\
    jobs_leads (Tx := Tx) w w' (rows_in w) /\ id j = i /\
    (row_status r = JobStatusPending \/ row_status r = JobStatusRunning -> status j = row_status r).
Proof.
  intros (<- & [st Hst] & [v Hv] & [c Hc]) Hw. destruct (jobs_clock (Tx := Tx) w Hw) as (t & w' & Hn & Hl).
  unfold scanJob. rewrite Hv, Hc. unfold_go. rewrite Hn. do 2 eexists. split; [reflexivity|]. split; [exact Hl|].
  unfold row_status. rewrite Hst. cbn [default]. destruct st; cbn; (split; [reflexivity|]); intros [?|?]; done.
Qed.

Lemma nilable_nil (v : V) : v = nil_any -> JSONOrNull json_Marshal (nilable v) = Ok None.
Proof. intros ->. unfold nilable, is_nil. by rewrite Hnil. Qed.

Lemma querier w : GetQuerier (Tx := Tx) Background w = (Done (querier_at Background w), w).
Proof. apply GetQuerier_at. Qed.

Lemma pg_jobs_same w w' : pg_ok w -> jobs_leads (Tx := Tx) w w' (rows_in w) ->
  pg_ok w' /\ row_status <$> rows_in w' = row_status <$> rows_in w.
Proof. intros [_ Hr] [Hw' Heq]. unfold pg_ok. by rewrite Heq. Qed.

Lemma status_kept st : default JobStatusPending (status_of_string (status_String st)) = st.
Proof. by rewrite status_of_status. Qed.

Lemma row_insert w w' r : pg_ok w -> jobs_leads (Tx := Tx) w w' (<[jr_id r := r]> (rows_in w)) ->
  readable (jr_id r) r ->
  pg_ok w' /\ row_status <$> rows_in w' = <[jr_id r := row_status r]> (row_status <$> rows_in w).
Proof.
  intros [_ Hr] [Hw' Heq] Hrow. unfold pg_ok. rewrite Heq, fmap_insert. split; [|done]. split; [done|].
  by apply map_Forall_insert_2.
Qed.

Lemma scan_jobs_readable l w : (forall r, r ∈ l -> readable (jr_id r) r) -> jobs_ok (Tx := Tx) w ->
  exists js w', scan_jobs reflect_New json_Unmarshal_any json_Unmarshal s (map inl l) None w = (Done (Ok js), w') /\
    jobs_leads (Tx := Tx) w w' (rows_in w) /\ map id js = map jr_id l.
Proof.
  revert w. induction l as [|r l IH]; intros w Hl Hw; [by exists [], w|].
  destruct (scan_readable (jr_id r) r w) as (j & w1 & Hr & [Hw1 Hrows] & Hid & _); [apply Hl; by left|done|].
  destruct (IH w1) as (js & w2 & Hjs & [Hw2 Hrows2] & Hids); [intros r' Hin; apply Hl; by right|done|].
  exists (j :: js), w2. cbn [map scan_jobs]. unfold_go. rewrite Hr, Hjs. split; [done|]. split; [split; [done|congruence]|].
  by rewrite Hid, Hids.
Qed.

#[refine] Definition pg_job_laws : JobStoreLaws store :=
  {| js_ok := pg_ok; js_storable := storable; js_rows w := row_status <$> rows_in w |}.
Proof.
  - intros w Hw. destruct (jobs_clock (Tx := Tx) w (proj1 Hw)) as (t & w' & Hn & Hl). exists t, w'.
    split; [done|]. by apply pg_jobs_same.
  - intros w j Hw (d & Hd & v & Hv) Ht Hn. cbn [Job.Create pg_job_store]. unfold pg_Create. rewrite lookup_fmap. unfold_go.
    rewrite querier, Hd, Ht, (nilable_nil _ Hn). rewrite bool_decide_eq_true_2 by done.
    set (r := mkJobRow _ _ _ _ _ _ _ _ _ _ _ _ _).
    destruct (jobs_insert_law (Tx := Tx) Background w r (proj1 Hw) Husable) as (w' & Hins).
    change (jr_id r) with (id j) in Hins. destruct (rows_in w !! id j).
    + destruct Hins as (e & -> & Hl). exists e, w'. split; [done|]. by apply pg_jobs_same.
    + destruct Hins as (-> & Hl). exists w'. split; [done|].
      destruct (row_insert w w' (stored_row (jobs_jsonb (Tx := Tx)) (jobs_time (Tx := Tx)) r) Hw Hl) as [Hok Hrows].
      { unfold readable. cbn. rewrite status_of_status. split; [done|]. split; [by eexists|]. split; [by eexists|]. by exists v. }
      split; [exact Hok|]. rewrite Hrows. unfold row_status at 1. cbn. by rewrite status_of_status.
  - intros w i Hw. cbn [Job.Get pg_job_store]. unfold pg_Get. rewrite lookup_fmap. unfold_go. rewrite querier.
    destruct (jobs_select_law (Tx := Tx) Background w i (proj1 Hw) Husable) as (w1 & [Hw1 Hrows] & ->).
    destruct (rows_in w !! i) as [r|] eqn:E; cbn [fmap option_fmap option_map].
    + destruct (scan_readable i r w1) as (j & w2 & -> & [Hw2 Hrows2] & Hid & Hst); [by apply (proj2 Hw)|done|].
      exists j, w2. split; [done|]. split; [|by split]. apply pg_jobs_same; [done|]. split; [done|congruence].
    + do 2 eexists. split; [reflexivity|]. by apply pg_jobs_same.
  - intros w j Hw Hn. cbn [Job.Update pg_job_store]. unfold pg_Update. rewrite lookup_fmap. unfold_go.
    rewrite querier, (nilable_nil _ Hn).
    set (u := mkJobUpdate _ _ _ _ _ _ _ _ _).
    destruct (jobs_update_law (Tx := Tx) Background w (id j) u (proj1 Hw) Husable) as (w' & Hupd).
    destruct (rows_in w !! id j) as [r|] eqn:E; cbn [fmap option_fmap option_map].
    + destruct Hupd as (-> & Hl). exists w'. split; [done|]. pose proof (proj2 Hw _ _ E) as (Hid & Hst & Hv & Hc).
      rewrite <- Hid in Hl. destruct (row_insert w w' (updated_row (jobs_jsonb (Tx := Tx)) (jobs_time (Tx := Tx)) u r) Hw Hl) as [Hok Hrows].
      { unfold readable. cbn. rewrite status_of_status. split; [done|]. split; [by eexists|]. split; [by eexists|]. done. }
      split; [exact Hok|]. rewrite Hrows. cbn [jr_id updated_row]. rewrite Hid. f_equal. unfold row_status. cbn.
      by rewrite status_of_status.
    + destruct Hupd as (-> & Hl). do 2 eexists. split; [reflexivity|]. by apply pg_jobs_same.
  - intros w i Hw. cbn [Job.Delete pg_job_store]. unfold pg_Delete. rewrite lookup_fmap. unfold_go. rewrite querier.
    destruct (jobs_delete_law (Tx := Tx) Background w i (proj1 Hw) Husable) as (w' & Hdel).
    destruct (rows_in w !! i) as [r|] eqn:E; cbn [fmap option_fmap option_map]; destruct Hdel as (-> & Hl).
    + exists w'. split; [done|]. destruct Hl as [Hw' Hrows]. split.
      * split; [done|]. rewrite Hrows. by apply map_Forall_delete, Hw.
      * by rewrite Hrows, fmap_delete.
    + do 2 eexists. split; [reflexivity|]. by apply pg_jobs_same.
  - intros w st Hw. cbn [Job.List pg_job_store]. unfold pg_List. unfold_go. rewrite querier.
    destruct (jobs_list_law (Tx := Tx) Background w (status_String st) (proj1 Hw) Husable) as (l & w1 & -> & [Hw1 Hrows] & Hl).
    assert (forall r, r ∈ l -> readable (jr_id r) r) as Hread.
    { intros r Hin. rewrite Hl in Hin. apply list_elem_of_In, filter_In in Hin as [Hin _].
      apply list_elem_of_In, list_elem_of_fmap in Hin as ([i r'] & -> & Hin). apply elem_of_map_to_list in Hin. cbn.
      pose proof (proj2 Hw _ _ Hin) as Hr. by rewrite (proj1 Hr). }
    destruct (scan_jobs_readable l w1 Hread Hw1) as (js & w2 & -> & [Hw2 Hrows2] & Hids).
    exists js, w2. split; [done|]. split; [apply pg_jobs_same; [done|split; [done|congruence]]|].
    rewrite Hids, Hl, with_status_map.
    assert (forall p, p ∈ map_to_list (rows_in w) -> readable p.1 p.2) as Hall.
    { intros [i r] Hin. apply elem_of_map_to_list in Hin. by apply (proj2 Hw). }
    clear -Hall. induction (map_to_list (rows_in w)) as [|[i r] k IH]; [done|]. cbn.
    assert (forall p, p ∈ k -> readable p.1 p.2) as Hall' by (intros p Hp; apply Hall; by right).
    specialize (IH Hall'). destruct (Hall (i, r) ltac:(left)) as (Hid & [st' Hst] & _). cbn in Hid, Hst.
    assert (bool_decide (jr_status r = status_String st) = bool_decide (row_status r = st)) as ->.
    { apply bool_decide_ext. unfold row_status. rewrite Hst. cbn. split.
      - intros Heq. rewrite Heq, status_of_status in Hst. congruence.
      - intros <-. unfold status_of_string in Hst. repeat case_bool_decide; simplify_eq; done. }
    case_bool_decide; cbn; [|done]. by rewrite IH, Hid.
Defined.
End Pg.

(** ** Properties *)

(** C16: The contract of job stores holds for both stores: from any state in which the jobs are filed
    under their identities, the in-memory store passes every test of the suite; and the store on
    PostgreSQL passes every test from any table whose rows can be read, if the command of the tests
    can be stored and the bench can empty the table. *)
Theorem job_store_contract {M V} `{!Dynamic V, !Clock M, !Has (InMemoryJobStore V) M, !HasLaws (InMemoryJobStore V) M}
    {W Tx} `{!Clock W, !Has (tx_states Tx) W, !JobTable W Tx, !JobTableLaws W Tx, !JobTableMoreLaws W Tx}
    (reflect_New : rtype -> V) (json_Marshal : V -> string + goerr)
    (json_Unmarshal_any : string -> result V) (json_Unmarshal : string -> V -> result V)
    (s : PgJobStore) (newStore : GoM W unit) (action_test : V) :
  let column_ok := storable (Tx := Tx) (W := W) reflect_New json_Marshal json_Unmarshal_any json_Unmarshal s in
  let rows_ok := pg_ok (Tx := Tx) (W := W) reflect_New json_Unmarshal_any json_Unmarshal s in
  (forall w : M, part (S := InMemoryJobStore V) (now w).2 = part w) ->
  type_of (nil_any : V) = None -> jobs_usable (W := W) (Tx := Tx) Background -> column_ok action_test ->
  (forall w, rows_ok w -> exists w', newStore w = (Done tt, w') /\ jobs_leads (Tx := Tx) w w' ∅) ->
  passes (fun w : M => filed (part w)) (TestJobStoreContract new_memory_store in_memory_store action_test) /\
  passes rows_ok (TestJobStoreContract newStore
    (pg_job_store (Tx := Tx) reflect_New json_Marshal json_Unmarshal_any json_Unmarshal s Background) action_test).
Proof.
  intros column_ok rows_ok Hclock Hnil Hu Hcmd Hnew. split.
  - apply (job_contract_passes _ _ (HJ := memory_job_laws Hclock)); [exact I|]. intros w _. apply new_job_memory.
  - apply (job_contract_passes _ _ (HJ := pg_job_laws (Tx := Tx) reflect_New json_Marshal json_Unmarshal_any json_Unmarshal s Hnil Hu));
      [exact Hcmd|]. intros w Hw. destruct (Hnew w Hw) as (w' & Hr & Hok & Hrows). exists w'. split; [done|].
    unfold js_leads. cbn. unfold pg_ok. rewrite Hrows. split; [split; [done|apply map_Forall_empty]|apply fmap_empty].
Qed.

Module DemoContractJobs.
Export DemoPgJob.
#[export] Instance demo_more : JobTableMoreLaws world unit.
Proof.
  split.
  - intros ctx w i _ _. cbn. destruct (table w !! i); eexists; by split_and!.
  - intros ctx w st _ _. do 2 eexists. split; [reflexivity|]. by split_and!.
Qed.
Definition clear : GoM world unit := fun w => (Done tt, set_table ∅ w).
Definition memory_world : Type := Z * InMemoryJobStore value.
#[export] Instance memory_clock : Clock memory_world := fun w => (w.1, ((w.1 + 1)%Z, w.2)).
End DemoContractJobs.
Import DemoContractJobs.

Lemma job_store_contract_witness :
  let s := pg_job_store (fun _ => VNil) marshal unmarshal_any unmarshal store Background (W := world) (Tx := unit) in
  passing (TestJobStoreContract new_memory_store in_memory_store (VText "cmd")) ((7%Z, ∅) : memory_world) (fun _ _ => True) /\
  passing (TestJobStoreContract clear s (VText "cmd")) w0 (fun _ _ => True).
Proof.
  intros s.
  destruct (job_store_contract (M := memory_world) (Tx := unit) (fun _ => VNil) marshal unmarshal_any unmarshal
    store clear (VText "cmd") ltac:(by intros w) eq_refl I) as [H1 H2].
  - exists "tcmd". split; [done|]. by eexists.
  - intros w _. eexists. split; [reflexivity|]. done.
  - split; (eapply passing_conseq; [|done]).
    + apply H1, map_Forall_empty.
    + apply H2. split; [done|]. intros i r Hr. vm_compute in Hr. discriminate.
Defined.
