(* ===== verification/Order.v ===== *)
(** * The order domain of the example application: [src/exampleapp/ddd/order]

    The [Order] aggregate, its events, its command and query handlers and its
    repositories, on top of [Aggregate] and of the event store interface
    [EventLog]. The repository keeps pointers: a handler that finds an order changes
    the order of everybody else, so orders live in a heap. *)

From Stdlib Require Import Floats.SpecFloat.
From S2P Require Import Prelude Errors Trace Aggregate EventStore EventLog.
From S2P Require Import Entity.

(** ** Floating point

    [float64] is IEEE 754 binary64, without fused multiply-add. *)
Abbreviation float64 := spec_float.
Definition float_add : float64 -> float64 -> float64 := SFadd 53 1024.
Definition float_mul : float64 -> float64 -> float64 := SFmul 53 1024.
Definition float_of_int (z : Z) : float64 := binary_normalize 53 1024 z 0 false.
Definition float_zero : float64 := S754_zero false.

(** ** Events ([event/events.go])

    The events of the application, those of [src/exampleapp/ddd/inventory/event]
    included: all that an event store of [domainevent.Event] holds here. *)
Inductive domain_event :=
| OrderPlacedEvent (base : BaseEvent) (UserID : string) (TotalAmount : float64) (Items : list string)
| PaymentConfirmedEvent (base : BaseEvent)
| OrderShippedEvent (base : BaseEvent)
| OrderCancelledEvent (base : BaseEvent) (Reason : string)
| InventoryReservedEvent (base : BaseEvent) (ProductID : string) (Quantity : Z)
| InventoryReleasedEvent (base : BaseEvent) (ProductID : string) (Quantity : Z).

Definition event_base (e : domain_event) : BaseEvent :=
  match e with
  | OrderPlacedEvent b _ _ _ | PaymentConfirmedEvent b | OrderShippedEvent b | OrderCancelledEvent b _
  | InventoryReservedEvent b _ _ | InventoryReleasedEvent b _ _ => b
  end.

Definition event_name (e : domain_event) : string :=
  match e with
  | OrderPlacedEvent _ _ _ _ => "OrderPlacedEvent"
  | PaymentConfirmedEvent _ => "PaymentConfirmedEvent"
  | OrderShippedEvent _ => "OrderShippedEvent"
  | OrderCancelledEvent _ _ => "OrderCancelledEvent"
  | InventoryReservedEvent _ _ _ => "InventoryReservedEvent"
  | InventoryReleasedEvent _ _ _ => "InventoryReleasedEvent"
  end.

#[export] Instance domain_event_event : Event domain_event := {
  Metadata e := Some (event_base e);
  EventNameOf := event_name;
  type_string e := "*event." +:+ event_name e }.

(** ** The aggregate ([domain/model.go]) *)

Inductive OrderStatus := OrderStatusPending | OrderStatusPaid | OrderStatusShipped | OrderStatusCancelled.

#[export] Instance order_status_eq_dec : EqDecision OrderStatus.
Proof. solve_decision. Defined.

Definition order_status_String (s : OrderStatus) : string :=
  match s with
  | OrderStatusPending => "pending"
  | OrderStatusPaid => "paid"
  | OrderStatusShipped => "shipped"
  | OrderStatusCancelled => "cancelled"
  end.

Record OrderItem := mkItem {
  item_entity : Entity.t;
  ProductName : string;
  Price : float64;
  Quantity : Z }.

Definition NewOrderItem (id productName : string) (price : float64) (quantity : Z) : outcome OrderItem :=
  e ← Entity.MustNewEntity id;
  mret (mkItem e productName price quantity).

Definition Subtotal (i : OrderItem) : float64 := float_mul (Price i) (float_of_int (Quantity i)).

(** The status is a string in Go; the zero value, [""], is [None]. *)
Record Order := mkOrder {
  order_root : AggregateRoot domain_event;
  UserID : string;
  Items : list OrderItem;
  OStatus : option OrderStatus;
  TotalAmount : float64;
  CreatedAt : Z;
  PaidAt : Z;
  ShippedAt : Z;
  CancelledAt : Z;
  CancelReason : string }.

Definition order_ID (o : Order) : string := ID (order_root o).
Definition status_text (o : Order) : string := from_option order_status_String "" (OStatus o).

Definition set_root (r : AggregateRoot domain_event) (o : Order) : Order :=
  mkOrder r (UserID o) (Items o) (OStatus o) (TotalAmount o) (CreatedAt o) (PaidAt o) (ShippedAt o)
    (CancelledAt o) (CancelReason o).

Definition order_When (e : domain_event) (o : Order) : Order * error :=
  match e with
  | OrderPlacedEvent b user total _ =>
      (mkOrder (order_root o) user (Items o) (Some OrderStatusPending) total (OccurredAt b) (PaidAt o)
         (ShippedAt o) (CancelledAt o) (CancelReason o), None)
  | PaymentConfirmedEvent b =>
      (mkOrder (order_root o) (UserID o) (Items o) (Some OrderStatusPaid) (TotalAmount o) (CreatedAt o)
         (OccurredAt b) (ShippedAt o) (CancelledAt o) (CancelReason o), None)
  | OrderShippedEvent b =>
      (mkOrder (order_root o) (UserID o) (Items o) (Some OrderStatusShipped) (TotalAmount o) (CreatedAt o)
         (PaidAt o) (OccurredAt b) (CancelledAt o) (CancelReason o), None)
  | OrderCancelledEvent b reason =>
      (mkOrder (order_root o) (UserID o) (Items o) (Some OrderStatusCancelled) (TotalAmount o) (CreatedAt o)
         (PaidAt o) (ShippedAt o) (OccurredAt b) reason, None)
  | e => (o, Some (ENew ("order: unhandled event type " +:+ type_string e)))
  end.

#[export] Instance order_ref : AggregateRef Order domain_event :=
  { GetAggregateRoot := order_root; put_root := set_root; When := order_When }.

#[export] Instance order_laws : AggregateRefLaws Order domain_event.
Proof. split; intros; try done; [by destruct a|by destruct e..]. Qed.

(** The loop of [validate] over the items. *)
Fixpoint validate_items (items : list OrderItem) : error :=
  match items with
  | [] => None
  | item :: rest =>
      if Entity.IsEmpty (item_entity item) then Some (ENew "order item has empty product ID")
      else validate_items rest
  end.

Definition validate (o : Order) : error :=
  match Validate (order_root o) with
  | Some err => Some err
  | None =>
      if bool_decide (UserID o = "") then Some (ENew "order must have a user ID")
      else if bool_decide (zlen (Items o) = 0)%Z then Some (ENew "order must have at least one item")
      else validate_items (Items o)
  end.

Definition calculateTotal (items : list OrderItem) : float64 :=
  fold_left (fun total item => float_add total (Subtotal item)) items float_zero.

Definition ItemNames (o : Order) : list string := map ProductName (Items o).

Section Order.
Context {W : Type} `{!Clock W}.

(** [cqrsevent.WithCorrelation(ctx, o.ID())]. *)
Definition correlated (ctx : context) (o : Order) : GoM W BaseEvent :=
  now ← time_now; mret (WithCorrelation now ctx (order_ID o)).

Definition NewOrder (ctx : context) (id userID : string) (items : list OrderItem) : GoM W (result Order) :=
  now ← time_now;
  match NewAggregateRoot id with
  | Err err => mret (Err err)
  | Ok ar =>
      let o := mkOrder ar userID items (Some OrderStatusPending) float_zero now time_zero time_zero time_zero "" in
      match validate o with
      | Some err => mret (Err err)
      | None =>
          let o := mkOrder ar userID items (Some OrderStatusPending) (calculateTotal items) now time_zero
                     time_zero time_zero "" in
          b ← correlated ctx o;
          mret (match ApplyChange o (OrderPlacedEvent b (UserID o) (TotalAmount o) (ItemNames o)) with
                | (_, Some err) => Err err
                | (o, None) => Ok o
                end)
      end
  end.

Definition NewOrderForReplay (id : string) : outcome Order :=
  match NewAggregateRoot id with
  | Err err => Panicked (Error err)
  | Ok ar => Done (mkOrder ar "" [] None float_zero time_zero time_zero time_zero time_zero "")
  end.

(** The conditions under which the methods refuse. *)
Definition payment_refused (o : Order) : error :=
  if bool_decide (OStatus o = Some OrderStatusPending) then None
  else Some (ENew ("order " +:+ order_ID o +:+ " cannot be confirmed payment (status: " +:+ status_text o +:+ ")")).
Definition ship_refused (o : Order) : error :=
  if bool_decide (OStatus o = Some OrderStatusPaid) then None
  else Some (ENew ("order " +:+ order_ID o +:+ " cannot be shipped (status: " +:+ status_text o +:+ ")")).
Definition cancel_refused (o : Order) : error :=
  if bool_decide (OStatus o = Some OrderStatusCancelled) then
    Some (ENew ("order " +:+ order_ID o +:+ " already cancelled"))
  else if bool_decide (OStatus o = Some OrderStatusShipped) then
    Some (ENew ("order " +:+ order_ID o +:+ " already shipped, cannot cancel"))
  else None.

(** A method: refuse, or apply an event. *)
Definition guarded (refused : Order -> error) (evt : BaseEvent -> domain_event) (ctx : context) (o : Order) :
    GoM W (Order * error) :=
  match refused o with
  | Some err => mret (o, Some err)
  | None => b ← correlated ctx o; mret (ApplyChange o (evt b))
  end.

Definition ConfirmPayment := guarded payment_refused PaymentConfirmedEvent.
Definition Ship := guarded ship_refused OrderShippedEvent.
Definition Cancel (ctx : context) (o : Order) (reason : string) : GoM W (Order * error) :=
  guarded cancel_refused (fun b => OrderCancelledEvent b reason) ctx o.
End Order.

(** ** Memory and the in-memory repository ([repository/repository.go])

    [orders] keeps pointers: indices of [heap]. *)
Record OrderState := mkState { heap : list Order; orders : gmap string nat }.

Definition NewOrderRepository : gmap string nat := ∅.

Record OrderRepositoryAdapter (W : Type) := mkAdapter {
  Save : context -> nat -> GoM W error;
  FindByID : context -> string -> GoM W (result nat);
  Delete : context -> string -> GoM W error;
  FindAll : context -> GoM W (result (list nat)) }.
Arguments mkAdapter {W} Save FindByID Delete FindAll.
Arguments Save {W} _ _ _.
Arguments FindByID {W} _ _ _.
Arguments Delete {W} _ _ _.
Arguments FindAll {W} _ _.

Definition not_found (id : string) : goerr := ENew ("order " +:+ id +:+ " not found").

Section Repository.
Context {W : Type} `{!Has OrderState W, !MapRange}.

Definition get_state : GoM W OrderState := fun w => (Done (part w), w).
Definition put_state (s : OrderState) : GoM W unit := fun w => (Done tt, set_part s w).

(** [*p], [*p = o] and [&o]. *)
Definition load (p : nat) : GoM W Order := s ← get_state; go_outcome (index_get (heap s) p).
Definition write (p : nat) (o : Order) : GoM W unit :=
  s ← get_state; put_state (mkState (<[p := o]> (heap s)) (orders s)).
Definition alloc (o : Order) : GoM W nat :=
  s ← get_state; _ ← put_state (mkState (heap s ++ [o]) (orders s)); mret (length (heap s)).

Definition repo_Save (_ : context) (order : nat) : GoM W error :=
  o ← load order;
  s ← get_state;
  _ ← put_state (mkState (heap s) (<[order_ID o := order]> (orders s)));
  mret None.

Definition repo_FindByID (_ : context) (id : string) : GoM W (result nat) :=
  s ← get_state;
  mret (match orders s !! id with Some p => Ok p | None => Err (not_found id) end).

Definition repo_Delete (_ : context) (id : string) : GoM W error :=
  s ← get_state;
  match orders s !! id with
  | None => mret (Some (not_found id))
  | Some _ => _ ← put_state (mkState (heap s) (delete id (orders s))); mret None
  end.

Definition repo_FindAll (_ : context) : GoM W (result (list nat)) :=
  s ← get_state; mret (Ok (map snd (map_range (orders s)))).

Definition OrderRepository : OrderRepositoryAdapter W :=
  mkAdapter repo_Save repo_FindByID repo_Delete repo_FindAll.

(** A method called through a pointer. *)
Definition on_order (p : nat) (method : Order -> GoM W (Order * error)) : GoM W error :=
  o ← load p;
  '(o, err) ← method o;
  _ ← write p o;
  mret err.
End Repository.

(** ** Command handlers ([command/handlers.go]) *)

Record ItemInput := mkInput {
  in_ProductID : string;
  in_ProductName : string;
  in_Price : float64;
  in_Quantity : Z }.

Record PlaceOrderResult := mkPlaced { pr_OrderID : string; pr_TotalAmount : float64 }.

Record ProcessBatchResult := mkBatch { pb_OrderID : string; Processed : bool; DurationUsed : Z }.

Record GenerateReportResult := mkReport {
  gr_ReportID : string;
  gr_OrderID : string;
  Content : string;
  Generated : bool }.

Section Handlers.
Context {W : Type} `{!Has OrderState W, !Clock W, !IdGen W}.
Context (Repo : OrderRepositoryAdapter W).

Definition new_item (input : ItemInput) : outcome OrderItem :=
  NewOrderItem (in_ProductID input) (in_ProductName input) (in_Price input) (in_Quantity input).

Definition PlaceOrder_Handle (ctx : context) (userID : string) (inputs : list ItemInput) :
    GoM W (result PlaceOrderResult) :=
  items ← go_outcome (mapM new_item inputs);
  orderID ← new_uuid;
  order ← NewOrder ctx orderID userID items;
  match order with
  | Err err => mret (Err err)
  | Ok order =>
      p ← alloc order;
      err ← Save Repo ctx p;
      match err with
      | Some err => mret (Err err)
      | None => order ← load p; mret (Ok (mkPlaced (order_ID order) (TotalAmount order)))
      end
  end.

(** The shape of the other three: find, call the method, save. *)
Definition edit_order (method : context -> Order -> GoM W (Order * error)) (ctx : context) (id : string) :
    GoM W error :=
  order ← FindByID Repo ctx id;
  match order with
  | Err err => mret (Some err)
  | Ok p =>
      err ← on_order p (method ctx);
      match err with
      | Some err => mret (Some err)
      | None => Save Repo ctx p
      end
  end.

Definition ConfirmPayment_Handle (ctx : context) (id : string) : GoM W error := edit_order ConfirmPayment ctx id.
Definition ShipOrder_Handle (ctx : context) (id : string) : GoM W error := edit_order Ship ctx id.
Definition CancelOrder_Handle (ctx : context) (id reason : string) : GoM W error :=
  edit_order (fun ctx o => Cancel ctx o reason) ctx id.

(** The instant that [UnixNano] counts from. *)
Definition unix_epoch : Z := 62135596800 * 1000000000.

(** [cancelled]: the context ends before the timer fires. *)
Definition GenerateReport_Handle (format_rfc3339 : Z -> string) (cancelled : error) (id : string) :
    GoM W (result GenerateReportResult) :=
  match cancelled with
  | Some err => mret (Err err)
  | None =>
      t1 ← time_now;
      t2 ← time_now;
      mret (Ok (mkReport ("RPT-" +:+ pretty (wrap64 (t1 - unix_epoch))) id
        ("Report for order " +:+ id +:+ " generated at " +:+ format_rfc3339 t2) true))
  end.

Definition ProcessBatch_Handle (cancelled : error) (id : string) : GoM W (ProcessBatchResult * error) :=
  start ← time_now;
  now ← time_now;
  mret (mkBatch id (bool_decide (cancelled = None)) (now -i start), cancelled).
End Handlers.

(** ** Query handlers ([query/handlers.go]) *)

Record OrderViewItem := mkViewItem {
  vi_ProductID : string;
  vi_ProductName : string;
  vi_Price : float64;
  vi_Quantity : Z;
  vi_Subtotal : float64 }.

Record GetOrderResult := mkView {
  v_OrderID : string;
  v_UserID : string;
  v_Status : string;
  v_TotalAmount : float64;
  v_Items : list OrderViewItem;
  v_CreatedAt : string;
  v_PaidAt : string;
  v_ShippedAt : string;
  v_CancelledAt : string;
  v_CancelReason : string }.

Section Queries.
Context {W : Type} `{!Has OrderState W} (Repo : OrderRepositoryAdapter W) (format_rfc3339 : Z -> string).

Definition format_time (t : Z) : string := if time_is_zero t then "" else format_rfc3339 t.

Definition view_item (i : OrderItem) : OrderViewItem :=
  mkViewItem (Entity.ID (item_entity i)) (ProductName i) (Price i) (Quantity i) (Subtotal i).

Definition toOrderView (o : Order) : GetOrderResult :=
  mkView (order_ID o) (UserID o) (status_text o) (TotalAmount o) (map view_item (Items o))
    (format_time (CreatedAt o)) (format_time (PaidAt o)) (format_time (ShippedAt o))
    (format_time (CancelledAt o)) (CancelReason o).

Definition GetOrder_Handle (ctx : context) (id : string) : GoM W (result GetOrderResult) :=
  order ← FindByID Repo ctx id;
  match order with
  | Err err => mret (Err err)
  | Ok p => o ← load p; mret (Ok (toOrderView o))
  end.

Definition ListOrders_Handle (ctx : context) : GoM W (result (list GetOrderResult)) :=
  found ← FindAll Repo ctx;
  match found with
  | Err err => mret (Err err)
  | Ok ps => os ← mapM load ps; mret (Ok (map toOrderView os))
  end.
End Queries.

(** ** The event-sourced repository ([repository/repository.go]) *)

Section EventSourced.
Context {W : Type} `{!Has OrderState W, !AggregateEventStore W domain_event}.
(** [eventBus.Publish]. *)
Context (eventBus_Publish : context -> domain_event -> GoM W error) (orderRepo : OrderRepositoryAdapter W).

Fixpoint publish_all (ctx : context) (evts : list domain_event) : GoM W error :=
  match evts with
  | [] => mret None
  | evt :: rest =>
      err ← eventBus_Publish ctx evt;
      match err with
      | Some err => mret (Some (EWrap ("publish event " +:+ type_string evt +:+ ": ") err ""))
      | None => publish_all ctx rest
      end
  end.

Definition ES_Save (ctx : context) (order : nat) : GoM W error :=
  o ← load order;
  let uncommitted := UncommittedEvents (order_root o) in
  if bool_decide (zlen uncommitted > 0)%Z then
    err ← es_Append ctx (order_ID o) (Version (order_root o) -i zlen uncommitted) uncommitted;
    match err with
    | Some err => mret (Some err)
    | None =>
        o ← load order;
        _ ← write order (set_root (MarkEventsAsCommitted (order_root o)) o);
        err ← publish_all ctx uncommitted;
        match err with
        | Some err => mret (Some err)
        | None => Save orderRepo ctx order
        end
    end
  else Save orderRepo ctx order.

Definition ES_Load (ctx : context) (id : string) : GoM W (result nat) :=
  events ← es_Load ctx id 0;
  match events with
  | Err err => mret (Err err)
  | Ok events =>
      if bool_decide (zlen events = 0)%Z then
        mret (Err (ENew ("order " +:+ id +:+ " not found in event store")))
      else
        o ← go_outcome (NewOrderForReplay id);
        let '(o, err) := LoadFromHistory o events in
        match err with
        | Some err => mret (Err (EWrap ("load order " +:+ id +:+ " from history: ") err ""))
        | None => p ← alloc o; mret (Ok p)
        end
  end.
End EventSourced.

(** ** Specification: the life of an order

    What the service promises: a map from identities to lives; the statuses move from
    pending to paid to shipped, and an order that is not shipped can be cancelled. *)
Record life := mkLife {
  l_user : string;
  l_items : list OrderItem;
  l_status : option OrderStatus;
  l_total : float64;
  l_reason : string }.

Definition life_of (o : Order) : life := mkLife (UserID o) (Items o) (OStatus o) (TotalAmount o) (CancelReason o).

Inductive order_op :=
| OPlace (userID : string) (inputs : list ItemInput)
| OConfirm (id : string)
| OShip (id : string)
| OCancel (id reason : string)
| ODelete (id : string)
| OGet (id : string).

Inductive order_out := Placed (r : PlaceOrderResult) | Succeeded | Failed (e : goerr) | Shown (v : GetOrderResult).

Definition with_l_status (st : OrderStatus) (l : life) : life :=
  mkLife (l_user l) (l_items l) (Some st) (l_total l) (l_reason l).
Definition cannot (id what : string) : goerr + life := inl (ENew ("order " +:+ id +:+ what)).
Definition shown_status (l : life) : string := from_option order_status_String "" (l_status l).

Definition spec_edit (id : string) (op : order_op) (l : life) : goerr + life :=
  match op, l_status l with
  | OConfirm _, Some OrderStatusPending => inr (with_l_status OrderStatusPaid l)
  | OConfirm _, _ => cannot id (" cannot be confirmed payment (status: " +:+ shown_status l +:+ ")")
  | OShip _, Some OrderStatusPaid => inr (with_l_status OrderStatusShipped l)
  | OShip _, _ => cannot id (" cannot be shipped (status: " +:+ shown_status l +:+ ")")
  | OCancel _ _, Some OrderStatusCancelled => cannot id " already cancelled"
  | OCancel _ _, Some OrderStatusShipped => cannot id " already shipped, cannot cancel"
  | OCancel _ reason, _ => inr (mkLife (l_user l) (l_items l) (Some OrderStatusCancelled) (l_total l) reason)
  | _, _ => inr l
  end.

Definition spec_item (i : ItemInput) : OrderItem :=
  mkItem (Entity.mk (in_ProductID i)) (in_ProductName i) (in_Price i) (in_Quantity i).
Definition spec_total (inputs : list ItemInput) : float64 :=
  fold_left (fun total i => float_add total (float_mul (in_Price i) (float_of_int (in_Quantity i)))) inputs float_zero.

(** What a query shows, but for the times. *)
Definition spec_view (id : string) (l : life) : GetOrderResult :=
  mkView id (l_user l) (shown_status l) (l_total l) (map view_item (l_items l)) "" "" "" "" (l_reason l).
Definition untimed (v : GetOrderResult) : GetOrderResult :=
  mkView (v_OrderID v) (v_UserID v) (v_Status v) (v_TotalAmount v) (v_Items v) "" "" "" "" (v_CancelReason v).

(** [fresh] is the identity that the generator gives. *)
Definition spec_op (fresh : string) (op : order_op) (m : gmap string life) : outcome order_out * gmap string life :=
  match op with
  | OPlace user inputs =>
      if existsb (fun i => bool_decide (in_ProductID i = "")) inputs then (Panicked "entity: id is required", m)
      else if bool_decide (fresh = "") then (Done (Failed Entity.id_required), m)
      else if bool_decide (user = "") then (Done (Failed (ENew "order must have a user ID")), m)
      else if bool_decide (inputs = []) then (Done (Failed (ENew "order must have at least one item")), m)
      else (Done (Placed (mkPlaced fresh (spec_total inputs))),
            <[fresh := mkLife user (map spec_item inputs) (Some OrderStatusPending) (spec_total inputs) ""]> m)
  | OConfirm id | OShip id | OCancel id _ =>
      match m !! id with
      | None => (Done (Failed (not_found id)), m)
      | Some l =>
          match spec_edit id op l with
          | inl err => (Done (Failed err), m)
          | inr l => (Done Succeeded, <[id := l]> m)
          end
      end
  | ODelete id =>
      match m !! id with
      | None => (Done (Failed (not_found id)), m)
      | Some _ => (Done Succeeded, delete id m)
      end
  | OGet id => (Done (match m !! id with Some l => Shown (spec_view id l) | None => Failed (not_found id) end), m)
  end.

Fixpoint spec_ops (fresh : list string) (ops : list order_op) (m : gmap string life) :
    list (outcome order_out) * gmap string life :=
  match ops, fresh with
  | op :: ops, i :: fresh =>
      let '(out, m) := spec_op i op m in let '(outs, m) := spec_ops fresh ops m in (out :: outs, m)
  | _, _ => ([], m)
  end.

(** A client program: each handler runs whole, a panic ends only the request. *)
Section Client.
Context {W : Type} `{!Has OrderState W, !MapRange, !Clock W, !IdGen W} (format_rfc3339 : Z -> string).

Definition outcome_of (err : error) : order_out := match err with Some e => Failed e | None => Succeeded end.

Definition run_op (ctx : context) (op : order_op) : GoM W order_out :=
  match op with
  | OPlace user inputs =>
      r ← PlaceOrder_Handle OrderRepository ctx user inputs;
      mret (match r with Ok r => Placed r | Err e => Failed e end)
  | OConfirm id => err ← ConfirmPayment_Handle OrderRepository ctx id; mret (outcome_of err)
  | OShip id => err ← ShipOrder_Handle OrderRepository ctx id; mret (outcome_of err)
  | OCancel id reason => err ← CancelOrder_Handle OrderRepository ctx id reason; mret (outcome_of err)
  | ODelete id => err ← Delete OrderRepository ctx id; mret (outcome_of err)
  | OGet id =>
      r ← GetOrder_Handle OrderRepository format_rfc3339 ctx id;
      mret (match r with Ok v => Shown (untimed v) | Err e => Failed e end)
  end.

Fixpoint run_ops (ctx : context) (ops : list order_op) (w : W) : list (outcome order_out) * W :=
  match ops with
  | [] => ([], w)
  | op :: ops => let '(out, w) := run_op ctx op w in let '(outs, w) := run_ops ctx ops w in (out :: outs, w)
  end.
End Client.

(** The histories of an order, with the status they lead to. *)
Inductive lifecycle : list domain_event -> OrderStatus -> Prop :=
| life_placed b u t names : lifecycle [OrderPlacedEvent b u t names] OrderStatusPending
| life_paid es b : lifecycle es OrderStatusPending -> lifecycle (es ++ [PaymentConfirmedEvent b]) OrderStatusPaid
| life_shipped es b : lifecycle es OrderStatusPaid -> lifecycle (es ++ [OrderShippedEvent b]) OrderStatusShipped
| life_cancelled es st b r : lifecycle es st -> st = OrderStatusPending \/ st = OrderStatusPaid ->
    lifecycle (es ++ [OrderCancelledEvent b r]) OrderStatusCancelled.

(** An order as its events know it: without its items, nothing uncommitted. *)
Definition forget (o : Order) : Order :=
  mkOrder (MarkEventsAsCommitted (order_root o)) (UserID o) [] (OStatus o) (TotalAmount o) (CreatedAt o)
    (PaidAt o) (ShippedAt o) (CancelledAt o) (CancelReason o).

(** The events of an order, those of the [past] and the uncommitted ones, tell its life
    and rebuild it. *)
Definition explained_from (past : list domain_event) (o : Order) : Prop :=
  let es := past ++ uncommittedEvents (order_root o) in
  order_ID o <> "" /\ (exists st, OStatus o = Some st /\ lifecycle es st) /\
  Forall (fun e => aggregate_id e = order_ID o) es /\ version (order_root o) = zlen es /\
  exists o0, NewOrderForReplay (order_ID o) = Done o0 /\ LoadFromHistory o0 es = (forget o, None).
Definition explained : Order -> Prop := explained_from [].

(** The pointers of the repository point to orders with their identity, and every
    order in memory is explained by its events. *)
Definition state_ok (s : OrderState) : Prop :=
  Forall explained (heap s) /\
  map_Forall (fun id p => exists o, heap s !! p = Some o /\ order_ID o = id) (orders s).

Definition lives (s : OrderState) : gmap string life := omap (fun p => life_of <$> heap s !! p) (orders s).

(** ** Lemmas *)

Lemma lifecycle_short es st : lifecycle es st ->
  (zlen es <= match st with OrderStatusPending => 1 | OrderStatusPaid => 2 | _ => 3 end)%Z.
Proof.
  induction 1 as [| |? ? ? IH|? st ? ? ? IH [-> | ->]]; autorewrite with go_rw in *; lia.
Qed.

(** Replaying an event after the others. *)
Lemma forget_step o o' e : order_When e o = (o', None) ->
  ApplyHistory (forget o) e = (forget (set_root (record_event e (order_root o)) o'), None).
Proof. destruct e; cbn; intros [= <-]; done. Qed.

Lemma apply_change_order o o' e : order_When e o = (o', None) ->
  ApplyChange o e = (set_root (record_event e (order_root o)) o', None).
Proof. intros H. unfold ApplyChange. cbn. pose proof (when_root e o) as Hr. cbn in Hr. rewrite H in *. cbn in *. by rewrite Hr. Qed.

Lemma explained_change past o o' e st :
  explained_from past o -> order_When e o = (o', None) -> aggregate_id e = order_ID o -> OStatus o' = Some st ->
  lifecycle (past ++ uncommittedEvents (order_root o) ++ [e]) st ->
  explained_from past (set_root (record_event e (order_root o)) o').
Proof.
  intros (Hid & _ & Hids & Hv & o0 & Ho0 & Hl) Hw He Hst Hlife. unfold explained_from. cbn.
  rewrite app_assoc in *. set (es := past ++ uncommittedEvents (order_root o)) in *.
  pose proof (lifecycle_short _ _ Hlife) as Hn.
  split; [done|]. split; [by exists st|]. split; [apply Forall_app; split; [done|by repeat constructor]|]. split.
  - rewrite Hv. autorewrite with go_rw in *. pose proof (zlen_nonneg es).
    apply int_add_id. unfold in_int64, two63. destruct st; lia.
  - exists o0. split; [done|]. rewrite load_history_app, Hl. cbn [LoadFromHistory]. by rewrite (forget_step _ _ _ Hw).
Qed.

Lemma explained_placed o b :
  order_root o = mkRoot (Entity.mk (order_ID o)) 0 (-1) [] -> order_ID o <> "" -> AggregateID b = order_ID o ->
  PaidAt o = time_zero -> ShippedAt o = time_zero -> CancelledAt o = time_zero -> CancelReason o = "" ->
  let e := OrderPlacedEvent b (UserID o) (TotalAmount o) (ItemNames o) in
  explained (set_root (record_event e (order_root o)) (order_When e o).1).
Proof.
  intros Hr Hid Hb Hp Hs Hc Hcr e. unfold explained, explained_from. cbn. rewrite Hr. cbn. split; [done|].
  split; [eexists; split; [done|constructor]|]. split; [constructor; [done|constructor]|]. split; [done|].
  unfold NewOrderForReplay, NewAggregateRoot, Entity.NewEntity. rewrite bool_decide_eq_false_2 by done.
  eexists. split; [done|]. unfold forget. cbn. by rewrite Hp, Hs, Hc, Hcr.
Qed.

(** A pointer's order changes: the others keep theirs, since their identities differ. *)
Lemma state_ok_write s p o o' id :
  state_ok s -> heap s !! p = Some o -> order_ID o' = order_ID o -> explained o' ->
  orders s !! id = Some p ->
  state_ok (mkState (<[p := o']> (heap s)) (orders s)) /\
  lives (mkState (<[p := o']> (heap s)) (orders s)) = <[id := life_of o']> (lives s).
Proof.
  intros [Hex Hptr] Hp Hid Ho' Hfound. pose proof (lookup_lt_Some _ _ _ Hp) as Hlt.
  assert (forall i q, orders s !! i = Some q -> i <> id -> q <> p) as Hdiff.
  { intros i q Hi Hne ->. destruct (Hptr _ _ Hi) as (x & Hx & Hxi), (Hptr _ _ Hfound) as (y & Hy & Hyi). congruence. }
  split; [split|]; cbn.
  - by apply Forall_insert.
  - intros i q Hi. destruct (Hptr _ _ Hi) as (x & Hx & Hxi). destruct (decide (q = p)) as [->|Hne].
    + rewrite list_lookup_insert_eq by done. exists o'. split; [done|]. congruence.
    + rewrite list_lookup_insert_ne by done. by exists x.
  - apply map_eq. intros i. unfold lives. rewrite lookup_omap. cbn. destruct (decide (i = id)) as [->|Hne].
    + rewrite Hfound, lookup_insert_eq. cbn. by rewrite list_lookup_insert_eq.
    + rewrite lookup_insert_ne, lookup_omap by done. destruct (orders s !! i) as [q|] eqn:Hi; [|done]. cbn.
      by rewrite list_lookup_insert_ne by (by apply not_eq_sym, (Hdiff i)).
Qed.

(** A new order is allocated and filed. *)
Lemma state_ok_alloc s o :
  state_ok s -> explained o ->
  let s' := mkState (heap s ++ [o]) (<[order_ID o := length (heap s)]> (orders s)) in
  state_ok s' /\ lives s' = <[order_ID o := life_of o]> (lives s).
Proof.
  intros [Hex Hptr] Ho s'.
  assert (forall i q, orders s !! i = Some q -> (heap s ++ [o]) !! q = heap s !! q) as Hold.
  { intros i q Hi. destruct (Hptr _ _ Hi) as (x & Hx & _). apply lookup_app_l. by eapply lookup_lt_Some. }
  split; [split|]; cbn.
  - apply Forall_app. split; [done|]. constructor; [exact Ho|constructor].
  - apply map_Forall_insert_2; [exists o; split; [by rewrite list_lookup_middle|done]|].
    intros i q Hi. rewrite (Hold _ _ Hi). by apply Hptr.
  - apply map_eq. intros i. unfold lives. cbn. rewrite lookup_omap. destruct (decide (i = order_ID o)) as [->|Hne].
    + rewrite !lookup_insert_eq. cbn. by rewrite list_lookup_middle.
    + rewrite !lookup_insert_ne, lookup_omap by done. destruct (orders s !! i) as [q|] eqn:Hi; [|done]. cbn.
      by rewrite (Hold _ _ Hi).
Qed.

Lemma state_ok_delete s id : state_ok s ->
  state_ok (mkState (heap s) (delete id (orders s))) /\
  lives (mkState (heap s) (delete id (orders s))) = delete id (lives s).
Proof.
  intros [Hex Hptr]. split; [split; [done|by apply map_Forall_delete]|]. unfold lives. cbn. apply omap_delete.
Qed.

Lemma lives_lookup s id : state_ok s ->
  match orders s !! id with
  | None => lives s !! id = None
  | Some p => exists o, heap s !! p = Some o /\ order_ID o = id /\ explained o /\ lives s !! id = Some (life_of o)
  end.
Proof.
  intros [Hex Hptr]. unfold lives. rewrite lookup_omap. destruct (orders s !! id) as [p|] eqn:Hi; cbn; [|done].
  destruct (Hptr _ _ Hi) as (o & Ho & Hid). exists o. rewrite Ho. split; [done|].
  split; [done|]. split; [by eapply Forall_lookup_1|done].
Qed.

(** ** The handlers *)

Section HandlerLemmas.
Context {W : Type} `{!Has OrderState W, !HasLaws OrderState W, !MapRange, !Clock W, !IdGen W}.
Context (time_quiet : quiet (S := OrderState) (W := W) time_now) (uuid_quiet : quiet (S := OrderState) (W := W) new_uuid).
Implicit Types w : W.

(** A call that returns [a] and leaves the orders as [s]. *)
Definition leads {A} (m : GoM W A) (w : W) (a : A) (s : OrderState) : Prop :=
  exists w', m w = (Done a, w') /\ part w' = s.

Lemma leads_ret {A} (a : A) w : leads (mret a) w a (part w).
Proof. by exists w. Qed.

Lemma leads_bind {A B} (m : GoM W A) (f : A -> GoM W B) w a s b s' :
  leads m w a s -> (forall w', part w' = s -> leads (f a) w' b s') -> leads (m ≫= f) w b s'.
Proof. intros (w1 & Hm & Hs) Hf. destruct (Hf w1 Hs) as (w2 & H2 & Hs2). exists w2. unfold_go. by rewrite Hm. Qed.

Lemma leads_load p o w : heap (part w) !! p = Some o -> leads (load p) w o (part w).
Proof. intros Hp. exists w. unfold load, get_state. unfold_go. cbn. unfold index_get. by rewrite Hp. Qed.

Lemma leads_write p o w : leads (write p o) w tt (mkState (<[p := o]> (heap (part w))) (orders (part w))).
Proof. eexists. split; [done|]. apply part_set. Qed.

Lemma leads_alloc o w : leads (alloc o) w (length (heap (part w))) (mkState (heap (part w) ++ [o]) (orders (part w))).
Proof. eexists. split; [done|]. apply part_set. Qed.

Lemma leads_find ctx id w : leads (repo_FindByID ctx id) w
  (match orders (part w) !! id with Some p => Ok p | None => Err (not_found id) end) (part w).
Proof. by exists w. Qed.

Lemma leads_save ctx p o w : heap (part w) !! p = Some o ->
  leads (repo_Save ctx p) w None (mkState (heap (part w)) (<[order_ID o := p]> (orders (part w)))).
Proof.
  intros Hp. eapply leads_bind; [by apply leads_load|]. intros w' Hw'. eexists. split; [done|]. rewrite part_set. by rewrite Hw'.
Qed.

Lemma leads_correlated ctx o w : exists b, AggregateID b = order_ID o /\ leads (correlated ctx o) w b (part w).
Proof.
  destruct (time_quiet w) as (t & w' & Ht & Hw'). exists (WithCorrelation t ctx (order_ID o)).
  split; [done|]. exists w'. unfold correlated. unfold_go. revert Ht. unfold time_now. destruct (now w) as [t' w1].
  by intros [= -> ->].
Qed.

(** A method that edits an order as the specification says. *)
Definition edits (op : order_op) (method : context -> Order -> GoM W (Order * error)) : Prop :=
  forall ctx o w, explained o -> exists o' err, leads (method ctx o) w (o', err) (part w) /\
    explained o' /\ order_ID o' = order_ID o /\ (err <> None -> o' = o) /\
    spec_edit (order_ID o) op (life_of o) = match err with Some e => inl e | None => inr (life_of o') end.

(** A guarded event edits. *)
Lemma guarded_edits op refused evt :
  (forall b, aggregate_id (evt b) = AggregateID b) ->
  (forall o e, explained o -> refused o = Some e -> spec_edit (order_ID o) op (life_of o) = inl e) ->
  (forall o b, explained o -> refused o = None -> exists o' st, order_When (evt b) o = (o', None) /\
     OStatus o' = Some st /\ lifecycle (uncommittedEvents (order_root o) ++ [evt b]) st /\
     spec_edit (order_ID o) op (life_of o) = inr (life_of o')) ->
  edits op (guarded refused evt).
Proof.
  intros Hevt Hno Hyes ctx o w Ho. unfold guarded. destruct (refused o) as [e|] eqn:Hr.
  - exists o, (Some e). split; [apply leads_ret|]. split; [done|]. split; [done|]. split; [done|]. by apply Hno.
  - destruct (leads_correlated ctx o w) as (b & Hb & Hlb).
    destruct (Hyes o b Ho Hr) as (o' & st & Hw & Hst & Hlife & Hspec).
    exists (set_root (record_event (evt b) (order_root o)) o'), None. pose proof (apply_change_order _ _ _ Hw) as Hac.
    split; [eapply leads_bind; [exact Hlb|]; intros w' <-; rewrite Hac; apply leads_ret|]. split.
    + eapply explained_change; [done|done| |done|done]. by rewrite Hevt.
    + by split_and!.
Qed.

Lemma edits_confirm id : edits (OConfirm id) ConfirmPayment.
Proof.
  apply guarded_edits; [done| |]; intros o x Ho; unfold payment_refused; case_bool_decide as Hst; try done.
  - intros [= <-]. cbn. unfold shown_status, status_text. cbn. by destruct (OStatus o) as [[]|].
  - intros _. destruct Ho as (_ & (st & Hst' & Hl) & _). rewrite Hst in Hst'. injection Hst' as <-.
    do 2 eexists. split; [done|]. split; [done|]. split; [by constructor|]. cbn. by rewrite Hst.
Qed.

Lemma edits_ship id : edits (OShip id) Ship.
Proof.
  apply guarded_edits; [done| |]; intros o x Ho; unfold ship_refused; case_bool_decide as Hst; try done.
  - intros [= <-]. cbn. unfold shown_status, status_text. cbn. by destruct (OStatus o) as [[]|].
  - intros _. destruct Ho as (_ & (st & Hst' & Hl) & _). rewrite Hst in Hst'. injection Hst' as <-.
    do 2 eexists. split; [done|]. split; [done|]. split; [by constructor|]. cbn. by rewrite Hst.
Qed.

Lemma edits_cancel id reason : edits (OCancel id reason) (fun ctx o => Cancel ctx o reason).
Proof.
  apply guarded_edits; [done| |]; intros o x (_ & (st & Hst & Hl) & _); unfold cancel_refused; rewrite Hst; cbn;
    repeat case_bool_decide; try done.
  - intros [= <-]. rewrite Hst. by destruct st.
  - intros [= <-]. rewrite Hst. by destruct st.
  - intros Hx. do 2 eexists. split; [done|]. split; [done|].
    split; [eapply life_cancelled; [exact Hl|]|rewrite Hst]; destruct st; done || auto.
Qed.

(** A handler that finds, edits and saves. *)
Lemma edit_order_ok op method ctx id w :
  edits op method -> state_ok (part w) ->
  exists err s, leads (edit_order OrderRepository method ctx id) w err s /\ state_ok s /\
    match lives (part w) !! id with
    | None => err = Some (not_found id) /\ lives s = lives (part w)
    | Some l =>
        match spec_edit id op l with
        | inl e => err = Some e /\ lives s = lives (part w)
        | inr l' => err = None /\ lives s = <[id := l']> (lives (part w))
        end
    end.
Proof.
  intros Hm Hok. pose proof (lives_lookup _ id Hok) as Hl. unfold edit_order.
  destruct (orders (part w) !! id) as [p|] eqn:Hp.
  2:{ rewrite Hl. exists (Some (not_found id)), (part w). split; [|done].
      eapply leads_bind; [apply leads_find|]. rewrite Hp. intros w' <-. apply leads_ret. }
  destruct Hl as (o & Ho & <- & Hex & Hl). rewrite Hl.
  destruct (Hm ctx o w Hex) as (o' & err & (w1 & Hrun & Hw1) & Hex' & Hid' & Hsame & Hspec). rewrite Hspec.
  destruct (leads_write p o' w1) as (w2 & Hwr & Hw2). rewrite Hw1 in Hw2.
  destruct (state_ok_write (part w) p o o' (order_ID o) Hok Ho Hid' Hex' Hp) as [Hok2 Hl2].
  assert (on_order p (method ctx) w = (Done err, w2)) as Hon.
  { assert (load p w = (Done o, w)) as Hld by (unfold load, get_state; unfold_go; unfold index_get; by rewrite Ho).
    unfold on_order. unfold_go. by rewrite Hld, Hrun, Hwr. }
  assert (repo_FindByID ctx (order_ID o) w = (Done (Ok p), w)) as Hfind by (unfold repo_FindByID, get_state; unfold_go; by rewrite Hp).
  destruct err as [e|]; [exists (Some e), (part w2)|].
  - rewrite (Hsame ltac:(done)) in *. split; [exists w2; split; [|done]|].
    + unfold edit_order, OrderRepository. cbn [FindByID]. unfold_go.
      by rewrite Hfind, Hon.
    + rewrite Hw2. split; [done|]. split; [done|]. rewrite Hl2. by apply insert_id.
  - destruct (leads_save ctx p o' w2) as (w3 & Hsv & Hw3).
    { rewrite Hw2. cbn. apply list_lookup_insert_eq. by eapply lookup_lt_Some. }
    rewrite Hw2, Hid' in Hw3. cbn in Hw3. rewrite insert_id in Hw3 by done.
    exists None, (part w3). split; [exists w3; split; [|done]|].
    + unfold edit_order, OrderRepository. cbn [FindByID Save]. unfold_go. by rewrite Hfind, Hon.
    + rewrite Hw3. done.
Qed.

Lemma new_items inputs :
  mapM new_item inputs =
  if existsb (fun i => bool_decide (in_ProductID i = "")) inputs then Panicked "entity: id is required"
  else Done (map spec_item inputs).
Proof.
  induction inputs as [|i inputs IH]; [done|]. cbn [mapM existsb]. rewrite IH.
  unfold new_item, NewOrderItem, Entity.MustNewEntity, Entity.NewEntity.
  case_bool_decide; cbn; [done|]. by destruct (existsb _ inputs).
Qed.

Lemma items_valid inputs :
  existsb (fun i => bool_decide (in_ProductID i = "")) inputs = false -> validate_items (map spec_item inputs) = None.
Proof.
  induction inputs as [|i inputs IH]; [done|]. cbn. unfold Entity.IsEmpty. cbn.
  case_bool_decide; cbn; [done|]. apply IH.
Qed.

Lemma total_of_items inputs : calculateTotal (map spec_item inputs) = spec_total inputs.
Proof.
  unfold calculateTotal, spec_total. generalize float_zero. induction inputs as [|i inputs IH]; intros z; cbn; [done|].
  apply IH.
Qed.

(** The errors of a new order, in the order of the checks. *)
Lemma new_order_ok ctx id user inputs w :
  existsb (fun i => bool_decide (in_ProductID i = "")) inputs = false ->
  exists r, leads (NewOrder ctx id user (map spec_item inputs)) w r (part w) /\
    match r with
    | Err e => (spec_op id (OPlace user inputs) ∅).1 = Done (Failed e)
    | Ok o => explained o /\ order_ID o = id /\ spec_op id (OPlace user inputs) ∅ =
        (Done (Placed (mkPlaced id (TotalAmount o))), {[id := life_of o]})
    end.
Proof.
  intros Hne. cbn [spec_op]. rewrite Hne. destruct (time_quiet w) as (t & w1 & Ht & Hw1).
  unfold NewOrder, NewAggregateRoot, Entity.NewEntity. case_bool_decide as Hid; cbn [fst].
  { exists (Err Entity.id_required). split; [|done]. eapply leads_bind; [by exists w1|]. intros w' <-. apply leads_ret. }
  unfold validate, Validate, Entity.Validate. cbn. rewrite bool_decide_eq_false_2 by done.
  rewrite bool_decide_eq_false_2 by lia. case_bool_decide as Hu.
  { eexists (Err _). split; [eapply leads_bind; [by exists w1|]; intros w' <-; apply leads_ret|done]. }
  destruct (decide (inputs = [])) as [->|Hin].
  { eexists (Err _). split; [eapply leads_bind; [by exists w1|]; intros w' <-; apply leads_ret|done]. }
  rewrite (bool_decide_eq_false_2 (inputs = [])) by done.
  rewrite bool_decide_eq_false_2 by (destruct inputs; cbn; autorewrite with go_rw; [done|]; pose proof (zlen_nonneg (map spec_item inputs)); lia).
  rewrite items_valid, total_of_items by done.
  set (o := mkOrder (mkRoot (Entity.mk id) 0 (-1) []) user (map spec_item inputs) (Some OrderStatusPending)
    (spec_total inputs) t time_zero time_zero time_zero "").
  destruct (leads_correlated ctx o w1) as (b & Hb & (w2 & Hc & Hw2)).
  pose proof (explained_placed o b) as Hex. cbn in Hex.
  eexists (Ok _). split; [|split; [apply Hex; done|done]].
  exists w2. split; [|by rewrite Hw2]. revert Ht Hc. unfold_go. intros -> Hc. cbv beta iota.
  subst o. by rewrite Hc.
Qed.

(** Each request, on the repository and in the specification. *)
Lemma place_fresh fmt ctx user inputs w :
  state_ok (part w) ->
  exists id out w', run_op fmt ctx (OPlace user inputs) w = (out, w') /\ state_ok (part w') /\
    (out, lives (part w')) = spec_op id (OPlace user inputs) (lives (part w)) /\
    (existsb (fun i => bool_decide (in_ProductID i = "")) inputs = false -> (new_uuid w).1 = Done id).
Proof.
  intros Hok. cbn [run_op spec_op]. unfold PlaceOrder_Handle. unfold_go. rewrite new_items.
  destruct (existsb _ inputs) eqn:Hne; [by exists "", (Panicked "entity: id is required"), w|].
  destruct (uuid_quiet w) as (id & w1 & Huu & Hw1). cbn in Huu. rewrite Huu.
  destruct (new_order_ok ctx id user inputs w1 Hne) as (r & (w2 & Hno & Hw2) & Hr).
  cbn [spec_op] in Hr. rewrite Hne in Hr. cbv beta iota. rewrite Hno. destruct r as [o|e].
  - destruct Hr as (Hex & <- & Hspec). destruct (leads_alloc o w2) as (w3 & Hal & Hw3).
    destruct (leads_save ctx (length (heap (part w2))) o w3) as (w4 & Hsv & Hw4).
    { rewrite Hw3. by apply list_lookup_middle. }
    assert (heap (part w4) !! length (heap (part w2)) = Some o) as Ho4.
    { rewrite Hw4, Hw3. by apply list_lookup_middle. }
    destruct (leads_load _ o w4 Ho4) as (w5 & Hld & Hw5).
    exists (order_ID o), (Done (Placed (mkPlaced (order_ID o) (TotalAmount o)))), w5.
    unfold OrderRepository. cbn [Save]. rewrite Hal, Hsv, Hld. split; [done|].
    rewrite Hw5, Hw4, Hw3. cbn [heap orders]. rewrite Hw2, Hw1.
    destruct (state_ok_alloc (part w) o Hok Hex) as [Hok' ->]. split; [done|].
    revert Hspec. repeat case_bool_decide; intros Hspec; try discriminate Hspec.
    pose proof (f_equal (fun x => x.2 !! order_ID o) Hspec) as Hm. cbn [snd] in Hm.
    apply (f_equal fst) in Hspec. injection Hspec as Ht. rewrite lookup_insert_eq, lookup_singleton_eq in Hm.
    apply (inj Some) in Hm. split; [by rewrite Hm, Ht|done].
  - exists id, (Done (Failed e)), w2. rewrite Hw2, Hw1. split; [done|]. split; [done|].
    split; [|done]. revert Hr. repeat case_bool_decide; cbn; by intros [= <-].
Qed.

Lemma place_ok fmt ctx user inputs w :
  state_ok (part w) ->
  exists id out w', run_op fmt ctx (OPlace user inputs) w = (out, w') /\ state_ok (part w') /\
    (out, lives (part w')) = spec_op id (OPlace user inputs) (lives (part w)).
Proof. intros Hok. destruct (place_fresh fmt ctx user inputs w Hok) as (id & out & w' & H1 & H2 & H3 & _). eauto 10. Qed.

Lemma edit_op_ok op method ctx id w :
  edits op method -> state_ok (part w) ->
  (op = OConfirm id \/ op = OShip id \/ exists reason, op = OCancel id reason) ->
  exists out w', (err ← edit_order OrderRepository method ctx id; mret (outcome_of err)) w = (out, w') /\
    state_ok (part w') /\ (out, lives (part w')) = spec_op "" op (lives (part w)).
Proof.
  intros Hm Hok Hop. destruct (edit_order_ok op method ctx id w Hm Hok) as (err & s & (w' & Hrun & Hs) & Hok' & Hres).
  exists (Done (outcome_of err)), w'. rewrite Hs. unfold_go. rewrite Hrun. split; [done|]. split; [done|].
  destruct Hop as [->|[->|[reason ->]]]; cbn [spec_op]; destruct (lives (part w) !! id) as [l|];
    try (destruct (spec_edit id _ l)); by destruct Hres as [-> ->].
Qed.

Lemma run_op_ok fmt ctx op w :
  state_ok (part w) ->
  exists id out w', run_op fmt ctx op w = (out, w') /\ state_ok (part w') /\
    (out, lives (part w')) = spec_op id op (lives (part w)).
Proof.
  intros Hok. destruct op as [user inputs|id|id|id reason|id|id]; [by apply place_ok|exists ""..].
  - apply (edit_op_ok _ _ ctx id); [apply (edits_confirm id)|done|auto].
  - apply (edit_op_ok _ _ ctx id); [apply (edits_ship id)|done|auto].
  - apply (edit_op_ok _ _ ctx id); [apply (edits_cancel id reason)|done|eauto].
  - cbn [run_op spec_op]. unfold OrderRepository, repo_Delete, get_state, put_state. cbn [Delete]. unfold_go.
    pose proof (lives_lookup _ id Hok) as Hl. destruct (orders (part w) !! id) as [p|] eqn:Hp.
    + destruct Hl as (o & _ & _ & _ & ->). do 2 eexists. split; [done|]. rewrite part_set.
      destruct (state_ok_delete _ id Hok) as [? ->]. done.
    + rewrite Hl. by do 2 eexists.
  - cbn [run_op spec_op]. unfold GetOrder_Handle, OrderRepository, repo_FindByID, get_state. cbn [FindByID]. unfold_go.
    pose proof (lives_lookup _ id Hok) as Hl. destruct (orders (part w) !! id) as [p|] eqn:Hp.
    + destruct Hl as (o & Ho & <- & _ & ->). destruct (leads_load p o w Ho) as (w1 & Hld & Hw1).
      rewrite Hld. do 2 eexists. split; [done|]. by rewrite Hw1.
    + rewrite Hl. by do 2 eexists.
Qed.

Lemma run_ops_ok fmt ctx ops w :
  state_ok (part w) ->
  exists fresh, length fresh = length ops /\ state_ok (part (run_ops fmt ctx ops w).2) /\
    ((run_ops fmt ctx ops w).1, lives (part (run_ops fmt ctx ops w).2)) = spec_ops fresh ops (lives (part w)).
Proof.
  revert w. induction ops as [|op ops IH]; intros w Hok; [by exists []|]. cbn [run_ops].
  destruct (run_op_ok fmt ctx op w Hok) as (id & out & w1 & -> & Hok1 & Hspec).
  destruct (IH w1 Hok1) as (fresh & Hlen & Hok2 & Hspecs). exists (id :: fresh).
  destruct (run_ops fmt ctx ops w1) as [outs w2] eqn:Hrun. cbn in *. split; [by f_equal|]. split; [done|].
  rewrite <- Hspec, <- Hspecs. done.
Qed.

Lemma state_ok_empty : state_ok (mkState [] NewOrderRepository).
Proof. split; [constructor|apply map_Forall_empty]. Qed.
End HandlerLemmas.

(** ** The race of two handlers on one order

    Handlers run concurrently, and each pair of them shares the pointer that the
    repository keeps: a method checks the status and then applies its event. *)
Module Race.
Record call := mkCall { refused : Order -> error; evt : BaseEvent -> domain_event }.
Inductive pc := Starting (c : call) | Checked (c : call) | Finished (err : error).
Record state := mkRace { shared : Order; calls : list pc }.

Definition ship_call : call := mkCall ship_refused OrderShippedEvent.
Definition cancel_call (reason : string) : call := mkCall cancel_refused (fun b => OrderCancelledEvent b reason).

Inductive step : state -> state -> Prop :=
| step_refuse s i c e : calls s !! i = Some (Starting c) -> refused c (shared s) = Some e ->
    step s (mkRace (shared s) (<[i := Finished (Some e)]> (calls s)))
| step_check s i c : calls s !! i = Some (Starting c) -> refused c (shared s) = None ->
    step s (mkRace (shared s) (<[i := Checked c]> (calls s)))
| step_apply s i c b : calls s !! i = Some (Checked c) -> AggregateID b = order_ID (shared s) ->
    step s (mkRace (ApplyChange (shared s) (evt c b)).1
      (<[i := Finished (ApplyChange (shared s) (evt c b)).2]> (calls s))).
End Race.

Lemma lifecycle_cancelled_last es b r st : lifecycle (es ++ [OrderCancelledEvent b r]) st ->
  exists st', lifecycle es st' /\ (st' = OrderStatusPending \/ st' = OrderStatusPaid).
Proof.
  remember (es ++ [OrderCancelledEvent b r]) as l eqn:Hl. intros H. destruct H.
  - destruct es as [|? []]; discriminate.
  - by apply app_inj_tail in Hl as [-> [=]].
  - by apply app_inj_tail in Hl as [-> [=]].
  - apply app_inj_tail in Hl as [-> _]. eauto.
Qed.

Lemma lifecycle_shipped_last es b st : lifecycle (es ++ [OrderShippedEvent b]) st -> st = OrderStatusShipped.
Proof.
  remember (es ++ [OrderShippedEvent b]) as l eqn:Hl. intros H. destruct H; [|by apply app_inj_tail in Hl as [_ [=]]|done|by apply app_inj_tail in Hl as [_ [=]]].
  destruct es as [|? []]; discriminate.
Qed.

(** ** What the event-sourced repository relies on

    The event store and the orders are different parts of the world, and what a
    subscriber does to an event touches neither. *)
Class SeparateStores (W : Type) `{!Has OrderState W, !AggregateEventStore W domain_event,
    !AggregateEventStoreLaws W domain_event} (publish : context -> domain_event -> GoM W error) := {
  orders_apart : forall s w, (es_ok w -> es_ok (set_part s w)) /\ forall id, es_stream (set_part s w) id = es_stream w id;
  append_apart : forall ctx id v evts w, part (es_Append ctx id v evts w).2 = part w;
  load_apart : forall ctx id v w, part (es_Load ctx id v w).2 = part w;
  publish_apart : forall ctx e w, es_ok w -> exists w', publish ctx e w = (Done None, w') /\ part w' = part w /\
    es_ok w' /\ forall id, es_stream w' id = es_stream w id }.

Section EventSourcedLemmas.
Context {W : Type} `{!Has OrderState W, !HasLaws OrderState W, !MapRange}.
Context `{!AggregateEventStore W domain_event, !AggregateEventStoreLaws W domain_event}.
Context (publish : context -> domain_event -> GoM W error) `{!SeparateStores W publish}.

Lemma publish_all_apart ctx evts w : es_ok w ->
  exists w', publish_all publish ctx evts w = (Done None, w') /\ part w' = part w /\
    es_ok w' /\ forall id, es_stream w' id = es_stream w id.
Proof.
  revert w. induction evts as [|e evts IH]; intros w Hok; cbn; [by exists w|].
  destruct (publish_apart ctx e w Hok) as (w1 & Hp & Hw1 & Hok1 & Hs1).
  destruct (IH w1 Hok1) as (w2 & Hp2 & Hw2 & Hok2 & Hs2). exists w2. unfold_go. rewrite Hp, Hp2.
  split; [done|]. split; [congruence|]. split; [done|]. intros id. by rewrite Hs2, Hs1.
Qed.

(** Writing the orders leaves the store alone. *)
Lemma put_apart s w : es_ok w -> exists w', put_state s w = (Done tt, w') /\ part w' = s /\
  es_ok w' /\ forall id, es_stream w' id = es_stream w id.
Proof.
  intros Hok. exists (set_part s w). destruct (orders_apart s w) as [Hs1 Hs2].
  split; [done|]. split; [apply part_set|]. auto.
Qed.

Lemma load_order p o w : heap (part w) !! p = Some o -> load p w = (Done o, w).
Proof. intros Hp. unfold load, get_state. unfold_go. unfold index_get. by rewrite Hp. Qed.

(** What saving does, when the store takes the events. *)
Lemma order_saved ctx p o w :
  es_ok w -> es_usable ctx -> heap (part w) !! p = Some o -> explained_from (es_stream w (order_ID o)) o ->
  exists w', ES_Save publish OrderRepository ctx p w = (Done None, w') /\ es_ok w' /\
    es_stream w' (order_ID o) = es_stream w (order_ID o) ++ uncommittedEvents (order_root o) /\
    part w' = mkState (<[p := set_root (MarkEventsAsCommitted (order_root o)) o]> (heap (part w)))
                (<[order_ID o := p]> (orders (part w))).
Proof.
  intros Hok Hu Hp (Hid & (st & Hst & Hlife) & Hids & Hv & _).
  pose proof (lifecycle_short _ _ Hlife) as Hshort. apply Forall_app in Hids as [Hpast Hids].
  set (evts := uncommittedEvents (order_root o)) in *. set (past := es_stream w (order_ID o)) in *.
  pose proof (zlen_nonneg evts) as Hnn. pose proof (zlen_nonneg past) as Hnn'.
  assert (Version (order_root o) -i zlen evts = zlen past) as Hexp.
  { unfold Version. rewrite Hv. autorewrite with go_rw in *. rewrite int_sub_id; [lia|].
    unfold in_int64, two63. destruct st; lia. }
  unfold ES_Save, OrderRepository, repo_Save. cbn [Save]. unfold_go. rewrite (load_order _ _ _ Hp).
  unfold UncommittedEvents. fold evts. case_bool_decide as Hn.
  - rewrite Hexp. destruct (es_append_ok ctx w (order_ID o) evts Hok Hu Hids) as (w1 & Happ & Hok1 & Hx1).
    { unfold max_stream. fold past. destruct st; lia. }
    fold past in Happ. rewrite Happ. pose proof (append_apart ctx (order_ID o) (zlen past) evts w) as Hw1.
    rewrite Happ in Hw1. cbn in Hw1. rewrite <- Hw1 in Hp. rewrite (load_order _ _ _ Hp).
    unfold write, get_state. unfold_go.
    destruct (put_apart (mkState (<[p := set_root (MarkEventsAsCommitted (order_root o)) o]> (heap (part w1)))
      (orders (part w1))) w1 Hok1) as (w2 & -> & Hw2 & Hok2 & Hs2).
    destruct (publish_all_apart ctx evts w2 Hok2) as (w3 & -> & Hw3 & Hok3 & Hs3).
    assert (heap (part w3) !! p = Some (set_root (MarkEventsAsCommitted (order_root o)) o)) as Hp3.
    { rewrite Hw3, Hw2. cbn. apply list_lookup_insert_eq. by eapply lookup_lt_Some. }
    rewrite (load_order _ _ _ Hp3).
    destruct (put_apart (mkState (heap (part w3)) (<[order_ID o := p]> (orders (part w3)))) w3 Hok3)
      as (w4 & Hput & Hw4 & Hok4 & Hs4).
    unfold order_ID in *. cbn [set_root order_root] in *. unfold MarkEventsAsCommitted in *. unfold ID in *. cbn [root_entity] in *.
    rewrite Hput. exists w4. split; [done|]. split; [done|]. split.
    + rewrite Hs4, Hs3, Hs2. rewrite (Hx1 _). by rewrite bool_decide_eq_true_2.
    + by rewrite Hw4, Hw3, Hw2, Hw1.
  - assert (evts = []) as Hnil by (destruct evts; [done|]; autorewrite with go_rw in *; pose proof (zlen_nonneg evts); lia).
    rewrite (load_order _ _ _ Hp). unfold get_state. unfold_go.
    destruct (put_apart (mkState (heap (part w)) (<[order_ID o := p]> (orders (part w)))) w Hok)
      as (w4 & -> & Hw4 & Hok4 & Hs4).
    exists w4. split; [done|]. split; [done|]. split; [by rewrite Hs4, Hnil, app_nil_r|]. rewrite Hw4. f_equal.
    rewrite list_insert_id; [done|]. rewrite Hp. f_equal. unfold evts in Hnil. destruct o as [[] ]. cbn in *. by rewrite Hnil.
Qed.

Lemma es_load_explained ctx o w :
  es_ok w -> es_usable ctx -> explained_from [] (set_root (mkRoot (root_entity (order_root o))
    (version (order_root o)) (snapshotVersion (order_root o)) (es_stream w (order_ID o))) o) ->
  exists w', ES_Load ctx (order_ID o) w = (Done (Ok (length (heap (part w)))), w') /\ es_ok w' /\
    part w' = mkState (heap (part w) ++ [forget o]) (orders (part w)) /\
    forall id, es_stream w' id = es_stream w id.
Proof.
  intros Hok Hu (Hid & (st & Hst & Hlife) & _ & _ & o0 & Ho0 & Hl). cbn in *.
  change (order_ID (set_root _ o)) with (order_ID o) in *.
  destruct (es_load_ok ctx w (order_ID o) 0 Hok Hu ltac:(lia)) as (w1 & Hload & Hok1 & Hx1).
  change (Z.to_nat 0) with 0 in Hload. rewrite drop_0 in Hload.
  pose proof (load_apart ctx (order_ID o) 0 w) as Hw1. rewrite Hload in Hw1. cbn in Hw1.
  unfold ES_Load. unfold_go. rewrite Hload. rewrite bool_decide_eq_false_2.
  2:{ intros Hz. destruct (es_stream w (order_ID o)) as [|x l]; [|by unfold zlen in Hz].
      inversion Hlife; try (by destruct es). }
  rewrite Ho0, Hl. unfold alloc, get_state. unfold_go.
  destruct (put_apart (mkState (heap (part w1) ++ [forget o]) (orders (part w1))) w1 Hok1) as (w2 & Hput & Hw2 & Hok2 & Hs2).
  change (forget (set_root _ o)) with (forget o). rewrite Hput. exists w2. rewrite Hw1 in *.
  split; [done|]. split; [done|]. split; [done|]. intros id. rewrite Hs2. by apply (stream_extends_nil _ _ _ _ Hx1).
Qed.
End EventSourcedLemmas.

(** ** Properties *)

(** C23: The order service refines its specification: for every sequence of requests (place, confirm,
    ship, cancel, delete, query), panics included, the answers of the handlers on the repository of
    shared pointers are those of a map from identities to lives with the status transitions pending,
    paid, shipped or cancelled, and so is what the repository holds at the end; the total is the
    floating-point sum of the items in their order. *)
Theorem orders_refine_lifecycle {W} `{!Has OrderState W, !HasLaws OrderState W, !MapRange, !Clock W, !IdGen W}
    (format_rfc3339 : Z -> string) ctx ops (w : W) :
  quiet (S := OrderState) (W := W) time_now -> quiet (S := OrderState) (W := W) new_uuid ->
  part w = mkState [] NewOrderRepository ->
  exists fresh, length fresh = length ops /\
    ((run_ops format_rfc3339 ctx ops w).1, lives (part (run_ops format_rfc3339 ctx ops w).2)) =
      spec_ops fresh ops ∅.
Proof.
  intros Ht Hi Hw. destruct (run_ops_ok Ht Hi format_rfc3339 ctx ops w) as (fresh & Hlen & _ & Hspec).
  { rewrite Hw. apply state_ok_empty. }
  exists fresh. split; [done|]. by rewrite Hspec, Hw.
Qed.

(** C27: In every state that requests lead to, the order filed under an identity has that identity,
    its uncommitted events follow the life cycle and end in its status, and replaying them on an
    empty order gives the order itself, with every event committed, but without its items, which no
    event carries. *)
Theorem order_history_explained {W} `{!Has OrderState W, !HasLaws OrderState W, !MapRange, !Clock W, !IdGen W}
    (format_rfc3339 : Z -> string) ctx ops (w : W) id p :
  quiet (S := OrderState) (W := W) time_now -> quiet (S := OrderState) (W := W) new_uuid ->
  part w = mkState [] NewOrderRepository ->
  let s := part (run_ops format_rfc3339 ctx ops w).2 in
  orders s !! id = Some p ->
  exists o st o0, heap s !! p = Some o /\ order_ID o = id /\ OStatus o = Some st /\
    lifecycle (UncommittedEvents (order_root o)) st /\
    NewOrderForReplay id = Done o0 /\ LoadFromHistory o0 (UncommittedEvents (order_root o)) = (forget o, None).
Proof.
  intros Ht Hi Hw s Hp. destruct (run_ops_ok Ht Hi format_rfc3339 ctx ops w) as (_ & _ & [Hex Hptr] & _).
  { rewrite Hw. apply state_ok_empty. }
  destruct (Hptr _ _ Hp) as (o & Ho & Hid). pose proof (Forall_lookup_1 _ _ _ _ Hex Ho) as Hexo.
  destruct Hexo as (_ & (st & Hst & Hlife) & _ & _ & o0 & Ho0 & Hl).
  exists o, st, o0. rewrite <- Hid. by split_and!.
Qed.

(** Saving an order in the event-sourced repository and loading it, over any event store with the
    interface: if the stream holds the committed part of the order's history, then the save
    succeeds, leaves the order without uncommitted events, and loading gives a new order that is the
    saved one but for its items; the loaded order can be edited and saved in turn. *)
Theorem order_save_load {W} `{!Has OrderState W, !HasLaws OrderState W}
    `{!AggregateEventStore W domain_event, !AggregateEventStoreLaws W domain_event, !MapRange}
    (publish : context -> domain_event -> GoM W error) `{!SeparateStores W publish} ctx p o (w : W) :
  es_ok w -> es_usable ctx -> heap (part w) !! p = Some o -> explained_from (es_stream w (order_ID o)) o ->
  exists q w1 w2, ES_Save publish OrderRepository ctx p w = (Done None, w1) /\
    heap (part w1) !! p = Some (set_root (MarkEventsAsCommitted (order_root o)) o) /\
    ES_Load ctx (order_ID o) w1 = (Done (Ok q), w2) /\ heap (part w2) !! q = Some (forget o) /\
    explained_from (es_stream w2 (order_ID o)) (forget o) /\ es_ok w2.
Proof.
  intros Hok Hu Hp Hex. destruct (order_saved publish ctx p o w Hok Hu Hp Hex) as (w1 & Hsave & Hok1 & Hs1 & Hw1).
  assert (explained_from [] (set_root (mkRoot (root_entity (order_root o)) (version (order_root o))
    (snapshotVersion (order_root o)) (es_stream w1 (order_ID o))) o)) as Hex1 by (by rewrite Hs1).
  destruct (es_load_explained publish ctx o w1 Hok1 Hu Hex1) as (w2 & Hload & Hok2 & Hw2 & Hs2).
  exists (length (heap (part w1))), w1, w2. split; [done|]. split.
  { rewrite Hw1. cbn. apply list_lookup_insert_eq. by eapply lookup_lt_Some. }
  split; [done|]. split; [rewrite Hw2; by apply list_lookup_middle|]. split; [|done].
  rewrite Hs2. unfold explained_from in *. cbn in *. by rewrite app_nil_r.
Qed.

(** A shipped order can be cancelled all the same: on every paid order of the repository, a
    shipment and a cancellation that run concurrently can both pass their checks and both succeed;
    the order then has both events and is no longer in any state of its life cycle. *)
Theorem ship_cancel_race o reason b1 b2 :
  OStatus o = Some OrderStatusPaid -> AggregateID b1 = order_ID o -> AggregateID b2 = order_ID o ->
  exists o', rtc Race.step (Race.mkRace o [Race.Starting Race.ship_call; Race.Starting (Race.cancel_call reason)])
      (Race.mkRace o' [Race.Finished None; Race.Finished None]) /\
    OStatus o' = Some OrderStatusCancelled /\ ShippedAt o' = OccurredAt b1 /\
    UncommittedEvents (order_root o') =
      UncommittedEvents (order_root o) ++ [OrderShippedEvent b1; OrderCancelledEvent b2 reason] /\
    ~ exists st, lifecycle (UncommittedEvents (order_root o')) st.
Proof.
  intros Hst H1 H2.
  set (o1 := (ApplyChange o (OrderShippedEvent b1)).1). set (o2 := (ApplyChange o1 (OrderCancelledEvent b2 reason)).1).
  assert (UncommittedEvents (order_root o2) =
    UncommittedEvents (order_root o) ++ [OrderShippedEvent b1; OrderCancelledEvent b2 reason]) as Hu.
  { unfold UncommittedEvents. cbn. by rewrite <- app_assoc. }
  exists o2. split; [|split; [done|split; [done|split; [done|]]]].
  - eapply rtc_l; [apply (Race.step_check _ 0 Race.ship_call); [done|cbn; unfold ship_refused; by rewrite Hst]|].
    eapply rtc_l; [apply (Race.step_check _ 1 (Race.cancel_call reason)); [done|cbn; unfold cancel_refused; by rewrite Hst]|].
    eapply rtc_l; [apply (Race.step_apply _ 0 Race.ship_call b1); done|].
    eapply rtc_l; [apply (Race.step_apply _ 1 (Race.cancel_call reason) b2); done|]. apply rtc_refl.
  - rewrite Hu. intros (st & Hlife). change ([?a; ?b]) with ([a] ++ [b]) in Hlife. rewrite app_assoc in Hlife.
    destruct (lifecycle_cancelled_last _ _ _ _ Hlife) as (st' & Hl' & Hst').
    apply lifecycle_shipped_last in Hl'. subst. by destruct Hst'.
Qed.

(** ** A concrete service *)
Module DemoOrder.
Import Env.
Definition world : Type := Env.env * OrderState.
#[export] Instance demo_clock : Clock world := fun w => let '(t, e) := now w.1 in (t, (e, w.2)).
#[export] Instance demo_ids : IdGen world := fun w => let '(i, e) := fresh_id w.1 in (i, (e, w.2)).

Lemma demo_time_quiet : quiet (S := OrderState) (W := world) time_now.
Proof. intros [e s]. by do 2 eexists. Qed.
Lemma demo_uuid_quiet : quiet (S := OrderState) (W := world) new_uuid.
Proof. intros [e s]. by do 2 eexists. Qed.

Definition w0 : world := (Env.mkEnv 100 1, mkState [] NewOrderRepository).
Definition inputs : list ItemInput := [mkInput "laptop" "Laptop" (float_of_int 1000) 2; mkInput "mouse" "Mouse" (float_of_int 30) 1].
Definition session : list order_op :=
  [OPlace "u" inputs; OConfirm "id-1"; OShip "id-1"; OCancel "id-1" "late"; OPlace "u" []; OShip "id-9"].

(** The events of a paid order, and the order. *)
Definition placed : domain_event := OrderPlacedEvent (mkBase "o1" 5 "" "") "u" (float_of_int 7) ["Pen"].
Definition paid : domain_event := PaymentConfirmedEvent (mkBase "o1" 6 "" "").
Definition order0 : Order :=
  mkOrder (mkRoot (Entity.mk "o1") 2 (-1) [placed; paid]) "u" [mkItem (Entity.mk "pen") "Pen" (float_of_int 7) 1]
    (Some OrderStatusPaid) (float_of_int 7) 5 6 time_zero time_zero "".

Lemma order0_explained : explained order0.
Proof.
  split; [done|]. split; [exists OrderStatusPaid; split; [done|apply (life_paid [placed]), life_placed]|].
  split; [by repeat constructor|]. split; [done|]. by eexists.
Qed.

(** A store of events beside the orders. *)
Definition es_world : Type := (list domain_event * EventSourceStore domain_event) * OrderState.
#[export] Instance demo_store : AggregateEventStore es_world domain_event :=
  lift_store (memory_store placed).
#[export] Instance demo_laws : AggregateEventStoreLaws es_world domain_event :=
  lift_laws (memory_store placed) (memory_laws placed).
Definition no_subscriber : context -> domain_event -> GoM es_world error := fun _ _ => mret None.
#[export] Instance demo_separate : SeparateStores es_world no_subscriber.
Proof.
  split.
  - by intros s [m s'].
  - intros ctx id v evts [m s]. cbn. unfold lifted. by destruct (memory_Append _ _ _ _ _).
  - intros ctx id v [m s]. cbn. unfold lifted. by destruct (memory_Load _ _ _ _).
  - intros ctx e w Hok. by exists w.
Qed.
Definition es_w0 : es_world := (([], EventStore.mkStore ∅ [] 0 None true), mkState [order0] ∅).
End DemoOrder.
Import DemoOrder.

(** What a session answers. *)
Example demo_session : map (fun o => match o with Done (Placed r) => pr_OrderID r | Done Succeeded => "ok"
    | Done (Failed e) => Error e | _ => "" end) (run_ops (fun _ => "") Background session w0).1 =
  ["id-1"; "ok"; "ok"; "order id-1 already shipped, cannot cancel"; "order must have at least one item";
   "order id-9 not found"].
Proof. vm_compute. reflexivity. Qed.

Lemma orders_refine_lifecycle_witness :
  exists fresh, length fresh = 6 /\
    ((run_ops (fun _ => "") Background session w0).1,
     lives (part (run_ops (fun _ => "") Background session w0).2)) = spec_ops fresh session ∅.
Proof. exact (orders_refine_lifecycle (fun _ => "") Background session w0 demo_time_quiet demo_uuid_quiet eq_refl). Defined.

Lemma order_history_explained_witness :
  exists o st o0, OStatus o = Some st /\ lifecycle (UncommittedEvents (order_root o)) st /\
    NewOrderForReplay "id-1" = Done o0 /\ LoadFromHistory o0 (UncommittedEvents (order_root o)) = (forget o, None).
Proof.
  destruct (order_history_explained (fun _ => "") Background session w0 "id-1" 0 demo_time_quiet demo_uuid_quiet eq_refl)
    as (o & st & o0 & _ & _ & H); [vm_compute; reflexivity|]. by exists o, st, o0.
Defined.

Lemma order_save_load_witness :
  exists q w1 w2, ES_Save no_subscriber OrderRepository Background 0 es_w0 = (Done None, w1) /\
    ES_Load Background "o1" w1 = (Done (Ok q), w2) /\ heap (part w2) !! q = Some (forget order0).
Proof.
  destruct (order_save_load (AggregateEventStoreLaws0 := demo_laws) no_subscriber Background 0 order0 es_w0)
    as (q & w1 & w2 & H1 & _ & H2 & H3 & _).
  - split; [by intros|]. intros id. split; [discriminate|constructor].
  - exact I.
  - reflexivity.
  - exact order0_explained.
  - exists q, w1, w2. split; [exact H1|]. split; [exact H2|exact H3].
Defined.

Lemma ship_cancel_race_witness :
  exists o', rtc Race.step (Race.mkRace order0 [Race.Starting Race.ship_call; Race.Starting (Race.cancel_call "late")])
      (Race.mkRace o' [Race.Finished None; Race.Finished None]) /\ OStatus o' = Some OrderStatusCancelled.
Proof.
  destruct (ship_cancel_race order0 "late" (mkBase "o1" 8 "" "") (mkBase "o1" 9 "" "") eq_refl eq_refl eq_refl)
    as (o' & H1 & H2 & _).
  exists o'. split; [exact H1|exact H2].
Defined.
