(* ===== verification/Inventory.v ===== *)
(** * The inventory of the example application: [src/exampleapp/ddd/inventory]

    Stock under a mutex, its command, query and event handlers, and the product
    stores. A pointer to a product never leaves the inventory, so products are
    values. *)

From Stdlib Require Import Floats.SpecFloat.
From S2P Require Import Prelude Errors Trace Aggregate Order.

(** ** The domain ([domain/inventory.go]) *)

Record Product := mkProduct {
  P_ID : string;
  P_Name : string;
  P_Price : float64;
  Stock : Z }.

Record Inventory := mkInventory { products : gmap string Product }.

(** The prices are the binary64 numbers nearest to the decimal literals. *)
Definition DefaultProducts : list Product :=
  [mkProduct "laptop" "Laptop" (S754_finite false 8796005061277778 (-43)) 10;
   mkProduct "mouse" "Mouse" (S754_finite false 8441434551552573 (-48)) 50;
   mkProduct "keyboard" "Keyboard" (S754_finite false 5628795846771343 (-46)) 30;
   mkProduct "monitor" "Monitor" (S754_finite false 8795917100347556 (-44)) 15;
   mkProduct "headphone" "Headphone" (S754_finite false 5277303969603912 (-45)) 25].

Definition put_product (m : gmap string Product) (p : Product) : gmap string Product := <[P_ID p := p]> m.

Definition seed (inv : Inventory) : Inventory := mkInventory (fold_left put_product DefaultProducts (products inv)).
Definition NewInventory : Inventory := seed (mkInventory ∅).

Definition product_not_found (id : string) : goerr := ENew ("product " +:+ id +:+ " not found").

Definition with_stock (p : Product) (n : Z) : Product := mkProduct (P_ID p) (P_Name p) (P_Price p) n.

Definition Reserve (productID : string) (quantity : Z) (inv : Inventory) : error * Inventory :=
  match products inv !! productID with
  | None => (Some (product_not_found productID), inv)
  | Some p =>
      if bool_decide (Stock p < quantity)%Z then
        (Some (ENew ("insufficient stock for " +:+ P_Name p +:+ ": have " +:+ pretty (Stock p) +:+ ", need " +:+
                     pretty quantity)), inv)
      else (None, mkInventory (<[productID := with_stock p (Stock p -i quantity)]> (products inv)))
  end.

Definition Release (productID : string) (quantity : Z) (inv : Inventory) : error * Inventory :=
  match products inv !! productID with
  | None => (Some (product_not_found productID), inv)
  | Some p => (None, mkInventory (<[productID := with_stock p (Stock p +i quantity)]> (products inv)))
  end.

Definition AddStock (productID : string) (quantity : Z) (inv : Inventory) : error * Inventory :=
  match products inv !! productID with
  | None => (Some (product_not_found productID), inv)
  | Some p => (None, mkInventory (<[productID := with_stock p (Stock p +i quantity)]> (products inv)))
  end.

Definition GetAll `{!MapRange} (inv : Inventory) : list Product := map snd (map_range (products inv)).

Definition zero_product : Product := mkProduct "" "" float_zero 0.
Definition GetByID (id : string) (inv : Inventory) : Product * bool :=
  match products inv !! id with Some p => (p, true) | None => (zero_product, false) end.

(** ** Product stores ([domain/product_store.go]) *)

Record ProductStore (W : Type) := mkProductStore {
  LoadAll : GoM W (result (list Product));
  store_Save : Product -> GoM W error;
  UpdateStock : string -> Z -> GoM W error }.
Arguments mkProductStore {W} LoadAll store_Save UpdateStock.
Arguments LoadAll {W} _ _.
Arguments store_Save {W} _ _ _.
Arguments UpdateStock {W} _ _ _ _.

Definition NewInMemoryProductStore (ps : list Product) : gmap string Product := fold_left put_product ps ∅.

Definition InMemoryProductStore `{!MapRange} : ProductStore (gmap string Product) := {|
  LoadAll := fun m => (Done (Ok (map snd (map_range m))), m);
  store_Save p := fun m => (Done None, put_product m p);
  UpdateStock id stock := fun m =>
    match m !! id with
    | None => (Done (Some (product_not_found id)), m)
    | Some p => (Done None, <[id := with_stock p stock]> m)
    end |}.

Fixpoint SeedProducts {W} (store : ProductStore W) (ps : list Product) : GoM W error :=
  match ps with
  | [] => mret None
  | p :: rest =>
      err ← store_Save store p;
      match err with
      | Some err => mret (Some (EWrap ("seed product " +:+ P_ID p +:+ ": ") err ""))
      | None => SeedProducts store rest
      end
  end.

(** ** Handlers ([command/handlers.go], [query/handlers.go], [wire/wire.go]) *)

Record InventoryCommand := mkInvCmd { ic_OrderID : string; ic_ProductID : string; ic_Quantity : Z }.
Record InventoryItem := mkInvItem { ii_ID : string; ii_Name : string; ii_Price : float64; ii_Stock : Z }.

Section Handlers.
Context {W : Type} `{!Has Inventory W, !Clock W, !MapRange}.
Context (eventBus_Publish : context -> domain_event -> GoM W error).

(** The error of [Publish] is dropped. *)
Definition change_stock (change : string -> Z -> Inventory -> error * Inventory)
    (evt : BaseEvent -> string -> Z -> domain_event) (ctx : context) (cmd : InventoryCommand) : GoM W error :=
  err ← on_part (change (ic_ProductID cmd) (ic_Quantity cmd));
  match err with
  | Some err => mret (Some err)
  | None =>
      now ← time_now;
      _ ← eventBus_Publish ctx (evt (WithCorrelation now ctx (ic_OrderID cmd)) (ic_ProductID cmd) (ic_Quantity cmd));
      mret None
  end.

Definition ReserveInventory_Handle := change_stock Reserve InventoryReservedEvent.
Definition ReleaseInventory_Handle := change_stock Release InventoryReleasedEvent.
Definition ResetInventory_Handle (_ : context) (_ : string) : GoM W error := mret None.

Definition GetInventory_Handle (_ : context) : GoM W (list InventoryItem) :=
  ps ← on_part (fun inv => (GetAll inv, inv));
  mret (map (fun p => mkInvItem (P_ID p) (P_Name p) (P_Price p) (Stock p)) ps).

(** [command.Dispatch] on the command bus, for the two commands of the inventory. *)
Context (dispatch_reserve dispatch_release : context -> InventoryCommand -> GoM W error).

Definition OrderPlacedInventory_Handle (ctx : context) (evt : domain_event) : GoM W error :=
  dispatch_reserve ctx (mkInvCmd (AggregateID (event_base evt)) "laptop" 1).
Definition OrderCancelledInventory_Handle (ctx : context) (evt : domain_event) : GoM W error :=
  dispatch_release ctx (mkInvCmd (AggregateID (event_base evt)) "laptop" 1).
End Handlers.

(** ** Specification: a ledger

    What the successful operations of a run add up to for one product, and the most
    that the run may supply. *)
Inductive stock_op := SReserve (id : string) (n : Z) | SRelease (id : string) (n : Z) | SAdd (id : string) (n : Z).

Definition stock_step (op : stock_op) : Inventory -> error * Inventory :=
  match op with SReserve id n => Reserve id n | SRelease id n => Release id n | SAdd id n => AddStock id n end.

Fixpoint stock_run (ops : list stock_op) (inv : Inventory) : list error * Inventory :=
  match ops with
  | [] => ([], inv)
  | op :: ops => let '(err, inv) := stock_step op inv in let '(errs, inv) := stock_run ops inv in (err :: errs, inv)
  end.

Definition op_product (op : stock_op) : string := match op with SReserve id _ | SRelease id _ | SAdd id _ => id end.
Definition op_quantity (op : stock_op) : Z := match op with SReserve _ n | SRelease _ n | SAdd _ n => n end.
Definition op_delta (op : stock_op) : Z := match op with SReserve _ n => - n | SRelease _ n | SAdd _ n => n end.

Definition entry (id : string) (op : stock_op) (err : error) : Z :=
  if bool_decide (op_product op = id /\ err = None) then op_delta op else 0.
Fixpoint balance (id : string) (ops : list stock_op) (errs : list error) : Z :=
  match ops, errs with op :: ops, err :: errs => entry id op err + balance id ops errs | _, _ => 0 end.

Definition supply (id : string) (ops : list stock_op) : Z :=
  zsum (fun op => match op with SReserve _ _ => 0 | _ => if bool_decide (op_product op = id) then op_quantity op else 0 end)%Z ops.

(** ** Lemmas *)

(** One operation on the product it names, and on the others. *)
Lemma stock_step_spec op inv id p :
  products inv !! id = Some p ->
  products (stock_step op inv).2 !! id =
    Some (with_stock p (if bool_decide (op_product op = id /\ (stock_step op inv).1 = None)
                        then Stock p +i op_delta op else Stock p)).
Proof.
  intros Hp. assert (with_stock p (Stock p) = p) as Hsame by (by destruct p).
  destruct (decide (op_product op = id)) as [<-|Hne].
  - destruct op as [i n|i n|i n]; cbn in *; unfold Reserve, Release, AddStock; rewrite Hp;
      [case_bool_decide as Hlt|..]; cbn [fst snd products op_delta]; rewrite ?lookup_insert_eq, ?Hp.
    1: rewrite bool_decide_eq_false_2 by (by intros []); by rewrite Hsame.
    all: rewrite bool_decide_eq_true_2 by done; done.
  - rewrite bool_decide_eq_false_2 by (by intros []). rewrite Hsame.
    destruct op as [i n|i n|i n]; cbn in *; unfold Reserve, Release, AddStock;
      destruct (products inv !! i); try case_bool_decide; cbn [fst snd products]; by rewrite ?lookup_insert_ne.
Qed.

(** Stock cannot be taken below zero, nor above what is supplied. *)
Lemma stock_step_bounds op inv id p :
  products inv !! id = Some p -> (0 <= op_quantity op)%Z -> (0 <= Stock p)%Z ->
  (Stock p + supply id [op] < two63)%Z ->
  exists n, products (stock_step op inv).2 !! id = Some (with_stock p n) /\ (0 <= n <= Stock p + supply id [op])%Z /\
    n = (Stock p + entry id op (stock_step op inv).1)%Z.
Proof.
  intros Hp Hq Hs Hb. rewrite (stock_step_spec op inv id p Hp). unfold entry. eexists. split; [done|].
  destruct (decide (op_product op = id)) as [<-|Hne].
  - destruct op as [i n|i n|i n]; cbn in *; unfold Reserve, Release, AddStock in *; rewrite Hp in *;
      rewrite ?bool_decide_eq_true_2 in Hb by done.
    1: destruct (decide (Stock p < n)%Z) as [Hlt|Hlt];
      [rewrite (bool_decide_eq_true_2 (Stock p < n)%Z) by done|rewrite (bool_decide_eq_false_2 (Stock p < n)%Z) by done];
      cbn [fst snd op_delta].
    1: rewrite !bool_decide_eq_false_2 by (by intros []); lia.
    all: cbn [fst snd op_delta]; rewrite !bool_decide_eq_true_2 by done; rewrite int_add_id; unfold in_int64, two63 in *; lia.
  - rewrite !bool_decide_eq_false_2 by (by intros []). split; [|lia].
    unfold supply, zsum. cbn. rewrite bool_decide_eq_false_2 by done. destruct op; lia.
Qed.

Lemma supply_cons id op ops : supply id (op :: ops) = (supply id [op] + supply id ops)%Z.
Proof. unfold supply, zsum. cbn. lia. Qed.

Lemma supply_nonneg id ops : Forall (fun op => 0 <= op_quantity op)%Z ops -> (0 <= supply id ops)%Z.
Proof.
  induction 1 as [|op ops Hop _ IH]; [done|]. rewrite supply_cons. unfold supply at 1, zsum. cbn.
  destruct op; cbn in *; repeat case_bool_decide; lia.
Qed.

(** ** Properties *)

(** C31: The inventory keeps its books: for every sequence of reservations, releases and deliveries,
    the stock of a product is its initial stock plus the balance of the operations that succeeded,
    in 64-bit arithmetic, and nothing else of it changes; if no quantity is negative and the supply
    does not overflow, the balance is exact and the stock never becomes negative. *)
Theorem inventory_ledger ops inv id p :
  products inv !! id = Some p -> in_int64 (Stock p) ->
  exists n, products (stock_run ops inv).2 !! id = Some (with_stock p n) /\
    n = wrap64 (Stock p + balance id ops (stock_run ops inv).1) /\
    (Forall (fun op => 0 <= op_quantity op)%Z ops -> (0 <= Stock p)%Z -> (Stock p + supply id ops < two63)%Z ->
     0 <= n /\ n = Stock p + balance id ops (stock_run ops inv).1)%Z.
Proof.
  revert inv p. induction ops as [|op ops IH]; intros inv p Hp Hr; cbn [stock_run].
  { exists (Stock p). cbn. rewrite Z.add_0_r, wrap64_id by done. split; [by destruct p|]. split; [done|]. lia. }
  pose proof (stock_step_spec op inv id p Hp) as Hstep.
  pose proof (stock_step_bounds op inv id p Hp) as Hbound.
  destruct (stock_step op inv) as [err inv1]. cbn [fst snd] in *.
  set (n1 := if bool_decide (op_product op = id /\ err = None) then Stock p +i op_delta op else Stock p) in Hstep.
  assert (in_int64 n1) as Hr1 by (unfold n1; case_bool_decide; [apply wrap64_range|done]).
  destruct (IH inv1 _ Hstep Hr1) as (n & Hn & Hw & Hnn). clear IH.
  destruct (stock_run ops inv1) as [errs inv2]. cbn [fst snd with_stock Stock balance] in *.
  exists n. split; [done|]. split.
  - rewrite Hw. unfold n1, entry. case_bool_decide; [|f_equal; lia].
    unfold int_add. rewrite wrap64_wrap64_add. f_equal. lia.
  - rewrite Forall_cons, supply_cons. intros [Hq Hqs] Hs Hsum. pose proof (supply_nonneg id ops Hqs) as Hsn.
    destruct (Hbound Hq Hs) as (n1' & Hn1 & Hle & Heq); [lia|]. rewrite Hstep in Hn1. injection Hn1 as Hn1.
    destruct (Hnn Hqs) as [H0 Hex]; lia.
Qed.

(** ** A concrete run *)
Module DemoInventory.
Definition ops : list stock_op := [SReserve "laptop" 4; SReserve "laptop" 7; SRelease "laptop" 1; SAdd "mouse" 5].
End DemoInventory.
Import DemoInventory.

(** A reservation of a negative quantity passes, and raises the stock. *)
Example negative_reservation :
  (Reserve "laptop" (-5) NewInventory).1 = None /\
  Stock <$> products (Reserve "laptop" (-5) NewInventory).2 !! "laptop" = Some 15%Z.
Proof. by vm_compute. Qed.

Lemma inventory_ledger_witness :
  exists n, Stock <$> products (stock_run ops NewInventory).2 !! "laptop" = Some n /\ n = 7%Z.
Proof.
  destruct (inventory_ledger ops NewInventory "laptop" (List.nth 0 DefaultProducts zero_product)) as (n & H1 & _ & H2).
  - vm_compute. reflexivity.
  - vm_compute. split; [discriminate|reflexivity].
  - exists n. rewrite H1. split; [reflexivity|].
    destruct H2 as [_ H2]; [repeat constructor; vm_compute; discriminate|vm_compute; discriminate|vm_compute; reflexivity|].
    rewrite H2. vm_compute. reflexivity.
Defined.
