(* ===== verification/OrderPg.v ===== *)
(** * Orders and products in PostgreSQL: [ddd/order/repository/pg_repository.go] and the
      PostgreSQL store of [ddd/inventory/domain/product_store.go] of [src/exampleapp]

    The statements on the tables are parameters, [OrderTable] and [ProductTable];
    [OrderTableLaws] is what PostgreSQL documents of the first, as long as no statement
    fails for another reason. The JSON of an order is a parameter, too. *)

From S2P Require Import Prelude Errors Entity Trace Pg Aggregate Order Inventory.

(** ** The repository of orders *)

(** The statements on [ddd_aggregate_snapshots], for the type ['Order']. *)
Class OrderTable (W Dat : Type) := {
  (** [SELECT version ... WHERE aggregate_id] and [Scan] *)
  ot_version : context -> string -> GoM W (Z + goerr);
  (** [INSERT INTO ... VALUES ($1, 'Order', $2, $3, NOW())] *)
  ot_insert : context -> string -> Dat -> Z -> GoM W error;
  (** [UPDATE ... SET snapshot_data, version, updated_at WHERE aggregate_id]: whatever the version is *)
  ot_update : context -> string -> Dat -> Z -> GoM W error;
  (** [SELECT snapshot_data ... WHERE aggregate_id] and [Scan] *)
  ot_data : context -> string -> GoM W (Dat + goerr);
  (** [DELETE ... WHERE aggregate_id] *)
  ot_delete : context -> string -> GoM W error;
  (** [SELECT aggregate_id, snapshot_data ... ORDER BY aggregate_id]: the scanned rows and [rows.Err()] *)
  ot_all : context -> GoM W ((list (string * Dat + goerr) * error) + goerr) }.

Section PgOrderRepository.
Context {W Dat : Type} `{!Has OrderState W, !OrderTable W Dat}.
(** [json.Marshal] of an order and [json.Unmarshal] into one. *)
Context (json_Marshal : Order -> result Dat) (json_Unmarshal : Dat -> Order -> result Order).

Definition pg_order_Save (ctx : context) (order : nat) : GoM W error :=
  o ← load order;
  match json_Marshal o with
  | Err err => mret (Some (EWrap "marshal order: " err ""))
  | Ok data =>
      let version := Version (order_root o) in
      existing ← ot_version ctx (order_ID o);
      match existing with
      | inr err =>
          if is_no_rows err then ot_insert ctx (order_ID o) data version
          else mret (Some (EWrap "query existing order: " err ""))
      | inl _ => ot_update ctx (order_ID o) data version
      end
  end.

(** A new order from its data. *)
Definition unmarshal_order (id : string) (data : Dat) : outcome (result Order) :=
  order ← NewOrderForReplay id; mret (json_Unmarshal data order).

Definition pg_order_FindByID (ctx : context) (id : string) : GoM W (result nat) :=
  data ← ot_data ctx id;
  match data with
  | inr err => mret (Err (if is_no_rows err then not_found id else err))
  | inl data =>
      order ← go_outcome (unmarshal_order id data);
      match order with
      | Err err => mret (Err (EWrap "unmarshal order: " err ""))
      | Ok order => p ← alloc order; mret (Ok p)
      end
  end.

Definition pg_order_Delete (ctx : context) (id : string) : GoM W error := ot_delete ctx id.

(** The loop over the rows. *)
Fixpoint read_orders (rows : list (string * Dat + goerr)) (rows_err : error) : GoM W (result (list nat)) :=
  match rows with
  | [] => mret (match rows_err with Some err => Err err | None => Ok [] end)
  | inr err :: _ => mret (Err err)
  | inl (id, data) :: rows =>
      order ← go_outcome (unmarshal_order id data);
      match order with
      | Err err => mret (Err (EWrap ("unmarshal order " +:+ id +:+ ": ") err ""))
      | Ok order =>
          p ← alloc order;
          rest ← read_orders rows rows_err;
          mret (match rest with Ok ps => Ok (p :: ps) | Err err => Err err end)
      end
  end.

Definition pg_order_FindAll (ctx : context) : GoM W (result (list nat)) :=
  rows ← ot_all ctx;
  match rows with
  | inr err => mret (Err err)
  | inl (rows, rows_err) => read_orders rows rows_err
  end.

Definition PgOrderRepository : OrderRepositoryAdapter W :=
  mkAdapter pg_order_Save pg_order_FindByID pg_order_Delete pg_order_FindAll.
End PgOrderRepository.

(** ** The store of products *)

Class ProductTable (W : Type) := {
  (** [SELECT id, name, price, stock ... ORDER BY id] *)
  pt_all : GoM W ((list (Product + goerr) * error) + goerr);
  (** [INSERT INTO ddd_inventory_products ... ON CONFLICT (id) DO UPDATE SET name, price, stock] *)
  pt_upsert : Product -> GoM W error;
  (** [UPDATE ... SET stock WHERE id] *)
  pt_stock : string -> Z -> GoM W error }.

Section PgProductStore.
Context {W : Type} `{!ProductTable W}.

Fixpoint scan_products (rows : list (Product + goerr)) (rows_err : error) : result (list Product) :=
  match rows with
  | [] => match rows_err with Some err => Err err | None => Ok [] end
  | inr err :: _ => Err err
  | inl p :: rows => match scan_products rows rows_err with Ok ps => Ok (p :: ps) | Err err => Err err end
  end.

(** [products, rows.Err()]: the products read are returned beside the error, which the callers check first. *)
Definition pg_LoadAll : GoM W (result (list Product)) :=
  rows ← pt_all;
  mret (match rows with inr err => Err err | inl (rows, rows_err) => scan_products rows rows_err end).

Definition PgProductStore : ProductStore W := mkProductStore pg_LoadAll pt_upsert pt_stock.
End PgProductStore.

(** ** What PostgreSQL documents

    The rows of the type: data and version of each identity. *)
Class OrderTableLaws (W Dat : Type) `{!Has OrderState W, !Clock W, !IdGen W, !OrderTable W Dat} := {
  ot_ok : W -> Prop;
  ot_usable : context -> Prop;
  ot_rows : W -> gmap string (Dat * Z);
  ot_leads (w w' : W) (rows : gmap string (Dat * Z)) : Prop :=
    ot_ok w' /\ ot_rows w' = rows /\ part (S := OrderState) w' = part w;
  ot_version_law : forall ctx id w, ot_ok w -> ot_usable ctx -> exists w', ot_leads w w' (ot_rows w) /\
    ot_version ctx id w = (Done (match ot_rows w !! id with Some (_, v) => inl v | None => inr sql_ErrNoRows end), w');
  ot_insert_law : forall ctx id d v w, ot_ok w -> ot_usable ctx -> ot_rows w !! id = None -> exists w',
    ot_leads w w' (<[id := (d, v)]> (ot_rows w)) /\ ot_insert ctx id d v w = (Done None, w');
  ot_update_law : forall ctx id d v w, ot_ok w -> ot_usable ctx -> is_Some (ot_rows w !! id) -> exists w',
    ot_leads w w' (<[id := (d, v)]> (ot_rows w)) /\ ot_update ctx id d v w = (Done None, w');
  ot_data_law : forall ctx id w, ot_ok w -> ot_usable ctx -> exists w', ot_leads w w' (ot_rows w) /\
    ot_data ctx id w = (Done (match ot_rows w !! id with Some (d, _) => inl d | None => inr sql_ErrNoRows end), w');
  ot_delete_law : forall ctx id w, ot_ok w -> ot_usable ctx -> exists w', ot_leads w w' (delete id (ot_rows w)) /\
    ot_delete ctx id w = (Done None, w');
  (** The rest of the process does not touch the table. *)
  ot_orders_apart : forall s w, ot_ok w -> ot_ok (set_part s w) /\ ot_rows (set_part s w) = ot_rows w;
  ot_now_law : forall w, ot_ok w -> exists t w', time_now w = (Done t, w') /\ ot_leads w w' (ot_rows w);
  ot_uuid_law : forall w, ot_ok w -> exists id w', new_uuid w = (Done id, w') /\ ot_leads w w' (ot_rows w) }.

(** An order as its row keeps it: nothing uncommitted. *)
Definition stored (o : Order) : Order := set_root (MarkEventsAsCommitted (order_root o)) o.

(** The data that an order is marshalled to give the order back: what [encoding/json] documents, with the
    helpers of aggregates, whose round trip [JsonHelpers] proves for versions that a float keeps. *)
Class OrderJson {Dat} (json_Marshal : Order -> result Dat) (json_Unmarshal : Dat -> Order -> result Order) : Prop :=
  json_restores : forall o d o0, json_Marshal o = Ok d -> NewOrderForReplay (order_ID o) = Done o0 ->
    (0 <= Version (order_root o) <= 9007199254740992)%Z -> json_Unmarshal d o0 = Ok (stored o).

(** ** Specification: the life cycle again

    The requests of [Order] on any repository. Against a repository in PostgreSQL a deletion always succeeds, and
    an order that cannot be marshalled is refused; [fresh] gives the identity of a new order and the error, if any,
    of marshalling. *)
Section Client.
Context {W : Type} `{!Has OrderState W, !Clock W, !IdGen W} (Repo : OrderRepositoryAdapter W) (fmt : Z -> string).

Definition request (ctx : context) (op : order_op) : GoM W order_out :=
  match op with
  | OPlace user inputs =>
      r ← PlaceOrder_Handle Repo ctx user inputs; mret (match r with Ok r => Placed r | Err e => Failed e end)
  | OConfirm id => err ← ConfirmPayment_Handle Repo ctx id; mret (outcome_of err)
  | OShip id => err ← ShipOrder_Handle Repo ctx id; mret (outcome_of err)
  | OCancel id reason => err ← CancelOrder_Handle Repo ctx id reason; mret (outcome_of err)
  | ODelete id => err ← Delete Repo ctx id; mret (outcome_of err)
  | OGet id =>
      r ← GetOrder_Handle Repo fmt ctx id; mret (match r with Ok v => Shown (untimed v) | Err e => Failed e end)
  end.

Fixpoint requests (ctx : context) (ops : list order_op) (w : W) : list (outcome order_out) * W :=
  match ops with
  | [] => ([], w)
  | op :: ops => let '(out, w) := request ctx op w in let '(outs, w) := requests ctx ops w in (out :: outs, w)
  end.
End Client.

Definition pg_spec_op (fresh : string * error) (op : order_op) (m : gmap string life) :
    outcome order_out * gmap string life :=
  match op with
  | ODelete id => (Done Succeeded, delete id m)
  | _ =>
      let '(out, m') := spec_op fresh.1 op m in
      match out, fresh.2 with
      | Done (Placed _ | Succeeded), Some e => (Done (Failed (EWrap "marshal order: " e "")), m)
      | _, _ => (out, m')
      end
  end.

Fixpoint pg_spec_ops (fresh : list (string * error)) (ops : list order_op) (m : gmap string life) :
    list (outcome order_out) * gmap string life :=
  match ops, fresh with
  | op :: ops, i :: fresh =>
      let '(out, m) := pg_spec_op i op m in let '(outs, m) := pg_spec_ops fresh ops m in (out :: outs, m)
  | _, _ => ([], m)
  end.

(** ** Lemmas *)

Section PgLemmas.
Context {W Dat : Type} `{HO : !Has OrderState W, HOL : !HasLaws OrderState W, HClk : !Clock W, HIdg : !IdGen W}.
Context `{HT : !OrderTable W Dat, HTL : !OrderTableLaws W Dat}.
Context (json_Marshal : Order -> result Dat) (json_Unmarshal : Dat -> Order -> result Order).
Context `{HJ : !OrderJson json_Marshal json_Unmarshal} (fmt : Z -> string).
Context (ctx : context) (Hctx : ot_usable ctx).
Implicit Types w : W.
Abbreviation Repo := (PgOrderRepository json_Marshal json_Unmarshal).

(** An order of the rows: its version tells how far it got. *)
Definition rank (st : OrderStatus) : Z :=
  match st with OrderStatusPending => 1 | OrderStatusPaid => 2 | OrderStatusShipped | OrderStatusCancelled => 3 end.
Definition well (o : Order) : Prop :=
  order_ID o <> "" /\ exists st, OStatus o = Some st /\ (0 <= version (order_root o) <= rank st)%Z.

Definition rows_ok (rows : gmap string (Dat * Z)) : Prop :=
  map_Forall (fun id r => exists o, json_Marshal o = Ok r.1 /\ order_ID o = id /\ well o) rows.
Definition row_life (id : string) (r : Dat * Z) : option life :=
  match unmarshal_order json_Unmarshal id r.1 with Done (Ok o) => Some (life_of o) | _ => None end.
Definition row_lives (rows : gmap string (Dat * Z)) : gmap string life := map_imap row_life rows.

Lemma unmarshal_stored o d : json_Marshal o = Ok d -> well o ->
  unmarshal_order json_Unmarshal (order_ID o) d = Done (Ok (stored o)).
Proof.
  intros Hm (Hid & st & _ & Hv). unfold unmarshal_order, NewOrderForReplay, NewAggregateRoot, Entity.NewEntity.
  rewrite bool_decide_eq_false_2 by done. cbn. erewrite HJ; [reflexivity|exact Hm| |unfold Version; destruct st; cbn in Hv; lia].
  unfold NewOrderForReplay, NewAggregateRoot, Entity.NewEntity. by rewrite bool_decide_eq_false_2.
Qed.

Lemma rows_lookup rows id : rows_ok rows ->
  match rows !! id with
  | None => row_lives rows !! id = None
  | Some (d, _) => exists o, json_Marshal o = Ok d /\ order_ID o = id /\ well o /\ row_lives rows !! id = Some (life_of o)
  end.
Proof.
  intros Hok. unfold row_lives. rewrite map_lookup_imap. destruct (rows !! id) as [[d v]|] eqn:Hr; cbn; [|done].
  destruct (Hok _ _ Hr) as (o & Hm & Hid & Hw). exists o. split_and!; [done..|].
  unfold row_life. cbn in *. subst id. by rewrite (unmarshal_stored o d Hm Hw).
Qed.

Lemma rows_insert rows o d v : rows_ok rows -> json_Marshal o = Ok d -> well o ->
  rows_ok (<[order_ID o := (d, v)]> rows) /\ row_lives (<[order_ID o := (d, v)]> rows) = <[order_ID o := life_of o]> (row_lives rows).
Proof.
  intros Hok Hm Hw. split; [apply map_Forall_insert_2; [by exists o|done]|].
  apply map_eq. intros i. unfold row_lives. rewrite map_lookup_imap. destruct (decide (i = order_ID o)) as [->|Hne].
  - rewrite !lookup_insert_eq. cbn. unfold row_life. cbn. by rewrite (unmarshal_stored o d Hm Hw).
  - by rewrite !lookup_insert_ne, map_lookup_imap by done.
Qed.

Lemma rows_delete rows id : rows_ok rows ->
  rows_ok (delete id rows) /\ row_lives (delete id rows) = delete id (row_lives rows).
Proof.
  intros Hok. split; [by apply map_Forall_delete|]. apply map_eq. intros i. unfold row_lives. rewrite map_lookup_imap.
  destruct (decide (i = id)) as [->|Hne]; [by rewrite !lookup_delete_eq|by rewrite !lookup_delete_ne, map_lookup_imap by done].
Qed.

(** A world with the table as it is to be. *)
Definition at_rows w (rows : gmap string (Dat * Z)) : Prop := ot_ok w /\ ot_rows w = rows.

Lemma leads_at w w' rows : ot_leads w w' rows -> at_rows w' rows /\ heap (part w') = heap (part w).
Proof. intros (H1 & H2 & H3). by rewrite H3. Qed.

Lemma load_order_run p o w : heap (part w) !! p = Some o -> load p w = (Done o, w).
Proof. intros Hp. unfold load, get_state. unfold_go. unfold index_get. by rewrite Hp. Qed.

Lemma write_run p o w rows : at_rows w rows ->
  exists w', write p o w = (Done tt, w') /\ at_rows w' rows /\ heap (part w') = <[p := o]> (heap (part w)).
Proof.
  intros [H1 H2]. eexists. split; [reflexivity|]. rewrite part_set. split; [|done].
  destruct (ot_orders_apart (mkState (<[p:=o]> (heap (part w))) (orders (part w))) w H1) as [H3 H4]. by split; [|rewrite H4].
Qed.

Lemma alloc_run o w rows : at_rows w rows ->
  exists p w', alloc o w = (Done p, w') /\ at_rows w' rows /\ heap (part w') !! p = Some o.
Proof.
  intros [H1 H2]. eexists _, _. split; [reflexivity|]. rewrite part_set.
  destruct (ot_orders_apart (mkState (heap (part w) ++ [o]) (orders (part w))) w H1) as [H3 H4].
  split; [by split; [|rewrite H4]|]. apply list_lookup_middle. done.
Qed.

(** Saving: refused without a trace if the order cannot be marshalled. *)
Lemma save_run p o w rows : at_rows w rows -> rows_ok rows -> heap (part w) !! p = Some o -> well o ->
  exists w', Order.Save Repo ctx p w =
      (Done (match json_Marshal o with Err e => Some (EWrap "marshal order: " e "") | Ok _ => None end), w') /\
    heap (part w') = heap (part w) /\
    at_rows w' (match json_Marshal o with Err _ => rows | Ok d => <[order_ID o := (d, Version (order_root o))]> rows end).
Proof.
  intros [H1 H2] Hok Hp Hw. cbn [PgOrderRepository Order.Save]. unfold pg_order_Save. unfold_go. rewrite (load_order_run p o w Hp).
  destruct (json_Marshal o) as [d|e]; [|by exists w].
  destruct (ot_version_law ctx (order_ID o) w H1 Hctx) as (w1 & (Ho1 & Hr1 & Hp1) & ->). rewrite H2 in *.
  destruct (rows !! order_ID o) as [[d' v']|] eqn:Hrow.
  - destruct (ot_update_law ctx (order_ID o) d (Version (order_root o)) w1 Ho1 Hctx) as (w2 & (Ho2 & Hr2 & Hp2) & ->).
    { rewrite Hr1, Hrow. done. }
    exists w2. rewrite Hp2, Hp1. split; [done|]. split; [done|]. by split; [|rewrite Hr2, Hr1].
  - unfold is_no_rows. cbn [sql_ErrNoRows node_is]. rewrite bool_decide_eq_true_2 by done.
    destruct (ot_insert_law ctx (order_ID o) d (Version (order_root o)) w1 Ho1 Hctx) as (w2 & (Ho2 & Hr2 & Hp2) & ->).
    { by rewrite Hr1. }
    exists w2. rewrite Hp2, Hp1. split; [done|]. split; [done|]. by split; [|rewrite Hr2, Hr1].
Qed.

(** Finding: a new order, the one of the row. *)
Lemma find_run id w rows : at_rows w rows -> rows_ok rows ->
  exists w', at_rows w' rows /\
    match rows !! id with
    | None => Order.FindByID Repo ctx id w = (Done (Err (not_found id)), w')
    | Some _ => exists p o, Order.FindByID Repo ctx id w = (Done (Ok p), w') /\ heap (part w') !! p = Some o /\
                  order_ID o = id /\ well o /\ row_lives rows !! id = Some (life_of o)
    end.
Proof.
  intros [H1 H2] Hok. pose proof (rows_lookup rows id Hok) as Hl. cbn [PgOrderRepository Order.FindByID].
  unfold pg_order_FindByID. unfold_go. destruct (ot_data_law ctx id w H1 Hctx) as (w1 & (Ho1 & Hr1 & Hp1) & ->). rewrite H2 in *.
  destruct (rows !! id) as [[d v]|] eqn:Hrow; [|by exists w1].
  destruct Hl as (o & Hm & <- & Hw & Hl). rewrite (unmarshal_stored o d Hm Hw).
  destruct (alloc_run (stored o) w1 rows (conj Ho1 Hr1)) as (p & w2 & Hal & Hat & Hh). rewrite Hal.
  exists w2. split; [done|]. exists p, (stored o). split_and!; [done..|].
  by destruct o.
Qed.

(** A method on an order of the rows does what the specification says. *)
Definition edits_row (op : order_op) (method : context -> Order -> GoM W (Order * error)) : Prop :=
  forall o w rows, at_rows w rows -> well o -> exists o' err w', method ctx o w = (Done (o', err), w') /\
    at_rows w' rows /\ heap (part w') = heap (part w) /\ well o' /\ order_ID o' = order_ID o /\
    spec_edit (order_ID o) op (life_of o) = match err with Some e => inl e | None => inr (life_of o') end.

Lemma guarded_row op refused evt :
  (forall o e, well o -> refused o = Some e -> spec_edit (order_ID o) op (life_of o) = inl e) ->
  (forall o b, well o -> refused o = None -> exists o' st st', OStatus o = Some st /\ order_When (evt b) o = (o', None) /\
     OStatus o' = Some st' /\ order_root o' = order_root o /\ (rank st < rank st')%Z /\
     spec_edit (order_ID o) op (life_of o) = inr (life_of o')) ->
  edits_row op (guarded refused evt).
Proof.
  intros Hno Hyes o w rows [H1 H2] Hw. unfold guarded. destruct (refused o) as [e|] eqn:Hr.
  { exists o, (Some e), w. split_and!; auto. by split. }
  unfold correlated. unfold_go. destruct (ot_now_law w H1) as (t & w1 & Hnow & Ho1 & Hr1 & Hp1). unfold_go. rewrite Hnow.
  destruct (Hyes o (WithCorrelation t ctx (order_ID o)) Hw Hr) as (o' & st & st' & Hst & Hwhen & Hst' & Hroot & Hrank & Hspec).
  rewrite (apply_change_order _ _ _ Hwhen). exists (set_root (record_event (evt (WithCorrelation t ctx (order_ID o))) (order_root o)) o'), None, w1.
  rewrite Hp1. split_and!; [done|split; [done|by rewrite Hr1]|done| |done|done].
  destruct Hw as (Hid & st0 & Hst0 & Hv). assert (st0 = st) as -> by congruence. split; [done|]. exists st'. split; [done|].
  cbn. rewrite int_add_id; destruct st, st'; cbn in *; unfold in_int64, two63; lia.
Qed.

Lemma confirm_row id : edits_row (OConfirm id) ConfirmPayment.
Proof.
  apply guarded_row; intros o x (_ & st & Hst & _); unfold payment_refused; case_bool_decide as Hp; try done.
  - intros [= <-]. cbn. unfold shown_status, status_text. cbn. rewrite Hst in *. by destruct st.
  - intros _. do 3 eexists. split; [exact Hp|]. split; [done|]. split; [done|]. split; [done|]. split; [cbn; lia|].
    cbn. by rewrite Hp.
Qed.

Lemma ship_row id : edits_row (OShip id) Ship.
Proof.
  apply guarded_row; intros o x (_ & st & Hst & _); unfold ship_refused; case_bool_decide as Hp; try done.
  - intros [= <-]. cbn. unfold shown_status, status_text. cbn. rewrite Hst in *. by destruct st.
  - intros _. do 3 eexists. split; [exact Hp|]. split; [done|]. split; [done|]. split; [done|]. split; [cbn; lia|].
    cbn. by rewrite Hp.
Qed.

Lemma cancel_row id reason : edits_row (OCancel id reason) (fun ctx o => Cancel ctx o reason).
Proof.
  apply guarded_row; intros o x (_ & st & Hst & _); unfold cancel_refused; rewrite Hst; cbn; repeat case_bool_decide; try done.
  - intros [= <-]. rewrite Hst. by destruct st.
  - intros [= <-]. rewrite Hst. by destruct st.
  - intros Hx. do 3 eexists. split; [done|]. split; [done|]. split; [done|]. split; [done|].
    rewrite Hst. destruct st; cbn; done || (split; [lia|done]).
Qed.

(** An error of marshalling is one of an order. *)
Definition marshals (fresh : string * error) : Prop := forall e, fresh.2 = Some e -> exists o, json_Marshal o = Err e.

Lemma marshals_none id : marshals (id, None).
Proof. by intros e. Qed.
Hint Resolve marshals_none : core.

(** Each request against the rows. *)
Definition served (op : order_op) w rows : Prop :=
  exists fresh out w' rows', marshals fresh /\ request Repo fmt ctx op w = (out, w') /\ at_rows w' rows' /\ rows_ok rows' /\
    (out, row_lives rows') = pg_spec_op fresh op (row_lives rows).

Lemma edit_row op method id w rows :
  edits_row op method -> at_rows w rows -> rows_ok rows ->
  (op = OConfirm id \/ op = OShip id \/ exists reason, op = OCancel id reason) ->
  exists fresh out w' rows', marshals fresh /\ (err ← edit_order Repo method ctx id; mret (outcome_of err)) w = (out, w') /\ at_rows w' rows' /\
    rows_ok rows' /\ (out, row_lives rows') = pg_spec_op fresh op (row_lives rows).
Proof.
  intros Hm Hat Hok Hop. pose proof (rows_lookup rows id Hok) as Hl.
  assert (forall fresh, pg_spec_op fresh op (row_lives rows) =
    match row_lives rows !! id with
    | None => (Done (Failed (not_found id)), row_lives rows)
    | Some l => match spec_edit id op l with
                | inl err => (Done (Failed err), row_lives rows)
                | inr l => match fresh.2 with
                           | Some e => (Done (Failed (EWrap "marshal order: " e "")), row_lives rows)
                           | None => (Done Succeeded, <[id := l]> (row_lives rows)) end
                end
    end) as Hspec.
  { intros fresh. destruct Hop as [->|[->|[reason ->]]]; cbn [pg_spec_op spec_op]; destruct (row_lives rows !! id) as [l|];
      try destruct (spec_edit id _ l); by destruct (fresh.2). }
  destruct (find_run id w rows Hat Hok) as (w1 & Hat1 & Hfind). unfold edit_order, on_order. unfold_go.
  destruct (rows !! id) as [[d v]|] eqn:Hrow.
  2:{ rewrite Hfind. exists ("", None), (Done (Failed (not_found id))), w1, rows. split_and!; [auto|done..|]. by rewrite Hspec, Hl. }
  clear Hl. destruct Hfind as (p & o & -> & Hp & <- & Hw & Hl). rewrite (load_order_run p o w1 Hp).
  destruct (Hm o w1 rows Hat1 Hw) as (o' & err & w2 & -> & Hat2 & Hh2 & Hw' & Hid' & Hse).
  destruct (write_run p o' w2 rows Hat2) as (w3 & -> & Hat3 & Hh3).
  destruct err as [e|].
  { exists ("", None), (Done (Failed e)), w3, rows. split_and!; [auto|done..|]. by rewrite Hspec, Hl, Hse. }
  destruct (save_run p o' w3 rows Hat3 Hok) as (w4 & -> & _ & Hat4); [|done|].
  { rewrite Hh3, Hh2. apply list_lookup_insert_eq. by eapply lookup_lt_Some. }
  destruct (json_Marshal o') as [d'|e] eqn:Hj.
  - destruct (rows_insert rows o' d' (Version (order_root o')) Hok Hj Hw') as [Hok' Hl'].
    eexists ("", None), _, w4, _. split; [auto|]. split; [reflexivity|]. split; [exact Hat4|]. split; [exact Hok'|].
    by rewrite Hspec, Hl, Hse, Hl', Hid'.
  - eexists ("", Some e), _, w4, _. split; [intros ? [= <-]; eauto|]. split; [reflexivity|]. split; [exact Hat4|]. split; [exact Hok|].
    by rewrite Hspec, Hl, Hse.
Qed.

Context (time_quiet : quiet (S := OrderState) (W := W) time_now).

Lemma explained_well o : explained o -> well o.
Proof.
  intros (Hid & (st & Hst & Hlife) & _ & Hv & _). split; [done|]. exists st. split; [done|]. cbn [app] in *.
  rewrite Hv. pose proof (zlen_nonneg (uncommittedEvents (order_root o))). pose proof (lifecycle_short _ _ Hlife) as Hn.
  destruct st; cbn; lia.
Qed.

(** A new order touches no row. *)
Lemma new_order_rows id user items w rows r w' :
  at_rows w rows -> NewOrder ctx id user items w = (r, w') -> at_rows w' rows.
Proof.
  intros [H1 H2]. unfold NewOrder, correlated. destruct (ot_now_law w H1) as (t & w1 & Hn1 & Ho1 & Hr1 & _).
  destruct (ot_now_law w1 Ho1) as (t2 & w2 & Hn2 & Ho2 & Hr2 & _). unfold_go. rewrite Hn1.
  destruct (NewAggregateRoot id) as [ar|e]; [|intros [= _ <-]; split; [done|by rewrite Hr1]].
  destruct (validate _); [intros [= _ <-]; split; [done|by rewrite Hr1]|].
  rewrite Hn2. intros [= _ <-]. split; [done|]. by rewrite Hr2, Hr1.
Qed.

Lemma place_served user inputs w rows : at_rows w rows -> rows_ok rows -> served (OPlace user inputs) w rows.
Proof.
  intros Hat Hok. unfold served. cbn [request pg_spec_op]. unfold PlaceOrder_Handle. unfold_go. rewrite new_items.
  destruct (existsb _ inputs) eqn:Hne.
  { exists ("", None), (Panicked "entity: id is required"), w, rows. cbn [spec_op]. rewrite Hne. split_and!; auto. }
  destruct Hat as [H1 H2]. destruct (ot_uuid_law w H1) as (id & w1 & Hu & Ho1 & Hr1 & _). unfold_go. rewrite Hu.
  destruct (new_order_ok time_quiet ctx id user inputs w1 Hne) as (r & (w2 & Hno & _) & Hr). rewrite Hno.
  pose proof (new_order_rows _ _ _ _ rows _ _ (conj Ho1 (eq_trans Hr1 H2)) Hno) as Hat2.
  destruct r as [o|e].
  2:{ exists (id, None), (Done (Failed e)), w2, rows. split_and!; [auto|done..|].
      revert Hr. cbn [spec_op fst]. rewrite Hne. repeat case_bool_decide; cbn; by intros [= <-]. }
  destruct Hr as (Hex & <- & Hspec). apply explained_well in Hex.
  destruct (alloc_run o w2 rows Hat2) as (p & w3 & -> & Hat3 & Hh3).
  destruct (save_run p o w3 rows Hat3 Hok Hh3 Hex) as (w4 & -> & Hh4 & Hat4).
  assert (spec_op (order_ID o) (OPlace user inputs) (row_lives rows) =
    (Done (Placed (mkPlaced (order_ID o) (TotalAmount o))), <[order_ID o := life_of o]> (row_lives rows))) as Hs.
  { revert Hspec. cbn [spec_op]. rewrite Hne. repeat case_bool_decide; intros Hspec; try discriminate Hspec.
    pose proof (f_equal (fun x => x.2 !! order_ID o) Hspec) as Hm. cbn [snd] in Hm.
    apply (f_equal fst) in Hspec. injection Hspec as Ht. rewrite lookup_insert_eq, lookup_singleton_eq in Hm.
    apply (inj Some) in Hm. by rewrite Hm, Ht. }
  destruct (json_Marshal o) as [d|e] eqn:Hj.
  - rewrite (load_order_run p o w4) by (by rewrite Hh4).
    destruct (rows_insert rows o d (Version (order_root o)) Hok Hj Hex) as [Hok' Hl'].
    eexists (order_ID o, None), _, w4, _. split; [auto|]. split; [reflexivity|]. split; [exact Hat4|]. split; [exact Hok'|].
    cbn [fst snd]. by rewrite Hs, Hl'.
  - eexists (order_ID o, Some e), _, w4, _. split; [intros ? [= <-]; eauto|]. split; [reflexivity|]. split; [exact Hat4|]. split; [exact Hok|].
    cbn [fst snd]. by rewrite Hs.
Qed.

Lemma request_served op w rows : at_rows w rows -> rows_ok rows -> served op w rows.
Proof.
  intros Hat Hok. destruct op as [user inputs|id|id|id reason|id|id].
  - by apply place_served.
  - apply (edit_row _ _ id); [apply (confirm_row id)|done|done|auto].
  - apply (edit_row _ _ id); [apply (ship_row id)|done|done|auto].
  - apply (edit_row _ _ id); [apply (cancel_row id reason)|done|done|eauto].
  - unfold served. cbn [request pg_spec_op PgOrderRepository Order.Delete]. unfold pg_order_Delete. unfold_go.
    destruct Hat as [H1 H2]. destruct (ot_delete_law ctx id w H1 Hctx) as (w1 & (Ho1 & Hr1 & _) & ->).
    destruct (rows_delete rows id Hok) as [Hok' Hl']. exists ("", None), (Done Succeeded), w1, (delete id rows).
    rewrite H2 in Hr1. rewrite Hl'. split_and!; [auto|done|split; done|done|done].
  - unfold served. cbn [request pg_spec_op spec_op]. unfold GetOrder_Handle. unfold_go.
    destruct (find_run id w rows Hat Hok) as (w1 & Hat1 & Hfind). pose proof (rows_lookup rows id Hok) as Hl.
    destruct (rows !! id) as [[d v]|].
    + destruct Hfind as (p & o & -> & Hp & <- & Hw & Hl'). rewrite (load_order_run p o w1 Hp).
      eexists ("", None), _, w1, rows. split; [auto|]. split; [reflexivity|]. split_and!; [done..|]. by rewrite Hl'.
    + rewrite Hfind. eexists ("", None), _, w1, rows. split; [auto|]. split; [reflexivity|]. split_and!; [done..|]. by rewrite Hl.
Qed.

Lemma requests_served ops w rows : at_rows w rows -> rows_ok rows ->
  exists fresh rows', length fresh = length ops /\ Forall marshals fresh /\ at_rows (requests Repo fmt ctx ops w).2 rows' /\
    ((requests Repo fmt ctx ops w).1, row_lives rows') = pg_spec_ops fresh ops (row_lives rows).
Proof.
  revert w rows. induction ops as [|op ops IH]; intros w rows Hat Hok; [by exists [], rows|]. cbn [requests].
  destruct (request_served op w rows Hat Hok) as (i & out & w1 & rows1 & Hi & -> & Hat1 & Hok1 & Hspec).
  destruct (IH w1 rows1 Hat1 Hok1) as (fresh & rows' & Hlen & Hfs & Hat' & Hspecs).
  destruct (requests Repo fmt ctx ops w1) as [outs w2]. exists (i :: fresh), rows'. cbn [fst snd length pg_spec_ops] in *.
  split; [by f_equal|]. split; [by constructor|]. split; [done|]. by rewrite <- Hspec, <- Hspecs.
Qed.
End PgLemmas.

(** ** Properties *)

(** C26: The order service keeps its specification over PostgreSQL: for every sequence of requests on an empty
    table, the answers of the handlers are those of the map from identities to lives that the repository in memory
    refines, and the rows, unmarshalled, are that map at the end; only, deleting an unknown order succeeds, and an
    order that cannot be marshalled is refused without a change of the table. The order that a request edits is a
    new object each time. *)
Theorem pg_orders_refine_lifecycle {W Dat} `{HO : !Has OrderState W, HOL : !HasLaws OrderState W, HClk : !Clock W, HIdg : !IdGen W}
    `{HT : !OrderTable W Dat, HTL : !OrderTableLaws W Dat} (json_Marshal : Order -> result Dat)
    (json_Unmarshal : Dat -> Order -> result Order) `{HJ : !OrderJson json_Marshal json_Unmarshal} fmt ctx ops (w : W) :
  ot_usable ctx -> quiet (S := OrderState) (W := W) time_now -> ot_ok w -> ot_rows w = ∅ ->
  exists fresh, length fresh = length ops /\ Forall (marshals json_Marshal) fresh /\
    let '(outs, w') := requests (PgOrderRepository json_Marshal json_Unmarshal) fmt ctx ops w in
    (outs, row_lives json_Unmarshal (ot_rows w')) = pg_spec_ops fresh ops ∅.
Proof.
  intros Hctx Ht Hok Hrows.
  destruct (requests_served json_Marshal json_Unmarshal fmt ctx Hctx Ht ops w ∅) as (fresh & rows' & Hlen & Hfs & [_ Hr] & Hspec).
  - by split.
  - apply map_Forall_empty.
  - exists fresh. split; [done|]. split; [done|]. destruct (requests _ fmt ctx ops w) as [outs w']. cbn [fst snd] in *. by rewrite Hr.
Qed.

(** ** A concrete table *)
Module DemoOrderPg.
Import Env.
Record world := mkWorld { w_env : env; w_orders : OrderState; w_rows : gmap string (Order * Z) }.
#[export] Instance demo_orders : Has OrderState world :=
  { part := w_orders; set_part s w := mkWorld (w_env w) s (w_rows w) }.
#[export] Instance demo_orders_laws : HasLaws OrderState world.
Proof. split; [done..|]. by intros []. Qed.
#[export] Instance demo_clock : Clock world := fun w => let '(t, e) := now (w_env w) in (t, mkWorld e (w_orders w) (w_rows w)).
#[export] Instance demo_ids : IdGen world := fun w => let '(i, e) := fresh_id (w_env w) in (i, mkWorld e (w_orders w) (w_rows w)).
Definition set_rows (rows : gmap string (Order * Z)) (w : world) : world := mkWorld (w_env w) (w_orders w) rows.
#[export] Instance demo_table : OrderTable world Order := {
  ot_version _ id := fun w => (Done (match w_rows w !! id with Some (_, v) => inl v | None => inr sql_ErrNoRows end), w);
  ot_insert _ id d v := fun w => (Done None, set_rows (<[id := (d, v)]> (w_rows w)) w);
  ot_update _ id d v := fun w => (Done None, set_rows (<[id := (d, v)]> (w_rows w)) w);
  ot_data _ id := fun w => (Done (match w_rows w !! id with Some (d, _) => inl d | None => inr sql_ErrNoRows end), w);
  ot_delete _ id := fun w => (Done None, set_rows (delete id (w_rows w)) w);
  ot_all _ := fun w => (Done (inl (map (fun p => inl (p.1, p.2.1)) (map_to_list (w_rows w)), None)), w) }.
#[export, refine] Instance demo_table_laws : OrderTableLaws world Order :=
  {| ot_ok _ := True; ot_usable _ := True; ot_rows := w_rows |}.
Proof. all: intros; try (eexists; by split). all: try (eexists _, _; by split).
  all: eexists; split; [|reflexivity]; by split_and!.
Defined.

(** JSON has no infinite numbers. *)
Definition marshal (o : Order) : result Order :=
  match TotalAmount o with
  | SpecFloat.S754_infinity _ | SpecFloat.S754_nan => Err (ENew "json: unsupported value")
  | _ => Ok (stored o)
  end.
Definition unmarshal (d _ : Order) : result Order := Ok d.
#[export] Instance demo_json : OrderJson marshal unmarshal.
Proof. intros o d o0. unfold marshal, unmarshal. intros Hm _ _. by destruct (TotalAmount o); simplify_eq. Qed.

Definition w0 : world := mkWorld (mkEnv 100 1) (mkState [] NewOrderRepository) ∅.
Definition repo : OrderRepositoryAdapter world := PgOrderRepository marshal unmarshal.
Definition pen : ItemInput := mkInput "pen" "Pen" (float_of_int 2) 3.
Definition endless : ItemInput := mkInput "hole" "Hole" (SpecFloat.S754_infinity false) 1.
Definition session : list order_op :=
  [OPlace "u" [pen]; OPlace "u" [endless]; OShip "id-1"; OConfirm "id-1"; OGet "id-1"; ODelete "id-7"; OCancel "id-7" ""].
End DemoOrderPg.
Import DemoOrderPg.

Example pg_session : map (fun o => match o with Done (Failed e) => Error e | Done _ => "ok" | Panicked s => s end)
    (requests repo pretty Background session w0).1 =
  ["ok"; "marshal order: json: unsupported value"; "order id-1 cannot be shipped (status: pending)"; "ok"; "ok"; "ok";
   "order id-7 not found"].
Proof. vm_compute. reflexivity. Qed.

(** Two clients that load a paid order: one ships it, the other cancels it, and both save. Nothing compares
    versions: the shipment is lost. *)
Definition load_and_edit (edit : Order -> GoM world (Order * error)) (id : string) : GoM world nat :=
  found ← Order.FindByID repo Background id;
  match found with Ok p => _ ← on_order p edit; mret p | Err e => go_panic (Error e) end.
Definition two_clients : GoM world (error * error) :=
  p ← load_and_edit (Ship Background) "id-1";
  q ← load_and_edit (fun o => Cancel Background o "late") "id-1";
  e1 ← Order.Save repo Background p;
  e2 ← Order.Save repo Background q;
  mret (e1, e2).
Example pg_lost_update :
  let w1 := (requests repo pretty Background [OPlace "u" [pen]; OConfirm "id-1"] w0).2 in
  (two_clients w1).1 = Done (None, None) /\
  l_status <$> row_lives unmarshal (ot_rows (two_clients w1).2) !! "id-1" = Some (Some OrderStatusCancelled).
Proof. vm_compute. done. Qed.

Lemma pg_orders_refine_lifecycle_witness : exists fresh, length fresh = 7 /\ Forall (marshals marshal) fresh /\
  let '(outs, w') := requests repo pretty Background session w0 in
  (outs, row_lives unmarshal (ot_rows w')) = pg_spec_ops fresh session ∅.
Proof.
  apply (pg_orders_refine_lifecycle marshal unmarshal pretty Background session w0).
  - exact I.
  - intros w. eexists _, _. split; reflexivity.
  - exact I.
  - reflexivity.
Defined.
