(* ===== verification/Wire.v ===== *)
(** * The wiring of the example application: [wire/wire.go] of [src/exampleapp/ddd/order] and
      [src/exampleapp/ddd/inventory]

    The messages of the application as values that [reflect] sees, its handlers as
    values that the buses take, and their registration on the buses that
    [Relationship] wraps. The type names are those of the module's packages. *)

From S2P Require Import Prelude Errors Trace Aggregate Aspect Bus EventBus Relationship Order Inventory.

(** ** Messages

    Commands, queries and events, and the results, which are pointers: [None] is a nil
    pointer. *)
Inductive message :=
| MNil
| MPlaceOrder (user : string) (items : list ItemInput)
| MConfirmPayment (order : string)
| MShipOrder (order : string)
| MCancelOrder (order reason : string)
| MGenerateReport (order : string)
| MProcessBatch (order : string) (duration : Z)
| MReserveInventory (cmd : InventoryCommand)
| MReleaseInventory (cmd : InventoryCommand)
| MResetInventory (product : string)
| MGetOrder (order : string)
| MListOrders
| MGetInventory
| MEvent (e : domain_event)
| RPlaceOrder (r : option PlaceOrderResult)
| RConfirmPayment (success : option bool)
| RShipOrder (success : option bool)
| RCancelOrder (success : option bool)
| RGenerateReport (r : option GenerateReportResult)
| RProcessBatch (r : option ProcessBatchResult)
| RReserveInventory (success : option bool)
| RReleaseInventory (success : option bool)
| RResetInventory (r : option unit)
| RGetOrder (r : option GetOrderResult)
| RListOrders (orders : option (list GetOrderResult))
| RGetInventory (products : option (list InventoryItem))
| MError (e : goerr).

(** *** Types *)

Definition ddd_path : string := "github.com/ddd-qce/exampleapp/ddd/".
Definition pointer_to (domain pkg name : string) : rtype :=
  TPtr (TNamed (ddd_path +:+ domain +:+ "/" +:+ pkg) pkg name).
Abbreviation order_command := (pointer_to "order" "command").
Abbreviation order_query := (pointer_to "order" "query").
Abbreviation order_event := (pointer_to "order" "event").
Abbreviation inventory_command := (pointer_to "inventory" "command").
Abbreviation inventory_query := (pointer_to "inventory" "query").
Abbreviation inventory_event := (pointer_to "inventory" "event").
Abbreviation inventory_wire := (pointer_to "inventory" "wire").

Definition event_type (e : domain_event) : rtype :=
  match e with
  | InventoryReservedEvent _ _ _ | InventoryReleasedEvent _ _ _ => inventory_event (event_name e)
  | _ => order_event (event_name e)
  end.

(** The dynamic type of an error does not matter to the buses. *)
Definition message_type (m : message) : option rtype :=
  match m with
  | MNil => None
  | MPlaceOrder _ _ => Some (order_command "PlaceOrderCommand")
  | MConfirmPayment _ => Some (order_command "ConfirmPaymentCommand")
  | MShipOrder _ => Some (order_command "ShipOrderCommand")
  | MCancelOrder _ _ => Some (order_command "CancelOrderCommand")
  | MGenerateReport _ => Some (order_command "GenerateReportCommand")
  | MProcessBatch _ _ => Some (order_command "ProcessBatchCommand")
  | MReserveInventory _ => Some (inventory_command "ReserveInventoryCommand")
  | MReleaseInventory _ => Some (inventory_command "ReleaseInventoryCommand")
  | MResetInventory _ => Some (inventory_command "ResetInventoryCommand")
  | MGetOrder _ => Some (order_query "GetOrderQuery")
  | MListOrders => Some (order_query "ListOrdersQuery")
  | MGetInventory => Some (inventory_query "GetInventoryQuery")
  | MEvent e => Some (event_type e)
  | RPlaceOrder _ => Some (order_command "PlaceOrderResult")
  | RConfirmPayment _ => Some (order_command "ConfirmPaymentResult")
  | RShipOrder _ => Some (order_command "ShipOrderResult")
  | RCancelOrder _ => Some (order_command "CancelOrderResult")
  | RGenerateReport _ => Some (order_command "GenerateReportResult")
  | RProcessBatch _ => Some (order_command "ProcessBatchResult")
  | RReserveInventory _ => Some (inventory_command "ReserveInventoryResult")
  | RReleaseInventory _ => Some (inventory_command "ReleaseInventoryResult")
  | RResetInventory _ => Some (inventory_command "ResetInventoryResult")
  | RGetOrder _ => Some (order_query "GetOrderResult")
  | RListOrders _ => Some (order_query "ListOrdersResult")
  | RGetInventory _ => Some (inventory_query "GetInventoryResult")
  | MError _ => Some (TPtr (TNamed "errors" "errors" "errorString"))
  end.

#[export] Instance message_dynamic : Dynamic message := {
  nil_any := MNil;
  type_of := message_type;
  as_error m := match m with MError e => Some e | _ => None end }.

(** The types of the results of [Dispatch]; their zero value is the nil pointer. *)
#[export] Instance typed_placed : Typed message (option PlaceOrderResult) := {
  inject := RPlaceOrder; zero := None; cast m := match m with RPlaceOrder r => Some r | _ => None end }.
#[export] Instance typed_report : Typed message (option GenerateReportResult) := {
  inject := RGenerateReport; zero := None; cast m := match m with RGenerateReport r => Some r | _ => None end }.
#[export] Instance typed_order : Typed message (option GetOrderResult) := {
  inject := RGetOrder; zero := None; cast m := match m with RGetOrder r => Some r | _ => None end }.
#[export] Instance typed_orders : Typed message (option (list GetOrderResult)) := {
  inject := RListOrders; zero := None; cast m := match m with RListOrders r => Some r | _ => None end }.
#[export] Instance typed_inventory : Typed message (option (list InventoryItem)) := {
  inject := RGetInventory; zero := None; cast m := match m with RGetInventory r => Some r | _ => None end }.
(** The results with one field [Success], which differ in their type. *)
Definition typed_confirmed : Typed message (option bool) := {|
  inject := RConfirmPayment; zero := None; cast m := match m with RConfirmPayment r => Some r | _ => None end |}.
Definition typed_shipped : Typed message (option bool) := {|
  inject := RShipOrder; zero := None; cast m := match m with RShipOrder r => Some r | _ => None end |}.
Definition typed_cancelled : Typed message (option bool) := {|
  inject := RCancelOrder; zero := None; cast m := match m with RCancelOrder r => Some r | _ => None end |}.
Definition typed_reserved : Typed message (option bool) := {|
  inject := RReserveInventory; zero := None; cast m := match m with RReserveInventory r => Some r | _ => None end |}.
Definition typed_released : Typed message (option bool) := {|
  inject := RReleaseInventory; zero := None; cast m := match m with RReleaseInventory r => Some r | _ => None end |}.

(** What the handlers handle: the parameter of their only method. *)
Definition handled : list (rtype * rtype) :=
  [(order_command "PlaceOrderHandler", order_command "PlaceOrderCommand");
   (order_command "ConfirmPaymentHandler", order_command "ConfirmPaymentCommand");
   (order_command "ShipOrderHandler", order_command "ShipOrderCommand");
   (order_command "CancelOrderHandler", order_command "CancelOrderCommand");
   (order_command "GenerateReportHandler", order_command "GenerateReportCommand");
   (order_command "ProcessBatchHandler", order_command "ProcessBatchCommand");
   (order_query "GetOrderHandler", order_query "GetOrderQuery");
   (order_query "ListOrdersHandler", order_query "ListOrdersQuery");
   (order_event "OrderPlacedNotificationHandler", order_event "OrderPlacedEvent");
   (inventory_command "ReserveInventoryHandler", inventory_command "ReserveInventoryCommand");
   (inventory_command "ReleaseInventoryHandler", inventory_command "ReleaseInventoryCommand");
   (inventory_command "ResetInventoryHandler", inventory_command "ResetInventoryCommand");
   (inventory_query "GetInventoryHandler", inventory_query "GetInventoryQuery");
   (inventory_wire "OrderPlacedInventoryHandler", order_event "OrderPlacedEvent");
   (inventory_wire "OrderCancelledInventoryHandler", order_event "OrderCancelledEvent")].

Definition context_t : rtype := TNamed "context" "context" "Context".
Definition value_ctx : rtype := TPtr (TNamed "context" "context" "valueCtx").

#[export] Instance shop_reflect : Reflect := {
  methods t := match list_find (fun p => p.1 = t) handled with
               | Some (_, (_, p)) => [mkMethod "Handle" [t; context_t; p]]
               | None => []
               end;
  assignable a b := bool_decide (a = b) || (bool_decide (a = value_ctx) && bool_decide (b = context_t));
  has_pointer := is_ptr;
  ctx_dyn := value_ctx }.

(** ** Handlers *)

(** [return r, err] of a method: a nil pointer beside an error. *)
Definition answer {A} (result_of : option A -> message) (r : result A) : list message :=
  match r with Ok a => [result_of (Some a); MNil] | Err e => [result_of None; MError e] end.
Definition answer_ok (result_of : option bool -> message) (err : error) : list message :=
  match err with None => [result_of (Some true); MNil] | Some e => [result_of None; MError e] end.
Definition answer_error (err : error) : list message :=
  [match err with None => MNil | Some e => MError e end].

Section Handlers.
Context {W : Type} `{!Has OrderState W, !Has Inventory W, !Clock W, !IdGen W, !MapRange}.
(** [time.Time.Format(time.RFC3339)], and the select on a timer and the end of the context. *)
Context (format_rfc3339 : Z -> string) (await : context -> Z -> GoM W error).
Context (repo : OrderRepositoryAdapter W) (eventBus_Publish : context -> domain_event -> GoM W error).

(** A handler of the type [t]; [reflect] calls its method only with the message that it handles. *)
Definition new_handler (t : rtype) (address : N) (code : context -> message -> option (GoM W (list message))) :
    handler W message :=
  mkHandler (Some t) address (fun ctx m =>
    match code ctx m with Some run => run | None => go_panic "reflect: Call using wrong type" end).

Definition NewPlaceOrderHandler : handler W message :=
  new_handler (order_command "PlaceOrderHandler") 1 (fun ctx m =>
    match m with
    | MPlaceOrder user items => Some (r ← PlaceOrder_Handle repo ctx user items; mret (answer RPlaceOrder r))
    | _ => None
    end).
Definition NewConfirmPaymentHandler : handler W message :=
  new_handler (order_command "ConfirmPaymentHandler") 2 (fun ctx m =>
    match m with
    | MConfirmPayment id => Some (err ← ConfirmPayment_Handle repo ctx id; mret (answer_ok RConfirmPayment err))
    | _ => None
    end).
Definition NewShipOrderHandler : handler W message :=
  new_handler (order_command "ShipOrderHandler") 3 (fun ctx m =>
    match m with
    | MShipOrder id => Some (err ← ShipOrder_Handle repo ctx id; mret (answer_ok RShipOrder err))
    | _ => None
    end).
Definition NewCancelOrderHandler : handler W message :=
  new_handler (order_command "CancelOrderHandler") 4 (fun ctx m =>
    match m with
    | MCancelOrder id reason =>
        Some (err ← CancelOrder_Handle repo ctx id reason; mret (answer_ok RCancelOrder err))
    | _ => None
    end).
Definition NewGenerateReportHandler : handler W message :=
  new_handler (order_command "GenerateReportHandler") 5 (fun ctx m =>
    match m with
    | MGenerateReport id =>
        Some (cancelled ← await ctx (200 * 1000000);
              r ← GenerateReport_Handle format_rfc3339 cancelled id; mret (answer RGenerateReport r))
    | _ => None
    end).
(** No code registers this one. *)
Definition NewProcessBatchHandler : handler W message :=
  new_handler (order_command "ProcessBatchHandler") 6 (fun ctx m =>
    match m with
    | MProcessBatch id duration =>
        Some (cancelled ← await ctx duration;
              r ← ProcessBatch_Handle cancelled id;
              mret [RProcessBatch (Some r.1); match r.2 with None => MNil | Some e => MError e end])
    | _ => None
    end).

Definition NewGetOrderHandler : handler W message :=
  new_handler (order_query "GetOrderHandler") 7 (fun ctx m =>
    match m with
    | MGetOrder id => Some (r ← GetOrder_Handle repo format_rfc3339 ctx id; mret (answer RGetOrder r))
    | _ => None
    end).
Definition NewListOrdersHandler : handler W message :=
  new_handler (order_query "ListOrdersHandler") 8 (fun ctx m =>
    match m with
    | MListOrders => Some (r ← ListOrders_Handle repo format_rfc3339 ctx; mret (answer RListOrders r))
    | _ => None
    end).

(** [OrderPlacedNotificationHandler.Handle] prints a line. *)
Definition NewOrderPlacedNotificationHandler : handler W message :=
  new_handler (order_event "OrderPlacedNotificationHandler") 9 (fun ctx m =>
    match m with MEvent (OrderPlacedEvent _ _ _ _) => Some (mret (answer_error None)) | _ => None end).

Definition NewReserveInventoryHandler : handler W message :=
  new_handler (inventory_command "ReserveInventoryHandler") 10 (fun ctx m =>
    match m with
    | MReserveInventory cmd =>
        Some (err ← ReserveInventory_Handle eventBus_Publish ctx cmd; mret (answer_ok RReserveInventory err))
    | _ => None
    end).
Definition NewReleaseInventoryHandler : handler W message :=
  new_handler (inventory_command "ReleaseInventoryHandler") 11 (fun ctx m =>
    match m with
    | MReleaseInventory cmd =>
        Some (err ← ReleaseInventory_Handle eventBus_Publish ctx cmd; mret (answer_ok RReleaseInventory err))
    | _ => None
    end).
Definition NewResetInventoryHandler : handler W message :=
  new_handler (inventory_command "ResetInventoryHandler") 12 (fun ctx m =>
    match m with
    | MResetInventory id =>
        Some (err ← ResetInventory_Handle ctx id;
              mret (match err with None => [RResetInventory (Some tt); MNil] | Some e => [RResetInventory None; MError e] end))
    | _ => None
    end).
Definition NewGetInventoryHandler : handler W message :=
  new_handler (inventory_query "GetInventoryHandler") 13 (fun ctx m =>
    match m with
    | MGetInventory => Some (r ← GetInventory_Handle ctx; mret (answer RGetInventory (Ok r)))
    | _ => None
    end).

(** The event handlers of the inventory have the command bus. *)
Context (cmdBus_Execute : context -> message -> GoM W (message * error)).

Definition dispatch_reserve (ctx : context) (cmd : InventoryCommand) : GoM W error :=
  r ← CommandDispatch (Typed0 := typed_reserved) cmdBus_Execute ctx (MReserveInventory cmd); mret r.2.
Definition dispatch_release (ctx : context) (cmd : InventoryCommand) : GoM W error :=
  r ← CommandDispatch (Typed0 := typed_released) cmdBus_Execute ctx (MReleaseInventory cmd); mret r.2.

Definition NewOrderPlacedInventoryHandler : handler W message :=
  new_handler (inventory_wire "OrderPlacedInventoryHandler") 14 (fun ctx m =>
    match m with
    | MEvent (OrderPlacedEvent _ _ _ _ as e) =>
        Some (err ← OrderPlacedInventory_Handle dispatch_reserve ctx e; mret (answer_error err))
    | _ => None
    end).
Definition NewOrderCancelledInventoryHandler : handler W message :=
  new_handler (inventory_wire "OrderCancelledInventoryHandler") 15 (fun ctx m =>
    match m with
    | MEvent (OrderCancelledEvent _ _ as e) =>
        Some (err ← OrderCancelledInventory_Handle dispatch_release ctx e; mret (answer_error err))
    | _ => None
    end).
End Handlers.

(** ** Registration ([wire.go] of both domains)

    The buses that the application shares with its parts, and the registry that the
    three wrappers fill in. *)
Record buses (W : Type) := mkBuses {
  cmdBus : messageBus W message;
  queryBus : messageBus W message;
  eventBus : EventBus W message;
  relations : RelationshipRegistry }.
Arguments mkBuses {W} cmdBus queryBus eventBus relations.
Arguments cmdBus {W} _.
Arguments queryBus {W} _.
Arguments eventBus {W} _.
Arguments relations {W} _.

Section Wiring.
Context {W : Type}.

Definition register_command (h : handler W message) (b : buses W) : outcome (buses W * error) :=
  '((c, r), err) ← NotifyingCommandBus_RegisterHandler RegisterHandler h (WrapBus (cmdBus b) (relations b));
  mret (mkBuses c (queryBus b) (eventBus b) r, err).
Definition register_query (h : handler W message) (b : buses W) : outcome (buses W * error) :=
  '((q, r), err) ← NotifyingQueryBus_RegisterHandler RegisterHandler h (WrapBus (queryBus b) (relations b));
  mret (mkBuses (cmdBus b) q (eventBus b) r, err).
Definition subscribe_event (h : handler W message) (b : buses W) : outcome (buses W * error) :=
  '((e, r), err) ← NotifyingEventBus_SubscribeHandler SubscribeHandler h (WrapBus (eventBus b) (relations b));
  mret (mkBuses (cmdBus b) (queryBus b) e r, err).

(** [if err := ...; err != nil { return fmt.Errorf("register X: %w", err) }], once per line. *)
Fixpoint register_each (steps : list (string * (buses W -> outcome (buses W * error)))) (b : buses W) :
    outcome (buses W * error) :=
  match steps with
  | [] => mret (b, None)
  | (name, register) :: rest =>
      '(b, err) ← register b;
      match err with
      | Some err => mret (b, Some (EWrap ("register " +:+ name +:+ ": ") err ""))
      | None => register_each rest b
      end
  end.
End Wiring.

Section Wire.
Context {W : Type} `{!Has OrderState W, !Has Inventory W, !Clock W, !IdGen W, !MapRange}.
Context (format_rfc3339 : Z -> string) (await : context -> Z -> GoM W error).
(** The buses behind the pointers that the handlers keep. *)
Context (eventBus_Publish : context -> domain_event -> GoM W error).
Context (cmdBus_Execute : context -> message -> GoM W (message * error)).

Definition WireOrder (repo : OrderRepositoryAdapter W) : buses W -> outcome (buses W * error) :=
  register_each
    [("PlaceOrderHandler", register_command (NewPlaceOrderHandler repo));
     ("ConfirmPaymentHandler", register_command (NewConfirmPaymentHandler repo));
     ("ShipOrderHandler", register_command (NewShipOrderHandler repo));
     ("CancelOrderHandler", register_command (NewCancelOrderHandler repo));
     ("GenerateReportHandler", register_command (NewGenerateReportHandler format_rfc3339 await));
     ("GetOrderHandler", register_query (NewGetOrderHandler format_rfc3339 repo));
     ("ListOrdersHandler", register_query (NewListOrdersHandler format_rfc3339 repo));
     ("OrderPlacedNotificationHandler", subscribe_event NewOrderPlacedNotificationHandler)].

Definition WireInventory : buses W -> outcome (buses W * error) :=
  register_each
    [("ReserveInventoryHandler", register_command (NewReserveInventoryHandler eventBus_Publish));
     ("ReleaseInventoryHandler", register_command (NewReleaseInventoryHandler eventBus_Publish));
     ("ResetInventoryHandler", register_command NewResetInventoryHandler);
     ("GetInventoryHandler", register_query NewGetInventoryHandler);
     ("OrderPlacedInventoryHandler", subscribe_event (NewOrderPlacedInventoryHandler cmdBus_Execute));
     ("OrderCancelledInventoryHandler", subscribe_event (NewOrderCancelledInventoryHandler cmdBus_Execute))].
End Wire.

(** The emissions that [infrastructure/type_registry.go] records before the handlers are registered. *)
Definition RegisterHandlerEmits (reg : RelationshipRegistry) : RelationshipRegistry :=
  fold_left (fun r p => RecordHandlerEmits p.1 p.2 r)
    [("PlaceOrderHandler", "OrderPlacedEvent");
     ("ConfirmPaymentHandler", "PaymentConfirmedEvent");
     ("ShipOrderHandler", "OrderShippedEvent");
     ("CancelOrderHandler", "OrderCancelledEvent");
     ("ReserveInventoryHandler", "InventoryReservedEvent");
     ("ReleaseInventoryHandler", "InventoryReleasedEvent")] reg.

(** ** Lemmas on registration *)

Section WiringLemmas.
Context {W : Type} `{!Clock W, !SortSlice, !Has BusState W}.
Implicit Types (h : handler W message) (b : buses W).

(** The entry of a handler on the event bus, and the entries for a type of event. *)
Definition entry_of h : option (handlerEntry W message) :=
  match h_type h with
  | Some t => match MethodByName "Handle" t with
              | Some m => Some (mkEntry h (invoke_event h m) (base_name t))
              | None => None
              end
  | None => None
  end.
Definition entries_of (hs : list (handler W message)) (t : option rtype) : list (handlerEntry W message) :=
  omap (fun h => if bool_decide (payload h = Some t) then entry_of h else None) hs.

(** The handlers that the three buses have. *)
Record wired (cs qs es : list (handler W message)) (chain0 : AspectChain W message message message message) b : Prop := {
  wired_commands : table_ok cs (cmdBus b);
  wired_queries : table_ok qs (queryBus b);
  wired_events : forall t, entries_for t (eventBus b) = entries_of es t;
  wired_subscribed : forall t, eb_handlers (eventBus b) !! t <> Some [];
  wired_chains : chain (cmdBus b) = chain0 /\ chain (queryBus b) = chain0 /\ eb_chain (eventBus b) = chain0 }.

(** What a wrapper records of a handler. *)
Definition noted (record : string -> string -> RelationshipRegistry -> RelationshipRegistry) (ht pt : rtype)
    (r : RelationshipRegistry) : RelationshipRegistry :=
  let domain := InferDomainFromPkgPath (typePkgPath pt) in
  RecordTypeDomain (base_name ht) domain (RecordTypeDomain (base_name pt) domain (record (base_name pt) (base_name ht) r)).

(** A handler of the application: a pointer with one [Handle] method. *)
Definition handles h (ht pt : rtype) : Prop :=
  h_type h = Some ht /\ is_ptr ht = true /\ methods ht = [mkMethod "Handle" [ht; context_t; pt]].

Lemma handles_method h ht pt :
  handles h ht pt -> MethodByName "Handle" ht = Some (mkMethod "Handle" [ht; context_t; pt]).
Proof. intros (_ & _ & Hm). unfold MethodByName. rewrite Hm. reflexivity. Qed.

Lemma handles_extract h ht pt : handles h ht pt -> extractHandlerPayloadType (h_type h) = Done (Some pt, true).
Proof.
  intros Hh. pose proof (handles_method _ _ _ Hh) as Hm. destruct Hh as (Ht & Hp & _).
  rewrite Ht. unfold extractHandlerPayloadType. rewrite Hp, Hm. reflexivity.
Qed.

Lemma handles_payload h ht pt : handles h ht pt -> payload h = Some (Some pt).
Proof. intros Hh. unfold payload. by rewrite (handles_extract _ _ _ Hh). Qed.

Lemma register_noted {B} (inner : handler W message -> B -> outcome (B * error)) record h ht pt (x : B) r x' e :
  handles h ht pt -> inner h x = Done (x', e) ->
  notifying_register inner record h (WrapBus x r) = Done ((x', noted record ht pt r), e).
Proof.
  intros Hh Hi. unfold notifying_register. rewrite (handles_extract _ _ _ Hh).
  destruct Hh as (Ht & _). cbn. rewrite Ht. cbn. by rewrite Hi.
Qed.

Lemma register_command_wired cs qs es c b h ht pt :
  wired cs qs es c b -> handles h ht pt -> route cs (Some pt) = None ->
  exists b', register_command h b = Done (b', None) /\ wired (cs ++ [h]) qs es c b' /\
    relations b' = noted RecordCommandHandler ht pt (relations b).
Proof.
  intros [Hc Hq He Hne Hch] Hh Hr.
  destruct (register_one cs h (cmdBus b) Hc) as (c' & err & Hreg & Hok & Hsame & Herr); [by destruct Hh as [-> _]|].
  assert (err = None) as -> by (apply Herr; eauto using handles_payload).
  unfold register_command, NotifyingCommandBus_RegisterHandler.
  rewrite (register_noted _ _ _ _ _ _ _ _ _ Hh Hreg). cbn. eexists. split; [done|].
  split; [|done]. split; cbn; [done..|]. by rewrite Hsame.
Qed.

Lemma register_query_wired cs qs es c b h ht pt :
  wired cs qs es c b -> handles h ht pt -> route qs (Some pt) = None ->
  exists b', register_query h b = Done (b', None) /\ wired cs (qs ++ [h]) es c b' /\
    relations b' = noted RecordQueryHandler ht pt (relations b).
Proof.
  intros [Hc Hq He Hne Hch] Hh Hr.
  destruct (register_one qs h (queryBus b) Hq) as (q' & err & Hreg & Hok & Hsame & Herr); [by destruct Hh as [-> _]|].
  assert (err = None) as -> by (apply Herr; eauto using handles_payload).
  unfold register_query, NotifyingQueryBus_RegisterHandler.
  rewrite (register_noted _ _ _ _ _ _ _ _ _ Hh Hreg). cbn. eexists. split; [done|].
  split; [|done]. split; cbn; [done..|]. by rewrite Hsame.
Qed.

(** No entry is that of the handler: every handler has its own pointer. *)
Lemma not_subscribed h (l : list (handlerEntry W message)) :
  (exists t, h_type h = Some t /\ is_ptr t = true) ->
  Forall (fun e => (exists t, h_type (e_handler e) = Some t /\ is_ptr t = true) /\ h_pointer (e_handler e) <> h_pointer h) l ->
  subscribed h l = Done false.
Proof.
  intros (t & Ht & Hp). induction 1 as [|e l ((t' & Ht' & Hp') & Hne) _ IH]; [done|]. cbn.
  unfold value_Pointer. rewrite Ht, Ht', Hp, Hp'. cbn. rewrite bool_decide_eq_false_2 by done. exact IH.
Qed.

Definition own_pointer h (hs : list (handler W message)) : Prop :=
  Forall (fun h' => (exists t, h_type h' = Some t /\ is_ptr t = true) /\ h_pointer h' <> h_pointer h) hs.

Lemma entry_of_handler h e : entry_of h = Some e -> e_handler e = h.
Proof. unfold entry_of. repeat case_match; try done. by intros [= <-]. Qed.

Lemma subscribe_event_wired cs qs es c b h ht pt :
  wired cs qs es c b -> handles h ht pt -> own_pointer h es ->
  exists b', subscribe_event h b = Done (b', None) /\ wired cs qs (es ++ [h]) c b' /\
    relations b' = noted RecordEventHandler ht pt (relations b).
Proof.
  intros [Hc Hq He Hnil Hch] Hh Hown.
  assert (subscribed h (entries_for (Some pt) (eventBus b)) = Done false) as Hsub.
  { apply not_subscribed; [destruct Hh as (? & ? & _); eauto|]. rewrite He. apply Forall_forall.
    intros e (h' & Hin & Hent)%list_elem_of_omap. case_bool_decide; [|done].
    apply entry_of_handler in Hent as ->. by eapply Forall_forall in Hown. }
  assert (SubscribeHandler h (eventBus b) =
    Done (mkEventBus (<[Some pt := entries_for (Some pt) (eventBus b) ++
            [mkEntry h (invoke_event h (mkMethod "Handle" [ht; context_t; pt])) (base_name ht)]]> (eb_handlers (eventBus b)))
            (eb_chain (eventBus b)) (handlerTimeout (eventBus b)) (sem (eventBus b)), None)) as Hreg.
  { unfold SubscribeHandler. rewrite (handles_extract _ _ _ Hh). cbn. unfold makeHandlerInvoker, handlerTypeName.
    pose proof (handles_method _ _ _ Hh) as Hm. destruct Hh as (Ht & _). rewrite Ht, Hm. cbn. by rewrite Hsub. }
  unfold subscribe_event, NotifyingEventBus_SubscribeHandler.
  rewrite (register_noted _ _ _ _ _ _ _ _ _ Hh Hreg). cbn. eexists. split; [done|].
  split; [|done]. split; cbn; [done..| | |done].
  2:{ intros t. destruct (decide (t = Some pt)) as [->|Hne].
      - rewrite lookup_insert_eq. intros [= Ha]. by destruct (entries_for (Some pt) (eventBus b)).
      - rewrite lookup_insert_ne by congruence. apply Hnil. }
  intros t. specialize (He t). unfold entries_of, entries_for in *. cbn. rewrite omap_app. cbn. rewrite (handles_payload _ _ _ Hh).
  destruct (decide (t = Some pt)) as [->|Hne].
  - rewrite lookup_insert_eq, bool_decide_eq_true_2 by done. cbn. unfold entry_of.
    pose proof (handles_method _ _ _ Hh) as Hm. destruct Hh as (Ht & _). rewrite Ht, Hm. by rewrite He.
  - rewrite lookup_insert_ne, bool_decide_eq_false_2 by congruence. rewrite app_nil_r. apply He.
Qed.

(** The registrations of a list, one after the other. *)
Lemma register_each_cons name register rest b b' (Q : buses W -> Prop) :
  register b = Done (b', None) -> (exists b2, register_each rest b' = Done (b2, None) /\ Q b2) ->
  exists b2, register_each ((name, register) :: rest) b = Done (b2, None) /\ Q b2.
Proof. intros Hreg (b2 & Hrest & HQ). exists b2. cbn. by rewrite Hreg. Qed.
End WiringLemmas.

(** ** Specification: what each message runs *)

Section Spec.
Context {W : Type} `{!Has OrderState W, !Has Inventory W, !Clock W, !IdGen W, !MapRange}.
Context (format_rfc3339 : Z -> string) (await : context -> Z -> GoM W error).
Context (repo : OrderRepositoryAdapter W) (eventBus_Publish : context -> domain_event -> GoM W error).
Context (cmdBus_Execute : context -> message -> GoM W (message * error)).

(** The results of a handler as the caller of a bus gets them. *)
Definition reply {A} (result_of : option A -> message) (m : GoM W (result A)) : GoM W (message * error) :=
  r ← m; mret (match r with Ok a => (result_of (Some a), None) | Err e => (result_of None, Some e) end).
Definition reply_ok {A} (result_of : option A -> message) (a : A) (m : GoM W error) : GoM W (message * error) :=
  err ← m; mret (match err with None => (result_of (Some a), None) | Some e => (result_of None, Some e) end).

Definition command_code (cmd : message) : option (context -> GoM W (message * error)) :=
  match cmd with
  | MPlaceOrder user items => Some (fun ctx => reply RPlaceOrder (PlaceOrder_Handle repo ctx user items))
  | MConfirmPayment id => Some (fun ctx => reply_ok RConfirmPayment true (ConfirmPayment_Handle repo ctx id))
  | MShipOrder id => Some (fun ctx => reply_ok RShipOrder true (ShipOrder_Handle repo ctx id))
  | MCancelOrder id reason => Some (fun ctx => reply_ok RCancelOrder true (CancelOrder_Handle repo ctx id reason))
  | MGenerateReport id =>
      Some (fun ctx => reply RGenerateReport
        (cancelled ← await ctx (200 * 1000000); GenerateReport_Handle format_rfc3339 cancelled id))
  | MReserveInventory c =>
      Some (fun ctx => reply_ok RReserveInventory true (ReserveInventory_Handle eventBus_Publish ctx c))
  | MReleaseInventory c =>
      Some (fun ctx => reply_ok RReleaseInventory true (ReleaseInventory_Handle eventBus_Publish ctx c))
  | MResetInventory id => Some (fun ctx => reply_ok RResetInventory tt (ResetInventory_Handle ctx id))
  | _ => None
  end.
Definition query_code (q : message) : option (context -> GoM W (message * error)) :=
  match q with
  | MGetOrder id => Some (fun ctx => reply RGetOrder (GetOrder_Handle repo format_rfc3339 ctx id))
  | MListOrders => Some (fun ctx => reply RListOrders (ListOrders_Handle repo format_rfc3339 ctx))
  | MGetInventory => Some (fun ctx => reply RGetInventory (r ← GetInventory_Handle ctx; mret (Ok r)))
  | _ => None
  end.
(** The names of the handlers of an event and what they run, in the order of their subscription. *)
Definition event_code (evt : domain_event) : list (string * (context -> GoM W error)) :=
  match evt with
  | OrderPlacedEvent _ _ _ _ =>
      [("OrderPlacedNotificationHandler", fun _ => mret None);
       ("OrderPlacedInventoryHandler",
        fun ctx => OrderPlacedInventory_Handle (dispatch_reserve cmdBus_Execute) ctx evt)]
  | OrderCancelledEvent _ _ =>
      [("OrderCancelledInventoryHandler",
        fun ctx => OrderCancelledInventory_Handle (dispatch_release cmdBus_Execute) ctx evt)]
  | _ => []
  end.

Definition shop_commands : list (handler W message) :=
  [NewPlaceOrderHandler repo; NewConfirmPaymentHandler repo; NewShipOrderHandler repo; NewCancelOrderHandler repo;
   NewGenerateReportHandler format_rfc3339 await; NewReserveInventoryHandler eventBus_Publish;
   NewReleaseInventoryHandler eventBus_Publish; NewResetInventoryHandler].
Definition shop_queries : list (handler W message) :=
  [NewGetOrderHandler format_rfc3339 repo; NewListOrdersHandler format_rfc3339 repo; NewGetInventoryHandler].
Definition shop_subscribers : list (handler W message) :=
  [NewOrderPlacedNotificationHandler; NewOrderPlacedInventoryHandler cmdBus_Execute;
   NewOrderCancelledInventoryHandler cmdBus_Execute].

(** The routing of the two message buses finds the code of each message, and of no other. *)
Definition routed (hs : list (handler W message)) (code : message -> option (context -> GoM W (message * error))) : Prop :=
  forall m, match code m, route hs (type_of m) with
            | Some run, Some h => forall ctx w, call_handler h ctx m w = run ctx w
            | None, None => True
            | _, _ => False
            end.
End Spec.

(** ** Lemmas on routing *)

(** The place of a type in the list of the payloads. *)
Fixpoint position (ps : list (option (option rtype))) (t : option rtype) : option nat :=
  match ps with
  | [] => None
  | p :: ps => if bool_decide (p = Some t) then Some 0 else S <$> position ps t
  end.

Lemma route_position {W} (hs : list (handler W message)) t :
  route hs t = position (map payload hs) t ≫= fun i => hs !! i.
Proof.
  induction hs as [|h hs IH]; [done|]. cbn. case_bool_decide; [done|]. rewrite IH.
  by destruct (position (map payload hs) t).
Qed.

Lemma entries_of_payloads {W} (hs : list (handler W message)) t :
  entries_of hs t = omap (fun p => if bool_decide (p.1 = Some t) then entry_of p.2 else None) (zip (map payload hs) hs).
Proof. unfold entries_of. induction hs as [|h hs IH]; [done|]. cbn. case_bool_decide; by rewrite IH. Qed.

(** Find the place of a type by evaluation. *)
Ltac find_position :=
  lazymatch goal with
  | |- context [position ?ps ?t] =>
      let i := eval vm_compute in (position ps t) in
      replace (position ps t) with i by (vm_compute; reflexivity); cbn [lookup list_lookup mbind option_bind]
  end.

(** Decide by evaluation the equality of two types. *)
Ltac decide_types :=
  repeat match goal with
  | |- context [bool_decide (Some (Some ?a) = Some (Some ?b))] =>
      let v := eval vm_compute in (bool_decide (Some (Some a) = Some (Some b))) in
      replace (bool_decide (Some (Some a) = Some (Some b))) with v by (vm_compute; reflexivity)
  end.

Section RoutingLemmas.
Context {W : Type} `{!Has OrderState W, !Has Inventory W, !Clock W, !IdGen W, !MapRange}.
Context (format_rfc3339 : Z -> string) (await : context -> Z -> GoM W error).
Context (repo : OrderRepositoryAdapter W) (eventBus_Publish : context -> domain_event -> GoM W error).
Context (cmdBus_Execute : context -> message -> GoM W (message * error)).

(** What the caller of a message bus makes of the results. *)
Definition first_two (results : list message) : message * error :=
  (match results with r0 :: _ => r0 | [] => MNil end,
   match results with _ :: r1 :: _ => as_error r1 | _ => None end).

Lemma call_assignable (p : rtype) : assignable ctx_dyn context_t && assignable p p = true.
Proof. unfold assignable. cbn. by rewrite (bool_decide_eq_true_2 (p = p)). Qed.

Lemma call_new t a p (code : context -> message -> option (GoM W (list message))) ctx m run w :
  methods t = [mkMethod "Handle" [t; context_t; p]] -> type_of m = Some p -> code ctx m = Some run ->
  call_handler (new_handler t a code) ctx m w = (results ← run; mret (first_two results)) w.
Proof.
  intros Hm Hp Hc. unfold call_handler. cbn [new_handler h_type mbind option_bind].
  assert (MethodByName "Handle" t = Some (mkMethod "Handle" [t; context_t; p])) as ->.
  { unfold MethodByName. by rewrite Hm. }
  unfold invoke_with, call_method. cbn [m_ins].
  rewrite Hp. rewrite call_assignable.
  cbn [new_handler h_code]. rewrite Hc. unfold mbind, go_bind. destruct (run w) as [[rs|s] w']; [|done].
  by destruct rs as [|? [|? ?]].
Qed.

Lemma reply_answer {A} (result_of : option A -> message) (m : GoM W (result A)) w :
  (results ← (r ← m; mret (answer result_of r)); mret (first_two results)) w = reply result_of m w.
Proof. unfold reply, mbind, go_bind. by destruct (m w) as [[[a|e]|s] w']. Qed.

Lemma reply_answer_ok (result_of : option bool -> message) (m : GoM W error) w :
  (results ← (err ← m; mret (answer_ok result_of err)); mret (first_two results)) w = reply_ok result_of true m w.
Proof. unfold reply_ok, mbind, go_bind. by destruct (m w) as [[[e|]|s] w']. Qed.

Lemma commands_routed : routed (shop_commands format_rfc3339 await repo eventBus_Publish)
  (command_code format_rfc3339 await repo eventBus_Publish).
Proof.
  intros m. rewrite route_position. set (ps := map payload _). vm_compute in ps. unfold ps, shop_commands.
  destruct m as [| | | | | | | | | | | | |[]| | | | | | | | | | | | |];
    cbn [command_code type_of message_dynamic message_type event_type event_name]; find_position; try done;
    intros ctx w.
  all: etransitivity; [eapply call_new; reflexivity|].
  all: try (apply reply_answer || apply reply_answer_ok); unfold reply, reply_ok, mbind, go_bind; try done.
  destruct (await ctx (200 * 1000000) w) as [[c|s] w']; [|done].
  by destruct (GenerateReport_Handle format_rfc3339 c order w') as [[[a|e]|s] w''].
Qed.

Lemma queries_routed : routed (shop_queries format_rfc3339 repo) (query_code format_rfc3339 repo).
Proof.
  intros m. rewrite route_position. set (ps := map payload _). vm_compute in ps. unfold ps, shop_queries.
  destruct m as [| | | | | | | | | | | | |[]| | | | | | | | | | | | |];
    cbn [query_code type_of message_dynamic message_type event_type event_name]; find_position; try done;
    intros ctx w; (etransitivity; [eapply call_new; reflexivity|]); try apply reply_answer.
Qed.

(** The entries of the event bus run the code of the event. *)
Lemma events_entered evt :
  Forall2 (fun e p => e_name e = p.1 /\ forall ctx w, e_invoke e ctx (MEvent evt) w = p.2 ctx w)
    (entries_of (shop_subscribers cmdBus_Execute) (Some (event_type evt))) (event_code cmdBus_Execute evt).
Proof.
  assert (forall t a p (code : context -> message -> option (GoM W (list message))) ctx m run w,
    methods t = [mkMethod "Handle" [t; context_t; p]] -> type_of m = Some p -> code ctx m = Some (err ← run; mret (answer_error err)) ->
    invoke_event (new_handler t a code) (mkMethod "Handle" [t; context_t; p]) ctx m w = run w) as Hinv.
  { intros t a p code ctx m run w Hm Hp Hc. unfold invoke_event, call_method. cbn [m_ins]. rewrite Hp.
    rewrite call_assignable.
    cbn [new_handler h_code]. rewrite Hc. unfold mbind, go_bind.
    by destruct (run w) as [[[e|]|s] w']. }
  rewrite entries_of_payloads. set (ps := map payload _). vm_compute in ps. unfold ps, shop_subscribers.
  destruct evt; unfold event_type, event_name; cbn [zip zip_with omap list_omap event_code fst snd];
    decide_types; cbn [entry_of new_handler h_type]; repeat constructor; cbn [e_invoke e_name fst snd];
    intros ctx w; try by (apply Hinv).
Qed.
End RoutingLemmas.

(** No earlier handler has the type, or the pointer. *)
Ltac unregistered :=
  lazymatch goal with
  | |- route _ _ = None => vm_compute; reflexivity
  | |- own_pointer _ _ =>
      repeat first [apply List.Forall_nil | apply List.Forall_cons; [split; [eexists; split; reflexivity|discriminate]|]]
  end.

(** One registration of a list, on buses that are known to be wired. *)
Ltac wire_one :=
  lazymatch goal with
  | Hw : wired ?cs ?qs ?es ?c ?b |- context [register_each ((?name, ?register ?h) :: ?rest) ?b] =>
      let L := lazymatch register with
               | @register_command _ => constr:(register_command_wired cs qs es c b h)
               | @register_query _ => constr:(register_query_wired cs qs es c b h)
               | @subscribe_event _ => constr:(subscribe_event_wired cs qs es c b h)
               end in
      let b' := fresh "b" in let Hreg := fresh "Hreg" in let Hrel := fresh "Hrel" in
      edestruct L as (b' & Hreg & Hw' & Hrel); [exact Hw|by split_and!|unregistered|];
      eapply register_each_cons; [exact Hreg|]; clear Hreg Hw; rename Hw' into Hw; cbn [app] in Hw
  end.

(** ** Properties *)

(** What the registry shows of the wired application. *)
Definition shop_relations : RelationshipRegistry := mkRegistry
  (list_to_map
    [("PlaceOrderCommand", "PlaceOrderHandler"); ("ConfirmPaymentCommand", "ConfirmPaymentHandler");
     ("ShipOrderCommand", "ShipOrderHandler"); ("CancelOrderCommand", "CancelOrderHandler");
     ("GenerateReportCommand", "GenerateReportHandler"); ("ReserveInventoryCommand", "ReserveInventoryHandler");
     ("ReleaseInventoryCommand", "ReleaseInventoryHandler"); ("ResetInventoryCommand", "ResetInventoryHandler")])
  (list_to_map
    [("GetOrderQuery", "GetOrderHandler"); ("ListOrdersQuery", "ListOrdersHandler");
     ("GetInventoryQuery", "GetInventoryHandler")])
  (list_to_map
    [("OrderPlacedEvent", ["OrderPlacedNotificationHandler"; "OrderPlacedInventoryHandler"]);
     ("OrderCancelledEvent", ["OrderCancelledInventoryHandler"])])
  (list_to_map
    [("PlaceOrderHandler", ["OrderPlacedEvent"]); ("ConfirmPaymentHandler", ["PaymentConfirmedEvent"]);
     ("ShipOrderHandler", ["OrderShippedEvent"]); ("CancelOrderHandler", ["OrderCancelledEvent"]);
     ("ReserveInventoryHandler", ["InventoryReservedEvent"]); ("ReleaseInventoryHandler", ["InventoryReleasedEvent"])])
  (list_to_map (map (fun n => (n, "order"))
    ["PlaceOrderCommand"; "PlaceOrderHandler"; "ConfirmPaymentCommand"; "ConfirmPaymentHandler"; "ShipOrderCommand";
     "ShipOrderHandler"; "CancelOrderCommand"; "CancelOrderHandler"; "GenerateReportCommand"; "GenerateReportHandler";
     "GetOrderQuery"; "GetOrderHandler"; "ListOrdersQuery"; "ListOrdersHandler"; "OrderPlacedEvent";
     "OrderPlacedNotificationHandler"; "OrderPlacedInventoryHandler"; "OrderCancelledEvent";
     "OrderCancelledInventoryHandler"] ++
    map (fun n => (n, "inventory"))
    ["ReserveInventoryCommand"; "ReserveInventoryHandler"; "ReleaseInventoryCommand"; "ReleaseInventoryHandler";
     "ResetInventoryCommand"; "ResetInventoryHandler"; "GetInventoryQuery"; "GetInventoryHandler"])).

(** Both wirings, one registration after the other. *)
Lemma wire_wired {W} `{!Has OrderState W, !Has Inventory W, !Clock W, !IdGen W, !SortSlice, !MapRange}
    format_rfc3339 await (repo : OrderRepositoryAdapter W)
    (publish : context -> domain_event -> GoM W error) (execute_cmd : context -> message -> GoM W (message * error))
    (c : AspectChain W message message message message) timeout limit :
  exists b1 b2,
    WireOrder format_rfc3339 await repo
      (mkBuses (NewCommandBus (Some c)) (NewQueryBus (Some c)) (mkEventBus ∅ c timeout limit)
               (RegisterHandlerEmits NewRegistry)) = Done (b1, None) /\
    WireInventory publish execute_cmd b1 = Done (b2, None) /\
    wired (shop_commands format_rfc3339 await repo publish) (shop_queries format_rfc3339 repo)
       (shop_subscribers execute_cmd) c b2 /\ relations b2 = shop_relations.
Proof.
  set (b0 := mkBuses _ _ _ _).
  assert (wired [] [] [] c b0) as Hw.
  { split; [apply table_ok_new|apply table_ok_new| | |done]; intros t; unfold entries_for; cbn;
    by rewrite lookup_empty. }
  evar (r1 : RelationshipRegistry).
  assert (exists b1, WireOrder format_rfc3339 await repo b0 = Done (b1, None) /\
    (wired (take 5 (shop_commands format_rfc3339 await repo publish)) (take 2 (shop_queries format_rfc3339 repo))
       (take 1 (shop_subscribers execute_cmd)) c b1 /\ relations b1 = r1)) as (b1 & Hb1 & Hw1 & Hrel1).
  { unfold WireOrder. do 8 wire_one. eexists. split; [reflexivity|]. split; [exact Hw|].
    repeat match goal with Hr : relations _ = _ |- _ => rewrite Hr; clear Hr end. unfold r1. reflexivity. }
  clear Hw. rename Hw1 into Hw. cbn [take shop_commands shop_queries shop_subscribers] in Hw.
  assert (exists b2, WireInventory publish execute_cmd b1 = Done (b2, None) /\
    (wired (shop_commands format_rfc3339 await repo publish) (shop_queries format_rfc3339 repo)
       (shop_subscribers execute_cmd) c b2 /\ relations b2 = shop_relations)) as (b2 & Hb2 & Hw2 & Hrel2).
  { unfold WireInventory. do 6 wire_one. eexists. split; [reflexivity|]. split; [exact Hw|].
    repeat match goal with Hr : relations _ = _ |- _ => rewrite Hr; clear Hr end. vm_compute. reflexivity. }
  exists b1, b2. exact (conj Hb1 (conj Hb2 (conj Hw2 Hrel2))).
Qed.

(** What the wired buses do. *)
Lemma wired_runs {W} `{!Has OrderState W, !Has Inventory W, !Clock W, !IdGen W, !SortSlice, !MapRange}
    (cmd_state query_state : Has BusState W) format_rfc3339 await (repo : OrderRepositoryAdapter W)
    (publish : context -> domain_event -> GoM W error) (execute_cmd : context -> message -> GoM W (message * error))
    (c : AspectChain W message message message message) b :
  wired (shop_commands format_rfc3339 await repo publish) (shop_queries format_rfc3339 repo)
    (shop_subscribers execute_cmd) c b ->
  (forall ctx m w, CommandBus_Execute (Has0 := cmd_state) (cmdBus b) ctx m w =
     execute_spec (Has0 := cmd_state) c (shop_commands format_rfc3339 await repo publish) ctx m KCommand w) /\
  routed (shop_commands format_rfc3339 await repo publish) (command_code format_rfc3339 await repo publish) /\
  (forall ctx m w, QueryBus_Execute (Has0 := query_state) (queryBus b) ctx m w =
     execute_spec (Has0 := query_state) c (shop_queries format_rfc3339 repo) ctx m KQuery w) /\
  routed (shop_queries format_rfc3339 repo) (query_code format_rfc3339 repo) /\
  (forall evt, Forall2 (fun e p => e_name e = p.1 /\ forall ctx w, e_invoke e ctx (MEvent evt) w = p.2 ctx w)
     (entries_for (Some (event_type evt)) (eventBus b)) (event_code execute_cmd evt)).
Proof.
  intros [Hc Hq He _ (Hcc & Hcq & _)]. split_and!.
  - intros. unfold CommandBus_Execute. by rewrite (execute_refines _ _ _ _ _ _ Hc), Hcc.
  - apply commands_routed.
  - intros. unfold QueryBus_Execute. by rewrite (execute_refines _ _ _ _ _ _ Hq), Hcq.
  - apply queries_routed.
  - intros evt. rewrite He. apply events_entered.
Qed.

(** Wiring the two domains of the example on fresh buses succeeds, whatever the aspects and the options of
    the buses. After it each command and each query runs exactly the code of its handler, inside the aspect chain;
    every other message, [ProcessBatchCommand] among them, is refused as having no handler; each event has exactly
    its subscribers, in their order; and the relationship registry records exactly these relations, whatever the
    order of maps. The two message buses keep counters of their own. *)
Theorem application_wired {W} `{!Has OrderState W, !Has Inventory W, !Clock W, !IdGen W, !SortSlice, !MapRange}
    (cmd_state query_state : Has BusState W) format_rfc3339 await (repo : OrderRepositoryAdapter W)
    (publish : context -> domain_event -> GoM W error) (execute_cmd : context -> message -> GoM W (message * error))
    (c : AspectChain W message message message message) timeout limit :
  exists b1 b2,
    WireOrder format_rfc3339 await repo
      (mkBuses (NewCommandBus (Some c)) (NewQueryBus (Some c)) (mkEventBus ∅ c timeout limit)
               (RegisterHandlerEmits NewRegistry)) = Done (b1, None) /\
    WireInventory publish execute_cmd b1 = Done (b2, None) /\
    (forall ctx m w, CommandBus_Execute (Has0 := cmd_state) (cmdBus b2) ctx m w =
       execute_spec (Has0 := cmd_state) c (shop_commands format_rfc3339 await repo publish) ctx m KCommand w) /\
    routed (shop_commands format_rfc3339 await repo publish) (command_code format_rfc3339 await repo publish) /\
    (forall ctx m w, QueryBus_Execute (Has0 := query_state) (queryBus b2) ctx m w =
       execute_spec (Has0 := query_state) c (shop_queries format_rfc3339 repo) ctx m KQuery w) /\
    routed (shop_queries format_rfc3339 repo) (query_code format_rfc3339 repo) /\
    (forall evt, Forall2 (fun e p => e_name e = p.1 /\ forall ctx w, e_invoke e ctx (MEvent evt) w = p.2 ctx w)
       (entries_for (Some (event_type evt)) (eventBus b2)) (event_code execute_cmd evt)) /\
    relations b2 = shop_relations.
Proof.
  destruct (wire_wired format_rfc3339 await repo publish execute_cmd c timeout limit) as (b1 & b2 & Ho & Hi & Hw & Hrel).
  destruct (wired_runs cmd_state query_state _ _ _ _ _ _ _ Hw) as (H1 & H2 & H3 & H4 & H5).
  exists b1, b2. exact (conj Ho (conj Hi (conj H1 (conj H2 (conj H3 (conj H4 (conj H5 Hrel))))))).
Qed.
