(* ===== verification/Stats.v ===== *)
(** * Statistics of operations: [src/observability/stats.go], [compose.go]

    A collector keeps, per operation, counters and the durations of a sliding
    window; [GetStats] summarizes them. Its specification is a function of the
    history of calls. *)

From S2P Require Import Prelude Errors Builtin.

Definition defaultWindowSize : Z := 3600.
Definition opTypeCommand : string := "command".
Definition opTypeQuery : string := "query".
Definition opTypeEvent : string := "event".
Definition opTypeUnknown : string := "unknown".

Record OperationStats := mkStats {
  st_Name : string;
  st_Type : string;
  Count : Z;
  ErrorCount : Z;
  AvgDuration : Z;
  MaxDuration : Z;
  MinDuration : Z;
  P50Duration : Z;
  P99Duration : Z;
  LastError : string;
  LastAt : Z }.

Record durationRecord := mkDur { dur : Z; dtime : Z }.

Record operationRecord := mkOp {
  name : string;
  opType : string;
  count : Z;
  errorCount : Z;
  op_durations : list durationRecord;
  lastError : string;
  lastAt : Z }.

(** The records are pointers that never leave the collector: values here. *)
Record StatsCollector := mkCollector { records : gmap string operationRecord; windowSec : Z }.

(** [WithWindowSeconds]; the last one wins. *)
Definition NewStatsCollector (windows : list Z) : StatsCollector :=
  mkCollector ∅ (default defaultWindowSize (last windows)).

Definition classifyOpType (n : string) : string :=
  if bool_decide (7 <= String.length n) && bool_decide (str_to 7 n = "Command") then opTypeCommand
  else if bool_decide (5 <= String.length n) && bool_decide (str_to 5 n = "Query") then opTypeQuery
  else if bool_decide (5 <= String.length n) && bool_decide (str_to 5 n = "Event") then opTypeEvent
  else opTypeUnknown.

Definition second : Z := 1000000000.

(** [-time.Duration(s.windowSec) * time.Second]. *)
Definition window_offset (w : Z) : Z := wrap64 (wrap64 (- w) * second).

(** The loop of [evict]. *)
Fixpoint drop_old (cutoff : Z) (l : list durationRecord) : list durationRecord :=
  match l with
  | d :: rest => if time_before (dtime d) cutoff then drop_old cutoff rest else l
  | [] => []
  end.

Definition evict (s : StatsCollector) (now : Z) (rec : operationRecord) : operationRecord :=
  mkOp (name rec) (opType rec) (count rec) (errorCount rec)
    (drop_old (now + window_offset (windowSec s)) (op_durations rec)) (lastError rec) (lastAt rec).

(** The record of an operation, a new one if there is none. *)
Definition record_for (n : string) (s : StatsCollector) : operationRecord :=
  default (mkOp n (classifyOpType n) 0 0 [] "" time_zero) (records s !! n).

Definition put_op (n : string) (rec : operationRecord) (s : StatsCollector) : StatsCollector :=
  mkCollector (<[n := rec]> (records s)) (windowSec s).

(** The two recorders, with the time that [time.Now] gave. *)
Definition record_duration (now : Z) (n : string) (d : Z) (s : StatsCollector) : StatsCollector :=
  let rec := record_for n s in
  put_op n (evict s now (mkOp (name rec) (opType rec) (count rec +i 1) (errorCount rec)
    (op_durations rec ++ [mkDur d now]) (lastError rec) now)) s.

Definition record_error (now : Z) (n : string) (err : error) (s : StatsCollector) : StatsCollector :=
  let rec := record_for n s in
  put_op n (evict s now (mkOp (name rec) (opType rec) (count rec) (errorCount rec +i 1) (op_durations rec)
    (match err with Some e => Error e | None => lastError rec end) now)) s.

Definition stats_RecordDuration {W} `{!Clock W, !Has StatsCollector W} (n : string) (d : Z) : GoM W unit :=
  now ← time_now; on_part (fun s => (tt, record_duration now n d s)).
Definition stats_RecordError {W} `{!Clock W, !Has StatsCollector W} (n : string) (err : error) : GoM W unit :=
  now ← time_now; on_part (fun s => (tt, record_error now n err s)).

Definition stats_recorder {W} `{!Clock W, !Has StatsCollector W} : MetricsRecorder W :=
  mkRecorder stats_RecordDuration (fun n e => stats_RecordError n (Some e)).

(** [ComposeMetrics]. *)
Fixpoint for_recorders {W} (f : MetricsRecorder W -> GoM W unit) (rs : list (MetricsRecorder W)) : GoM W unit :=
  match rs with [] => mret tt | r :: rs => _ ← f r; for_recorders f rs end.
Definition ComposeMetrics {W} (recorders : list (MetricsRecorder W)) : MetricsRecorder W :=
  mkRecorder (fun n d => for_recorders (fun r => RecordDuration r n d) recorders)
             (fun n e => for_recorders (fun r => RecordError r n e) recorders).

(** ** Summaries *)

(** [l[i]] for an [int] index. *)
Definition index_int {A} (l : list A) (i : Z) : outcome A :=
  if bool_decide (i < 0)%Z then Panicked "index out of range" else index_get l (Z.to_nat i).

Section Summaries.
Context `{!SortSlice}.

Definition duration_less (x y : Z) : bool := bool_decide (x < y)%Z.

(** [len(durations)*p/100]. *)
Definition percentile_index (n p : Z) : Z := Z.quot (wrap64 (n * p)) 100.

Definition base_stats (rec : operationRecord) : OperationStats :=
  mkStats (name rec) (opType rec) (count rec) (errorCount rec) 0 0 0 0 0 (lastError rec) (lastAt rec).

Definition buildStats (rec : operationRecord) : outcome OperationStats :=
  match map dur (op_durations rec) with
  | [] => Done (base_stats rec)
  | (d0 :: _) as durations =>
      let total := fold_left int_add durations 0%Z in
      let low := fold_left (fun m d => if bool_decide (d < m)%Z then d else m) durations d0 in
      let high := fold_left (fun m d => if bool_decide (m < d)%Z then d else m) durations d0 in
      let n := zlen durations in
      let sorted := sort_slice duration_less durations in
      p50 ← index_int sorted (percentile_index n 50);
      p99 ← index_int sorted (percentile_index n 99);
      Done (mkStats (name rec) (opType rec) (count rec) (errorCount rec) (Z.quot total n) high low p50 p99
             (lastError rec) (lastAt rec))
  end.

Definition zero_stats : OperationStats := mkStats "" "" 0 0 0 0 0 0 0 "" time_zero.

Definition GetStats (n : string) (s : StatsCollector) : outcome (OperationStats * bool) :=
  match records s !! n with
  | None => Done (zero_stats, false)
  | Some rec => st ← buildStats rec; Done (st, true)
  end.

Definition name_less (x y : OperationStats) : bool := string_ltb (st_Name x) (st_Name y).

Definition GetAllStats `{!MapRange} (s : StatsCollector) : outcome (list OperationStats) :=
  sts ← mapM (fun e => buildStats e.2) (map_range (records s));
  Done (sort_slice name_less sts).

Definition GetStatsByType `{!MapRange} (t : string) (s : StatsCollector) : outcome (list OperationStats) :=
  sts ← mapM (fun e => buildStats e.2)
          (List.filter (fun e => bool_decide (opType e.2 = t)) (map_range (records s)));
  Done (sort_slice name_less sts).
End Summaries.

(** ** Specification: the history of calls *)

Inductive stats_call := SDuration (now : Z) (n : string) (d : Z) | SError (now : Z) (n : string) (err : error).
Definition call_time (c : stats_call) : Z := match c with SDuration t _ _ | SError t _ _ => t end.
Definition call_name (c : stats_call) : string := match c with SDuration _ n _ | SError _ n _ => n end.

Definition stats_step (s : StatsCollector) (c : stats_call) : StatsCollector :=
  match c with SDuration t n d => record_duration t n d s | SError t n err => record_error t n err s end.

(** What the history says of an operation. *)
Definition calls_of (n : string) (cs : list stats_call) : list stats_call :=
  List.filter (fun c => bool_decide (call_name c = n)) cs.
Definition duration_of (c : stats_call) : option durationRecord :=
  match c with SDuration t _ d => Some (mkDur d t) | SError _ _ _ => None end.
Definition error_of (c : stats_call) : option string :=
  match c with SError _ _ (Some e) => Some (Error e) | _ => None end.
Definition last_time (cs : list stats_call) : Z := from_option call_time time_zero (last cs).

(** The durations that are not older than the window, seen from the last call. *)
Definition window (w : Z) (cs : list stats_call) : list Z :=
  map dur (List.filter (fun d => negb (time_before (dtime d) (last_time cs + window_offset w))) (omap duration_of cs)).

(** [x] is where the sorted list has its [k]-th element. *)
Definition has_rank (l : list Z) (k x : Z) : Prop :=
  x ∈ l /\ (zcount (fun y => bool_decide (y < x)) l <= k < zcount (fun y => bool_decide (y <= x)) l)%Z.

(** ** Lemmas *)

Definition by_time : list stats_call -> Prop := StronglySorted (fun a b => call_time a <= call_time b)%Z.

Lemma drop_old_sorted c l : StronglySorted (fun x y => dtime x <= dtime y)%Z l ->
  drop_old c l = List.filter (fun d => negb (time_before (dtime d) c)) l.
Proof.
  induction 1 as [|d l _ IH Hall]; [done|]. cbn. unfold time_before in *. case_bool_decide as Hd; [done|]. cbn. f_equal.
  symmetry. apply filter_all. eapply Forall_impl; [exact Hall|]. intros x Hx. cbn in Hx. by rewrite bool_decide_eq_false_2 by lia.
Qed.

Lemma durations_sorted cs : by_time cs -> StronglySorted (fun x y => dtime x <= dtime y)%Z (omap duration_of cs).
Proof.
  induction 1 as [|c cs _ IH Hall]; [constructor|]. destruct c as [t n d|t n e]; cbn; [|done].
  constructor; [done|]. clear IH. induction Hall as [|x l Hx _ IHl]; [constructor|].
  destruct x; cbn in *; [constructor; [done|]|]; apply IHl.
Qed.

Lemma by_time_snoc cs c : by_time (cs ++ [c]) -> by_time cs /\ Forall (fun x => call_time x <= call_time c)%Z cs.
Proof.
  induction cs as [|x cs IH]; cbn; [split; constructor|]. intros H. inversion H as [|? ? Hs Hall]; subst.
  apply Forall_app in Hall as [Hall Hc]. destruct (IH Hs) as [IH1 IH2]. inversion Hc; subst. by repeat constructor.
Qed.

(** The durations kept of a history whose last call is at [now]. *)
Definition kept (w now : Z) (cs : list stats_call) : list durationRecord :=
  List.filter (fun d => negb (time_before (dtime d) (now + window_offset w))) (omap duration_of cs).

Definition op_of_history (w : Z) (n : string) (cs : list stats_call) : operationRecord :=
  mkOp n (classifyOpType n) (wrap64 (zlen (omap duration_of cs)))
    (wrap64 (zcount (fun c => bool_decide (duration_of c = None)) cs)) (kept w (last_time cs) cs)
    (default "" (last (omap error_of cs))) (last_time cs).

Lemma duration_snoc cs c : omap duration_of (cs ++ [c]) = omap duration_of cs ++ option_list (duration_of c).
Proof. rewrite omap_app. cbn. by destruct (duration_of c). Qed.

Lemma last_time_le cs c : cs <> [] -> Forall (fun x => call_time x <= call_time c)%Z cs ->
  (last_time cs <= call_time c)%Z.
Proof.
  intros Hne Hle. unfold last_time. destruct (last cs) as [c0|] eqn:Hl.
  - cbn. apply last_Some in Hl as (l & ->). apply Forall_app in Hle as [_ Hle]. by inversion Hle.
  - by apply last_None in Hl.
Qed.

(** Evicting after one more call. *)
Lemma kept_snoc w cs c : by_time (cs ++ [c]) ->
  drop_old (call_time c + window_offset w) (kept w (last_time cs) cs ++ option_list (duration_of c)) =
  kept w (call_time c) (cs ++ [c]).
Proof.
  intros Hs. destruct (by_time_snoc _ _ Hs) as [_ Hle]. unfold kept. rewrite duration_snoc, filter_app.
  rewrite drop_old_sorted.
  - rewrite filter_app. f_equal. destruct (decide (cs = [])) as [->|Hne]; [done|].
    pose proof (last_time_le _ _ Hne Hle). apply filter_filter_imp. intros d. unfold time_before.
    repeat case_bool_decide; try done; lia.
  - pose proof (durations_sorted _ Hs) as Hd. rewrite duration_snoc in Hd. apply StronglySorted_app in Hd as (Hx & H1 & H2).
    apply StronglySorted_app. split_and!; [|by apply StronglySorted_list_filter|done].
    intros x y Hin Hy. apply Hx; [|done]. apply list_elem_of_In in Hin. apply list_elem_of_In.
    by apply filter_In in Hin as [? _].
Qed.

Lemma calls_of_snoc n cs c : calls_of n (cs ++ [c]) =
  if bool_decide (call_name c = n) then calls_of n cs ++ [c] else calls_of n cs.
Proof. unfold calls_of. rewrite filter_app. cbn. case_bool_decide; [done|]. by rewrite app_nil_r. Qed.

Lemma wrap_succ k : wrap64 k +i 1 = wrap64 (k + 1).
Proof. unfold int_add. apply wrap64_wrap64_add. Qed.

Lemma last_time_snoc cs c : last_time (cs ++ [c]) = call_time c.
Proof. unfold last_time. by rewrite last_snoc. Qed.

Lemma last_error_snoc cs c : default "" (last (omap error_of (cs ++ [c]))) =
  match error_of c with Some e => e | None => default "" (last (omap error_of cs)) end.
Proof.
  rewrite omap_app. cbn. destruct (error_of c); cbn; [by rewrite last_snoc|by rewrite app_nil_r].
Qed.

(** One call on the record of its operation. *)
Lemma step_record s c cs :
  by_time (cs ++ [c]) ->
  record_for (call_name c) s = match cs with [] => mkOp (call_name c) (classifyOpType (call_name c)) 0 0 [] "" time_zero
                               | _ => op_of_history (windowSec s) (call_name c) cs end ->
  stats_step s c = put_op (call_name c) (op_of_history (windowSec s) (call_name c) (cs ++ [c])) s.
Proof.
  intros Hs Hrec.
  assert (record_for (call_name c) s = mkOp (call_name c) (classifyOpType (call_name c))
    (wrap64 (zlen (omap duration_of cs))) (wrap64 (zcount (fun c => bool_decide (duration_of c = None)) cs))
    (kept (windowSec s) (last_time cs) cs) (default "" (last (omap error_of cs))) (last_time cs)) as Hr.
  { rewrite Hrec. by destruct cs. }
  pose proof (kept_snoc (windowSec s) cs c Hs) as Hk. unfold op_of_history.
  rewrite last_time_snoc, last_error_snoc, duration_snoc, zcount_snoc, <- Hk. autorewrite with go_rw.
  destruct c as [t n d|t n err]; cbn in *; unfold record_duration, record_error, evict; rewrite Hr; cbn;
    rewrite wrap_succ, ?zlen_nil, ?Z.add_0_r, ?app_nil_r; cbn; [done|]. by destruct err.
Qed.

(** The collector after a history. *)
Lemma records_of_history w cs : by_time cs ->
  let s := fold_left stats_step cs (mkCollector ∅ w) in
  windowSec s = w /\
  forall n, records s !! n = match calls_of n cs with [] => None | l => Some (op_of_history w n l) end.
Proof.
  induction cs as [|c cs IH] using rev_ind; intros Hs; [done|].
  destruct (by_time_snoc _ _ Hs) as [Hcs Hle]. rewrite fold_left_app. cbn [fold_left].
  set (s := fold_left stats_step cs (mkCollector ∅ w)) in *. destruct (IH Hcs) as [Hw Hrec].
  assert (by_time (calls_of (call_name c) cs ++ [c])) as Hsc.
  { pose proof (calls_of_snoc (call_name c) cs c) as Hx. rewrite bool_decide_eq_true_2 in Hx by done.
    rewrite <- Hx. by apply StronglySorted_list_filter. }
  rewrite (step_record s c _ Hsc).
  2:{ unfold record_for. rewrite Hrec, Hw. by destruct (calls_of (call_name c) cs). }
  split; [done|]. intros n. cbn [put_op records]. rewrite calls_of_snoc. case_bool_decide as Hn.
  - subst n. rewrite lookup_insert_eq, Hw. by destruct (calls_of (call_name c) cs).
  - by rewrite lookup_insert_ne, Hrec by done.
Qed.

(** A sorted permutation has the element of a rank at its index. *)
Lemma zcount_perm {A} (f : A -> bool) l k : l ≡ₚ k -> zcount f l = zcount f k.
Proof.
  induction 1; rewrite ?zcount_cons; lia.
Qed.

Lemma zcount_app {A} (f : A -> bool) l k : zcount f (l ++ k) = (zcount f l + zcount f k)%Z.
Proof. unfold zcount. rewrite filter_app. by autorewrite with go_rw. Qed.

Lemma zcount_all {A} (f : A -> bool) l : Forall (fun x => f x = true) l -> zcount f l = zlen l.
Proof. intros H. unfold zcount. by rewrite filter_all. Qed.

Lemma Sorted_weaken {A} (R R' : A -> A -> Prop) l : (forall x y, R x y -> R' x y) -> Sorted R l -> Sorted R' l.
Proof. intros H. induction 1 as [|x l _ IH Hh]; constructor; [done|]. destruct Hh; constructor. auto. Qed.

Lemma sorted_rank `{!SortSlice, !SortSliceLaws} l i x :
  sort_slice duration_less l !! i = Some x -> has_rank l (Z.of_nat i) x.
Proof.
  intros Hx. pose proof (sort_slice_perm _ duration_less l) as Hp.
  assert (StronglySorted Z.le (sort_slice duration_less l)) as Hs.
  { apply Sorted_StronglySorted; [intros a b c; lia|]. eapply Sorted_weaken; [|apply sort_slice_sorted].
    - intros a b. unfold duration_less. cbn. case_bool_decide; [done|lia].
    - split_and!; unfold duration_less; intros; repeat case_bool_decide; done || lia. }
  split; [rewrite <- Hp; by eapply list_elem_of_lookup_2|]. rewrite <- !(zcount_perm _ _ _ Hp).
  destruct (list_elem_of_split_length _ _ _ Hx) as (l1 & l2 & Heq & ->). rewrite Heq in *.
  apply StronglySorted_app in Hs as (Hle & _ & Hs2). apply StronglySorted_cons in Hs2 as [Hge _].
  rewrite !zcount_app, !zcount_cons. rewrite (bool_decide_eq_false_2 (x < x)%Z), (bool_decide_eq_true_2 (x <= x)%Z) by lia.
  rewrite (proj2 (zcount_zero (fun y => bool_decide (y < x)%Z) l2)).
  2:{ eapply Forall_impl; [exact Hge|]. intros y Hy. cbn. by apply bool_decide_eq_false_2, Z.le_ngt. }
  rewrite (zcount_all (fun y => bool_decide (y <= x)%Z) l1).
  2:{ apply Forall_forall. intros y Hy. apply bool_decide_eq_true_2, Hle; [done|left]. }
  pose proof (zcount_le_all (fun y => bool_decide (y < x)%Z) l1). pose proof (zcount_nonneg (fun y => bool_decide (y <= x)%Z) l2).
  unfold zlen in *. cbn. lia.
Qed.

Lemma zcount_mono {A} (f g : A -> bool) l : (forall x, f x = true -> g x = true) -> (zcount f l <= zcount g l)%Z.
Proof.
  intros H. induction l as [|x l IH]; [done|]. rewrite !zcount_cons.
  destruct (f x) eqn:Hf; [rewrite (H _ Hf)|]; [lia|]. destruct (g x); cbn; lia.
Qed.

Lemma rank_mono l i j x y : (i <= j)%Z -> has_rank l i x -> has_rank l j y -> (x <= y)%Z.
Proof.
  intros Hij (_ & Hx & _) (_ & _ & Hy). apply Z.le_ngt. intros Hlt.
  pose proof (zcount_mono (fun z => bool_decide (z <= y)%Z) (fun z => bool_decide (z < x)%Z) l) as Hm.
  specialize (Hm ltac:(intros z; cbn; repeat case_bool_decide; try done; lia)). lia.
Qed.

(** The loops of the smallest and the largest duration. *)
Lemma fold_select (better : Z -> Z -> bool) (R : Z -> Z -> Prop) l m0 :
  (forall m d, if better d m then R d m else R m d) -> Reflexive R -> Transitive R ->
  let m := fold_left (fun m d => if better d m then d else m) l m0 in
  (m = m0 \/ m ∈ l) /\ R m m0 /\ Forall (R m) l.
Proof.
  intros Hb Hr Ht. revert m0. induction l as [|d l IH]; intros m0; cbn; [by split; [left|]|].
  specialize (Hb m0 d). destruct (IH (if better d m0 then d else m0)) as (Hin & Hm & Hall).
  split_and!.
  - destruct Hin as [-> | ?]; [destruct (better d m0)|]; [by right; left|by left|by right; right].
  - destruct (better d m0); [by etransitivity|done].
  - constructor; [|done]. destruct (better d m0); [done|by etransitivity].
Qed.

Lemma percentile_in n p : (0 < n)%Z -> (n * 99 < two63)%Z -> (0 <= p <= 99)%Z ->
  percentile_index n p = (n * p / 100)%Z /\ (0 <= n * p / 100 < n)%Z.
Proof.
  intros Hn Hb Hp. unfold percentile_index. assert (n * p <= n * 99)%Z by nia.
  rewrite wrap64_id by (unfold in_int64, two63 in *; nia). rewrite Z.quot_div_nonneg by nia.
  split; [done|]. split; [apply Z.div_pos; nia|apply Z.div_lt_upper_bound; nia].
Qed.

Lemma sorted_index `{!SortSlice, !SortSliceLaws} l p : l <> [] -> (zlen l * 99 < two63)%Z -> (0 <= p <= 99)%Z ->
  exists x, index_int (sort_slice duration_less l) (percentile_index (zlen l) p) = Done x /\
    has_rank l (zlen l * p / 100) x.
Proof.
  intros Hne Hb Hp. assert (0 < zlen l)%Z by (destruct l; [done|]; unfold zlen; cbn; lia).
  destruct (percentile_in (zlen l) p) as [-> Hr]; [done..|]. unfold index_int. rewrite bool_decide_eq_false_2 by lia.
  destruct (lookup_lt_is_Some_2 (sort_slice duration_less l) (Z.to_nat (zlen l * p / 100))) as [x Hx].
  { rewrite (Permutation_length (sort_slice_perm _ duration_less l)). unfold zlen in *. lia. }
  exists x. unfold index_get. rewrite Hx. split; [done|]. apply sorted_rank in Hx. by rewrite Z2Nat.id in Hx by lia.
Qed.

Lemma filter_length_le {A} (f : A -> bool) l : (zlen (List.filter f l) <= zlen l)%Z.
Proof. induction l as [|x l IH]; cbn; [done|]. destruct (f x); autorewrite with go_rw; lia. Qed.

Lemma window_short w cs : (zlen (window w cs) <= zlen cs)%Z.
Proof.
  unfold window, zlen. rewrite length_map. change (zlen (List.filter (fun d => negb (time_before (dtime d) (last_time cs + window_offset w))) (omap duration_of cs)) <= zlen cs)%Z.
  etransitivity; [apply filter_length_le|]. induction cs as [|[|] cs IH]; cbn; autorewrite with go_rw; unfold zlen in *; cbn in *; lia.
Qed.

Lemma errors_and_durations cs :
  zlen (omap duration_of cs) = zcount (fun c => bool_decide (duration_of c <> None)) cs.
Proof.
  induction cs as [|[t n d|t n e] cs IH]; cbn; rewrite ?zcount_cons; cbn; autorewrite with go_rw; try rewrite IH; done.
Qed.

(** The summary of the record of a history. *)
Lemma buildStats_spec `{!SortSlice, !SortSliceLaws} n own sec :
  let w := window sec own in
  (zlen w * 99 < two63)%Z -> (zlen own * 99 < two63)%Z ->
  exists st, buildStats (op_of_history sec n own) = Done st /\
    (st_Name st = n /\ st_Type st = classifyOpType n /\
      Count st = zcount (fun c => bool_decide (duration_of c <> None)) own /\
      ErrorCount st = zcount (fun c => bool_decide (duration_of c = None)) own /\
      LastError st = default "" (last (omap error_of own)) /\ LastAt st = last_time own) /\
    (w = [] -> MinDuration st = 0 /\ MaxDuration st = 0 /\ AvgDuration st = 0 /\ P50Duration st = 0 /\ P99Duration st = 0)%Z /\
    (w <> [] -> MinDuration st ∈ w /\ MaxDuration st ∈ w /\
      Forall (fun d => MinDuration st <= d <= MaxDuration st)%Z w /\
      AvgDuration st = Z.quot (fold_left int_add w 0%Z) (zlen w) /\
      has_rank w (zlen w * 50 / 100) (P50Duration st) /\ has_rank w (zlen w * 99 / 100) (P99Duration st) /\
      (P50Duration st <= P99Duration st)%Z).
Proof.
  intros w Hb Hb'.
  assert (wrap64 (zlen (omap duration_of own)) = zcount (fun c => bool_decide (duration_of c <> None)) own) as Hcount.
  { rewrite errors_and_durations. apply wrap64_id. pose proof (zcount_nonneg (fun c => bool_decide (duration_of c <> None)) own).
    pose proof (zcount_le_all (fun c => bool_decide (duration_of c <> None)) own). unfold in_int64, two63 in *. lia. }
  assert (wrap64 (zcount (fun c => bool_decide (duration_of c = None)) own) = zcount (fun c => bool_decide (duration_of c = None)) own) as Herrs.
  { apply wrap64_id. pose proof (zcount_nonneg (fun c => bool_decide (duration_of c = None)) own).
    pose proof (zcount_le_all (fun c => bool_decide (duration_of c = None)) own). unfold in_int64, two63 in *. lia. }
  unfold buildStats. change (map dur (op_durations (op_of_history sec n own))) with w.
  destruct w as [|d0 l] eqn:Hw.
  { eexists. split; [done|]. cbn. rewrite Hcount, Herrs. by split_and!. }
  rewrite <- Hw in *. destruct (sorted_index w 50) as (p50 & -> & H50); [by rewrite Hw|done|lia|].
  destruct (sorted_index w 99) as (p99 & -> & H99); [by rewrite Hw|done|lia|].
  eexists. split; [done|]. cbn. rewrite Hcount, Herrs. split; [by split_and!|]. split; [by rewrite Hw|]. intros _.
  destruct (fold_select (fun d m => bool_decide (d < m)%Z) Z.le w d0) as (Hin & _ & Hmin);
    [intros m d; cbn; case_bool_decide; lia|intros x; lia|intros x y z; lia|].
  destruct (fold_select (fun d m => bool_decide (m < d)%Z) Z.ge w d0) as (Hin' & _ & Hmax);
    [intros m d; cbn; case_bool_decide; lia|intros x; lia|intros x y z; lia|].
  assert (d0 ∈ w) as Hd0 by (rewrite Hw; left).
  split_and!.
  - by destruct Hin as [-> | ?].
  - by destruct Hin' as [-> | ?].
  - apply Forall_forall. intros d Hd. split; [by apply (proj1 (Forall_forall _ _) Hmin)|].
    apply Z.ge_le. by apply (proj1 (Forall_forall _ _) Hmax).
  - done.
  - done.
  - done.
  - apply (rank_mono w (zlen w * 50 / 100) (zlen w * 99 / 100)); [|done..].
    apply Z.div_le_mono; [lia|]. pose proof (zlen_nonneg w). lia.
Qed.

(** ** Properties *)

(** C28: Statistics are a function of the history: after any calls with times that do not go back,
    [GetStats] does not panic and gives for an operation the number of its recorded durations and
    errors, its last error text and time; of the durations in the window that ends at its last call it gives the
    smallest, the largest, the average, and the 50th and 99th percentile by rank, whatever sorting
    does with equal elements, with the former not above the latter; with no duration in the window, zeros. *)
Theorem stats_of_history `{!SortSlice, !SortSliceLaws} windows cs n :
  by_time cs -> (zlen cs * 99 < two63)%Z ->
  let s := fold_left stats_step cs (NewStatsCollector windows) in
  let own := calls_of n cs in
  let w := window (default defaultWindowSize (last windows)) own in
  exists st, GetStats n s = Done (st, bool_decide (own <> [])) /\
    (own <> [] -> st_Name st = n /\ st_Type st = classifyOpType n /\
      Count st = zcount (fun c => bool_decide (duration_of c <> None)) own /\
      ErrorCount st = zcount (fun c => bool_decide (duration_of c = None)) own /\
      LastError st = default "" (last (omap error_of own)) /\ LastAt st = last_time own) /\
    (w = [] -> MinDuration st = 0 /\ MaxDuration st = 0 /\ AvgDuration st = 0 /\ P50Duration st = 0 /\ P99Duration st = 0)%Z /\
    (w <> [] -> MinDuration st ∈ w /\ MaxDuration st ∈ w /\
      Forall (fun d => MinDuration st <= d <= MaxDuration st)%Z w /\
      AvgDuration st = Z.quot (fold_left int_add w 0%Z) (zlen w) /\
      has_rank w (zlen w * 50 / 100) (P50Duration st) /\ has_rank w (zlen w * 99 / 100) (P99Duration st) /\
      (P50Duration st <= P99Duration st)%Z).
Proof.
  intros Hs Hb s own w. pose proof (proj2 (records_of_history (default defaultWindowSize (last windows)) cs Hs) n) as Hrec.
  change (fold_left stats_step cs (mkCollector ∅ (default defaultWindowSize (last windows)))) with s in Hrec.
  fold own in Hrec.
  assert (zlen own <= zlen cs)%Z as Hlen by apply filter_length_le.
  assert (zlen w <= zlen own)%Z as Hw by apply window_short.
  unfold GetStats. destruct (decide (own = [])) as [Ho|Ho].
  { rewrite Ho in Hrec. rewrite Hrec, bool_decide_eq_false_2 by tauto. exists zero_stats.
    split; [done|]. split; [done|]. split; [done|]. intros []. unfold w. by rewrite Ho. }
  assert (records s !! n = Some (op_of_history (default defaultWindowSize (last windows)) n own)) as ->
    by (rewrite Hrec; by destruct own).
  rewrite (bool_decide_eq_true_2 (own <> [])) by done.
  destruct (buildStats_spec n own (default defaultWindowSize (last windows))) as (st & Hst & Hcounts & Hzero & Hsome);
    [fold w; lia|lia|].
  exists st. rewrite Hst. split_and!; done.
Qed.

(** ** A concrete history *)
Module DemoStats.
Definition calls : list stats_call :=
  [SDuration 10 "Command/Pay" 30; SError 20 "Command/Pay" (Some (ENew "no funds")); SDuration 30 "Query/Get" 7;
   SDuration 40 "Command/Pay" 10; SDuration 50 "Command/Pay" 20; SDuration (5000 * second) "Command/Pay" 90].
End DemoStats.
Import DemoStats.

Lemma stats_of_history_witness :
  exists st, GetStats "Command/Pay" (fold_left stats_step calls (NewStatsCollector [])) = Done (st, true) /\
    Count st = 4%Z /\ P50Duration st = 90%Z /\ MinDuration st ∈ window 3600 (calls_of "Command/Pay" calls).
Proof.
  destruct (stats_of_history [] calls "Command/Pay") as (st & H & Hc & _ & Hw).
  - repeat constructor; discriminate.
  - reflexivity.
  - exists st. split; [exact H|]. destruct Hc as (_ & _ & Hc & _); [discriminate|]. split; [rewrite Hc; reflexivity|].
    destruct Hw as (Hmin & _ & _ & _ & _ & _ & _); [discriminate|]. split; [|exact Hmin].
    vm_compute in H. injection H as <-. reflexivity.
Defined.
