(* ===== verification/Messages.v ===== *)
(** * Reading recorded messages: [src/observability/message_reader.go]

    The observable message store filters what the in-memory store of
    [src/aspect/builtin] keeps, newest first, and cuts pages out of it. *)

From S2P Require Import Prelude Errors Builtin.

Record QueryResult (T : Type) := mkQueryResult { q_Items : list T; Total : Z }.
Arguments mkQueryResult {T} q_Items Total.
Arguments q_Items {T} _.
Arguments Total {T} _.

Record MessageFilter := mkMsgFilter {
  mf_Type : string;
  mf_TraceID : string;
  mf_AggregateID : string;
  mf_Status : string;
  mf_Since : Z;
  mf_Limit : Z;
  mf_Offset : Z }.

Record ObservableMessageStore := mkObservable { inner : InMemoryMessageStore; maxSize : Z }.

(** [WithMaxSize]; the last one wins. *)
Definition NewObservableMessageStore (sizes : list Z) : ObservableMessageStore :=
  let n := default 1000%Z (last sizes) in
  mkObservable (if bool_decide (n <> 1000)%Z then NewInMemoryMessageStore [n] else NewInMemoryMessageStore []) n.

Definition on_inner (f : InMemoryMessageStore -> outcome InMemoryMessageStore) (s : ObservableMessageStore) :
    outcome (ObservableMessageStore * error) :=
  i ← f (inner s); mret (mkObservable i (maxSize s), None).

Definition obs_RecordCommand (e : CommandEntry) := on_inner (mem_RecordCommand e).
Definition obs_RecordQuery (e : QueryEntry) := on_inner (mem_RecordQuery e).
Definition obs_RecordEvent (e : EventEntry) := on_inner (mem_RecordEvent e).
Definition obs_RecordEventHandler (_ : EventHandlerEntry) (s : ObservableMessageStore) :
    outcome (ObservableMessageStore * error) := mret (s, None).

Definition matchStringFilter (entryType traceID err : string) (createdAt : Z) (f : MessageFilter) : bool :=
  if bool_decide (mf_Type f <> "") && bool_decide (entryType <> mf_Type f) then false
  else if bool_decide (mf_TraceID f <> "") && bool_decide (traceID <> mf_TraceID f) then false
  else if bool_decide (mf_Status f = "error") && bool_decide (err = "") then false
  else if bool_decide (mf_Status f = "success") && bool_decide (err <> "") then false
  else if negb (time_is_zero (mf_Since f)) && time_before createdAt (mf_Since f) then false
  else true.

Definition matchCommandFilter (e : CommandEntry) (f : MessageFilter) : bool :=
  matchStringFilter (ce_CommandType e) (ce_TraceID e) (ce_Error e) (ce_CreatedAt e) f.
Definition matchQueryFilter (e : QueryEntry) (f : MessageFilter) : bool :=
  matchStringFilter (qe_QueryType e) (qe_TraceID e) (qe_Error e) (qe_CreatedAt e) f.
Definition matchEventFilter (e : EventEntry) (f : MessageFilter) : bool :=
  if bool_decide (mf_AggregateID f <> "") && bool_decide (ee_AggregateID e <> mf_AggregateID f) then false
  else matchStringFilter (ee_EventType e) (ee_TraceID e) (ee_Error e) (ee_CreatedAt e) f.

(** The loop [for i := len(entries) - 1; i >= 0; i--], by the number [i + 1] of entries left. *)
Fixpoint collect_back {T} (matches : T -> bool) (entries : list T) (left : nat) (filtered : list T) : list T :=
  match left with
  | O => filtered
  | S i =>
      match entries !! i with
      | Some e => collect_back matches entries i (if matches e then filtered ++ [e] else filtered)
      | None => filtered
      end
  end.

(** The body that the three queries share. *)
Definition query {T} (matches : T -> MessageFilter -> bool) (entries : list T) (f : MessageFilter) :
    outcome (QueryResult T) :=
  let filtered := collect_back (fun e => matches e f) entries (length entries) [] in
  let total := zlen filtered in
  let offset := if bool_decide (mf_Offset f > total)%Z then total else mf_Offset f in
  match slice_from offset filtered with
  | None => Panicked "slice bounds out of range"
  | Some remaining =>
      let limit := if bool_decide (mf_Limit f <= 0)%Z || bool_decide (mf_Limit f > zlen remaining)%Z
                   then zlen remaining else mf_Limit f in
      match slice_to limit remaining with
      | None => Panicked "slice bounds out of range"
      | Some items => Done (mkQueryResult items total)
      end
  end.

Definition QueryCommands (f : MessageFilter) (s : ObservableMessageStore) : outcome (QueryResult CommandEntry) :=
  query matchCommandFilter (GetCommands (inner s)) f.
Definition QueryQueries (f : MessageFilter) (s : ObservableMessageStore) : outcome (QueryResult QueryEntry) :=
  query matchQueryFilter (GetQueries (inner s)) f.
Definition QueryEvents (f : MessageFilter) (s : ObservableMessageStore) : outcome (QueryResult EventEntry) :=
  query matchEventFilter (GetEvents (inner s)) f.

(** ** A client that reads page after page *)

Definition page_of (f : MessageFilter) (limit k : Z) : MessageFilter :=
  mkMsgFilter (mf_Type f) (mf_TraceID f) (mf_AggregateID f) (mf_Status f) (mf_Since f) limit (limit * k).

Definition read_pages (f : MessageFilter) (limit : Z) (pages : nat) (s : ObservableMessageStore) : outcome (list CommandEntry) :=
  rs ← mapM (fun k => QueryCommands (page_of f limit (Z.of_nat k)) s) (seq 0 pages);
  mret (concat (map q_Items rs)).

(** ** Lemmas *)

Lemma collect_back_spec {T} (m : T -> bool) entries n acc : n <= length entries ->
  collect_back m entries n acc = acc ++ List.filter m (rev (take n entries)).
Proof.
  revert acc. induction n as [|n IH]; intros acc Hn; cbn; [by rewrite app_nil_r|].
  destruct (lookup_lt_is_Some_2 entries n Hn) as [e He]. rewrite He, IH by lia.
  rewrite (take_S_r _ _ _ He), rev_app_distr. cbn. destruct (m e); [|done]. by rewrite <- app_assoc.
Qed.

Lemma collect_all {T} (m : T -> bool) entries :
  collect_back m entries (length entries) [] = List.filter m (rev entries).
Proof. rewrite collect_back_spec by done. by rewrite take_ge by done. Qed.

(** The part of a list that a page shows. *)
Definition cut {T} (f : MessageFilter) (l : list T) : list T :=
  let rest := drop (Z.to_nat (mf_Offset f)) l in
  if bool_decide (mf_Limit f <= 0)%Z then rest else take (Z.to_nat (mf_Limit f)) rest.

Lemma query_spec {T} (m : T -> MessageFilter -> bool) entries f :
  query m entries f =
  if bool_decide (mf_Offset f < 0)%Z then Panicked "slice bounds out of range"
  else let l := List.filter (fun e => m e f) (rev entries) in Done (mkQueryResult (cut f l) (zlen l)).
Proof.
  unfold query. rewrite collect_all. set (l := List.filter _ _). pose proof (zlen_nonneg l) as Hl.
  set (o := if bool_decide (mf_Offset f > zlen l)%Z then zlen l else mf_Offset f).
  unfold slice_from. destruct (decide (mf_Offset f < 0)%Z) as [Ho|Ho].
  - rewrite (bool_decide_eq_true_2 (mf_Offset f < 0)%Z) by done.
    rewrite bool_decide_eq_false_2; [done|]. unfold o. case_bool_decide; lia.
  - rewrite (bool_decide_eq_false_2 (mf_Offset f < 0)%Z) by done.
    rewrite bool_decide_eq_true_2 by (unfold o; case_bool_decide; lia).
    assert (drop (Z.to_nat o) l = drop (Z.to_nat (mf_Offset f)) l) as ->.
    { unfold o. case_bool_decide; [|done]. rewrite !drop_ge; unfold zlen in *; done || lia. }
    unfold cut. set (rest := drop _ _). pose proof (zlen_nonneg rest).
    set (n := if _ : bool then zlen rest else mf_Limit f). rewrite slice_to_Some by (unfold n; repeat case_bool_decide; cbn; lia).
    do 2 f_equal. unfold n. case_bool_decide; cbn; [by rewrite take_ge by (unfold zlen; lia)|].
    case_bool_decide; cbn; [|done]. rewrite !take_ge; unfold zlen in *; done || lia.
Qed.

Lemma concat_pages {T} (l : list T) n k m :
  concat (map (fun i => take n (drop (n * i) l)) (seq k m)) = take (n * m) (drop (n * k) l).
Proof.
  revert k. induction m as [|m IH]; intros k; cbn; [by rewrite Nat.mul_0_r|].
  rewrite IH. replace (n * S m) with (n + n * m) by lia. rewrite <- take_take_drop.
  rewrite drop_drop. do 3 f_equal. lia.
Qed.

(** ** Properties *)

(** Paging neither loses nor repeats a message: for a positive page size, reading the first pages of
    a query one after the other gives the matching commands, newest first, up to the number asked
    for, and every page reports the number of all of them; a negative offset makes the query panic. *)
Theorem command_pages f limit pages s :
  (0 < limit)%Z ->
  let all := List.filter (fun e => matchCommandFilter e f) (rev (GetCommands (inner s))) in
  read_pages f limit pages s = Done (take (Z.to_nat limit * pages) all) /\
  (forall k r, QueryCommands (page_of f limit k) s = Done r -> Total r = zlen all) /\
  (forall k, (k < 0)%Z -> QueryCommands (page_of f limit k) s = Panicked "slice bounds out of range").
Proof.
  intros Hlim all.
  assert (forall k, QueryCommands (page_of f limit k) s =
    if bool_decide (limit * k < 0)%Z then Panicked "slice bounds out of range"
    else Done (mkQueryResult (cut (page_of f limit k) all) (zlen all))) as Hq by (intros k; exact (query_spec matchCommandFilter (GetCommands (inner s)) (page_of f limit k))).
  split; [|split].
  - unfold read_pages.
    assert (forall ks, mapM (fun k => QueryCommands (page_of f limit (Z.of_nat k)) s) ks =
      Done (map (fun k => mkQueryResult (take (Z.to_nat limit) (drop (Z.to_nat limit * k) all)) (zlen all)) ks)) as ->.
    { induction ks as [|k ks IH]; [done|]. cbn [mapM]. rewrite IH, Hq, bool_decide_eq_false_2 by lia. cbn.
      unfold cut, page_of. cbn. rewrite bool_decide_eq_false_2 by lia.
      by replace (Z.to_nat (limit * Z.of_nat k)) with (Z.to_nat limit * k) by lia. }
    cbn. rewrite map_map. cbn. rewrite concat_pages. by rewrite Nat.mul_0_r.
  - intros k r. rewrite Hq. case_bool_decide; [done|]. by intros [= <-].
  - intros k Hk. rewrite Hq. rewrite bool_decide_eq_true_2 by nia. done.
Qed.

(** ** A concrete store *)
Module DemoMessages.
Definition entry (t e : string) (at_ : Z) : CommandEntry := mkCommandEntry "t" "s" t "" "" "" e 1 at_.
Definition store : ObservableMessageStore :=
  mkObservable (mkMemMessages [entry "Pay" "" 1; entry "Ship" "" 2; entry "Pay" "no" 3; entry "Pay" "" 4] [] [] [] 1000) 1000.
Definition pays : MessageFilter := mkMsgFilter "Pay" "" "" "" 0 0 0.
End DemoMessages.
Import DemoMessages.

Lemma command_pages_witness :
  (0 < 2)%Z /\ (r ← read_pages pays 2 2 store; mret (map ce_CreatedAt r)) = Done [4%Z; 3%Z; 1%Z].
Proof.
  split; [reflexivity|]. destruct (command_pages pays 2 2 store) as [-> _]; [reflexivity|]. vm_compute. reflexivity.
Defined.
