(* ===== verification/PgMessages.v ===== *)
(** * Recorded messages in PostgreSQL: [src/aspect/builtin/pg], [src/observability/pg]

    The message store of the persistence aspect and the reader of the dashboards. An
    entry is a row of a log table ([src/pg/migrate.go]). The statements on such a table
    are a parameter, [LogTable]; [LogTableLaws] is what PostgreSQL documents of them. *)

From S2P Require Import Prelude Errors Trace Pg Builtin Messages SqlQuery.

(** ** The rows *)

Record command_row := mkCommandRow {
  cr_trace_id : option string;
  cr_span_id : option string;
  cr_command_type : string;
  cr_command_data : option string;
  cr_result_type : option string;
  cr_result_data : option string;
  cr_error : option string;
  cr_duration_ns : option Z;
  cr_created_at : Z }.

Record query_row := mkQueryRow {
  qr_trace_id : option string;
  qr_span_id : option string;
  qr_query_type : string;
  qr_query_data : option string;
  qr_result_type : option string;
  qr_result_data : option string;
  qr_error : option string;
  qr_duration_ns : option Z;
  qr_created_at : Z }.

Record event_row := mkEventRow {
  er_trace_id : option string;
  er_span_id : option string;
  er_aggregate_id : option string;
  er_event_type : string;
  er_event_data : option string;
  er_handler_count : option Z;
  er_error : option string;
  er_duration_ns : option Z;
  er_created_at : Z }.

Record handler_row := mkHandlerRow {
  hr_trace_id : option string;
  hr_span_id : option string;
  hr_aggregate_id : string;
  hr_event_type : string;
  hr_handler_type : string;
  hr_status : string;
  hr_error : option string;
  hr_duration_ns : option Z;
  hr_created_at : Z }.

(** A [json.RawMessage] as an argument: nil, which an entry has as the empty string, is null. *)
Definition raw_arg (data : string) : option string := if bool_decide (data = "") then None else Some data.
(** What a [sql.NullString] or a [json.RawMessage] holds after [Scan]. *)
Definition null_text (o : option string) : string := match o with Some s => s | None => "" end.
Definition null_int (o : option Z) : Z := match o with Some n => n | None => 0 end.

Definition row_of_command (e : CommandEntry) : command_row :=
  mkCommandRow (Some (ce_TraceID e)) (Some (ce_SpanID e)) (ce_CommandType e) (raw_arg (ce_CommandData e))
    (NullString (ce_ResultType e)) (raw_arg (ce_ResultData e)) (NullString (ce_Error e)) (Some (ce_Duration e)) (ce_CreatedAt e).
Definition command_of_row (r : command_row) : CommandEntry :=
  mkCommandEntry (null_text (cr_trace_id r)) (null_text (cr_span_id r)) (cr_command_type r) (null_text (cr_command_data r))
    (null_text (cr_result_type r)) (null_text (cr_result_data r)) (null_text (cr_error r)) (null_int (cr_duration_ns r))
    (cr_created_at r).

Definition row_of_query (e : QueryEntry) : query_row :=
  mkQueryRow (Some (qe_TraceID e)) (Some (qe_SpanID e)) (qe_QueryType e) (raw_arg (qe_QueryData e))
    (NullString (qe_ResultType e)) (raw_arg (qe_ResultData e)) (NullString (qe_Error e)) (Some (qe_Duration e)) (qe_CreatedAt e).
Definition query_of_row (r : query_row) : QueryEntry :=
  mkQueryEntry (null_text (qr_trace_id r)) (null_text (qr_span_id r)) (qr_query_type r) (null_text (qr_query_data r))
    (null_text (qr_result_type r)) (null_text (qr_result_data r)) (null_text (qr_error r)) (null_int (qr_duration_ns r))
    (qr_created_at r).

Definition row_of_event (e : EventEntry) : event_row :=
  mkEventRow (Some (ee_TraceID e)) (Some (ee_SpanID e)) (Some (ee_AggregateID e)) (ee_EventType e) (raw_arg (ee_EventData e))
    (Some (ee_HandlerCount e)) (NullString (ee_Error e)) (Some (ee_Duration e)) (ee_CreatedAt e).
Definition event_of_row (r : event_row) : EventEntry :=
  mkEventEntry (null_text (er_trace_id r)) (null_text (er_span_id r)) (null_text (er_aggregate_id r)) (er_event_type r)
    (null_text (er_event_data r)) (null_int (er_handler_count r)) (null_text (er_error r)) (null_int (er_duration_ns r))
    (er_created_at r).

Definition row_of_handler (e : EventHandlerEntry) : handler_row :=
  mkHandlerRow (Some (he_TraceID e)) (Some (he_SpanID e)) (he_AggregateID e) (he_EventType e) (he_HandlerType e) (he_Status e)
    (NullString (he_Error e)) (Some (he_Duration e)) (he_CreatedAt e).

Class LogTable (W Tx R : Type) := {
  (** [INSERT INTO ...] *)
  log_insert : option Tx -> context -> R -> GoM W error;
  (** [SELECT COUNT ( * ) FROM ... WHERE ...] and [Scan] *)
  log_count : option Tx -> context -> list sql_cond -> list sql_arg -> GoM W (Z + goerr);
  (** [SELECT ... FROM ... WHERE ... ORDER BY created_at DESC LIMIT $n OFFSET $m] *)
  log_select : option Tx -> context -> list sql_cond -> nat -> nat -> list sql_arg -> GoM W (query_result R) }.

(** ** The store *)
Section Store.
Context {W Tx : Type} `{!Has (tx_states Tx) W}.
Context `{LC : !LogTable W Tx command_row, LQ : !LogTable W Tx query_row, LE : !LogTable W Tx event_row, LH : !LogTable W Tx handler_row}.

Definition record_row {R} `{!LogTable W Tx R} (r : R) (ctx : context) : GoM W error :=
  q ← GetQuerier (Tx := Tx) ctx;
  log_insert q ctx r.

Definition pg_RecordCommand (ctx : context) (e : CommandEntry) : GoM W error := record_row (row_of_command e) ctx.
Definition pg_RecordQuery (ctx : context) (e : QueryEntry) : GoM W error := record_row (row_of_query e) ctx.
Definition pg_RecordEvent (ctx : context) (e : EventEntry) : GoM W error := record_row (row_of_event e) ctx.
Definition pg_RecordEventHandler (ctx : context) (e : EventHandlerEntry) : GoM W error := record_row (row_of_handler e) ctx.

Definition pg_messages (ctx : context) : MessageStore W :=
  mkMessageStore (pg_RecordCommand ctx) (pg_RecordQuery ctx) (pg_RecordEvent ctx) (pg_RecordEventHandler ctx).
End Store.

(** Entries recorded one after the other, until one is refused. *)
Fixpoint record_all {W E} (record : E -> GoM W error) (es : list E) : GoM W error :=
  match es with
  | [] => mret None
  | e :: es =>
      r ← record e;
      match r with Some r => mret (Some r) | None => record_all record es end
  end.

(** ** The reader *)

(** The parts with a value. *)
Definition where_parts (parts : list (string * string)) (q : query_text) : query_text :=
  fold_left (fun q p => and_cond (negb (bool_decide (p.2 = ""))) (CondEq p.1) (ArgText p.2) q) parts q.

Definition buildWhereClause (parts : list (string * string)) (status : string) (since : Z) : query_text :=
  let q := where_parts parts no_cond in
  let q := if bool_decide (status = "error") then and_fixed (CondSet "error") q
           else if bool_decide (status = "success") then and_fixed (CondUnset "error") q
           else q in
  and_cond (negb (time_is_zero since)) (CondGe "created_at") (ArgTime since) q.

(** [rows.Scan] gave every column or an error. *)
Fixpoint scan_entries {R E} (entry_of : R -> E) (what : string) (rows : list (R + goerr)) (rows_err : error) : result (list E) :=
  match rows with
  | [] => match rows_err with Some e => Err e | None => Ok [] end
  | inr e :: _ => Err (EWrap ("scan " +:+ what +:+ ": ") e "")
  | inl r :: rest =>
      match scan_entries entry_of what rest rows_err with Ok l => Ok (entry_of r :: l) | Err e => Err e end
  end.

Section Reader.
Context {W Tx : Type} `{!Has (tx_states Tx) W}.
Context `{LC : !LogTable W Tx command_row, LQ : !LogTable W Tx query_row, LE : !LogTable W Tx event_row}.

(** The body that the three queries share; [one] and [many] are the nouns of its messages. *)
Definition pg_query {R E} `{!LogTable W Tx R} (entry_of : R -> E) (one many : string) (where_ : query_text)
    (ctx : context) (f : MessageFilter) : GoM W (result (QueryResult E)) :=
  q ← GetQuerier (Tx := Tx) ctx;
  let '(conds, args, _) := where_ in
  count ← log_count q ctx conds args;
  match count with
  | inr err => mret (Err (EWrap ("count " +:+ many +:+ ": ") err ""))
  | inl total =>
      let limit := if bool_decide (mf_Limit f <= 0)%Z then 100%Z else mf_Limit f in
      let queryArgs := args ++ [ArgInt limit; ArgInt (mf_Offset f)] in
      rows ← log_select q ctx conds (length queryArgs - 1) (length queryArgs) queryArgs;
      mret (match rows with
            | inr err => Err (EWrap ("query " +:+ many +:+ ": ") err "")
            | inl (rows, rows_err) =>
                match scan_entries entry_of one rows rows_err with
                | Ok items => Ok (mkQueryResult items total)
                | Err e => Err e
                end
            end)
  end.

Definition pg_QueryCommands (ctx : context) (f : MessageFilter) : GoM W (result (QueryResult CommandEntry)) :=
  pg_query command_of_row "command" "commands"
    (buildWhereClause [("command_type", mf_Type f); ("trace_id", mf_TraceID f)] (mf_Status f) (mf_Since f)) ctx f.

Definition pg_QueryQueries (ctx : context) (f : MessageFilter) : GoM W (result (QueryResult QueryEntry)) :=
  pg_query query_of_row "query" "queries"
    (buildWhereClause [("query_type", mf_Type f); ("trace_id", mf_TraceID f)] (mf_Status f) (mf_Since f)) ctx f.

Definition pg_QueryEvents (ctx : context) (f : MessageFilter) : GoM W (result (QueryResult EventEntry)) :=
  let parts := [("event_type", mf_Type f); ("trace_id", mf_TraceID f)] in
  let parts := if bool_decide (mf_AggregateID f = "") then parts else parts ++ [("aggregate_id", mf_AggregateID f)] in
  pg_query event_of_row "event" "events" (buildWhereClause parts (mf_Status f) (mf_Since f)) ctx f.
End Reader.

(** ** What PostgreSQL documents of a log table *)

(** A row by its text columns and its time, and what is kept of it: JSONB columns normalize their
    text and times have another resolution. *)
Class LogRow (R : Type) := {
  lr_text : string -> R -> option string;
  lr_created : R -> Z;
  lr_keep : (string -> string) -> (Z -> Z) -> R -> R }.

Definition lr_time {R} `{!LogRow R} (col : string) (r : R) : option Z :=
  if bool_decide (col = "created_at") then Some (lr_created r) else None.

(** The text columns as a table of names. *)
Fixpoint column (cols : list (string * option string)) (col : string) : option string :=
  match cols with
  | [] => None
  | (c, v) :: cols => if bool_decide (col = c) then v else column cols col
  end.

#[export] Instance command_log : LogRow command_row := {
  lr_text col r := column [("command_type", Some (cr_command_type r)); ("trace_id", cr_trace_id r); ("error", cr_error r)] col;
  lr_created := cr_created_at;
  lr_keep jsonb time r :=
    mkCommandRow (cr_trace_id r) (cr_span_id r) (cr_command_type r) (jsonb <$> cr_command_data r) (cr_result_type r)
      (jsonb <$> cr_result_data r) (cr_error r) (cr_duration_ns r) (time (cr_created_at r)) }.

#[export] Instance query_log : LogRow query_row := {
  lr_text col r := column [("query_type", Some (qr_query_type r)); ("trace_id", qr_trace_id r); ("error", qr_error r)] col;
  lr_created := qr_created_at;
  lr_keep jsonb time r :=
    mkQueryRow (qr_trace_id r) (qr_span_id r) (qr_query_type r) (jsonb <$> qr_query_data r) (qr_result_type r)
      (jsonb <$> qr_result_data r) (qr_error r) (qr_duration_ns r) (time (qr_created_at r)) }.

#[export] Instance event_log : LogRow event_row := {
  lr_text col r := column [("event_type", Some (er_event_type r)); ("trace_id", er_trace_id r);
                           ("aggregate_id", er_aggregate_id r); ("error", er_error r)] col;
  lr_created := er_created_at;
  lr_keep jsonb time r :=
    mkEventRow (er_trace_id r) (er_span_id r) (er_aggregate_id r) (er_event_type r) (jsonb <$> er_event_data r)
      (er_handler_count r) (er_error r) (er_duration_ns r) (time (er_created_at r)) }.

(** [log_valid] are the rows that the constraints of the table admit. [log_scan] is what [Scan] makes
    of a row: [database/sql] itself cannot store a null into a [json.RawMessage], a driver
    may. The order of rows of the same time is not specified, and an offset may not be negative. *)
Class LogTableLaws (W Tx R : Type) `{!Has (tx_states Tx) W, !LogTable W Tx R, !LogRow R} := {
  log_ok : W -> Prop;
  log_usable : context -> Prop;
  log_rows : W -> list R;
  log_jsonb : string -> string;
  log_time : Z -> Z;
  log_like : string -> string -> bool;
  log_valid : R -> Prop;
  log_scan : R -> R + goerr;
  log_leads (w w' : W) (rows : list R) : Prop := log_ok w' /\ log_rows w' = rows;
  log_selected (conds : list sql_cond) (args : list sql_arg) (w : W) : list R :=
    List.filter (fun r => forallb (cond_holds lr_text lr_time log_time log_like args r) conds) (log_rows w);
  log_insert_law : forall ctx w r, log_ok w -> log_usable ctx -> log_valid r ->
    exists w', log_insert (querier_at ctx w) ctx r w = (Done None, w') /\
      log_leads w w' (log_rows w ++ [lr_keep log_jsonb log_time r]);
  log_count_law : forall ctx w conds args, log_ok w -> log_usable ctx -> Forall (cond_typed args) conds ->
    exists w', log_count (querier_at ctx w) ctx conds args w = (Done (inl (zlen (log_selected conds args w))), w') /\
      log_leads w w' (log_rows w) /\ querier_at (Tx := Tx) ctx w' = querier_at ctx w;
  log_select_law : forall ctx w conds n m args limit offset, log_ok w -> log_usable ctx -> Forall (cond_typed args) conds ->
    sql_param args n = Some (ArgInt limit) -> sql_param args m = Some (ArgInt offset) -> (0 <= limit)%Z ->
    exists w', if bool_decide (offset < 0)%Z
      then exists e, log_select (querier_at ctx w) ctx conds n m args w = (Done (inr e), w')
      else exists l, log_select (querier_at ctx w) ctx conds n m args w =
             (Done (inl (map log_scan (take (Z.to_nat limit) (drop (Z.to_nat offset) l)), None)), w') /\
           l ≡ₚ log_selected conds args w /\ Sorted (fun a b => lr_created b <= lr_created a)%Z l }.

(** ** Lemmas *)

Lemma scan_entries_ok {R E} (entry_of : R -> E) what l :
  scan_entries entry_of what (map inl l) None = Ok (map entry_of l).
Proof. induction l as [|r l IH]; [done|]. cbn. by rewrite IH. Qed.

(** Only one order has the newest first when no two have the same time. *)
Lemma elem_of_rev {A} (x : A) l : x ∈ rev l -> x ∈ l.
Proof. rewrite !list_elem_of_In. by rewrite <- in_rev. Qed.

Section Newest.
Context {R : Type} (created : R -> Z).
Abbreviation increasing := (StronglySorted (fun a b => created a < created b)%Z).

Lemma created_inj rows a b : increasing rows -> a ∈ rows -> b ∈ rows -> created a = created b -> a = b.
Proof.
  induction 1 as [|x rows Hs IH Hall]; [by intros ?%list_elem_of_In|]. rewrite Forall_forall in Hall.
  intros [-> |Ha]%elem_of_cons [-> |Hb]%elem_of_cons Heq; [done| | |by apply IH].
  - specialize (Hall b Hb). cbn in Hall. lia.
  - specialize (Hall a Ha). cbn in Hall. lia.
Qed.

Lemma rev_decreasing rows : increasing rows -> StronglySorted (fun a b => created b <= created a)%Z (rev rows).
Proof.
  induction 1 as [|x rows Hs IH Hall]; [constructor|]. cbn. rewrite Forall_forall in Hall.
  apply StronglySorted_app_2; [|done|by repeat constructor].
  intros a b Ha%elem_of_rev ->%list_elem_of_singleton. specialize (Hall a Ha). cbn in Hall. lia.
Qed.

Lemma newest_first l rows :
  increasing rows -> l ≡ₚ rows -> Sorted (fun a b => created b <= created a)%Z l -> l = rev rows.
Proof.
  intros Hs Hp Hl. assert (Transitive (fun a b => created b <= created a)%Z) by (intros a b c; lia).
  apply StronglySorted_unique_strong with (fun a b => created b <= created a)%Z.
  - intros a b Ha Hb%elem_of_rev H1 H2. rewrite Hp in Ha. apply (created_inj rows); [done..|lia].
  - by apply Sorted_StronglySorted.
  - by apply rev_decreasing.
  - by rewrite <- Permutation_rev.
Qed.

Lemma increasing_filter p rows : increasing rows -> increasing (List.filter p rows).
Proof.
  induction 1 as [|x rows Hs IH Hall]; [constructor|]. cbn. destruct (p x); [|done]. constructor; [done|].
  rewrite Forall_forall in Hall |- *. intros y [Hy _]%list_elem_of_In%filter_In. by apply Hall, list_elem_of_In.
Qed.
End Newest.

(** What the text of a query says of a row. *)
Section Where.
Context {R : Type} `{!LogRow R} (time : Z -> Z) (like : string -> string -> bool).
Abbreviation means := (text_means (R := R) lr_text lr_time time like).

Definition part_ok (r : R) (p : string * string) : bool :=
  bool_decide (p.2 = "") || match lr_text p.1 r with Some v => bool_decide (v = p.2) | None => false end.

Definition status_ok (status err : string) : bool :=
  if bool_decide (status = "error") then negb (bool_decide (err = ""))
  else if bool_decide (status = "success") then bool_decide (err = "") else true.

Lemma where_parts_means parts q m :
  means q m -> means (where_parts parts q) (fun r => m r && forallb (part_ok r) parts).
Proof.
  revert q m. induction parts as [|[col v] parts IH]; intros q m Hq; cbn.
  { eapply text_means_ext; [done|]. intros r. by rewrite andb_true_r. }
  eapply text_means_ext; [apply IH, and_cond_means; [exact Hq|]|].
  - intros args n Ha. split; [by eexists|]. intros r. cbn. rewrite Ha. reflexivity.
  - intros r. cbn. unfold part_ok at 2. cbn. by rewrite negb_involutive, <- andb_assoc.
Qed.

Lemma build_means parts status since : time since = since ->
  means (buildWhereClause parts status since) (fun r =>
    forallb (part_ok r) parts && status_ok status (null_text (lr_text "error" r)) &&
    (time_is_zero since || negb (time_before (lr_created r) since))).
Proof.
  intros Hs. eapply text_means_ext.
  - unfold buildWhereClause. eapply and_cond_means with (m := fun r => forallb (part_ok r) parts &&
      status_ok status (null_text (lr_text "error" r))).
    + pose proof (where_parts_means parts no_cond _ (no_cond_means _ _ _ _)) as Hw. unfold status_ok.
      case_bool_decide; [|case_bool_decide].
      * apply (and_fixed_means _ _ _ _ _ _ _ (fun r => negb (bool_decide (null_text (lr_text "error" r) = ""))) Hw).
        intros args. split; [exact I|]. intros r. cbn. by destruct (lr_text "error" r).
      * apply (and_fixed_means _ _ _ _ _ _ _ (fun r => bool_decide (null_text (lr_text "error" r) = "")) Hw).
        intros args. split; [exact I|]. intros r. cbn. by destruct (lr_text "error" r).
      * eapply text_means_ext; [exact Hw|]. intros r. cbn. by rewrite andb_true_r.
    + intros args n Ha. split; [by eexists|]. intros r. cbn. rewrite Ha. reflexivity.
  - intros r. cbv beta. change (lr_time "created_at" r) with (Some (lr_created r)). cbv beta iota.
    unfold time_before. rewrite Hs, negb_involutive, <- bool_decide_not. do 2 f_equal. apply bool_decide_ext. lia.
Qed.
End Where.

Lemma match_string_filter ty tid err at_ f :
  matchStringFilter ty tid err at_ f =
  (bool_decide (mf_Type f = "") || bool_decide (ty = mf_Type f)) &&
  (bool_decide (mf_TraceID f = "") || bool_decide (tid = mf_TraceID f)) && status_ok (mf_Status f) err &&
  (time_is_zero (mf_Since f) || negb (time_before at_ (mf_Since f))).
Proof.
  unfold matchStringFilter, status_ok. rewrite !bool_decide_not.
  destruct (bool_decide (mf_Type f = "")), (bool_decide (ty = mf_Type f)); cbn; try done;
    destruct (bool_decide (mf_TraceID f = "")), (bool_decide (tid = mf_TraceID f)); cbn; try done;
    repeat case_bool_decide; try congruence; cbn; try done;
    by destruct (time_is_zero _), (time_before _ _).
Qed.

(** A null column counts as the empty text. *)
Lemma part_ok_text {R} `{!LogRow R} (r : R) col v :
  part_ok r (col, v) = bool_decide (v = "") || bool_decide (null_text (lr_text col r) = v).
Proof. unfold part_ok. cbn. destruct (lr_text col r) as [t|]; [done|]. cbn. by repeat case_bool_decide. Qed.

(** The page that the reader asks for: without a limit, a hundred. *)
Definition paged (f : MessageFilter) : MessageFilter :=
  mkMsgFilter (mf_Type f) (mf_TraceID f) (mf_AggregateID f) (mf_Status f) (mf_Since f)
    (if bool_decide (mf_Limit f <= 0)%Z then 100%Z else mf_Limit f) (mf_Offset f).

Lemma map_cut {A B} (g : A -> B) f l : map g (cut f l) = cut f (map g l).
Proof. unfold cut. case_bool_decide; rewrite skipn_map; [done|by rewrite firstn_map]. Qed.

Section Log.
Context {W Tx R E : Type} `{!Has (tx_states Tx) W, !LogTable W Tx R, !LogRow R, HL : !LogTableLaws W Tx R}.
Context (entry_of : R -> E).
Abbreviation rows_in w := (log_rows (Tx := Tx) (R := R) w).
Abbreviation scans r := (log_scan (W := W) (Tx := Tx) (R := R) r = inl r).
Abbreviation kept := (lr_keep (R := R) (log_jsonb (W := W) (Tx := Tx) (R := R)) (log_time (W := W) (Tx := Tx) (R := R))).

Lemma record_all_kept (row_of : E -> R) ctx es w :
  log_ok (Tx := Tx) (R := R) w -> log_usable (W := W) (Tx := Tx) (R := R) ctx ->
  Forall (fun e => log_valid (W := W) (Tx := Tx) (row_of e)) es ->
  exists w', record_all (fun e => record_row (Tx := Tx) (row_of e) ctx) es w = (Done None, w') /\
    log_ok (Tx := Tx) (R := R) w' /\ rows_in w' = rows_in w ++ map (fun e => kept (row_of e)) es.
Proof.
  intros Hok Hu Hv. revert w Hok. induction Hv as [|e es He _ IH]; intros w Hok.
  { exists w. cbn. by rewrite app_nil_r. }
  destruct (log_insert_law ctx w (row_of e) Hok Hu He) as (w1 & Hins & Hok1 & Hr1).
  destruct (IH w1 Hok1) as (w2 & Hrun & Hok2 & Hr2). exists w2. split; [|split; [done|]].
  - cbn [record_all]. unfold_go. unfold record_row at 1. unfold_go. rewrite GetQuerier_at, Hins. exact Hrun.
  - rewrite Hr2, Hr1, <- app_assoc. done.
Qed.

Lemma selected_means conds args m w :
  (forall r, forallb (cond_holds lr_text lr_time (log_time (W := W) (Tx := Tx) (R := R))
     (log_like (W := W) (Tx := Tx) (R := R)) args r) conds = m r) -> log_selected (Tx := Tx) conds args w = List.filter m (rows_in w).
Proof. intros Hm. apply filter_ext, Hm. Qed.

Lemma scans_all (rows k : list R) :
  Forall (fun r => scans r) rows -> k ⊆ rows -> map (log_scan (W := W) (Tx := Tx)) k = map inl k.
Proof.
  rewrite Forall_forall. intros Hs Hk. induction k as [|r k IH]; [done|]. cbn. rewrite Hs by (apply Hk, list_elem_of_here).
  rewrite IH; [done|]. intros x Hx. by apply Hk, list_elem_of_further.
Qed.

(** A page of the rows that the query means, newest first, with their number. *)
Lemma pg_query_page one many q m ctx f w :
  text_means (R := R) lr_text lr_time (log_time (W := W) (Tx := Tx) (R := R)) (log_like (W := W) (Tx := Tx) (R := R)) q m ->
  log_ok (Tx := Tx) (R := R) w -> log_usable (W := W) (Tx := Tx) (R := R) ctx ->
  StronglySorted (fun a b => lr_created a < lr_created b)%Z (rows_in w) -> Forall (fun r => scans r) (rows_in w) ->
  exists w', if bool_decide (mf_Offset f < 0)%Z
    then exists e, pg_query (Tx := Tx) entry_of one many q ctx f w = (Done (Err e), w')
    else let l := List.filter m (rev (rows_in w)) in
      pg_query (Tx := Tx) entry_of one many q ctx f w =
        (Done (Ok (mkQueryResult (map entry_of (cut (paged f) l)) (zlen l))), w').
Proof.
  destruct q as [[conds args] idx]. intros (-> & Ht & Hm) Hok Hu Hs Hscan.
  set (limit := if bool_decide (mf_Limit f <= 0)%Z then 100%Z else mf_Limit f).
  assert (0 < limit)%Z as Hl by (unfold limit; case_bool_decide; lia).
  destruct (param_limit args (ArgInt limit) (ArgInt (mf_Offset f))) as [Hp1 Hp2].
  destruct (conds_app lr_text lr_time (log_time (W := W) (Tx := Tx) (R := R)) (log_like (W := W) (Tx := Tx) (R := R))
    args [ArgInt limit; ArgInt (mf_Offset f)] conds Ht) as [Ht' Hm'].
  destruct (log_count_law ctx w conds args Hok Hu Ht) as (w1 & Hcount & [Hok1 Hr1] & Hq).
  destruct (log_select_law ctx w1 conds _ _ _ limit (mf_Offset f) Hok1 Hu Ht' Hp1 Hp2) as (w2 & Hpage); [lia|].
  exists w2. unfold pg_query. unfold_go. rewrite GetQuerier_at, Hcount. fold limit. rewrite <- Hq.
  case_bool_decide as Ho; [destruct Hpage as [e ->]; by eexists|]. destruct Hpage as (l & -> & Hp & Hd).
  rewrite (selected_means conds args m w Hm).
  rewrite (selected_means _ _ m) in Hp by (intros r; by rewrite Hm', Hm). rewrite Hr1 in Hp.
  rewrite (newest_first lr_created l _ (increasing_filter _ m _ Hs) Hp Hd), <- filter_rev.
  rewrite (scans_all (rows_in w)), scan_entries_ok; [|done|].
  - unfold zlen. rewrite <- (length_rev (List.filter m (rows_in w))), <- filter_rev. unfold cut, paged. cbn.
    fold limit. by rewrite (bool_decide_eq_false_2 (limit <= 0)%Z) by lia.
  - intros r (i & Hr & _)%elem_of_take. rewrite lookup_drop in Hr. apply list_elem_of_lookup_2 in Hr.
    by apply list_elem_of_In, filter_In in Hr as [Hr%list_elem_of_In%elem_of_rev _].
Qed.

(** *** The reader and the in-memory one on the same entries *)
Context (row_of : E -> R) (matches : E -> MessageFilter -> bool) (created : E -> Z) (normal : E -> E).
Context (Hcreated : forall e, lr_created (row_of e) = created e).
Context (Hkept : forall r, lr_created (kept r) = log_time (W := W) (Tx := Tx) (R := R) (lr_created r)).
Context (Hnormal : forall e, log_time (W := W) (Tx := Tx) (R := R) (created e) = created e -> entry_of (kept (row_of e)) = normal e).
Context (Hmatches : forall e f, matches (normal e) f = matches e f) (Hpaged : forall e f, matches e (paged f) = matches e f).

(** Entries that the database takes as they are: in the order of their times, which it
    can represent, and readable. *)
Definition recordable (es : list E) : Prop :=
  StronglySorted (fun a b => created a < created b)%Z es /\
  Forall (fun e => log_time (W := W) (Tx := Tx) (R := R) (created e) = created e /\
                   log_valid (W := W) (Tx := Tx) (row_of e) /\ scans (kept (row_of e))) es.

Lemma kept_increasing es : recordable es ->
  StronglySorted (fun a b => lr_created a < lr_created b)%Z (map (fun e => kept (row_of e)) es).
Proof.
  intros [Hs Hf]. induction Hs as [|e es Hs IH Hall]; [constructor|].
  inversion Hf as [|? ? [He _] Hf']; subst. cbn. constructor; [by apply IH|].
  rewrite Forall_forall in Hall, Hf'. apply Forall_forall. intros r (x & -> & Hx)%list_elem_of_fmap.
  destruct (Hf' x Hx) as [Hxt _]. rewrite !Hkept, !Hcreated, He, Hxt. by apply Hall.
Qed.

Lemma kept_matching es f : recordable es ->
  map entry_of (List.filter (fun r => matches (entry_of r) f) (map (fun e => kept (row_of e)) es)) =
  map normal (List.filter (fun e => matches e f) es).
Proof.
  intros [_ Hf]. induction Hf as [|e es [He _] _ IH]; [done|]. cbn. rewrite Hnormal, Hmatches by done.
  destruct (matches e f); [|done]. cbn. by rewrite Hnormal, IH.
Qed.

Lemma pg_log_agrees one many q es f ctx w :
  text_means (R := R) lr_text lr_time (log_time (W := W) (Tx := Tx) (R := R)) (log_like (W := W) (Tx := Tx) (R := R)) q
    (fun r => matches (entry_of r) f) ->
  log_ok (Tx := Tx) (R := R) w -> log_usable (W := W) (Tx := Tx) (R := R) ctx -> rows_in w = [] -> recordable es ->
  exists w1 w2, record_all (fun e => record_row (Tx := Tx) (row_of e) ctx) es w = (Done None, w1) /\
    match query matches es (paged f) with
    | Done page => pg_query (Tx := Tx) entry_of one many q ctx f w1 =
        (Done (Ok (mkQueryResult (map normal (q_Items page)) (Total page))), w2)
    | Panicked _ => (mf_Offset f < 0)%Z /\ exists e, pg_query (Tx := Tx) entry_of one many q ctx f w1 = (Done (Err e), w2)
    end.
Proof.
  intros Hq Hok Hu He Hes. pose proof Hes as [_ Hf].
  destruct (record_all_kept row_of ctx es w Hok Hu) as (w1 & Hrun & Hok1 & Hrows).
  { eapply Forall_impl; [exact Hf|]. by intros e (_ & ? & _). }
  rewrite He in Hrows. cbn in Hrows. exists w1.
  destruct (pg_query_page one many q _ ctx f w1 Hq Hok1 Hu) as (w2 & Hpage).
  { rewrite Hrows. by apply kept_increasing. }
  { rewrite Hrows. apply Forall_fmap. eapply Forall_impl; [exact Hf|]. by intros e (_ & _ & ?). }
  exists w2. split; [done|]. rewrite query_spec. unfold paged at 1. cbn [mf_Offset].
  destruct (bool_decide (mf_Offset f < 0)%Z) eqn:Ho.
  { split; [by apply bool_decide_eq_true in Ho|exact Hpage]. }
  rewrite Hpage, Hrows. cbn [q_Items Total].
  rewrite (filter_ext _ _ (fun e => Hpaged e f) (rev es)), map_cut, !filter_rev, map_rev, kept_matching by done.
  rewrite <- map_rev, <- map_cut. unfold zlen.
  by rewrite !length_rev, <- (length_map entry_of), kept_matching, length_map by done.
Qed.
End Log.

(** ** What is read of an entry: its JSON normalized *)

Definition normal_json (jsonb : string -> string) (data : string) : string :=
  if bool_decide (data = "") then "" else jsonb data.

Definition normal_command (jsonb : string -> string) (e : CommandEntry) : CommandEntry :=
  mkCommandEntry (ce_TraceID e) (ce_SpanID e) (ce_CommandType e) (normal_json jsonb (ce_CommandData e)) (ce_ResultType e)
    (normal_json jsonb (ce_ResultData e)) (ce_Error e) (ce_Duration e) (ce_CreatedAt e).
Definition normal_query (jsonb : string -> string) (e : QueryEntry) : QueryEntry :=
  mkQueryEntry (qe_TraceID e) (qe_SpanID e) (qe_QueryType e) (normal_json jsonb (qe_QueryData e)) (qe_ResultType e)
    (normal_json jsonb (qe_ResultData e)) (qe_Error e) (qe_Duration e) (qe_CreatedAt e).
Definition normal_event (jsonb : string -> string) (e : EventEntry) : EventEntry :=
  mkEventEntry (ee_TraceID e) (ee_SpanID e) (ee_AggregateID e) (ee_EventType e) (normal_json jsonb (ee_EventData e))
    (ee_HandlerCount e) (ee_Error e) (ee_Duration e) (ee_CreatedAt e).

Lemma null_text_string s : null_text (NullString s) = s.
Proof. unfold NullString. by case_bool_decide. Qed.

Lemma null_text_raw jsonb data : null_text (jsonb <$> raw_arg data) = normal_json jsonb data.
Proof. unfold raw_arg, normal_json. by case_bool_decide. Qed.

Section Meant.

Lemma commands_meant (time : Z -> Z) like f : time (mf_Since f) = mf_Since f ->
  text_means lr_text lr_time time like
    (buildWhereClause [("command_type", mf_Type f); ("trace_id", mf_TraceID f)] (mf_Status f) (mf_Since f))
    (fun r => matchCommandFilter (command_of_row r) f).
Proof.
  intros Hs. eapply text_means_ext; [by apply build_means|]. intros r. cbn [forallb]. rewrite !part_ok_text.
  unfold matchCommandFilter. rewrite match_string_filter. cbn [lr_text command_log lr_created].
  by rewrite andb_true_r.
Qed.

Lemma queries_meant (time : Z -> Z) like f : time (mf_Since f) = mf_Since f ->
  text_means lr_text lr_time time like
    (buildWhereClause [("query_type", mf_Type f); ("trace_id", mf_TraceID f)] (mf_Status f) (mf_Since f))
    (fun r => matchQueryFilter (query_of_row r) f).
Proof.
  intros Hs. eapply text_means_ext; [by apply build_means|]. intros r. cbn [forallb]. rewrite !part_ok_text.
  unfold matchQueryFilter. rewrite match_string_filter. cbn [lr_text query_log lr_created].
  by rewrite andb_true_r.
Qed.

Lemma events_meant (time : Z -> Z) like f : time (mf_Since f) = mf_Since f ->
  let parts := [("event_type", mf_Type f); ("trace_id", mf_TraceID f)] in
  text_means lr_text lr_time time like
    (buildWhereClause (if bool_decide (mf_AggregateID f = "") then parts else parts ++ [("aggregate_id", mf_AggregateID f)])
       (mf_Status f) (mf_Since f))
    (fun r => matchEventFilter (event_of_row r) f).
Proof.
  intros Hs parts. eapply text_means_ext; [by apply build_means|]. intros r. unfold matchEventFilter, parts.
  rewrite match_string_filter. cbn [lr_text event_log lr_created].
  rewrite !bool_decide_not. destruct (bool_decide (mf_AggregateID f = "")) eqn:Ha; cbn [forallb app negb andb]; rewrite !part_ok_text.
  - by rewrite andb_true_r.
  - rewrite Ha. cbn [orb].
    change (lr_text "aggregate_id" r) with (er_aggregate_id r). rewrite andb_true_r. cbn [ee_AggregateID event_of_row].
    destruct (bool_decide (null_text (er_aggregate_id r) = mf_AggregateID f)); cbn [negb]; [by rewrite andb_true_r|by rewrite !andb_false_r].
Qed.
End Meant.

(** ** Properties *)

(** The two readers of commands on the same entries: when commands in the order of their times, which
    the database accepts and can represent, are recorded in PostgreSQL, every call succeeds, and for every
    filter a query gives the page and the total that the in-memory reader gives for these commands, their
    JSON normalized; a query without a limit asks for a hundred. Where the in-memory reader panics, on a
    negative offset, PostgreSQL's gives an error. *)
Theorem pg_commands_agree {W Tx} `{!Has (tx_states Tx) W, !LogTable W Tx command_row, HL : !LogTableLaws W Tx command_row}
    ctx (w : W) (s : ObservableMessageStore) f :
  log_ok (Tx := Tx) (R := command_row) w -> log_usable (W := W) (Tx := Tx) (R := command_row) ctx ->
  log_rows (Tx := Tx) (R := command_row) w = [] ->
  recordable (W := W) (Tx := Tx) row_of_command ce_CreatedAt (GetCommands (inner s)) ->
  log_time (W := W) (Tx := Tx) (R := command_row) (mf_Since f) = mf_Since f ->
  exists w1 w2, record_all (pg_RecordCommand (Tx := Tx) ctx) (GetCommands (inner s)) w = (Done None, w1) /\
    match QueryCommands (paged f) s with
    | Done page => pg_QueryCommands (Tx := Tx) ctx f w1 = (Done (Ok (mkQueryResult
        (map (normal_command (log_jsonb (W := W) (Tx := Tx) (R := command_row))) (q_Items page)) (Total page))), w2)
    | Panicked _ => (mf_Offset f < 0)%Z /\ exists e, pg_QueryCommands (Tx := Tx) ctx f w1 = (Done (Err e), w2)
    end.
Proof.
  intros Hok Hu He Hes Hs. apply (pg_log_agrees command_of_row row_of_command matchCommandFilter ce_CreatedAt); try done.
  - intros [t sp ty d rt rd er du at_] Ht. cbn in Ht. unfold command_of_row, normal_command. cbn.
    by rewrite !null_text_raw, !null_text_string, Ht.
  - by apply commands_meant.
Qed.

Lemma pg_queries_agree {W Tx} `{!Has (tx_states Tx) W, !LogTable W Tx query_row, HL : !LogTableLaws W Tx query_row}
    ctx (w : W) (s : ObservableMessageStore) f :
  log_ok (Tx := Tx) (R := query_row) w -> log_usable (W := W) (Tx := Tx) (R := query_row) ctx ->
  log_rows (Tx := Tx) (R := query_row) w = [] ->
  recordable (W := W) (Tx := Tx) row_of_query qe_CreatedAt (GetQueries (inner s)) ->
  log_time (W := W) (Tx := Tx) (R := query_row) (mf_Since f) = mf_Since f ->
  exists w1 w2, record_all (pg_RecordQuery (Tx := Tx) ctx) (GetQueries (inner s)) w = (Done None, w1) /\
    match QueryQueries (paged f) s with
    | Done page => pg_QueryQueries (Tx := Tx) ctx f w1 = (Done (Ok (mkQueryResult
        (map (normal_query (log_jsonb (W := W) (Tx := Tx) (R := query_row))) (q_Items page)) (Total page))), w2)
    | Panicked _ => (mf_Offset f < 0)%Z /\ exists e, pg_QueryQueries (Tx := Tx) ctx f w1 = (Done (Err e), w2)
    end.
Proof.
  intros Hok Hu He Hes Hs. apply (pg_log_agrees query_of_row row_of_query matchQueryFilter qe_CreatedAt); try done.
  - intros [t sp ty d rt rd er du at_] Ht. cbn in Ht. unfold query_of_row, normal_query. cbn.
    by rewrite !null_text_raw, !null_text_string, Ht.
  - by apply queries_meant.
Qed.

Lemma pg_events_agree {W Tx} `{!Has (tx_states Tx) W, !LogTable W Tx event_row, HL : !LogTableLaws W Tx event_row}
    ctx (w : W) (s : ObservableMessageStore) f :
  log_ok (Tx := Tx) (R := event_row) w -> log_usable (W := W) (Tx := Tx) (R := event_row) ctx ->
  log_rows (Tx := Tx) (R := event_row) w = [] ->
  recordable (W := W) (Tx := Tx) row_of_event ee_CreatedAt (GetEvents (inner s)) ->
  log_time (W := W) (Tx := Tx) (R := event_row) (mf_Since f) = mf_Since f ->
  exists w1 w2, record_all (pg_RecordEvent (Tx := Tx) ctx) (GetEvents (inner s)) w = (Done None, w1) /\
    match QueryEvents (paged f) s with
    | Done page => pg_QueryEvents (Tx := Tx) ctx f w1 = (Done (Ok (mkQueryResult
        (map (normal_event (log_jsonb (W := W) (Tx := Tx) (R := event_row))) (q_Items page)) (Total page))), w2)
    | Panicked _ => (mf_Offset f < 0)%Z /\ exists e, pg_QueryEvents (Tx := Tx) ctx f w1 = (Done (Err e), w2)
    end.
Proof.
  intros Hok Hu He Hes Hs. apply (pg_log_agrees event_of_row row_of_event matchEventFilter ee_CreatedAt); try done.
  - intros [t sp a ty d n er du at_] Ht. cbn in Ht. unfold event_of_row, normal_event. cbn.
    by rewrite !null_text_raw, !null_text_string, Ht.
  - by apply events_meant.
Qed.

(** ** A concrete table *)
Module DemoPgMessages.
Record world := mkWorld { table : list command_row; txs : tx_states unit }.
#[export] Instance demo_txs : Has (tx_states unit) world := { part := txs; set_part t w := mkWorld (table w) t }.

Definition newer (a b : command_row) : bool := bool_decide (cr_created_at b <= cr_created_at a)%Z.
Fixpoint insert_new (r : command_row) (l : list command_row) : list command_row :=
  match l with
  | [] => [r]
  | x :: l' => if newer r x then r :: l else x :: insert_new r l'
  end.
Definition newest (l : list command_row) : list command_row := fold_right insert_new [] l.
Abbreviation sorted := (Sorted (fun a b => lr_created b <= lr_created a)%Z) (only parsing).

Lemma newest_perm l : newest l ≡ₚ l.
Proof.
  assert (forall r k, insert_new r k ≡ₚ r :: k) as Hi.
  { intros r k. induction k as [|x k IH]; [done|]. cbn. destruct (newer r x); [done|]. by rewrite IH, Permutation_swap. }
  induction l as [|r l IH]; [done|]. cbn. by rewrite Hi, IH.
Qed.

Lemma newest_sorted l : sorted (newest l).
Proof.
  assert (forall r k, sorted k -> sorted (insert_new r k)) as Hi.
  { intros r k. induction 1 as [|x k Hk IHk Hhd]; [repeat constructor|]. cbn. unfold newer.
    case_bool_decide; [constructor; [by constructor|by constructor]|]. constructor; [done|].
    destruct Hhd as [|y k' Hy]; cbn; [constructor; cbn; lia|]. unfold newer. case_bool_decide; constructor; [cbn; lia|done]. }
  induction l as [|r l IH]; [constructor|]. by apply Hi.
Qed.

Definition selected (conds : list sql_cond) (args : list sql_arg) (w : world) : list command_row :=
  List.filter (fun r => forallb (cond_holds lr_text lr_time (fun t => t) DemoLike.demo_like args r) conds) (table w).

#[export] Instance demo_table : LogTable world unit command_row := {
  log_insert _ _ r := fun w => (Done None, mkWorld (table w ++ [lr_keep (fun d => d) (fun t => t) r]) (txs w));
  log_count _ _ conds args := fun w => (Done (inl (zlen (selected conds args w))), w);
  log_select _ _ conds n m args := fun w =>
    (Done (match sql_param args n, sql_param args m with
           | Some (ArgInt limit), Some (ArgInt offset) =>
               if bool_decide (offset < 0)%Z then inr (ENew "OFFSET must not be negative")
               else inl (map inl (take (Z.to_nat limit) (drop (Z.to_nat offset) (newest (selected conds args w)))), None)
           | _, _ => inr (ENew "invalid input syntax for type bigint")
           end), w) }.

#[export] Program Instance demo_laws : LogTableLaws world unit command_row := {
  log_ok _ := True;
  log_usable _ := True;
  log_rows := table;
  log_jsonb d := d;
  log_time t := t;
  log_like := DemoLike.demo_like;
  log_valid _ := True;
  log_scan := inl }.
Next Obligation. intros ctx w r _ _ _. eexists. by split_and!. Qed.
Next Obligation. intros ctx w conds args _ _ _. exists w. by split_and!. Qed.
Next Obligation.
  intros ctx w conds n m args limit offset _ _ _ Hn Hm Hl. exists w. cbn. rewrite Hn, Hm.
  case_bool_decide; [by eexists|]. eexists. split; [reflexivity|]. split; [apply newest_perm|apply newest_sorted].
Qed.

Definition w0 : world := mkWorld [] [].
(** The payments of the store of [Messages], the second page of one. *)
Definition second_payment : MessageFilter := mkMsgFilter "Pay" "" "" "success" 0 1 1.
End DemoPgMessages.
Import DemoPgMessages.

Lemma pg_commands_agree_witness :
  exists w1 w2, record_all (pg_RecordCommand (Tx := unit) Background) (GetCommands (inner Messages.DemoMessages.store)) w0 =
      (Done None, w1) /\
    pg_QueryCommands (Tx := unit) Background second_payment w1 =
      (Done (Ok (mkQueryResult [Messages.DemoMessages.entry "Pay" "" 1] 2)), w2).
Proof.
  destruct (pg_commands_agree (HL := demo_laws) Background w0 Messages.DemoMessages.store second_payment)
    as (w1 & w2 & H1 & H2); [exact I|exact I|reflexivity| |reflexivity|].
  - split; repeat constructor.
  - exists w1, w2. split; [exact H1|]. exact H2.
Defined.
