(* ===== verification/Schema.v ===== *)
(** * The database schema: [src/pg/migrate.go], [src/observability/schema_reader.go],
    [schema_types.go], [src/observability/pg/schema_reader.go]

    The migrations, the schema that the in-memory reader knows by heart and the
    reader of PostgreSQL's catalog. The statements are a parameter; what PostgreSQL
    documents of the data definition statements of the migrations is the function
    [parse_ddl] on their text with [exec_ddl]. *)

From S2P Require Import Prelude Errors Trace Pg PgMessages.

(** ** Types ([schema_types.go]) *)

Record TableInfo := mkTableInfo {
  ti_Name : string;
  ti_Description : string;
  RowCount : Z;
  LastUpdated : option Z;
  DiskSize : Z;
  AvgRowSize : Z }.

Record ColumnInfo := mkColumn {
  ci_Name : string;
  ci_Type : string;
  Nullable : bool;
  DefaultValue : string;
  IsPrimaryKey : bool;
  ci_Description : string }.

Record IndexInfo := mkIndex { ii_Name : string; ii_Columns : list string; ii_Unique : bool }.
Record TableDetail := mkTable { td_info : TableInfo; td_Columns : list ColumnInfo; td_Indexes : list IndexInfo }.
Record TableRelation := mkRelation { FromTable : string; FromColumn : string; ToTable : string; ToColumn : string }.

(** ** Migrations ([migrate.go]) *)

Definition tables : list string := [
  "ddd_event_handler_log"; "ddd_event_log"; "ddd_query_log"; "ddd_command_log"; "ddd_aggregate_snapshots";
  "ddd_spans"; "ddd_job_execution_log"; "ddd_jobs"; "ddd_domain_events"].

Definition migrate_statements : list string := [
  "CREATE TABLE IF NOT EXISTS ddd_domain_events (
			id             BIGSERIAL PRIMARY KEY,
			aggregate_id   TEXT NOT NULL,
			event_type     TEXT NOT NULL,
			event_data     JSONB NOT NULL,
			occurred_at    TIMESTAMPTZ NOT NULL,
			version        INT NOT NULL DEFAULT 0,
			correlation_id TEXT NOT NULL DEFAULT '',
			causation_id   TEXT NOT NULL DEFAULT '',
			UNIQUE(aggregate_id, version)
		)";
  "CREATE INDEX IF NOT EXISTS idx_ddd_events_aggregate ON ddd_domain_events(aggregate_id, version)";
  "CREATE TABLE IF NOT EXISTS ddd_jobs (
			id           TEXT PRIMARY KEY,
			command      JSONB NOT NULL,
			command_type TEXT NOT NULL,
			status       TEXT NOT NULL,
			result       JSONB,
			result_type  TEXT,
			error        TEXT,
			created_at   TIMESTAMPTZ NOT NULL,
			started_at   TIMESTAMPTZ,
			completed_at TIMESTAMPTZ,
			timeout_ns   BIGINT DEFAULT 0,
			retry_count  INT DEFAULT 0,
			max_retries  INT DEFAULT 0
		)";
  "CREATE TABLE IF NOT EXISTS ddd_job_execution_log (
			id           BIGSERIAL PRIMARY KEY,
			job_id       TEXT NOT NULL,
			attempt      INT NOT NULL,
			status       TEXT NOT NULL,
			error        TEXT,
			started_at   TIMESTAMPTZ NOT NULL,
			completed_at TIMESTAMPTZ,
			duration_ns  BIGINT
		)";
  "CREATE INDEX IF NOT EXISTS idx_ddd_jel_job ON ddd_job_execution_log(job_id)";
  "CREATE TABLE IF NOT EXISTS ddd_spans (
			id          TEXT PRIMARY KEY,
			trace_id    TEXT NOT NULL,
			parent_id   TEXT,
			type        TEXT NOT NULL,
			name        TEXT NOT NULL,
			status      TEXT NOT NULL,
			error       TEXT,
			started_at  TIMESTAMPTZ NOT NULL,
			duration_ns BIGINT NOT NULL
		)";
  "CREATE INDEX IF NOT EXISTS idx_ddd_spans_trace ON ddd_spans(trace_id)";
  "CREATE TABLE IF NOT EXISTS ddd_aggregate_snapshots (
			aggregate_id   TEXT PRIMARY KEY,
			aggregate_type TEXT NOT NULL,
			snapshot_data  JSONB NOT NULL,
			version        INT NOT NULL DEFAULT 0,
			updated_at     TIMESTAMPTZ NOT NULL
		)";
  "CREATE TABLE IF NOT EXISTS ddd_command_log (
			id            BIGSERIAL PRIMARY KEY,
			trace_id      TEXT,
			span_id       TEXT,
			command_type  TEXT NOT NULL,
			command_data  JSONB,
			result_type   TEXT,
			result_data   JSONB,
			error         TEXT,
			duration_ns   BIGINT,
			created_at    TIMESTAMPTZ NOT NULL
		)";
  "CREATE INDEX IF NOT EXISTS idx_ddd_command_log_type ON ddd_command_log(command_type)";
  "CREATE INDEX IF NOT EXISTS idx_ddd_command_log_trace ON ddd_command_log(trace_id)";
  "CREATE TABLE IF NOT EXISTS ddd_query_log (
			id           BIGSERIAL PRIMARY KEY,
			trace_id     TEXT,
			span_id      TEXT,
			query_type   TEXT NOT NULL,
			query_data   JSONB NOT NULL,
			result_type  TEXT,
			result_data  JSONB,
			error        TEXT,
			duration_ns  BIGINT,
			created_at   TIMESTAMPTZ NOT NULL
		)";
  "CREATE INDEX IF NOT EXISTS idx_ddd_query_log_type ON ddd_query_log(query_type)";
  "CREATE INDEX IF NOT EXISTS idx_ddd_query_log_trace ON ddd_query_log(trace_id)";
  "CREATE TABLE IF NOT EXISTS ddd_event_log (
			id            BIGSERIAL PRIMARY KEY,
			trace_id      TEXT,
			span_id       TEXT,
			aggregate_id  TEXT NOT NULL,
			event_type    TEXT NOT NULL,
			event_data    JSONB NOT NULL,
			handler_count INT DEFAULT 0,
			error         TEXT,
			duration_ns   BIGINT,
			created_at    TIMESTAMPTZ NOT NULL
		)";
  "CREATE INDEX IF NOT EXISTS idx_ddd_event_log_type ON ddd_event_log(event_type)";
  "CREATE INDEX IF NOT EXISTS idx_ddd_event_log_aggregate ON ddd_event_log(aggregate_id)";
  "CREATE INDEX IF NOT EXISTS idx_ddd_event_log_trace ON ddd_event_log(trace_id)";
  "CREATE TABLE IF NOT EXISTS ddd_event_handler_log (
			id            BIGSERIAL PRIMARY KEY,
			event_log_id  BIGINT,
			trace_id      TEXT,
			span_id       TEXT,
			aggregate_id  TEXT NOT NULL,
			event_type    TEXT NOT NULL,
			handler_type  TEXT NOT NULL,
			status        TEXT NOT NULL,
			error         TEXT,
			duration_ns   BIGINT,
			created_at    TIMESTAMPTZ NOT NULL
		)";
  "CREATE INDEX IF NOT EXISTS idx_ddd_ehl_event_log ON ddd_event_handler_log(event_log_id)";
  "CREATE INDEX IF NOT EXISTS idx_ddd_ehl_handler ON ddd_event_handler_log(handler_type)";
  "CREATE INDEX IF NOT EXISTS idx_ddd_ehl_status ON ddd_event_handler_log(status)"].

Definition drop_statements : list string := map (fun t => "DROP TABLE IF EXISTS " +:+ t +:+ " CASCADE") tables.

Section Migrations.
Context {W : Type} (db_Exec : string -> GoM W error).

Fixpoint exec_all (statements : list string) : GoM W error :=
  match statements with
  | [] => mret None
  | stmt :: rest =>
      err ← db_Exec stmt;
      match err with Some err => mret (Some err) | None => exec_all rest end
  end.

Definition Migrate : GoM W error := exec_all migrate_statements.
Definition DropAll : GoM W error := exec_all drop_statements.
Definition TruncateAll : GoM W error := exec_all (map (fun t => "TRUNCATE TABLE " +:+ t +:+ " CASCADE") tables).
End Migrations.

(** ** The in-memory reader ([schema_reader.go]) *)

Definition StaticRelations : list TableRelation := [
  mkRelation "ddd_job_execution_log" "job_id" "ddd_jobs" "id";
  mkRelation "ddd_event_handler_log" "event_log_id" "ddd_event_log" "id"].

(** A map literal, read with the zero value for an absent key. *)
Fixpoint describe {K} `{!EqDecision K} (descs : list (K * string)) (k : K) : string :=
  match descs with
  | [] => ""
  | (k', d) :: rest => if bool_decide (k = k') then d else describe rest k
  end.

Definition table_descs : list (string * string) := [
  ("ddd_domain_events", "事件溯源事件存储");
  ("ddd_jobs", "异步任务队列");
  ("ddd_job_execution_log", "任务执行日志");
  ("ddd_spans", "分布式追踪");
  ("ddd_aggregate_snapshots", "聚合快照");
  ("ddd_command_log", "命令审计日志");
  ("ddd_query_log", "查询审计日志");
  ("ddd_event_log", "事件审计日志");
  ("ddd_event_handler_log", "事件处理器日志")].
Definition TableDescription (name : string) : string := describe table_descs name.
Arguments TableDescription : simpl never.

Definition named_table (name : string) : TableInfo := mkTableInfo name (TableDescription name) 0 None 0 0.

Definition staticSchema : list TableDetail := [
  mkTable (named_table "ddd_domain_events") [
    mkColumn "id" "BIGSERIAL" false "" true "自增主键";
    mkColumn "aggregate_id" "TEXT" false "" false "聚合ID";
    mkColumn "event_type" "TEXT" false "" false "事件类型";
    mkColumn "event_data" "JSONB" false "" false "事件数据";
    mkColumn "occurred_at" "TIMESTAMPTZ" false "" false "发生时间";
    mkColumn "version" "INT" false "0" false "版本号";
    mkColumn "correlation_id" "TEXT" false "''" false "关联ID";
    mkColumn "causation_id" "TEXT" false "''" false "因果ID"] [
    mkIndex "ddd_domain_events_pkey" ["id"] true;
    mkIndex "ddd_domain_events_aggregate_id_version_key" ["aggregate_id"; "version"] true;
    mkIndex "idx_ddd_events_aggregate" ["aggregate_id"; "version"] false];
  mkTable (named_table "ddd_jobs") [
    mkColumn "id" "TEXT" false "" true "任务ID";
    mkColumn "command" "JSONB" false "" false "命令数据";
    mkColumn "command_type" "TEXT" false "" false "命令类型";
    mkColumn "status" "TEXT" false "" false "任务状态";
    mkColumn "result" "JSONB" true "" false "执行结果";
    mkColumn "result_type" "TEXT" true "" false "结果类型";
    mkColumn "error" "TEXT" true "" false "错误信息";
    mkColumn "created_at" "TIMESTAMPTZ" false "" false "创建时间";
    mkColumn "started_at" "TIMESTAMPTZ" true "" false "开始时间";
    mkColumn "completed_at" "TIMESTAMPTZ" true "" false "完成时间";
    mkColumn "timeout_ns" "BIGINT" true "0" false "超时(纳秒)";
    mkColumn "retry_count" "INT" true "0" false "重试次数";
    mkColumn "max_retries" "INT" true "0" false "最大重试次数"] [
    mkIndex "ddd_jobs_pkey" ["id"] true];
  mkTable (named_table "ddd_job_execution_log") [
    mkColumn "id" "BIGSERIAL" false "" true "自增主键";
    mkColumn "job_id" "TEXT" false "" false "任务ID";
    mkColumn "attempt" "INT" false "" false "尝试次数";
    mkColumn "status" "TEXT" false "" false "执行状态";
    mkColumn "error" "TEXT" true "" false "错误信息";
    mkColumn "started_at" "TIMESTAMPTZ" false "" false "开始时间";
    mkColumn "completed_at" "TIMESTAMPTZ" true "" false "完成时间";
    mkColumn "duration_ns" "BIGINT" true "" false "耗时(纳秒)"] [
    mkIndex "ddd_job_execution_log_pkey" ["id"] true;
    mkIndex "idx_ddd_jel_job" ["job_id"] false];
  mkTable (named_table "ddd_spans") [
    mkColumn "id" "TEXT" false "" true "Span ID";
    mkColumn "trace_id" "TEXT" false "" false "追踪ID";
    mkColumn "parent_id" "TEXT" true "" false "父Span ID";
    mkColumn "type" "TEXT" false "" false "类型";
    mkColumn "name" "TEXT" false "" false "名称";
    mkColumn "status" "TEXT" false "" false "状态";
    mkColumn "error" "TEXT" true "" false "错误信息";
    mkColumn "started_at" "TIMESTAMPTZ" false "" false "开始时间";
    mkColumn "duration_ns" "BIGINT" false "" false "耗时(纳秒)"] [
    mkIndex "ddd_spans_pkey" ["id"] true;
    mkIndex "idx_ddd_spans_trace" ["trace_id"] false];
  mkTable (named_table "ddd_aggregate_snapshots") [
    mkColumn "aggregate_id" "TEXT" false "" true "聚合ID";
    mkColumn "aggregate_type" "TEXT" false "" false "聚合类型";
    mkColumn "snapshot_data" "JSONB" false "" false "快照数据";
    mkColumn "version" "INT" false "0" false "版本号";
    mkColumn "updated_at" "TIMESTAMPTZ" false "" false "更新时间"] [
    mkIndex "ddd_aggregate_snapshots_pkey" ["aggregate_id"] true];
  mkTable (named_table "ddd_command_log") [
    mkColumn "id" "BIGSERIAL" false "" true "自增主键";
    mkColumn "trace_id" "TEXT" true "" false "追踪ID";
    mkColumn "span_id" "TEXT" true "" false "Span ID";
    mkColumn "command_type" "TEXT" false "" false "命令类型";
    mkColumn "command_data" "JSONB" true "" false "命令数据";
    mkColumn "result_type" "TEXT" true "" false "结果类型";
    mkColumn "result_data" "JSONB" true "" false "结果数据";
    mkColumn "error" "TEXT" true "" false "错误信息";
    mkColumn "duration_ns" "BIGINT" true "" false "耗时(纳秒)";
    mkColumn "created_at" "TIMESTAMPTZ" false "" false "创建时间"] [
    mkIndex "ddd_command_log_pkey" ["id"] true;
    mkIndex "idx_ddd_command_log_type" ["command_type"] false;
    mkIndex "idx_ddd_command_log_trace" ["trace_id"] false];
  mkTable (named_table "ddd_query_log") [
    mkColumn "id" "BIGSERIAL" false "" true "自增主键";
    mkColumn "trace_id" "TEXT" true "" false "追踪ID";
    mkColumn "span_id" "TEXT" true "" false "Span ID";
    mkColumn "query_type" "TEXT" false "" false "查询类型";
    mkColumn "query_data" "JSONB" false "" false "查询数据";
    mkColumn "result_type" "TEXT" true "" false "结果类型";
    mkColumn "result_data" "JSONB" true "" false "结果数据";
    mkColumn "error" "TEXT" true "" false "错误信息";
    mkColumn "duration_ns" "BIGINT" true "" false "耗时(纳秒)";
    mkColumn "created_at" "TIMESTAMPTZ" false "" false "创建时间"] [
    mkIndex "ddd_query_log_pkey" ["id"] true;
    mkIndex "idx_ddd_query_log_type" ["query_type"] false;
    mkIndex "idx_ddd_query_log_trace" ["trace_id"] false];
  mkTable (named_table "ddd_event_log") [
    mkColumn "id" "BIGSERIAL" false "" true "自增主键";
    mkColumn "trace_id" "TEXT" true "" false "追踪ID";
    mkColumn "span_id" "TEXT" true "" false "Span ID";
    mkColumn "aggregate_id" "TEXT" false "" false "聚合ID";
    mkColumn "event_type" "TEXT" false "" false "事件类型";
    mkColumn "event_data" "JSONB" false "" false "事件数据";
    mkColumn "handler_count" "INT" true "0" false "处理器数量";
    mkColumn "error" "TEXT" true "" false "错误信息";
    mkColumn "duration_ns" "BIGINT" true "" false "耗时(纳秒)";
    mkColumn "created_at" "TIMESTAMPTZ" false "" false "创建时间"] [
    mkIndex "ddd_event_log_pkey" ["id"] true;
    mkIndex "idx_ddd_event_log_type" ["event_type"] false;
    mkIndex "idx_ddd_event_log_aggregate" ["aggregate_id"] false;
    mkIndex "idx_ddd_event_log_trace" ["trace_id"] false];
  mkTable (named_table "ddd_event_handler_log") [
    mkColumn "id" "BIGSERIAL" false "" true "自增主键";
    mkColumn "event_log_id" "BIGINT" true "" false "事件日志ID";
    mkColumn "trace_id" "TEXT" true "" false "追踪ID";
    mkColumn "span_id" "TEXT" true "" false "Span ID";
    mkColumn "aggregate_id" "TEXT" false "" false "聚合ID";
    mkColumn "event_type" "TEXT" false "" false "事件类型";
    mkColumn "handler_type" "TEXT" false "" false "处理器类型";
    mkColumn "status" "TEXT" false "" false "执行状态";
    mkColumn "error" "TEXT" true "" false "错误信息";
    mkColumn "duration_ns" "BIGINT" true "" false "耗时(纳秒)";
    mkColumn "created_at" "TIMESTAMPTZ" false "" false "创建时间"] [
    mkIndex "ddd_event_handler_log_pkey" ["id"] true;
    mkIndex "idx_ddd_ehl_event_log" ["event_log_id"] false;
    mkIndex "idx_ddd_ehl_handler" ["handler_type"] false;
    mkIndex "idx_ddd_ehl_status" ["status"] false]].

Definition mem_ListTables : result (list TableInfo) :=
  Ok (map (fun t => let i := td_info t in
    mkTableInfo (ti_Name i) (ti_Description i) (-1) (LastUpdated i) (-1) (-1)) staticSchema).

(** [quote] is [%q]. *)
Definition table_not_found (quote : string -> string) (name : string) : goerr :=
  ENew ("table " +:+ quote name +:+ " not found").

Definition mem_GetTable (quote : string -> string) (name : string) : result TableDetail :=
  match list_find (fun t => ti_Name (td_info t) = name) staticSchema with
  | Some (_, t) => Ok t
  | None => Err (table_not_found quote name)
  end.

Definition mem_ListRelations : result (list TableRelation) := Ok StaticRelations.

(** ** The reader of PostgreSQL's catalog ([pg/schema_reader.go]) *)

Record column_row := mkColumnRow { wr_name : string; wr_type : string; wr_nullable : string; wr_default : option string }.

Class SchemaTables (W Tx : Type) := {
  (** [SELECT table_name FROM information_schema.tables ... LIKE 'ddd_%' ...] *)
  sch_names : option Tx -> context -> GoM W (query_result string);
  (** [SELECT count( * ) FROM <name>] and [Scan] *)
  sch_count : option Tx -> context -> string -> GoM W (Z + goerr);
  (** [SELECT pg_total_relation_size($1)] *)
  sch_size : option Tx -> context -> string -> GoM W (Z + goerr);
  (** [SELECT max(created_at) FROM <name>] *)
  sch_max_created : option Tx -> context -> string -> GoM W (option Z + goerr);
  (** [SELECT count( * ) FROM information_schema.columns ...] *)
  sch_has : option Tx -> context -> string -> string -> GoM W (Z + goerr);
  (** [SELECT column_name, ... FROM information_schema.columns ... ORDER BY ordinal_position] *)
  sch_columns : option Tx -> context -> string -> GoM W (query_result column_row);
  (** the columns of the primary key *)
  sch_pk : option Tx -> context -> string -> GoM W (query_result string);
  (** [SELECT indexname, indexdef FROM pg_indexes ...] *)
  sch_indexes : option Tx -> context -> string -> GoM W (query_result (string * string));
  (** the foreign keys *)
  sch_foreign : option Tx -> context -> GoM W (query_result TableRelation) }.

Definition column_descs : list (string * string * string) := [
  ("ddd_domain_events", "id", "自增主键");
  ("ddd_domain_events", "aggregate_id", "聚合ID");
  ("ddd_domain_events", "event_type", "事件类型");
  ("ddd_domain_events", "event_data", "事件数据");
  ("ddd_domain_events", "occurred_at", "发生时间");
  ("ddd_domain_events", "version", "版本号");
  ("ddd_domain_events", "correlation_id", "关联ID");
  ("ddd_domain_events", "causation_id", "因果ID");
  ("ddd_jobs", "id", "任务ID");
  ("ddd_jobs", "command", "命令数据");
  ("ddd_jobs", "command_type", "命令类型");
  ("ddd_jobs", "status", "任务状态");
  ("ddd_jobs", "result", "执行结果");
  ("ddd_jobs", "result_type", "结果类型");
  ("ddd_jobs", "error", "错误信息");
  ("ddd_jobs", "created_at", "创建时间");
  ("ddd_jobs", "started_at", "开始时间");
  ("ddd_jobs", "completed_at", "完成时间");
  ("ddd_jobs", "timeout_ns", "超时(纳秒)");
  ("ddd_jobs", "retry_count", "重试次数");
  ("ddd_jobs", "max_retries", "最大重试次数");
  ("ddd_job_execution_log", "id", "自增主键");
  ("ddd_job_execution_log", "job_id", "任务ID");
  ("ddd_job_execution_log", "attempt", "尝试次数");
  ("ddd_job_execution_log", "status", "执行状态");
  ("ddd_job_execution_log", "error", "错误信息");
  ("ddd_job_execution_log", "started_at", "开始时间");
  ("ddd_job_execution_log", "completed_at", "完成时间");
  ("ddd_job_execution_log", "duration_ns", "耗时(纳秒)");
  ("ddd_spans", "id", "Span ID");
  ("ddd_spans", "trace_id", "追踪ID");
  ("ddd_spans", "parent_id", "父Span ID");
  ("ddd_spans", "type", "类型");
  ("ddd_spans", "name", "名称");
  ("ddd_spans", "status", "状态");
  ("ddd_spans", "error", "错误信息");
  ("ddd_spans", "started_at", "开始时间");
  ("ddd_spans", "duration_ns", "耗时(纳秒)");
  ("ddd_aggregate_snapshots", "aggregate_id", "聚合ID");
  ("ddd_aggregate_snapshots", "aggregate_type", "聚合类型");
  ("ddd_aggregate_snapshots", "snapshot_data", "快照数据");
  ("ddd_aggregate_snapshots", "version", "版本号");
  ("ddd_aggregate_snapshots", "updated_at", "更新时间");
  ("ddd_command_log", "id", "自增主键");
  ("ddd_command_log", "trace_id", "追踪ID");
  ("ddd_command_log", "span_id", "Span ID");
  ("ddd_command_log", "command_type", "命令类型");
  ("ddd_command_log", "command_data", "命令数据");
  ("ddd_command_log", "result_type", "结果类型");
  ("ddd_command_log", "result_data", "结果数据");
  ("ddd_command_log", "error", "错误信息");
  ("ddd_command_log", "duration_ns", "耗时(纳秒)");
  ("ddd_command_log", "created_at", "创建时间");
  ("ddd_query_log", "id", "自增主键");
  ("ddd_query_log", "trace_id", "追踪ID");
  ("ddd_query_log", "span_id", "Span ID");
  ("ddd_query_log", "query_type", "查询类型");
  ("ddd_query_log", "query_data", "查询数据");
  ("ddd_query_log", "result_type", "结果类型");
  ("ddd_query_log", "result_data", "结果数据");
  ("ddd_query_log", "error", "错误信息");
  ("ddd_query_log", "duration_ns", "耗时(纳秒)");
  ("ddd_query_log", "created_at", "创建时间");
  ("ddd_event_log", "id", "自增主键");
  ("ddd_event_log", "trace_id", "追踪ID");
  ("ddd_event_log", "span_id", "Span ID");
  ("ddd_event_log", "aggregate_id", "聚合ID");
  ("ddd_event_log", "event_type", "事件类型");
  ("ddd_event_log", "event_data", "事件数据");
  ("ddd_event_log", "handler_count", "处理器数量");
  ("ddd_event_log", "error", "错误信息");
  ("ddd_event_log", "duration_ns", "耗时(纳秒)");
  ("ddd_event_log", "created_at", "创建时间");
  ("ddd_event_handler_log", "id", "自增主键");
  ("ddd_event_handler_log", "event_log_id", "事件日志ID");
  ("ddd_event_handler_log", "trace_id", "追踪ID");
  ("ddd_event_handler_log", "span_id", "Span ID");
  ("ddd_event_handler_log", "aggregate_id", "聚合ID");
  ("ddd_event_handler_log", "event_type", "事件类型");
  ("ddd_event_handler_log", "handler_type", "处理器类型");
  ("ddd_event_handler_log", "status", "执行状态");
  ("ddd_event_handler_log", "error", "错误信息");
  ("ddd_event_handler_log", "duration_ns", "耗时(纳秒)");
  ("ddd_event_handler_log", "created_at", "创建时间")].
Definition columnDescription (tableName columnName : string) : string := describe column_descs (tableName, columnName).
Arguments columnDescription : simpl never.

(** [strings.Index] as a slice around a one-byte separator. *)
Fixpoint cut_at (c : Ascii.ascii) (s : string) : option (string * string) :=
  match s with
  | EmptyString => None
  | String b s' =>
      if Ascii.eqb b c then Some ("", s')
      else match cut_at c s' with Some (x, y) => Some (String b x, y) | None => None end
  end.

Definition is_space (c : Ascii.ascii) : bool :=
  let n := Ascii.nat_of_ascii c in bool_decide (n = 32) || (bool_decide (9 <= n) && bool_decide (n <= 13)).

(** [strings.TrimSpace] on ASCII. *)
Fixpoint trim_left (s : string) : string :=
  match s with String c s' => if is_space c then trim_left s' else s | EmptyString => EmptyString end.
Fixpoint trim_right (s : string) : string :=
  match s with
  | EmptyString => EmptyString
  | String c s' =>
      match trim_right s' with
      | EmptyString => if is_space c then EmptyString else String c EmptyString
      | t => String c t
      end
  end.
Definition TrimSpace (s : string) : string := trim_right (trim_left s).

Definition paren_open : Ascii.ascii := Ascii.ascii_of_nat 40.
Definition paren_close : Ascii.ascii := Ascii.ascii_of_nat 41.
Definition comma_byte : Ascii.ascii := Ascii.ascii_of_nat 44.
Definition space_byte : Ascii.ascii := Ascii.ascii_of_nat 32.

Definition index_column (p : string) : option string :=
  let col := TrimSpace p in
  let col := match cut_at space_byte col with Some (String _ _ as c, _) => c | _ => col end in
  if bool_decide (col = "") then None else Some col.

Definition parseIndexColumns (indexDef : string) : list string :=
  match cut_at paren_open indexDef with
  | None => []
  | Some (_, rest) =>
      match cut_at paren_close rest with
      | None => []
      | Some (inner, _) => omap index_column (str_split comma_byte inner)
      end
  end.

(** [strings.ToUpper] on ASCII. *)
Fixpoint ToUpper (s : string) : string :=
  match s with
  | EmptyString => EmptyString
  | String c s' =>
      let n := Ascii.nat_of_ascii c in
      String (if bool_decide (97 <= n) && bool_decide (n <= 122) then Ascii.ascii_of_nat (n - 32) else c) (ToUpper s')
  end.

(** The loops over rows of one text, whose errors are returned as they are. *)
Fixpoint collect_rows {R} (rows : list (R + goerr)) (rows_err : error) : result (list R) :=
  match rows with
  | [] => match rows_err with Some e => Err e | None => Ok [] end
  | inr e :: _ => Err e
  | inl r :: rest => match collect_rows rest rows_err with Ok l => Ok (r :: l) | Err e => Err e end
  end.

Section Reader.
Context {W Tx : Type} `{!Has (tx_states Tx) W, !SchemaTables W Tx} (quote : string -> string).

(** [Scan] into a variable that keeps its zero when the query fails. *)
Definition scanned {A} (zero : A) (r : A + goerr) : A := match r with inl x => x | inr _ => zero end.

Definition hasColumn (q : option Tx) (ctx : context) (tableName columnName : string) : GoM W bool :=
  r ← sch_has q ctx tableName columnName;
  mret (match r with inl count => bool_decide (0 < count)%Z | inr _ => false end).

(** The part that [ListTables] and [GetTable] share. *)
Definition table_info (q : option Tx) (ctx : context) (name : string) : GoM W TableInfo :=
  count ← sch_count q ctx name;
  size ← sch_size q ctx name;
  dated ← hasColumn q ctx name "created_at";
  lastUpdated ← (if dated : bool then r ← sch_max_created q ctx name; mret (scanned None r) else mret None);
  mret (mkTableInfo name (TableDescription name) (scanned 0%Z count) lastUpdated (scanned 0%Z size) 0).

Definition pg_ListTables (ctx : context) : GoM W (result (list TableInfo)) :=
  q ← GetQuerier (Tx := Tx) ctx;
  rows ← sch_names q ctx;
  match rows with
  | inr err => mret (Err (EWrap "query tables: " err ""))
  | inl (rows, rows_err) =>
      match scan_entries (fun n => n) "table name" rows rows_err with
      | Err e => mret (Err e)
      | Ok tableNames => infos ← mapM (table_info q ctx) tableNames; mret (Ok infos)
      end
  end.

Definition getPrimaryKeyColumns (q : option Tx) (ctx : context) (tableName : string) : GoM W (result (list string)) :=
  rows ← sch_pk q ctx tableName;
  mret (match rows with inr err => Err err | inl (rows, rows_err) => collect_rows rows rows_err end).

Definition column_of_row (table : string) (r : column_row) : ColumnInfo :=
  mkColumn (wr_name r) (wr_type r) (bool_decide (wr_nullable r = "YES")) (null_text (wr_default r)) false
    (columnDescription table (wr_name r)).

Definition mark_key (pkCols : list string) (c : ColumnInfo) : ColumnInfo :=
  if bool_decide (ci_Name c ∈ pkCols)
  then mkColumn (ci_Name c) (ci_Type c) (Nullable c) (DefaultValue c) true (ci_Description c) else c.

Definition index_of_row (r : string * string) : IndexInfo :=
  mkIndex r.1 (parseIndexColumns r.2) (str_contains (ToUpper r.2) "UNIQUE").

Definition pg_GetTable (ctx : context) (name : string) : GoM W (result TableDetail) :=
  if negb (str_has_prefix name "ddd_") then mret (Err (table_not_found quote name))
  else
    q ← GetQuerier (Tx := Tx) ctx;
    info ← table_info q ctx name;
    colRows ← sch_columns q ctx name;
    match colRows with
    | inr err => mret (Err (EWrap "query columns: " err ""))
    | inl (rows, rows_err) =>
        match scan_entries (column_of_row name) "column" rows rows_err with
        | Err e => mret (Err e)
        | Ok columns =>
            pk ← getPrimaryKeyColumns q ctx name;
            let columns := match pk with Ok pkCols => map (mark_key pkCols) columns | Err _ => columns end in
            idxRows ← sch_indexes q ctx name;
            mret (match idxRows with
                  | inr err => Err (EWrap "query indexes: " err "")
                  | inl (rows, rows_err) =>
                      match scan_entries index_of_row "index" rows rows_err with
                      | Err e => Err e
                      | Ok indexes => Ok (mkTable info columns indexes)
                      end
                  end)
        end
    end.

Definition pg_ListRelations (ctx : context) : GoM W (result (list TableRelation)) :=
  q ← GetQuerier (Tx := Tx) ctx;
  rows ← sch_foreign q ctx;
  mret (match rows with
        | inr err => Err (EWrap "query relations: " err "")
        | inl (rows, rows_err) =>
            match scan_entries (fun r => r) "relation" rows rows_err with
            | Err e => Err e
            | Ok l => Ok (l ++ StaticRelations)
            end
        end).
End Reader.

(** ** What PostgreSQL documents

    The statements of the migrations, read token by token, and what they make of a
    catalog of tables. A primary key is not null and has an index [<table>_pkey], a
    [UNIQUE] constraint has [<table>_<columns>_key]. *)
Inductive ddl :=
| DCreateTable (t : TableDetail)
| DCreateIndex (table : string) (i : IndexInfo)
| DDropTable (table : string).

Definition flush (cur : string) (ts : list string) : list string := if bool_decide (cur = "") then ts else cur :: ts.

Fixpoint tokens (cur s : string) : list string :=
  match s with
  | EmptyString => flush cur []
  | String c s' =>
      if is_space c then flush cur (tokens "" s')
      else if Ascii.eqb c paren_open || Ascii.eqb c paren_close || Ascii.eqb c comma_byte
           then flush cur (String c "" :: tokens "" s')
      else tokens (cur +:+ String c "") s'
  end.

(** The items between commas up to the closing parenthesis. *)
Fixpoint items (depth : nat) (cur ts : list string) : list (list string) :=
  match ts with
  | [] => [cur]
  | "(" :: r => items (S depth) (cur ++ ["("]) r
  | ")" :: r => match depth with O => [cur] | S d => items d (cur ++ [")"]) r end
  | "," :: r => match depth with O => cur :: items 0 [] r | S _ => items depth (cur ++ [","]) r end
  | t :: r => items depth (cur ++ [t]) r
  end.

Fixpoint column_options (c : ColumnInfo) (ts : list string) : option ColumnInfo :=
  match ts with
  | [] => Some c
  | "PRIMARY" :: "KEY" :: r =>
      column_options (mkColumn (ci_Name c) (ci_Type c) false (DefaultValue c) true "") r
  | "NOT" :: "NULL" :: r => column_options (mkColumn (ci_Name c) (ci_Type c) false (DefaultValue c) (IsPrimaryKey c) "") r
  | "DEFAULT" :: v :: r => column_options (mkColumn (ci_Name c) (ci_Type c) (Nullable c) v (IsPrimaryKey c) "") r
  | _ => None
  end.

Definition add_item (t : TableDetail) (item : list string) : option TableDetail :=
  let name := ti_Name (td_info t) in
  match item with
  | "UNIQUE" :: "(" :: r =>
      let cols := concat (items 0 [] r) in
      Some (mkTable (td_info t) (td_Columns t)
        (td_Indexes t ++ [mkIndex (name +:+ "_" +:+ str_join "_" cols +:+ "_key") cols true]))
  | n :: ty :: opts =>
      c ← column_options (mkColumn n ty true "" false "") opts;
      Some (mkTable (td_info t) (td_Columns t ++ [c])
        (if IsPrimaryKey c then mkIndex (name +:+ "_pkey") [n] true :: td_Indexes t else td_Indexes t))
  | _ => None
  end.

Definition empty_table (name : string) : TableDetail := mkTable (mkTableInfo name "" 0 None 0 0) [] [].

Definition parse_ddl (stmt : string) : option ddl :=
  match tokens "" stmt with
  | "CREATE" :: "TABLE" :: "IF" :: "NOT" :: "EXISTS" :: name :: "(" :: r =>
      DCreateTable <$> foldl (fun t item => t ≫= fun t => add_item t item) (Some (empty_table name)) (items 0 [] r)
  | "CREATE" :: "INDEX" :: "IF" :: "NOT" :: "EXISTS" :: i :: "ON" :: table :: "(" :: r =>
      Some (DCreateIndex table (mkIndex i (concat (items 0 [] r)) false))
  | ["DROP"; "TABLE"; "IF"; "EXISTS"; t; "CASCADE"] => Some (DDropTable t)
  | _ => None
  end.

Definition table_name (t : TableDetail) : string := ti_Name (td_info t).
Arguments table_name : simpl never.
Definition has_index (i : string) (t : TableDetail) : bool := existsb (fun x => bool_decide (ii_Name x = i)) (td_Indexes t).

Definition exec_ddl (d : ddl) (cat : list TableDetail) : list TableDetail :=
  match d with
  | DCreateTable t => if existsb (fun t' => bool_decide (table_name t' = table_name t)) cat then cat else cat ++ [t]
  | DCreateIndex table i =>
      if existsb (has_index (ii_Name i)) cat then cat
      else map (fun t => if bool_decide (table_name t = table)
                         then mkTable (td_info t) (td_Columns t) (td_Indexes t ++ [i]) else t) cat
  | DDropTable table => List.filter (fun t => negb (bool_decide (table_name t = table))) cat
  end.

(** The catalog of the in-memory reader, as the database has it: without descriptions. *)
Definition bare_column (c : ColumnInfo) : ColumnInfo :=
  mkColumn (ci_Name c) (ci_Type c) (Nullable c) (DefaultValue c) (IsPrimaryKey c) "".
Definition bare (t : TableDetail) : TableDetail :=
  mkTable (mkTableInfo (table_name t) "" 0 None 0 0) (map bare_column (td_Columns t)) (td_Indexes t).

Definition run_ddl (stmts : list string) (cat : list TableDetail) : option (list TableDetail) :=
  foldl (fun c s => c ≫= fun c => d ← parse_ddl s; Some (exec_ddl d c)) (Some cat) stmts.

Lemma migrations_build : run_ddl migrate_statements [] = Some (map bare staticSchema).
Proof. vm_compute. reflexivity. Qed.

(** Run again they change nothing, and the statements of [DropAll] leave no table. *)
Lemma migrations_rerun : run_ddl migrate_statements (map bare staticSchema) = Some (map bare staticSchema).
Proof. vm_compute. reflexivity. Qed.

Lemma drops_all : run_ddl drop_statements (map bare staticSchema) = Some [].
Proof. vm_compute. reflexivity. Qed.

Definition catalog_row (shown : string -> string) (default : ColumnInfo -> option string) (c : ColumnInfo) : column_row :=
  mkColumnRow (ci_Name c) (shown (ci_Type c)) (if Nullable c then "YES" else "NO") (default c).

(** The text of an index in [pg_indexes]. *)
Definition indexdef (table : string) (i : IndexInfo) : string :=
  "CREATE " +:+ (if ii_Unique i then "UNIQUE " else "") +:+ "INDEX " +:+ ii_Name i +:+ " ON public." +:+ table +:+
  " USING btree (" +:+ str_join ", " (ii_Columns i) +:+ ")".

Definition like_ddd (name : string) : bool := str_has_prefix name "ddd" && bool_decide (4 <= String.length name).

(** [sch_ok w]: the connection pool works in [w] (outside a transaction, where a
    statement that fails does not make the next one fail). [sch_shown] and [sch_default] are the
    names of types and the texts of default values that the catalog shows. *)
Class SchemaLaws (W Tx : Type) `{!Has (tx_states Tx) W, !SchemaTables W Tx} (db_Exec : string -> GoM W error) := {
  sch_ok : W -> Prop;
  catalog : W -> list TableDetail;
  sch_shown : string -> string;
  sch_default : ColumnInfo -> option string;
  sch_leads (w w' : W) : Prop := sch_ok w' /\ catalog w' = catalog w;
  sch_answers {A} (m : GoM W A) (w : W) (a : A) : Prop := exists w', m w = (Done a, w') /\ sch_leads w w';
  sch_table (w : W) (name : string) : TableDetail :=
    default (empty_table name) (List.find (fun t => bool_decide (table_name t = name)) (catalog w));
  sch_exec_law : forall stmt d w, parse_ddl stmt = Some d -> sch_ok w ->
    exists w', db_Exec stmt w = (Done None, w') /\ sch_ok w' /\ catalog w' = exec_ddl d (catalog w);
  sch_names_law : forall ctx w, sch_ok w -> exists l,
    l ≡ₚ List.filter like_ddd (map table_name (catalog w)) /\ sch_answers (sch_names None ctx) w (inl (map inl l, None));
  sch_count_law : forall ctx t w, sch_ok w -> exists r, sch_answers (sch_count None ctx t) w r;
  sch_size_law : forall ctx t w, sch_ok w -> exists r, sch_answers (sch_size None ctx t) w r;
  sch_max_law : forall ctx t w, sch_ok w -> exists r, sch_answers (sch_max_created None ctx t) w r;
  sch_has_law : forall ctx t c w, sch_ok w -> exists r, sch_answers (sch_has None ctx t c) w r;
  sch_columns_law : forall ctx t w, sch_ok w ->
    sch_answers (sch_columns None ctx t) w
      (inl (map inl (map (catalog_row sch_shown sch_default) (td_Columns (sch_table w t))), None));
  sch_pk_law : forall ctx t w, sch_ok w ->
    sch_answers (sch_pk None ctx t) w
      (inl (map inl (map ci_Name (List.filter IsPrimaryKey (td_Columns (sch_table w t)))), None));
  sch_indexes_law : forall ctx t w, sch_ok w -> exists l, l ≡ₚ td_Indexes (sch_table w t) /\
    sch_answers (sch_indexes None ctx t) w (inl (map inl (map (fun i => (ii_Name i, indexdef t i)) l), None));
  sch_foreign_law : forall ctx w, sch_ok w -> sch_answers (sch_foreign None ctx) w (inl ([], None)) }.

(** ** Properties *)

(** What the two readers have in common of a table. *)
Definition same_column (c c' : ColumnInfo) : Prop :=
  ci_Name c = ci_Name c' /\ Nullable c = Nullable c' /\ IsPrimaryKey c = IsPrimaryKey c' /\
  ci_Description c = ci_Description c'.
Definition same_table (t t' : TableDetail) : Prop :=
  table_name t = table_name t' /\ ti_Description (td_info t) = ti_Description (td_info t') /\
  Forall2 same_column (td_Columns t) (td_Columns t') /\ td_Indexes t ≡ₚ td_Indexes t'.
Definition listing (l : list TableInfo) : list (string * string) := map (fun i => (ti_Name i, ti_Description i)) l.

(** ** Lemmas *)

(** A table whose catalog entries the reader turns into the entries of the in-memory schema. *)
Definition index_read (table : string) (i : IndexInfo) : bool :=
  let i' := index_of_row (ii_Name i, indexdef table i) in
  bool_decide (ii_Columns i' = ii_Columns i) && Bool.eqb (ii_Unique i') (ii_Unique i).

Definition table_read (t : TableDetail) : bool :=
  let name := table_name t in
  like_ddd name && str_has_prefix name "ddd_" &&
  bool_decide (ti_Description (td_info t) = TableDescription name) &&
  forallb (fun c => bool_decide (ci_Description c = columnDescription name (ci_Name c)) &&
                    Bool.eqb (bool_decide (ci_Name c ∈ map ci_Name (List.filter IsPrimaryKey (td_Columns t)))) (IsPrimaryKey c))
    (td_Columns t) &&
  forallb (index_read name) (td_Indexes t).

Lemma static_read : forallb table_read staticSchema = true.
Proof. vm_compute. reflexivity. Qed.

Lemma static_find name : List.find (fun t => bool_decide (table_name t = name)) (map bare staticSchema) =
    match list_find (fun t => ti_Name (td_info t) = name) staticSchema with Some t => Some (bare t.2) | None => None end /\
  forall t, list_find (fun t => ti_Name (td_info t) = name) staticSchema = Some t ->
    t.2 ∈ staticSchema /\ table_name t.2 = name.
Proof.
  generalize staticSchema. intros l. induction l as [|x l [IHn IH]]; [done|]. cbn.
  change (table_name (bare x)) with (ti_Name (td_info x)).
  case_decide as Hx.
  - rewrite bool_decide_eq_true_2 by done. split; [done|]. intros t [= <-]. split; [apply list_elem_of_here|done].
  - rewrite bool_decide_eq_false_2 by done. rewrite IHn. destruct (list_find _ l) as [[i y]|]; [|done]. split; [done|].
    intros t [= <-]. destruct (IH _ eq_refl). split; [by apply list_elem_of_further|done].
Qed.

Lemma collect_rows_ok {R} (l : list R) : collect_rows (map inl l) None = Ok l.
Proof. induction l as [|r l IH]; [done|]. cbn. by rewrite IH. Qed.

Lemma static_table_read t : t ∈ staticSchema -> table_read t = true.
Proof. intros H. pose proof static_read as Hr. rewrite forallb_forall in Hr. apply Hr. by apply list_elem_of_In. Qed.

(** Marking the keys of the columns that were read gives back the columns of a table. *)
Lemma columns_read shown dflt (t : TableDetail) : table_read t = true ->
  let keys := map ci_Name (List.filter IsPrimaryKey (td_Columns (bare t))) in
  Forall2 same_column
    (map (mark_key keys) (map (column_of_row (table_name t)) (map (catalog_row shown dflt) (td_Columns (bare t)))))
    (td_Columns t).
Proof.
  unfold table_read. rewrite !andb_true_iff. intros [[_ Hc] _]. rewrite forallb_forall in Hc. cbn.
  assert (map ci_Name (List.filter IsPrimaryKey (map bare_column (td_Columns t))) =
    map ci_Name (List.filter IsPrimaryKey (td_Columns t))) as ->.
  { clear Hc. induction (td_Columns t) as [|c l IH]; [done|]. cbn. destruct (IsPrimaryKey c); cbn; by rewrite IH. }
  set (keys := map ci_Name _) in *. clearbody keys. rewrite !map_map.
  induction (td_Columns t) as [|c l IH]; [constructor|]. cbn. constructor; [|apply IH; intros; apply Hc; by right].
  specialize (Hc c (or_introl eq_refl)). apply andb_true_iff in Hc as [Hd Hk]. apply bool_decide_eq_true_1 in Hd.
  apply Bool.eqb_prop in Hk. unfold mark_key, same_column. cbn. rewrite Hk.
  destruct (IsPrimaryKey c) eqn:Hp, (Nullable c) eqn:Hn; cbn; rewrite ?Hp, ?Hn; by split_and!.
Qed.

Lemma indexes_read name l : forallb (index_read name) l = true ->
  map index_of_row (map (fun i => (ii_Name i, indexdef name i)) l) = l.
Proof.
  induction l as [|i l IH]; [done|]. cbn [map forallb]. rewrite andb_true_iff. intros [Hi Hl]. rewrite (IH Hl). f_equal.
  unfold index_read in Hi. apply andb_true_iff in Hi as [H1 H2].
  apply bool_decide_eq_true_1 in H1. apply Bool.eqb_prop in H2.
  cbn in *. unfold index_of_row in *. cbn in *. rewrite H1, H2. by destruct i.
Qed.

Lemma run_ddl_cons s stmts cat cat' : run_ddl (s :: stmts) cat = Some cat' ->
  exists d, parse_ddl s = Some d /\ run_ddl stmts (exec_ddl d cat) = Some cat'.
Proof.
  unfold run_ddl. cbn. destruct (parse_ddl s) as [d|]; cbn; [by eauto|]. intros H. exfalso.
  induction stmts; [done|]. by apply IHstmts.
Qed.

Section Laws.
Context {W Tx : Type} `{!Has (tx_states Tx) W, !SchemaTables W Tx} (db_Exec : string -> GoM W error)
  `{HL : !SchemaLaws W Tx db_Exec} (quote : string -> string).
#[local] Abbreviation answers := (sch_answers (Tx := Tx) (db_Exec := db_Exec)).
#[local] Abbreviation leads := (sch_leads (Tx := Tx) (db_Exec := db_Exec)).
#[local] Abbreviation ok := (sch_ok (Tx := Tx) (db_Exec := db_Exec)).
#[local] Abbreviation cat := (catalog (Tx := Tx) (db_Exec := db_Exec)).

Lemma exec_all_runs stmts w c : run_ddl stmts (cat w) = Some c -> ok w ->
  exists w', exec_all db_Exec stmts w = (Done None, w') /\ ok w' /\ cat w' = c.
Proof.
  revert w. induction stmts as [|s stmts IH]; intros w Hr Hok; [injection Hr as <-; by exists w|].
  destruct (run_ddl_cons _ _ _ _ Hr) as (d & Hd & Hr1). destruct (sch_exec_law _ _ _ Hd Hok) as (w1 & He & Hok1 & Hc1).
  rewrite <- Hc1 in Hr1. destruct (IH _ Hr1 Hok1) as (w2 & H2 & Hok2 & Hc2). exists w2. split; [|done].
  cbn. unfold_go. by rewrite He.
Qed.

Lemma answers_ret {A} w (a : A) : ok w -> answers (mret a) w a.
Proof. intros H. exists w. split; [done|]. by split. Qed.

Lemma answers_bind {A B} (m : GoM W A) (f : A -> GoM W B) w a b :
  answers m w a -> (forall w', leads w w' -> answers (f a) w' b) -> answers (a ← m; f a) w b.
Proof.
  intros (w1 & Hm & Hl1) Hf. destruct (Hf w1 Hl1) as (w2 & H2 & Hok & Hc). exists w2.
  split; [unfold_go; by rewrite Hm|]. split; [done|]. rewrite Hc. apply Hl1.
Qed.

Lemma answers_some {A B} (m : GoM W A) (f : A -> GoM W B) (P : B -> Prop) w :
  (exists a, answers m w a) -> (forall a w', ok w' -> exists b, answers (f a) w' b /\ P b) ->
  exists b, answers (a ← m; f a) w b /\ P b.
Proof.
  intros (a & w1 & Hm & Hl1 & Hc1) Hf. destruct (Hf a w1 Hl1) as (b & (w2 & H2 & Hok & Hc) & HP). exists b. split; [|done].
  exists w2. split; [unfold_go; by rewrite Hm|]. split; [done|]. by rewrite Hc.
Qed.

(** The entry of a table in the list of tables, up to the statistics. *)
Definition described (name : string) (i : TableInfo) : Prop := ti_Name i = name /\ ti_Description i = TableDescription name.

Lemma table_info_described ctx name w : ok w ->
  exists i, answers (table_info None ctx name) w i /\ described name i.
Proof.
  intros H. unfold table_info. apply answers_some; [by apply sch_count_law|]. intros count w1 H1.
  apply answers_some; [by apply sch_size_law|]. intros size w2 H2.
  apply answers_some.
  { unfold hasColumn. destruct (sch_has_law ctx name "created_at" w2 H2) as [r Hr]. eexists.
    apply (answers_bind _ _ _ _ _ Hr). intros w' [Hok _]. by apply answers_ret. }
  intros [] w3 H3.
  - apply answers_some.
    + destruct (sch_max_law ctx name w3 H3) as [r Hr]. eexists. apply (answers_bind _ _ _ _ _ Hr).
      intros w' [Hok _]. by apply answers_ret.
    + intros d w4 H4. eexists. split; [by apply answers_ret|done].
  - apply answers_some; [eexists; by apply answers_ret|]. intros d w4 H4. eexists. split; [by apply answers_ret|done].
Qed.

Lemma table_infos_described ctx names w : ok w ->
  exists infos, answers (mapM (table_info None ctx) names) w infos /\ Forall2 described names infos.
Proof.
  revert w. induction names as [|n names IH]; intros w H; [exists []; split; [by apply answers_ret|constructor]|]. cbn.
  destruct (table_info_described ctx n w H) as (i & (w1 & Hi & Hok1 & Hc1) & Hd).
  destruct (IH w1 Hok1) as (infos & Hl & Hds). exists (i :: infos). split; [|by constructor].
  destruct Hl as (w2 & Hl & Hok2 & Hc2). exists w2. split; [unfold_go; rewrite Hi; by rewrite Hl|]. split; [done|].
  by rewrite Hc2.
Qed.

Lemma querier_none ctx w : pgTx ctx = None -> GetQuerier (Tx := Tx) ctx w = (Done None, w).
Proof. intros Hc. rewrite GetQuerier_at. unfold querier_at. by rewrite Hc. Qed.

Lemma ListTables_described ctx w : ok w -> pgTx ctx = None ->
  exists l infos, l ≡ₚ List.filter like_ddd (map table_name (cat w)) /\ Forall2 described l infos /\
    answers (pg_ListTables ctx) w (Ok infos).
Proof.
  intros H Hc. destruct (sch_names_law ctx w H) as (l & Hl & w1 & Hn & Hok1 & Hc1).
  destruct (table_infos_described ctx l w1 Hok1) as (infos & (w2 & Hm & Hok2 & Hc2) & Hd).
  exists l, infos. split_and!; [done|done|]. exists w2. split; [|split; [done|by rewrite Hc2]].
  unfold pg_ListTables. unfold_go. rewrite (querier_none _ _ Hc), Hn.
  rewrite scan_entries_ok, map_id, Hm. done.
Qed.

Lemma ListRelations_static ctx w : ok w -> pgTx ctx = None -> answers (pg_ListRelations ctx) w (Ok StaticRelations).
Proof.
  intros H Hc. unfold pg_ListRelations. eapply answers_bind; [exists w; split; [by apply querier_none|by split]|].
  intros w1 [H1 _]. eapply answers_bind; [by apply sch_foreign_law|]. intros w2 [H2 _]. by apply answers_ret.
Qed.

(** What [GetTable] makes of the catalog's entries of a table. *)
Definition table_shown (name : string) (t : TableDetail) (indexes : list IndexInfo) (info : TableInfo) : TableDetail :=
  let keys := map ci_Name (List.filter IsPrimaryKey (td_Columns t)) in
  mkTable info
    (map (mark_key keys) (map (column_of_row name) (map (catalog_row sch_shown sch_default) (td_Columns t))))
    (map index_of_row (map (fun i => (ii_Name i, indexdef name i)) indexes)).

Lemma GetTable_shown ctx name w : ok w -> pgTx ctx = None -> str_has_prefix name "ddd_" = true ->
  exists info indexes, described name info /\ indexes ≡ₚ td_Indexes (sch_table w name) /\
    answers (pg_GetTable quote ctx name) w (Ok (table_shown name (sch_table w name) indexes info)).
Proof.
  intros H Hc Hp. destruct (table_info_described ctx name w H) as (info & (w1 & Hi & Hok1 & Hc1) & Hd).
  assert (forall w', cat w' = cat w -> sch_table w' name = sch_table w name) as Ht by (unfold sch_table; by intros ? ->).
  destruct (sch_columns_law ctx name w1 Hok1) as (w2 & Hcols & Hok2 & Hc2).
  destruct (sch_pk_law ctx name w2 Hok2) as (w3 & Hpk & Hok3 & Hc3).
  destruct (sch_indexes_law ctx name w3 Hok3) as (l & Hl & w4 & Hidx & Hok4 & Hc4).
  rewrite Ht in Hcols, Hpk, Hl by congruence. exists info, l. split_and!; [done|done|]. exists w4.
  split; [|split; [done|congruence]]. unfold pg_GetTable, getPrimaryKeyColumns. rewrite Hp. cbn [negb]. unfold_go.
  rewrite (querier_none _ _ Hc), Hi, Hcols, scan_entries_ok, Hpk, collect_rows_ok, Hidx, scan_entries_ok. done.
Qed.
End Laws.

Lemma shown_same {W Tx} `{!Has (tx_states Tx) W, !SchemaTables W Tx} (db_Exec : string -> GoM W error)
    `{HL : !SchemaLaws W Tx db_Exec} (t : TableDetail) l info :
  table_read t = true -> described (table_name t) info ->
  map index_of_row (map (fun i => (ii_Name i, indexdef (table_name t) i)) l) ≡ₚ
    map index_of_row (map (fun i => (ii_Name i, indexdef (table_name t) i)) (td_Indexes t)) ->
  same_table (table_shown db_Exec (table_name t) (bare t) l info) t.
Proof.
  intros Ht [Hn Hd] Hl. pose proof (columns_read sch_shown sch_default t Ht) as Hc.
  unfold table_read in Ht. rewrite !andb_true_iff in Ht. destruct Ht as [[[_ Hdesc] _] Hi].
  apply bool_decide_eq_true_1 in Hdesc. rewrite (indexes_read _ _ Hi) in Hl.
  split_and!; [done|by rewrite Hdesc|exact Hc|done].
Qed.


(** ** A concrete catalog *)
Module DemoSchema.
Record world := mkWorld { cat : list TableDetail; txs : tx_states unit }.
#[export] Instance demo_txs : Has (tx_states unit) world := { part := txs; set_part t w := mkWorld (cat w) t }.

Definition demo_exec (stmt : string) : GoM world error := fun w =>
  match parse_ddl stmt with
  | Some d => (Done None, mkWorld (exec_ddl d (cat w)) (txs w))
  | None => (Done (Some (ENew "syntax error")), w)
  end.

Definition table_of (w : world) (name : string) : TableDetail :=
  default (empty_table name) (List.find (fun t => bool_decide (table_name t = name)) (cat w)).
Definition no_default (c : ColumnInfo) : option string :=
  if bool_decide (DefaultValue c = "") then None else Some (DefaultValue c).

#[export] Instance demo_tables : SchemaTables world unit := {
  sch_names _ _ w := (Done (inl (map inl (List.filter like_ddd (map table_name (cat w))), None)), w);
  sch_count _ _ _ w := (Done (inl 0%Z), w);
  sch_size _ _ _ w := (Done (inl 8192%Z), w);
  sch_max_created _ _ _ w := (Done (inl None), w);
  sch_has _ _ _ _ w := (Done (inl 1%Z), w);
  sch_columns _ _ t w := (Done (inl (map inl (map (catalog_row (fun ty => ty) no_default) (td_Columns (table_of w t))), None)), w);
  sch_pk _ _ t w := (Done (inl (map inl (map ci_Name (List.filter IsPrimaryKey (td_Columns (table_of w t)))), None)), w);
  sch_indexes _ _ t w := (Done (inl (map inl (map (fun i => (ii_Name i, indexdef t i)) (td_Indexes (table_of w t))), None)), w);
  sch_foreign _ _ w := (Done (inl ([], None)), w) }.

#[export] Program Instance demo_laws : SchemaLaws world unit demo_exec := {
  sch_ok _ := True; catalog := cat; sch_shown ty := ty; sch_default := no_default }.
Next Obligation. intros stmt d w Hd _. eexists. unfold demo_exec. rewrite Hd. by split_and!. Qed.
Next Obligation. intros ctx w _. eexists. split; [reflexivity|]. eexists. by split_and!. Qed.
Next Obligation. intros ctx t w _. eexists _, w. by split_and!. Qed.
Next Obligation. intros ctx t w _. eexists _, w. by split_and!. Qed.
Next Obligation. intros ctx t w _. eexists _, w. by split_and!. Qed.
Next Obligation. intros ctx t c w _. eexists _, w. by split_and!. Qed.
Next Obligation. intros ctx t w _. eexists. by split_and!. Qed.
Next Obligation. intros ctx t w _. eexists. by split_and!. Qed.
Next Obligation. intros ctx t w _. eexists. split; [reflexivity|]. eexists. by split_and!. Qed.
Next Obligation. intros ctx w _. eexists. by split_and!. Qed.

Definition w0 : world := mkWorld [] [].
Definition quoted (s : string) : string := "[" +:+ s +:+ "]".
End DemoSchema.
Import DemoSchema.

Lemma same_names l l' : Forall2 same_column l l' -> map ci_Name l = map ci_Name l'.
Proof. induction 1 as [|c c' l l' [Hc _] _ IH]; [done|]. cbn. by rewrite Hc, IH. Qed.

