(* ===== verification/Dashboard.v ===== *)
(** * The JSON dashboard: [src/observability/dashboard.go]

    The handlers as functions of the request: they return the response that the
    source writes. Rendering it as text is not modelled. *)

From S2P Require Import Prelude Errors Trace Builtin Messages Stats Relationship Job Schema.

(** ** Requests ([net/http], [strconv], [time])

    [rq_query] are the parameters of the URL, [rq_table] is the path value [table],
    [rq_accept] the header. *)
Record request := mkRequest {
  rq_Method : string;
  rq_query : list (string * string);
  rq_table : string;
  rq_accept : string;
  rq_ctx : context }.

(** [r.URL.Query().Get(k)] *)
Definition query_get (r : request) (k : string) : string :=
  match list_find (fun p => p.1 = k) (rq_query r) with Some (_, p) => p.2 | None => "" end.

Definition digit_of (c : Ascii.ascii) : option Z :=
  let n := Z.of_nat (Ascii.nat_of_ascii c) in
  if bool_decide (48 <= n <= 57)%Z then Some (n - 48)%Z else None.

(** The loop of [strconv.ParseUint]: [None] is a syntax error, [false] a range error. *)
Fixpoint parse_uint (n : Z) (s : string) : option (Z * bool) :=
  match s with
  | EmptyString => Some (n, true)
  | String c s' =>
      match digit_of c with
      | None => None
      | Some d =>
          let n1 := (10 * n + d)%Z in
          if bool_decide (two64 <= n1)%Z then Some ((two64 - 1)%Z, false) else parse_uint n1 s'
      end
  end.

Definition minus_byte : Ascii.ascii := Ascii.ascii_of_nat 45.
Definition plus_byte : Ascii.ascii := Ascii.ascii_of_nat 43.

(** [strconv.ParseInt(s, 10, 64)] and [strconv.Atoi]: the number, and whether the error is nil. *)
Definition ParseInt (s : string) : Z * bool :=
  let '(neg, body) :=
    match s with
    | EmptyString => (false, s)
    | String c s' => if Ascii.eqb c minus_byte then (true, s') else if Ascii.eqb c plus_byte then (false, s') else (false, s)
    end in
  if bool_decide (body = "") then (0%Z, false)
  else match parse_uint 0 body with
       | None => (0%Z, false)
       | Some (un, _) =>
           if negb neg && bool_decide (two63 <= un)%Z then (max_int64, false)
           else if neg && bool_decide (two63 < un)%Z then ((- two63)%Z, false)
           else (if neg then (- un)%Z else un, true)
       end.
Definition Atoi (s : string) : Z * bool := ParseInt s.

(** [time.Unix(sec, 0)]: 62135596800 seconds lie between year 1 and 1970. *)
Definition time_Unix (sec : Z) : Z := (wrap64 (sec + 62135596800) * 1000000000)%Z.

(** [context.WithTimeout(ctx, seconds * time.Second)] *)
Definition with_timeout {W} `{!Clock W} (ctx : context) (seconds : Z) : GoM W context :=
  now ← time_now; mret (with_deadline ctx (now + seconds * second)).

(** ** Interfaces *)

(** [MessageStoreReader] ([message_reader.go]). *)
Record MessageStoreReader (W : Type) := mkMessageReader {
  mr_QueryCommands : context -> MessageFilter -> GoM W (result (QueryResult CommandEntry));
  mr_QueryQueries : context -> MessageFilter -> GoM W (result (QueryResult QueryEntry));
  mr_QueryEvents : context -> MessageFilter -> GoM W (result (QueryResult EventEntry)) }.
Arguments mr_QueryCommands {W} _.
Arguments mr_QueryQueries {W} _.
Arguments mr_QueryEvents {W} _.

(** The part of [trace.TraceStore] that the handlers use. *)
Record TraceReader (W : Type) := mkTraceReader {
  tr_GetTrace : context -> string -> GoM W (result (list Span));
  tr_ListTraces : context -> TraceFilter -> GoM W (result (list string)) }.
Arguments tr_GetTrace {W} _.
Arguments tr_ListTraces {W} _.

(** [JobManager.ListByStatus]; a [JobStatus] is a string. *)
Definition JobLister (W V : Type) : Type := context -> string -> GoM W (result (list (Job V))).

(** The in-memory implementations. *)
Definition observable_reader {W} `{!Has ObservableMessageStore W} : MessageStoreReader W := {|
  mr_QueryCommands _ f := fun w => (r ← QueryCommands f (part w); mret (Ok r), w);
  mr_QueryQueries _ f := fun w => (r ← QueryQueries f (part w); mret (Ok r), w);
  mr_QueryEvents _ f := fun w => (r ← QueryEvents f (part w); mret (Ok r), w) |}.

Definition memory_traces {W} `{!Has InMemoryTraceStore W} : TraceReader W := {|
  tr_GetTrace _ tid := fun w => (GetTrace tid (part w), w);
  tr_ListTraces _ f := fun w => (r ← ListTraces f (part w); mret (Ok r), w) |}.

(** ** Responses *)

Inductive json_value (V : Type) :=
| JError (msg : string)
| JStats (st : OperationStats)
| JAllStats (sts : list OperationStats)
| JJobs (jobs : list (Job V))
| JJobList (pending running completed failed cancelled : list (Job V))
| JSpans (spans : list Span)
| JTraceIDs (ids : list string)
| JCommands (r : QueryResult CommandEntry)
| JQueries (r : QueryResult QueryEntry)
| JEvents (r : QueryResult EventEntry)
| JGraph (g : Graph)
| JHealth (status : string) (checks : gmap string string).
Arguments JError {V} msg.
Arguments JStats {V} st.
Arguments JAllStats {V} sts.
Arguments JJobs {V} jobs.
Arguments JJobList {V} pending running completed failed cancelled.
Arguments JSpans {V} spans.
Arguments JTraceIDs {V} ids.
Arguments JCommands {V} r.
Arguments JQueries {V} r.
Arguments JEvents {V} r.
Arguments JGraph {V} g.
Arguments JHealth {V} status checks.

(** [http.Error], [writeJSON] and a page of data [P] rendered from a template. *)
Inductive response (V P : Type) :=
| HttpError (msg : string) (code : Z)
| WriteJSON (code : Z) (v : json_value V)
| Rendered (template : string) (data : P).
Arguments HttpError {V P} msg code.
Arguments WriteJSON {V P} code v.
Arguments Rendered {V P} template data.

Definition StatusOK : Z := 200.
Definition StatusNotFound : Z := 404.
Definition StatusMethodNotAllowed : Z := 405.
Definition StatusInternalServerError : Z := 500.
Definition StatusServiceUnavailable : Z := 503.

(** ** The dashboard *)

Record DashboardConfig := mkConfig {
  Prefix : string;
  EnableStats : bool;
  EnableCommands : bool;
  EnableQueries : bool;
  EnableEvents : bool;
  EnableJobs : bool;
  EnableTraces : bool;
  EnableHealth : bool;
  QueryLimit : Z }.

Definition defaultConfig : DashboardConfig := mkConfig "/api/ddd" true true true true true true true 100.

Section Dashboard.
Context {W V : Type} `{!Clock W, !Has StatsCollector W, !SortSlice, !MapRange}.
Abbreviation resp := (response V Empty_set).

(** The statistics are a part of the world. *)
Record Dashboard := mkDashboard {
  d_traceStore : option (TraceReader W);
  d_jobMgr : option (JobLister W V);
  d_msgReader : option (MessageStoreReader W);
  d_config : DashboardConfig }.

Inductive DashboardOption :=
| WithPrefix (prefix : string)
| WithoutStats | WithoutCommands | WithoutQueries | WithoutEvents | WithoutJobs | WithoutTraces | WithoutHealth
| WithQueryLimit (n : Z)
| WithDashboardTraceStore (ts : TraceReader W)
| WithDashboardJobManager (jm : JobLister W V)
| WithMessageReader (r : MessageStoreReader W).

Definition configure (o : DashboardOption) (c : DashboardConfig) : DashboardConfig :=
  let 'mkConfig p st co qu ev jo tr he n := c in
  match o with
  | WithPrefix p => mkConfig p st co qu ev jo tr he n
  | WithoutStats => mkConfig p false co qu ev jo tr he n
  | WithoutCommands => mkConfig p st false qu ev jo tr he n
  | WithoutQueries => mkConfig p st co false ev jo tr he n
  | WithoutEvents => mkConfig p st co qu false jo tr he n
  | WithoutJobs => mkConfig p st co qu ev false tr he n
  | WithoutTraces => mkConfig p st co qu ev jo false he n
  | WithoutHealth => mkConfig p st co qu ev jo tr false n
  | WithQueryLimit n => mkConfig p st co qu ev jo tr he n
  | _ => c
  end.

Definition apply_dashboard (d : Dashboard) (o : DashboardOption) : Dashboard :=
  match o with
  | WithDashboardTraceStore ts => mkDashboard (Some ts) (d_jobMgr d) (d_msgReader d) (d_config d)
  | WithDashboardJobManager jm => mkDashboard (d_traceStore d) (Some jm) (d_msgReader d) (d_config d)
  | WithMessageReader r => mkDashboard (d_traceStore d) (d_jobMgr d) (Some r) (d_config d)
  | _ => mkDashboard (d_traceStore d) (d_jobMgr d) (d_msgReader d) (configure o (d_config d))
  end.

Definition NewDashboard (opts : list DashboardOption) : Dashboard :=
  fold_left apply_dashboard opts (mkDashboard None None None defaultConfig).

(** [if r.Method != http.MethodGet { ...; return }] *)
Definition only_get (r : request) (h : GoM W resp) : GoM W resp :=
  if bool_decide (rq_Method r <> "GET") then mret (HttpError "method not allowed" StatusMethodNotAllowed) else h.

Definition internal_error (e : goerr) : resp := WriteJSON StatusInternalServerError (JError (Error e)).

Definition d_handleStats (r : request) : GoM W resp := only_get r (
  let name := query_get r "name" in
  let opType := query_get r "type" in
  if bool_decide (name <> "") then
    st ← (fun w => (GetStats name (part w), w));
    mret (if st.2 : bool then WriteJSON StatusOK (JStats st.1) else WriteJSON StatusNotFound (JError "operation not found"))
  else if bool_decide (opType <> "") then
    sts ← (fun w => (GetStatsByType opType (part w), w)); mret (WriteJSON StatusOK (JAllStats sts))
  else sts ← (fun w => (GetAllStats (part w), w)); mret (WriteJSON StatusOK (JAllStats sts))).

Definition all_statuses : list JobStatus :=
  [JobStatusPending; JobStatusRunning; JobStatusCompleted; JobStatusFailed; JobStatusCancelled].

(** The loop over the statuses; the first error ends it. *)
Fixpoint list_all (jm : JobLister W V) (ctx : context) (ss : list JobStatus) : GoM W (result (list (list (Job V)))) :=
  match ss with
  | [] => mret (Ok [])
  | s :: rest =>
      jobs ← jm ctx (status_String s);
      match jobs with
      | Err e => mret (Err e)
      | Ok jobs => more ← list_all jm ctx rest; mret (match more with Ok l => Ok (jobs :: l) | Err e => Err e end)
      end
  end.

Definition d_handleJobs (d : Dashboard) (r : request) : GoM W resp := only_get r (
  match d_jobMgr d with
  | None => mret (WriteJSON StatusServiceUnavailable (JError "job manager not configured"))
  | Some jm =>
      let statusStr := query_get r "status" in
      ctx ← with_timeout (rq_ctx r) 5;
      if bool_decide (statusStr <> "") then
        jobs ← jm ctx statusStr;
        mret (match jobs with Err e => internal_error e | Ok jobs => WriteJSON StatusOK (JJobs jobs) end)
      else
        ls ← list_all jm ctx all_statuses;
        match ls with
        | Err e => mret (internal_error e)
        | Ok [a; b; c; d; e] => mret (WriteJSON StatusOK (JJobList a b c d e))
        | Ok _ => go_panic "index out of range"
        end
  end).

(** [if s != "" { if ts, err := strconv.ParseInt(s, 10, 64); err == nil { t = time.Unix(ts, 0) } }] *)
Definition unix_param (s : string) : Z :=
  if bool_decide (s <> "") then let '(ts, ok) := ParseInt s in if ok then time_Unix ts else time_zero else time_zero.

Definition d_handleTraces (d : Dashboard) (r : request) : GoM W resp := only_get r (
  match d_traceStore d with
  | None => mret (WriteJSON StatusServiceUnavailable (JError "trace store not configured"))
  | Some ts =>
      ctx ← with_timeout (rq_ctx r) 5;
      let traceID := query_get r "traceID" in
      if bool_decide (traceID <> "") then
        spans ← tr_GetTrace ts ctx traceID;
        mret (match spans with Err e => internal_error e | Ok spans => WriteJSON StatusOK (JSpans spans) end)
      else
        let filter := mkFilter "" (query_get r "type") (query_get r "status") (unix_param (query_get r "start"))
          (unix_param (query_get r "end")) (query_get r "name") in
        ids ← tr_ListTraces ts ctx filter;
        mret (match ids with Err e => internal_error e | Ok ids => WriteJSON StatusOK (JTraceIDs ids) end)
  end).

(** The checks of the health handlers, and whether all of them passed. *)
Definition check_store {A} (key : string) (call : GoM W (result A)) (acc : gmap string string * bool) :
    GoM W (gmap string string * bool) :=
  res ← call;
  mret (match res with
        | Err e => (<[key := "error: " +:+ Error e]> acc.1, false)
        | Ok _ => (<[key := "ok"]> acc.1, acc.2)
        end).

Definition no_filter : TraceFilter := mkFilter "" "" "" time_zero time_zero "".

Definition health_checks (ts : option (TraceReader W)) (jm : option (JobLister W V)) (r : request) :
    GoM W (gmap string string * bool) :=
  acc ← match ts with
        | Some ts => ctx ← with_timeout (rq_ctx r) 2; check_store "traceStore" (tr_ListTraces ts ctx no_filter) (∅, true)
        | None => mret (∅, true)
        end;
  acc ← match jm with
        | Some jm => ctx ← with_timeout (rq_ctx r) 2; check_store "jobManager" (jm ctx (status_String JobStatusCompleted)) acc
        | None => mret acc
        end;
  mret (<["statsCollector" := "ok"]> acc.1, acc.2).

Definition health_response {P} (checks : gmap string string) (healthy : bool) : response V P :=
  WriteJSON (if healthy then StatusOK else StatusServiceUnavailable)
    (JHealth (if healthy then "ok" else "degraded") checks).

Definition d_handleHealth (d : Dashboard) (r : request) : GoM W resp := only_get r (
  acc ← health_checks (d_traceStore d) (d_jobMgr d) r;
  mret (health_response acc.1 acc.2)).

Definition d_parseMessageFilter (d : Dashboard) (r : request) : MessageFilter :=
  let limit :=
    let l := query_get r "limit" in
    if bool_decide (l <> "") then
      let '(v, ok) := Atoi l in if ok && bool_decide (0 < v)%Z then v else QueryLimit (d_config d)
    else QueryLimit (d_config d) in
  mkMsgFilter (query_get r "type") (query_get r "traceID") (query_get r "aggregateID") (query_get r "status")
    (unix_param (query_get r "since")) limit 0.

(** The body that the three handlers of messages share. *)
Definition d_messages {T} (op : MessageStoreReader W -> context -> MessageFilter -> GoM W (result (QueryResult T)))
    (json : QueryResult T -> json_value V) (d : Dashboard) (r : request) : GoM W resp := only_get r (
  match d_msgReader d with
  | None => mret (WriteJSON StatusServiceUnavailable (JError "message store reader not configured"))
  | Some reader =>
      let filter := d_parseMessageFilter d r in
      ctx ← with_timeout (rq_ctx r) 5;
      res ← op reader ctx filter;
      mret (match res with Err e => internal_error e | Ok q => WriteJSON StatusOK (json q) end)
  end).

Definition d_handleCommands := d_messages mr_QueryCommands JCommands.
Definition d_handleQueries := d_messages mr_QueryQueries JQueries.
Definition d_handleEvents := d_messages mr_QueryEvents JEvents.

(** The patterns given to [mux.HandleFunc], in order. *)
Definition RegisterRoutes (d : Dashboard) : list (string * (request -> GoM W resp)) :=
  let c := d_config d in
  let p := Prefix c in
  (if EnableStats c then [(p +:+ "/stats", d_handleStats)] else []) ++
  (if EnableCommands c then [(p +:+ "/commands", d_handleCommands d)] else []) ++
  (if EnableQueries c then [(p +:+ "/queries", d_handleQueries d)] else []) ++
  (if EnableEvents c then [(p +:+ "/events", d_handleEvents d)] else []) ++
  (if EnableJobs c then [(p +:+ "/jobs", d_handleJobs d)] else []) ++
  (if EnableTraces c then [(p +:+ "/traces", d_handleTraces d)] else []) ++
  (if EnableHealth c then [(p +:+ "/health", d_handleHealth d)] else []).
End Dashboard.

(** ** Lemmas *)

(** A call that returns, and finds and leaves the invariant [I] of the world. *)
Definition keeps {W A} (I : W -> Prop) (m : GoM W A) : Prop :=
  forall w, I w -> exists a w', m w = (Done a, w') /\ I w'.

Section Keeps.
Context {W : Type} (I : W -> Prop).

Lemma keeps_ret {A} (a : A) : keeps I (mret a).
Proof. intros w Hw. by exists a, w. Qed.

Lemma keeps_bind {A B} (m : GoM W A) (f : A -> GoM W B) : keeps I m -> (forall a, keeps I (f a)) -> keeps I (a ← m; f a).
Proof. intros Hm Hf w Hw. destruct (Hm w Hw) as (a & w1 & E & H1). unfold_go. rewrite E. by apply Hf. Qed.

Lemma keeps_read {A} (f : W -> outcome A) : (forall w, I w -> exists a, f w = Done a) -> keeps I (fun w => (f w, w)).
Proof. intros Hf w Hw. destruct (Hf w Hw) as [a ->]. by exists a, w. Qed.
End Keeps.

(** Calls whose parts keep the invariant. *)
Ltac keep :=
  repeat first [progress intros | eassumption | apply keeps_ret | apply keeps_bind
               | match goal with |- keeps _ (match ?x with _ => _ end) => destruct x eqn:? end ].

(** A statistic can be summarised when the ranks of the percentiles do not overflow. *)
Definition stats_small (s : StatsCollector) : Prop :=
  forall n rec, records s !! n = Some rec -> (zlen (op_durations rec) * 99 < two63)%Z.

Section Summaries.
Context `{HSS : !SortSlice, HSSL : !SortSliceLaws, HMR : !MapRange, HMRL : !MapRangeLaws}.

Lemma buildStats_total rec : (zlen (op_durations rec) * 99 < two63)%Z -> exists st, buildStats rec = Done st.
Proof.
  intros Hb. unfold buildStats. destruct (map dur (op_durations rec)) as [|x l] eqn:El; [by eexists|]. rewrite <- El.
  assert (zlen (map dur (op_durations rec)) * 99 < two63)%Z as Hb' by (unfold zlen in *; by rewrite length_map).
  destruct (sorted_index (map dur (op_durations rec)) 50) as (p50 & -> & _); [by rewrite El|done|lia|].
  destruct (sorted_index (map dur (op_durations rec)) 99) as (p99 & -> & _); [by rewrite El|done|lia|]. by eexists.
Qed.

Lemma all_built (s : StatsCollector) l : stats_small s -> Forall (fun e => records s !! e.1 = Some e.2) l ->
  exists sts, mapM (fun e => buildStats e.2) l = Done sts.
Proof.
  intros Hs. induction 1 as [|e l He _ [sts IH]]; [by eexists|]. cbn. destruct (buildStats_total e.2) as [st ->]; [by eapply Hs|].
  cbn. rewrite IH. by eexists.
Qed.

Lemma range_records (s : StatsCollector) : Forall (fun e => records s !! e.1 = Some e.2) (map_range (records s)).
Proof. apply List.Forall_forall. intros [k v]. by rewrite range_elem. Qed.

Lemma stats_read (s : StatsCollector) : stats_small s ->
  (forall n, exists r, GetStats n s = Done r) /\ (exists l, GetAllStats s = Done l) /\ (forall t, exists l, GetStatsByType t s = Done l).
Proof.
  intros Hs. split_and!.
  - intros n. unfold GetStats. destruct (records s !! n) as [rec|] eqn:E; [|by eexists].
    destruct (buildStats_total rec) as [st ->]; [by eapply Hs|]. by eexists.
  - unfold GetAllStats. destruct (all_built s _ Hs (range_records s)) as [sts ->]. by eexists.
  - intros t. unfold GetStatsByType. edestruct (all_built s) as [sts ->]; [done|apply Forall_list_filter, range_records|].
    by eexists.
Qed.
End Summaries.

Lemma query_total {T} (m : T -> MessageFilter -> bool) entries f : (0 <= mf_Offset f)%Z ->
  exists q, query m entries f = Done q.
Proof. intros H. rewrite query_spec, bool_decide_eq_false_2 by lia. by eexists. Qed.

(** The stores that the handlers read. *)
Definition stores_are {W} `{!Has StatsCollector W, !Has InMemoryTraceStore W, !Has ObservableMessageStore W}
    (sc : StatsCollector) (ts : InMemoryTraceStore) (ms : ObservableMessageStore) (w : W) : Prop :=
  part w = sc /\ part w = ts /\ part w = ms.

Section Safety.
Context {W V : Type} `{HC : !Clock W, HS : !Has StatsCollector W, HT : !Has InMemoryTraceStore W, HM : !Has ObservableMessageStore W}
  `{HSS : !SortSlice, HSSL : !SortSliceLaws, HMR : !MapRange, HMRL : !MapRangeLaws}.
Context (sc : StatsCollector) (ts : InMemoryTraceStore) (ms : ObservableMessageStore).
Context (Hsc : stats_small sc) (Hts : store_ok ts).
#[local] Abbreviation stores := (stores_are sc ts ms).
Context (Hnow : keeps stores (time_now (W := W))).

Lemma with_timeout_keeps ctx n : keeps stores (with_timeout (W := W) ctx n).
Proof. unfold with_timeout. by keep. Qed.

Lemma memory_traces_keep ctx : (forall tid, keeps stores (tr_GetTrace (memory_traces (W := W)) ctx tid)) /\
  (forall f, keeps stores (tr_ListTraces (memory_traces (W := W)) ctx f)).
Proof.
  split; [intros tid|intros f]; apply keeps_read; intros w (_ & Ht & _); rewrite Ht.
  - rewrite get_trace_correct by done. by eexists.
  - destruct (list_traces_spec f ts Hts) as (ids & -> & _). by eexists.
Qed.

Lemma observable_reader_keeps ctx f : (0 <= mf_Offset f)%Z ->
  keeps stores (mr_QueryCommands (observable_reader (W := W)) ctx f) /\
  keeps stores (mr_QueryQueries (observable_reader (W := W)) ctx f) /\
  keeps stores (mr_QueryEvents (observable_reader (W := W)) ctx f).
Proof.
  intros Hf. split_and!; apply keeps_read; intros w _; unfold QueryCommands, QueryQueries, QueryEvents;
    match goal with |- context [query ?m ?l ?f] => destruct (query_total m l f Hf) as [q ->] end; by eexists.
Qed.

Lemma stats_keep : (forall n, keeps stores (fun w : W => (GetStats n (part w), w))) /\
  keeps stores (fun w : W => (GetAllStats (part w), w)) /\ (forall t, keeps stores (fun w : W => (GetStatsByType t (part w), w))).
Proof.
  destruct (stats_read sc Hsc) as (H1 & H2 & H3).
  split_and!; [intros n| |intros t]; apply keeps_read; intros w (-> & _ & _); [apply H1|apply H2|apply H3].
Qed.

Context (d : Dashboard (W := W) (V := V)).
Context (Hd : forall t, d_traceStore d = Some t -> t = memory_traces)
  (Hm : forall m, d_msgReader d = Some m -> m = observable_reader)
  (Hj : forall jm ctx s, d_jobMgr d = Some jm -> keeps stores (jm ctx s)).

Lemma list_all_keeps jm ctx ss : d_jobMgr d = Some jm ->
  keeps stores (list_all jm ctx ss) /\
  forall w ls w', list_all jm ctx ss w = (Done (Ok ls), w') -> length ls = length ss.
Proof.
  intros Hjm. induction ss as [|s ss [IH1 IH2]]; cbn.
  - split; [keep|]. intros w ls w' [= <- _]. done.
  - split.
    + apply keeps_bind; [by apply Hj|]. keep.
    + intros w ls w'. unfold_go. destruct (jm _ _ w) as [[[js|e]|] w1]; [|done..].
      destruct (list_all jm ctx ss w1) as [[[l|e]|] w2] eqn:E; [|done..]. intros [= <- _]. cbn. f_equal. by eapply IH2.
Qed.

(** A handler that keeps the stores, and refuses other methods than GET. *)
Definition safe_handler (h : request -> GoM W (response V Empty_set)) : Prop := forall r,
  keeps stores (h r) /\
  (rq_Method r <> "GET" -> forall w, h r w = (Done (HttpError "method not allowed" StatusMethodNotAllowed), w)).

Lemma only_get_safe r h : keeps stores h -> keeps stores (only_get r h) /\
  (rq_Method r <> "GET" -> forall w : W, only_get (V := V) r h w = (Done (HttpError "method not allowed" StatusMethodNotAllowed), w)).
Proof.
  intros Hh. unfold only_get. case_bool_decide as Hr; [|done]. split; [keep|]. done.
Qed.

Lemma handleStats_safe : safe_handler d_handleStats.
Proof.
  intros r. apply only_get_safe. destruct stats_keep as (H1 & H2 & H3).
  cbv zeta. keep; first [apply H1|apply H3|apply H2].
Qed.

Lemma handleJobs_safe : safe_handler (d_handleJobs d).
Proof.
  intros r. apply only_get_safe. case_eq (d_jobMgr d); [intros jm Hjm|intros _; keep].
  apply keeps_bind; [apply with_timeout_keeps|]. intros ctx. case_bool_decide; [apply keeps_bind; [by apply Hj|keep]|].
  destruct (list_all_keeps jm ctx all_statuses Hjm) as [Hk Hl]. intros w Hw. destruct (Hk w Hw) as ([ls|e] & w1 & E & Hw1);
    unfold_go; rewrite E; [|by eexists _, w1]. apply Hl in E.
  destruct ls as [|? [|? [|? [|? [|? [|]]]]]]; try discriminate E. by eexists _, w1.
Qed.

Lemma handleTraces_safe : safe_handler (d_handleTraces d).
Proof.
  intros r. apply only_get_safe. case_eq (d_traceStore d); [intros t Ht|intros _; keep]. rewrite (Hd t Ht).
  apply keeps_bind; [apply with_timeout_keeps|]. intros ctx. destruct (memory_traces_keep ctx) as [H1 H2].
  case_bool_decide; apply keeps_bind; [apply H1|keep|apply H2|keep].
Qed.

Lemma check_store_keeps {A} key (m : GoM W (result A)) acc : keeps stores m -> keeps stores (check_store key m acc).
Proof. intros H. unfold check_store. by keep. Qed.

Lemma health_checks_keep r : keeps stores (health_checks (V := V) (d_traceStore d) (d_jobMgr d) r).
Proof.
  unfold health_checks. apply keeps_bind; [|intros acc; apply keeps_bind; [|keep]].
  - case_eq (d_traceStore d); [intros t Ht|intros _; keep]. rewrite (Hd t Ht).
    apply keeps_bind; [apply with_timeout_keeps|]. intros ctx. apply check_store_keeps, memory_traces_keep.
  - case_eq (d_jobMgr d); [intros jm Hjm|intros _; keep]. apply keeps_bind; [apply with_timeout_keeps|]. intros ctx.
    by apply check_store_keeps, Hj.
Qed.

Lemma handleHealth_safe : safe_handler (d_handleHealth d).
Proof. intros r. apply only_get_safe. apply keeps_bind; [apply health_checks_keep|keep]. Qed.

Lemma messages_safe {T} (op : MessageStoreReader W -> context -> MessageFilter -> GoM W (result (QueryResult T))) json :
  (forall ctx f, (0 <= mf_Offset f)%Z -> keeps stores (op observable_reader ctx f)) -> safe_handler (d_messages op json d).
Proof.
  intros Hop r. apply only_get_safe. case_eq (d_msgReader d); [intros m Hmr|intros _; keep]. rewrite (Hm m Hmr).
  apply keeps_bind; [apply with_timeout_keeps|]. intros ctx. apply keeps_bind; [by apply Hop|keep].
Qed.

Lemma routes_safe : Forall (fun p => safe_handler p.2) (RegisterRoutes d).
Proof.
  unfold RegisterRoutes. repeat apply Forall_app_2; case_match; try apply Forall_nil_2; apply Forall_singleton; cbn.
  - apply handleStats_safe.
  - apply messages_safe. intros. by apply observable_reader_keeps.
  - apply messages_safe. intros. by apply observable_reader_keeps.
  - apply messages_safe. intros. by apply observable_reader_keeps.
  - apply handleJobs_safe.
  - apply handleTraces_safe.
  - apply handleHealth_safe.
Qed.
End Safety.

(** ** Properties *)

(** The dashboard cannot fail: over the in-memory stores, and a job manager whose listing
    returns, every handler of every registered route returns a response, whatever the
    parameters of the request are, and leaves the statistics, the spans and the messages as
    they are; a method other than GET is refused with 405. *)
Theorem dashboard_never_panics {W V} `{!Clock W, !Has StatsCollector W, !Has InMemoryTraceStore W, !Has ObservableMessageStore W}
    `{!SortSlice, !SortSliceLaws, !MapRange, !MapRangeLaws} (d : Dashboard (W := W) (V := V)) sc ts ms r path h (w : W) :
  keeps (stores_are sc ts ms) (time_now (W := W)) ->
  (forall t, d_traceStore d = Some t -> t = memory_traces) ->
  (forall m, d_msgReader d = Some m -> m = observable_reader) ->
  (forall jm ctx s, d_jobMgr d = Some jm -> keeps (stores_are sc ts ms) (jm ctx s)) ->
  stats_small sc -> store_ok ts -> stores_are sc ts ms w -> (path, h) ∈ RegisterRoutes d ->
  exists resp w', h r w = (Done resp, w') /\ stores_are sc ts ms w' /\
    (rq_Method r <> "GET" -> resp = HttpError "method not allowed" StatusMethodNotAllowed).
Proof.
  intros Hnow Hd Hm Hj Hsc Hts Hw Hh.
  pose proof (routes_safe sc ts ms Hsc Hts Hnow d Hd Hm Hj) as Hsafe. rewrite Forall_forall in Hsafe.
  destruct (Hsafe _ Hh r) as [Hk Hget]. destruct (Hk w Hw) as (resp & w' & E & Hw'). exists resp, w'. split_and!; [done|done|].
  intros Hr. cbn in *. rewrite (Hget Hr w) in E. by injection E.
Qed.

(** ** A concrete dashboard *)
Module DemoDashboard.
Definition world : Type := Z * (StatsCollector * (InMemoryTraceStore * ObservableMessageStore)).
#[export] Instance demo_clock : Clock world := fun w => (w.1, ((w.1 + 1)%Z, w.2)).
#[export] Instance demo_stats : Has StatsCollector world := { part w := w.2.1; set_part s w := (w.1, (s, w.2.2)) }.
#[export] Instance demo_traces : Has InMemoryTraceStore world := { part w := w.2.2.1; set_part t w := (w.1, (w.2.1, (t, w.2.2.2))) }.
#[export] Instance demo_messages : Has ObservableMessageStore world :=
  { part w := w.2.2.2; set_part m w := (w.1, (w.2.1, (w.2.2.1, m))) }.

Definition demo_jobs : JobLister world Z := fun _ s w =>
  (Done (if bool_decide (s = "running") then Err (ENew "down") else Ok []), w).
Definition board : Dashboard (W := world) (V := Z) :=
  NewDashboard [WithDashboardTraceStore memory_traces; WithMessageReader observable_reader; WithoutStats;
                WithDashboardJobManager demo_jobs].
Definition w0 : world := (0%Z, (NewStatsCollector [], (NewInMemoryTraceStore [], Messages.DemoMessages.store))).
Definition get (q : list (string * string)) : request := mkRequest "GET" q "" "" Background.
End DemoDashboard.
Import DemoDashboard.

Lemma dashboard_never_panics_witness :
  (exists resp w', d_handleCommands board (get [("limit", "99999999999999999999"); ("type", "Pay")]) w0 = (Done resp, w')) /\
  d_handleJobs board (get []) w0 = (Done (WriteJSON 500 (JError "down")), (1%Z, w0.2)).
Proof.
  split; [|reflexivity].
  destruct (dashboard_never_panics board w0.2.1 w0.2.2.1 w0.2.2.2 (get [("limit", "99999999999999999999"); ("type", "Pay")])
    "/api/ddd/commands" (d_handleCommands board) w0) as (resp & w' & H & _); [..|by exists resp, w'].
  - intros w (H1 & H2 & H3). exists w.1, ((w.1 + 1)%Z, w.2). by split_and!.
  - intros t [= <-]. done.
  - intros m [= <-]. done.
  - intros jm ctx s [= <-] w Hw. by eexists _, w.
  - intros n rec H. change (records _) with (∅ : gmap string operationRecord) in H. by rewrite lookup_empty in H.
  - apply (new_store_ok []). by vm_compute.
  - done.
  - left.
Defined.
