(* ===== verification/ContractTraces.v ===== *)
(** * The contract of trace stores: [src/trace/tracetest/trace_store_contract.go]

    The suite, an interface of laws that says what both trace stores promise, the
    proof that a store with these laws passes, and the two stores. The in-memory store keeps
    the promise as long as the clock moves by less than the spans' time to live. *)

From S2P Require Import Prelude Errors Testing Aspect Bus Builtin Pg SqlQuery PgTrace Stats Dashboard Trace.

(** [t.Truncate(time.Microsecond)]. *)
Definition truncate_us (t : Z) : Z := (t - t mod 1000)%Z.
Definition hour : Z := 3600 * second.
Definition minute : Z := 60 * second.
Definition millisecond : Z := 1000000.

Section Suite.
Context {W : Type} `{!Clock W} (newStore : GoM W unit) (store : TraceStore W) (reader : TraceReader W).
Abbreviation ctx := Background.

(** [time.Now().Truncate(time.Microsecond)]. *)
Definition now_us : GoM W Z := t ← time_now; mret (truncate_us t).
(** [&trace.Span{...}] with the fields given. *)
Definition test_span (i tid ty name st err : string) (at_ d : Z) : Span := mkSpan i tid "" ty name st err at_ d.
Definition successful (i tid ty name : string) (at_ : Z) : Span := test_span i tid ty name SpanStatusSuccess "" at_ 0.
Definition filter_type (ty : string) : TraceFilter := mkFilter "" ty "" time_zero time_zero "".
Definition filter_name (name : string) : TraceFilter := mkFilter "" "" "" time_zero time_zero name.
Definition filter_status (st : string) : TraceFilter := mkFilter "" "" st time_zero time_zero "".
Definition filter_start (t : Z) : TraceFilter := mkFilter "" "" "" t time_zero "".

Definition must_record (sp : Span) : TestM W unit :=
  err ← call (store_RecordSpan store ctx sp); must err "RecordSpan failed: %v".
Definition must_trace (tid : string) : TestM W (list Span) :=
  r ← call (tr_GetTrace reader ctx tid); must_ok r "GetTrace failed: %v".
Definition must_traces (f : TraceFilter) : TestM W (list string) :=
  r ← call (tr_ListTraces reader ctx f); must_ok r "ListTraces failed: %v".
Definition span_at (l : list Span) (i : nat) : TestM W Span := call (go_outcome (index_get l i)).

Fixpoint record_all (l : list Span) : TestM W unit :=
  match l with
  | [] => mret tt
  | sp :: l => _ ← must_record sp; record_all l
  end.

(** The last two subtests of the suite. *)
Definition empty_and_multiple_tests : TestM W unit :=
  _ ← t_Run "ListTracesEmptyResult" (
    _ ← call newStore;
    ids ← must_traces (filter_type "nonexistent-type");
    expect (bool_decide (zlen ids = 0%Z)) "expected 0 traces for nonexistent type, got %d");
  t_Run "MultipleSpansPerTrace" (
    _ ← call newStore;
    let traceID := "contract-multi-trace" in
    t1 ← call now_us; t2 ← call now_us;
    _ ← record_all [successful "contract-multi-1" traceID SpanTypeCommand "Cmd" t1;
                    successful "contract-multi-2" traceID SpanTypeEvent "Evt" t2];
    got ← must_trace traceID;
    require (bool_decide (zlen got = 2%Z)) "expected 2 spans for trace %q, got %d").

Definition TestTraceStoreContract : TestM W unit :=
  _ ← t_Run "RecordAndGetTrace" (
    _ ← call newStore;
    t ← call now_us;
    _ ← must_record (test_span "contract-span-1" "contract-trace-1" SpanTypeCommand "ContractCommand"
                       SpanStatusSuccess "" t (10 * millisecond));
    spans ← must_trace "contract-trace-1";
    _ ← require (bool_decide (zlen spans = 1%Z)) "expected 1 span, got %d";
    s0 ← span_at spans 0;
    _ ← expect (bool_decide (SpanName s0 = "ContractCommand")) "expected Name 'ContractCommand', got %q";
    expect (bool_decide (TraceID s0 = "contract-trace-1")) "expected TraceID 'contract-trace-1', got %q");
  _ ← t_Run "GetTraceNotFound" (
    _ ← call newStore;
    r ← call (tr_GetTrace reader ctx "contract-nonexistent");
    _ ← must_err r "expected error for nonexistent traceID, got nil";
    mret tt);
  _ ← t_Run "RecordSpanWithError" (
    _ ← call newStore;
    t ← call now_us;
    _ ← must_record (test_span "contract-span-err" "contract-trace-err" SpanTypeCommand "FailCommand"
                       SpanStatusError "something went wrong" t (5 * millisecond));
    spans ← must_trace "contract-trace-err";
    _ ← require (bool_decide (zlen spans = 1%Z)) "expected 1 span, got %d";
    s0 ← span_at spans 0;
    _ ← expect (bool_decide (Status s0 = SpanStatusError)) "expected Status %q, got %q";
    expect (bool_decide (SpanError s0 = "something went wrong")) "expected Error 'something went wrong', got %q");
  _ ← t_Run "ListTracesByType" (
    _ ← call newStore;
    t1 ← call now_us; t2 ← call now_us; t3 ← call now_us;
    _ ← record_all [successful "contract-type-1" "contract-type-t1" SpanTypeCommand "Cmd1" t1;
                    successful "contract-type-2" "contract-type-t2" SpanTypeQuery "Qry1" t2;
                    successful "contract-type-3" "contract-type-t3" SpanTypeCommand "Cmd2" t3];
    ids ← must_traces (filter_type SpanTypeCommand);
    expect (bool_decide (zlen ids = 2%Z)) "expected 2 traces with type=command, got %d");
  _ ← t_Run "ListTracesByNameContains" (
    _ ← call newStore;
    t1 ← call now_us; t2 ← call now_us;
    _ ← record_all [successful "contract-name-1" "contract-name-t1" SpanTypeCommand "CreateOrder" t1;
                    successful "contract-name-2" "contract-name-t2" SpanTypeCommand "DeleteUser" t2];
    ids ← must_traces (filter_name "Order");
    expect (bool_decide (zlen ids = 1%Z)) "expected 1 trace with NameContains 'Order', got %d");
  _ ← t_Run "ListTracesByStatus" (
    _ ← call newStore;
    t1 ← call now_us; t2 ← call now_us;
    _ ← record_all [successful "contract-status-1" "contract-status-t1" SpanTypeCommand "OK" t1;
                    test_span "contract-status-2" "contract-status-t2" SpanTypeCommand "Bad" SpanStatusError "fail" t2 0];
    ids ← must_traces (filter_status SpanStatusError);
    expect (bool_decide (zlen ids = 1%Z)) "expected 1 trace with status=error, got %d");
  _ ← t_Run "ListTracesByTimeRange" (
    _ ← call newStore;
    now ← call now_us;
    let past := (now - 2 * hour)%Z in
    let recent := (now - 5 * minute)%Z in
    _ ← record_all [successful "contract-time-1" "contract-time-t1" SpanTypeCommand "Old" past;
                    successful "contract-time-2" "contract-time-t2" SpanTypeCommand "Recent" recent];
    ids ← must_traces (filter_start (now - 1 * hour));
    expect (bool_decide (zlen ids = 1%Z)) "expected 1 trace within time range, got %d");
  empty_and_multiple_tests.
End Suite.

(** ** What both trace stores promise

    A store holds a list of spans. It keeps the time that a span started with a resolution,
    and keeps only spans that started lately ([ts_live]). A filter of several criteria is not
    part of the promise, nor are more spans than the in-memory store keeps. *)

Definition with_start (t : Z) (sp : Span) : Span :=
  mkSpan (SpanID sp) (TraceID sp) (ParentID sp) (SpanType sp) (SpanName sp) (Status sp) (SpanError sp) t (Duration sp).

Class TraceStoreLaws {W : Type} `{!Clock W} (store : TraceStore W) (reader : TraceReader W) := {
  ts_holds : list Span -> W -> Prop;
  ts_live : Z -> Prop;
  ts_resolve : Z -> Z;
  ts_clock : forall l w, ts_holds l w -> exists t w', now w = (t, w') /\ ts_holds l w' /\ ts_live t /\
    forall d, (0 <= d <= 2 * hour)%Z -> (d mod 1000 = 0)%Z ->
      let u := (truncate_us t - d)%Z in ts_live u /\ ts_resolve u = u /\ (0 < u)%Z;
  ts_zero : ts_resolve time_zero = time_zero;
  ts_record : forall l w sp, ts_holds l w -> ts_live (StartedAt sp) -> SpanID sp ∉ map SpanID l ->
    (zlen l < defaultMaxSpans)%Z ->
    exists w', store_RecordSpan store Background sp w = (Done None, w') /\
      ts_holds (l ++ [with_start (ts_resolve (StartedAt sp)) sp]) w';
  ts_get : forall l w tid, ts_holds l w -> exists sps w', sps ≡ₚ List.filter (of_trace tid) l /\
    tr_GetTrace reader Background tid w =
      (Done (match sps with [] => Err (trace_not_found tid) | _ => Ok sps end), w') /\ ts_holds l w';
  ts_list : forall l w f, ts_holds l w -> criteria f <= 1 ->
    ts_resolve (f_StartTime f) = f_StartTime f -> ts_resolve (f_EndTime f) = f_EndTime f ->
    exists ids w', tr_ListTraces reader Background f w = (Done (Ok ids), w') /\ ts_holds l w' /\ NoDup ids /\
      forall t, t ∈ ids <-> exists sp, sp ∈ l /\ TraceID sp = t /\ span_matches f sp = true }.

(** The traces of the spans that match. *)
Definition listed (f : TraceFilter) (l : list Span) : list string :=
  remove_dups (map TraceID (List.filter (span_matches f) l)).

Lemma listed_all f l (ids : list string) : NoDup ids ->
  (forall t, t ∈ ids <-> exists sp, sp ∈ l /\ TraceID sp = t /\ span_matches f sp = true) ->
  zlen ids = zlen (listed f l).
Proof.
  intros Hnd Hids. unfold zlen. f_equal. apply Permutation_length, NoDup_Permutation; [done|apply NoDup_remove_dups|].
  intros t. unfold listed. rewrite Hids, elem_of_remove_dups, list_elem_of_fmap. split.
  - intros (sp & Hin & <- & Hm). exists sp. split; [done|]. apply list_elem_of_In, filter_In. by rewrite <- list_elem_of_In.
  - intros (sp & -> & [Hin Hm]%list_elem_of_In%filter_In). exists sp. by rewrite list_elem_of_In.
Qed.

Section Passing.
Context {W : Type} `{!Clock W} (newStore : GoM W unit) (store : TraceStore W) (reader : TraceReader W).
Context `{HT : !TraceStoreLaws store reader} {B : Type}.
Implicit Types (Q : option B -> W -> Prop).

(** A reading of the clock, truncated: times up to two hours before it are kept as they are. *)
Definition reading (u : Z) : Prop :=
  forall d, (0 <= d <= 2 * hour)%Z -> (d mod 1000 = 0)%Z ->
    ts_live (u - d) /\ ts_resolve (u - d) = (u - d)%Z /\ (0 < u - d)%Z.

Lemma step_now_us l (k : Z -> TestM W B) w Q : ts_holds l w ->
  (forall t w', ts_holds l w' -> reading t -> passing (k t) w' Q) -> passing (x ← call now_us; k x) w Q.
Proof.
  intros Hw Hk. destruct (ts_clock l w Hw) as (t & w' & Hn & Hw' & _ & Hr).
  eapply passing_step_call; [unfold now_us; unfold_go; by rewrite Hn|]. by apply Hk.
Qed.

Lemma step_recorded l sp (k : unit -> TestM W B) w Q : ts_holds l w ->
  ts_live (StartedAt sp) /\ ts_resolve (StartedAt sp) = StartedAt sp -> SpanID sp ∉ map SpanID l ->
  (zlen l < defaultMaxSpans)%Z -> (forall w', ts_holds (l ++ [sp]) w' -> passing (k tt) w' Q) -> passing (x ← must_record store sp; k x) w Q.
Proof.
  intros Hw [Hl Hr] Hid Hb Hk. destruct (ts_record l w sp Hw Hl Hid Hb) as (w' & He & Hw'). rewrite Hr in Hw'.
  unfold must_record. test_step. test_call He. test_step. apply Hk. by destruct sp.
Qed.

Lemma step_trace l tid (k : list Span -> TestM W B) w Q : ts_holds l w -> List.filter (of_trace tid) l <> [] ->
  (forall sps w', ts_holds l w' -> sps ≡ₚ List.filter (of_trace tid) l -> passing (k sps) w' Q) ->
  passing (x ← must_trace reader tid; k x) w Q.
Proof.
  intros Hw Hne Hk. destruct (ts_get l w tid Hw) as (sps & w' & Hp & Hr & Hw').
  destruct sps as [|sp sps]; [by apply Permutation_nil in Hp|].
  unfold must_trace. test_step. test_call Hr. test_step. by apply Hk.
Qed.

Lemma step_trace_one l tid sp (k : list Span -> TestM W B) w Q : ts_holds l w -> List.filter (of_trace tid) l = [sp] ->
  (forall w', ts_holds l w' -> passing (k [sp]) w' Q) ->
  passing (x ← must_trace reader tid; k x) w Q.
Proof.
  intros Hw Hl Hk. eapply step_trace; [done|by rewrite Hl|]. intros sps w' Hw' Hp.
  rewrite Hl in Hp. apply Permutation_singleton_r in Hp as ->. by apply Hk.
Qed.

Lemma step_trace_none l tid (k : result (list Span) -> TestM W B) w Q :
  ts_holds l w -> List.filter (of_trace tid) l = [] ->
  (forall e w', ts_holds l w' -> passing (k (Err e)) w' Q) -> passing (x ← call (tr_GetTrace reader Background tid); k x) w Q.
Proof.
  intros Hw Hnil Hk. destruct (ts_get l w tid Hw) as (sps & w' & Hp & Hr & Hw'). rewrite Hnil in Hp.
  symmetry in Hp. apply Permutation_nil in Hp as ->. test_call Hr. by apply Hk.
Qed.

Lemma step_traces l f (k : list string -> TestM W B) w Q : ts_holds l w -> criteria f <= 1 ->
  ts_resolve (f_StartTime f) = f_StartTime f -> ts_resolve (f_EndTime f) = f_EndTime f ->
  (forall ids w', ts_holds l w' -> zlen ids = zlen (listed f l) -> passing (k ids) w' Q) ->
  passing (x ← must_traces reader f; k x) w Q.
Proof.
  intros Hw Hc Hs He Hk. destruct (ts_list l w f Hw Hc Hs He) as (ids & w' & Hr & Hw' & Hnd & Hids).
  unfold must_traces. test_step. test_call Hr. test_step. apply Hk; [done|]. by apply listed_all.
Qed.

Lemma step_span_at (l : list Span) i sp (k : Span -> TestM W B) w Q :
  l !! i = Some sp -> passing (k sp) w Q -> passing (x ← span_at l i; k x) w Q.
Proof. intros Hi Hk. unfold span_at. eapply passing_step_call; [|exact Hk]. unfold go_outcome, index_get. by rewrite Hi. Qed.

Lemma reading_at u d : reading u -> (0 <= d <= 2 * hour)%Z -> (d mod 1000 = 0)%Z ->
  ts_live (u - d) /\ ts_resolve (u - d) = (u - d)%Z.
Proof. intros Hu Hd Hm. destruct (Hu d Hd Hm) as (? & ? & _). done. Qed.

Lemma reading_now u : reading u -> ts_live u /\ ts_resolve u = u.
Proof. intros Hu. pose proof (reading_at u 0 Hu ltac:(done) ltac:(done)) as H. by rewrite Z.sub_0_r in H. Qed.
End Passing.

(** The filters of the tests have one criterion. *)
Lemma filters_single s t : criteria (filter_type s) <= 1 /\ criteria (filter_name s) <= 1 /\
  criteria (filter_status s) <= 1 /\ criteria (filter_start t) <= 1.
Proof.
  unfold criteria, filter_type, filter_name, filter_status, filter_start, time_is_zero, time_zero. cbn -[bool_decide].
  split_and!; [destruct (bool_decide (s = ""))..|destruct (bool_decide (t = 0%Z))]; vm_compute; lia.
Qed.

(** Of two spans, one an hour and more before the other, the filter on times gives the later one. *)
Lemma listed_start t old recent : (0 < t)%Z -> StartedAt old = (t - 1 * hour)%Z -> (t <= StartedAt recent)%Z ->
  TraceID old <> TraceID recent -> listed (filter_start t) [old; recent] = [TraceID recent].
Proof.
  intros Ht Ho Hr Hne. unfold listed, span_matches, filter_start, time_is_zero, time_zero, time_before. cbn -[bool_decide remove_dups].
  rewrite (bool_decide_eq_false_2 (t = 0%Z)) by lia. rewrite (bool_decide_eq_true_2 (StartedAt old < t)%Z) by (unfold hour, second in *; lia).
  rewrite (bool_decide_eq_false_2 (StartedAt recent < t)%Z) by lia. reflexivity.
Qed.

(** A time of the tests: a reading, or so long before one. *)
Ltac test_time :=
  cbn [StartedAt successful test_span]; first [by apply reading_now | apply reading_at; [assumption|done|done]].

Ltac trace_step :=
  lazymatch goal with
  | |- passing (mbind _ (call now_us)) _ _ => eapply step_now_us; [eassumption|]; intros ? ? ? ?
  | |- passing (mbind _ (must_record _ _)) _ _ =>
      eapply step_recorded; [eassumption|test_time|apply (bool_decide_unpack _); vm_compute; exact I|done|]; intros ? ?
  | |- passing (mbind _ (record_all _ _)) _ _ => cbn [record_all app]
  | |- passing (mbind _ (must_trace _ _)) _ _ =>
      first [eapply step_trace_one; [eassumption|reflexivity|]; intros ? ?
            |eapply step_trace; [eassumption|discriminate|]; intros ? ? ? ?]
  | |- passing (mbind _ (call (tr_GetTrace _ _ _))) _ _ => eapply step_trace_none; [eassumption|reflexivity|]; intros ? ? ?
  | H : reading _ _ ?t |- passing (mbind _ (must_traces _ (filter_start (?t - ?d)))) _ _ =>
      eapply step_traces; [eassumption|by apply (filters_single "")|by apply (reading_at _ _ t (1 * hour))|apply ts_zero|]; intros ? ? ? ?
  | |- passing (mbind _ (must_traces _ _)) _ _ =>
      eapply step_traces; [eassumption|apply (filters_single _ 0%Z)|apply ts_zero|apply ts_zero|]; intros ? ? ? ?
  | |- passing (mbind _ (span_at _ _)) _ _ => eapply step_span_at; [reflexivity|]
  | H : ?l ≡ₚ _ |- passing (mbind _ (require (bool_decide (zlen ?l = _)) _)) _ _ =>
      apply passing_step_require; [apply bool_decide_eq_true_2; unfold zlen; by rewrite (Permutation_length H)|]
  | |- passing (mbind _ (expect (bool_decide (zlen _ = _)) _)) _ _ =>
      apply passing_step_expect; [apply bool_decide_eq_true_2; etrans; [eassumption|];
        lazymatch goal with |- zlen (listed (filter_start _) _) = _ => idtac | _ => by vm_compute end|]
  | |- passing (mbind _ (expect _ _)) _ _ => apply passing_step_expect; [by apply bool_decide_eq_true_2|]
  | _ => test_step
  end.

Section Contract.
Context {W : Type} `{!Clock W} (newStore : GoM W unit) (store : TraceStore W) (reader : TraceReader W).
Context `{HT : !TraceStoreLaws store reader} (P : W -> Prop).
Context (HP : forall l w, ts_holds l w -> P w).
Context (Hnew : forall w, P w -> exists w', newStore w = (Done tt, w') /\ ts_holds [] w').

Lemma trace_contract_passes : passes P (TestTraceStoreContract newStore store reader).
Proof.
  unfold TestTraceStoreContract, empty_and_multiple_tests. subtests; intros w Hw; destruct (Hnew w Hw) as (w0 & Hr & Hh); test_call Hr; clear Hr Hw;
   repeat trace_step; try by eapply HP.
  cbn [app]. rewrite listed_start; [done| | | |done]; cbn [StartedAt successful test_span].
  - match goal with H : reading _ _ _ |- _ => by apply (H (1 * hour)%Z) end.
  - unfold hour, second; lia.
  - unfold hour, minute, second; lia.
Qed.
End Contract.

(** ** The in-memory store

    [lo] is a time so long before the tests that they end within a span's time to live after it. *)
Section Memory.
Context {W : Type} `{!Clock W, !Has InMemoryTraceStore W, !HasLaws InMemoryTraceStore W}.
Context (lo : Z) (Hlo : (0 < lo)%Z) (Hclock : forall w, part (S := InMemoryTraceStore) (now w).2 = part w).
Context (Hwindow : forall w : W, (lo + 2 * hour + 1000 <= (now w).1 <= lo + defaultTTL)%Z).

(** [RecordSpan] reads the clock to evict what is too old. *)
Definition record_at (sp : Span) (t : Z) : GoM W error := fun w =>
  match RecordSpan t sp (part w) with
  | Done s => (Done None, set_part s w)
  | Panicked why => (Panicked why, w)
  end.
Definition memory_recorder : TraceStore W := mkTraceStore (fun _ sp => t ← time_now; record_at sp t).

Definition new_memory_store : GoM W unit := fun w => (Done tt, set_part (NewInMemoryTraceStore []) w).

Definition keeps_spans (l : list Span) (w : W) : Prop :=
  store_ok (part w) /\ spans (part w) = l /\ ttl (part w) = defaultTTL /\ maxSpans (part w) = defaultMaxSpans /\
  Forall (fun sp => lo <= StartedAt sp)%Z l.

(** Nothing is evicted while the first span is live and there is room. *)
Lemma record_keeps t sp s : (zlen (spans s) < maxSpans s)%Z -> (t <= lo + ttl s)%Z ->
  Forall (fun sp => lo <= StartedAt sp)%Z (spans s ++ [sp]) -> RecordSpan t sp s = Done (appended sp s).
Proof.
  intros Hb Ht Hl. change (RecordSpan t sp s) with (evict t (appended sp s)). unfold evict.
  assert (first_valid t (appended sp s) = 0%Z) as ->; [|done].
  unfold first_valid. cbn [spans appended ttl maxSpans].
  assert (count_expired (t - ttl s) (spans s ++ [sp]) = 0) as ->.
  { inversion Hl as [|x k Hx _ Heq]; [done|]. cbn. unfold time_before. rewrite bool_decide_eq_false_2; [done|lia]. }
  rewrite bool_decide_eq_false_2; [done|]. rewrite zlen_app, zlen_cons, zlen_nil. lia.
Qed.

#[refine] Definition memory_trace_laws : TraceStoreLaws memory_recorder memory_traces :=
  {| ts_holds := keeps_spans; ts_live u := (lo <= u)%Z; ts_resolve u := u |}.
Proof.
  - intros l w Hw. specialize (Hclock w). specialize (Hwindow w). destruct (now w) as [t w']. cbn in Hclock, Hwindow.
    exists t, w'. split; [done|]. split; [unfold keeps_spans; by rewrite Hclock|].
    split; [unfold hour, second in *; lia|]. intros d Hd _ u. subst u. unfold truncate_us.
    pose proof (Z.mod_pos_bound t 1000). split_and!; [lia|done|lia].
  - done.
  - intros l w sp (Hok & Hl & Ht & Hm & Hf) Hlive _ Hb. cbn [store_RecordSpan memory_recorder]. unfold_go.
    specialize (Hclock w). specialize (Hwindow w). destruct (now w) as [t w']. cbn in Hclock, Hwindow. unfold record_at. rewrite Hclock.
    rewrite (record_keeps t sp (part w)).
    + eexists. split; [reflexivity|]. unfold keeps_spans. rewrite part_set. cbn [spans ttl maxSpans appended].
      replace (with_start (StartedAt sp) sp) with sp by (by destruct sp).
      rewrite Hl. split_and!; [by apply appended_ok|done..|]. apply Forall_app. by repeat constructor.
    + by rewrite Hl, Hm.
    + rewrite Ht. lia.
    + rewrite Hl. apply Forall_app. by repeat constructor.
  - intros l w tid (Hok & <- & Hrest). exists (List.filter (of_trace tid) (spans (part w))), w. split; [done|].
    split; [|done]. cbn [tr_GetTrace memory_traces]. rewrite get_trace_correct by done. unfold get_trace_spec.
    by destruct (List.filter _ _).
  - intros l w f (Hok & Hl & Hrest) Hc _ _. destruct (list_traces_spec f (part w) Hok) as (ids & Hr & Hnd & Hids).
    exists ids, w. cbn [tr_ListTraces memory_traces]. rewrite Hr. split; [done|]. split; [done|]. split; [done|].
    intros t. rewrite Hids, Hl. split.
    + intros [Hne Ht]. by apply listed_matches.
    + intros (sp & Hin & <- & Hm). split; [|by apply matches_listed]. intros Hnil.
      assert (In sp (List.filter (of_trace (TraceID sp)) l)) as Hi; [|by rewrite Hnil in Hi].
      apply filter_In. split; [by apply list_elem_of_In|by apply bool_decide_eq_true_2].
Defined.

Lemma new_trace_memory w : exists w', new_memory_store w = (Done tt, w') /\ keeps_spans [] w'.
Proof.
  eexists. split; [reflexivity|]. unfold keeps_spans. rewrite part_set.
  split_and!; [apply new_store_ok; by vm_compute|done..].
Qed.
End Memory.

(** ** The store on PostgreSQL *)
Section Pg.
Context {W Tx : Type} `{!Clock W, !Has (tx_states Tx) W, !SpanTable W Tx, HST : !SpanTableLaws W Tx}.
Abbreviation ok := (spans_ok (W := W) (Tx := Tx)).
Abbreviation rows_in := (span_rows (W := W) (Tx := Tx)).
Abbreviation resolution := (spans_time (W := W) (Tx := Tx)).
Context (Husable : spans_usable (W := W) (Tx := Tx) Background).
Context (Hclock : forall w, ok w -> exists t w', now w = (t, w') /\ spans_leads (Tx := Tx) w w' (rows_in w) /\
  (2 * hour + 1000 < t)%Z).
(** The database keeps microseconds. *)
Context (Hres : forall t, (t mod 1000 = 0)%Z -> resolution t = t).

Definition pg_recorder : TraceStore W := mkTraceStore (pg_RecordSpan (Tx := Tx)).
Definition pg_traces : TraceReader W := mkTraceReader _ (pg_GetTrace (Tx := Tx)) (pg_ListTraces (Tx := Tx)).

Definition has_rows (l : list Span) (w : W) : Prop :=
  ok w /\ table_rows (rows_in w) ≡ₚ map row_of_span l /\ map_Forall (fun i r => sr_id r = i) (rows_in w).

Lemma has_rows_same l w w' : has_rows l w -> spans_leads (Tx := Tx) w w' (rows_in w) -> has_rows l w'.
Proof. intros (_ & Hp & Hk) [Hok Hr]. unfold has_rows. by rewrite Hr. Qed.

Lemma truncated t d : (d mod 1000 = 0)%Z -> ((truncate_us t - d) mod 1000 = 0)%Z.
Proof.
  intros Hd. unfold truncate_us. pose proof (Z.div_mod t 1000). pose proof (Z.div_mod d 1000).
  replace (t - t mod 1000 - d)%Z with ((t / 1000 - d / 1000) * 1000)%Z by lia. apply Z.mod_mul. done.
Qed.

#[refine] Definition pg_trace_laws : TraceStoreLaws pg_recorder pg_traces :=
  {| ts_holds := has_rows; ts_live _ := True; ts_resolve := resolution |}.
Proof.
  - intros l w Hw. destruct (Hclock w (proj1 Hw)) as (t & w' & Hn & Hl & Ht). exists t, w'.
    split; [done|]. split; [by eapply has_rows_same|]. split; [done|]. intros d Hd Hm u. subst u. split; [done|].
    split; [by apply Hres, truncated|]. unfold truncate_us. pose proof (Z.mod_pos_bound t 1000). lia.
  - by apply Hres.
  - intros l w sp (Hok & Hp & Hk) _ Hid _. cbn [store_RecordSpan pg_recorder]. unfold pg_RecordSpan. unfold_go.
    rewrite GetQuerier_at.
    destruct (spans_insert_law (Tx := Tx) Background w (row_of_span sp) Hok Husable) as (w' & Hins).
    change (sr_id (row_of_span sp)) with (SpanID sp) in Hins.
    assert (rows_in w !! SpanID sp = None) as Hfresh.
    { destruct (rows_in w !! SpanID sp) as [r|] eqn:E; [|done]. destruct Hid.
      assert (r ∈ map row_of_span l) as Hin.
      { rewrite <- Hp. apply list_elem_of_fmap. exists (SpanID sp, r). split; [done|]. by apply elem_of_map_to_list. }
      apply list_elem_of_fmap in Hin as (sp' & -> & Hin). rewrite <- (Hk _ _ E). change (sr_id (row_of_span sp')) with (SpanID sp').
      by apply list_elem_of_fmap_2. }
    rewrite Hfresh in Hins. destruct Hins as (-> & Hok' & Hr). exists w'. split; [done|].
    replace (resolve_row resolution (row_of_span sp)) with (row_of_span (with_start (resolution (StartedAt sp)) sp)) in Hr
      by done.
    split_and!; [done| |].
    + rewrite Hr. change (SpanID sp) with (sr_id (row_of_span (with_start (resolution (StartedAt sp)) sp))).
      rewrite table_rows_insert by done. by rewrite Hp, map_app.
    + rewrite Hr. by apply map_Forall_insert_2.
  - intros l w tid Hw. pose proof Hw as (Hok & Hp & _).
    destruct (pg_GetTrace_rows Background w l tid Hok Husable Hp) as (sps & w' & Hsps & _ & Hr & Hl).
    exists sps, w'. split; [done|]. split; [exact Hr|]. by eapply has_rows_same.
  - intros l w f Hw Hc Hs He. pose proof Hw as (Hok & Hp & _).
    destruct (pg_ListTraces_rows Background w l f Hok Husable Hp Hs He) as (ids & w' & Hr & Hl & Hnd & Hids).
    exists ids, w'. split; [exact Hr|]. split; [by eapply has_rows_same|]. by split.
Defined.
End Pg.

(** ** Properties *)

(** The contract of trace stores holds for both stores: the in-memory store passes every test of
    the suite if the tests are run within a span's time to live, and the store on PostgreSQL passes
    them from any table, with the microseconds that the database keeps of a time. In particular
    spans of one trace are read back, a trace that is missing is an error, and each filter lists
    exactly the traces with a matching span. *)
Theorem trace_store_contract {M} `{!Clock M, !Has InMemoryTraceStore M, !HasLaws InMemoryTraceStore M}
    {W Tx} `{!Clock W, !Has (tx_states Tx) W, !SpanTable W Tx, HST : !SpanTableLaws W Tx}
    (lo : Z) (newStore : GoM W unit) :
  let pg_in_order := fun w => exists l, has_rows (Tx := Tx) l w in
  (0 < lo)%Z -> (forall w : M, part (S := InMemoryTraceStore) (now w).2 = part w) ->
  (forall w : M, (lo + 2 * hour + 1000 <= (now w).1 <= lo + defaultTTL)%Z) ->
  spans_usable (W := W) (Tx := Tx) Background ->
  (forall w, spans_ok (Tx := Tx) w -> exists t w', now w = (t, w') /\
     spans_leads (Tx := Tx) w w' (span_rows (Tx := Tx) w) /\ (2 * hour + 1000 < t)%Z) ->
  (forall t, (t mod 1000 = 0)%Z -> spans_time (W := W) (Tx := Tx) t = t) ->
  (forall w, pg_in_order w -> exists w', newStore w = (Done tt, w') /\ has_rows (Tx := Tx) [] w') ->
  passes (fun w : M => exists l, keeps_spans lo l w) (TestTraceStoreContract new_memory_store memory_recorder memory_traces) /\
  passes pg_in_order (TestTraceStoreContract newStore (pg_recorder (Tx := Tx)) (pg_traces (Tx := Tx))).
Proof.
  intros pg_in_order Hlo Hclock Hwin Hu Hpg Hres Hnew. split.
  - apply (trace_contract_passes _ _ _ (HT := memory_trace_laws lo Hlo Hclock Hwin)); [intros l w Hl; by exists l|].
    intros w _. apply (new_trace_memory lo).
  - apply (trace_contract_passes _ _ _ (HT := pg_trace_laws Hu Hpg Hres)); [intros l w Hl; by exists l|exact Hnew].
Qed.

(** A clock that stands still, for both stores. *)
Module DemoContractTraces.
Export DemoPgTrace.
Definition start : Z := 3 * hour.
#[export] Instance pg_clock : Clock world := fun w => (start, w).
Definition clear : GoM world unit := fun w => (Done tt, mkWorld ∅ (txs w)).
#[export] Instance memory_clock : Clock InMemoryTraceStore := fun s => (start, s).
End DemoContractTraces.
Import DemoContractTraces.

Lemma trace_store_contract_witness :
  passing (TestTraceStoreContract new_memory_store memory_recorder memory_traces) (NewInMemoryTraceStore []) (fun _ _ => True) /\
  passing (TestTraceStoreContract clear (pg_recorder (Tx := unit)) (pg_traces (Tx := unit))) w0 (fun _ _ => True).
Proof.
  destruct (trace_store_contract (M := InMemoryTraceStore) (Tx := unit) (HST := DemoPgTrace.demo_laws) 1 clear)
    as [H1 H2]; [done|done|intros w; split; by vm_compute|exact I| |done| |].
  - intros w _. exists start, w. split; [done|]. by split.
  - intros w _. eexists. split; [reflexivity|]. split; [exact I|].
    split; [done|]. intros i r Hr. vm_compute in Hr. discriminate.
  - split; (eapply passing_conseq; [|done]).
    + apply H1. exists []. split_and!; [apply new_store_ok; by vm_compute|done..|constructor].
    + apply H2. exists []. split; [exact I|]. split; [done|]. intros i r Hr. vm_compute in Hr. discriminate.
Defined.
