(* ===== verification/TypeRegistry.v ===== *)
(** * The registry of type prototypes: [src/observability/type_prototype.go],
    [bus_collector.go]

    What the viewer shows of the message types: their fields, by category and by
    domain, collected from the buses and from samples. *)

From S2P Require Import Prelude Errors Trace Aspect Bus EventBus Relationship.

(** ** Types as the registry sees them

    [reflect.Type]: predeclared types, structs, the literals that are taken apart, types
    defined by another type, and the rest. What [reflect] knows of a struct's fields, and the
    text of an unnamed type, are parameters: types can be recursive. *)
Inductive gotype :=
| GBasic (name : string)
| GStruct (path name : string)
| GPtr (elem : gotype)
| GSlice (elem : gotype)
| GArray (len : Z) (elem : gotype)
| GMap (key elem : gotype)
| GDefined (path name : string) (underlying : gotype)
| GOther (path name : string).

Record gofield := mkField { gf_Name : string; gf_Exported : bool; gf_Type : gotype }.

Class ReflectTypes := {
  struct_fields : gotype -> list gofield;
  gotype_String : gotype -> string }.

(** The type whose [Kind] and [Elem] a type has. *)
Fixpoint underlying_of (t : gotype) : gotype := match t with GDefined _ _ u => underlying_of u | _ => t end.
Definition gotype_Name (t : gotype) : string :=
  match t with GBasic n | GStruct _ n | GDefined _ n _ | GOther _ n => n | _ => "" end.
Definition gotype_PkgPath (t : gotype) : string :=
  match t with GStruct p _ | GDefined p _ _ | GOther p _ => p | _ => "" end.

(** [if t.Kind() == reflect.Ptr { t = t.Elem() }]. *)
Definition deref_type (t : gotype) : gotype := match underlying_of t with GPtr e => e | _ => t end.

(** ** Prototypes *)

Record FieldInfo := mkFieldInfo { fi_Name : string; fi_Type : string }.

Record TypePrototype := mkProto {
  tp_Name : string;
  tp_Category : string;
  tp_Domain : string;
  tp_Fields : list FieldInfo;
  tp_ResultType : string;
  tp_Result : list FieldInfo }.

Record DomainInfo := mkDomainInfo {
  di_Name : string;
  di_Commands : list TypePrototype;
  di_Queries : list TypePrototype;
  di_Events : list TypePrototype }.

(** Prototypes are not written to after their registration: the pointers are values. *)
Record TypePrototypeRegistry := mkTypes {
  prototypes : gmap string TypePrototype;
  byCategory : gmap string (list TypePrototype);
  byDomain : gmap string (list TypePrototype);
  domains : list string }.

Definition NewTypePrototypeRegistry : TypePrototypeRegistry := mkTypes ∅ ∅ ∅ [].

(** The loop of [splitPkgPath]: [cur] is the text since [start]. *)
Fixpoint split_path (cur : string) (s : string) : list string :=
  match s with
  | EmptyString => if bool_decide (cur = "") then [] else [cur]
  | String c s' =>
      if Ascii.eqb c (Ascii.ascii_of_nat 47) then
        if bool_decide (cur = "") then split_path "" s' else cur :: split_path "" s'
      else split_path (cur +:+ String c "") s'
  end.
Definition splitPkgPath (pkgPath : string) : list string := split_path "" pkgPath.

(** The loop from the last part backwards. *)
Definition shortPackageName (pkgPath : string) : string :=
  let parts := splitPkgPath pkgPath in
  match List.find (fun p => bool_decide (p <> "") && bool_decide (p <> "core") && bool_decide (p <> "exampleapp"))
          (rev parts) with
  | Some p => p
  | None => default pkgPath (last parts)
  end.

(** [strings.TrimPrefix] and [strings.LastIndex]. *)
Definition trim_prefix (pre s : string) : string :=
  if str_has_prefix s pre then str_from (String.length pre) s else s.
Fixpoint after_last_dot (best : option string) (s : string) : option string :=
  match s with
  | EmptyString => best
  | String c s' => after_last_dot (if Ascii.eqb c (Ascii.ascii_of_nat 46) then Some s' else best) s'
  end.
Definition normalizeTypeName (name : string) : string :=
  let name := trim_prefix "*" (trim_prefix "Event/" (trim_prefix "Query/" (trim_prefix "Command/" name))) in
  default name (after_last_dot None name).

(** The same code as [relationship.InferDomainFromPkgPath]. *)
Definition inferDomainFromPkgPath (pkgPath : string) : string := InferDomainFromPkgPath pkgPath.

(** The kinds in the order of the tests; the kind of a defined type is its underlying
    type's, and only then its name counts. *)
Fixpoint formatFieldType (t : gotype) : string :=
  (fix by_kind (u : gotype) : string :=
     match u with
     | GPtr e => "*" +:+ formatFieldType e
     | GSlice e => "[]" +:+ formatFieldType e
     | GArray n e => "[" +:+ pretty n +:+ "]" +:+ formatFieldType e
     | GMap k e => "map[" +:+ formatFieldType k +:+ "]" +:+ formatFieldType e
     | GDefined _ _ v => by_kind v
     | _ => if bool_decide (gotype_PkgPath t <> "") then shortPackageName (gotype_PkgPath t) +:+ "." +:+ gotype_Name t
            else gotype_Name t
     end) t.

Section Registry.
Context `{!SortSlice, !MapRange, !ReflectTypes}.
Implicit Types r : TypePrototypeRegistry.

Definition RegisterWithDomain (cat domain name : string) (fields : list FieldInfo) (resultType : string)
    (result : list FieldInfo) r : TypePrototypeRegistry :=
  let proto := mkProto name cat domain fields resultType result in
  let prototypes' := <[name := proto]> (prototypes r) in
  let byCategory' := <[cat := mget [] (byCategory r) cat ++ [proto]]> (byCategory r) in
  if bool_decide (domain <> "") then
    mkTypes prototypes' byCategory' (<[domain := mget [] (byDomain r) domain ++ [proto]]> (byDomain r))
      (if bool_decide (is_Some (byDomain r !! domain)) then domains r
       else sort_slice string_ltb (domains r ++ [domain]))
  else mkTypes prototypes' byCategory' (byDomain r) (domains r).

Definition Register (cat name : string) (fields : list FieldInfo) (resultType : string) (result : list FieldInfo) r :=
  RegisterWithDomain cat "" name fields resultType result r.

(** [extractFields]; nil gives nil. *)
Definition extractFields (t : option gotype) : list FieldInfo :=
  match t with
  | None => []
  | Some t =>
      let t := deref_type t in
      let t := match underlying_of t with GSlice e | GArray _ e => deref_type e | _ => t end in
      match underlying_of t with
      | GStruct _ _ =>
          map (fun f => mkFieldInfo (gf_Name f) (formatFieldType (gf_Type f)))
            (List.filter gf_Exported (struct_fields t))
      | _ => []
      end
  end.

Definition RegisterFromTypeWithDomain (cat domain name : string) (t resultType : option gotype) r :=
  let resultName := match resultType with
                    | None => ""
                    | Some rt => if bool_decide (gotype_Name rt <> "") then gotype_Name rt else gotype_String rt
                    end in
  RegisterWithDomain cat domain name (extractFields t) resultName (extractFields resultType) r.

Definition RegisterFromType (cat name : string) (t resultType : option gotype) r :=
  RegisterFromTypeWithDomain cat "" name t resultType r.

(** A sample is seen through [reflect.TypeOf]. *)
Definition RegisterFromSampleWithDomain (cat domain name : string) (sample resultSample : option gotype) r :=
  match sample with
  | None => r
  | Some t => RegisterFromTypeWithDomain cat domain name (Some (deref_type t)) (deref_type <$> resultSample) r
  end.

Definition inferDomainFromSample (sample : option gotype) : string :=
  match sample with None => "" | Some t => inferDomainFromPkgPath (gotype_PkgPath (deref_type t)) end.

Definition RegisterFromSample (cat name : string) (sample resultSample : option gotype) r :=
  RegisterFromSampleWithDomain cat (inferDomainFromSample sample) name sample resultSample r.

Definition Get (name : string) r : option TypePrototype := prototypes r !! name.

Definition proto_less (x y : TypePrototype) : bool := string_ltb (tp_Name x) (tp_Name y).
Definition proto_less_by_category (x y : TypePrototype) : bool :=
  if bool_decide (tp_Category x <> tp_Category y) then string_ltb (tp_Category x) (tp_Category y)
  else string_ltb (tp_Name x) (tp_Name y).

(** Sorts the registry's own slice, and returns it. *)
Definition ListByCategory (cat : string) r : list TypePrototype * TypePrototypeRegistry :=
  match byCategory r !! cat with
  | None => ([], r)
  | Some list =>
      let list := sort_slice proto_less list in
      (list, mkTypes (prototypes r) (<[cat := list]> (byCategory r)) (byDomain r) (domains r))
  end.

Definition ListAll r : list TypePrototype :=
  sort_slice proto_less_by_category (map snd (map_range (prototypes r))).

Definition CountByCategory (cat : string) r : Z := zlen (mget [] (byCategory r) cat).
Definition ListDomains r : list string := domains r.

Definition GetDomainInfo (domain : string) r : DomainInfo :=
  let types := mget [] (byDomain r) domain in
  let of_category c := sort_slice proto_less (List.filter (fun t => bool_decide (tp_Category t = c)) types) in
  mkDomainInfo domain (of_category "command") (of_category "query") (of_category "event").

Definition ListByDomain (domain : string) r : list TypePrototype * TypePrototypeRegistry :=
  match byDomain r !! domain with
  | None => ([], r)
  | Some list =>
      let list := sort_slice proto_less_by_category list in
      (list, mkTypes (prototypes r) (byCategory r) (<[domain := list]> (byDomain r)) (domains r))
  end.

Definition GetTypeDomain (typeName : string) r : string :=
  match prototypes r !! normalizeTypeName typeName with Some proto => tp_Domain proto | None => "" end.

(** ** Collecting ([bus_collector.go])

    A sample is its [reflect.TypeOf]; a nil sample or provider is [None]. *)
Record BusTypeSampleProvider := mkProvider {
  GetCommandSample : string -> option gotype * option gotype;
  GetQuerySample : string -> option gotype * option gotype;
  GetEventSample : string -> option gotype }.

(** The loop that the three collectors share. *)
Definition collect (cat : string) (sample_of : string -> option gotype * option gotype) (names : list string) r :=
  fold_left (fun r name =>
    match sample_of name with
    | (Some sample, resultSample) => RegisterFromSample cat name (Some sample) resultSample r
    | (None, _) => Register cat name [] "" [] r
    end) names r.

Definition samples (provider : option BusTypeSampleProvider)
    (get : BusTypeSampleProvider -> string -> option gotype * option gotype) (name : string) :
    option gotype * option gotype :=
  match provider with Some p => get p name | None => (None, None) end.

Context {W V : Type}.

Definition CollectFromCommandBus (bus : option (messageBus W V)) (provider : option BusTypeSampleProvider) r :
    outcome TypePrototypeRegistry :=
  match bus with
  | None => Done r
  | Some b => names ← registeredTypes b; Done (collect "command" (samples provider GetCommandSample) names r)
  end.
Definition CollectFromQueryBus (bus : option (messageBus W V)) (provider : option BusTypeSampleProvider) r :
    outcome TypePrototypeRegistry :=
  match bus with
  | None => Done r
  | Some b => names ← registeredTypes b; Done (collect "query" (samples provider GetQuerySample) names r)
  end.
Definition CollectFromEventBus (bus : option (EventBus W V)) (provider : option BusTypeSampleProvider) r :
    outcome TypePrototypeRegistry :=
  match bus with
  | None => Done r
  | Some b =>
      names ← SubscribedTypes b;
      Done (collect "event" (samples provider (fun p n => (GetEventSample p n, None))) names r)
  end.

Definition CollectFromBuses (cmdBus queryBus : option (messageBus W V)) (evtBus : option (EventBus W V))
    (provider : option BusTypeSampleProvider) r : outcome TypePrototypeRegistry :=
  r ← CollectFromCommandBus cmdBus provider r;
  r ← CollectFromQueryBus queryBus provider r;
  CollectFromEventBus evtBus provider r.

Definition NewTypePrototypeRegistryFromBuses cmdBus queryBus evtBus provider : outcome TypePrototypeRegistry :=
  CollectFromBuses cmdBus queryBus evtBus provider NewTypePrototypeRegistry.

Definition register_types (cat : string) (types results : gmap string gotype) r :=
  fold_left (fun r '(name, t) => RegisterFromType cat name (Some t) (results !! name) r) (map_range types) r.
Definition RegisterTypesFromReflect (commandTypes commandResultTypes queryTypes queryResultTypes eventTypes :
    gmap string gotype) r : TypePrototypeRegistry :=
  register_types "event" eventTypes ∅
    (register_types "query" queryTypes queryResultTypes (register_types "command" commandTypes commandResultTypes r)).
End Registry.

(** [ReflectionSampleProvider]. *)
Record ReflectionSampleProvider := mkSamples {
  commandSamples : gmap string (option gotype * option gotype);
  querySamples : gmap string (option gotype * option gotype);
  eventSamples : gmap string (option gotype) }.

Definition NewReflectionSampleProvider : ReflectionSampleProvider := mkSamples ∅ ∅ ∅.
Definition RegisterCommand (name : string) (sample resultSample : option gotype) (p : ReflectionSampleProvider) :=
  mkSamples (<[name := (sample, resultSample)]> (commandSamples p)) (querySamples p) (eventSamples p).
Definition RegisterQuery (name : string) (sample resultSample : option gotype) (p : ReflectionSampleProvider) :=
  mkSamples (commandSamples p) (<[name := (sample, resultSample)]> (querySamples p)) (eventSamples p).
Definition RegisterEvent (name : string) (sample : option gotype) (p : ReflectionSampleProvider) :=
  mkSamples (commandSamples p) (querySamples p) (<[name := sample]> (eventSamples p)).
Definition reflection_provider (p : ReflectionSampleProvider) : BusTypeSampleProvider :=
  mkProvider (fun n => default (None, None) (commandSamples p !! n))
             (fun n => default (None, None) (querySamples p !! n))
             (fun n => default None (eventSamples p !! n)).
Definition ExportEventSamples `{!MapRange} (p : ReflectionSampleProvider) : list (string * option gotype) :=
  map_range (eventSamples p).

(** ** Specification: the history of registrations *)

Inductive registry_op := RRegister (p : TypePrototype) | RListCategory (cat : string) | RListDomain (domain : string).

Section History.
Context `{!SortSlice}.

Definition registry_step (r : TypePrototypeRegistry) (o : registry_op) : TypePrototypeRegistry :=
  match o with
  | RRegister p => RegisterWithDomain (tp_Category p) (tp_Domain p) (tp_Name p) (tp_Fields p) (tp_ResultType p) (tp_Result p) r
  | RListCategory cat => (ListByCategory cat r).2
  | RListDomain d => (ListByDomain d r).2
  end.

Definition registered (ops : list registry_op) : list TypePrototype :=
  omap (fun o => match o with RRegister p => Some p | _ => None end) ops.

Definition of_name (n : string) (ps : list TypePrototype) : list TypePrototype :=
  List.filter (fun p => bool_decide (tp_Name p = n)) ps.
Definition of_category (c : string) (ps : list TypePrototype) : list TypePrototype :=
  List.filter (fun p => bool_decide (tp_Category p = c)) ps.
Definition of_domain (d : string) (ps : list TypePrototype) : list TypePrototype :=
  List.filter (fun p => bool_decide (tp_Domain p = d)) ps.

(** The registry holds what was registered. *)
Record holds (r : TypePrototypeRegistry) (ps : list TypePrototype) : Prop := {
  holds_name : forall n, prototypes r !! n = last (of_name n ps);
  holds_category : forall c, mget [] (byCategory r) c ≡ₚ of_category c ps;
  holds_domain : forall d, d <> "" -> mget [] (byDomain r) d ≡ₚ of_domain d ps;
  holds_domains : forall d, is_Some (byDomain r !! d) <-> d ∈ domains r;
  holds_domain_some : forall d, d ∈ domains r <-> d <> "" /\ exists p, p ∈ ps /\ tp_Domain p = d;
  holds_nodup : NoDup (domains r);
  holds_sorted : Sorted (fun x y => string_ltb y x = false) (domains r) }.
End History.

(** ** Lemmas *)

Section Lemmas.
Context `{HSS : !SortSlice, HSSL : !SortSliceLaws}.

Lemma of_name_snoc n ps p : last (of_name n (ps ++ [p])) = if bool_decide (tp_Name p = n) then Some p else last (of_name n ps).
Proof. unfold of_name. rewrite filter_app. cbn. case_bool_decide; [by rewrite last_snoc|by rewrite app_nil_r]. Qed.

(** Filing one more prototype under its key. *)
Lemma filed (key : TypePrototype -> string) m ps p k :
  (forall k, mget [] m k ≡ₚ List.filter (fun p => bool_decide (key p = k)) ps) ->
  mget [] (<[key p := mget [] m (key p) ++ [p]]> m) k ≡ₚ List.filter (fun p => bool_decide (key p = k)) (ps ++ [p]).
Proof.
  intros H. rewrite filter_app. cbn. case_bool_decide as Hk.
  - subst k. by rewrite mget_insert_eq, H.
  - by rewrite mget_insert_ne, app_nil_r.
Qed.

Lemma domain_snoc ps p d :
  (exists q, q ∈ ps ++ [p] /\ tp_Domain q = d) <-> (exists q, q ∈ ps /\ tp_Domain q = d) \/ tp_Domain p = d.
Proof.
  setoid_rewrite elem_of_app. setoid_rewrite list_elem_of_singleton. split.
  - intros (q & [Hq | ->] & Hd); [left; by exists q|by right].
  - intros [(q & Hq & Hd)|Hd]; [exists q; auto|exists p; auto].
Qed.

Lemma holds_new : holds NewTypePrototypeRegistry [].
Proof.
  split; try done; cbn.
  - intros d. rewrite lookup_empty. split; [by intros []|by intros ?%elem_of_nil].
  - intros d. split; [by intros ?%elem_of_nil|by intros (_ & p & ?%elem_of_nil & _)].
  - constructor.
Qed.

Lemma holds_register r ps p : holds r ps -> holds (registry_step r (RRegister p)) (ps ++ [p]).
Proof.
  intros H. cbn. unfold RegisterWithDomain.
  replace (mkProto (tp_Name p) (tp_Category p) (tp_Domain p) (tp_Fields p) (tp_ResultType p) (tp_Result p)) with p by (by destruct p).
  assert (forall n, <[tp_Name p := p]> (prototypes r) !! n = last (of_name n (ps ++ [p]))) as Hname.
  { intros n. rewrite of_name_snoc, <- (holds_name _ _ H). case_bool_decide as Hn; [subst; apply lookup_insert_eq|by apply lookup_insert_ne]. }
  assert (forall c, mget [] (<[tp_Category p := mget [] (byCategory r) (tp_Category p) ++ [p]]> (byCategory r)) c ≡ₚ
    of_category c (ps ++ [p])) as Hcat by (intros c; apply (filed tp_Category), (holds_category _ _ H)).
  case_bool_decide as Hd; split; cbn [prototypes byCategory byDomain domains]; try done.
  - intros d Hne. unfold of_domain. rewrite filter_app. cbn. case_bool_decide as Hk.
    + subst d. by rewrite mget_insert_eq, (holds_domain _ _ H).
    + by rewrite mget_insert_ne, app_nil_r, (holds_domain _ _ H).
  - intros d. rewrite lookup_insert_is_Some', (holds_domains _ _ H). case_bool_decide as Hex.
    + apply (holds_domains _ _ H) in Hex. split; [intros [<-|?]; done|by right].
    + rewrite sort_slice_perm, elem_of_app, list_elem_of_singleton. split; intros [?|?]; auto.
  - intros d. rewrite domain_snoc. case_bool_decide as Hex;
      [|rewrite sort_slice_perm, elem_of_app, list_elem_of_singleton]; rewrite (holds_domain_some _ _ H).
    + apply (holds_domains _ _ H), (holds_domain_some _ _ H) in Hex as [_ Hex].
      split; [intros [? ?]; auto|intros [? [?|<-]]; auto].
    + split; [intros [[? ?]| ->]; auto|intros [? [?|<-]]; auto].
  - case_bool_decide as Hex; [apply (holds_nodup _ _ H)|]. rewrite sort_slice_perm, NoDup_app.
    split; [apply (holds_nodup _ _ H)|]. split; [|apply NoDup_singleton].
    intros x Hx ->%list_elem_of_singleton. by apply Hex, (holds_domains _ _ H).
  - case_bool_decide; [apply (holds_sorted _ _ H)|]. apply sort_slice_sorted, string_ltb_weak.
  - intros d Hne. unfold of_domain. rewrite filter_app. cbn. rewrite bool_decide_eq_false_2 by congruence.
    by rewrite app_nil_r, (holds_domain _ _ H).
  - apply (holds_domains _ _ H).
  - intros d. rewrite (holds_domain_some _ _ H), domain_snoc.
    split; [intros [? ?]; auto|]. intros [Hne [?|Hp]]; [auto|]. by rewrite Hd in Hp.
  - apply (holds_nodup _ _ H).
  - apply (holds_sorted _ _ H).
Qed.

(** A listing only reorders. *)
Lemma holds_list r ps o : (forall p, o <> RRegister p) -> holds r ps -> holds (registry_step r o) ps.
Proof.
  intros Ho H. destruct o as [p|c|d]; [by destruct (Ho p)|..]; cbn; unfold ListByCategory, ListByDomain.
  - destruct (byCategory r !! c) as [l|] eqn:Hc; [|done]. destruct H. split; cbn; try done.
    intros c'. destruct (decide (c = c')) as [<-|Hne]; [|by rewrite mget_insert_ne].
    rewrite mget_insert_eq, sort_slice_perm, <- holds_category0. unfold mget. by rewrite Hc.
  - destruct (byDomain r !! d) as [l|] eqn:Hc; [|done]. destruct H. split; cbn; try done.
    + intros d' Hd'. destruct (decide (d = d')) as [<-|Hne]; [|by rewrite mget_insert_ne, holds_domain0].
      rewrite mget_insert_eq, sort_slice_perm, <- holds_domain0 by done. unfold mget. by rewrite Hc.
    + intros d'. rewrite lookup_insert_is_Some', <- holds_domains0. split; [intros [<-|?]; [by eexists|done]|by right].
Qed.

Lemma holds_history ops : holds (fold_left registry_step ops NewTypePrototypeRegistry) (registered ops).
Proof.
  induction ops as [|o ops IH] using rev_ind; [apply holds_new|]. rewrite fold_left_app. cbn [fold_left].
  unfold registered. rewrite omap_app. destruct o as [p|c|d].
  - by apply holds_register.
  - cbn [omap list_omap]. rewrite app_nil_r. by apply holds_list.
  - cbn [omap list_omap]. rewrite app_nil_r. by apply holds_list.
Qed.
End Lemmas.

(** ** Properties *)

(** The registry of type prototypes answers from the history of registrations, also though its
    listings sort its own slices: a name gives the prototype registered last under it, in any of the spellings that the
    normalization removes; a category lists its registrations in the order of their names, all of
    them and no others; and the domains are exactly those of the registrations, sorted, each once. *)
Theorem registry_of_history `{HSS : !SortSlice, HSSL : !SortSliceLaws} ops :
  let r := fold_left registry_step ops NewTypePrototypeRegistry in
  let ps := registered ops in
  (forall n, Get n r = last (of_name n ps)) /\
  (forall t, GetTypeDomain t r = from_option tp_Domain "" (last (of_name (normalizeTypeName t) ps))) /\
  (forall c, (ListByCategory c r).1 ≡ₚ of_category c ps /\
     Sorted (fun x y => string_ltb (tp_Name y) (tp_Name x) = false) (ListByCategory c r).1 /\
     CountByCategory c r = zlen (of_category c ps)) /\
  (forall d, d ∈ ListDomains r <-> d <> "" /\ exists p, p ∈ ps /\ tp_Domain p = d) /\
  NoDup (ListDomains r) /\ Sorted (fun x y => string_ltb y x = false) (ListDomains r).
Proof.
  intros r ps. pose proof (holds_history ops) as H. fold r in H. fold ps in H. split_and!.
  - apply (holds_name _ _ H).
  - intros t. unfold GetTypeDomain. rewrite (holds_name _ _ H). by destruct (last _).
  - intros c. pose proof (holds_category _ _ H c) as Hc. unfold CountByCategory, ListByCategory, mget in *.
    unfold zlen. rewrite (Permutation_length Hc). destruct (byCategory r !! c) as [l|]; cbn in *.
    + split_and!; [by rewrite sort_slice_perm|apply sort_slice_sorted, weak_order_on, string_ltb_weak|done].
    + by split_and!.
  - apply (holds_domain_some _ _ H).
  - apply (holds_nodup _ _ H).
  - apply (holds_sorted _ _ H).
Qed.

(** ** A concrete registry *)
Module DemoTypes.
Definition ops : list registry_op :=
  [RRegister (mkProto "Pay" "command" "order" [] "" []); RRegister (mkProto "Add" "command" "cart" [] "" []);
   RListCategory "command"; RRegister (mkProto "Pay" "command" "billing" [] "" [])].
Definition types : TypePrototypeRegistry := fold_left registry_step ops NewTypePrototypeRegistry.
End DemoTypes.
Import DemoTypes.

Example listed_types :
  ListDomains types = ["billing"; "cart"; "order"] /\ map tp_Name (ListByCategory "command" types).1 = ["Add"; "Pay"; "Pay"].
Proof. vm_compute. by split_and!. Qed.

Lemma registry_of_history_witness :
  GetTypeDomain "Command/*order.Pay" types = "billing" /\ NoDup (ListDomains types).
Proof.
  destruct (registry_of_history (HSSL := insertion_sort_laws) ops) as (_ & Hd & _ & _ & Hn & _).
  split; [|exact Hn]. etransitivity; [exact (Hd "Command/*order.Pay")|]. vm_compute. reflexivity.
Defined.
