(* ===== verification/Viewer.v ===== *)
(** * The web viewers: [src/observability/ddd_viewer.go], [schema_viewer.go]

    The handlers of the viewers as functions of the request: they return the page
    with the data that the source gives to the template. [Pages] sends
    the pages. *)

From S2P Require Import Prelude Errors Trace Builtin Messages Stats TypeRegistry Relationship Job Schema Dashboard.

(** ** Pages *)

Record Pagination := mkPagination {
  Page : Z;
  PageSize : Z;
  pg_Total : Z;
  Pages : Z;
  HasPrev : bool;
  HasNext : bool }.

Definition newPagination (page pageSize total : Z) : Pagination :=
  let pageSize := if bool_decide (pageSize <= 0)%Z then 50%Z else pageSize in
  let page := if bool_decide (page <= 0)%Z then 1%Z else page in
  let pages := Z.quot total pageSize in
  let pages := if bool_decide (0 < Z.rem total pageSize)%Z then pages +i 1 else pages in
  let pages := if bool_decide (pages = 0)%Z then 1%Z else pages in
  mkPagination page pageSize total pages (bool_decide (1 < page)%Z) (bool_decide (page < pages)%Z).

(** The parameter [pageSize], and the parameter [page] as the filters and as the pages read it:
    the former ignores a number out of range, the latter takes the bound that [Atoi] gives. *)
Definition page_size (r : request) : Z :=
  let ps := query_get r "pageSize" in
  if bool_decide (ps <> "") then
    let '(n, ok) := Atoi ps in if ok && bool_decide (0 < n)%Z && bool_decide (n <= 500)%Z then n else 50%Z
  else 50%Z.

Definition page_number (r : request) : Z :=
  let p := query_get r "page" in
  if bool_decide (p <> "") then let '(n, ok) := Atoi p in if ok && bool_decide (0 < n)%Z then n else 1%Z else 1%Z.

Definition shown_page (r : request) : Z :=
  let page := (Atoi (query_get r "page")).1 in if bool_decide (page <= 0)%Z then 1%Z else page.

(** [(page - 1) * pageSize] *)
Definition page_offset (page pageSize : Z) : Z := wrap64 ((page -i 1) * pageSize).

Definition parseMessageFilter (r : request) : MessageFilter :=
  mkMsgFilter (query_get r "type") (query_get r "traceID") (query_get r "aggregateID") (query_get r "status")
    (unix_param (query_get r "since")) (page_size r) (page_offset (page_number r) (page_size r)).

Record DomainStats := mkDomainStats {
  CommandCount : Z; CommandErrors : Z; QueryCount : Z; QueryErrors : Z; EventCount : Z; EventErrors : Z }.

Record DomainEntry := mkDomainEntry {
  de_Type : string;
  de_Category : string;
  de_Status : string;
  de_Duration : string;
  de_CreatedAt : string;
  de_Error : string;
  de_Data : string;
  de_Result : string }.

Record SpanView := mkSpanView {
  sv_ID : string; sv_TraceID : string; sv_ParentID : string; sv_Type : string; sv_Name : string;
  sv_Status : string; sv_Error : string; sv_Duration : Z }.
Record TraceView := mkTraceView { tv_TraceID : string; tv_Spans : list SpanView }.

(** The data of the templates. *)
Inductive page_data (V : Type) :=
| POverview (tables : list TableInfo) (relations : list TableRelation) (allStats : list OperationStats)
    (cmdCount queryCount eventCount : Z) (prefix : string) (hasMsgReader hasTraceStore hasJobMgr : bool)
| PSchemaTables (tables : list TableInfo) (relations : list TableRelation) (prefix : string)
| PSchemaDetail (table : TableDetail) (prefix : string)
| PUnavailable (feature prefix : string)
| PCommands (entries : list CommandEntry) (filter : MessageFilter) (prefix : string) (pagination : Pagination)
| PQueries (entries : list QueryEntry) (filter : MessageFilter) (prefix : string) (pagination : Pagination)
| PEvents (entries : list EventEntry) (filter : MessageFilter) (prefix : string) (pagination : Pagination)
| PStats (allStats : list OperationStats) (prefix : string)
| PJobs (groups : list (string * list (Job V))) (prefix : string)
| PTraces (traces : list TraceView) (filterStatus filterType prefix : string) (pagination : Pagination)
| PGraph (graph : Graph) (mode domainFilter typeFilter : string) (domains : list string) (prefix : string)
| PTypes (types : list TypePrototype) (count : Z) (prefix : string)
| PDomains (domains : list string) (selectedDomain : string) (stats : DomainStats) (domainInfo : option DomainInfo)
    (entries : list DomainEntry) (prefix : string) (pagination : option Pagination).
Arguments POverview {V}.
Arguments PSchemaTables {V}.
Arguments PSchemaDetail {V}.
Arguments PUnavailable {V}.
Arguments PCommands {V}.
Arguments PQueries {V}.
Arguments PEvents {V}.
Arguments PStats {V}.
Arguments PJobs {V}.
Arguments PTraces {V}.
Arguments PGraph {V}.
Arguments PTypes {V}.
Arguments PDomains {V}.

Record SchemaReader (W : Type) := mkSchemaReader {
  sr_ListTables : context -> GoM W (result (list TableInfo));
  sr_GetTable : context -> string -> GoM W (result TableDetail);
  sr_ListRelations : context -> GoM W (result (list TableRelation)) }.
Arguments sr_ListTables {W} _.
Arguments sr_GetTable {W} _.
Arguments sr_ListRelations {W} _.

Definition memory_schema {W} (quote : string -> string) : SchemaReader W := {|
  sr_ListTables _ := mret mem_ListTables;
  sr_GetTable _ name := mret (mem_GetTable quote name);
  sr_ListRelations _ := mret mem_ListRelations |}.

(** The value of a call whose error is dropped. *)
Definition ignore_error {A} (zero : A) (r : result A) : A := match r with Ok a => a | Err _ => zero end.

(** ** Formatting ([schema_viewer.go]) *)

(** A quotient of naturals rounded to the nearest, ties to even. *)
Definition round_even (n d : Z) : Z :=
  let q := (n / d)%Z in
  match (2 * (n mod d) ?= d)%Z with Lt => q | Gt => (q + 1)%Z | Eq => if Z.even q then q else (q + 1)%Z end.

(** [float64(n)] of a natural number. *)
Definition float64_of (n : Z) : Z :=
  if bool_decide (n < 2 ^ 53)%Z then n else let e := (2 ^ (Z.log2 n - 52))%Z in (round_even n e * e)%Z.

(** [fmt.Sprintf("%.1f", float64(n)/float64(d))] for a power of two [d], where the division is exact. *)
Definition sprintf_f1 (n d : Z) : string :=
  let t := round_even (10 * float64_of n) d in
  pretty (t / 10)%Z +:+ "." +:+ pretty (t mod 10)%Z.

Definition KB : Z := 1024.
Definition MB : Z := KB * 1024.
Definition GB : Z := MB * 1024.

Definition formatSize (bytes : Z) : string :=
  if bool_decide (bytes < 0)%Z then "N/A"
  else if bool_decide (bytes = 0)%Z then "0 B"
  else if bool_decide (GB <= bytes)%Z then sprintf_f1 bytes GB +:+ " GB"
  else if bool_decide (MB <= bytes)%Z then sprintf_f1 bytes MB +:+ " MB"
  else if bool_decide (KB <= bytes)%Z then sprintf_f1 bytes KB +:+ " KB"
  else pretty bytes +:+ " B".

Definition formatCount (n : Z) : string := if bool_decide (n < 0)%Z then "N/A" else pretty n.

(** [fmt_time] is [time.Time.Format] with the layout of the source. *)
Definition formatTime (fmt_time : Z -> string) (t : option Z) : string :=
  match t with None => "N/A" | Some t => fmt_time t end.

(** [shortID] *)
Definition shortID (s : string) : string :=
  if bool_decide (12 < String.length s) then String.substring 0 12 s +:+ "..." else s.

(** [formatData] of a [json.RawMessage]; [indent] is [json.Indent], [None] its error. *)
Definition formatData (indent : string -> option string) (d : string) : string :=
  if bool_decide (d = "") then "" else match indent d with Some pretty => pretty | None => d end.

(** [s[lo:hi]] *)
Definition slice_between {A} (lo hi : Z) (l : list A) : option (list A) := upto ← slice_to hi l; slice_from lo upto.

(** ** The schema pages of both viewers *)
Section SchemaPages.
Context {W V : Type}.
Abbreviation resp := (response V (page_data V)).

Definition handle_table_list (reader : SchemaReader W) (prefix : string) (r : request) : GoM W resp :=
  tables ← sr_ListTables reader (rq_ctx r);
  match tables with
  | Err e => mret (HttpError (Error e) StatusInternalServerError)
  | Ok tables =>
      relations ← sr_ListRelations reader (rq_ctx r);
      mret (Rendered "schema_tables" (PSchemaTables tables (ignore_error [] relations) prefix))
  end.

Definition handle_table_detail (reader : SchemaReader W) (prefix : string) (r : request) : GoM W resp :=
  let tableName := rq_table r in
  if negb (str_has_prefix tableName "ddd_") then mret (HttpError "table not found" StatusNotFound)
  else
    detail ← sr_GetTable reader (rq_ctx r) tableName;
    mret (match detail with
          | Err e => HttpError (Error e) StatusNotFound
          | Ok detail => Rendered "schema_detail" (PSchemaDetail detail prefix)
          end).
End SchemaPages.

(** ** [SchemaViewer] ([schema_viewer.go]) *)
Section SchemaViewer.
Context {W V : Type} (quote : string -> string).

Record SchemaViewer := mkSchemaViewer {
  sv_reader : option (SchemaReader W); sv_Prefix : string; sv_backendType : string; sv_baseURL : string }.

Inductive SchemaViewerOption :=
| WithSchemaPrefix (prefix : string)
| WithSchemaReader (reader : SchemaReader W) (backendType : string)
| WithBaseURL (url : string).

Definition apply_schema_option (v : SchemaViewer) (o : SchemaViewerOption) : SchemaViewer :=
  match o with
  | WithSchemaPrefix p => mkSchemaViewer (sv_reader v) p (sv_backendType v) (sv_baseURL v)
  | WithSchemaReader reader bt => mkSchemaViewer (Some reader) (sv_Prefix v) bt (sv_baseURL v)
  | WithBaseURL url => mkSchemaViewer (sv_reader v) (sv_Prefix v) (sv_backendType v) url
  end.

Definition NewSchemaViewer (opts : list SchemaViewerOption) : SchemaViewer :=
  let v := fold_left apply_schema_option opts (mkSchemaViewer None "/api/ddd/ddd_schema" "Memory" "") in
  mkSchemaViewer (Some (default (memory_schema quote) (sv_reader v))) (sv_Prefix v) (sv_backendType v) (sv_baseURL v).

Definition handleTableList (v : SchemaViewer) (r : request) : GoM W (response V (page_data V)) :=
  match sv_reader v with
  | Some reader => handle_table_list reader (sv_Prefix v) r
  | None => go_panic "nil pointer dereference"
  end.

Definition handleTableDetail (v : SchemaViewer) (r : request) : GoM W (response V (page_data V)) :=
  match sv_reader v with
  | Some reader => handle_table_detail reader (sv_Prefix v) r
  | None => go_panic "nil pointer dereference"
  end.
End SchemaViewer.

(** ** [DDDViewer] ([ddd_viewer.go])

    The statistics, the registry of types and the registry of relations are parts of
    the world; the flags say whether the pointers to them are set. *)
Section DDDViewer.
Context {W V : Type} `{!Clock W, !Has StatsCollector W, !Has TypePrototypeRegistry W, !Has RelationshipRegistry W,
  !Has ObservableMessageStore W, !SortSlice, !MapRange, !ReflectTypes}.
Context (quote : string -> string) (indent : string -> option string) (fmt_time fmt_duration : Z -> string).
Abbreviation resp := (response V (page_data V)).

Record DDDViewer := mkViewer {
  v_statsCollector : bool;
  v_msgStore : bool;
  v_msgReader : option (MessageStoreReader W);
  v_schemaReader : option (SchemaReader W);
  v_traceStore : option (TraceReader W);
  v_jobMgr : option (JobLister W V);
  v_typeRegistry : bool;
  v_relRegistry : bool;
  v_Prefix : string;
  v_QueryLimit : Z;
  v_backendType : string;
  v_baseURL : string }.

Inductive DDDViewerOption :=
| WithDDDViewerPrefix (prefix : string)
| WithDDDViewerPgDB
| WithDDDViewerBaseURL (url : string)
| WithDDDViewerTraceStore (ts : TraceReader W)
| WithDDDViewerJobManager (jm : JobLister W V)
| WithDDDViewerMessageStore
| WithDDDViewerMessageReader (r : MessageStoreReader W)
| WithDDDViewerSchemaReader (r : SchemaReader W) (backendType : string)
| WithDDDViewerStatsCollector (given : bool)
| WithDDDViewerRelationshipRegistry
| WithDDDViewerExtraEvents (events : list (string * option gotype)).

Definition apply_viewer_option (v : DDDViewer) (o : DDDViewerOption) : DDDViewer :=
  let 'mkViewer sc ms mr sr ts jm ty rr p n bt url := v in
  match o with
  | WithDDDViewerPrefix p => mkViewer sc ms mr sr ts jm ty rr p n bt url
  | WithDDDViewerPgDB => mkViewer sc ms mr sr ts jm ty rr p n "PostgreSQL" url
  | WithDDDViewerBaseURL url => mkViewer sc ms mr sr ts jm ty rr p n bt url
  | WithDDDViewerTraceStore ts => mkViewer sc ms mr sr (Some ts) jm ty rr p n bt url
  | WithDDDViewerJobManager jm => mkViewer sc ms mr sr ts (Some jm) ty rr p n bt url
  | WithDDDViewerMessageStore => mkViewer sc true mr sr ts jm ty rr p n bt url
  | WithDDDViewerMessageReader mr => mkViewer sc ms (Some mr) sr ts jm ty rr p n bt url
  | WithDDDViewerSchemaReader sr bt => mkViewer sc ms mr (Some sr) ts jm ty rr p n bt url
  | WithDDDViewerStatsCollector given => mkViewer given ms mr sr ts jm ty rr p n bt url
  | WithDDDViewerRelationshipRegistry => mkViewer sc ms mr sr ts jm ty true p n bt url
  | WithDDDViewerExtraEvents _ => v
  end.

(** The events of the options are registered in the viewer's registry of types. *)
Definition register_extra (o : DDDViewerOption) (t : TypePrototypeRegistry) : TypePrototypeRegistry :=
  match o with
  | WithDDDViewerExtraEvents events => fold_left (fun t e => RegisterFromSample "event" e.1 e.2 None t) events t
  | _ => t
  end.

(** [NewDDDViewer], given the registry collected from the buses. *)
Definition NewDDDViewer (types : TypePrototypeRegistry) (opts : list DDDViewerOption) : GoM W DDDViewer := fun w =>
  let v := fold_left apply_viewer_option opts
             (mkViewer true false None None None None true false "/api/ddd" 100 "Memory" "") in
  let w := set_part (fold_left (fun t o => register_extra o t) opts types) w in
  let '(mkViewer sc ms mr sr ts jm ty rr p n bt url) := v in
  let fresh := negb ms && match mr with None => true | Some _ => false end in
  let w := if fresh then set_part (NewObservableMessageStore []) w else w in
  let mr := if fresh then Some observable_reader else mr in
  (Done (mkViewer sc (ms || fresh) mr (Some (default (memory_schema quote) sr)) ts jm ty rr p n bt url), w).

Implicit Types v : DDDViewer.
Implicit Types r : request.

Definition unavailable v (feature : string) : GoM W resp :=
  mret (Rendered "ddd_unavailable" (PUnavailable feature (v_Prefix v))).

(** [v.statsCollector.GetAllStats()], which panics on a nil collector. *)
Definition all_stats v : GoM W (list OperationStats) := fun w =>
  if v_statsCollector v then (GetAllStats (part w), w) else (Panicked "nil pointer dereference", w).

Definition with_types {A} (f : TypePrototypeRegistry -> A) : GoM W A := fun w => (Done (f (part w)), w).

Definition counted (kind : string) (sts : list OperationStats) : Z :=
  fold_left (fun n s => if bool_decide (st_Type s = kind) then n +i Stats.Count s else n) sts 0%Z.

Definition handleOverview v r : GoM W resp :=
  match v_schemaReader v with
  | None => go_panic "nil pointer dereference"
  | Some reader =>
      tables ← sr_ListTables reader (rq_ctx r);
      relations ← sr_ListRelations reader (rq_ctx r);
      allStats ← all_stats v;
      mret (Rendered "ddd_overview" (POverview (ignore_error [] tables) (ignore_error [] relations) allStats
        (counted "command" allStats) (counted "query" allStats) (counted "event" allStats) (v_Prefix v)
        (bool_decide (is_Some (v_msgReader v))) (bool_decide (is_Some (v_traceStore v)))
        (bool_decide (is_Some (v_jobMgr v)))))
  end.

Definition on_schema v (h : SchemaReader W -> string -> request -> GoM W resp) r : GoM W resp :=
  match v_schemaReader v with
  | Some reader => h reader (v_Prefix v) r
  | None => go_panic "nil pointer dereference"
  end.
Definition handleSchemaTableList v := on_schema v handle_table_list.
Definition handleSchemaTableDetail v := on_schema v handle_table_detail.

(** The body that the three handlers of messages share. *)
Definition message_page {T} (op : MessageStoreReader W -> context -> MessageFilter -> GoM W (result (QueryResult T)))
    (feature template : string) (page : list T -> MessageFilter -> string -> Pagination -> page_data V) v r : GoM W resp :=
  match v_msgReader v with
  | None => unavailable v feature
  | Some reader =>
      ctx ← with_timeout (rq_ctx r) 5;
      let filter := parseMessageFilter r in
      res ← op reader ctx filter;
      mret (match res with
            | Err e => HttpError (Error e) StatusInternalServerError
            | Ok res => Rendered template (page (q_Items res) filter (v_Prefix v)
                          (newPagination (shown_page r) (page_size r) (Total res)))
            end)
  end.
Definition handleCommands := message_page mr_QueryCommands "Commands" "ddd_commands" PCommands.
Definition handleQueries := message_page mr_QueryQueries "Queries" "ddd_queries" PQueries.
Definition handleEvents := message_page mr_QueryEvents "Events" "ddd_events" PEvents.

Definition handleStats v r : GoM W resp :=
  allStats ← all_stats v; mret (Rendered "ddd_stats" (PStats allStats (v_Prefix v))).

Definition handleJobs v r : GoM W resp :=
  match v_jobMgr v with
  | None => unavailable v "Jobs"
  | Some jm =>
      ctx ← with_timeout (rq_ctx r) 5;
      ls ← list_all jm ctx all_statuses;
      mret (match ls with
            | Err e => HttpError (Error e) StatusInternalServerError
            | Ok ls => Rendered "ddd_jobs" (PJobs (zip (map status_String all_statuses) ls) (v_Prefix v))
            end)
  end.

Definition span_view (s : Span) : SpanView :=
  mkSpanView (SpanID s) (TraceID s) (ParentID s) (SpanType s) (SpanName s) (Status s) (SpanError s) (Duration s).

(** The traces of a page; one that cannot be read is left out. *)
Fixpoint trace_views (ts : TraceReader W) (ctx : context) (ids : list string) : GoM W (list TraceView) :=
  match ids with
  | [] => mret []
  | tid :: rest =>
      spans ← tr_GetTrace ts ctx tid;
      views ← trace_views ts ctx rest;
      mret (match spans with Err _ => views | Ok spans => mkTraceView tid (map span_view spans) :: views end)
  end.

Definition handleTraces v r : GoM W resp :=
  match v_traceStore v with
  | None => unavailable v "Traces"
  | Some ts =>
      ctx ← with_timeout (rq_ctx r) 5;
      let filter := mkFilter "" (query_get r "type") (query_get r "status") time_zero time_zero "" in
      res ← tr_ListTraces ts ctx filter;
      match res with
      | Err e => mret (HttpError (Error e) StatusInternalServerError)
      | Ok traceIDs =>
          let pageSize := page_size r in
          let page := page_number r in
          let total := zlen traceIDs in
          let offset := page_offset page pageSize in
          let offset := if bool_decide (total < offset)%Z then total else offset in
          let end_ := offset +i pageSize in
          let end_ := if bool_decide (total < end_)%Z then total else end_ in
          match slice_between offset end_ traceIDs with
          | None => go_panic "slice bounds out of range"
          | Some pagedIDs =>
              traces ← trace_views ts ctx pagedIDs;
              mret (Rendered "ddd_traces" (PTraces traces (f_Status filter) (f_Type filter) (v_Prefix v)
                (newPagination page pageSize total)))
          end
      end
  end.

Definition handleHealth v r : GoM W resp :=
  acc ← health_checks (v_traceStore v) (v_jobMgr v) r;
  mret (health_response (match v_msgReader v with Some _ => <["messageStore" := "ok"]> acc.1 | None => acc.1 end) acc.2).

(** The first span of the trace with the id of the span's parent. *)
Definition parent_in (spans : list Span) (s : Span) : option Span :=
  if bool_decide (ParentID s <> "") then List.find (fun ps => bool_decide (SpanID ps = ParentID s)) spans else None.

Definition runtime_edge (spans : list Span) (s : Span) : option Edge :=
  ps ← parent_in spans s;
  Some (mkEdge (SpanName ps) (SpanName s)
    (if bool_decide (SpanType ps = "command") || bool_decide (SpanType ps = "query") then "handles" else "emits")).

Definition runtime_graph (types : option TypePrototypeRegistry) (spans : list Span) : Graph :=
  let nodesMap := fold_left (fun m s => <[SpanName s := mkNode (SpanName s) (SpanType s)
                    (from_option (TypeRegistry.GetTypeDomain (SpanName s)) "" types)]> m) spans (∅ : gmap string Node) in
  mkGraph (map snd (map_range nodesMap)) (omap (runtime_edge spans) spans) [].

Definition buildRuntimeGraph v (ts : TraceReader W) (traceID : string) : GoM W Graph :=
  ctx ← with_timeout Background 5;
  spans ← tr_GetTrace ts ctx traceID;
  match spans with
  | Err _ => mret (mkGraph [] [] [])
  | Ok spans => with_types (fun types => runtime_graph (if v_typeRegistry v then Some types else None) spans)
  end.

(** The spans of the traces that can be read. *)
Fixpoint read_traces (ts : TraceReader W) (ctx : context) (ids : list string) : GoM W (list (list Span)) :=
  match ids with
  | [] => mret []
  | tid :: rest =>
      spans ← tr_GetTrace ts ctx tid;
      more ← read_traces ts ctx rest;
      mret (match spans with Err _ => more | Ok spans => spans :: more end)
  end.

Definition add_emission (spans : list Span) (m : gmap string (gmap string bool)) (s : Span) : gmap string (gmap string bool) :=
  match parent_in spans s with
  | None => m
  | Some ps =>
      let handlerName := SpanName ps +:+ "Handler" in
      <[handlerName := <[SpanName s := true]> (mget ∅ m handlerName)]> m
  end.

Definition emissions (traces : list (list Span)) : gmap string (gmap string bool) :=
  fold_left (fun m spans => fold_left (add_emission spans) spans m) traces ∅.

Definition emission_edges (m : gmap string (gmap string bool)) : list Edge :=
  flat_map (fun '(handler, events) => map (fun '(evt, _) => mkEdge handler evt "emits") (map_range events)) (map_range m).

Definition build_graph (domainFilter typeFilter : string) : GoM W Graph := fun w =>
  (Done (BuildGraph domainFilter typeFilter (part w)), w).

Definition buildSummaryGraph v (domainFilter typeFilter : string) : GoM W Graph :=
  graph ← build_graph domainFilter typeFilter;
  match v_traceStore v with
  | None => mret graph
  | Some ts =>
      ctx ← with_timeout Background 5;
      ids ← tr_ListTraces ts ctx no_filter;
      match ids with
      | Err _ => mret graph
      | Ok ids =>
          traces ← read_traces ts ctx ids;
          mret (mkGraph (g_Nodes graph) (g_Edges graph ++ emission_edges (emissions traces)) (g_Domains graph))
      end
  end.

Definition handleGraphJSON v r : GoM W resp :=
  let domainFilter := query_get r "domain" in
  let typeFilter := query_get r "type" in
  let traceID := query_get r "traceId" in
  let mode := query_get r "mode" in
  graph ← (if bool_decide (mode = "runtime") then
             match v_traceStore v with
             | Some ts => if bool_decide (traceID = "") then mret (mkGraph [] [] []) else buildRuntimeGraph v ts traceID
             | None => mret (mkGraph [] [] [])
             end
           else if bool_decide (mode = "summary") then buildSummaryGraph v domainFilter typeFilter
           else build_graph domainFilter typeFilter);
  mret (WriteJSON StatusOK (JGraph graph)).

Definition handleGraph v r : GoM W resp :=
  if negb (v_relRegistry v) then unavailable v "Graph"
  else if bool_decide (query_get r "json" = "1") || str_contains (rq_accept r) "application/json" then handleGraphJSON v r
  else
    let mode := if bool_decide (query_get r "mode" = "") then "static" else query_get r "mode" in
    let domainFilter := query_get r "domain" in
    let typeFilter := query_get r "type" in
    graph ← build_graph domainFilter typeFilter;
    domains ← match g_Domains graph with
              | [] => all ← build_graph "" ""; mret (g_Domains all)
              | ds => mret ds
              end;
    mret (Rendered "ddd_graph" (PGraph graph mode domainFilter typeFilter domains (v_Prefix v))).

(** The body that the three pages of types share. *)
Definition type_page (feature template cat : string) v r : GoM W resp :=
  if negb (v_typeRegistry v) then unavailable v feature else
  types ← on_part (ListByCategory cat);
  count ← with_types (CountByCategory cat);
  mret (Rendered template (PTypes types count (v_Prefix v))).
Definition handleCommandTypes := type_page "Command Types" "ddd_command_types" "command".
Definition handleQueryTypes := type_page "Query Types" "ddd_query_types" "query".
Definition handleEventTypes := type_page "Event Types" "ddd_event_types" "event".

Definition no_stats : DomainStats := mkDomainStats 0 0 0 0 0 0.

Definition add_domain_stats (types : TypePrototypeRegistry) (domain : string) (acc : DomainStats) (s : OperationStats) : DomainStats :=
  let 'mkDomainStats c ce q qe e ee := acc in
  if bool_decide (TypeRegistry.GetTypeDomain (st_Name s) types <> domain) then acc
  else if bool_decide (st_Type s = "command") then mkDomainStats (c +i Stats.Count s) (ce +i ErrorCount s) q qe e ee
  else if bool_decide (st_Type s = "query") then mkDomainStats c ce (q +i Stats.Count s) (qe +i ErrorCount s) e ee
  else if bool_decide (st_Type s = "event") then mkDomainStats c ce q qe (e +i Stats.Count s) (ee +i ErrorCount s)
  else acc.

Definition domain_entry (t cat err data res : string) (d at_ : Z) : DomainEntry :=
  let failed := bool_decide (err <> "") in
  mkDomainEntry t cat (if failed then "error" else "ok") (fmt_duration d) (fmt_time at_) (if failed then err else "") data res.

Definition command_entry (e : CommandEntry) : DomainEntry :=
  domain_entry (ce_CommandType e) "command" (ce_Error e) (formatData indent (ce_CommandData e)) (formatData indent (ce_ResultData e))
    (ce_Duration e) (ce_CreatedAt e).
Definition query_entry (e : QueryEntry) : DomainEntry :=
  domain_entry (qe_QueryType e) "query" (qe_Error e) (formatData indent (qe_QueryData e)) (formatData indent (qe_ResultData e))
    (qe_Duration e) (qe_CreatedAt e).
Definition event_entry (e : EventEntry) : DomainEntry :=
  domain_entry (ee_EventType e) "event" (ee_Error e) (formatData indent (ee_EventData e)) "" (ee_Duration e) (ee_CreatedAt e).

(** The entries of a page of messages that belong to a domain; an error of the reader is dropped. *)
Definition domain_entries {T} (types : TypePrototypeRegistry) (domain : string) (type_of : T -> string)
    (entry : T -> DomainEntry) (res : result (QueryResult T)) : list DomainEntry :=
  map entry (List.filter (fun e => bool_decide (TypeRegistry.GetTypeDomain (type_of e) types = domain))
    (match res with Ok q => q_Items q | Err _ => [] end)).

Definition handleDomains v r : GoM W resp :=
  if negb (v_typeRegistry v) then unavailable v "Domains" else
  domains ← with_types ListDomains;
  let selected := if bool_decide (query_get r "domain" = "") then default "" (head domains) else query_get r "domain" in
  if bool_decide (selected = "") then
    mret (Rendered "ddd_domains" (PDomains domains selected no_stats None [] (v_Prefix v) None))
  else
    info ← with_types (GetDomainInfo selected);
    allStats ← (if v_statsCollector v then all_stats v else mret []);
    stats ← with_types (fun types => fold_left (add_domain_stats types selected) allStats no_stats);
    match v_msgReader v with
    | None => mret (Rendered "ddd_domains" (PDomains domains selected stats (Some info) [] (v_Prefix v) None))
    | Some reader =>
        ctx ← with_timeout (rq_ctx r) 5;
        let pageSize := page_size r in
        let page := page_number r in
        let filter := mkMsgFilter "" "" "" "" time_zero pageSize (page_offset page pageSize) in
        cmds ← mr_QueryCommands reader ctx filter;
        cmdEntries ← with_types (fun types => domain_entries types selected ce_CommandType command_entry cmds);
        qrys ← mr_QueryQueries reader ctx filter;
        qryEntries ← with_types (fun types => domain_entries types selected qe_QueryType query_entry qrys);
        evts ← mr_QueryEvents reader ctx filter;
        evtEntries ← with_types (fun types => domain_entries types selected ee_EventType event_entry evts);
        let entries := cmdEntries ++ qryEntries ++ evtEntries in
        mret (Rendered "ddd_domains" (PDomains domains selected stats (Some info) entries (v_Prefix v)
          (Some (newPagination page pageSize (zlen entries)))))
    end.

(** The patterns of [RegisterRoutes] with their handlers, in order. *)
Definition viewer_routes v : list (string * (request -> GoM W resp)) :=
  let p := v_Prefix v in [
  ("GET " +:+ p +:+ "/ddd_overview", handleOverview v);
  ("GET " +:+ p +:+ "/ddd_schema/", handleSchemaTableList v);
  ("GET " +:+ p +:+ "/ddd_schema/{table}", handleSchemaTableDetail v);
  ("GET " +:+ p +:+ "/ddd_commands", handleCommands v);
  ("GET " +:+ p +:+ "/ddd_queries", handleQueries v);
  ("GET " +:+ p +:+ "/ddd_events", handleEvents v);
  ("GET " +:+ p +:+ "/ddd_domains", handleDomains v);
  ("GET " +:+ p +:+ "/ddd_command_types", handleCommandTypes v);
  ("GET " +:+ p +:+ "/ddd_query_types", handleQueryTypes v);
  ("GET " +:+ p +:+ "/ddd_event_types", handleEventTypes v);
  ("GET " +:+ p +:+ "/ddd_stats", handleStats v);
  ("GET " +:+ p +:+ "/ddd_jobs", handleJobs v);
  ("GET " +:+ p +:+ "/ddd_traces", handleTraces v);
  ("GET " +:+ p +:+ "/ddd_health", handleHealth v);
  ("GET " +:+ p +:+ "/ddd_graph", handleGraph v)].
End DDDViewer.

(** ** Lemmas *)

Lemma page_size_range r : (1 <= page_size r <= 500)%Z.
Proof.
  unfold page_size. case_bool_decide; [|lia]. destruct (Atoi _) as [n ok]. destruct ok; cbn; [|lia].
  repeat case_bool_decide; cbn; lia.
Qed.

(** The number of pages is the quotient rounded up, at least one. *)
Lemma newPagination_spec p n total : (1 <= p)%Z -> (1 <= n)%Z -> (0 <= total < two63)%Z ->
  let count := Z.max 1 ((total + n - 1) / n) in
  newPagination p n total = mkPagination p n total count (bool_decide (1 < p)%Z) (bool_decide (p < count)%Z).
Proof.
  intros Hp Hn Ht count. unfold newPagination. rewrite !(bool_decide_eq_false_2 (_ <= 0)%Z) by lia.
  rewrite Z.quot_div_nonneg, Z.rem_mod_nonneg by lia.
  set (pages := if bool_decide (0 < total mod n)%Z then _ else _).
  assert (pages = (total + n - 1) / n)%Z as Hpages.
  { pose proof (Z.div_mod total n). pose proof (Z.mod_pos_bound total n).
    assert (0 <= total / n <= total)%Z by (split; [apply Z.div_pos; lia|apply Z.div_le_upper_bound; nia]).
    unfold pages. case_bool_decide as Hr.
    - assert (n = 1 -> total mod n = 0)%Z by (intros ->; apply Z.mod_1_r).
      assert (n <> 1)%Z by lia. assert (total / n <= total / 2)%Z by (apply Z.div_le_compat_l; lia).
      assert (total / 2 <= total / 2)%Z by lia. pose proof (Z.div_lt_upper_bound total 2 (two63 - 1)).
      rewrite int_add_id by (unfold in_int64, two63 in *; lia).
      apply (Z.div_unique _ _ _ (total mod n - 1)%Z); lia.
    - apply (Z.div_unique _ _ _ (n - 1)%Z); lia. }
  assert (0 <= (total + n - 1) / n)%Z by (apply Z.div_pos; lia).
  assert ((if bool_decide (pages = 0)%Z then 1%Z else pages) = count) as ->; [|done].
  unfold count. rewrite Hpages. case_bool_decide; lia.
Qed.

Lemma page_offset_exact k n : (0 <= k)%Z -> (0 <= n)%Z -> (k * n < two63)%Z -> (k + 1 < two63)%Z -> page_offset (k + 1) n = (k * n)%Z.
Proof.
  intros Hk Hn H1 H2. unfold page_offset. rewrite int_sub_id by (unfold in_int64, two63 in *; lia).
  replace ((k + 1 - 1) * n)%Z with (k * n)%Z by lia. apply wrap64_id. unfold in_int64, two63 in *. nia.
Qed.

(** A number that is not out of range is read alike by the filter and by the page. *)
Lemma page_param r p : Atoi (query_get r "page") = (p, true) -> (1 <= p)%Z -> page_number r = p /\ shown_page r = p.
Proof.
  intros H Hp. unfold page_number, shown_page. rewrite H. cbn. split; [|by rewrite bool_decide_eq_false_2 by lia].
  rewrite (bool_decide_eq_true_2 (0 < p)%Z) by lia. case_bool_decide as Hq; [done|].
  rewrite Hq in H. discriminate H.
Qed.

(** The part of a list on page [k], counted from zero. *)
Definition page_cut {T} (n : Z) (l : list T) (k : nat) : list T := take (Z.to_nat n) (drop (Z.to_nat n * k) l).

Lemma pages_cover {T} (n : Z) (l : list T) count : (1 <= n)%Z -> (zlen l <= n * Z.of_nat count)%Z ->
  concat (map (page_cut n l) (seq 0 count)) = l.
Proof.
  intros Hn Hl. unfold page_cut. rewrite concat_pages, Nat.mul_0_r. cbn. apply take_ge. unfold zlen in *. nia.
Qed.

Section Paging.
Context {W V T : Type} `{HC : !Clock W, HM : !Has ObservableMessageStore W}.
Context (op : MessageStoreReader W -> context -> MessageFilter -> GoM W (result (QueryResult T)))
  (m : T -> MessageFilter -> bool) (entries : ObservableMessageStore -> list T)
  (feature template : string) (page : list T -> MessageFilter -> string -> Pagination -> page_data V).
Context (Hop : forall ctx f w, op observable_reader ctx f w = (r ← query m (entries (part w)) f; mret (Ok r), w)).
Context (Hm : forall e f f', mf_Type f = mf_Type f' -> mf_TraceID f = mf_TraceID f' -> mf_AggregateID f = mf_AggregateID f' ->
  mf_Status f = mf_Status f' -> mf_Since f = mf_Since f' -> m e f = m e f').
Context (Hnow : quiet (S := ObservableMessageStore) (time_now (W := W))).
Context (v : DDDViewer (W := W) (V := V)) (Hv : v_msgReader v = Some observable_reader).

(** The messages that a request asks for, newest first. *)
Definition asked (r : request) (s : ObservableMessageStore) : list T :=
  List.filter (fun e => m e (parseMessageFilter r)) (rev (entries s)).

Lemma message_page_memory r w : exists w', part w' = (part w : ObservableMessageStore) /\
  message_page op feature template page v r w =
    (if bool_decide (mf_Offset (parseMessageFilter r) < 0)%Z then Panicked "slice bounds out of range"
     else Done (Rendered template (page (cut (parseMessageFilter r) (asked r (part w))) (parseMessageFilter r) (v_Prefix v)
            (newPagination (shown_page r) (page_size r) (zlen (asked r (part w)))))), w').
Proof.
  destruct (Hnow w) as (t & w1 & Ht & H1). exists w1. split; [done|].
  assert (forall n, exists c, with_timeout (rq_ctx r) n w = (Done c, w1)) as Hc.
  { intros n. eexists. unfold with_timeout, mbind, go_bind. rewrite Ht. reflexivity. }
  destruct (Hc 5%Z) as [c E]. unfold message_page. rewrite Hv. unfold mbind, go_bind. rewrite E, Hop, query_spec, H1.
  case_bool_decide; reflexivity.
Qed.

(** The request [r] asks for page [k] of what [r0] asks for. *)
Definition asks_page (r0 : request) (k : nat) (r : request) : Prop :=
  Atoi (query_get r "page") = (Z.of_nat k + 1, true)%Z /\ forall key, key <> "page" -> query_get r key = query_get r0 key.

Lemma asked_same r0 k r s : asks_page r0 k r -> asked r s = asked r0 s /\ page_size r = page_size r0.
Proof.
  intros [_ Hq]. split.
  - unfold asked. apply filter_ext. intros e. apply Hm; cbn; by rewrite Hq.
  - unfold page_size. by rewrite Hq.
Qed.

Definition shown (r0 r : request) (s : ObservableMessageStore) (k : nat) : response V (page_data V) :=
  let n := page_size r0 in
  let count := Z.max 1 ((zlen (asked r0 s) + n - 1) / n) in
  Rendered template (page (page_cut n (asked r0 s) k) (parseMessageFilter r) (v_Prefix v)
    (mkPagination (Z.of_nat k + 1) n (zlen (asked r0 s)) count (bool_decide (0 < k)) (bool_decide (Z.of_nat k + 1 < count)%Z))).

Lemma page_shown r0 k r w : asks_page r0 k r -> (zlen (asked r0 (part w)) + 500 < two63)%Z ->
  (Z.of_nat k < Z.max 1 ((zlen (asked r0 (part w)) + page_size r0 - 1) / page_size r0))%Z ->
  exists w', part w' = (part w : ObservableMessageStore) /\
    message_page op feature template page v r w = (Done (shown r0 r (part w) k), w').
Proof.
  intros Hr Hb Hk. destruct (message_page_memory r w) as (w' & Hw' & ->). exists w'. split; [done|].
  destruct (asked_same r0 k r (part w) Hr) as [Ha Hn]. rewrite Ha, Hn. pose proof (page_size_range r0) as Hr0.
  set (n := page_size r0) in *. set (l := asked r0 (part w)) in *. pose proof (zlen_nonneg l) as Hl.
  destruct (page_param r (Z.of_nat k + 1)) as [Hp Hs]; [apply Hr|lia|]. rewrite Hs.
  assert (Z.of_nat k * n <= zlen l)%Z as Hkn.
  { destruct (decide (k = 0)) as [->|]; [lia|]. pose proof (Z.div_mod (zlen l + n - 1) n).
    pose proof (Z.mod_pos_bound (zlen l + n - 1) n). nia. }
  assert (mf_Offset (parseMessageFilter r) = Z.of_nat k * n)%Z as Ho.
  { cbn. rewrite Hp, Hn. apply page_offset_exact; nia. }
  rewrite bool_decide_eq_false_2 by lia. rewrite newPagination_spec by lia. unfold shown. fold n l.
  do 4 f_equal.
  - unfold cut, page_cut. rewrite Ho. cbn [mf_Limit parseMessageFilter]. rewrite Hn, bool_decide_eq_false_2 by lia.
    by replace (Z.to_nat (Z.of_nat k * n)) with (Z.to_nat n * k) by lia.
  - f_equal. apply bool_decide_ext. lia.
Qed.

Lemma pages_shown r0 k0 reqs w : (forall k r, reqs !! k = Some r -> asks_page r0 (k0 + k) r) ->
  (zlen (asked r0 (part w)) + 500 < two63)%Z ->
  (Z.of_nat (k0 + length reqs) <= Z.max 1 ((zlen (asked r0 (part w)) + page_size r0 - 1) / page_size r0))%Z ->
  exists w', mapM (message_page op feature template page v) reqs w =
    (Done (imap (fun k r => shown r0 r (part w) (k0 + k)) reqs), w') /\ part w' = (part w : ObservableMessageStore).
Proof.
  intros Hr Hb. revert k0 w Hr Hb. induction reqs as [|r reqs IH]; intros k0 w Hr Hb Hk; [by exists w|].
  pose proof (Hr 0 r eq_refl) as H0. rewrite Nat.add_0_r in H0.
  destruct (page_shown r0 k0 r w H0 Hb) as (w1 & H1 & E1); [cbn in Hk; lia|].
  destruct (IH (S k0) w1) as (w2 & E2 & H2).
  { intros k r' Hk'. specialize (Hr (S k) r' Hk'). by rewrite Nat.add_succ_r in Hr. }
  { by rewrite H1. } { rewrite H1. cbn in Hk |- *. by rewrite Nat.add_succ_r in Hk. }
  exists w2. split; [|by rewrite H2]. cbn [mapM]. unfold mbind, go_bind. rewrite E1. unfold mbind, go_bind in E2. rewrite E2, H1.
  cbn [imap]. rewrite Nat.add_0_r. unfold mret, go_ret. do 3 f_equal. apply imap_ext. intros k r' _. cbn. by rewrite Nat.add_succ_r.
Qed.
End Paging.

(** *** Graphs of traces *)
Section Graphs.
Context `{HMR : !MapRange, HMRL : !MapRangeLaws}.

Lemma range_keys_nodup {A} (m : gmap string A) : NoDup (map fst (map_range m)).
Proof. rewrite (map_range_perm _ m). apply NoDup_fst_map_to_list. Qed.

Lemma range_in {A} (m : gmap string A) k x : (k, x) ∈ map_range m <-> m !! k = Some x.
Proof. rewrite (map_range_perm _ m). apply elem_of_map_to_list. Qed.

(** The nodes of a runtime graph have the names of the spans, each once. *)
Lemma runtime_nodes types spans :
  let ids := map n_ID (g_Nodes (runtime_graph types spans)) in
  NoDup ids /\ forall n, n ∈ ids <-> n ∈ map SpanName spans.
Proof.
  unfold runtime_graph. cbn [g_Nodes].
  set (f := fun (m : gmap string Node) s => <[SpanName s := mkNode (SpanName s) (SpanType s)
    (from_option (TypeRegistry.GetTypeDomain (SpanName s)) "" types)]> m).
  assert (forall m k, (forall n x, m !! n = Some x -> n_ID x = n) ->
    (forall n x, fold_left f spans m !! n = Some x -> n_ID x = n) /\
    (is_Some (fold_left f spans m !! k) <-> is_Some (m !! k) \/ k ∈ map SpanName spans)) as Hf.
  { induction spans as [|s spans IH]; intros m k Hm; cbn; [split; [done|]; rewrite elem_of_nil; tauto|].
    destruct (IH (f m s) k) as [H1 H2].
    { intros n x. unfold f. rewrite lookup_insert. case_decide as E; [|apply Hm]. intros [= <-]. exact E. }
    split; [exact H1|]. rewrite H2. unfold f. rewrite lookup_insert, elem_of_cons. case_decide as E.
    - split; [intros _; right; by left|]. intros _. left. by eexists.
    - split; [tauto|]. intros [?|[->|?]]; [by left|done|by right]. }
  set (m := fold_left f spans ∅).
  assert (map n_ID (map snd (map_range m)) = map fst (map_range m)) as ->.
  { rewrite map_map. apply map_ext_in. intros [k x] Hin. apply list_elem_of_In, range_in in Hin.
    destruct (Hf ∅ k) as [H _]; [done|]. exact (H k x Hin). }
  split; [apply range_keys_nodup|]. intros n. destruct (Hf ∅ n) as [_ H]; [done|].
  rewrite lookup_empty in H. transitivity (is_Some (m !! n)).
  - rewrite list_elem_of_fmap. split; [intros ([k x] & -> & Hin); exists x; by apply range_in|].
    intros [x Hx]. exists (n, x). split; [done|]. by apply range_in.
  - unfold m. rewrite H. split; [intros [[? ?]|?]; done|by right].
Qed.

Lemma parent_in_some spans s ps : parent_in spans s = Some ps -> ps ∈ spans /\ SpanID ps = ParentID s /\ ParentID s <> "".
Proof.
  unfold parent_in. case_bool_decide as Hs; [|done]. intros H. apply find_some in H as [Hin Hid].
  split_and!; [by apply list_elem_of_In|by apply bool_decide_eq_true_1 in Hid|done].
Qed.

Lemma runtime_empty types : runtime_graph types [] = mkGraph [] [] [].
Proof.
  unfold runtime_graph. cbn. assert (map_range (∅ : gmap string Node) = []) as ->; [|done].
  apply Permutation_nil. by rewrite (map_range_perm _ _), map_to_list_empty.
Qed.

(** Every edge of a runtime graph joins two of its nodes. *)
Lemma runtime_closed types spans e : e ∈ g_Edges (runtime_graph types spans) ->
  let ids := map n_ID (g_Nodes (runtime_graph types spans)) in e_Source e ∈ ids /\ e_Target e ∈ ids.
Proof.
  intros He ids. destruct (runtime_nodes types spans) as [_ Hids]. fold ids in Hids. clearbody ids. cbn in He.
  apply list_elem_of_omap in He as (s & Hs & He). unfold runtime_edge in He.
  destruct (parent_in spans s) as [ps|] eqn:Hp; [|done]. injection He as <-. apply parent_in_some in Hp as (Hin & _).
  cbn. rewrite !Hids. split; by apply list_elem_of_fmap_2.
Qed.

(** What the traces tell: the handler of the parent's message emits the span's. *)
Definition emits (traces : list (list Span)) (h e : string) : Prop :=
  exists spans s ps, spans ∈ traces /\ s ∈ spans /\ parent_in spans s = Some ps /\ h = SpanName ps +:+ "Handler" /\ e = SpanName s.

Definition filed (m : gmap string (gmap string bool)) (h e : string) : Prop := is_Some (mget ∅ m h !! e).

Lemma filed_add spans m s h e : filed (add_emission spans m s) h e <->
  filed m h e \/ exists ps, parent_in spans s = Some ps /\ h = SpanName ps +:+ "Handler" /\ e = SpanName s.
Proof.
  unfold add_emission. destruct (parent_in spans s) as [ps|] eqn:E; [|split; [by left|intros [?|(? & ? & _)]; done]].
  unfold filed. destruct (decide (h = SpanName ps +:+ "Handler")) as [->|Hh].
  - rewrite mget_insert_eq, lookup_insert. case_decide as He.
    + split; [intros _; right; by eexists|]. intros _. by eexists.
    + split; [by left|]. intros [?|(? & [= <-] & _ & ?)]; [done|]. by subst.
  - rewrite mget_insert_ne by done. split; [by left|]. intros [?|(? & [= <-] & ? & _)]; done.
Qed.

Lemma filed_trace spans l m h e : filed (fold_left (add_emission spans) l m) h e <->
  filed m h e \/ exists s ps, s ∈ l /\ parent_in spans s = Some ps /\ h = SpanName ps +:+ "Handler" /\ e = SpanName s.
Proof.
  revert m. induction l as [|s l IH]; intros m; cbn.
  { split; [by left|]. intros [?|(s & ps & Hs & _)]; [done|]. by apply elem_of_nil in Hs. }
  rewrite IH, filed_add. split.
  - intros [[?|(ps & H)]|(x & ps & Hx & H)]; [by left|right; exists s, ps..|right; exists x, ps];
      (split; [by constructor|exact H]).
  - intros [?|(x & ps & Hx & H)]; [by do 2 left|]. apply elem_of_cons in Hx as [->|Hx]; [left; right; by exists ps|].
    right. by exists x, ps.
Qed.

Lemma filed_emissions traces h e : filed (emissions traces) h e <-> emits traces h e.
Proof.
  unfold emissions. assert (forall m, filed (fold_left (fun m spans => fold_left (add_emission spans) spans m) traces m) h e <->
    filed m h e \/ emits traces h e) as H.
  { unfold emits. induction traces as [|spans l IH]; intros m; cbn.
    { split; [by left|]. intros [?|(spans & s & ps & Hs & _)]; [done|]. by apply elem_of_nil in Hs. }
    rewrite IH, filed_trace. split.
    - intros [[?|(s & ps & H)]|(x & s & ps & Hx & H)]; [by left|right; exists spans, s, ps..|right; exists x, s, ps];
        (split; [by constructor|exact H]).
    - intros [?|(x & s & ps & Hx & H)]; [by do 2 left|]. apply elem_of_cons in Hx as [->|Hx]; [left; right; by exists s, ps|].
      right. by exists x, s, ps. }
  rewrite H. unfold filed, mget. rewrite lookup_empty. cbn. rewrite lookup_empty. split; [intros [[? ?]|?]; done|by right].
Qed.

Lemma emission_edges_spec m : NoDup (emission_edges m) /\
  forall x, x ∈ emission_edges m <-> filed m (e_Source x) (e_Target x) /\ e_Type x = "emits".
Proof.
  unfold emission_edges.
  assert (forall h (evs : gmap string bool) x, x ∈ map (fun '(evt, _) => mkEdge h evt "emits") (map_range evs) <->
    e_Source x = h /\ is_Some (evs !! e_Target x) /\ e_Type x = "emits") as Hin.
  { intros h evs x. rewrite list_elem_of_fmap. split.
    - intros ([evt b] & -> & Hb). cbn. split_and!; [done| |done]. exists b. by apply range_in.
    - destruct x as [h' evt k]. cbn. intros (-> & [b Hb] & ->). exists (evt, b). split; [done|]. by apply range_in. }
  split.
  - pose proof (range_keys_nodup m) as Hk. induction (map_range m) as [|[h evs] l IH]; cbn in *; [constructor|].
    apply NoDup_cons in Hk as [Hh Hk]. apply NoDup_app. split_and!; [| |by apply IH].
    + assert (map (fun '(evt, _) => mkEdge h evt "emits") (map_range evs) =
        map (fun evt => mkEdge h evt "emits") (map fst (map_range evs))) as ->
        by (rewrite map_map; apply map_ext; by intros []).
      apply NoDup_fmap_2; [by intros ? ? [=]|apply range_keys_nodup].
    + intros x Hx Hl. apply Hin in Hx as (Hs & _). apply list_elem_of_In, in_flat_map in Hl as ([h' evs'] & Hl & Hx).
      apply list_elem_of_In, Hin in Hx as (Hs' & _). apply Hh. apply list_elem_of_fmap. exists (h', evs').
      split; [cbn; congruence|by apply list_elem_of_In].
  - intros x. rewrite list_elem_of_In, in_flat_map. unfold filed, mget. split.
    + intros ([h evs] & Hl & Hx). apply list_elem_of_In, Hin in Hx as (-> & Ht & ->).
      apply list_elem_of_In, range_in in Hl. rewrite Hl. done.
    + intros [Ht Hk]. destruct (m !! e_Source x) as [evs|] eqn:E; cbn in Ht; [|by rewrite lookup_empty in Ht; destruct Ht].
      exists (e_Source x, evs). split; [by apply list_elem_of_In, range_in|]. by apply list_elem_of_In, Hin.
Qed.
End Graphs.

(** ** Properties *)

(** C36: browsing the commands in memory shows each of them once: requests that only differ in
    [page] and ask for the pages from the first to the last that the pagination names give
    pages whose entries, one after the other, are the matching commands, newest first; each page
    names the number of all of them and of the pages, and has a next one unless it is the
    last. A page whose offset overflows to a negative number makes the handler panic. *)
Theorem viewer_pages {W V} `{!Clock W, !Has ObservableMessageStore W} (v : DDDViewer (W := W) (V := V)) r0 reqs (w : W) :
  let all := asked matchCommandFilter (fun s => GetCommands (inner s)) r0 (part w) in
  let count := Pages (newPagination 1 (page_size r0) (zlen all)) in
  quiet (S := ObservableMessageStore) (time_now (W := W)) -> v_msgReader v = Some observable_reader ->
  (zlen all + 500 < two63)%Z -> zlen reqs = count -> (forall k r, reqs !! k = Some r -> asks_page r0 k r) ->
  exists w' shown,
    mapM (handleCommands v) reqs w = (Done (imap (fun k r => Rendered "ddd_commands"
      (PCommands (shown k) (parseMessageFilter r) (v_Prefix v) (mkPagination (Z.of_nat k + 1) (page_size r0) (zlen all) count
        (bool_decide (0 < k)) (bool_decide (Z.of_nat k + 1 < count)%Z)))) reqs), w') /\
    concat (map shown (seq 0 (length reqs))) = all /\
    forall r w1, (page_offset (page_number r) (page_size r) < 0)%Z ->
      (handleCommands v r w1).1 = Panicked "slice bounds out of range".
Proof.
  intros all count Hnow Hv Hb Hl Hr. pose proof (page_size_range r0) as Hn. pose proof (zlen_nonneg all) as Ha.
  assert (count = Z.max 1 ((zlen all + page_size r0 - 1) / page_size r0)) as Hc by (unfold count; by rewrite newPagination_spec by lia).
  assert (forall ctx f (w : W), mr_QueryCommands observable_reader ctx f w =
    (r ← query matchCommandFilter (GetCommands (inner (part w))) f; mret (Ok r), w)) as Hop by done.
  assert (forall e f f', mf_Type f = mf_Type f' -> mf_TraceID f = mf_TraceID f' -> mf_AggregateID f = mf_AggregateID f' ->
    mf_Status f = mf_Status f' -> mf_Since f = mf_Since f' -> matchCommandFilter e f = matchCommandFilter e f') as Hm.
  { intros e f f' H1 H2 _ H4 H5. unfold matchCommandFilter, matchStringFilter. by rewrite H1, H2, H4, H5. }
  destruct (pages_shown _ _ (fun s => GetCommands (inner s)) "Commands" "ddd_commands" PCommands Hop Hm Hnow v Hv r0 0 reqs w Hr Hb)
    as (w' & E & _); [change (0 + length reqs) with (length reqs); fold all; unfold zlen in *; lia|].
  exists w', (page_cut (page_size r0) all). split_and!.
  - unfold handleCommands. rewrite E. unfold shown. fold all. by rewrite Hc.
  - apply pages_cover; [lia|]. change (Z.of_nat (length reqs)) with (zlen reqs). rewrite Hl, Hc.
    pose proof (Z.div_mod (zlen all + page_size r0 - 1) (page_size r0)).
    pose proof (Z.mod_pos_bound (zlen all + page_size r0 - 1) (page_size r0)). nia.
  - intros r w1 Ho. destruct (message_page_memory _ _ (fun s => GetCommands (inner s)) "Commands" "ddd_commands" PCommands
      Hop Hnow v Hv r w1) as (w2 & _ & E2). unfold handleCommands. rewrite E2.
    by rewrite (bool_decide_eq_true_2 (mf_Offset (parseMessageFilter r) < 0)%Z).
Qed.

Section MemoryTraces.
Context {W V : Type} `{HC : !Clock W, HT : !Has InMemoryTraceStore W, HR : !Has RelationshipRegistry W, HP : !Has TypePrototypeRegistry W}
  `{HSS : !SortSlice, HMR : !MapRange, HMRL : !MapRangeLaws}.

(** The spans of a trace, as the store has them. *)
Definition spans_of (ts : InMemoryTraceStore) (tid : string) : list Span := List.filter (of_trace tid) (spans ts).

Lemma read_traces_memory ctx ids (w : W) : store_ok (part w) -> Forall (fun t => spans_of (part w) t <> []) ids ->
  read_traces memory_traces ctx ids w = (Done (map (spans_of (part w)) ids), w).
Proof.
  intros Hok. induction 1 as [|t ids Ht _ IH]; [done|]. cbn [read_traces map]. unfold mbind, go_bind in *.
  cbn [tr_GetTrace memory_traces]. rewrite get_trace_correct, IH by done. unfold get_trace_spec. fold (spans_of (part w) t).
  destruct (spans_of (part w) t) eqn:E; [done|]. reflexivity.
Qed.

Lemma memory_listing (w : W) ctx : store_ok (part w) -> exists ids, tr_ListTraces memory_traces ctx no_filter w = (Done (Ok ids), w) /\
  NoDup ids /\ forall t, t ∈ ids <-> spans_of (part w) t <> [].
Proof.
  intros Hok. destruct (list_traces_spec no_filter (part w) Hok) as (ids & E & Hnd & Hids). exists ids.
  cbn. rewrite E. split_and!; [done|done|]. intros t. rewrite Hids. unfold spans_of.
  assert (trace_listed no_filter (spans (part w)) t = true) as -> by done. by split; [intros [? _]|].
Qed.

Lemma spans_of_in ts t s : s ∈ spans_of ts t <-> s ∈ spans ts /\ TraceID s = t.
Proof.
  unfold spans_of. rewrite list_elem_of_In, filter_In, <- list_elem_of_In. unfold of_trace. by rewrite bool_decide_eq_true.
Qed.

(** The emissions of all the traces of the store. *)
Lemma emits_memory ts ids h e : (forall t, t ∈ ids <-> spans_of ts t <> []) ->
  emits (map (spans_of ts) ids) h e <->
  exists s ps, s ∈ spans ts /\ parent_in (spans_of ts (TraceID s)) s = Some ps /\ h = SpanName ps +:+ "Handler" /\ e = SpanName s.
Proof.
  intros Hids. unfold emits. split.
  - intros (l & s & ps & Hl & Hs & H). apply list_elem_of_fmap in Hl as (t & -> & Ht).
    apply spans_of_in in Hs as [Hs <-]. by exists s, ps.
  - intros (s & ps & Hs & H). exists (spans_of ts (TraceID s)), s, ps.
    assert (s ∈ spans_of ts (TraceID s)) as Hin by (by apply spans_of_in). split; [|by split].
    apply list_elem_of_fmap_2, Hids. intros E. rewrite E in Hin. by apply elem_of_nil in Hin.
Qed.

Context (Hnow : forall w : W, exists t w', time_now w = (Done t, w') /\
  part w' = (part w : InMemoryTraceStore) /\ part w' = (part w : TypePrototypeRegistry)).

Lemma timeout_run ctx n (w : W) : exists c w', with_timeout ctx n w = (Done c, w') /\
  part w' = (part w : InMemoryTraceStore) /\ part w' = (part w : TypePrototypeRegistry).
Proof. destruct (Hnow w) as (t & w' & E & H). eexists _, w'. split; [|exact H]. unfold with_timeout, mbind, go_bind. rewrite E. reflexivity. Qed.
End MemoryTraces.

(** the graphs that the viewer draws from the in-memory traces. The summary adds to the
    recorded relations, without repetition, exactly an emission from the handler of a
    message, named after it, to every message whose span has that message's span as its
    parent in the same trace. The runtime graph of a trace has one node per name of its
    spans, an edge for every span whose parent is in the trace, and every edge joins two of
    its nodes. *)
Theorem trace_graphs {W V} `{!Clock W, !Has StatsCollector W, !Has TypePrototypeRegistry W, !Has RelationshipRegistry W,
    !Has InMemoryTraceStore W, !SortSlice, !MapRange, !MapRangeLaws} (v : DDDViewer (W := W) (V := V)) df tf tid (w : W) :
  let ts : InMemoryTraceStore := part w in
  let recorded := BuildGraph df tf (part w) in
  let trace := spans_of ts tid in
  (forall w : W, exists t w', time_now w = (Done t, w') /\
    part w' = (part w : InMemoryTraceStore) /\ part w' = (part w : TypePrototypeRegistry)) ->
  store_ok ts -> v_traceStore v = Some memory_traces ->
  (exists added w', buildSummaryGraph v df tf w =
      (Done (mkGraph (g_Nodes recorded) (g_Edges recorded ++ added) (g_Domains recorded)), w') /\
    NoDup added /\ forall x, x ∈ added <-> e_Type x = "emits" /\ exists s ps, s ∈ spans ts /\
      parent_in (spans_of ts (TraceID s)) s = Some ps /\ e_Source x = SpanName ps +:+ "Handler" /\ e_Target x = SpanName s) /\
  (exists g w', buildRuntimeGraph v memory_traces tid w = (Done g, w') /\
    NoDup (map n_ID (g_Nodes g)) /\ (forall n, n ∈ map n_ID (g_Nodes g) <-> n ∈ map SpanName trace) /\
    g_Edges g = omap (runtime_edge trace) trace /\
    forall x, x ∈ g_Edges g -> e_Source x ∈ map n_ID (g_Nodes g) /\ e_Target x ∈ map n_ID (g_Nodes g)).
Proof.
  intros ts recorded trace Hnow Hok Hv. split.
  - destruct (timeout_run Hnow Background 5 w) as (c & w1 & E & Ht & _).
    destruct (memory_listing w1 c) as (ids & El & _ & Hids); [by rewrite Ht|].
    pose proof (read_traces_memory c ids w1) as Er. rewrite Ht in Er, Hids. fold ts in Er, Hids.
    destruct (emission_edges_spec (emissions (map (spans_of ts) ids))) as [Hnd Hin].
    eexists _, w1. split; [|split; [exact Hnd|]].
    + unfold buildSummaryGraph, build_graph. rewrite Hv. unfold mbind, go_bind in *. rewrite E, El, Er; [reflexivity|done|].
      apply Forall_forall. intros t. apply Hids.
    + intros x. rewrite Hin, filed_emissions, (emits_memory ts ids _ _ Hids). tauto.
  - destruct (timeout_run Hnow Background 5 w) as (c & w1 & E & Ht & Hp).
    exists (runtime_graph (if v_typeRegistry v then Some (part w) else None) trace), w1. split.
    + unfold buildRuntimeGraph, mbind, go_bind. rewrite E. cbn [tr_GetTrace memory_traces]. rewrite get_trace_correct by (by rewrite Ht).
      rewrite Ht. unfold get_trace_spec. fold (spans_of (part w) tid). fold ts. fold trace.
      destruct trace eqn:El; [by rewrite runtime_empty|]. unfold with_types. by rewrite Hp.
    + destruct (runtime_nodes (if v_typeRegistry v then Some (part w) else None) trace) as [Hn1 Hn2]. split_and!; [done|done|done|]. apply runtime_closed.
Qed.


(** ** A concrete viewer *)
Module DemoViewer.
Import DemoDashboard.
Definition world : Type := DemoDashboard.world * (TypePrototypeRegistry * RelationshipRegistry).
#[export] Instance demo_clock : Clock world := fun w => let (t, w') := now w.1 in (t, (w', w.2)).
#[export] Instance demo_stats : Has StatsCollector world := { part w := part w.1; set_part s w := (set_part s w.1, w.2) }.
#[export] Instance demo_traces : Has InMemoryTraceStore world := { part w := part w.1; set_part s w := (set_part s w.1, w.2) }.
#[export] Instance demo_messages : Has ObservableMessageStore world := { part w := part w.1; set_part s w := (set_part s w.1, w.2) }.
#[export] Instance demo_types : Has TypePrototypeRegistry world := { part w := w.2.1; set_part s w := (w.1, (s, w.2.2)) }.
#[export] Instance demo_relations : Has RelationshipRegistry world := { part w := w.2.2; set_part s w := (w.1, (w.2.1, s)) }.

Definition span (i parent ty name : string) : Span := mkSpan i "t" parent ty name "success" "" 1 1.
Definition traces : InMemoryTraceStore :=
  default (NewInMemoryTraceStore []) (match trace_run (NewInMemoryTraceStore [])
    [OpRecord 1 (span "a" "" "command" "Pay"); OpRecord 1 (span "b" "a" "event" "Paid")] with Done s => Some s | _ => None end).
Definition w0 : world := ((0%Z, (NewStatsCollector [], (traces, Messages.DemoMessages.store))), (NewTypePrototypeRegistry, NewRegistry)).
Definition viewer : DDDViewer (W := world) (V := Z) :=
  mkViewer true true (Some observable_reader) (Some (memory_schema (fun s => s))) (Some memory_traces) None true true "/api/ddd" 100 "Memory" "".
Definition payments (page : string) : request :=
  mkRequest "GET" [("type", "Pay"); ("pageSize", "2"); ("page", page)] "" "" Background.
End DemoViewer.
Import DemoViewer.

Lemma viewer_pages_witness :
  (exists w' shown, mapM (handleCommands viewer) [payments "1"; payments "2"] w0 =
      (Done [Rendered "ddd_commands" (PCommands (shown 0) (parseMessageFilter (payments "1")) "/api/ddd" (mkPagination 1 2 3 2 false true));
             Rendered "ddd_commands" (PCommands (shown 1) (parseMessageFilter (payments "2")) "/api/ddd" (mkPagination 2 2 3 2 true false))], w') /\
    map ce_CreatedAt (shown 0 ++ shown 1) = [4%Z; 3%Z; 1%Z]) /\
  (handleCommands viewer (payments "9223372036854775807") w0).1 = Panicked "slice bounds out of range".
Proof.
  destruct (viewer_pages viewer (payments "1") [payments "1"; payments "2"] w0) as (w' & shown & E & Hc & Hp).
  - intros w. by eexists _, _.
  - reflexivity.
  - reflexivity.
  - reflexivity.
  - intros [|[|]] r [= <-]; (split; [reflexivity|]); intros key Hk; unfold query_get; cbn;
      repeat (case_decide; [done|]); congruence.
  - split; [exists w', shown; split; [exact E|]|apply Hp; reflexivity].
    cbn in Hc. rewrite app_nil_r in Hc. rewrite Hc. vm_compute. reflexivity.
Defined.

Lemma trace_graphs_witness :
  (exists added w', buildSummaryGraph viewer "" "" w0 = (Done (mkGraph [] added []), w') /\ mkEdge "PayHandler" "Paid" "emits" ∈ added) /\
  exists g w', buildRuntimeGraph viewer memory_traces "t" w0 = (Done g, w') /\ g_Edges g = [mkEdge "Pay" "Paid" "handles"].
Proof.
  destruct (trace_graphs viewer "" "" "t" w0) as [(added & w' & E & Hnd & Hin) (g & w1 & E1 & _ & _ & He & _)].
  - intros w. by eexists _, _.
  - destruct (trace_run_ok [OpRecord 1 (span "a" "" "command" "Pay"); OpRecord 1 (span "b" "a" "event" "Paid")] _
      (new_store_ok [] ltac:(by vm_compute))) as (s & Hr & Hok & _).
    change (store_ok traces). unfold traces. by rewrite Hr.
  - reflexivity.
  - split; [|exists g, w1; split; [exact E1|]; rewrite He; vm_compute; reflexivity].
    exists added, w'. split; [exact E|]. apply Hin. split; [reflexivity|].
    exists (span "b" "a" "event" "Paid"), (span "a" "" "command" "Pay"). split_and!; [right; left|reflexivity..].
Defined.

(** Pages of a domain are cut before its messages are chosen: with two messages a page, the
    shipment is on the second page of all commands, so the first page of its domain is
    empty and names no next one, while the second page shows it. *)
Example domain_entry_unreachable :
  let types := RegisterWithDomain "command" "ship" "Ship" [] "" [] NewTypePrototypeRegistry in
  let ask page := handleDomains (fun _ => None) (fun _ => "") (fun _ => "") viewer
    (mkRequest "GET" [("domain", "ship"); ("pageSize", "2"); ("page", page)] "" "" Background) (set_part types w0) in
  let entries r := match r with Done (Rendered _ (PDomains _ _ _ _ es _ (Some pg))) => Some (map de_Type es, HasNext pg) | _ => None end in
  entries (ask "1").1 = Some ([], false) /\ entries (ask "2").1 = Some (["Ship"], false).
Proof. split; vm_compute; reflexivity. Qed.
