(* ===== verification/App.v ===== *)
(** * The application container: [src/app], [src/infra/backend.go], [bus.go],
    [provider.go], [memory_backend.go], [pg_backend.go], [src/config]

    Options build an [App]; [Close] shuts it down. The app and the buses that it
    creates share one aspect chain by pointer: a bus made by the app's factory is an
    [OwnBus], whose chain is the app's whatever is registered later. *)

From S2P Require Import Prelude Errors Trace Aspect Bus EventBus Job Builtin.

(** ** Configuration ([config.go]) *)

Record AppConfig := mkAppConfig { ac_Name : string; ac_Env : string }.
Record StoreConfig := mkStoreConfig { sc_Type : string; sc_DSN : string }.
Record AspectConfig := mkAspectConfig {
  EnableLogging : bool;
  EnableTracing : bool;
  EnableMetrics : bool;
  EnableTransaction : bool }.
Record LogConfig := mkLogConfig { lc_Level : string }.
Record Config := mkConfig { c_App : AppConfig; c_Store : StoreConfig; c_Aspect : AspectConfig; c_Log : LogConfig }.

Definition DefaultConfig : Config :=
  mkConfig (mkAppConfig "ddq-app" "development") (mkStoreConfig "memory" "")
    (mkAspectConfig true true true true) (mkLogConfig "debug").

(** [var cfg Config]. *)
Definition zero_config : Config :=
  mkConfig (mkAppConfig "" "") (mkStoreConfig "" "") (mkAspectConfig false false false false) (mkLogConfig "").

Section Config.
Context {W : Type} (os_ReadFile : string -> GoM W (string + goerr)) (toml_Unmarshal : string -> Config -> result Config).
Context (os_Getenv : string -> GoM W string).

(** [ConfigLoader] is its [config]. *)
Definition NewConfigLoader : Config := DefaultConfig.

Definition Load (c : Config) (path : string) : GoM W (Config * result Config) :=
  data ← os_ReadFile path;
  match data with
  | inr err => mret (c, Err err)
  | inl data =>
      match toml_Unmarshal data zero_config with
      | Err err => mret (c, Err err)
      | Ok cfg => mret (cfg, Ok cfg)
      end
  end.

Definition ResolveStoreConfig : GoM W StoreConfig :=
  t ← os_Getenv "DDD_STORE_TYPE"; d ← os_Getenv "DDD_POSTGRES_URI"; mret (mkStoreConfig t d).
End Config.

(** ** The backend *)

Section Backend.
Context (W V : Type).

(** A bus, and whether it holds the app's chain. *)
Inductive bus_ref (B : Type) := OwnBus (b : B) | GivenBus (b : B).
Arguments OwnBus {B} b.
Arguments GivenBus {B} b.

(** [memoryBusFactory], or another implementation of the interface. *)
Inductive BusFactory :=
| MemoryBusFactory
| OtherBusFactory (create_command create_query : AspectChain W V V V V -> GoM W (bus_ref (messageBus W V)))
    (create_event : AspectChain W V V V V -> GoM W (bus_ref (EventBus W V))).

(** The parts of a trace store that the container uses. *)
Record BackendTraceStore := mkBackendTraces { bt_store : TraceStore W; bt_Close : GoM W error }.

Record Backend := mkBackend {
  b_TransactionManager : option (TransactionManager W);
  b_JobStore : option (JobStore W V);
  b_TypeRegistry : option (gmap string rtype);
  b_TraceStore : option BackendTraceStore;
  b_MessageStore : option (MessageStore W);
  b_Migrator : option (context -> GoM W error);
  b_BusFactory : option BusFactory;
  closer : option (GoM W error) }.

Inductive BackendOption :=
| WithTransactionManager (tm : TransactionManager W)
| WithJobStore (s : JobStore W V)
| WithTypeRegistry (r : gmap string rtype)
| WithTraceStore (s : BackendTraceStore)
| WithMessageStore (s : MessageStore W)
| WithMigrator (m : context -> GoM W error)
| WithBusFactory (f : BusFactory)
| WithCloser (c : GoM W error).
End Backend.
Arguments OwnBus {B} b.
Arguments GivenBus {B} b.
Arguments MemoryBusFactory {W V}.
Arguments OtherBusFactory {W V} create_command create_query create_event.
Arguments mkBackendTraces {W} bt_store bt_Close.
Arguments bt_store {W} _.
Arguments bt_Close {W} _ _.
Arguments mkBackend {W V} b_TransactionManager b_JobStore b_TypeRegistry b_TraceStore b_MessageStore b_Migrator b_BusFactory closer.
Arguments b_TransactionManager {W V} _.
Arguments b_JobStore {W V} _.
Arguments b_TypeRegistry {W V} _.
Arguments b_TraceStore {W V} _.
Arguments b_MessageStore {W V} _.
Arguments b_Migrator {W V} _.
Arguments b_BusFactory {W V} _.
Arguments closer {W V} _.
Arguments WithTransactionManager {W V} tm.
Arguments WithJobStore {W V} s.
Arguments WithTypeRegistry {W V} r.
Arguments WithTraceStore {W V} s.
Arguments WithMessageStore {W V} s.
Arguments WithMigrator {W V} m.
Arguments WithBusFactory {W V} f.
Arguments WithCloser {W V} c.

Section BackendOperations.
Context {W V : Type}.
Implicit Types b : Backend W V.

Definition apply_backend_option b (o : BackendOption W V) : Backend W V :=
  match o with
  | WithTransactionManager x => mkBackend (Some x) (b_JobStore b) (b_TypeRegistry b) (b_TraceStore b) (b_MessageStore b) (b_Migrator b) (b_BusFactory b) (closer b)
  | WithJobStore x => mkBackend (b_TransactionManager b) (Some x) (b_TypeRegistry b) (b_TraceStore b) (b_MessageStore b) (b_Migrator b) (b_BusFactory b) (closer b)
  | WithTypeRegistry x => mkBackend (b_TransactionManager b) (b_JobStore b) (Some x) (b_TraceStore b) (b_MessageStore b) (b_Migrator b) (b_BusFactory b) (closer b)
  | WithTraceStore x => mkBackend (b_TransactionManager b) (b_JobStore b) (b_TypeRegistry b) (Some x) (b_MessageStore b) (b_Migrator b) (b_BusFactory b) (closer b)
  | WithMessageStore x => mkBackend (b_TransactionManager b) (b_JobStore b) (b_TypeRegistry b) (b_TraceStore b) (Some x) (b_Migrator b) (b_BusFactory b) (closer b)
  | WithMigrator x => mkBackend (b_TransactionManager b) (b_JobStore b) (b_TypeRegistry b) (b_TraceStore b) (b_MessageStore b) (Some x) (b_BusFactory b) (closer b)
  | WithBusFactory x => mkBackend (b_TransactionManager b) (b_JobStore b) (b_TypeRegistry b) (b_TraceStore b) (b_MessageStore b) (b_Migrator b) (Some x) (closer b)
  | WithCloser x => mkBackend (b_TransactionManager b) (b_JobStore b) (b_TypeRegistry b) (b_TraceStore b) (b_MessageStore b) (b_Migrator b) (b_BusFactory b) (Some x)
  end.

Definition NewBackend (opts : list (BackendOption W V)) : Backend W V :=
  fold_left apply_backend_option opts (mkBackend None None None None None None None None).

Definition Backend_Close b : GoM W error :=
  match closer b with Some c => c | None => mret None end.

(** [fmt.Errorf("...%v", errs)] for a slice of errors. *)
Definition error_list (errs : list goerr) : string := "[" +:+ str_join " " (map Error errs) +:+ "]".

Definition add_error (errs : list goerr) (err : error) : list goerr :=
  match err with Some e => errs ++ [e] | None => errs end.

Definition Backend_Shutdown b (_ : context) : GoM W error :=
  e1 ← match b_TraceStore b with Some s => bt_Close s | None => mret None end;
  e2 ← match closer b with Some c => c | None => mret None end;
  mret (match add_error (add_error [] e1) e2 with
        | [] => None
        | errs => Some (ENew ("backend shutdown errors: " +:+ error_list errs))
        end).

Definition NopMigrator (_ : context) : GoM W error := mret None.

(** The stores of a backend; a constructor makes each of them anew. *)
Context (mem_transactions : TransactionManager W) (mem_jobs : JobStore W V) (mem_traces : BackendTraceStore W)
  (mem_messages : MessageStore W).

Definition NewMemoryBackend (opts : list (BackendOption W V)) : Backend W V :=
  NewBackend ([WithTransactionManager mem_transactions; WithJobStore mem_jobs; WithTraceStore mem_traces;
               WithMessageStore mem_messages; WithMigrator NopMigrator; WithBusFactory MemoryBusFactory] ++ opts).

(** A database: [sql.Open], its pool, and the stores on it. *)
Context {DB : Type} (sql_Open : string -> GoM W (DB + goerr)) (db_Ping db_Close : DB -> GoM W error).
Context (pg_transactions : DB -> TransactionManager W) (pg_jobs : DB -> JobStore W V)
  (pg_traces : DB -> BackendTraceStore W) (pg_messages : DB -> MessageStore W) (pg_Migrate : DB -> GoM W error).

Definition NewPgBackend (db : DB) (opts : list (BackendOption W V)) : Backend W V :=
  NewBackend ([WithTransactionManager (pg_transactions db); WithJobStore (pg_jobs db); WithTraceStore (pg_traces db);
               WithMessageStore (pg_messages db); WithMigrator (fun _ => pg_Migrate db); WithCloser (db_Close db);
               WithBusFactory MemoryBusFactory] ++ opts).

Definition quote (s : string) : string := let q := String (Ascii.ascii_of_nat 34) "" in q +:+ s +:+ q.

Definition NewBackendFromConfig (cfg : StoreConfig) (opts : list (BackendOption W V)) : GoM W (result (Backend W V)) :=
  if bool_decide (sc_Type cfg = "memory") || bool_decide (sc_Type cfg = "") then mret (Ok (NewMemoryBackend opts))
  else if bool_decide (sc_Type cfg = "postgres") then
    if bool_decide (sc_DSN cfg = "") then
      mret (Err (ENew "postgres DSN is required when DDD_STORE_TYPE=postgres"))
    else
      db ← sql_Open (sc_DSN cfg);
      match db with
      | inr err => mret (Err (EWrap "open postgres connection: " err ""))
      | inl db =>
          err ← db_Ping db;
          match err with
          | Some err => _ ← db_Close db; mret (Err (EWrap "ping postgres: " err ""))
          | None => mret (Ok (NewPgBackend db opts))
          end
      end
  else mret (Err (ENew ("unsupported DDD_STORE_TYPE " +:+ quote (sc_Type cfg) +:+ ": must be " +:+ quote "memory" +:+
                        " or " +:+ quote "postgres"))).
End BackendOperations.

(** ** The application ([app.go], [lifecycle.go]) *)

(** [app.go] gives the created buses its chain by pointer: [bus_chain] is the chain a bus
    runs in, which for an [OwnBus] is the app's, not the copy it was created with. *)
Section Application.
Context {W V : Type} `{HClk : !Clock W, HIdg : !IdGen W, HSS : !SortSlice, HRfl : !Reflect, HDyn : !Dynamic V, HHas : !Has BusState W}.
Abbreviation Chain_t := (AspectChain W V V V V).

Record App := mkApp {
  CmdBus : option (bus_ref (messageBus W V));
  QueryBus : option (bus_ref (messageBus W V));
  App_EventBus : option (bus_ref (EventBus W V));
  Chain : option Chain_t;
  App_Backend : option (Backend W V);
  App_Config : Config;
  lifecycles : list (context -> GoM W error);
  cleanup : list (GoM W error) }.

Definition AppOption : Type := App -> GoM W (App * error).

Definition new_app : App := mkApp None None None None None DefaultConfig [] [].

Fixpoint apply_options (opts : list AppOption) (app : App) : GoM W (App * error) :=
  match opts with
  | [] => mret (app, None)
  | opt :: opts =>
      '(app, err) ← opt app;
      match err with
      | Some _ => mret (app, err)
      | None => apply_options opts app
      end
  end.

Definition NewApp (opts : list AppOption) : GoM W (option App * error) :=
  '(app, err) ← apply_options opts new_app;
  match err with
  | Some err => mret (None, Some (EWrap "app option failed: " err ""))
  | None => mret (Some app, None)
  end.

(** [ctx.Err()]. *)
Context (ctx_Err : context -> GoM W error).

Fixpoint close_lifecycles (ls : list (context -> GoM W error)) (ctx : context) (errs : list goerr) :
    GoM W (list goerr) :=
  match ls with
  | [] => mret errs
  | l :: ls =>
      err ← l ctx;
      expired ← ctx_Err ctx;
      match expired with
      | Some _ => mret (add_error errs err)
      | None => close_lifecycles ls ctx (add_error errs err)
      end
  end.

Fixpoint run_cleanup (fns : list (GoM W error)) (errs : list goerr) : GoM W (list goerr) :=
  match fns with
  | [] => mret errs
  | fn :: fns => err ← fn; run_cleanup fns (add_error errs err)
  end.

Definition Close (a : App) (ctx : context) : GoM W error :=
  errs ← close_lifecycles (lifecycles a) ctx [];
  errs ← run_cleanup (cleanup a) errs;
  mret (match errs with [] => None | _ => Some (ENew ("shutdown errors: " +:+ error_list errs)) end).

Definition set_lifecycles x a := mkApp (CmdBus a) (QueryBus a) (App_EventBus a) (Chain a) (App_Backend a) (App_Config a) x (cleanup a).
Definition set_cleanup x a := mkApp (CmdBus a) (QueryBus a) (App_EventBus a) (Chain a) (App_Backend a) (App_Config a) (lifecycles a) x.
Definition set_backend x a := mkApp (CmdBus a) (QueryBus a) (App_EventBus a) (Chain a) x (App_Config a) (lifecycles a) (cleanup a).
Definition set_config x a := mkApp (CmdBus a) (QueryBus a) (App_EventBus a) (Chain a) (App_Backend a) x (lifecycles a) (cleanup a).
Definition set_chain x a := mkApp (CmdBus a) (QueryBus a) (App_EventBus a) x (App_Backend a) (App_Config a) (lifecycles a) (cleanup a).
Definition set_cmd_bus x a := mkApp x (QueryBus a) (App_EventBus a) (Chain a) (App_Backend a) (App_Config a) (lifecycles a) (cleanup a).
Definition set_query_bus x a := mkApp (CmdBus a) x (App_EventBus a) (Chain a) (App_Backend a) (App_Config a) (lifecycles a) (cleanup a).
Definition set_event_bus x a := mkApp (CmdBus a) (QueryBus a) x (Chain a) (App_Backend a) (App_Config a) (lifecycles a) (cleanup a).

Definition RegisterLifecycle (l : context -> GoM W error) (a : App) : App :=
  set_lifecycles (lifecycles a ++ [l]) a.

(** [infra.NewBackendFromConfig] without options is an argument. *)
Definition WithAutoBackend (ResolveStoreConfig : GoM W StoreConfig)
    (NewBackendFromConfig : StoreConfig -> GoM W (result (Backend W V))) : AppOption := fun a =>
  storeCfg ← ResolveStoreConfig;
  backend ← NewBackendFromConfig storeCfg;
  match backend with
  | Err err => mret (a, Some (EWrap "auto backend: " err ""))
  | Ok backend => mret (set_cleanup (cleanup a ++ [Backend_Close backend]) (set_backend (Some backend) a), None)
  end.

Definition WithBackend (backend : option (Backend W V)) : AppOption := fun a => mret (set_backend backend a, None).

Definition WithConfigFile (load : string -> GoM W (Config * result Config)) (path : string) : AppOption := fun a =>
  '(_, cfg) ← load path;
  match cfg with
  | Err err => mret (a, Some (EWrap ("load config from " +:+ path +:+ ": ") err ""))
  | Ok cfg => mret (set_config cfg a, None)
  end.

Definition ensureChain (chain : option Chain_t) : Chain_t :=
  match chain with None => NewAspectChain | Some c => c end.

Definition NewLoggingAspect (l : Logger W) : AnyAspect W V V V V :=
  mkAny (Some (LoggingAspect_Command l)) (Some (LoggingAspect_Query l)) (Some (LoggingAspect_Event l)).
Definition NewTracingAspect (s : TraceStore W) : AnyAspect W V V V V :=
  mkAny (Some (TracingAspect_Command (Some s) None)) (Some (TracingAspect_Query (Some s) None))
        (Some (TracingAspect_Event (Some s) None)).
Definition NewMetricsAspect (r : MetricsRecorder W) : AnyAspect W V V V V :=
  mkAny (Some (MetricsAspect_Command r)) (Some (MetricsAspect_Query r)) (Some (MetricsAspect_Event r)).

(** [builtin.NewStdLogger()] writes to the standard logger of the process;
    [builtin.NewInMemMetricsRecorder()] is a recorder nobody else holds. *)
Context (NewStdLogger : Logger W) (NewMetrics : MetricsRecorder W).

Definition WithDefaultAspects : AppOption := fun a =>
  let c := ensureChain (Chain a) in
  let txManager :=
    match App_Backend a with
    | Some b => match b_TransactionManager b with Some tm => tm | None => NoOpTransactionManager end
    | None => NoOpTransactionManager
    end in
  let c := if EnableLogging (c_Aspect (App_Config a)) then RegisterAspect (NewLoggingAspect NewStdLogger) c else c in
  let c := if EnableTracing (c_Aspect (App_Config a)) then
             match App_Backend a ≫= b_TraceStore with
             | Some s => RegisterAspect (NewTracingAspect (bt_store s)) c
             | None => c
             end
           else c in
  let c := if EnableMetrics (c_Aspect (App_Config a)) then RegisterAspect (NewMetricsAspect NewMetrics) c else c in
  if EnableTransaction (c_Aspect (App_Config a)) then
    match NewTransactionAspect (Some txManager) with
    | Err err => mret (set_chain (Some c) a, Some (EWrap "create transaction aspect: " err ""))
    | Ok ta => mret (set_chain (Some (RegisterCommandAspect (TransactionAspect_Command ta) c)) a, None)
    end
  else mret (set_chain (Some c) a, None).

Definition busFactory (a : App) : BusFactory W V :=
  match App_Backend a with
  | Some b => match b_BusFactory b with Some f => f | None => MemoryBusFactory end
  | None => MemoryBusFactory
  end.

(** The factory's methods. The in-memory buses keep the chain they are given. *)
Definition CreateCommandBus (f : BusFactory W V) (c : Chain_t) : GoM W (bus_ref (messageBus W V)) :=
  match f with
  | MemoryBusFactory => mret (OwnBus (NewCommandBus (Some c)))
  | OtherBusFactory create _ _ => create c
  end.
Definition CreateQueryBus (f : BusFactory W V) (c : Chain_t) : GoM W (bus_ref (messageBus W V)) :=
  match f with
  | MemoryBusFactory => mret (OwnBus (NewQueryBus (Some c)))
  | OtherBusFactory _ create _ => create c
  end.
Definition CreateEventBus (f : BusFactory W V) (c : Chain_t) : GoM W (bus_ref (EventBus W V)) :=
  match f with
  | MemoryBusFactory => b ← go_outcome (NewEventBus [WithEventBusAspectChain c]); mret (OwnBus b)
  | OtherBusFactory _ _ create => create c
  end.

Definition bus_of {B} (r : bus_ref B) : B := match r with OwnBus b | GivenBus b => b end.
Definition set_bus {B} (r : bus_ref B) (b : B) : bus_ref B :=
  match r with OwnBus _ => OwnBus b | GivenBus _ => GivenBus b end.

(** The loop over the handlers; [register] is the bus's method. *)
Fixpoint register_handlers {B} (what : string) (register : handler W V -> B -> outcome (B * error))
    (hs : list (handler W V)) (b : B) : GoM W (B * error) :=
  match hs with
  | [] => mret (b, None)
  | h :: hs =>
      '(b, err) ← go_outcome (register h b);
      match err with
      | Some err => mret (b, Some (EWrap (what +:+ " handler " +:+ type_v (h_type h) +:+ ": ") err ""))
      | None => register_handlers what register hs b
      end
  end.

Definition WithCommandHandlers (hs : list (handler W V)) : AppOption := fun a =>
  '(r, a) ← match CmdBus a with
            | Some r => mret (r, a)
            | None =>
                let c := ensureChain (Chain a) in
                r ← CreateCommandBus (busFactory a) c; mret (r, set_chain (Some c) a)
            end;
  '(b, err) ← register_handlers "register command" RegisterHandler hs (bus_of r);
  mret (set_cmd_bus (Some (set_bus r b)) a, err).

Definition WithQueryHandlers (hs : list (handler W V)) : AppOption := fun a =>
  '(r, a) ← match QueryBus a with
            | Some r => mret (r, a)
            | None =>
                let c := ensureChain (Chain a) in
                r ← CreateQueryBus (busFactory a) c; mret (r, set_chain (Some c) a)
            end;
  '(b, err) ← register_handlers "register query" RegisterHandler hs (bus_of r);
  mret (set_query_bus (Some (set_bus r b)) a, err).

Definition WithEventSubscriptions (hs : list (handler W V)) : AppOption := fun a =>
  '(r, a) ← match App_EventBus a with
            | Some r => mret (r, a)
            | None =>
                let c := ensureChain (Chain a) in
                r ← CreateEventBus (busFactory a) c; mret (r, set_chain (Some c) a)
            end;
  '(b, err) ← register_handlers "subscribe event" SubscribeHandler hs (bus_of r);
  mret (set_event_bus (Some (set_bus r b)) a, err).

Definition WithBuses (c q : option (messageBus W V)) (e : option (EventBus W V)) : AppOption := fun a =>
  mret (set_event_bus (GivenBus <$> e) (set_query_bus (GivenBus <$> q) (set_cmd_bus (GivenBus <$> c) a)), None).
Definition WithCommandBus (c : option (messageBus W V)) : AppOption := fun a => mret (set_cmd_bus (GivenBus <$> c) a, None).
Definition WithQueryBus (q : option (messageBus W V)) : AppOption := fun a => mret (set_query_bus (GivenBus <$> q) a, None).
Definition WithEventBus (e : option (EventBus W V)) : AppOption := fun a => mret (set_event_bus (GivenBus <$> e) a, None).

Definition WithLogger (logger : Logger W) : AppOption := fun a =>
  mret (set_chain (Some (RegisterAspect (NewLoggingAspect logger) (ensureChain (Chain a)))) a, None).
Definition WithMetrics (recorder : MetricsRecorder W) : AppOption := fun a =>
  mret (set_chain (Some (RegisterAspect (NewMetricsAspect recorder) (ensureChain (Chain a)))) a, None).

(** The command bus as a caller of the app finds it: an own bus runs in the app's chain. *)
Definition command_bus (a : App) : option (messageBus W V) :=
  match CmdBus a with
  | Some (OwnBus b) => Some (mkBus (handlers b) (invokers b) (ensureChain (Chain a)))
  | Some (GivenBus b) => Some b
  | None => None
  end.
End Application.

(** ** Observing a shutdown *)
Inductive close_event :=
| ClShutdown (i : nat) (err : error)
| ClExpired (err : error)
| ClCleanup (i : nat) (err : error).

(** A call whose result is written to a log kept beside the world. *)
Definition watch {W A} (ev : A -> close_event) (m : GoM W A) : GoM (W * list close_event) A :=
  fun '(w, l) =>
    match m w with
    | (Done r, w') => (Done r, (w', l ++ [ev r]))
    | (Panicked why, w') => (Panicked why, (w', l))
    end.

Definition watch_lifecycles {W} (ev : nat -> error -> close_event) (ls : list (context -> GoM W error)) :
    list (context -> GoM (W * list close_event) error) :=
  imap (fun i l ctx => watch (ev i) (l ctx)) ls.
Definition watch_cleanup {W} (ev : nat -> error -> close_event) (fns : list (GoM W error)) :
    list (GoM (W * list close_event) error) :=
  imap (fun i fn => watch (ev i) fn) fns.

Definition watched {W V} (a : App (W := W) (V := V)) : App (W := W * list close_event) (V := V) :=
  mkApp None None None None None (App_Config a)
    (watch_lifecycles ClShutdown (lifecycles a)) (watch_cleanup ClCleanup (cleanup a)).

(** What a lifecycle leaves in the log: its result, and the context's state after it. *)
Definition shutdown_log (ev : nat -> error -> close_event) (ran : list (error * error)) : list close_event :=
  concat (imap (fun i r => [ev i r.1; ClExpired r.2]) ran).

(** The lifecycles that ran, for [n] registered: all of them, or those up to the one that found
    the context expired. *)
Definition stops_at_expiry (n : nat) (ran : list (error * error)) : Prop :=
  length ran <= n /\
  (forall i r, ran !! i = Some r -> S i < length ran -> r.2 = None) /\
  (length ran < n -> exists r, last ran = Some r /\ r.2 <> None).

Section Shutdown.
Context {W V : Type} `{HClk : !Clock W} (ctx_Err : context -> GoM W error).

Abbreviation watched_Err := (fun ctx : context => watch ClExpired (ctx_Err ctx)).

Lemma close_lifecycles_watched ls ev ctx errs errs' w w' :
  close_lifecycles ctx_Err ls ctx errs w = (Done errs', w') ->
  exists ran, stops_at_expiry (length ls) ran /\
    errs' = errs ++ omap fst ran /\
    forall l, close_lifecycles watched_Err (watch_lifecycles ev ls) ctx errs (w, l) =
      (Done errs', (w', l ++ shutdown_log ev ran)).
Proof.
  unfold watch_lifecycles. revert ev errs w. induction ls as [|c ls IH]; intros ev errs w Hrun; cbn in *.
  { injection Hrun as <- <-. exists []. unfold stops_at_expiry. cbn.
    split_and!; [lia|done|lia|by rewrite app_nil_r|by setoid_rewrite app_nil_r]. }
  unfold_go. cbn in *. destruct (c ctx w) as [[err|?] w1] eqn:Hc; [|done]. cbn.
  destruct (ctx_Err ctx w1) as [[x|?] w2] eqn:Hx; [|done]. cbn.
  assert (add_error errs err = errs ++ option_list err) as He by (destruct err; cbn; by rewrite ?app_nil_r).
  destruct x as [x|].
  - injection Hrun as <- <-. exists [(err, Some x)]. unfold stops_at_expiry, shutdown_log. cbn. split_and!.
    + lia.
    + intros i r _ ?. lia.
    + by eexists.
    + rewrite He. by destruct err.
    + intros l. by rewrite <- app_assoc.
  - destruct (IH (ev ∘ S) _ _ Hrun) as (ran & (Hle & Hno & Hlast) & -> & Hobs).
    exists ((err, None) :: ran). unfold stops_at_expiry. cbn [length]. split_and!.
    + lia.
    + intros [|i] r; cbn; [by intros [= <-]|]. intros Hr ?. eapply Hno; [done|lia].
    + intros Hlt. destruct Hlast as (r & Hr & Hr2); [lia|]. exists r. split; [|done]. by destruct ran.
    + rewrite He, <- app_assoc. by destruct err.
    + intros l. rewrite <- app_assoc. cbn [app]. unfold shutdown_log. rewrite imap_cons. cbn [concat].
      rewrite app_assoc. apply Hobs.
Qed.

Lemma run_cleanup_watched (fns : list (GoM W error)) ev errs errs' w w' :
  run_cleanup fns errs w = (Done errs', w') ->
  exists ran, length ran = length fns /\ errs' = errs ++ omap (fun err : error => err) ran /\
    forall l, run_cleanup (watch_cleanup ev fns) errs (w, l) = (Done errs', (w', l ++ imap ev ran)).
Proof.
  unfold watch_cleanup. revert ev errs w. induction fns as [|fn fns IH]; intros ev errs w Hrun; cbn in *.
  { injection Hrun as <- <-. exists []. cbn. split_and!; [done|by rewrite app_nil_r|intros l; by rewrite app_nil_r]. }
  unfold_go. cbn in *. destruct (fn w) as [[err|?] w1] eqn:Hfn; [|done]. cbn.
  destruct (IH (ev ∘ S) _ _ Hrun) as (ran & Hlen & -> & Hobs).
  exists (err :: ran). cbn. split_and!; [by rewrite Hlen| |].
  - destruct err; cbn; by rewrite <- ?app_assoc.
  - intros l. specialize (Hobs (l ++ [ev 0 err])). rewrite <- app_assoc in Hobs. apply Hobs.
Qed.
End Shutdown.

(** ** The default aspects *)
Section DefaultAspects.
Context {W V : Type} `{HClk : !Clock W, HIdg : !IdGen W, HSS : !SortSlice, HSSL : !SortSliceLaws, HRfl : !Reflect, HDyn : !Dynamic V, HHas : !Has BusState W}.
Context (std : Logger W) (rec : MetricsRecorder W).
Implicit Types a : App (W := W) (V := V).

(** The trace store and the transaction manager that the default aspects use. *)
Definition app_traces a : list (TraceStore W) := map bt_store (option_list (App_Backend a ≫= b_TraceStore)).
Definition app_transactions a : TransactionManager W :=
  default NoOpTransactionManager (App_Backend a ≫= b_TransactionManager).

(** The default aspects of an application, outermost first. *)
Definition default_aspects {M R} a (tracing : TraceStore W -> Aspect W M R) (transaction : TransactionManager W -> list (Aspect W M R))
    (logging metrics : Aspect W M R) : list (Aspect W M R) :=
  let cfg := c_Aspect (App_Config a) in
  (if EnableTracing cfg then map tracing (app_traces a) else []) ++
  (if EnableTransaction cfg then transaction (app_transactions a) else []) ++
  (if EnableLogging cfg then [logging] else []) ++
  (if EnableMetrics cfg then [metrics] else []).

Definition default_chain a : AspectChain W V V V V :=
  mkChain
    (default_aspects a (fun s => TracingAspect_Query (Some s) None) (fun _ => []) (LoggingAspect_Query std) (MetricsAspect_Query rec))
    (default_aspects a (fun s => TracingAspect_Command (Some s) None) (fun tm => [TransactionAspect_Command tm])
       (LoggingAspect_Command std) (MetricsAspect_Command rec))
    (default_aspects a (fun s => TracingAspect_Event (Some s) None) (fun _ => []) (LoggingAspect_Event std) (MetricsAspect_Event rec)).

(** The order in which [WithDefaultAspects] registers them. *)
Definition registered_aspects {M R} a (tracing : TraceStore W -> Aspect W M R) (transaction : TransactionManager W -> list (Aspect W M R))
    (logging metrics : Aspect W M R) : list (Aspect W M R) :=
  let cfg := c_Aspect (App_Config a) in
  (if EnableLogging cfg then [logging] else []) ++
  (if EnableTracing cfg then map tracing (app_traces a) else []) ++
  (if EnableMetrics cfg then [metrics] else []) ++
  (if EnableTransaction cfg then transaction (app_transactions a) else []).

Lemma registered_default {M R} a (tracing : TraceStore W -> Aspect W M R) transaction logging metrics :
  (forall s, Order (tracing s) = 0%Z) -> (forall tm, transaction tm = [] \/ exists x, transaction tm = [x] /\ Order x = 10%Z) ->
  Order logging = 50%Z -> Order metrics = 100%Z ->
  register_list [] (registered_aspects a tracing transaction logging metrics) =
  default_aspects a tracing transaction logging metrics.
Proof.
  intros Ht Hx Hl Hm. unfold registered_aspects, default_aspects, app_traces.
  apply register_list_eq.
  - rewrite (Permutation_app_comm (if EnableLogging _ then _ else _)), <- !app_assoc. apply Permutation_app_head.
    rewrite (Permutation_app_comm (if EnableMetrics _ then _ else _)), <- !app_assoc. done.
  - destruct (Hx (app_transactions a)) as [-> | (x & -> & Hxo)]; destruct (c_Aspect (App_Config a)) as [[] [] [] []];
      destruct (App_Backend a ≫= b_TraceStore); cbn; repeat constructor; rewrite le_order_iff, ?Ht, ?Hxo, ?Hl, ?Hm; lia.
  - destruct (Hx (app_transactions a)) as [-> | (x & -> & Hxo)]; destruct (c_Aspect (App_Config a)) as [[] [] [] []];
      destruct (App_Backend a ≫= b_TraceStore); cbn; rewrite ?Ht, ?Hxo, ?Hl, ?Hm; apply (bool_decide_unpack _); by vm_compute.
Qed.

Lemma WithDefaultAspects_chain a w :
  ensureChain (Chain a) = NewAspectChain ->
  WithDefaultAspects std rec a w = (Done (set_chain (Some (default_chain a)) a, None), w).
Proof.
  intros Hc. unfold default_chain. rewrite <- !registered_default by (done || (intros; by left) || (intros; right; by eexists)).
  unfold WithDefaultAspects, registered_aspects, app_traces, app_transactions. rewrite Hc.
  destruct (c_Aspect (App_Config a)) as [[] [] [] []]; destruct (App_Backend a) as [b|]; cbn;
    try destruct (b_TraceStore b); try destruct (b_TransactionManager b); reflexivity.
Qed.

(** Registering handlers does not look at the chain of the bus. *)
Definition with_chain (c : AspectChain W V V V V) (b : messageBus W V) : messageBus W V := mkBus (handlers b) (invokers b) c.

Lemma RegisterHandler_chain h c (b : messageBus W V) :
  RegisterHandler h (with_chain c b) =
  match RegisterHandler h b with Done (b, err) => Done (with_chain c b, err) | Panicked why => Panicked why end.
Proof.
  unfold RegisterHandler, registerHandler. destruct (makeInvoker h (h_type h)) as [[inv|err]|?]; cbn; [|done..].
  destruct (extractHandlerPayloadType (h_type h)) as [[t []]|?]; cbn; [|done..]. by case_bool_decide.
Qed.

Lemma register_handlers_chain what hs c (b : messageBus W V) (w : W) :
  register_handlers what RegisterHandler hs (with_chain c b) w =
  match register_handlers what RegisterHandler hs b w with
  | (Done (b, err), w) => (Done (with_chain c b, err), w)
  | (Panicked why, w) => (Panicked why, w)
  end.
Proof.
  revert b. induction hs as [|h hs IH]; intros b; cbn; [done|]. unfold_go. cbn. rewrite RegisterHandler_chain.
  destruct (RegisterHandler h b) as [[b' [err|]]|?]; cbn; [done| |done]. apply IH.
Qed.
End DefaultAspects.

(** ** Properties *)

(** C32: Shutdown: when [Close] returns, the lifecycles ran in the order of their registration, each
    once, up to the first one after which the context had expired (all of them if it never does);
    then every cleanup function ran, once and in order, expired context or not. [Close] reports
    success if and only if all of these returned nil, and otherwise one error that lists theirs in
    the order of the calls. Watching the calls does not change the run. *)
Theorem app_close_runs {W V} (ctx_Err : context -> GoM W error) (a : App (W := W) (V := V)) ctx w err w' :
  Close ctx_Err a ctx w = (Done err, w') ->
  exists ran cleaned,
    stops_at_expiry (length (lifecycles a)) ran /\ length cleaned = length (cleanup a) /\
    err = match omap fst ran ++ omap (fun err : error => err) cleaned with
          | [] => None
          | errs => Some (ENew ("shutdown errors: " +:+ error_list errs))
          end /\
    forall l, Close (fun ctx => watch ClExpired (ctx_Err ctx)) (watched a) ctx (w, l) =
      (Done err, (w', l ++ shutdown_log ClShutdown ran ++ imap ClCleanup cleaned)).
Proof.
  unfold Close. unfold_go. intros Hrun.
  destruct (close_lifecycles ctx_Err (lifecycles a) ctx [] w) as [[errs1|?] w1] eqn:H1; [|done].
  destruct (run_cleanup (cleanup a) errs1 w1) as [[errs2|?] w2] eqn:H2; [|done].
  injection Hrun as <- <-.
  destruct (close_lifecycles_watched ctx_Err _ ClShutdown _ _ _ _ _ H1) as (ran & Hstop & Heq1 & Hobs1).
  destruct (run_cleanup_watched _ ClCleanup _ _ _ _ H2) as (cleaned & Hlen & Heq2 & Hobs2).
  exists ran, cleaned. cbn in Heq1. subst errs1 errs2.
  split; [done|]. split; [done|]. split; [by destruct (_ ++ _)|]. intros l. cbn. rewrite Hobs1, Hobs2, <- app_assoc. done.
Qed.

(** The default aspects do not depend on when the buses are made: on an app without a chain, a
    command bus made by the in-memory factory before or after [WithDefaultAspects] ends up with the
    same handlers and the same chain, and the same registrations are refused; when none is, the chain
    is, outermost first, tracing (with a trace store), transaction (commands only, with the backend's
    manager or the no-op one), logging and metrics, each if the configuration enables it. *)
Theorem app_default_aspects {W V} `{HClk : !Clock W, HIdg : !IdGen W, HSS : !SortSlice, HSSL : !SortSliceLaws}
    `{HRfl : !Reflect, HDyn : !Dynamic V, HHas : !Has BusState W} (std : Logger W) (rec : MetricsRecorder W)
    (a a1 : App (W := W) (V := V)) hs err w w1 :
  Chain a = None -> CmdBus a = None -> busFactory a = MemoryBusFactory ->
  apply_options [WithDefaultAspects std rec; WithCommandHandlers hs] a w = (Done (a1, err), w1) ->
  exists a2,
    apply_options [WithCommandHandlers hs; WithDefaultAspects std rec] a w = (Done (a2, err), w1) /\
    (err = None ->
     command_bus a2 = command_bus a1 /\
     exists b, command_bus a1 = Some b /\ chain b = default_chain std rec a).
Proof.
  intros Hc Hb Hf. cbn [apply_options]. unfold_go. rewrite WithDefaultAspects_chain by (by rewrite Hc).
  set (dc := default_chain std rec a).
  unfold WithCommandHandlers at 1 2. unfold_go. cbn [CmdBus set_chain]. rewrite Hb.
  replace (busFactory (set_chain _ a)) with (busFactory a) by done. rewrite Hf, Hc. cbn.
  change (NewCommandBus (Some dc)) with (with_chain dc (NewCommandBus (Some NewAspectChain))).
  rewrite register_handlers_chain.
  destruct (register_handlers _ _ hs _ w) as [[[b [e|]]|?] w2]; cbn; [| |done].
  - intros [= <- <- <-]. eexists. by split.
  - intros [= <- <- <-]. rewrite WithDefaultAspects_chain by done. eexists. split; [done|]. intros _. cbn. eauto.
Qed.

(** ** A concrete application *)
Module DemoApp.
Import Env DemoBus.

#[export] Instance world_ids : IdGen world := fun '(e, s) => let (i, e') := fresh_id e in (i, (e', s)).

Definition quiet_logger : Logger world := mkLogger (fun _ _ => mret tt) (fun _ _ => mret tt) (fun _ _ => mret tt).
Definition no_metrics : MetricsRecorder world := mkRecorder (fun _ _ => mret tt) (fun _ _ => mret tt).

(** A backend with a trace store, tracing off in the configuration of [app]. *)
Definition traces : BackendTraceStore world := mkBackendTraces (mkTraceStore (fun _ _ => mret None)) (mret None).
Definition app : App (W := world) (V := value) :=
  set_config (mkConfig (mkAppConfig "demo" "test") (mkStoreConfig "memory" "") (mkAspectConfig true true false true) (mkLogConfig "info"))
    (set_backend (Some (NewBackend [WithTraceStore traces])) new_app).

(** Two lifecycles and a cleanup; the context expires during the first lifecycle. *)
Definition closing : App (W := nat) (V := value) :=
  set_cleanup [fun w => (Done (Some (ENew "db close")), w)]
    (RegisterLifecycle (fun _ w => (Done None, w)) (RegisterLifecycle (fun _ w => (Done (Some (ENew "slow")), S w)) new_app)).
Definition expired_after (n : nat) (_ : context) : GoM nat error := fun w =>
  (Done (if Nat.leb n w then Some (ENew "context deadline exceeded") else None), w).
End DemoApp.
Import Env DemoBus DemoApp.

Lemma app_close_runs_witness :
  Close (expired_after 1) closing Background 0 =
    (Done (Some (ENew "shutdown errors: [slow db close]")), 1) /\
  exists ran cleaned, stops_at_expiry 2 ran /\ length cleaned = 1 /\
    forall l, Close (fun ctx => watch ClExpired (expired_after 1 ctx)) (watched closing) Background (0, l) =
      (Done (Some (ENew "shutdown errors: [slow db close]")), (1, l ++ shutdown_log ClShutdown ran ++ imap ClCleanup cleaned)).
Proof.
  split; [by vm_compute|].
  destruct (app_close_runs (expired_after 1) closing Background 0 (Some (ENew "shutdown errors: [slow db close]")) 1)
    as (ran & cleaned & H1 & H2 & _ & H3); [by vm_compute|].
  exists ran, cleaned. by split_and!.
Defined.

Lemma app_default_aspects_witness :
  let orders := [WithCommandHandlers [DemoBus.hA]; WithDefaultAspects quiet_logger no_metrics] in
  exists a2, apply_options orders app (Env.mkEnv 0 0, bus_open) = (Done (a2, None), (Env.mkEnv 0 0, bus_open)) /\
    exists b, command_bus a2 = Some b /\ map Name (commandAspects (chain b)) = ["tracing"; "transaction"; "logging"].
Proof.
  cbv zeta. destruct (apply_options [WithDefaultAspects quiet_logger no_metrics; WithCommandHandlers [DemoBus.hA]] app (Env.mkEnv 0 0, bus_open))
    as [[[a1 err]|?] w1] eqn:Hrun; [|vm_compute in Hrun; discriminate Hrun].
  assert (err = None /\ w1 = (Env.mkEnv 0 0, bus_open)) as [-> ->] by (vm_compute in Hrun; injection Hrun as _ <- <-; done).
  destruct (app_default_aspects quiet_logger no_metrics app a1 [DemoBus.hA] None (Env.mkEnv 0 0, bus_open) _
              eq_refl eq_refl eq_refl Hrun) as (a2 & H1 & H2).
  exists a2. split; [exact H1|]. destruct (H2 eq_refl) as (Heq & b & Hb & Hc).
  exists b. split; [by rewrite Heq|]. rewrite Hc. reflexivity.
Defined.
