(* ===== verification/ContractInfra.v ===== *)
(** * The contracts of message stores, transaction managers and backends:
      [src/aspect/builtin/builtintest], [src/infra/infratest/backend_contract.go]

    The suites, what the implementations promise, and the proofs that the in-memory
    parts and those on PostgreSQL pass. *)

From S2P Require Import Prelude Errors Testing Aspect Bus Builtin Pg Messages PgMessages Job ContractJobs.
From S2P Require Import SqlQuery PgTrace Stats Dashboard Trace ContractTraces App.

(** ** Message stores ([message_store_contract.go]) *)

(** The JSON object with one member, a text. *)
Definition json_member (k v : string) : string := "{" +:+ quote k +:+ ":" +:+ quote v +:+ "}".

Section MessageSuite.
Context {W : Type} `{!Clock W} (store : MessageStore W).

(** The entries of the tests, by the time they are created. *)
Definition cmd_created (t : Z) : CommandEntry :=
  mkCommandEntry "tc-trace-1" "tc-span-1" "CreateOrder" (json_member "item" "widget") "OrderResult" (json_member "id" "123") "" (50 * millisecond) t.
Definition cmd_failed (t : Z) : CommandEntry :=
  mkCommandEntry "tc-trace-2" "tc-span-2" "DeleteOrder" (json_member "id" "ord-2") "" "" "order not found" (10 * millisecond) t.
Definition qry_answered (t : Z) : QueryEntry :=
  mkQueryEntry "tc-trace-3" "tc-span-3" "GetOrder" (json_member "id" "123") "OrderView" (json_member "status" "shipped") "" (10 * millisecond) t.
Definition qry_failed (t : Z) : QueryEntry :=
  mkQueryEntry "tc-trace-4" "tc-span-4" "GetOrder" (json_member "id" "999") "" "" "not found" (3 * millisecond) t.
Definition evt_created (t : Z) : EventEntry :=
  mkEventEntry "tc-trace-5" "tc-span-5" "agg-1" "OrderCreated" (json_member "orderId" "123") 2 "" (30 * millisecond) t.
Definition evt_failed (t : Z) : EventEntry :=
  mkEventEntry "tc-trace-6" "tc-span-6" "agg-2" "OrderFailed" (json_member "reason" "timeout") 0 "handler panic" (5 * millisecond) t.
Definition hdl_done (t : Z) : EventHandlerEntry :=
  mkEventHandlerEntry "tc-trace-7" "tc-span-7" "agg-1" "OrderCreated" "SendConfirmationEmail" "success" "" (5 * millisecond) t.
Definition hdl_failed (t : Z) : EventHandlerEntry :=
  mkEventHandlerEntry "tc-trace-8" "tc-span-8" "agg-1" "OrderCreated" "UpdateInventory" "error" "connection refused"
    (2 * millisecond) t.
Definition all_cmd (t : Z) : CommandEntry :=
  mkCommandEntry "tc-trace-all" "tc-span-cmd" "CreateOrder" (json_member "item" "widget") "" "" "" (50 * millisecond) t.
Definition all_qry (t : Z) : QueryEntry :=
  mkQueryEntry "tc-trace-all" "tc-span-qry" "GetOrder" (json_member "id" "123") "" "" "" (10 * millisecond) t.
Definition all_evt (t : Z) : EventEntry :=
  mkEventEntry "tc-trace-all" "tc-span-evt" "agg-all" "OrderCreated" (json_member "orderId" "123") 1 "" (30 * millisecond) t.
Definition all_hdl (t : Z) : EventHandlerEntry :=
  mkEventHandlerEntry "tc-trace-all" "tc-span-hdl" "agg-all" "OrderCreated" "NotifyUser" "success" "" (5 * millisecond) t.

(** An entry of the time of the test, recorded. *)
Definition must_command (e : Z -> CommandEntry) (format : string) : TestM W unit :=
  t ← call now_us; err ← call (RecordCommand store (e t)); must err format.
Definition must_query (e : Z -> QueryEntry) (format : string) : TestM W unit :=
  t ← call now_us; err ← call (RecordQuery store (e t)); must err format.
Definition must_event (e : Z -> EventEntry) (format : string) : TestM W unit :=
  t ← call now_us; err ← call (RecordEvent store (e t)); must err format.
Definition must_handler (e : Z -> EventHandlerEntry) (format : string) : TestM W unit :=
  t ← call now_us; err ← call (RecordEventHandler store (e t)); must err format.

Definition TestMessageStoreContract : TestM W unit :=
  _ ← t_Run "RecordCommand" (must_command cmd_created "RecordCommand returned error: %v");
  _ ← t_Run "RecordCommandWithError" (must_command cmd_failed "RecordCommand with error returned error: %v");
  _ ← t_Run "RecordQuery" (must_query qry_answered "RecordQuery returned error: %v");
  _ ← t_Run "RecordQueryWithError" (must_query qry_failed "RecordQuery with error returned error: %v");
  _ ← t_Run "RecordEvent" (must_event evt_created "RecordEvent returned error: %v");
  _ ← t_Run "RecordEventWithError" (must_event evt_failed "RecordEvent with error returned error: %v");
  _ ← t_Run "RecordEventHandler" (must_handler hdl_done "RecordEventHandler returned error: %v");
  _ ← t_Run "RecordEventHandlerWithErrorStatus" (must_handler hdl_failed "RecordEventHandler with error status returned error: %v");
  t_Run "AllEntryTypesTogether" (
    _ ← must_command all_cmd "RecordCommand returned error: %v";
    _ ← must_query all_qry "RecordQuery returned error: %v";
    _ ← must_event all_evt "RecordEvent returned error: %v";
    must_handler all_hdl "RecordEventHandler returned error: %v").

(** ** Transaction managers ([transaction_manager_contract.go]) *)

Context (tm : TransactionManager W) (newCtx : GoM W context).

Definition must_begin (c : context) (format : string) : TestM W context :=
  r ← call (tx_Begin tm c);
  match r.2 with Some _ => t_Fatalf format | None => mret r.1 end.
Definition must_commit (c : context) (format : string) : TestM W unit :=
  err ← call (tx_Commit tm c); must err format.
Definition must_rollback (c : context) (format : string) : TestM W unit :=
  err ← call (tx_Rollback tm c); must err format.
Definition is_error (e : error) : bool := match e with Some _ => true | None => false end.

Definition TestTransactionManagerContract : TestM W unit :=
  _ ← t_Run "BeginAndCommit" (
    ctx ← call newCtx;
    txCtx ← must_begin ctx "Begin failed: %v";
    must_commit txCtx "Commit failed: %v");
  _ ← t_Run "BeginAndRollback" (
    ctx ← call newCtx;
    txCtx ← must_begin ctx "Begin failed: %v";
    must_rollback txCtx "Rollback failed: %v");
  _ ← t_Run "NoTransactionCommit" (
    ctx ← call newCtx;
    err ← call (tx_Commit tm ctx);
    expect (is_error err) "expected error when Commit without transaction");
  _ ← t_Run "NoTransactionRollback" (
    ctx ← call newCtx;
    err ← call (tx_Rollback tm ctx);
    expect (is_error err) "expected error when Rollback without transaction");
  _ ← t_Run "NestedBeginCommit" (
    ctx ← call newCtx;
    txCtx ← must_begin ctx "outer Begin failed: %v";
    innerCtx ← must_begin txCtx "inner Begin failed: %v";
    _ ← must_commit innerCtx "inner Commit failed: %v";
    must_commit txCtx "outer Commit failed: %v");
  _ ← t_Run "NestedRollbackAbortsOuter" (
    ctx ← call newCtx;
    txCtx ← must_begin ctx "outer Begin failed: %v";
    innerCtx ← must_begin txCtx "inner Begin failed: %v";
    _ ← must_rollback innerCtx "inner Rollback failed: %v";
    err ← call (tx_Commit tm txCtx);
    _ ← must_fail err "expected outer Commit to fail after inner Rollback";
    mret tt);
  _ ← t_Run "TripleNesting" (
    ctx ← call newCtx;
    l1 ← must_begin ctx "l1 Begin failed: %v";
    l2 ← must_begin l1 "l2 Begin failed: %v";
    l3 ← must_begin l2 "l3 Begin failed: %v";
    _ ← must_commit l3 "l3 Commit failed: %v";
    _ ← must_commit l2 "l2 Commit failed: %v";
    must_commit l1 "l1 Commit failed: %v");
  t_Run "RollbackThenBeginAgain" (
    ctx ← call newCtx;
    txCtx ← must_begin ctx "first Begin failed: %v";
    _ ← must_rollback txCtx "Rollback failed: %v";
    ctx2 ← call newCtx;
    txCtx2 ← must_begin ctx2 "second Begin failed: %v";
    must_commit txCtx2 "second Commit failed: %v").
End MessageSuite.

(** ** Backends ([backend_contract.go])

    The tests use the parts that a backend has: a method of a nil interface panics. *)
Section BackendSuite.
Context {W V : Type} `{!Dynamic V, !Clock W} (b : Backend W V) (reader : TraceReader W).
(** The string ["test-cmd"] as a command. *)
Context (test_cmd : V).
Abbreviation ctx := Background.

Definition part_of {A} (o : option A) : TestM W A :=
  call (match o with Some a => mret a | None => go_panic "nil pointer dereference" end).

(** The command entry of the test, with its zero fields. *)
Definition test_entry (t : Z) : CommandEntry := mkCommandEntry "" "" "TestCmd" "" "" "" "" 0 t.

Definition TestBackendContract : TestM W unit :=
  _ ← t_Run "InterfaceConformance" (mret tt);
  _ ← t_Run "TransactionManagerBeginCommit" (
    tm ← part_of (b_TransactionManager b);
    txCtx ← must_begin tm ctx "Begin failed: %v";
    must_commit tm txCtx "Commit failed: %v");
  _ ← t_Run "JobStoreCreateAndGet" (
    job ← call (new_job "contract-job-1" test_cmd);
    s ← part_of (b_JobStore b);
    _ ← must_create s job "Create failed: %v";
    got ← must_get s "contract-job-1" "Get failed: %v";
    expect (bool_decide (id got = "contract-job-1")) "expected ID 'contract-job-1', got %s");
  _ ← t_Run "TraceStoreRecordAndGet" (
    t ← call time_now;
    s ← part_of (b_TraceStore b);
    _ ← must_record (bt_store s) (test_span "span-1" "trace-1" SpanTypeCommand "TestSpan" SpanStatusSuccess "" t millisecond);
    spans ← must_trace reader "trace-1";
    _ ← require (negb (bool_decide (zlen spans = 0%Z))) "expected at least one span";
    s0 ← span_at spans 0;
    expect (bool_decide (SpanID s0 = "span-1")) "expected span ID 'span-1', got %s");
  _ ← t_Run "MessageStoreRecordCommand" (
    t ← call time_now;
    s ← part_of (b_MessageStore b);
    err ← call (RecordCommand s (test_entry t));
    must err "RecordCommand failed: %v");
  t_Run "Migrate" (
    m ← part_of (b_Migrator b);
    err ← call (m ctx);
    must err "Migrate failed: %v").
End BackendSuite.

(** ** What the implementations promise *)

(** A message store records the entries that it admits. *)
Class MessageStoreLaws {W : Type} `{!Clock W} (store : MessageStore W) := {
  ms_ok : W -> Prop;
  ms_command : CommandEntry -> Prop;
  ms_query : QueryEntry -> Prop;
  ms_event : EventEntry -> Prop;
  ms_handler : EventHandlerEntry -> Prop;
  ms_clock : forall w, ms_ok w -> exists t w', now w = (t, w') /\ ms_ok w';
  ms_record_command : forall w e, ms_ok w -> ms_command e ->
    exists w', RecordCommand store e w = (Done None, w') /\ ms_ok w';
  ms_record_query : forall w e, ms_ok w -> ms_query e ->
    exists w', RecordQuery store e w = (Done None, w') /\ ms_ok w';
  ms_record_event : forall w e, ms_ok w -> ms_event e ->
    exists w', RecordEvent store e w = (Done None, w') /\ ms_ok w';
  ms_record_handler : forall w e, ms_ok w -> ms_handler e ->
    exists w', RecordEventHandler store e w = (Done None, w') /\ ms_ok w' }.

(** The entries of the suites are admitted, whenever they are created. *)
Record admits_tests {W : Type} `{!Clock W} (store : MessageStore W) `{HM : !MessageStoreLaws store} : Prop := {
  ad_command : forall t, Forall ms_command [cmd_created t; cmd_failed t; all_cmd t; test_entry t];
  ad_query : forall t, Forall ms_query [qry_answered t; qry_failed t; all_qry t];
  ad_event : forall t, Forall ms_event [evt_created t; evt_failed t; all_evt t];
  ad_handler : forall t, Forall ms_handler [hdl_done t; hdl_failed t; all_hdl t] }.

Section Messages.
Context {W : Type} `{!Clock W} (store : MessageStore W) `{HM : !MessageStoreLaws store} (HA : admits_tests store).
Context {B : Type}.
Implicit Types (Q : option B -> W -> Prop).

Lemma step_time (k : Z -> TestM W B) w Q : ms_ok w -> (forall t w', ms_ok w' -> passing (k t) w' Q) ->
  passing (x ← call now_us; k x) w Q.
Proof.
  intros Hw Hk. destruct (ms_clock w Hw) as (t & w' & Hn & Hw').
  eapply passing_step_call; [unfold now_us; unfold_go; by rewrite Hn|]. by apply Hk.
Qed.

(** Recording an entry of the test, of any kind. *)
Lemma step_entry {E} (record : E -> GoM W error) (valid : E -> Prop) (e : Z -> E) format (k : unit -> TestM W B) w Q :
  (forall w e, ms_ok w -> valid e -> exists w', record e w = (Done None, w') /\ ms_ok w') ->
  (forall t, valid (e t)) -> ms_ok w -> (forall w', ms_ok w' -> passing (k tt) w' Q) ->
  passing (x ← (t ← call now_us; err ← call (record (e t)); must err format); k x) w Q.
Proof.
  intros Hrec Hv Hw Hk. test_step. apply step_time; [done|]. intros t w1 Hw1.
  destruct (Hrec w1 (e t) Hw1 (Hv t)) as (w2 & Hr & Hw2). test_step. test_call Hr. test_step. by apply Hk.
Qed.
End Messages.

Ltac admitted_entry :=
  intros t; match goal with
  | HA : admits_tests _ |- ms_command _ => pose proof (ad_command _ HA t)
  | HA : admits_tests _ |- ms_query _ => pose proof (ad_query _ HA t)
  | HA : admits_tests _ |- ms_event _ => pose proof (ad_event _ HA t)
  | HA : admits_tests _ |- ms_handler _ => pose proof (ad_handler _ HA t)
  end; by decompose_Forall_hyps.

Ltac entry_step :=
  lazymatch goal with
  | |- passing (mbind _ (must_command _ _ _)) _ _ => eapply step_entry; [apply ms_record_command|admitted_entry|eassumption|]
  | |- passing (mbind _ (must_query _ _ _)) _ _ => eapply step_entry; [apply ms_record_query|admitted_entry|eassumption|]
  | |- passing (mbind _ (must_event _ _ _)) _ _ => eapply step_entry; [apply ms_record_event|admitted_entry|eassumption|]
  | |- passing (mbind _ (must_handler _ _ _)) _ _ => eapply step_entry; [apply ms_record_handler|admitted_entry|eassumption|]
  | |- passing (mret _) _ _ => apply passing_ret
  | |- passing _ _ _ => apply passing_last
  end; intros.

Lemma message_contract_passes {W} `{!Clock W} (store : MessageStore W) `{HM : !MessageStoreLaws store} :
  admits_tests store -> passes ms_ok (TestMessageStoreContract store).
Proof.
  intros HA. unfold TestMessageStoreContract. subtests; intros w Hw; repeat entry_step; assumption.
Qed.

(** A transaction manager nests: [tm_in n d a c w], the context [c] is in a transaction of [d] open
    begins, of which an inner one was rolled back or not, after [n] begins. *)
Class TransactionManagerLaws {W : Type} (tm : TransactionManager W) := {
  tm_ok : W -> Prop;
  tm_in : Z -> Z -> bool -> context -> W -> Prop;
  tm_in_ok : forall n d a c w, tm_in n d a c w -> tm_ok w;
  tm_begin : forall w, tm_ok w ->
    exists c w', tx_Begin tm Background w = (Done (c, None), w') /\ tm_in 1 1 false c w';
  tm_nested : forall n d c w, tm_in n d false c w -> (n < 1000)%Z ->
    exists w', tx_Begin tm c w = (Done (c, None), w') /\ tm_in (n + 1) (d + 1) false c w';
  tm_commit_inner : forall n d c w, tm_in n d false c w -> (1 < d)%Z ->
    exists w', tx_Commit tm c w = (Done None, w') /\ tm_in n (d - 1) false c w';
  tm_commit : forall n c w, tm_in n 1 false c w -> exists w', tx_Commit tm c w = (Done None, w') /\ tm_ok w';
  tm_commit_aborted : forall n c w, tm_in n 1 true c w -> exists e w', tx_Commit tm c w = (Done (Some e), w') /\ tm_ok w';
  tm_rollback_inner : forall n d c w, tm_in n d false c w -> (1 < d)%Z ->
    exists w', tx_Rollback tm c w = (Done None, w') /\ tm_in n (d - 1) true c w';
  tm_rollback : forall n c w, tm_in n 1 false c w -> exists w', tx_Rollback tm c w = (Done None, w') /\ tm_ok w';
  tm_outside : forall w, tm_ok w ->
    (exists e w', tx_Commit tm Background w = (Done (Some e), w') /\ tm_ok w') /\
    (exists e w', tx_Rollback tm Background w = (Done (Some e), w') /\ tm_ok w') }.

Section Transactions.
Context {W : Type} (tm : TransactionManager W) `{HTM : !TransactionManagerLaws tm} {B : Type}.
Implicit Types (Q : option B -> W -> Prop).

Lemma step_begin format (k : context -> TestM W B) w Q : tm_ok w ->
  (forall c w', tm_in 1 1 false c w' -> passing (k c) w' Q) -> passing (x ← must_begin tm Background format; k x) w Q.
Proof.
  intros Hw Hk. destruct (tm_begin w Hw) as (c & w' & Hr & Hc). unfold must_begin. test_step. test_call Hr.
  cbn. test_step. by apply Hk.
Qed.

Lemma step_nested n d c format (k : context -> TestM W B) w Q : tm_in n d false c w -> (n < 1000)%Z ->
  (forall w', tm_in (n + 1) (d + 1) false c w' -> passing (k c) w' Q) -> passing (x ← must_begin tm c format; k x) w Q.
Proof.
  intros Hc Hn Hk. destruct (tm_nested n d c w Hc Hn) as (w' & Hr & Hc'). unfold must_begin. test_step. test_call Hr.
  cbn. test_step. by apply Hk.
Qed.

Lemma step_commit_inner n d c format (k : unit -> TestM W B) w Q : tm_in n d false c w -> (1 < d)%Z ->
  (forall w', tm_in n (d - 1) false c w' -> passing (k tt) w' Q) -> passing (x ← must_commit tm c format; k x) w Q.
Proof.
  intros Hc Hd Hk. destruct (tm_commit_inner n d c w Hc Hd) as (w' & Hr & Hc'). unfold must_commit. test_step.
  test_call Hr. test_step. by apply Hk.
Qed.

Lemma step_commit n c format (k : unit -> TestM W B) w Q : tm_in n 1 false c w ->
  (forall w', tm_ok w' -> passing (k tt) w' Q) -> passing (x ← must_commit tm c format; k x) w Q.
Proof.
  intros Hc Hk. destruct (tm_commit n c w Hc) as (w' & Hr & Hc'). unfold must_commit. test_step.
  test_call Hr. test_step. by apply Hk.
Qed.

Lemma step_rollback_inner n d c format (k : unit -> TestM W B) w Q : tm_in n d false c w -> (1 < d)%Z ->
  (forall w', tm_in n (d - 1) true c w' -> passing (k tt) w' Q) -> passing (x ← must_rollback tm c format; k x) w Q.
Proof.
  intros Hc Hd Hk. destruct (tm_rollback_inner n d c w Hc Hd) as (w' & Hr & Hc'). unfold must_rollback. test_step.
  test_call Hr. test_step. by apply Hk.
Qed.

Lemma step_rollback n c format (k : unit -> TestM W B) w Q : tm_in n 1 false c w ->
  (forall w', tm_ok w' -> passing (k tt) w' Q) -> passing (x ← must_rollback tm c format; k x) w Q.
Proof.
  intros Hc Hk. destruct (tm_rollback n c w Hc) as (w' & Hr & Hc'). unfold must_rollback. test_step.
  test_call Hr. test_step. by apply Hk.
Qed.
End Transactions.

Ltac tx_step :=
  lazymatch goal with
  | |- passing (mbind _ (must_begin _ Background _)) _ _ => eapply step_begin; [eassumption|]; intros ? ? ?
  | |- passing (mbind _ (must_begin _ _ _)) _ _ => eapply step_nested; [eassumption|done|]; intros ? ?
  | |- passing (mbind _ (must_commit _ _ _)) _ _ =>
      first [eapply step_commit; [eassumption|] | eapply step_commit_inner; [eassumption|done|]]; intros ? ?
  | |- passing (mbind _ (must_rollback _ _ _)) _ _ =>
      first [eapply step_rollback; [eassumption|] | eapply step_rollback_inner; [eassumption|done|]]; intros ? ?
  | |- passing (mret _) _ _ => apply passing_ret
  | |- passing (must_commit _ _ _) _ _ => apply passing_last
  | |- passing (must_rollback _ _ _) _ _ => apply passing_last
  | _ => test_step
  end.

Lemma transaction_contract_passes {W} (tm : TransactionManager W) `{HTM : !TransactionManagerLaws tm} newCtx :
  (forall w, tm_ok w -> exists w', newCtx w = (Done Background, w') /\ tm_ok w') ->
  passes tm_ok (TestTransactionManagerContract tm newCtx).
Proof.
  intros Hctx. unfold TestTransactionManagerContract. subtests; intros w Hw; destruct (Hctx w Hw) as (w0 & Hr & Hw0);
    test_call Hr; clear Hr; repeat tx_step.
  all: try assumption.
  - destruct (tm_outside w0 Hw0) as [(e & w' & Hr & Hw') _]. test_call Hr. repeat tx_step. done.
  - destruct (tm_outside w0 Hw0) as [_ (e & w' & Hr & Hw')]. test_call Hr. repeat tx_step. done.
  - edestruct tm_commit_aborted as (e & w9 & Hr & Hw9); [eassumption|]. test_call Hr. repeat tx_step. done.
  - edestruct Hctx as (w9 & Hr & Hw9); [|test_call Hr]; [assumption|]. repeat tx_step. done.
Qed.

(** ** In memory *)

Section MemoryMessages.
Context {W : Type} `{!Clock W, !Has InMemoryMessageStore W, !HasLaws InMemoryMessageStore W}.
Context (Hclock : forall w, part (S := InMemoryMessageStore) (now w).2 = part w).

Definition capped {A} (n : Z) (l : list A) : Prop := (zlen l <= n)%Z.
Definition messages_ok (s : InMemoryMessageStore) : Prop :=
  (0 <= ms_maxSize s < max_int64)%Z /\ capped (ms_maxSize s) (ms_commands s) /\ capped (ms_maxSize s) (ms_queries s) /\
  capped (ms_maxSize s) (ms_events s) /\ capped (ms_maxSize s) (ms_handlers s).

Lemma append_capped_ok {A} n (l : list A) x : (0 <= n < max_int64)%Z -> capped n l ->
  exists l', append_capped n l x = Done l' /\ capped n l'.
Proof.
  unfold capped, append_capped. intros Hn Hl. rewrite zlen_app, zlen_cons, zlen_nil. case_bool_decide as Hc.
  - pose proof (zlen_nonneg l). rewrite int_sub_id by (unfold in_int64, max_int64, two63 in *; lia).
    rewrite slice_from_Some by (autorewrite with go_rw; lia). eexists. split; [done|].
    unfold zlen in *. rewrite length_drop, length_app. cbn. lia.
  - eexists. split; [done|]. rewrite zlen_app, zlen_cons, zlen_nil. lia.
Qed.

(** A recording that appends to one of the four lists. *)
Lemma recording_ok (f : InMemoryMessageStore -> outcome InMemoryMessageStore) (w : W) :
  (exists s, f (part w) = Done s /\ messages_ok s) ->
  exists w', recording f w = (Done None, w') /\ messages_ok (part w').
Proof.
  intros (s & Hf & Hs). exists (set_part s w). unfold recording. rewrite Hf. split; [done|]. by rewrite part_set.
Qed.

#[refine] Definition memory_message_laws : MessageStoreLaws (in_memory_messages (W := W)) :=
  {| ms_ok w := messages_ok (part w); ms_command _ := True; ms_query _ := True; ms_event _ := True; ms_handler _ := True |}.
Proof.
  - intros w Hw. specialize (Hclock w). destruct (now w) as [t w']. exists t, w'. split; [done|]. cbn in *. by rewrite Hclock.
  - intros w e (Hn & Hc & Hq & He & Hh) _. apply recording_ok.
    destruct (append_capped_ok _ _ e Hn Hc) as (l & Hl & Hcl). eexists. split; [unfold mem_RecordCommand; rewrite Hl; reflexivity|].
    unfold messages_ok. cbn. tauto.
  - intros w e (Hn & Hc & Hq & He & Hh) _. apply recording_ok.
    destruct (append_capped_ok _ _ e Hn Hq) as (l & Hl & Hcl). eexists. split; [unfold mem_RecordQuery; rewrite Hl; reflexivity|].
    unfold messages_ok. cbn. tauto.
  - intros w e (Hn & Hc & Hq & He & Hh) _. apply recording_ok.
    destruct (append_capped_ok _ _ e Hn He) as (l & Hl & Hcl). eexists. split; [unfold mem_RecordEvent; rewrite Hl; reflexivity|].
    unfold messages_ok. cbn. tauto.
  - intros w e (Hn & Hc & Hq & He & Hh) _. apply recording_ok.
    destruct (append_capped_ok _ _ e Hn Hh) as (l & Hl & Hcl). eexists. split; [unfold mem_RecordEventHandler; rewrite Hl; reflexivity|].
    unfold messages_ok. cbn. tauto.
Defined.

Lemma memory_admits : admits_tests (HM := memory_message_laws) in_memory_messages.
Proof. split; intros t; by repeat constructor. Qed.
End MemoryMessages.

Section MemoryTransactions.
Context {W : Type} `{!Has tx_heap W, !HasLaws tx_heap W}.
Abbreviation heap w := (part w : tx_heap).

Definition memory_in (n d : Z) (a : bool) (c : context) (w : W) : Prop :=
  exists r, memTx c = Some r /\ heap w !! r = Some (mkMemTx d a) /\ (1 <= d <= n)%Z /\ (n <= 1000)%Z.

Lemma memory_end (w : W) r n d a b c : memTx c = Some r -> heap w !! r = Some (mkMemTx d b) -> (1 <= d <= n)%Z -> (n <= 1000)%Z ->
  (1 < d)%Z -> memory_in n (d - 1) a c (set_part (<[r := mkMemTx (d -i 1) a]> (heap w)) w).
Proof.
  intros Hr Hh Hd Hn Hd1. exists r. split; [done|]. rewrite part_set, list_lookup_insert_eq by (by eapply lookup_lt_Some).
  rewrite int_sub_id by (unfold in_int64, two63; lia). split; [done|lia].
Qed.

#[refine] Definition memory_tx_laws : TransactionManagerLaws (MemoryTransactionManager (W := W)) :=
  {| tm_ok _ := True; tm_in := memory_in |}.
Proof.
  - done.
  - intros w _. rewrite begin_outside by done. do 2 eexists. split; [reflexivity|].
    exists (length (heap w)). split; [done|]. rewrite part_set, list_lookup_middle by done. done.
  - intros n d c w (r & Hr & Hh & Hd & Hm) Hn. rewrite (begin_inside _ _ _ _ _ Hr Hh). eexists. split; [reflexivity|].
    exists r. split; [done|]. rewrite part_set, list_lookup_insert_eq by (by eapply lookup_lt_Some).
    rewrite int_add_id by (unfold in_int64, two63; lia). split; [done|lia].
  - intros n d c w (r & Hr & Hh & Hd & Hm) Hd1. cbn. rewrite on_part_run, (commit_run _ _ _ _ Hr Hh) by (cbn; lia).
    eexists. split; [reflexivity|]. by apply (memory_end w r n d false false).
  - intros n c w (r & Hr & Hh & Hd & Hm). cbn. rewrite on_part_run, (commit_run _ _ _ _ Hr Hh) by (cbn; lia).
    by eexists.
  - intros n c w (r & Hr & Hh & Hd & Hm). cbn. rewrite on_part_run, (commit_run _ _ _ _ Hr Hh) by (cbn; lia).
    by do 2 eexists.
  - intros n d c w (r & Hr & Hh & Hd & Hm) Hd1. cbn. rewrite on_part_run, (rollback_run _ _ _ _ Hr Hh) by (cbn; lia).
    eexists. split; [reflexivity|]. by apply (memory_end w r n d true false).
  - intros n c w (r & Hr & Hh & Hd & Hm). cbn. rewrite on_part_run, (rollback_run _ _ _ _ Hr Hh) by (cbn; lia).
    by eexists.
  - intros w _. split; do 2 eexists; (split; [cbn [tx_Commit tx_Rollback MemoryTransactionManager]; rewrite on_part_run; reflexivity|done]).
Defined.
End MemoryTransactions.

(** ** On PostgreSQL *)

Section PgMessages.
Context {W Tx : Type} `{!Clock W, !Has (tx_states Tx) W}.
Context `{LC : !LogTable W Tx command_row, LQ : !LogTable W Tx query_row, LE : !LogTable W Tx event_row, LH : !LogTable W Tx handler_row}.
Context `{!LogRow handler_row}.
Context `{KC : !LogTableLaws W Tx command_row, KQ : !LogTableLaws W Tx query_row}.
Context `{KE : !LogTableLaws W Tx event_row, KH : !LogTableLaws W Tx handler_row}.

(** The four tables are in one database: what keeps one in order keeps the others, and so does the clock. *)
Definition tables_ok (w : W) : Prop :=
  log_ok (R := command_row) (Tx := Tx) w /\ log_ok (R := query_row) (Tx := Tx) w /\
  log_ok (R := event_row) (Tx := Tx) w /\ log_ok (R := handler_row) (Tx := Tx) w.
Context (Hok : forall w, log_ok (R := command_row) (Tx := Tx) w \/ log_ok (R := query_row) (Tx := Tx) w \/
  log_ok (R := event_row) (Tx := Tx) w \/ log_ok (R := handler_row) (Tx := Tx) w -> tables_ok w).
Context (Hclock : forall w, tables_ok w -> tables_ok (now w).2).
Context (Husable : log_usable (W := W) (R := command_row) (Tx := Tx) Background /\ log_usable (W := W) (R := query_row) (Tx := Tx) Background /\
  log_usable (W := W) (R := event_row) (Tx := Tx) Background /\ log_usable (W := W) (R := handler_row) (Tx := Tx) Background).

Lemma record_row_ok {R} `{!LogTable W Tx R, !LogRow R, !LogTableLaws W Tx R} (r : R) w :
  log_ok (R := R) (Tx := Tx) w -> log_usable (W := W) (R := R) (Tx := Tx) Background -> log_valid (W := W) (Tx := Tx) r ->
  exists w', record_row (Tx := Tx) r Background w = (Done None, w') /\ log_ok (R := R) (Tx := Tx) w'.
Proof.
  intros Hw Hu Hv. destruct (log_insert_law (Tx := Tx) Background w r Hw Hu Hv) as (w' & Hr & Hw' & _).
  exists w'. split; [|done]. unfold record_row. unfold_go. by rewrite GetQuerier_at.
Qed.

#[refine] Definition pg_message_laws : MessageStoreLaws (pg_messages (Tx := Tx) (W := W) Background) :=
  {| ms_ok := tables_ok;
     ms_command e := log_valid (W := W) (Tx := Tx) (row_of_command e); ms_query e := log_valid (W := W) (Tx := Tx) (row_of_query e);
     ms_event e := log_valid (W := W) (Tx := Tx) (row_of_event e); ms_handler e := log_valid (W := W) (Tx := Tx) (row_of_handler e) |}.
Proof.
  all: destruct Husable as (Hu1 & Hu2 & Hu3 & Hu4).
  - intros w Hw. apply Hclock in Hw. destruct (now w) as [t w']. by exists t, w'.
  - intros w e (H1 & H2 & H3 & H4) Hv. destruct (record_row_ok (row_of_command e) w H1 Hu1 Hv) as (w' & Hr & Hw').
    exists w'. split; [exact Hr|]. apply Hok; auto.
  - intros w e (H1 & H2 & H3 & H4) Hv. destruct (record_row_ok (row_of_query e) w H2 Hu2 Hv) as (w' & Hr & Hw').
    exists w'. split; [exact Hr|]. apply Hok; auto.
  - intros w e (H1 & H2 & H3 & H4) Hv. destruct (record_row_ok (row_of_event e) w H3 Hu3 Hv) as (w' & Hr & Hw').
    exists w'. split; [exact Hr|]. apply Hok; auto.
  - intros w e (H1 & H2 & H3 & H4) Hv. destruct (record_row_ok (row_of_handler e) w H4 Hu4 Hv) as (w' & Hr & Hw').
    exists w'. split; [exact Hr|]. apply Hok; auto.
Defined.
End PgMessages.

(** *** Nested transactions are savepoints *)
Section PgTransactions.
Context {W Tx D : Type} `{!SqlDB W Tx} `{!Has (tx_states Tx) W, !HasLaws (tx_states Tx) W}.
Context `{!Clock W, HWD : !WorkingDatabase W Tx D}.
Abbreviation states w := (part w : tx_states Tx).

(** The savepoints of some begins, newest first, are on the stack, below others. *)
Fixpoint stacked (names : list Z) (sv : list (string * D)) : Prop :=
  match names with
  | [] => True
  | k :: names => exists pre d post, sv = pre ++ (sp_name k, d) :: post /\ (sp_name k ∉ pre.*1) /\ stacked names post
  end.

Lemma stacked_under k d names sv : k ∉ names -> stacked names sv -> stacked names ((sp_name k, d) :: sv).
Proof.
  destruct names as [|m names]; [done|]. intros Hk (pre & d' & post & -> & Hm & Hs).
  exists ((sp_name k, d) :: pre), d', post. split; [done|]. split; [|done]. cbn.
  intros [Heq|Hin]%elem_of_cons; [|done]. apply sp_name_inj in Heq. subst. apply Hk. by left.
Qed.

(** [names] are the numbers of the inner begins, the oldest first. *)
Definition pg_in (n d : Z) (a : bool) (c : context) (w : W) : Prop :=
  exists r s sv vis names, in_tx c r s sv vis w /\ depth s = d /\ aborted s = a /\ nextSpSeq s = n /\
    parentSp s = 1%Z :: names /\ d = (1 + zlen names)%Z /\ stacked (rev names) sv /\ NoDup names /\
    Forall (fun k => k <= n)%Z names /\ (d <= n <= 1000)%Z.

Lemma snoc_inv (l : list Z) : (0 < zlen l)%Z -> exists l' k, l = l' ++ [k].
Proof. destruct l as [|x l _] using rev_ind; [done|]. intros _. by exists l, x. Qed.

(** The two ends of an inner transaction: its savepoint is released or rolled back to. *)
Lemma pg_end_inner n d (a : bool) c w : pg_in n d false c w -> (1 < d)%Z ->
  exists w', (if a then pg_Rollback (Tx := Tx) c else pg_Commit (Tx := Tx) c) w = (Done None, w') /\ pg_in n (d - 1) a c w'.
Proof.
  intros (r & s & sv & vis & names & Hin & Hd & Ha & Hn & Hps & Hlen & Hst & Hnd & Hall & Hb) Hd1.
  destruct (snoc_inv names) as (names' & k & ->); [lia|]. rewrite rev_app_distr in Hst. cbn in Hst.
  destruct Hst as (pre & d0 & post & -> & Hk & Hst). rewrite zlen_app, zlen_cons, zlen_nil in Hlen.
  apply NoDup_app in Hnd as (Hnd & Hkn & _). apply Forall_app in Hall as [Hall _].
  assert (k ∉ names') as Hkn' by (intros Hx; by apply (Hkn k Hx), list_elem_of_singleton).
  assert (s = mkTxState (st_tx s) ((d - 1) + 1) false n ((1%Z :: names') ++ [k])) as Hs.
  { destruct s; cbn in *. subst. f_equal. lia. }
  assert (pop_savepoint s a = Some (sp_name k, mkTxState (st_tx s) (d - 1) a n (1%Z :: names'))) as Hpop.
  { eapply pop_savepoint_snoc; [exact Hs|]. unfold in_int64, two63. lia. }
  pose proof Hin as (Hr & Hl & Hse).
  assert (forall s', session_of (st_tx s) (set_part (<[r := s']> (states w)) w) =
    Some (mkSession (pre ++ (sp_name k, d0) :: post) vis)) as Hse1 by (intros s'; by rewrite db_session_part).
  destruct a.
  - unfold pg_Rollback, put_state. unfold_go. rewrite (get_state_in_tx _ _ _ _ _ _ Hin). cbv beta iota.
    rewrite Hd, bool_decide_eq_false_2 by lia. rewrite Hpop. cbn [depth st_tx]. rewrite bool_decide_eq_true_2 by lia.
    destruct (db_rollback_to (st_tx s) c (sp_name k) _ pre post d0 vis Hk (Hse1 (mkTxState (st_tx s) (d - 1) true n (1%Z :: names'))))
      as (w2 & -> & Hse2 & _ & Hp2). eexists. split; [reflexivity|].
    exists r, (mkTxState (st_tx s) (d - 1) true n (1%Z :: names')), ((sp_name k, d0) :: post), d0, names'. split.
    { split; [done|]. rewrite Hp2, part_set, list_lookup_insert_eq by (by eapply lookup_lt_Some). done. }
    cbn. split_and!; try (done || lia).
    apply stacked_under; [|done]. by rewrite list_elem_of_In, <- in_rev, <- list_elem_of_In.
  - unfold pg_Commit, put_state. unfold_go. rewrite (get_state_in_tx _ _ _ _ _ _ Hin). cbv beta iota.
    rewrite Hd, bool_decide_eq_false_2 by lia. rewrite Ha, Hpop. cbn [depth st_tx aborted]. rewrite bool_decide_eq_true_2 by lia.
    destruct (db_release (st_tx s) c (sp_name k) _ pre post d0 vis Hk (Hse1 (mkTxState (st_tx s) (d - 1) false n (1%Z :: names'))))
      as (w2 & -> & Hse2 & _ & Hp2). eexists. split; [reflexivity|].
    exists r, (mkTxState (st_tx s) (d - 1) false n (1%Z :: names')), post, vis, names'. split.
    { split; [done|]. rewrite Hp2, part_set, list_lookup_insert_eq by (by eapply lookup_lt_Some). done. }
    cbn. split_and!; done || lia.
Qed.
(** The end of the outermost transaction. *)
Lemma pg_end_top n a c w : pg_in n 1 a c w ->
  (exists e w', pg_Commit (Tx := Tx) c w = (Done e, w') /\ (e = None <-> a = false)) /\
  (exists w', pg_Rollback (Tx := Tx) c w = (Done None, w')).
Proof.
  intros (r & s & sv & vis & names & Hin & Hd & Ha & Hn & Hps & Hlen & _).
  destruct names as [|k names]; [|rewrite zlen_cons in Hlen; pose proof (zlen_nonneg names); lia].
  pose proof Hin as (Hr & Hl & Hse).
  assert (forall ab, pop_savepoint s ab = Some (sp_name 1, mkTxState (st_tx s) 0 ab n [])) as Hpop.
  { intros ab. unfold pop_savepoint. rewrite Hps. cbn. rewrite Hd, Hn, int_sub_id by (unfold in_int64, two63; lia). done. }
  assert (forall s', session_of (st_tx s) (set_part (<[r := s']> (states w)) w) = Some (mkSession sv vis)) as Hse1
    by (intros s'; by rewrite db_session_part).
  split.
  - unfold pg_Commit, put_state. unfold_go. rewrite (get_state_in_tx _ _ _ _ _ _ Hin). cbv beta iota.
    rewrite Hd, bool_decide_eq_false_2 by lia. rewrite Hpop. cbn [depth st_tx aborted].
    rewrite bool_decide_eq_false_2 by lia. rewrite Ha. destruct a.
    + destruct (db_rollback (st_tx s) _ _ (Hse1 (mkTxState (st_tx s) 0 true n []))) as (w2 & -> & _).
      do 2 eexists. by split.
    + destruct (db_commit (st_tx s) _ _ _ (Hse1 (mkTxState (st_tx s) 0 false n []))) as (w2 & -> & _).
      do 2 eexists. by split.
  - unfold pg_Rollback, put_state. unfold_go. rewrite (get_state_in_tx _ _ _ _ _ _ Hin). cbv beta iota.
    rewrite Hd, bool_decide_eq_false_2 by lia. rewrite Hpop. cbn [depth st_tx aborted].
    rewrite bool_decide_eq_false_2 by lia.
    destruct (db_rollback (st_tx s) _ _ (Hse1 (mkTxState (st_tx s) 0 true n []))) as (w2 & -> & _). by eexists.
Qed.

#[refine] Definition pg_tx_laws : TransactionManagerLaws (PgTransactionManager (W := W) (Tx := Tx)) :=
  {| tm_ok _ := True; tm_in := pg_in |}.
Proof.
  - done.
  - intros w _. destruct (begin_top Background w) as (t & w' & Hr & Hs & Hse & _); [done|].
    do 2 eexists. split; [exact Hr|]. exists (length (states w)), (mkTxState t 1 false 1 [1%Z]), [], (committed w), [].
    split; [split; [done|]; split; [by rewrite Hs, list_lookup_middle|done]|]. cbn. split_and!; try (done || lia); constructor.
  - intros n d c w (r & s & sv & vis & names & Hin & Hd & Ha & Hn & Hps & Hlen & Hst & Hnd & Hall & Hb) Hn1. pose proof (zlen_nonneg names).
    destruct (begin_nested c r s sv vis w Hin) as (w' & Hr & Hg); [rewrite Hn; unfold in_int64, two63; lia|rewrite Hd; unfold in_int64, two63; lia|].
    exists w'. split; [exact Hr|]. pose proof (got_to_in_tx _ _ _ _ _ _ _ _ _ _ Hin Hg) as Hin'.
    eexists r, _, _, vis, (names ++ [(n + 1)%Z]). split; [exact Hin'|].
    assert (n + 1 ∉ names)%Z as Hfresh.
    { intros Hx. eapply Forall_forall in Hall; [|exact Hx]. cbn in Hall. lia. }
    cbn. rewrite Hn, Hd, Hps, rev_app_distr, zlen_app, zlen_cons, zlen_nil. split_and!; try (done || lia).
    + exists [], vis, sv. split_and!; [done|by apply not_elem_of_nil|done].
    + apply NoDup_app. split_and!; [done| |by apply NoDup_singleton].
      intros x Hx ->%list_elem_of_singleton. done.
    + apply Forall_app. split; [eapply Forall_impl; [exact Hall|]; intros x Hx; cbn in *; lia|by repeat constructor].
  - intros n d c w Hin Hd. by apply (pg_end_inner n d false).
  - intros n c w Hin. destruct (pg_end_top n false c w Hin) as [(e & w' & Hr & He) _]. exists w'. split; [|done].
    by rewrite (proj2 He eq_refl) in Hr.
  - intros n c w Hin. destruct (pg_end_top n true c w Hin) as [(e & w' & Hr & He) _].
    destruct e as [e|]; [by exists e, w'|]. by discriminate (proj1 He eq_refl).
  - intros n d c w Hin Hd. by apply (pg_end_inner n d true).
  - intros n c w Hin. destruct (pg_end_top n false c w Hin) as [_ (w' & Hr)]. by exists w'.
  - intros w _. split; do 2 eexists; (split; [reflexivity|done]).
Defined.
End PgTransactions.

(** A step of a test in a concrete world. *)
Ltac backend_step :=
  lazymatch goal with
  | |- passing (mbind _ (mbind _ (t_Run _ _))) _ _ => apply passing_assoc
  | |- passing (mbind _ (t_Run _ _)) _ _ => apply passing_step_run
  | |- passing (must_commit _ _ _) _ _ => apply passing_last; unfold must_commit
  | |- passing (must _ _) _ _ => apply passing_last
  | |- passing (mbind _ (part_of _)) _ _ => eapply passing_step_call; [reflexivity|]
  | |- passing (mbind _ (call (store_RecordSpan _ _ _))) _ _ => fail
  | |- passing (mbind _ (call _)) _ _ => eapply passing_step_call; [vm_compute; reflexivity|]
  | |- passing (mbind _ (must_begin _ _ _)) _ _ => unfold must_begin
  | |- passing (mbind _ (must_commit _ _ _)) _ _ => unfold must_commit
  | |- passing (mbind _ (must_create _ _ _)) _ _ => unfold must_create
  | |- passing (mbind _ (must_get _ _ _)) _ _ => unfold must_get
  | |- passing (mbind _ (must_record _ _)) _ _ => unfold must_record
  | |- passing (mbind _ (must_trace _ _)) _ _ => unfold must_trace
  | |- passing (mbind _ (span_at _ _)) _ _ => unfold span_at
  | |- passing (mbind _ (expect _ _)) _ _ => apply passing_step_expect; [vm_compute; reflexivity|]
  | |- passing (mbind _ (require _ _)) _ _ => apply passing_step_require; [vm_compute; reflexivity|]
  | _ => test_step
  end; cbn [snd fst].

(** ** The backend in memory

    A world with its four parts and a clock, whatever the clock reads. *)
Section MemoryBackend.
Context {V : Type} `{!Dynamic V} (readings : nat -> Z) (test_cmd : V).

Record memory_world := mkMemoryWorld {
  mw_ticks : nat;
  mw_txs : tx_heap;
  mw_jobs : InMemoryJobStore V;
  mw_traces : InMemoryTraceStore;
  mw_messages : InMemoryMessageStore }.

#[local] Instance mw_clock : Clock memory_world := fun w =>
  (readings (mw_ticks w), mkMemoryWorld (S (mw_ticks w)) (mw_txs w) (mw_jobs w) (mw_traces w) (mw_messages w)).
#[local] Instance mw_has_txs : Has tx_heap memory_world :=
  {| part := mw_txs; set_part x w := mkMemoryWorld (mw_ticks w) x (mw_jobs w) (mw_traces w) (mw_messages w) |}.
#[local] Instance mw_has_jobs : Has (InMemoryJobStore V) memory_world :=
  {| part := mw_jobs; set_part x w := mkMemoryWorld (mw_ticks w) (mw_txs w) x (mw_traces w) (mw_messages w) |}.
#[local] Instance mw_has_traces : Has InMemoryTraceStore memory_world :=
  {| part := mw_traces; set_part x w := mkMemoryWorld (mw_ticks w) (mw_txs w) (mw_jobs w) x (mw_messages w) |}.
#[local] Instance mw_has_messages : Has InMemoryMessageStore memory_world :=
  {| part := mw_messages; set_part x w := mkMemoryWorld (mw_ticks w) (mw_txs w) (mw_jobs w) (mw_traces w) x |}.

(** [infra.NewMemoryBackend()], of which the stores are new. *)
Definition memory_backend : Backend memory_world V :=
  NewMemoryBackend MemoryTransactionManager in_memory_store
    (mkBackendTraces memory_recorder (on_part (fun s => (None, Trace.Close s)))) in_memory_messages [].
Definition new_memory_world : memory_world :=
  mkMemoryWorld 0 [] ∅ (NewInMemoryTraceStore []) (NewInMemoryMessageStore []).

Context (lo : Z) (Hwindow : forall n, (lo <= readings n <= lo + defaultTTL)%Z).

Lemma record_first (w : memory_world) sp :
  spans (mw_traces w) = [] -> ttl (mw_traces w) = defaultTTL -> maxSpans (mw_traces w) = defaultMaxSpans ->
  (lo <= StartedAt sp)%Z ->
  store_RecordSpan memory_recorder Background sp w =
    (Done None, set_part (appended sp (mw_traces w)) (now w).2).
Proof.
  intros Hs Ht Hm Hlive. cbn [store_RecordSpan memory_recorder]. unfold_go. cbn. unfold record_at. cbn.
  specialize (Hwindow (mw_ticks w)). rewrite (record_keeps lo); [done|by rewrite Hs, Hm|rewrite Ht; lia|].
  rewrite Hs. by repeat constructor.
Qed.

(** The suite of backends passes from the new world. *)
Lemma memory_backend_passes :
  passing (TestBackendContract memory_backend memory_traces test_cmd) new_memory_world (fun _ _ => True).
Proof.
  unfold TestBackendContract. apply passing_last. repeat backend_step.
  eapply passing_step_call; [apply record_first; [reflexivity..|apply Hwindow]|]. repeat backend_step.
  done.
Qed.
End MemoryBackend.

(** ** Properties *)

(** The contracts of the infrastructure hold: the transaction manager in memory and the one on
    PostgreSQL, where nested begins are savepoints, pass their suite from any state (a nested commit
    and rollback leave the outer transaction open, an outer commit after an inner rollback is an
    error, and ending without a transaction is one); the in-memory message store passes its suite
    at any of its states; and the in-memory backend, new, passes the suite of backends, whatever the
    readings of the clock, if they lie within a span's time to live. *)
Theorem infrastructure_contracts {M} `{!Clock M, !Has tx_heap M, !HasLaws tx_heap M}
    `{!Has InMemoryMessageStore M, !HasLaws InMemoryMessageStore M}
    {W Tx D} `{!SqlDB W Tx, !Has (tx_states Tx) W, !HasLaws (tx_states Tx) W, !Clock W, HWD : !WorkingDatabase W Tx D}
    {V} `{!Dynamic V} (readings : nat -> Z) (test_cmd : V) (lo : Z) :
  (forall w : M, part (S := InMemoryMessageStore) (now w).2 = part w) ->
  (forall n, (lo <= readings n <= lo + defaultTTL)%Z) ->
  passes (fun _ : M => True) (TestTransactionManagerContract MemoryTransactionManager (mret Background)) /\
  passes (fun _ : W => True) (TestTransactionManagerContract (PgTransactionManager (Tx := Tx)) (mret Background)) /\
  passes (fun w : M => messages_ok (part w)) (TestMessageStoreContract in_memory_messages) /\
  passing (TestBackendContract (Clock0 := mw_clock readings) (memory_backend readings)
    (memory_traces (Has0 := mw_has_traces)) test_cmd) (new_memory_world (V := V)) (fun _ _ => True).
Proof.
  intros Hclock Hwin. split; [|split; [|split]].
  - apply (transaction_contract_passes _ (HTM := memory_tx_laws)). intros w _. by exists w.
  - apply (transaction_contract_passes _ (HTM := pg_tx_laws)). intros w _. by exists w.
  - apply (message_contract_passes _ (HM := memory_message_laws Hclock)), memory_admits.
  - exact (memory_backend_passes readings test_cmd lo Hwin).
Qed.

(** A clock beside the transactions and the messages in memory. *)
Module DemoContractInfra.
Definition world : Type := tx_heap * InMemoryMessageStore.
#[export] Instance demo_clock : Clock world := fun w => (5%Z, w).
End DemoContractInfra.
Import DemoContractJobs DemoPg DemoContractInfra.

Lemma infrastructure_contracts_witness :
  let m0 : DemoContractInfra.world := ([], NewInMemoryMessageStore []) in
  passing (TestTransactionManagerContract MemoryTransactionManager (mret Background)) m0 (fun _ _ => True) /\
  passing (TestTransactionManagerContract (PgTransactionManager (Tx := nat)) (mret Background))
    ((mkDb 0 [] [], []) : DemoPg.world) (fun _ _ => True) /\
  passing (TestMessageStoreContract in_memory_messages) m0 (fun _ _ => True).
Proof.
  intros m0.
  destruct (infrastructure_contracts (M := DemoContractInfra.world) (W := DemoPg.world) (Tx := nat) (D := list string)
    (fun _ => 5%Z) (VText "test-cmd") 5 ltac:(done) ltac:(done)) as (H1 & H2 & H3 & _).
  split; [by apply H1|]. split; [by apply H2|]. eapply passing_conseq; [apply H3; by vm_compute|done].
Defined.
