(* ===== verification/Shop.v ===== *)
(** * The HTTP interface of the example application: [src/exampleapp/interfaces/http]

    The handlers as functions of the request and of the application that they are
    built on: they return the response that the source writes. Pages are the data
    given to their template; [Pages] sends them. *)

From Stdlib Require Import Floats.SpecFloat.
From S2P Require Import Prelude Errors Trace Aggregate Bus EventBus Job Order Inventory Wire Dashboard.

(** ** Requests and responses *)

(** [sr_form] are the form values of the request, [sr_form_error] is the error of
    [ParseForm], [sr_id] the path value [id], [sr_status] the parameter [status] of the URL. *)
Record shop_request := mkShopRequest {
  sr_Method : string;
  sr_form : list (string * string);
  sr_form_error : error;
  sr_id : string;
  sr_status : string;
  sr_ctx : context }.

(** [r.FormValue(k)]: the first value. *)
Definition FormValue (r : shop_request) (k : string) : string :=
  match list_find (fun p => p.1 = k) (sr_form r) with Some (_, p) => p.2 | None => "" end.

Record EventView := mkEventView {
  ev_EventType : string;
  ev_OrderID : string;
  ev_UserID : string;
  ev_Amount : float64;
  ev_Details : string;
  ev_OccurredAt : string }.

Record TestStep := mkStep {
  ts_Type : string;
  ts_Name : string;
  ts_Duration : string;
  ts_Success : bool;
  ts_Error : string;
  ts_Detail : string }.

(** The data of the pages. *)
Inductive page :=
| PDashboard (total paid shipped cancelled : Z) (products : list InventoryItem) (recent : list GetOrderResult)
| POrders (orders : list GetOrderResult)
| POrderNew (products : list InventoryItem)
| POrderDetail (order : option GetOrderResult)
| POrderEvents (order_id : string) (events : list EventView) (order : option GetOrderResult)
| PInventory (products : list InventoryItem)
| PInventoryManage (products : list InventoryItem)
| PJobs (jobs : list (Job message))
| PTestResult (test_name : string) (steps : list TestStep) (total passed failed : Z) (duration : string).

(** [http.Error], [http.Redirect], [render] and a body of JSON. *)
Inductive shop_response :=
| ShopError (msg : string) (code : Z)
| Redirect (url : string) (code : Z)
| Render (name : string) (data : page)
| WriteBody (json : string).

Definition StatusFound : Z := 302.
Definition StatusSeeOther : Z := 303.
Definition StatusBadRequest : Z := 400.
Definition StatusForbidden : Z := 403.

(** ** The application *)

(** The operations of the job manager that the handlers call. *)
Record JobOps (W : Type) := mkJobOps {
  jm_Submit : context -> message -> list JobOption -> GoM W (result (Job message));
  jm_Cancel : context -> string -> GoM W error;
  jm_Retry : context -> string -> GoM W error;
  jm_ListByStatus : JobLister W message;
  jm_Wait : context -> string -> Z -> GoM W (result (Job message));
  jm_GetStatus : context -> string -> GoM W (result (Job message)) }.
Arguments mkJobOps {W} _ _ _ _ _ _.
Arguments jm_Submit {W} _.
Arguments jm_Cancel {W} _.
Arguments jm_Retry {W} _.
Arguments jm_ListByStatus {W} _.
Arguments jm_Wait {W} _.
Arguments jm_GetStatus {W} _.

(** What the handlers of the administrator do to the database: [pg.TruncateAll], the product store, and
    the insertion of a row into [ddd_jobs]. *)
Record ShopDB (W : Type) := mkShopDB {
  db_TruncateAll : GoM W error;
  db_products : ProductStore W;
  db_insert_job : string -> string -> Z -> option Z -> GoM W error }.
Arguments mkShopDB {W} _ _ _.
Arguments db_TruncateAll {W} _.
Arguments db_products {W} _.
Arguments db_insert_job {W} _.

(** [infrastructure.AppContext], as far as the handlers use it; the inventory is a part of the world. *)
Record ShopApp (W : Type) := mkShop {
  CmdBus_Execute : context -> message -> GoM W (message * error);
  QueryBus_Execute : context -> message -> GoM W (message * error);
  EventBus_Publish : context -> message -> GoM W error;
  OrderRepo : OrderRepositoryAdapter W;
  EventStore_Load : context -> string -> Z -> GoM W (result (list domain_event));
  JobManager : JobOps W;
  TestMode : bool;
  DB : option (ShopDB W) }.
Arguments mkShop {W} _ _ _ _ _ _ _ _.
Arguments CmdBus_Execute {W} _.
Arguments QueryBus_Execute {W} _.
Arguments EventBus_Publish {W} _.
Arguments OrderRepo {W} _.
Arguments EventStore_Load {W} _.
Arguments JobManager {W} _.
Arguments TestMode {W} _.
Arguments DB {W} _.

Definition nil_dereference : string := "invalid memory address or nil pointer dereference".
(** [*p] of a result that may be nil. *)
Definition deref {W A} (p : option A) : GoM W A := match p with Some a => mret a | None => go_panic nil_dereference end.

(** [x, err := m; if err != nil { return "", err }] of the test steps. *)
Definition try {W A B} (m : GoM W (result A)) (k : A -> GoM W (result B)) : GoM W (result B) :=
  r ← m; match r with Ok a => k a | Err e => mret (Err e) end.
Definition try_error {W B} (m : GoM W error) (k : GoM W (result B)) : GoM W (result B) :=
  e ← m; match e with None => k | Some e => mret (Err e) end.

(** The results of a typed dispatch. *)
Definition as_result {R} (r : R * error) : result R := match r.2 with Some e => Err e | None => Ok r.1 end.

Section Shop.
Context {W : Type} `{!Has Inventory W, !Clock W, !IdGen W, !MapRange} (app : ShopApp W).
(** [time.Time.Format(time.RFC3339)], [%.2f], [time.Duration.String] and [time.Sleep]. *)
Context (format_rfc3339 : Z -> string) (format_2f : float64 -> string) (duration_String : Z -> string).
Context (sleep : Z -> GoM W unit).

Definition ListOrdersQuery (ctx : context) : GoM W (option (list GetOrderResult) * error) :=
  QueryDispatch (QueryBus_Execute app) ctx MListOrders.
Definition GetOrderQuery (ctx : context) (id : string) : GoM W (option GetOrderResult * error) :=
  QueryDispatch (QueryBus_Execute app) ctx (MGetOrder id).
Definition GetInventoryQuery (ctx : context) : GoM W (option (list InventoryItem) * error) :=
  QueryDispatch (QueryBus_Execute app) ctx MGetInventory.
Definition PlaceOrderCommand (ctx : context) (user : string) (items : list ItemInput) :
    GoM W (option PlaceOrderResult * error) :=
  CommandDispatch (CmdBus_Execute app) ctx (MPlaceOrder user items).
Definition ConfirmPaymentCommand (ctx : context) (id : string) : GoM W (option bool * error) :=
  CommandDispatch (Typed0 := typed_confirmed) (CmdBus_Execute app) ctx (MConfirmPayment id).
Definition ShipOrderCommand (ctx : context) (id : string) : GoM W (option bool * error) :=
  CommandDispatch (Typed0 := typed_shipped) (CmdBus_Execute app) ctx (MShipOrder id).
Definition CancelOrderCommand (ctx : context) (id reason : string) : GoM W (option bool * error) :=
  CommandDispatch (Typed0 := typed_cancelled) (CmdBus_Execute app) ctx (MCancelOrder id reason).
Definition GenerateReportCommand (ctx : context) (id : string) : GoM W (option GenerateReportResult * error) :=
  CommandDispatch (CmdBus_Execute app) ctx (MGenerateReport id).
Definition ReserveInventoryCommand (ctx : context) (cmd : InventoryCommand) : GoM W (option bool * error) :=
  CommandDispatch (Typed0 := typed_reserved) (CmdBus_Execute app) ctx (MReserveInventory cmd).
Definition ReleaseInventoryCommand (ctx : context) (cmd : InventoryCommand) : GoM W (option bool * error) :=
  CommandDispatch (Typed0 := typed_released) (CmdBus_Execute app) ctx (MReleaseInventory cmd).

Definition http_error (e : goerr) (code : Z) : shop_response := ShopError (Error e) code.

(** ** Pages of the shop *)

(** The loop of the dashboard: cancelled orders count as nothing else, shipped ones as paid too. *)
Fixpoint count_orders (orders : list GetOrderResult) (paid shipped cancelled : Z) : Z * Z * Z :=
  match orders with
  | [] => (paid, shipped, cancelled)
  | o :: rest =>
      if bool_decide (v_CancelledAt o <> "") then count_orders rest paid shipped (cancelled +i 1)
      else count_orders rest (if bool_decide (v_PaidAt o <> "") then paid +i 1 else paid)
             (if bool_decide (v_ShippedAt o <> "") then shipped +i 1 else shipped) cancelled
  end.

Definition http_Dashboard (r : shop_request) : GoM W shop_response :=
  orders ← ListOrdersQuery (sr_ctx r);
  match orders.2 with
  | Some e => mret (http_error e StatusInternalServerError)
  | None =>
      inventory ← GetInventoryQuery (sr_ctx r);
      match inventory.2 with
      | Some e => mret (http_error e StatusInternalServerError)
      | None =>
          os ← deref orders.1;
          let '(paid, shipped, cancelled) := count_orders os 0 0 0 in
          ps ← deref inventory.1;
          mret (Render "dashboard" (PDashboard (zlen os) paid shipped cancelled ps os))
      end
  end.

Definition http_ListOrders (r : shop_request) : GoM W shop_response :=
  res ← ListOrdersQuery (sr_ctx r);
  match res.2 with
  | Some e => mret (http_error e StatusInternalServerError)
  | None => os ← deref res.1; mret (Render "orders" (POrders os))
  end.

(** The three pages that show the inventory. *)
Definition inventory_page (name : string) (data : list InventoryItem -> page) (r : shop_request) : GoM W shop_response :=
  res ← GetInventoryQuery (sr_ctx r);
  match res.2 with
  | Some e => mret (http_error e StatusInternalServerError)
  | None => ps ← deref res.1; mret (Render name (data ps))
  end.
Definition http_NewOrderForm := inventory_page "order_new" POrderNew.
Definition http_Inventory := inventory_page "inventory" PInventory.

(** The items of the form, in the order of the products. *)
Definition form_items (r : shop_request) (ps : list Product) : list ItemInput :=
  flat_map (fun p =>
    let '(qty, ok) := Atoi (FormValue r ("qty_" +:+ P_ID p)) in
    if ok && bool_decide (0 < qty)%Z then [mkInput (P_ID p) (P_Name p) (P_Price p) qty] else []) ps.

Definition http_PlaceOrder (r : shop_request) : GoM W shop_response :=
  match sr_form_error r with
  | Some e => mret (http_error e StatusBadRequest)
  | None =>
      let userID := FormValue r "user_id" in
      products ← on_part (fun inv => (GetAll inv, inv));
      let items := form_items r products in
      if bool_decide (items = []) then mret (ShopError "at least one item required" StatusBadRequest)
      else
        res ← PlaceOrderCommand (sr_ctx r) userID items;
        match res.2 with
        | Some e => mret (http_error e StatusInternalServerError)
        | None => placed ← deref res.1; mret (Redirect ("/orders/" +:+ pr_OrderID placed) StatusSeeOther)
        end
  end.

Definition http_OrderDetail (r : shop_request) : GoM W shop_response :=
  res ← GetOrderQuery (sr_ctx r) (sr_id r);
  mret (match res.2 with
        | Some e => http_error e StatusNotFound
        | None => Render "order_detail" (POrderDetail res.1)
        end).

(** The three commands on an order: back to its page. *)
Definition edit_page (command : context -> string -> GoM W (option bool * error)) (r : shop_request) : GoM W shop_response :=
  res ← command (sr_ctx r) (sr_id r);
  mret (match res.2 with
        | Some e => http_error e StatusBadRequest
        | None => Redirect ("/orders/" +:+ sr_id r) StatusSeeOther
        end).
Definition http_ConfirmPayment (r : shop_request) := edit_page ConfirmPaymentCommand r.
Definition http_ShipOrder (r : shop_request) := edit_page ShipOrderCommand r.
Definition http_CancelOrder (r : shop_request) :=
  let reason := FormValue r "reason" in edit_page (fun ctx id => CancelOrderCommand ctx id reason) r.

(** Past the command bus. *)
Definition http_DeleteOrder (r : shop_request) : GoM W shop_response :=
  err ← Order.Delete (OrderRepo app) (sr_ctx r) (sr_id r);
  mret (match err with
        | Some e => http_error e StatusNotFound
        | None => Redirect "/orders" StatusSeeOther
        end).

Definition event_view (e : domain_event) : EventView :=
  let meta := MetadataOf e in
  let view := mkEventView (event_name e) "" "" float_zero "" (format_rfc3339 (OccurredAt meta)) in
  let with_details id details := mkEventView (ev_EventType view) id "" float_zero details (ev_OccurredAt view) in
  match e with
  | OrderPlacedEvent base user amount _ =>
      mkEventView (ev_EventType view) (AggregateID base) user amount
        ("UserID: " +:+ user +:+ ", Amount: " +:+ format_2f amount) (ev_OccurredAt view)
  | PaymentConfirmedEvent base => with_details (AggregateID base) "Payment confirmed"
  | OrderShippedEvent base => with_details (AggregateID base) "Order shipped"
  | OrderCancelledEvent base reason => with_details (AggregateID base) ("Cancelled: " +:+ reason)
  | _ => with_details (AggregateID meta) ""
  end.

Definition http_OrderEvents (r : shop_request) : GoM W shop_response :=
  events ← EventStore_Load app (sr_ctx r) (sr_id r) 0;
  match events with
  | Err e => mret (http_error e StatusInternalServerError)
  | Ok [] => mret (ShopError "order not found" StatusNotFound)
  | Ok events =>
      let views := map event_view events in
      order ← GetOrderQuery (sr_ctx r) (sr_id r);
      mret (match order.2 with
            | Some e => http_error e StatusInternalServerError
            | None => Render "order_events" (POrderEvents (sr_id r) views order.1)
            end)
  end.

Definition http_InventoryManage (r : shop_request) : GoM W shop_response :=
  if bool_decide (sr_Method r = "POST") then
    let productID := FormValue r "product_id" in
    let quantity := FormValue r "quantity" in
    if bool_decide (productID = "") || bool_decide (quantity = "") then
      mret (ShopError "product_id and quantity are required" StatusBadRequest)
    else
      let '(qty, ok) := Atoi quantity in
      if negb ok || bool_decide (qty <= 0)%Z then mret (ShopError "quantity must be a positive integer" StatusBadRequest)
      else
        found ← on_part (fun inv => (GetByID productID inv, inv));
        if negb found.2 || bool_decide (P_ID found.1 = "") then mret (ShopError "product not found" StatusNotFound)
        else
          err ← on_part (AddStock productID qty);
          mret (match err with
                | Some e => ShopError ("failed to add stock: " +:+ Error e) StatusInternalServerError
                | None => Redirect "/inventory/manage" StatusFound
                end)
  else inventory_page "inventory_manage" PInventoryManage r.

(** ** Jobs *)

Definition http_ListJobs (r : shop_request) : GoM W shop_response :=
  jobs ← list_all (jm_ListByStatus (JobManager app)) (sr_ctx r) all_statuses;
  mret (match jobs with
        | Err e => http_error e StatusInternalServerError
        | Ok lists => Render "jobs" (PJobs (concat lists))
        end).

Definition millisecond : Z := 1000000.
(** [time.Duration(n) * time.Millisecond] *)
Definition milliseconds (n : Z) : Z := wrap64 (n * millisecond).

(** [if n, err := strconv.Atoi(s); err == nil && n > 0 { ... }] *)
Definition positive (s : string) : option Z :=
  let '(n, ok) := Atoi s in if ok && bool_decide (0 < n)%Z then Some n else None.

Definition job_options (r : shop_request) : list JobOption :=
  match positive (FormValue r "timeout") with Some n => [Job.WithTimeout (milliseconds n)] | None => [] end ++
  match positive (FormValue r "retries") with Some n => [WithMaxRetries n] | None => [] end.

(** The variable [err] that [Submit] assigns is the one of the inner [if]: the outer one stays nil. *)
Definition http_SubmitJob (r : shop_request) : GoM W shop_response :=
  match sr_form_error r with
  | Some e => mret (http_error e StatusBadRequest)
  | None =>
      let orderID := FormValue r "order_id" in
      let opts := job_options r in
      let outer_err : error := None in
      _ ← match positive (FormValue r "duration") with
          | Some duration =>
              jm_Submit (JobManager app) (sr_ctx r) (MProcessBatch orderID (milliseconds duration)) opts
          | None => jm_Submit (JobManager app) (sr_ctx r) (MGenerateReport orderID) opts
          end;
      mret (match outer_err with
            | Some e => http_error e StatusInternalServerError
            | None => Redirect "/jobs" StatusSeeOther
            end)
  end.

Definition job_page (call : context -> string -> GoM W error) (r : shop_request) : GoM W shop_response :=
  err ← call (sr_ctx r) (sr_id r);
  mret (match err with
        | Some e => http_error e StatusBadRequest
        | None => Redirect "/jobs" StatusSeeOther
        end).
Definition http_CancelJob := job_page (jm_Cancel (JobManager app)).
Definition http_RetryJob := job_page (jm_Retry (JobManager app)).

Definition http_ListTraces (r : shop_request) : GoM W shop_response :=
  mret (Redirect "/api/ddd/ddd_traces" StatusFound).

(** ** The test pages *)

Definition errStr (err : error) : string := match err with None => "" | Some e => Error e end.
Definition bool_text (b : bool) : string := if b then "true" else "false".

(** [step]: what [fn] gives to the variables of the handler, and the step. *)
Definition test_step {A} (typ name : string) (fn : GoM W (A * result string)) : GoM W (A * TestStep) :=
  s ← time_now;
  res ← fn;
  now ← time_now;
  let err := match res.2 with Ok _ => None | Err e => Some e end in
  mret (res.1, mkStep typ name (duration_String (duration_sat (now - s))) (bool_decide (err = None)) (errStr err)
                 (match res.2 with Ok detail => detail | Err _ => "" end)).

(** A step that assigns no variable. *)
Definition plain_step (typ name : string) (fn : GoM W (result string)) : GoM W TestStep :=
  r ← test_step typ name (res ← fn; mret (tt, res)); mret r.2.

Definition renderTestResult (title : string) (steps : list TestStep) (total_duration : Z) : shop_response :=
  let passed := fold_left (fun n s => if ts_Success s then n +i 1 else n) steps 0%Z in
  let failed := fold_left (fun n s => if ts_Success s then n else n +i 1) steps 0%Z in
  Render "test_result" (PTestResult title steps (zlen steps) passed failed (duration_String total_duration)).

(** What the four test handlers share: a trace of their own and the time that they take. *)
Definition test_page (title : string) (body : string -> context -> GoM W (list TestStep)) (r : shop_request) :
    GoM W shop_response :=
  traceID ← NewTraceID;
  let ctx := WithTrace (sr_ctx r) traceID "" in
  start ← time_now;
  steps ← body traceID ctx;
  now ← time_now;
  mret (renderTestResult title steps (duration_sat (now - start))).

Definition success_text (p : option bool) : GoM W (result string) :=
  b ← deref p; mret (Ok ("success=" +:+ bool_text b)).

(** [PlaceOrderCommand] that sets the handler's [orderID] when it succeeds. *)
Definition place_step (ctx : context) (user : string) (items : list ItemInput) (detail : PlaceOrderResult -> string) :
    GoM W (string * result string) :=
  res ← PlaceOrderCommand ctx user items;
  match res.2 with
  | Some e => mret ("", Err e)
  | None => placed ← deref res.1; mret (pr_OrderID placed, Ok (detail placed))
  end.
(** [setup: place order: %w] *)
Definition setup_order (ctx : context) (user : string) (items : list ItemInput) : GoM W (result string) :=
  res ← PlaceOrderCommand ctx user items;
  match res.2 with
  | Some e => mret (Err (EWrap "setup: place order: " e ""))
  | None => placed ← deref res.1; mret (Ok (pr_OrderID placed))
  end.
Definition placed_text (p : PlaceOrderResult) : string :=
  "orderID=" +:+ pr_OrderID p +:+ " total=" +:+ format_2f (pr_TotalAmount p).

(** The prices of the test items are those of the products, and 999 for the job test. *)
Definition test_item (id name : string) (quantity : Z) : ItemInput :=
  mkInput id name (from_option P_Price float_zero (list_find (fun p => P_ID p = id) DefaultProducts ≫= fun p => Some p.2)) quantity.

Definition http_TestQuery : shop_request -> GoM W shop_response := test_page "Test Query" (fun _ ctx =>
  s1 ← plain_step "query" "ListOrdersQuery"
    (r ← ListOrdersQuery ctx;
     match r.2 with
     | Some e => mret (Err e)
     | None => os ← deref r.1; mret (Ok ("returned " +:+ pretty (zlen os) +:+ " orders"))
     end);
  s2 ← plain_step "query" "GetOrderQuery (with orderID)"
    (try (setup_order ctx "test-query-user" [test_item "laptop" "Laptop" 1]) (fun id =>
       r ← GetOrderQuery ctx id;
       match r.2 with
       | Some e => mret (Err e)
       | None => v ← deref r.1;
           mret (Ok ("order " +:+ v_OrderID v +:+ " status=" +:+ v_Status v +:+ " total=" +:+ format_2f (v_TotalAmount v)))
       end));
  s3 ← plain_step "query" "GetInventoryQuery"
    (r ← GetInventoryQuery ctx;
     match r.2 with
     | Some e => mret (Err e)
     | None => ps ← deref r.1; mret (Ok ("returned " +:+ pretty (zlen ps) +:+ " products"))
     end);
  mret [s1; s2; s3]).

(** A step that dispatches a command with a [Success] field. *)
Definition command_step (name : string) (command : GoM W (option bool * error)) : GoM W TestStep :=
  plain_step "command" name (r ← command; match r.2 with Some e => mret (Err e) | None => success_text r.1 end).

Definition http_TestCommand : shop_request -> GoM W shop_response := test_page "Test Command" (fun _ ctx =>
  '(orderID, s1) ← test_step "command" "PlaceOrderCommand"
    (place_step ctx "test-cmd-user" [test_item "mouse" "Mouse" 2] placed_text);
  s2 ← command_step "ConfirmPaymentCommand" (ConfirmPaymentCommand ctx orderID);
  s3 ← command_step "ShipOrderCommand" (ShipOrderCommand ctx orderID);
  s4 ← plain_step "command" "CancelOrderCommand"
    (try (setup_order ctx "test-cancel-user" [test_item "keyboard" "Keyboard" 1]) (fun cancelID =>
       r ← CancelOrderCommand ctx cancelID "test cancel";
       match r.2 with Some e => mret (Err e) | None => success_text r.1 end));
  s5 ← plain_step "command" "GenerateReportCommand"
    (r ← GenerateReportCommand ctx orderID;
     match r.2 with
     | Some e => mret (Err e)
     | None => rep ← deref r.1;
         mret (Ok ("reportID=" +:+ gr_ReportID rep +:+ " generated=" +:+ bool_text (Generated rep)))
     end);
  s6 ← command_step "ReserveInventoryCommand"
    (uid ← new_uuid; ReserveInventoryCommand ctx (mkInvCmd uid "headphone" 1));
  s7 ← command_step "ReleaseInventoryCommand"
    (uid ← new_uuid; ReleaseInventoryCommand ctx (mkInvCmd uid "headphone" 1));
  mret [s1; s2; s3; s4; s5; s6; s7]).

(** A step that publishes an event and sleeps. *)
Definition event_step (name : string) (ctx : context) (aggregate : GoM W string) (evt : BaseEvent -> domain_event)
    (pause : Z) (detail : string) : GoM W TestStep :=
  plain_step "event" name
    (id ← aggregate;
     now ← time_now;
     err ← EventBus_Publish app ctx (MEvent (evt (WithCorrelation now ctx id)));
     match err with
     | Some e => mret (Err e)
     | None => _ ← sleep (milliseconds pause); mret (Ok detail)
     end).

Definition http_TestEvent : shop_request -> GoM W shop_response := test_page "Test Event" (fun _ ctx =>
  id ← new_uuid;
  let price := in_Price (test_item "laptop" "Laptop" 1) in
  s1 ← event_step "OrderPlacedEvent (→ NotificationHandler + InventoryHandler)" ctx (mret id)
    (fun b => OrderPlacedEvent b "test-event-user" price ["Laptop"]) 200 "dispatched, handlers invoked";
  s2 ← event_step "PaymentConfirmedEvent" ctx (mret id) PaymentConfirmedEvent 100 "dispatched";
  s3 ← event_step "OrderShippedEvent" ctx (mret id) OrderShippedEvent 100 "dispatched";
  s4 ← event_step "OrderCancelledEvent (→ InventoryHandler)" ctx (mret id) (fun b => OrderCancelledEvent b "test cancel")
    200 "dispatched, inventory handler invoked";
  s5 ← event_step "InventoryReservedEvent" ctx new_uuid (fun b => InventoryReservedEvent b "mouse" 2) 100 "dispatched";
  s6 ← event_step "InventoryReleasedEvent" ctx new_uuid (fun b => InventoryReleasedEvent b "mouse" 2) 100 "dispatched";
  mret [s1; s2; s3; s4; s5; s6]).

(** A fixed text, and a look at the status of an order. *)
Definition note_step (typ name detail : string) : GoM W TestStep := plain_step typ name (mret (Ok detail)).
Definition verify_step (ctx : context) (id expected : string) : GoM W TestStep :=
  plain_step "query" ("GetOrderQuery (verify " +:+ expected +:+ ")")
    (r ← GetOrderQuery ctx id;
     match r.2 with
     | Some e => mret (Err e)
     | None => v ← deref r.1;
         mret (if bool_decide (v_Status v <> expected)
               then Err (ENew ("expected " +:+ expected +:+ ", got " +:+ v_Status v))
               else Ok ("status=" +:+ v_Status v +:+ " (correct)"))
     end).

(** The first laptop or monitor of the inventory. *)
Definition stock_text (ps : list InventoryItem) : string :=
  match list_find (fun p => ii_Name p = "Laptop" \/ ii_Name p = "Monitor") ps with
  | Some (_, p) => ii_Name p +:+ " stock=" +:+ pretty (ii_Stock p)
  | None => "inventory retrieved"
  end.

Definition qce_steps (traceID : string) (ctx : context) : GoM W (list TestStep) :=
  '(orderID, s1) ← test_step "command" "PlaceOrderCommand"
    (place_step ctx "test-qce-user" [test_item "monitor" "Monitor" 1]
       (fun p => placed_text p +:+ " (traceID=" +:+ traceID +:+ ")"));
  _ ← sleep (milliseconds 200);
  s2 ← note_step "event" "OrderPlacedEvent (auto-dispatched)"
    "triggered by PlaceOrderCommand, handled by NotificationHandler + InventoryHandler → ReserveInventoryCommand";
  s3 ← verify_step ctx orderID "pending";
  s4 ← command_step "ConfirmPaymentCommand" (ConfirmPaymentCommand ctx orderID);
  _ ← sleep (milliseconds 100);
  s5 ← note_step "event" "PaymentConfirmedEvent (auto-dispatched)" "triggered by ConfirmPaymentCommand";
  s6 ← verify_step ctx orderID "paid";
  s7 ← command_step "ShipOrderCommand" (ShipOrderCommand ctx orderID);
  _ ← sleep (milliseconds 100);
  s8 ← note_step "event" "OrderShippedEvent (auto-dispatched)" "triggered by ShipOrderCommand";
  s9 ← verify_step ctx orderID "shipped";
  s10 ← plain_step "query" "GetInventoryQuery (verify stock deducted)"
    (r ← GetInventoryQuery ctx;
     match r.2 with
     | Some e => mret (Err e)
     | None => ps ← deref r.1; mret (Ok (stock_text ps))
     end);
  mret [s1; s2; s3; s4; s5; s6; s7; s8; s9; s10].
Definition http_TestQCE : shop_request -> GoM W shop_response := test_page "Test QCE Full Lifecycle" qce_steps.

(** ** The test of the jobs *)

Definition ten_seconds : Z := 10 * second.

Definition job_text (j : Job message) : string := "jobID=" +:+ Job.id j +:+ " status=" +:+ status_String (Job.status j).

(** [if job.GetStatus() != s { return "", fmt.Errorf(...) }] *)
Definition expect_status (s : JobStatus) (what : string) (j : Job message) (detail : string) : result string :=
  if bool_decide (Job.status j <> s) then Err (ENew ("expected " +:+ what +:+ ", got " +:+ status_String (Job.status j)))
  else Ok detail.

(** Submit a report, wait for it and look at its status; [must_end] is whether the error of [Wait] counts. *)
Definition report_and_wait (ctx : context) (orderID : string) (opts : list JobOption) (must_end : bool)
    (check : Job message -> result string) : GoM W (result string) :=
  try (jm_Submit (JobManager app) ctx (MGenerateReport orderID) opts) (fun job =>
    waited ← jm_Wait (JobManager app) ctx (Job.id job) ten_seconds;
    match waited, must_end with
    | Err e, true => mret (Err e)
    | _, _ => try (jm_GetStatus (JobManager app) ctx (Job.id job)) (fun job => mret (check job))
    end).

Definition http_TestJob : shop_request -> GoM W shop_response := test_page "Test Job Lifecycle" (fun _ ctx =>
  '(orderID, s1) ← test_step "job" "PlaceOrder (setup)"
    (place_step ctx "test-job-user" [mkInput "laptop" "Laptop" (float_of_int 999) 1] placed_text);
  _ ← sleep (milliseconds 100);
  s2 ← plain_step "job" "SubmitJob → Complete"
    (report_and_wait ctx orderID [] true (fun j => expect_status JobStatusCompleted "completed" j (job_text j)));
  s3 ← plain_step "job" "SubmitJob → Timeout"
    (report_and_wait ctx orderID [Job.WithTimeout (milliseconds 1)] false
       (fun j => expect_status JobStatusFailed "failed (timeout)" j (job_text j +:+ " (timeout triggered)")));
  s4 ← plain_step "job" "SubmitJob → Cancel"
    (try (jm_Submit (JobManager app) ctx (MGenerateReport orderID) []) (fun job =>
       try_error (jm_Cancel (JobManager app) ctx (Job.id job))
         (try (jm_GetStatus (JobManager app) ctx (Job.id job)) (fun j =>
            mret (expect_status JobStatusCancelled "cancelled" j (job_text j))))));
  s5 ← plain_step "job" "SubmitJob → Fail → Retry (success)"
    (report_and_wait ctx orderID [Job.WithTimeout (milliseconds 1)] false
       (fun j => expect_status JobStatusFailed "failed (before retry)" j
          ("beforeRetry: status=" +:+ status_String (Job.status j) +:+ " error=" +:+ Job.err j)));
  s6 ← plain_step "job" "ListJobsByStatus"
    (let list_by s := jm_ListByStatus (JobManager app) ctx (status_String s) in
     try (list_by JobStatusCompleted) (fun completed =>
     try (list_by JobStatusFailed) (fun failed =>
     try (list_by JobStatusCancelled) (fun cancelled =>
       mret (Ok ("completed=" +:+ pretty (zlen completed) +:+ " failed=" +:+ pretty (zlen failed) +:+
                 " cancelled=" +:+ pretty (zlen cancelled)))))));
  mret [s1; s2; s3; s4; s5; s6]).

(** ** The handlers of the administrator *)

(** What both check first. *)
Definition admin_only (r : shop_request) (h : GoM W shop_response) : GoM W shop_response :=
  if bool_decide (sr_Method r <> "POST") then mret (ShopError "method not allowed" StatusMethodNotAllowed)
  else if negb (TestMode app) then mret (ShopError "test mode not enabled" StatusForbidden)
  else h.
Definition with_db (h : ShopDB W -> GoM W shop_response) : GoM W shop_response :=
  match DB app with
  | None => mret (ShopError "database not available" StatusServiceUnavailable)
  | Some db => h db
  end.

Definition json_quoted (s : string) : string :=
  let quote := String (Ascii.ascii_of_nat 34) EmptyString in quote +:+ s +:+ quote.
Definition json_pair (k v : string) : string := "{" +:+ json_quoted k +:+ ":" +:+ json_quoted v +:+ "}".

Definition http_AdminReset (r : shop_request) : GoM W shop_response := admin_only r (with_db (fun db =>
  err ← db_TruncateAll db;
  match err with
  | Some e => mret (ShopError ("truncate failed: " +:+ Error e) StatusInternalServerError)
  | None =>
      err ← SeedProducts (db_products db) DefaultProducts;
      mret (match err with
            | Some e => ShopError ("seed products failed: " +:+ Error e) StatusInternalServerError
            | None => WriteBody (json_pair "status" "ok")
            end)
  end)).

(** [uuid.UUID.String] of the digits: groups of 8, 4, 4, 4 and 12. *)
Definition uuid_String (hex : string) : string :=
  str_join "-" [String.substring 0 8 hex; String.substring 8 4 hex; String.substring 12 4 hex;
                String.substring 16 4 hex; String.substring 20 12 hex].

Definition http_TestSeedJob (r : shop_request) : GoM W shop_response := admin_only r (
  let status := sr_status r in
  if bool_decide (status <> "running") && bool_decide (status <> "failed") then
    mret (ShopError "status must be 'running' or 'failed'" StatusBadRequest)
  else with_db (fun db =>
    hex ← new_uuid;
    let jobID := uuid_String hex in
    now ← time_now;
    err ← db_insert_job db jobID status now (if bool_decide (status = "failed") then Some now else None);
    mret (match err with
          | Some e => ShopError ("insert job failed: " +:+ Error e) StatusInternalServerError
          | None => WriteBody (json_pair "jobId" jobID)
          end))).

(** ** Routes ([server.go]) *)

(** The patterns that [NewServer] registers, in order, before those of the viewer. No pattern leads to
    [InventoryManage], [TestJob], [AdminReset] and [TestSeedJob]. *)
Definition shop_routes : list (string * (shop_request -> GoM W shop_response)) :=
  [("/", http_Dashboard);
   ("GET /orders", http_ListOrders);
   ("GET /orders/new", http_NewOrderForm);
   ("POST /orders", http_PlaceOrder);
   ("GET /orders/{id}", http_OrderDetail);
   ("POST /orders/{id}/confirm", http_ConfirmPayment);
   ("POST /orders/{id}/ship", http_ShipOrder);
   ("POST /orders/{id}/cancel", http_CancelOrder);
   ("POST /orders/{id}/delete", http_DeleteOrder);
   ("GET /orders/{id}/events", http_OrderEvents);
   ("GET /inventory", http_Inventory);
   ("GET /jobs", http_ListJobs);
   ("POST /jobs", http_SubmitJob);
   ("POST /jobs/{id}/cancel", http_CancelJob);
   ("POST /jobs/{id}/retry", http_RetryJob);
   ("GET /traces", http_ListTraces);
   ("POST /test/query", http_TestQuery);
   ("POST /test/command", http_TestCommand);
   ("POST /test/event", http_TestEvent);
   ("POST /test/qce", http_TestQCE)].
End Shop.

(** ** Specification: the pages of an order over the life cycle of orders

    A page is refused for its form, or makes one request of the order service. *)
Inductive shop_op :=
| SPlace (r : shop_request)
| SConfirm (r : shop_request)
| SShip (r : shop_request)
| SCancel (r : shop_request)
| SDelete (r : shop_request)
| SDetail (r : shop_request).

Definition order_request (ps : list Product) (op : shop_op) : shop_response + order_op :=
  match op with
  | SPlace r =>
      match sr_form_error r with
      | Some e => inl (http_error e StatusBadRequest)
      | None =>
          if bool_decide (form_items r ps = []) then inl (ShopError "at least one item required" StatusBadRequest)
          else inr (OPlace (FormValue r "user_id") (form_items r ps))
      end
  | SConfirm r => inr (OConfirm (sr_id r))
  | SShip r => inr (OShip (sr_id r))
  | SCancel r => inr (OCancel (sr_id r) (FormValue r "reason"))
  | SDelete r => inr (ODelete (sr_id r))
  | SDetail r => inr (OGet (sr_id r))
  end.

Definition answer_page (op : shop_op) (out : order_out) : shop_response :=
  match op, out with
  | SPlace _, Placed p => Redirect ("/orders/" +:+ pr_OrderID p) StatusSeeOther
  | SPlace _, Failed e => http_error e StatusInternalServerError
  | (SConfirm r | SShip r | SCancel r), Succeeded => Redirect ("/orders/" +:+ sr_id r) StatusSeeOther
  | (SConfirm _ | SShip _ | SCancel _), Failed e => http_error e StatusBadRequest
  | SDelete _, Succeeded => Redirect "/orders" StatusSeeOther
  | SDetail _, Shown v => Render "order_detail" (POrderDetail (Some v))
  | (SDelete _ | SDetail _), Failed e => http_error e StatusNotFound
  | _, _ => ShopError "" 0
  end.

Definition outcome_map {A B} (f : A -> B) (o : outcome A) : outcome B :=
  match o with Done a => Done (f a) | Panicked s => Panicked s end.

Definition spec_page (fresh : string) (ps : list Product) (op : shop_op) (m : gmap string life) :
    outcome shop_response * gmap string life :=
  match order_request ps op with
  | inl resp => (Done resp, m)
  | inr o => let '(out, m) := spec_op fresh o m in (outcome_map (answer_page op) out, m)
  end.

Fixpoint spec_pages (fresh : list string) (ps : list Product) (ops : list shop_op) (m : gmap string life) :
    list (outcome shop_response) * gmap string life :=
  match ops, fresh with
  | op :: ops, i :: fresh =>
      let '(out, m) := spec_page i ps op m in let '(outs, m) := spec_pages fresh ps ops m in (out :: outs, m)
  | _, _ => ([], m)
  end.

(** A response but for the times that it shows. *)
Definition untimed_response (resp : shop_response) : shop_response :=
  match resp with
  | Render name (POrderDetail v) => Render name (POrderDetail (option_map untimed v))
  | _ => resp
  end.

Section Session.
Context {W : Type} `{!Has Inventory W, !Clock W, !IdGen W, !MapRange} (app : ShopApp W).

Definition run_page (op : shop_op) : GoM W shop_response :=
  match op with
  | SPlace r => http_PlaceOrder app r
  | SConfirm r => http_ConfirmPayment app r
  | SShip r => http_ShipOrder app r
  | SCancel r => http_CancelOrder app r
  | SDelete r => http_DeleteOrder app r
  | SDetail r => http_OrderDetail app r
  end.

(** A panic ends only its request. *)
Fixpoint run_pages (ops : list shop_op) (w : W) : list (outcome shop_response) * W :=
  match ops with
  | [] => ([], w)
  | op :: ops =>
      let '(out, w) := run_page op w in let '(outs, w) := run_pages ops w in (outcome_map untimed_response out :: outs, w)
  end.
End Session.

(** *** What the pages rely on

    A bus delivers the code of the messages: what it does before and after the code touches no order, the
    outcome is the code's, panics included, and it stays [up]. *)
Section Delivery.
Context {W : Type} `{!Has OrderState W} (up : W -> Prop).

Definition delivers (exec : context -> message -> GoM W (message * error))
    (code : message -> option (context -> GoM W (message * error))) : Prop :=
  forall ctx m run w, code m = Some run -> up w ->
  exists ctx' w1 w3, part w1 = part (S := OrderState) w /\ exec ctx m w = ((run ctx' w1).1, w3) /\
    part w3 = part (S := OrderState) (run ctx' w1).2 /\ up w3.

(** The messages that the pages of the shop send. *)
Definition of_pages (code : message -> option (context -> GoM W (message * error))) (m : message) :=
  match m with
  | MPlaceOrder _ _ | MConfirmPayment _ | MShipOrder _ | MCancelOrder _ _
  | MGetOrder _ | MListOrders | MGetInventory => code m
  | _ => None
  end.

(** What a typed dispatch makes of the outcome of a handler. *)
Definition dispatched {A} (o : outcome (result A)) : outcome (option A * error) :=
  match o with
  | Done (Ok a) => Done (Some a, None)
  | Done (Err e) => Done (None, Some e)
  | Panicked s => Panicked s
  end.

(** A handler's result type, as the typed dispatch sees it. *)
Definition shows {A} (T : Typed message (option A)) (result_of : option A -> message) : Prop :=
  zero = None /\ forall p, is_Some (type_of (result_of p)) /\ cast (result_of p) = Some p.

Lemma dispatch_reply {A} (T : Typed message (option A)) who exec code ctx m result_of
    (h : context -> GoM W (result A)) w :
  shows T result_of -> delivers exec code -> code m = Some (fun ctx => reply result_of (h ctx)) -> up w ->
  exists ctx' w1 w3, part w1 = part (S := OrderState) w /\
    Dispatch who exec ctx m w = (dispatched (h ctx' w1).1, w3) /\
    part w3 = part (S := OrderState) (h ctx' w1).2 /\ up w3.
Proof.
  intros [Hz Hs] Hd Hc Hup. destruct (Hd ctx m _ w Hc Hup) as (ctx' & w1 & w3 & H1 & H2 & H3 & H4).
  exists ctx', w1, w3. split; [done|]. unfold Dispatch, reply in *. unfold_go. rewrite H2. clear H2.
  destruct (h ctx' w1) as [[[a|e]|s] w2]; cbn [fst snd dispatched] in *; rewrite ?Hz; [|done..].
  cbv beta iota. unfold typeAssert. destruct (Hs (Some a)) as [[t Ht] Hcast]. by rewrite Ht, Hcast.
Qed.

Lemma dispatch_reply_ok {A} (T : Typed message (option A)) who exec code ctx m result_of a
    (h : context -> GoM W error) w :
  shows T result_of -> delivers exec code -> code m = Some (fun ctx => reply_ok result_of a (h ctx)) -> up w ->
  exists ctx' w1 w3, part w1 = part (S := OrderState) w /\
    Dispatch who exec ctx m w =
      (dispatched (outcome_map (fun e => match e with None => Ok a | Some e => Err e end) (h ctx' w1).1), w3) /\
    part w3 = part (S := OrderState) (h ctx' w1).2 /\ up w3.
Proof.
  intros [Hz Hs] Hd Hc Hup. destruct (Hd ctx m _ w Hc Hup) as (ctx' & w1 & w3 & H1 & H2 & H3 & H4).
  exists ctx', w1, w3. split; [done|]. unfold Dispatch, reply_ok in *. unfold_go. rewrite H2. clear H2.
  destruct (h ctx' w1) as [[[e|]|s] w2]; cbn [fst snd dispatched outcome_map] in *; rewrite ?Hz; [done| |done].
  cbv beta iota. unfold typeAssert. destruct (Hs (Some a)) as [[t Ht] Hcast]. by rewrite Ht, Hcast.
Qed.
End Delivery.

Section PageLemmas.
Context {W : Type} `{!Has OrderState W, !HasLaws OrderState W, !Has Inventory W, !HasLaws Inventory W}.
Context `{!Clock W, !IdGen W, !MapRange} (app : ShopApp W) (format_rfc3339 : Z -> string).
Context (await : context -> Z -> GoM W error) (publish : context -> domain_event -> GoM W error).
Context (up : W -> Prop) (ps : list Product).
Context (time_quiet : quiet (S := OrderState) (W := W) time_now) (uuid_quiet : quiet (S := OrderState) (W := W) new_uuid).
Context (Hcmd : delivers up (CmdBus_Execute app) (of_pages (command_code format_rfc3339 await OrderRepository publish))).
Context (Hqry : delivers up (QueryBus_Execute app) (of_pages (query_code format_rfc3339 OrderRepository))).
Context (Hrepo : OrderRepo app = OrderRepository) (Hps : forall w, up w -> GetAll (part w) = ps).
Context (Hup : forall (s : OrderState) w, up w -> up (set_part s w)).

(** A page does what the specification says. *)
Definition page_ok (op : shop_op) (w : W) : Prop :=
  exists id out w', run_page app op w = (out, w') /\ up w' /\ state_ok (part w') /\
    (outcome_map untimed_response out, lives (part w')) = spec_page id ps op (lives (part w)).

Lemma edit_ok (T : Typed message (option bool)) result_of (m : message) (handle : context -> string -> GoM W error)
    (op : shop_op) (o : order_op) (r : shop_request) w :
  shows T result_of -> up w -> state_ok (part w) ->
  of_pages (command_code format_rfc3339 await OrderRepository publish) m =
    Some (fun ctx => reply_ok result_of true (handle ctx (sr_id r))) ->
  (forall ctx, run_op format_rfc3339 ctx o = (err ← handle ctx (sr_id r); mret (outcome_of err))) ->
  run_page app op = edit_page (fun ctx _ => CommandDispatch (Typed0 := T) (CmdBus_Execute app) ctx m) r ->
  order_request ps op = inr o ->
  (op = SConfirm r \/ op = SShip r \/ op = SCancel r) ->
  page_ok op w.
Proof.
  intros HT Hw Hok Hcode Hrun Hpage Hreq Hop. unfold page_ok, spec_page. rewrite Hpage, Hreq.
  unfold edit_page, CommandDispatch.
  destruct (dispatch_reply_ok up T "command Dispatch: result type mismatch for command " (CmdBus_Execute app) _ (sr_ctx r)
    m result_of true (fun ctx => handle ctx (sr_id r)) w HT Hcmd Hcode Hw) as (ctx' & w1 & w3 & H1 & H2 & H3 & H4).
  rewrite <- H1 in Hok |- *. destruct (run_op_ok time_quiet uuid_quiet format_rfc3339 ctx' o w1 Hok) as (id & out & w2 & Hr & Hok2 & Hspec).
  rewrite Hrun in Hr. unfold_go. rewrite H2. clear H2. exists id. rewrite <- Hspec. clear Hspec Hrun Hpage Hreq Hcode.
  destruct (handle ctx' (sr_id r) w1) as [[[e|]|s] w2'] eqn:Hh; cbn in Hr; injection Hr as <- <-;
    cbn [fst snd outcome_map dispatched] in *; eexists _, w3; (split; [reflexivity|]); (split; [done|]);
    rewrite H3; (split; [done|]);
    destruct Hop as [->|[->| ->]]; done.
Qed.

Lemma place_page_ok r w : up w -> state_ok (part w) -> page_ok (SPlace r) w.
Proof.
  intros Hw Hok. unfold page_ok, spec_page. cbn [run_page order_request]. unfold http_PlaceOrder.
  destruct (sr_form_error r) as [e|]; [by exists "", (Done (http_error e StatusBadRequest)), w|].
  unfold_go. rewrite on_part_run. cbn [fst snd]. rewrite set_get, (Hps w Hw).
  destruct (decide (form_items r ps = [])) as [Hi|Hi].
  { rewrite !bool_decide_eq_true_2 by done. by exists "", (Done (ShopError "at least one item required" StatusBadRequest)), w. }
  rewrite !bool_decide_eq_false_2 by done. unfold PlaceOrderCommand, CommandDispatch.
  set (h := fun ctx => PlaceOrder_Handle (W := W) OrderRepository ctx (FormValue r "user_id") (form_items r ps)).
  edestruct (dispatch_reply up typed_placed "command Dispatch: result type mismatch for command " (CmdBus_Execute app)
    (of_pages (command_code format_rfc3339 await OrderRepository publish)) (sr_ctx r) (MPlaceOrder (FormValue r "user_id") (form_items r ps)) RPlaceOrder h w) as (ctx' & w1 & w3 & H1 & H2 & H3 & H4);
    [by split; [|intros p; split; [eexists|]]|exact Hcmd|done|done|].
  rewrite <- H1 in Hok |- *.
  destruct (run_op_ok time_quiet uuid_quiet format_rfc3339 ctx' (OPlace (FormValue r "user_id") (form_items r ps)) w1 Hok)
    as (id & out & w2 & Hr & Hok2 & Hspec).
  cbn [run_op] in Hr. fold (h ctx') in Hr. rewrite H2. clear H2. exists id. rewrite <- Hspec. clear Hspec. unfold_go.
  destruct (h ctx' w1) as [[[p|e]|s] w2'] eqn:Hh; cbn in Hr; injection Hr as <- <-;
    cbn [fst snd outcome_map dispatched deref] in *; eexists _, w3; (split; [reflexivity|]); (split; [done|]);
    by rewrite H3.
Qed.

Lemma detail_page_ok r w : up w -> state_ok (part w) -> page_ok (SDetail r) w.
Proof.
  intros Hw Hok. unfold page_ok, spec_page. cbn [run_page order_request]. unfold http_OrderDetail, GetOrderQuery, QueryDispatch.
  set (h := fun ctx => GetOrder_Handle (W := W) OrderRepository format_rfc3339 ctx (sr_id r)).
  edestruct (dispatch_reply up typed_order "query Dispatch: result type mismatch for query " (QueryBus_Execute app)
    (of_pages (query_code format_rfc3339 OrderRepository)) (sr_ctx r) (MGetOrder (sr_id r)) RGetOrder h w) as (ctx' & w1 & w3 & H1 & H2 & H3 & H4);
    [by split; [|intros p; split; [eexists|]]|exact Hqry|done|done|].
  rewrite <- H1 in Hok |- *.
  destruct (run_op_ok time_quiet uuid_quiet format_rfc3339 ctx' (OGet (sr_id r)) w1 Hok) as (id & out & w2 & Hr & Hok2 & Hspec).
  cbn [run_op] in Hr. fold (h ctx') in Hr. unfold_go. rewrite H2. clear H2. exists id. rewrite <- Hspec. clear Hspec.
  destruct (h ctx' w1) as [[[p|e]|s] w2'] eqn:Hh; cbn in Hr; injection Hr as <- <-;
    cbn [fst snd outcome_map dispatched] in *; eexists _, w3; (split; [reflexivity|]); (split; [done|]);
    by rewrite H3.
Qed.

Lemma delete_page_ok r w : up w -> state_ok (part w) -> page_ok (SDelete r) w.
Proof.
  intros Hw Hok. unfold page_ok, spec_page. cbn [run_page order_request]. unfold http_DeleteOrder. rewrite Hrepo.
  destruct (run_op_ok time_quiet uuid_quiet format_rfc3339 (sr_ctx r) (ODelete (sr_id r)) w Hok) as (id & out & w2 & Hr & Hok2 & Hspec).
  assert (up w2) as Hw2.
  { revert Hr. cbn [run_op]. unfold OrderRepository, repo_Delete, get_state, put_state. cbn [Order.Delete]. unfold_go.
    destruct (orders (part w) !! sr_id r); intros [= _ <-]; auto. }
  exists id. rewrite <- Hspec. clear Hspec. cbn [run_op] in Hr. unfold_go.
  destruct (Order.Delete OrderRepository (sr_ctx r) (sr_id r) w) as [[[e|]|s] w2'] eqn:Hh; cbn in Hr; injection Hr as <- <-;
    eexists _, w2'; (split; [reflexivity|]); by split_and!.
Qed.

Lemma run_page_ok op w : up w -> state_ok (part w) -> page_ok op w.
Proof.
  intros Hw Hok. destruct op as [r|r|r|r|r|r].
  - by apply place_page_ok.
  - eapply (edit_ok typed_confirmed RConfirmPayment (MConfirmPayment (sr_id r)) (ConfirmPayment_Handle OrderRepository)); try done; [intros; reflexivity|auto].
  - eapply (edit_ok typed_shipped RShipOrder (MShipOrder (sr_id r)) (ShipOrder_Handle OrderRepository)); try done; [intros; reflexivity|auto].
  - eapply (edit_ok typed_cancelled RCancelOrder (MCancelOrder (sr_id r) (FormValue r "reason"))
      (fun ctx id => CancelOrder_Handle OrderRepository ctx id (FormValue r "reason"))); try done; [intros; reflexivity|auto].
  - by apply delete_page_ok.
  - by apply detail_page_ok.
Qed.

Lemma run_pages_ok ops w : up w -> state_ok (part w) ->
  exists fresh, length fresh = length ops /\
    ((run_pages app ops w).1, lives (part (run_pages app ops w).2)) = spec_pages fresh ps ops (lives (part w)).
Proof.
  revert w. induction ops as [|op ops IH]; intros w Hw Hok; [by exists []|]. cbn [run_pages].
  destruct (run_page_ok op w Hw Hok) as (id & out & w1 & -> & Hw1 & Hok1 & Hspec).
  destruct (IH w1 Hw1 Hok1) as (fresh & Hlen & Hspecs). exists (id :: fresh).
  destruct (run_pages app ops w1) as [outs w2] eqn:Hrun. cbn [fst snd] in *. split; [cbn; by f_equal|].
  cbn [spec_pages]. by rewrite <- Hspec, <- Hspecs.
Qed.
End PageLemmas.

(** ** The life cycle test

    Calls in terms of the lives of the orders: from the lives [L], the call returns, and [Q] holds of what it
    returns and of the lives that it leaves. *)
Section Triples.
Context {W : Type} `{!Has OrderState W} (up : W -> Prop).

Definition triple {A} (L : gmap string life) (m : GoM W A) (Q : A -> gmap string life -> Prop) : Prop := forall w,
  up w -> state_ok (part w) -> lives (part w) = L ->
  exists a w', m w = (Done a, w') /\ up w' /\ state_ok (part w') /\ Q a (lives (part w')).

(** A call that returns and has nothing to do with orders. *)
Definition idle {A} (m : GoM W A) (Q : A -> Prop) : Prop := forall w, up w ->
  exists a w', m w = (Done a, w') /\ part w' = part (S := OrderState) w /\ up w' /\ Q a.

Lemma triple_ret {A} L (a : A) (Q : A -> gmap string life -> Prop) : Q a L -> triple L (mret a) Q.
Proof. intros HQ w Hw Hok HL. exists a, w. by rewrite HL. Qed.

Lemma triple_bind {A B} L (m : GoM W A) (f : A -> GoM W B) Q R :
  triple L m Q -> (forall a L', Q a L' -> triple L' (f a) R) -> triple L (m ≫= f) R.
Proof.
  intros Hm Hf w Hw Hok HL. destruct (Hm w Hw Hok HL) as (a & w1 & H1 & Hw1 & Hok1 & HQ).
  destruct (Hf a _ HQ w1 Hw1 Hok1 eq_refl) as (b & w2 & H2 & H3). exists b, w2. unfold mbind, go_bind. by rewrite H1.
Qed.

Lemma triple_idle {A} L (m : GoM W A) (P : A -> Prop) : idle m P -> triple L m (fun a L' => P a /\ L' = L).
Proof.
  intros Hm w Hw Hok HL. destruct (Hm w Hw) as (a & w1 & H1 & H2 & H3 & H4). exists a, w1. by rewrite H2.
Qed.

Lemma triple_weaken {A} L (m : GoM W A) (Q R : A -> gmap string life -> Prop) :
  triple L m Q -> (forall a L', Q a L' -> R a L') -> triple L m R.
Proof.
  intros Hm Hw w H1 H2 H3. destruct (Hm w H1 H2 H3) as (a & w' & H4 & H5 & H6 & H7).
  exists a, w'. split_and!; auto.
Qed.
End Triples.

Section LifecycleTest.
Context {W : Type} `{!Has OrderState W, !HasLaws OrderState W, !Has Inventory W, !HasLaws Inventory W}.
Context `{!Clock W, !IdGen W, !MapRange} (app : ShopApp W) (fmt : Z -> string).
Context (format_2f : float64 -> string) (duration_String : Z -> string) (sleep : Z -> GoM W unit).
Context (await : context -> Z -> GoM W error) (publish : context -> domain_event -> GoM W error) (up : W -> Prop).
Context (time_idle : idle up time_now (fun _ => True)) (uuid_idle : idle up new_uuid (fun _ => True)).
Context (uuid_nonempty : forall w : W, (new_uuid w).1 <> Done "").
Context (sleep_idle : forall d, idle up (sleep d) (fun _ => True)).
Context (time_quiet : quiet (S := OrderState) (W := W) time_now) (uuid_quiet : quiet (S := OrderState) (W := W) new_uuid).
Context (Hcmd : delivers up (CmdBus_Execute app) (of_pages (command_code fmt await OrderRepository publish))).
Context (Hqry : delivers up (QueryBus_Execute app) (of_pages (query_code fmt OrderRepository))).
Abbreviation triple := (triple up).

(** A successful edit, as its typed dispatch returns it. *)
Lemma edit_triple (T : Typed message (option bool)) result_of m (handle : context -> GoM W error) o ctx (L L' : gmap string life) :
  shows T result_of ->
  of_pages (command_code fmt await OrderRepository publish) m = Some (fun ctx => reply_ok result_of true (handle ctx)) ->
  (forall ctx, run_op fmt ctx o = (err ← handle ctx; mret (outcome_of err))) ->
  (forall id, spec_op id o L = (Done Succeeded, L')) ->
  triple L (CommandDispatch (Typed0 := T) (CmdBus_Execute app) ctx m) (fun r L1 => r = (Some true, None) /\ L1 = L').
Proof.
  intros HT Hcode Hrun Hspec w Hw Hok HL. unfold CommandDispatch.
  destruct (dispatch_reply_ok up T "command Dispatch: result type mismatch for command " (CmdBus_Execute app) _ ctx
    m result_of true handle w HT Hcmd Hcode Hw) as (ctx' & w1 & w3 & H1 & H2 & H3 & H4).
  rewrite <- H1 in Hok, HL. destruct (run_op_ok time_quiet uuid_quiet fmt ctx' o w1 Hok) as (id & out & w2 & Hr & Hok2 & Hs).
  rewrite HL, Hspec in Hs. injection Hs as -> HL2. rewrite Hrun in Hr. unfold_go. rewrite H2. clear H2.
  destruct (handle ctx' w1) as [[[e|]|s] w2']; cbn in Hr; [by injection Hr| |done].
  injection Hr as ->. exists (Some true, None), w3. cbn [fst snd outcome_map dispatched] in *. rewrite H3. by split_and!.
Qed.

Lemma place_triple ctx user items (L : gmap string life) :
  user <> "" -> items <> [] -> existsb (fun i => bool_decide (in_ProductID i = "")) items = false ->
  triple L (PlaceOrderCommand app ctx user items) (fun r L1 => exists id, id <> "" /\
    r = (Some (mkPlaced id (spec_total items)), None) /\
    L1 = <[id := mkLife user (map spec_item items) (Some OrderStatusPending) (spec_total items) ""]> L).
Proof.
  intros Hu Hi Hids w Hw Hok HL. unfold PlaceOrderCommand, CommandDispatch.
  set (h := fun ctx => PlaceOrder_Handle (W := W) OrderRepository ctx user items).
  destruct (Hcmd ctx (MPlaceOrder user items) (fun ctx => reply RPlaceOrder (h ctx)) w eq_refl Hw)
    as (ctx' & w1 & w3 & H1 & H2 & H3 & H4).
  rewrite <- H1 in Hok, HL.
  destruct (place_fresh time_quiet uuid_quiet fmt ctx' user items w1 Hok) as (id & out & w2 & Hr & Hok2 & Hs & Hfresh).
  specialize (Hfresh Hids). assert (id <> "") as Hne by (intros ->; by apply (uuid_nonempty w1)).
  cbn [run_op spec_op] in Hr, Hs. fold (h ctx') in Hr.
  rewrite Hids, !bool_decide_eq_false_2 in Hs by done. injection Hs as -> HL2.
  unfold Dispatch, reply in *. unfold_go. rewrite H2. clear H2.
  destruct (h ctx' w1) as [[[p|e]|s] w2']; cbn in Hr; [|by injection Hr|done].
  injection Hr as -> ->. eexists _, w3. cbn [fst snd] in *. split; [reflexivity|]. rewrite H3, HL2, HL.
  split_and!; [done|done|]. by exists id.
Qed.

(** A query for an order, and for the inventory. *)
Lemma get_triple ctx id (L : gmap string life) l : L !! id = Some l ->
  triple L (GetOrderQuery app ctx id) (fun r L1 => (exists v, r = (Some v, None) /\ v_Status v = shown_status l) /\ L1 = L).
Proof.
  intros Hl w Hw Hok HL. unfold GetOrderQuery, QueryDispatch.
  set (h := fun ctx => GetOrder_Handle (W := W) OrderRepository fmt ctx id).
  edestruct (dispatch_reply up typed_order "query Dispatch: result type mismatch for query " (QueryBus_Execute app)
    (of_pages (query_code fmt OrderRepository)) ctx (MGetOrder id) RGetOrder h w) as (ctx' & w1 & w3 & H1 & H2 & H3 & H4);
    [by split; [|intros p; split; [eexists|]]|exact Hqry|done|done|].
  rewrite <- H1 in Hok, HL. destruct (run_op_ok time_quiet uuid_quiet fmt ctx' (OGet id) w1 Hok) as (id' & out & w2 & Hr & Hok2 & Hs).
  cbn [run_op spec_op] in Hr, Hs. fold (h ctx') in Hr. rewrite HL, Hl in Hs. injection Hs as -> HL2. unfold_go. rewrite H2. clear H2.
  destruct (h ctx' w1) as [[[v|e]|s] w2']; cbn in Hr; [|by injection Hr|done].
  pose proof (f_equal (fun x => match x.1 with Done (Shown v) => v_Status v | _ => "" end) Hr) as Hv.
  apply (f_equal snd) in Hr. cbn in Hr, Hv. subst w2'.
  eexists _, w3. cbn [fst snd dispatched] in *. split; [reflexivity|]. rewrite H3, HL2. split_and!; [done|done| |done].
  by exists v.
Qed.

Lemma inventory_triple ctx (L : gmap string life) :
  triple L (GetInventoryQuery app ctx) (fun r L1 => (exists ps, r = (Some ps, None)) /\ L1 = L).
Proof.
  intros w Hw Hok HL. unfold GetInventoryQuery, QueryDispatch.
  edestruct (dispatch_reply up typed_inventory "query Dispatch: result type mismatch for query " (QueryBus_Execute app)
    (of_pages (query_code fmt OrderRepository)) ctx MGetInventory RGetInventory
    (fun ctx => r ← GetInventory_Handle ctx; mret (Ok r)) w) as (ctx' & w1 & w3 & H1 & H2 & H3 & H4);
    [by split; [|intros p; split; [eexists|]]|exact Hqry|done|done|].
  rewrite H2. unfold GetInventory_Handle, mbind, go_bind in *. rewrite on_part_run in *. cbn [fst snd] in *.
  rewrite set_get in H3. cbn in *. eexists _, w3. rewrite H3, H1. split; [reflexivity|]. split_and!; eauto.
Qed.

(** Steps that succeed. *)
Lemma step_triple {A} typ name (fn : GoM W (A * result string)) (L : gmap string life) (Q : A -> gmap string life -> Prop) :
  triple L fn (fun r L1 => (exists d, r.2 = Ok d) /\ Q r.1 L1) ->
  triple L (test_step duration_String typ name fn) (fun r L1 => ts_Success r.2 = true /\ Q r.1 L1).
Proof.
  intros Hfn. unfold test_step. eapply triple_bind; [by apply triple_idle, time_idle|]. intros s L1 [_ ->].
  eapply triple_bind; [exact Hfn|]. intros [a r] L2 [[d Hd] HQ]. cbn in *. subst r.
  eapply triple_bind; [by apply triple_idle, time_idle|]. intros t L3 [_ ->]. by apply triple_ret.
Qed.

Lemma plain_step_triple typ name (fn : GoM W (result string)) (L L' : gmap string life) :
  triple L fn (fun r L1 => (exists d, r = Ok d) /\ L1 = L') ->
  triple L (plain_step duration_String typ name fn) (fun s L1 => ts_Success s = true /\ L1 = L').
Proof.
  intros Hfn. unfold plain_step. eapply triple_bind.
  - apply (step_triple typ name _ L (fun _ L1 => L1 = L')). eapply triple_bind; [exact Hfn|].
    intros r L1 [Hr ->]. by apply triple_ret.
  - intros [a s] L1 [Hs ->]. by apply triple_ret.
Qed.

Lemma command_step_triple name (command : GoM W (option bool * error)) (L L' : gmap string life) :
  triple L command (fun r L1 => r = (Some true, None) /\ L1 = L') ->
  triple L (command_step duration_String name command) (fun s L1 => ts_Success s = true /\ L1 = L').
Proof.
  intros Hc. apply plain_step_triple. eapply triple_bind; [exact Hc|]. intros r L1 [-> ->]. apply triple_ret. eauto.
Qed.

Lemma verify_triple ctx id expected (L : gmap string life) l : L !! id = Some l -> shown_status l = expected ->
  triple L (verify_step app duration_String ctx id expected) (fun s L1 => ts_Success s = true /\ L1 = L).
Proof.
  intros Hl He. apply plain_step_triple. eapply triple_bind; [by apply get_triple|].
  intros r L1 [(v & -> & Hv) ->]. apply triple_ret. cbn. rewrite bool_decide_eq_false_2 by (rewrite Hv; auto). eauto.
Qed.

Lemma sleep_triple d (L : gmap string life) (m : GoM W (list TestStep)) Q : triple L m Q -> triple L (_ ← sleep d; m) Q.
Proof. intros Hm. eapply triple_bind; [apply triple_idle, sleep_idle|]. by intros ? ? [_ ->]. Qed.

(** The life of the order of the test, in each of its states. *)
Definition test_life (st : OrderStatus) : life :=
  mkLife "test-qce-user" (map spec_item [test_item "monitor" "Monitor" 1]) (Some st) (spec_total [test_item "monitor" "Monitor" 1]) "".

Lemma edit_spec id o op st st' (L : gmap string life) : L !! id = Some (test_life st) ->
  (op = OConfirm id \/ op = OShip id) -> spec_edit id op (test_life st) = inr (test_life st') ->
  spec_op o op L = (Done Succeeded, <[id := test_life st']> L).
Proof. intros Hl [->| ->] Hs; cbn [spec_op]; by rewrite Hl, Hs. Qed.

Lemma lifecycle_steps (traceID : string) ctx (L : gmap string life) :
  triple L (qce_steps app format_2f duration_String sleep traceID ctx)
    (fun steps L1 => length steps = 10 /\ Forall (fun s => ts_Success s = true) steps /\
       exists id, id <> "" /\ L1 = <[id := test_life OrderStatusShipped]> L).
Proof.
  unfold qce_steps. eapply triple_bind.
  { apply (step_triple _ _ _ L (fun id L1 => id <> "" /\ L1 = <[id := test_life OrderStatusPending]> L)).
    unfold place_step. eapply triple_bind; [by apply place_triple|].
    intros r L1 (id & Hid & -> & ->). cbn. apply triple_ret. cbn. eauto. }
  intros [id s1] L1 (H1 & Hid & ->). cbn [fst snd] in *. apply sleep_triple.
  set (L1 := <[id := test_life OrderStatusPending]> L).
  set (L2 := <[id := test_life OrderStatusPaid]> L1). set (L3 := <[id := test_life OrderStatusShipped]> L2).
  assert (L1 !! id = Some (test_life OrderStatusPending)) as HL1 by apply lookup_insert_eq.
  assert (L2 !! id = Some (test_life OrderStatusPaid)) as HL2 by apply lookup_insert_eq.
  assert (L3 !! id = Some (test_life OrderStatusShipped)) as HL3 by apply lookup_insert_eq.
  assert (forall typ name d L, triple L (note_step duration_String typ name d) (fun s L1 => ts_Success s = true /\ L1 = L)) as Hnote.
  { intros. apply plain_step_triple, triple_ret. eauto. }
  eapply triple_bind; [apply Hnote|]. intros s2 ? [H2 ->].
  eapply triple_bind; [by apply (verify_triple _ _ _ _ _ HL1)|]. intros s3 ? [H3 ->].
  eapply triple_bind.
  { apply command_step_triple, (edit_triple typed_confirmed RConfirmPayment _ (fun ctx => ConfirmPayment_Handle OrderRepository ctx id)
      (OConfirm id) _ _ L2); [by split; [|intros p; split; [eexists|]]|done|done|].
    intros o. apply (edit_spec id o (OConfirm id) _ OrderStatusPaid _ HL1); auto. }
  intros s4 ? [H4 ->]. apply sleep_triple.
  eapply triple_bind; [apply Hnote|]. intros s5 ? [H5 ->].
  eapply triple_bind; [by apply (verify_triple _ _ _ _ _ HL2)|]. intros s6 ? [H6 ->].
  eapply triple_bind.
  { apply command_step_triple, (edit_triple typed_shipped RShipOrder _ (fun ctx => ShipOrder_Handle OrderRepository ctx id)
      (OShip id) _ _ L3); [by split; [|intros p; split; [eexists|]]|done|done|].
    intros o. apply (edit_spec id o (OShip id) _ OrderStatusShipped _ HL2); auto. }
  intros s7 ? [H7 ->]. apply sleep_triple.
  eapply triple_bind; [apply Hnote|]. intros s8 ? [H8 ->].
  eapply triple_bind; [by apply (verify_triple _ _ _ _ _ HL3)|]. intros s9 ? [H9 ->].
  eapply triple_bind.
  { apply plain_step_triple. eapply triple_bind; [apply inventory_triple|]. intros r ? [[ps ->] ->]. cbn. apply triple_ret. eauto. }
  intros s10 ? [H10 ->]. apply triple_ret. split; [done|]. split; [by repeat constructor|]. exists id. split; [done|].
  unfold L3, L2, L1. by rewrite !insert_insert_eq.
Qed.

(** The page of the test: ten steps, all passed, one shipped order more. *)
Lemma test_qce_page r (L : gmap string life) :
  triple L (http_TestQCE app format_2f duration_String sleep r) (fun resp L1 => exists steps d id,
    resp = Render "test_result" (PTestResult "Test QCE Full Lifecycle" steps 10 10 0 d) /\
    length steps = 10 /\ Forall (fun s => ts_Success s = true) steps /\
    id <> "" /\ L1 = <[id := test_life OrderStatusShipped]> L).
Proof.
  unfold http_TestQCE, test_page. eapply triple_bind; [apply triple_idle, uuid_idle|]. intros traceID ? [_ ->].
  eapply triple_bind; [by apply triple_idle, time_idle|]. intros start ? [_ ->].
  eapply triple_bind; [apply lifecycle_steps|]. intros steps L1 (Hlen & Hall & id & Hid & ->).
  eapply triple_bind; [by apply triple_idle, time_idle|]. intros stop ? [_ ->]. apply triple_ret.
  do 10 (destruct steps as [|? steps]; [done|]). destruct steps; [|done].
  unfold renderTestResult, zlen. cbn. repeat match goal with H : Forall _ (_ :: _) |- _ => inversion_clear H end.
  repeat match goal with H : ts_Success _ = true |- _ => rewrite H end.
  eexists _, _, id. split; [reflexivity|]. split_and!; [done|by repeat constructor|done|done].
Qed.
End LifecycleTest.
