(* ===== verification/ShopWiring.v ===== *)
(** * The example application on its buses: [src/exampleapp/infrastructure/wire.go] under
      [src/exampleapp/interfaces/http]

    The buses that [Wire] wires deliver the requests of the pages of [Shop] to the handlers of [Order], so that
    the pages refine the life cycle of orders. *)

From S2P Require Import Prelude Errors Trace Aggregate Aspect Bus EventBus Builtin Relationship Order Inventory.
From S2P Require Import Wire Dashboard Shop.

(** ** The parts of the world

    Orders, inventory, and the counters of the two message buses are different parts of the world, and neither
    the clock nor the generator of identities changes one of them. *)
Section Frame.
Context {W : Type} `{HO : !Has OrderState W, HI : !Has Inventory W}.
Context (cmd_state query_state : Has BusState W).

Abbreviation orders_in := (part (Has := HO)).
Abbreviation cmd_closed w := (closed (part (Has := cmd_state) w)).
Abbreviation query_closed w := (closed (part (Has := query_state) w)).

(** What the handlers of orders leave alone, and what aspects and counters do. *)
Definition kept (w w' : W) : Prop :=
  part (Has := HI) w' = part (Has := HI) w /\ cmd_closed w' = cmd_closed w /\ query_closed w' = query_closed w.
Definition framed (w w' : W) : Prop := orders_in w' = orders_in w /\ kept w w'.

Class ShopWorld `{!Clock W, !IdGen W} : Prop := {
  now_framed : forall w, framed w (now w).2;
  id_framed : forall w, framed w (fresh_id w).2;
  cmd_flight_framed : forall d w, framed w (add_in_flight (Has0 := cmd_state) d w);
  query_flight_framed : forall d w, framed w (add_in_flight (Has0 := query_state) d w);
  orders_kept : forall s w, kept w (set_part (Has := HO) s w) }.

Lemma kept_refl w : kept w w.
Proof. done. Qed.
Lemma kept_trans w1 w2 w3 : kept w1 w2 -> kept w2 w3 -> kept w1 w3.
Proof. intros (H1 & H2 & H3) (H4 & H5 & H6). unfold kept. by rewrite H4, H5, H6. Qed.
Lemma framed_refl w : framed w w.
Proof. done. Qed.
Lemma framed_trans w1 w2 w3 : framed w1 w2 -> framed w2 w3 -> framed w1 w3.
Proof. intros [H1 H2] [H3 H4]. split; [by rewrite H3|by eapply kept_trans]. Qed.

(** A call that keeps, whatever its outcome. *)
Definition keeps {A} (m : GoM W A) : Prop := forall w, kept w (m w).2.

Lemma keeps_parts_ret {A} (a : A) : keeps (mret a).
Proof. intros w. apply kept_refl. Qed.
Lemma keeps_outcome {A} (o : outcome A) : keeps (go_outcome o).
Proof. intros w. apply kept_refl. Qed.
Lemma keeps_parts_bind {A B} (m : GoM W A) (f : A -> GoM W B) : keeps m -> (forall a, keeps (f a)) -> keeps (m ≫= f).
Proof.
  intros Hm Hf w. unfold mbind, go_bind. specialize (Hm w). destruct (m w) as [[a|s] w1]; [|done].
  eapply kept_trans; [exact Hm|apply Hf].
Qed.

Context `{!Clock W, !IdGen W, !MapRange} {HW : ShopWorld}.

Lemma keeps_now : keeps time_now.
Proof. intros w. unfold time_now. pose proof (now_framed w) as [_ Hk]. by destruct (now w). Qed.
Lemma keeps_uuid : keeps new_uuid.
Proof. intros w. unfold new_uuid. pose proof (id_framed w) as [_ Hk]. by destruct (fresh_id w). Qed.
Lemma keeps_get : keeps Order.get_state.
Proof. intros w. apply kept_refl. Qed.
Lemma keeps_put s : keeps (Order.put_state s).
Proof. intros w. apply orders_kept. Qed.
End Frame.

Create HintDb keeps.
#[export] Hint Resolve keeps_parts_ret keeps_outcome keeps_now keeps_uuid keeps_get keeps_put : keeps.

(** Follow a call down to the operations on the orders. *)
Ltac keeping :=
  repeat first [progress intros | apply keeps_parts_bind | solve [eauto 2 with keeps] | case_match].

Section Handlers.
Context {W : Type} `{HO : !Has OrderState W, HI : !Has Inventory W, !Clock W, !IdGen W, !MapRange}.
Context (cmd_state query_state : Has BusState W) {HW : ShopWorld cmd_state query_state}.
Abbreviation keeps := (keeps cmd_state query_state).

Lemma keeps_save ctx p : keeps (repo_Save (W := W) ctx p).
Proof. unfold repo_Save, load. keeping. Qed.
Lemma keeps_write p o : keeps (write (W := W) p o).
Proof. unfold write. keeping. Qed.
Lemma keeps_load p : keeps (load (W := W) p).
Proof. unfold load. keeping. Qed.
Lemma keeps_alloc o : keeps (alloc (W := W) o).
Proof. unfold alloc. keeping. Qed.
Lemma keeps_method refused evt ctx o : keeps (guarded (W := W) refused evt ctx o).
Proof. unfold guarded, correlated. keeping. Qed.
Lemma keeps_edit method ctx id :
  (forall o, keeps (method ctx o)) -> keeps (edit_order (W := W) OrderRepository method ctx id).
Proof.
  intros Hm. unfold edit_order, OrderRepository, on_order, repo_FindByID. cbn [FindByID Save].
  pose proof keeps_save. pose proof keeps_write. pose proof keeps_load. keeping.
Qed.
Lemma keeps_place ctx user inputs : keeps (PlaceOrder_Handle (W := W) OrderRepository ctx user inputs).
Proof.
  unfold PlaceOrder_Handle, NewOrder, correlated, OrderRepository. cbn [Save].
  pose proof keeps_save. pose proof keeps_alloc. pose proof keeps_load. keeping.
Qed.
Lemma keeps_query fmt ctx id : keeps (GetOrder_Handle (W := W) OrderRepository fmt ctx id).
Proof.
  unfold GetOrder_Handle, OrderRepository, repo_FindByID. cbn [FindByID]. pose proof keeps_load. keeping.
Qed.
Lemma keeps_reply {A} (result_of : option A -> message) (m : GoM W (result A)) : keeps m -> keeps (reply result_of m).
Proof. intros Hm. unfold reply. keeping. Qed.
Lemma keeps_reply_ok {A} (result_of : option A -> message) a (m : GoM W error) : keeps m -> keeps (reply_ok result_of a m).
Proof. intros Hm. unfold reply_ok. keeping. Qed.

(** The requests of the pages keep. *)
Lemma commands_keep fmt await publish m run ctx :
  of_pages (command_code fmt await OrderRepository publish) m = Some run -> keeps (run ctx).
Proof.
  destruct m; intros [= <-]; first [apply keeps_reply|apply keeps_reply_ok]; [apply keeps_place|apply keeps_edit..];
    intros o; apply keeps_method.
Qed.
Lemma keeps_mapM {A B} (f : A -> GoM W B) l : (forall a, keeps (f a)) -> keeps (mapM f l).
Proof. intros Hf. induction l as [|a l IH]; cbn; [apply keeps_parts_ret|]. keeping. Qed.
Lemma keeps_list fmt ctx : keeps (ListOrders_Handle (W := W) OrderRepository fmt ctx).
Proof.
  unfold ListOrders_Handle, OrderRepository, repo_FindAll. cbn [FindAll].
  pose proof (keeps_mapM (A := nat) load) as Hm. pose proof keeps_load. keeping.
Qed.
Lemma keeps_inventory `{!HasLaws Inventory W} ctx : keeps (GetInventory_Handle (W := W) ctx).
Proof.
  unfold GetInventory_Handle. apply keeps_parts_bind; [|keeping]. intros w. rewrite on_part_run. cbn. rewrite set_get. apply kept_refl.
Qed.
Lemma queries_keep `{!HasLaws Inventory W} fmt m run ctx : of_pages (query_code fmt OrderRepository) m = Some run -> keeps (run ctx).
Proof.
  destruct m; intros [= <-]; apply keeps_reply; [apply keeps_query|apply keeps_list|].
  apply keeps_parts_bind; [apply keeps_inventory|keeping].
Qed.
End Handlers.

(** ** Aspects and buses *)

Section Delivery.
Context {W : Type} `{HO : !Has OrderState W, HI : !Has Inventory W, !Clock W, !IdGen W, !MapRange, !SortSlice}.
Context (cmd_state query_state : Has BusState W) {HW : ShopWorld cmd_state query_state}.
Abbreviation framed := (framed cmd_state query_state).
Abbreviation keeps := (keeps cmd_state query_state).

(** An aspect that lets every message pass, reports no error of its own, and leaves the four parts alone;
    what it records elsewhere, and the context that it hands on, are its business. *)
Definition transparent (a : Aspect W message message) : Prop :=
  (forall ctx m w, exists ctx' w', Before a ctx m w = (Done (ctx', None), w') /\ framed w w') /\
  (forall ctx m r e d w, exists w', After a ctx m r e d w = (Done None, w') /\ framed w w').

(** What runs inside runs once, at a framed world, and its outcome comes out. *)
Definition delivered {A} (m : GoM W A) (next : context -> GoM W A) : Prop := forall w,
  exists ctx' w1 w3, framed w w1 /\ m w = ((next ctx' w1).1, w3) /\ framed (next ctx' w1).2 w3.

Lemma framed_now (w : W) : exists t w', time_now w = (Done t, w') /\ framed w w'.
Proof. unfold time_now. pose proof (now_framed cmd_state query_state w) as Hf. destruct (now w) as [t w']. eauto. Qed.

Lemma aspects_deliver l ctx m next :
  Forall transparent l -> delivered (run_aspects MNil ctx m next l) next.
Proof.
  intros Hl. revert ctx. induction Hl as [|a l [Hb Ha] _ IH]; intros ctx w.
  { exists ctx, w, (next ctx w).2. cbn. by destruct (next ctx w). }
  cbn [run_aspects]. destruct (Hb ctx m w) as (ctx1 & w1 & HB & Hf1). destruct (framed_now w1) as (t & w2 & Ht & Hf2).
  destruct (IH ctx1 w2) as (ctx' & w3 & w4 & Hf3 & Hrun & Hf4). exists ctx', w3.
  unfold mbind, go_bind. rewrite HB, Ht, Hrun.
  assert (framed w w3) as Hin by eauto using framed_trans.
  destruct (next ctx' w3) as [[[r e]|s] w5]; cbn [fst snd] in *; [|by exists w4].
  destruct (framed_now w4) as (t' & w6 & Ht' & Hf6). destruct (Ha ctx1 m r e (t' -i t) w6) as (w7 & HA & Hf7).
  rewrite Ht', HA. exists w7. split_and!; [done|done|eauto using framed_trans].
Qed.

(** A call of an open bus with its handler. *)
Lemma execute_delivers (st : Has BusState W) c hs h ctx m k run w :
  (forall d w, framed w (add_in_flight (Has0 := st) d w)) ->
  closed (part (Has := st) w) = false -> route hs (type_of m) = Some h ->
  (forall ctx w, call_handler h ctx m w = run ctx w) ->
  Forall transparent match k with KCommand => commandAspects c | KQuery => queryAspects c | KOther => [] end ->
  exists ctx' w1 w3, framed w w1 /\ execute_spec (Has0 := st) c hs ctx m k w = ((run ctx' w1).1, w3) /\
    framed (run ctx' w1).2 w3.
Proof.
  intros Hflight Hopen Hroute Hcode Hall. unfold execute_spec. rewrite Hopen, Hroute.
  assert (delivered (run_kind k (newMessageBus c) ctx m (fun ctx => call_handler h ctx m)) (fun ctx => call_handler h ctx m)) as Hd.
  { destruct k; [by apply aspects_deliver..|]. intros w'. exists ctx, w', (call_handler h ctx m w').2. cbn.
    by destruct (call_handler h ctx m w'). }
  destruct (Hd (add_in_flight (Has0 := st) 1 w)) as (ctx' & w1 & w3 & Hf1 & Hrun & Hf3).
  exists ctx', w1, (add_in_flight (Has0 := st) (-1) w3). unfold go_defer. rewrite Hrun, Hcode in *.
  split_and!; [eauto using framed_trans|done|eauto using framed_trans].
Qed.
End Delivery.

Section WiredShop.
Context {W : Type} `{HO : !Has OrderState W, HOL : !HasLaws OrderState W, HI : !Has Inventory W, HIL : !HasLaws Inventory W}.
Context `{HClk : !Clock W, HIdg : !IdGen W, HMR : !MapRange, HSS : !SortSlice}.
Context (cmd_state query_state : Has BusState W) {HW : ShopWorld cmd_state query_state}.
Context (fmt : Z -> string) (await : context -> Z -> GoM W error) (publish : context -> domain_event -> GoM W error).
Context (c : AspectChain W message message message message) (w0 : W).

(** Since [w0] the inventory is the same and the buses are as open. *)
Abbreviation up := (kept cmd_state query_state w0).

Lemma framed_up (w w' : W) : framed cmd_state query_state w w' -> up w -> up w'.
Proof. intros [_ Hk] Hw. by eapply kept_trans. Qed.

Lemma bus_delivers (st : Has BusState W) exec hs code k :
  (forall d w, framed cmd_state query_state w (add_in_flight (Has0 := st) d w)) ->
  (forall w, up w -> closed (part (Has := st) w) = false) ->
  (forall ctx m w, exec ctx m w = execute_spec (Has0 := st) c hs ctx m k w) -> routed hs code ->
  (forall m run ctx, of_pages code m = Some run -> keeps cmd_state query_state (run ctx)) ->
  Forall (transparent cmd_state query_state)
    match k with KCommand => commandAspects c | KQuery => queryAspects c | KOther => [] end ->
  delivers up exec (of_pages code).
Proof.
  intros Hflight Hopen Hexec Hr Hkeep Hall ctx m run w Hm Hw. specialize (Hr m).
  assert (code m = Some run) as Hcode by (by destruct m).
  rewrite Hcode in Hr. destruct (route hs (type_of m)) as [h|] eqn:Hroute; [|done].
  destruct (execute_delivers cmd_state query_state st c hs h ctx m k run w Hflight (Hopen w Hw) Hroute Hr Hall)
    as (ctx' & w1 & w3 & Hf1 & Hrun & Hf3).
  exists ctx', w1, w3. rewrite Hexec. split; [apply Hf1|]. split; [done|]. split; [apply Hf3|].
  eapply framed_up; [exact Hf3|]. eapply kept_trans; [|by eapply Hkeep]. by eapply framed_up.
Qed.
Lemma idle_now : idle up time_now (fun _ => True).
Proof.
  intros w Hw. destruct (framed_now cmd_state query_state w) as (t & w' & Ht & Hf).
  exists t, w'. split; [exact Ht|]. split; [apply Hf|]. split; [by eapply framed_up|done].
Qed.
Lemma idle_uuid : idle up new_uuid (fun _ => True).
Proof.
  intros w Hw. unfold new_uuid. pose proof (id_framed cmd_state query_state w) as Hf. destruct (fresh_id w) as [i w'].
  exists i, w'. split; [done|]. split; [apply Hf|]. split; [by eapply framed_up|done].
Qed.
Lemma quiet_now : quiet (S := OrderState) (W := W) time_now.
Proof. intros w. destruct (framed_now cmd_state query_state w) as (t & w' & Ht & [Hf _]). eauto. Qed.
Lemma quiet_uuid : quiet (S := OrderState) (W := W) new_uuid.
Proof.
  intros w. unfold new_uuid. pose proof (id_framed cmd_state query_state w) as [Hf _]. destruct (fresh_id w). eauto.
Qed.

(** The buses of the wired application deliver. *)
Lemma wired_delivers execute_cmd timeout limit b1 b2 :
  WireOrder fmt await OrderRepository (mkBuses (NewCommandBus (Some c)) (NewQueryBus (Some c))
    (mkEventBus ∅ c timeout limit) (RegisterHandlerEmits NewRegistry)) = Done (b1, None) ->
  WireInventory publish execute_cmd b1 = Done (b2, None) ->
  Forall (transparent cmd_state query_state) (commandAspects c) ->
  Forall (transparent cmd_state query_state) (queryAspects c) ->
  closed (part (Has := cmd_state) w0) = false -> closed (part (Has := query_state) w0) = false ->
  delivers up (CommandBus_Execute (Has0 := cmd_state) (cmdBus b2)) (of_pages (command_code fmt await OrderRepository publish)) /\
  delivers up (Bus.QueryBus_Execute (Has0 := query_state) (queryBus b2)) (of_pages (query_code fmt OrderRepository)).
Proof.
  intros Ho Hi Hac Haq Hcc Hcq.
  destruct (wire_wired fmt await OrderRepository publish execute_cmd c timeout limit) as (b1' & b2' & Ho' & Hi' & Hw & _).
  destruct (wired_runs cmd_state query_state _ _ _ _ _ _ _ Hw) as (Hce & Hcr & Hqe & Hqr & _).
  rewrite Ho in Ho'. injection Ho' as <-. rewrite Hi in Hi'. injection Hi' as <-. split.
  - apply (bus_delivers cmd_state _ _ _ KCommand (cmd_flight_framed cmd_state query_state)) with (2 := Hce) (3 := Hcr);
      [|intros m run ctx Hm; by eapply commands_keep|done].
    intros w1 (_ & -> & _). done.
  - apply (bus_delivers query_state _ _ _ KQuery (query_flight_framed cmd_state query_state)) with (2 := Hqe) (3 := Hqr);
      [|intros m run ctx Hm; by eapply queries_keep|done].
    intros w1 (_ & _ & ->). done.
Qed.
End WiredShop.

(** ** Properties *)

(** C25: The pages of the shop refine the life cycle of orders: with the application's two domains wired on
    fresh buses under any aspects that let messages pass, for every sequence of page requests (place, confirm,
    ship, cancel, delete, detail) each response is the one that the specification of orders gives, but for the
    times shown: the redirect to the order's page for a request that succeeds, the code and the text of the error
    for one that is refused, a page for a known order, a panic where the handler panics; a form with an error or
    without a positive quantity of a product is refused without touching an order; and the orders that are kept
    are those of the specification. *)
Theorem shop_refines_lifecycle {W} `{HO : !Has OrderState W, HOL : !HasLaws OrderState W, HI : !Has Inventory W,
      HIL : !HasLaws Inventory W, HClk : !Clock W, HIdg : !IdGen W, HMR : !MapRange, HSS : !SortSlice}
    (cmd_state query_state : Has BusState W) {HW : ShopWorld cmd_state query_state}
    fmt await publish execute_cmd (c : AspectChain W message message message message) timeout limit b1 b2
    (app : ShopApp W) ops (w : W) :
  WireOrder fmt await OrderRepository (mkBuses (NewCommandBus (Some c)) (NewQueryBus (Some c))
    (mkEventBus ∅ c timeout limit) (RegisterHandlerEmits NewRegistry)) = Done (b1, None) ->
  WireInventory publish execute_cmd b1 = Done (b2, None) ->
  CmdBus_Execute app = CommandBus_Execute (Has0 := cmd_state) (cmdBus b2) ->
  QueryBus_Execute app = Bus.QueryBus_Execute (Has0 := query_state) (queryBus b2) ->
  OrderRepo app = OrderRepository ->
  Forall (transparent cmd_state query_state) (commandAspects c) ->
  Forall (transparent cmd_state query_state) (queryAspects c) ->
  closed (part (Has := cmd_state) w) = false -> closed (part (Has := query_state) w) = false ->
  part (Has := HO) w = mkState [] NewOrderRepository ->
  exists fresh, length fresh = length ops /\
    ((run_pages app ops w).1, lives (part (run_pages app ops w).2)) = spec_pages fresh (GetAll (part (Has := HI) w)) ops ∅.
Proof.
  intros Ho Hi Hcmd Hqry Hrepo Hac Haq Hcc Hcq Hw.
  destruct (wired_delivers cmd_state query_state fmt await publish c w execute_cmd timeout limit b1 b2 Ho Hi Hac Haq Hcc Hcq)
    as [Hdc Hdq]. rewrite <- Hcmd in Hdc. rewrite <- Hqry in Hdq.
  destruct (run_pages_ok app fmt await publish (kept cmd_state query_state w) (GetAll (part (Has := HI) w))
    (quiet_now cmd_state query_state) (quiet_uuid cmd_state query_state) Hdc Hdq Hrepo) with (ops := ops) (w := w)
    as (fresh & Hlen & Hspec).
  - intros w1 (-> & _). done.
  - intros s w1 Hw1. eapply kept_trans; [exact Hw1|apply (orders_kept cmd_state query_state s w1)].
  - apply kept_refl.
  - rewrite Hw. apply state_ok_empty.
  - exists fresh. split; [exact Hlen|]. rewrite Hspec, Hw. reflexivity.
Qed.

(** The life cycle test of the example passes on the wired application: whatever the other orders are, when
    identities are not empty, the page shows ten steps, all of them passed and none failed, and one order more,
    which is shipped. The inventory is what it was before: the step that is to verify that stock was deducted
    passes although none was. *)
Theorem lifecycle_test_passes {W} `{HO : !Has OrderState W, HOL : !HasLaws OrderState W, HI : !Has Inventory W,
      HIL : !HasLaws Inventory W, HClk : !Clock W, HIdg : !IdGen W, HMR : !MapRange, HSS : !SortSlice}
    (cmd_state query_state : Has BusState W) {HW : ShopWorld cmd_state query_state}
    fmt format_2f duration_String sleep await publish execute_cmd
    (c : AspectChain W message message message message) timeout limit b1 b2 (app : ShopApp W) (r : shop_request) (w : W) :
  WireOrder fmt await OrderRepository (mkBuses (NewCommandBus (Some c)) (NewQueryBus (Some c))
    (mkEventBus ∅ c timeout limit) (RegisterHandlerEmits NewRegistry)) = Done (b1, None) ->
  WireInventory publish execute_cmd b1 = Done (b2, None) ->
  CmdBus_Execute app = CommandBus_Execute (Has0 := cmd_state) (cmdBus b2) ->
  QueryBus_Execute app = Bus.QueryBus_Execute (Has0 := query_state) (queryBus b2) ->
  Forall (transparent cmd_state query_state) (commandAspects c) ->
  Forall (transparent cmd_state query_state) (queryAspects c) ->
  (forall d w, exists w', sleep d w = (Done tt, w') /\ framed cmd_state query_state w w') ->
  (forall w : W, (new_uuid w).1 <> Done "") ->
  closed (part (Has := cmd_state) w) = false -> closed (part (Has := query_state) w) = false ->
  state_ok (part (Has := HO) w) ->
  exists steps d id w',
    http_TestQCE app format_2f duration_String sleep r w =
      (Done (Render "test_result" (PTestResult "Test QCE Full Lifecycle" steps 10 10 0 d)), w') /\
    length steps = 10 /\ Forall (fun s => ts_Success s = true) steps /\
    id <> "" /\ lives (part w') = <[id := test_life OrderStatusShipped]> (lives (part (Has := HO) w)) /\
    part (Has := HI) w' = part (Has := HI) w.
Proof.
  intros Ho Hi Hcmd Hqry Hac Haq Hsleep Hids Hcc Hcq Hok.
  destruct (wired_delivers cmd_state query_state fmt await publish c w execute_cmd timeout limit b1 b2 Ho Hi Hac Haq Hcc Hcq)
    as [Hdc Hdq]. rewrite <- Hcmd in Hdc. rewrite <- Hqry in Hdq.
  destruct (test_qce_page app fmt format_2f duration_String sleep await publish (kept cmd_state query_state w)
    (idle_now cmd_state query_state w) (idle_uuid cmd_state query_state w) Hids) with (r := r) (L := lives (part (Has := HO) w)) (w := w)
    as (resp & w' & Hrun & (Hinv & _) & _ & steps & d & id & -> & Hlen & Hall & Hid & Hl);
    [|apply (quiet_now cmd_state query_state)|apply (quiet_uuid cmd_state query_state)|exact Hdc|exact Hdq|apply kept_refl|exact Hok|done|].
  - intros t w1 Hw1. destruct (Hsleep t w1) as (w2 & Hs & Hf). exists tt, w2. split; [exact Hs|]. split; [apply Hf|].
    split; [by eapply framed_up|done].
  - exists steps, d, id, w'. by split_and!.
Qed.

(** ** A concrete application

    A world of the five parts, and the logging aspect on a logger that keeps quiet. *)
Module DemoShop.
Import Env.
Record world := mkWorld {
  w_env : Env.env;
  w_orders : OrderState;
  w_inventory : Inventory;
  w_cmd : BusState;
  w_query : BusState }.
#[export] Instance demo_orders : Has OrderState world :=
  { part := w_orders; set_part s w := mkWorld (w_env w) s (w_inventory w) (w_cmd w) (w_query w) }.
#[export] Instance demo_inventory : Has Inventory world :=
  { part := w_inventory; set_part s w := mkWorld (w_env w) (w_orders w) s (w_cmd w) (w_query w) }.
Definition demo_cmd : Has BusState world :=
  {| part := w_cmd; set_part s w := mkWorld (w_env w) (w_orders w) (w_inventory w) s (w_query w) |}.
Definition demo_query : Has BusState world :=
  {| part := w_query; set_part s w := mkWorld (w_env w) (w_orders w) (w_inventory w) (w_cmd w) s |}.
#[export] Instance demo_orders_laws : HasLaws OrderState world.
Proof. split; [done..|]. by intros []. Qed.
#[export] Instance demo_inventory_laws : HasLaws Inventory world.
Proof. split; [done..|]. by intros []. Qed.
#[export] Instance demo_clock : Clock world := fun w =>
  let '(t, e) := now (w_env w) in (t, mkWorld e (w_orders w) (w_inventory w) (w_cmd w) (w_query w)).
#[export] Instance demo_ids : IdGen world := fun w =>
  let '(i, e) := fresh_id (w_env w) in (i, mkWorld e (w_orders w) (w_inventory w) (w_cmd w) (w_query w)).
#[export] Instance demo_world : ShopWorld demo_cmd demo_query.
Proof. by split. Qed.

Definition quiet_logger : Logger world := mkLogger (fun _ _ => mret tt) (fun _ _ => mret tt) (fun _ _ => mret tt).
Definition logging_chain : AspectChain world message message message message :=
  mkChain [LoggingAspect_Query quiet_logger] [LoggingAspect_Command quiet_logger] [].

Definition fmt (t : Z) : string := pretty t.
Definition plain_2f : float64 -> string := fun _ => "".
Definition nap : Z -> GoM world unit := fun _ => mret tt.
Definition await : context -> Z -> GoM world error := fun _ _ => mret None.
Definition publish : context -> domain_event -> GoM world error := fun _ _ => mret None.
Definition execute_cmd : context -> message -> GoM world (message * error) := fun _ _ => mret (MNil, None).
Definition b0 : buses world :=
  mkBuses (NewCommandBus (Some logging_chain)) (NewQueryBus (Some logging_chain)) (mkEventBus ∅ logging_chain 30 None)
    (RegisterHandlerEmits NewRegistry).
(** The buses after a wiring that succeeds. *)
Definition wired_or (b : buses world) (o : outcome (buses world * error)) : buses world :=
  match o with Done (b', None) => b' | _ => b end.
Definition b1 : buses world := wired_or b0 (WireOrder fmt await OrderRepository b0).
Definition b2 : buses world := wired_or b1 (WireInventory publish execute_cmd b1).

Lemma demo_wired :
  WireOrder fmt await OrderRepository b0 = Done (b1, None) /\ WireInventory publish execute_cmd b1 = Done (b2, None).
Proof.
  destruct (wire_wired fmt await OrderRepository publish execute_cmd logging_chain 30 None)
    as (b1' & b2' & H1 & H2 & _).
  fold b0 in H1. unfold b2, b1. rewrite H1. cbn [wired_or]. rewrite H2. cbn [wired_or]. split; exact eq_refl.
Qed.

Definition jobs : JobOps world :=
  mkJobOps (fun _ _ _ => mret (Err (ENew "no jobs"))) (fun _ _ => mret None) (fun _ _ => mret None) (fun _ _ => mret (Ok []))
    (fun _ _ _ => mret (Err (ENew "no jobs"))) (fun _ _ => mret (Err (ENew "no jobs"))).
Definition app : ShopApp world :=
  mkShop (CommandBus_Execute (Has0 := demo_cmd) (cmdBus b2)) (Bus.QueryBus_Execute (Has0 := demo_query) (queryBus b2))
    (fun _ _ => mret None) OrderRepository (fun _ _ _ => mret (Ok [])) jobs false None.
Definition w0 : world := mkWorld (Env.mkEnv 100 1) (mkState [] NewOrderRepository) NewInventory bus_open bus_open.

Definition on (id : string) (form : list (string * string)) : shop_request := mkShopRequest "POST" form None id "" Background.
(** An order for two mice that is shipped too early, paid, and shipped. *)
Definition session : list shop_op :=
  [SPlace (on "" [("user_id", "u"); ("qty_mouse", "2"); ("qty_laptop", "-1")]); SPlace (on "" [("user_id", "u")]);
   SShip (on "id-1" []); SConfirm (on "id-1" []); SShip (on "id-1" []); SCancel (on "id-1" [("reason", "late")]);
   SDelete (on "id-2" [])].

(** The logging aspect is transparent when its logger is. *)
Lemma logging_transparent :
  transparent demo_cmd demo_query (LoggingAspect_Command quiet_logger) /\
  transparent demo_cmd demo_query (LoggingAspect_Query quiet_logger).
Proof.
  assert (forall w : world, framed demo_cmd demo_query w w) as Hf by (by intros).
  split; (split; [intros ctx m w; exists ctx, w; split; [reflexivity|apply Hf]|]);
    intros ctx m r [e|] d w; exists w; (split; [reflexivity|apply Hf]).
Qed.
End DemoShop.
Import DemoShop.

Example shop_session : (run_pages app session w0).1 =
  [Done (Redirect "/orders/id-1" 303); Done (ShopError "at least one item required" 400);
   Done (ShopError "order id-1 cannot be shipped (status: pending)" 400); Done (Redirect "/orders/id-1" 303);
   Done (Redirect "/orders/id-1" 303); Done (ShopError "order id-1 already shipped, cannot cancel" 400);
   Done (ShopError "order id-2 not found" 404)].
Proof. vm_compute. reflexivity. Qed.

Lemma shop_refines_lifecycle_witness : exists fresh, length fresh = length session /\
  ((run_pages app session w0).1, lives (part (run_pages app session w0).2)) =
    spec_pages fresh (GetAll (part w0)) session ∅.
Proof.
  destruct demo_wired as [H1 H2]. destruct logging_transparent as [H3 H4].
  pose proof (shop_refines_lifecycle demo_cmd demo_query fmt await publish execute_cmd logging_chain 30 None b1 b2 app
    session w0 H1 H2 eq_refl eq_refl eq_refl) as Hrefines.
  apply Hrefines; first [exact eq_refl|by apply Forall_singleton].
Defined.

Lemma lifecycle_test_passes_witness : exists steps d id w',
  http_TestQCE app plain_2f pretty nap (on "" []) w0 =
    (Done (Render "test_result" (PTestResult "Test QCE Full Lifecycle" steps 10 10 0 d)), w') /\
  length steps = 10 /\ Forall (fun s => ts_Success s = true) steps /\
  id <> "" /\ lives (part w') = <[id := test_life OrderStatusShipped]> (lives (part w0)) /\
  part (S := Inventory) w' = part w0.
Proof.
  destruct demo_wired as [H1 H2]. destruct logging_transparent as [H3 H4].
  pose proof (lifecycle_test_passes demo_cmd demo_query fmt plain_2f pretty nap await publish execute_cmd
    logging_chain 30 None b1 b2 app (on "" []) w0 H1 H2 eq_refl eq_refl) as Hpasses.
  apply Hpasses; [by apply Forall_singleton|by apply Forall_singleton| | |exact eq_refl|exact eq_refl|apply state_ok_empty].
  - intros d w. exists w. split; [reflexivity|apply framed_refl].
  - intros w. unfold new_uuid. cbn. intros Heq. injection Heq as Heq. discriminate Heq.
Defined.
