(* ===== verification/LiveReload.v ===== *)
(** * Live reload: [src/exampleapp/interfaces/http/livereload.go] and the templates of [handlers.go]

    The goroutine that watches the templates, the clients that wait for a reload, and the requests that
    render with a cached template, interleaved. Files and parsed templates are versions: the number of edits
    that they have seen. *)

From S2P Require Import Prelude Errors.

(** ** Events of the file system

    [fsnotify.Op] is a set of operations. *)
Inductive fs_op := FsCreate | FsWrite | FsRemove | FsRename | FsChmod.
#[export] Instance fs_op_eq_dec : EqDecision fs_op.
Proof. solve_decision. Defined.
Record fs_event := mkFsEvent { fe_Name : string; fe_Op : list fs_op }.
Definition fs_Has (e : fs_event) (op : fs_op) : bool := bool_decide (op ∈ fe_Op e).

(** [filepath.Ext]: from the last dot of the last element of the path. *)
Fixpoint filepath_Ext_from (best : string) (s : string) : string :=
  match s with
  | EmptyString => best
  | String c s' =>
      filepath_Ext_from (if Ascii.eqb c (Ascii.ascii_of_nat 47) then ""
                         else if Ascii.eqb c (Ascii.ascii_of_nat 46) then s else best) s'
  end.
Definition filepath_Ext (path : string) : string := filepath_Ext_from "" path.

(** The two tests of [watch]. *)
Definition concerns (e : fs_event) : bool :=
  (fs_Has e FsWrite || fs_Has e FsCreate || fs_Has e FsRename) && bool_decide (filepath_Ext (fe_Name e) = ".html").

(** ** The server

    A client is its channel, of capacity one: [true] when a reload waits in it. *)
Record LiveReloadServer := mkLiveReload {
  lr_clients : gmap nat bool;
  lr_stale : bool;
  lr_closed : bool }.

(** [fsnotify.NewWatcher] and [watcher.Add] are parameters; a watcher that cannot watch is closed again. *)
Definition NewLiveReloadServer {W} (NewWatcher : GoM W error) (watcher_Add : string -> GoM W error) (watcher_Close : GoM W unit)
    (templateDir : string) : GoM W (result LiveReloadServer) :=
  err ← NewWatcher;
  match err with
  | Some err => mret (Err (EWrap "create fsnotify watcher: " err ""))
  | None =>
      err ← watcher_Add templateDir;
      match err with
      | Some err => _ ← watcher_Close; mret (Err (EWrap "watch template dir: " err ""))
      | None => mret (Ok (mkLiveReload ∅ false false))
      end
  end.

Definition store_stale (b : bool) (s : LiveReloadServer) : LiveReloadServer := mkLiveReload (lr_clients s) b (lr_closed s).
Definition IsStale (s : LiveReloadServer) : bool := lr_stale s.
Definition ClearStale (s : LiveReloadServer) : LiveReloadServer := store_stale false s.

(** A send that finds a reload waiting is dropped. *)
Definition broadcast (s : LiveReloadServer) : LiveReloadServer :=
  mkLiveReload ((fun _ => true) <$> lr_clients s) (lr_stale s) (lr_closed s).

(** [ServeHTTP]: its registration, one turn of its loop, and its deferred end. *)
Definition connect (c : nat) (s : LiveReloadServer) : LiveReloadServer :=
  mkLiveReload (<[c := false]> (lr_clients s)) (lr_stale s) (lr_closed s).
Definition receive (c : nat) (s : LiveReloadServer) : option LiveReloadServer :=
  match lr_clients s !! c with
  | Some true => Some (mkLiveReload (<[c := false]> (lr_clients s)) (lr_stale s) (lr_closed s))
  | _ => None
  end.
Definition disconnect (c : nat) (s : LiveReloadServer) : LiveReloadServer :=
  mkLiveReload (delete c (lr_clients s)) (lr_stale s) (lr_closed s).
(** [closeOnce]. *)
Definition Close (s : LiveReloadServer) : LiveReloadServer := mkLiveReload (lr_clients s) (lr_stale s) true.

(** ** The interleaving *)

(** Where the goroutine of [watch] is: at its select, between [stale.Store(true)] and [broadcast], or gone. *)
Inductive watch_pc := Watching | Announcing | Stopped.

(** Where a request is in [render] and [reloadTemplates]. *)
Inductive render_pc :=
| Waiting
| Parsing
| Parsed (version : nat)
| Installed
| Ready.

(** [files] is the version of the files, [tmpl] that of the handler's templates, [queue] what the watcher has
    not been asked for yet, [reloadMu] the request that holds the mutex. Kept for the statements only:
    [announced] counts the broadcasts, [told] what it was when a client connected or was last told to reload. *)
Record state := mkState {
  server : LiveReloadServer;
  files : nat;
  queue : list fs_event;
  watcher : watch_pc;
  tmpl : nat;
  reloadMu : option nat;
  renders : gmap nat render_pc;
  announced : nat;
  told : gmap nat nat }.

Definition with_server (sv : LiveReloadServer) s :=
  mkState sv (files s) (queue s) (watcher s) (tmpl s) (reloadMu s) (renders s) (announced s) (told s).
Definition with_render (r : nat) (pc : render_pc) s :=
  mkState (server s) (files s) (queue s) (watcher s) (tmpl s) (reloadMu s) (<[r := pc]> (renders s)) (announced s) (told s).
Definition with_lock (l : option nat) s :=
  mkState (server s) (files s) (queue s) (watcher s) (tmpl s) l (renders s) (announced s) (told s).
Definition without_render (r : nat) s :=
  mkState (server s) (files s) (queue s) (watcher s) (tmpl s) (reloadMu s) (delete r (renders s)) (announced s) (told s).

Definition init : state := mkState (mkLiveReload ∅ false false) 0 [] Watching 0 None ∅ 0 ∅.

(** One turn of [watch] up to the broadcast. *)
Definition watch_turn (e : fs_event) s : state :=
  if concerns e then
    mkState (store_stale true (server s)) (files s) (tail (queue s)) Announcing (tmpl s) (reloadMu s) (renders s) (announced s) (told s)
  else mkState (server s) (files s) (tail (queue s)) Watching (tmpl s) (reloadMu s) (renders s) (announced s) (told s).

Section Steps.
(** Whether the templates of a version can be parsed: [template.Must] panics when they cannot. *)
Context (parses : nat -> bool).

Inductive step : state -> state -> Prop :=
(** The environment: an edit that [watch] reacts to, or another event of the directory. *)
| s_edit s e : concerns e = true ->
    step s (mkState (server s) (S (files s)) (queue s ++ [e]) (watcher s) (tmpl s) (reloadMu s) (renders s) (announced s) (told s))
| s_other s e : concerns e = false ->
    step s (mkState (server s) (files s) (queue s ++ [e]) (watcher s) (tmpl s) (reloadMu s) (renders s) (announced s) (told s))
(** [watch]. *)
| s_watch s e q : watcher s = Watching -> queue s = e :: q -> step s (watch_turn e s)
| s_broadcast s : watcher s = Announcing ->
    step s (mkState (broadcast (server s)) (files s) (queue s) Watching (tmpl s) (reloadMu s) (renders s) (S (announced s)) (told s))
| s_stop s : watcher s = Watching -> lr_closed (server s) = true ->
    step s (mkState (server s) (files s) (queue s) Stopped (tmpl s) (reloadMu s) (renders s) (announced s) (told s))
(** [ServeHTTP] and [Close]. *)
| s_connect s c : lr_clients (server s) !! c = None ->
    step s (mkState (connect c (server s)) (files s) (queue s) (watcher s) (tmpl s) (reloadMu s) (renders s) (announced s)
              (<[c := announced s]> (told s)))
| s_receive s c sv : receive c (server s) = Some sv ->
    step s (mkState sv (files s) (queue s) (watcher s) (tmpl s) (reloadMu s) (renders s) (announced s)
              (<[c := announced s]> (told s)))
| s_disconnect s c : step s (with_server (disconnect c (server s)) s)
| s_close s : step s (with_server (Close (server s)) s)
(** [render] and [reloadTemplates]. *)
| s_render s r : renders s !! r = None -> step s (with_render r (if IsStale (server s) then Waiting else Ready) s)
| s_lock s r : renders s !! r = Some Waiting -> reloadMu s = None ->
    step s (if IsStale (server s) then with_lock (Some r) (with_render r Parsing s) else with_render r Ready s)
| s_parse s r : renders s !! r = Some Parsing ->
    step s (if parses (files s) then with_render r (Parsed (files s)) s else with_lock None (without_render r s))
| s_install s r v : renders s !! r = Some (Parsed v) ->
    step s (with_render r Installed
              (mkState (server s) (files s) (queue s) (watcher s) v (reloadMu s) (renders s) (announced s) (told s)))
| s_clear s r : renders s !! r = Some Installed ->
    step s (with_lock None (with_render r Ready (with_server (ClearStale (server s)) s)))
(** The page is written with the templates of the moment. *)
| s_write s r : renders s !! r = Some Ready -> step s (without_render r s).

Definition reachable : state -> Prop := rtc step init.

(** A request is between parsing the templates and clearing the mark. *)
Definition reloading s : Prop :=
  exists r pc, renders s !! r = Some pc /\ match pc with Parsed _ | Installed => True | _ => False end.

(** A step that does not react to an edit while a request is there. *)
Definition apart_step (s s' : state) : Prop :=
  step s s' /\ (reloading s -> watcher s' = Announcing -> watcher s = Announcing).
End Steps.

(** ** Invariants *)

Section Invariants.
Context (parses : nat -> bool).
Abbreviation step := (step parses).

(** A reload waits for a client exactly when there was a broadcast since it was told, or connected. *)
Definition told_inv s : Prop := forall c waiting, lr_clients (server s) !! c = Some waiting ->
  exists n, told s !! c = Some n /\ n <= announced s /\ (waiting = true <-> n < announced s).

(** A client that connects, or receives, is up to date. *)
Lemma told_insert c' s c waiting :
  told_inv s -> <[c' := false]> (lr_clients (server s)) !! c = Some waiting ->
  exists n, <[c' := announced s]> (told s) !! c = Some n /\ n <= announced s /\ (waiting = true <-> n < announced s).
Proof.
  intros Hi [[-> <-]|[Hne Hc]]%lookup_insert_Some.
  - exists (announced s). rewrite lookup_insert_eq. split_and!; [done|lia|]. by split; [|lia].
  - rewrite lookup_insert_ne by done. by apply Hi.
Qed.

Lemma told_step s s' : step s s' -> told_inv s -> told_inv s'.
Proof.
  intros Hs Hi c waiting Hc. destruct Hs; cbn in *; try (by apply Hi).
  - unfold watch_turn in *. destruct (concerns e); cbn in *; by apply Hi.
  - rewrite lookup_fmap in Hc. destruct (lr_clients (server s) !! c) as [w|] eqn:Hw; cbn in Hc; [|done].
    injection Hc as <-. destruct (Hi _ _ Hw) as (n & Hn & Hle & _). exists n. split_and!; [done|lia|by split; [lia|]].
  - by apply (told_insert c0 s).
  - unfold receive in *. destruct (lr_clients (server s) !! c0) as [[]|] eqn:Hw; try done.
    match goal with H : Some _ = Some sv |- _ => injection H as <- end. by apply (told_insert c0 s).
  - apply lookup_delete_Some in Hc as [_ Hc]. by apply Hi.
  - destruct (IsStale (server s)); cbn in *; by apply Hi.
  - destruct (parses (files s)); cbn in *; by apply Hi.
Qed.

(** *** The templates *)

Definition pending s : Prop := exists e, e ∈ queue s /\ concerns e = true.

(** The version that a request is about to install or has installed, if it holds the mutex. *)
Definition busy (pc : render_pc) : bool := match pc with Parsing | Parsed _ | Installed => true | _ => false end.
Definition in_time (pc : render_pc) s : Prop :=
  match pc with Parsed v => v = files s | Installed => tmpl s = files s | _ => True end.

Record fresh_inv s : Prop := {
  fresh_lock : forall r pc, renders s !! r = Some pc -> busy pc = true -> reloadMu s = Some r;
  fresh_reload : forall r pc, renders s !! r = Some pc -> in_time pc s \/ pending s;
  fresh_tmpl : tmpl s = files s \/ IsStale (server s) = true \/ pending s }.

Lemma pending_snoc s e : (exists e', e' ∈ queue s ++ [e] /\ concerns e' = true) <-> pending s \/ concerns e = true.
Proof.
  unfold pending. setoid_rewrite elem_of_app. setoid_rewrite list_elem_of_singleton. split.
  - intros (e' & [Hin| ->] & Hc); [left; by exists e'|by right].
  - intros [(e' & Hin & Hc)|Hc]; [exists e'; auto|exists e; auto].
Qed.

Lemma pending_tail s e q : queue s = e :: q -> concerns e = false -> pending s -> exists e', e' ∈ q /\ concerns e' = true.
Proof. intros Hq Hc (e' & Hin & He'). rewrite Hq in Hin. apply elem_of_cons in Hin as [-> | Hin]; [congruence|]. by exists e'. Qed.

(** A request goes on: what it becomes is in time, and holds the mutex if it is busy. *)
Lemma fresh_render s r pc :
  fresh_inv s -> (busy pc = true -> reloadMu s = Some r) -> in_time pc s \/ pending s -> fresh_inv (with_render r pc s).
Proof.
  intros [Hl Hr Ht] Hb Hp. split; cbn; [..|done].
  - intros r' pc' [[<- <-]|[Hne Hr']]%lookup_insert_Some Hbusy; [auto|by eapply Hl].
  - intros r' pc' [[<- <-]|[Hne Hr']]%lookup_insert_Some; [done|]. by destruct (Hr _ _ Hr'); [left|right].
Qed.
Lemma fresh_without s r : fresh_inv s -> fresh_inv (without_render r s).
Proof.
  intros [Hl Hr Ht]. split; cbn; [..|done].
  - intros r' pc' [_ Hr']%lookup_delete_Some. by eapply Hl.
  - intros r' pc' [_ Hr']%lookup_delete_Some. by destruct (Hr _ _ Hr'); [left|right].
Qed.
(** The mutex is taken when it is free, and released by the request that holds it. *)
Lemma fresh_take s r : fresh_inv s -> reloadMu s = None -> fresh_inv (with_lock (Some r) s).
Proof.
  intros [Hl Hr Ht] Hn. split; cbn; [|done..]. intros r' pc Hpc Hb. pose proof (Hl _ _ Hpc Hb) as Hsome. congruence.
Qed.
Lemma fresh_release s : fresh_inv s -> (forall r pc, renders s !! r = Some pc -> busy pc = false) -> fresh_inv (with_lock None s).
Proof. intros [Hl Hr Ht] Hn. split; cbn; [|done..]. intros r' pc Hpc Hb. apply Hn in Hpc. congruence. Qed.

Lemma fresh_init : fresh_inv init.
Proof. split; [done..|by left]. Qed.

Lemma fresh_step s s' : apart_step parses s s' -> fresh_inv s -> fresh_inv s'.
Proof.
  intros [Hs Hapart] Hinv. pose proof Hinv as [Hl Hr Ht]. destruct Hs.
  - split; cbn; [done|..]; unfold pending; cbn; setoid_rewrite pending_snoc; auto.
  - split; cbn; [done|..]; unfold pending; cbn; setoid_rewrite pending_snoc; try done.
    + intros r pc Hpc. destruct (Hr _ _ Hpc); auto.
    + tauto.
  - unfold watch_turn in *. destruct (concerns e) eqn:Hc; cbn in *.
    + split; cbn; [done| |auto]. intros r pc Hpc. destruct pc; try (by left); exfalso.
      all: assert (watcher s = Announcing) by (apply Hapart; [by eexists _, _|done]); congruence.
    + assert (pending s -> exists e', e' ∈ q /\ concerns e' = true) as Hp by eauto using pending_tail.
      split; cbn; [done|..]; unfold pending; cbn; rewrite H0; cbn.
      * intros r pc Hpc. destruct (Hr _ _ Hpc); auto.
      * tauto.
  - split; cbn; done.
  - split; cbn; done.
  - split; cbn; done.
  - unfold receive in *. destruct (lr_clients (server s) !! c) as [[]|]; try done. injection H as <-. split; cbn; done.
  - split; cbn; done.
  - split; cbn; done.
  - apply fresh_render; [done|by destruct (IsStale _)|left; by destruct (IsStale _)].
  - destruct (IsStale (server s)).
    + change (with_lock (Some r) (with_render r Parsing s)) with (with_render r Parsing (with_lock (Some r) s)).
      apply fresh_render; [by apply fresh_take|done|by left].
    + apply fresh_render; [done|done|by left].
  - pose proof (Hl _ _ H eq_refl) as Hlock. destruct (parses (files s)).
    + apply fresh_render; [done|done|by left].
    + change (with_lock None (without_render r s)) with (without_render r (with_lock None s)).
      split; cbn; [..|done].
      * intros r' pc' [Hne Hr']%lookup_delete_Some Hb. pose proof (Hl _ _ Hr' Hb). congruence.
      * intros r' pc' [_ Hr']%lookup_delete_Some. by destruct (Hr _ _ Hr'); [left|right].
  - pose proof (Hl _ _ H eq_refl) as Hlock. pose proof (Hr _ _ H) as Hv. split; cbn.
    + intros r' pc' [[<- <-]|[Hne Hr']]%lookup_insert_Some Hb; [done|by eapply Hl].
    + intros r' pc' [[<- <-]|[Hne Hr']]%lookup_insert_Some; [done|].
      left. destruct pc'; try done; pose proof (Hl _ _ Hr' eq_refl); congruence.
    + destruct Hv; auto.
  - pose proof (Hl _ _ H eq_refl) as Hlock. pose proof (Hr _ _ H) as Hv. split; cbn.
    + intros r' pc' [[<- <-]|[Hne Hr']]%lookup_insert_Some Hb; [done|]. pose proof (Hl _ _ Hr' Hb). congruence.
    + intros r' pc' [[<- <-]|[Hne Hr']]%lookup_insert_Some; [by left|].
      left. destruct pc'; try done; pose proof (Hl _ _ Hr' eq_refl); congruence.
    + destruct Hv; auto.
  - by apply fresh_without.
Qed.
End Invariants.

(** ** Properties *)


(** ** The race that the condition excludes *)
Module DemoReload.
Definition edit : fs_event := mkFsEvent "templates/orders.html" [FsWrite].
Definition always : nat -> bool := fun _ => true.

(** The first states of a run: an edit, its announcement, and a request that has parsed the templates. *)
Definition stale_server : LiveReloadServer := mkLiveReload ∅ true false.
Definition after_parse : state :=
  mkState stale_server 1 [] Watching 0 (Some 0) {[0 := Parsed 1]} 1 ∅.

Lemma parsed_apart : rtc (apart_step always) init after_parse.
Proof.
  eapply rtc_l; [split; [by apply (s_edit _ _ edit)|intros (r & pc & [=] & _)]|].
  eapply rtc_l; [split; [by eapply s_watch|intros (r & pc & [=] & _)]|].
  eapply rtc_l; [split; [by apply s_broadcast|by intros _ [=]]|].
  eapply rtc_l; [split; [by apply (s_render _ _ 0)|by intros _ [=]]|].
  eapply rtc_l; [split; [by apply (s_lock _ _ 0)|by intros _ [=]]|].
  eapply rtc_l; [split; [by apply (s_parse _ _ 0)|by intros _ [=]]|]. apply rtc_refl.
Qed.
End DemoReload.
Import DemoReload.

(** An edit that is noticed while a request reloads is lost: the request clears the mark that the edit has set, so
    that the templates stay old, unmarked, until the next edit. *)
Theorem reload_loses_edit :
  exists s, reachable always s /\ queue s = [] /\ renders s = ∅ /\ reloadMu s = None /\ watcher s = Watching /\
    IsStale (server s) = false /\ tmpl s = 1 /\ files s = 2.
Proof.
  eexists. split; [|split; [|split; [|split; [|split; [|split; [|split]]]]]].
  - unfold reachable. etrans; [apply (rtc_subrel (apart_step always)); [by intros s s' []|apply parsed_apart]|].
    eapply rtc_l; [by apply (s_edit _ _ edit)|]. eapply rtc_l; [by eapply s_watch|]. eapply rtc_l; [by apply s_broadcast|].
    eapply rtc_l; [by apply (s_install _ _ 0 1)|]. eapply rtc_l; [by apply (s_clear _ _ 0)|].
    eapply rtc_l; [by apply (s_write _ _ 0)|]. apply rtc_refl.
  - done.
  - vm_compute. done.
  - done.
  - done.
  - done.
  - done.
  - done.
Qed.

