(* ===== verification/Pages.v ===== *)
(** * Pages and servers: the templates of [src/exampleapp/interfaces/http/handlers.go], [server.go], and of
    the viewers in [src/observability]

    How a page's data becomes the answer to a request: the template set of the shop with its reload, the text that
    is sent, the template functions and servers of the two viewers. What [html/template] parses and executes is a
    parameter. The last theorem ties the reload to the interleaving of [LiveReload]. *)

From stdpp Require Import relations.
From S2P Require Import Prelude Errors Trace Bus Builtin Messages Stats TypeRegistry Relationship Job Schema Dashboard Viewer LiveReload Shop.

(** ** Strings and paths of the standard library *)

(** [strings.CutPrefix]. *)
Fixpoint str_strip (pre s : string) : option string :=
  match pre, s with
  | EmptyString, _ => Some s
  | String a pre, String b s => if Ascii.eqb a b then str_strip pre s else None
  | _, EmptyString => None
  end.

(** [strings.Replace(s, old, new, 1)]. *)
Fixpoint str_replace1 (old new s : string) : string :=
  match str_strip old s with
  | Some rest => new +:+ rest
  | None => match s with EmptyString => s | String c s' => String c (str_replace1 old new s') end
  end.

Definition slash : Ascii.ascii := Ascii.ascii_of_nat 47.

(** [filepath.Clean] on Unix: the segments of the path on a stack, the last first. *)
Definition clean_segment (rooted : bool) (stack : list string) (seg : string) : list string :=
  if bool_decide (seg = "") || bool_decide (seg = ".") then stack
  else if bool_decide (seg = "..") then
    match stack with
    | top :: rest => if bool_decide (top = "..") then seg :: stack else rest
    | [] => if rooted then [] else [seg]
    end
  else seg :: stack.

Definition filepath_Clean (path : string) : string :=
  let rooted := str_has_prefix path "/" in
  let clean := str_join "/" (rev (fold_left (clean_segment rooted) (str_split slash path) [])) in
  if rooted then "/" +:+ clean else if bool_decide (clean = "") then "." else clean.

(** [filepath.Join]: the elements from the first that is not empty. *)
Fixpoint filepath_Join (elems : list string) : string :=
  match elems with
  | [] => ""
  | e :: rest => if bool_decide (e = "") then filepath_Join rest else filepath_Clean (str_join "/" elems)
  end.

(** [filepath.Dir]: the text up to the last slash, cleaned. *)
Definition filepath_Dir (path : string) : string :=
  match rev (str_split slash path) with
  | _ :: dirs => filepath_Clean (str_join "/" (rev ("" :: dirs)))
  | [] => "."
  end.

(** ** The templates of the shop *)

(** The map that a page is executed with: what the handler gave, and what [render] adds. *)
Record titled (P : Type) := mkTitled { td_Page : string; td_Title : string; td_data : P }.
Arguments mkTitled {P} td_Page td_Title td_data.
Arguments td_Page {P} _.
Arguments td_Title {P} _.
Arguments td_data {P} _.

(** What a client is sent. *)
Inductive reply :=
| RpError (msg : string) (code : Z)
| RpRedirect (url : string) (code : Z)
| RpHtml (body : string)
| RpJson (body : string).

Definition livereloadScript : string :=
  "<script>(function(){var es=new EventSource('/livereload');es.onmessage=function(e){if(e.data==='reload')location.reload();};})();</script>".

(** The part of a [Handler] that changes: its templates, and the live reload that it shares with the watcher, if
    there is one. *)
Record TemplateState (T : Type) := mkTemplates { ts_tmpl : T; ts_livereload : option LiveReloadServer }.
Arguments mkTemplates {T} ts_tmpl ts_livereload.
Arguments ts_tmpl {T} _.
Arguments ts_livereload {T} _.

Section Templates.
Context {W T P : Type} `{!Has (TemplateState T) W}.
(** [template.New("").Funcs(fm).ParseGlob], [Template.ExecuteTemplate] into a buffer, [filepath.Glob] and
    [runtime.Caller(0)], which gives the path of the source file. *)
Context (ParseGlob : string -> GoM W (result T)) (ExecuteTemplate : T -> string -> titled P -> result string).
Context (Glob : string -> GoM W (result (list string))) (runtime_Caller : option string).

(** [template.Must]. *)
Definition Must {A} (m : GoM W (result A)) : GoM W A :=
  r ← m; match r with Ok a => mret a | Err e => go_panic (Error e) end.

Definition TemplateDir : GoM W string :=
  match runtime_Caller with
  | None => go_panic "cannot determine source file path"
  | Some thisFile => mret (filepath_Join [filepath_Dir thisFile; "templates"])
  end.

Definition resolveTemplatePath : GoM W string :=
  dir ← TemplateDir;
  let pattern := filepath_Join [dir; "*.html"] in
  r ← Glob pattern;
  match r with
  | Ok (_ :: _) => mret pattern
  | _ => go_panic ("no templates found at " +:+ pattern)
  end.

Definition get_templates : GoM W (TemplateState T) := fun w => (Done (part w), w).
Definition put_templates (s : TemplateState T) : GoM W unit := fun w => (Done tt, set_part s w).

(** [NewHandler] gives the path of the templates, which stays; the rest is state. *)
Definition NewHandler (livereload : option LiveReloadServer) : GoM W string :=
  tmplPath ← resolveTemplatePath;
  tmpl ← Must (ParseGlob tmplPath);
  _ ← put_templates (mkTemplates tmpl livereload);
  mret tmplPath.

Definition is_stale (s : TemplateState T) : bool :=
  match ts_livereload s with Some lr => IsStale lr | None => false end.

Definition reloadTemplates (tmplPath : string) : GoM W unit :=
  h ← get_templates;
  if negb (is_stale h) then mret tt
  else
    tmpl ← Must (ParseGlob tmplPath);
    h ← get_templates;
    _ ← put_templates (mkTemplates tmpl (ts_livereload h));
    h ← get_templates;
    put_templates (mkTemplates (ts_tmpl h) (ClearStale <$> ts_livereload h)).

Definition render (tmplPath name : string) (data : P) : GoM W reply :=
  h ← get_templates;
  _ ← (if is_stale h then reloadTemplates tmplPath else mret tt);
  h ← get_templates;
  match ExecuteTemplate (ts_tmpl h) name (mkTitled name "DDD-QCE Shop" data) with
  | Err e => mret (RpHtml ("template error: " +:+ Error e))
  | Ok text =>
      mret (RpHtml (match ts_livereload h with
                    | Some _ => str_replace1 "</body>" (livereloadScript +:+ "</body>") text
                    | None => text
                    end))
  end.
End Templates.

(** ** The server of the shop *)

(** How a handler of [Shop] ends. *)
Definition send {W T} `{!Has (TemplateState T) W} ParseGlob ExecuteTemplate (tmplPath : string) (r : shop_response) : GoM W reply :=
  match r with
  | ShopError msg code => mret (RpError msg code)
  | Redirect url code => mret (RpRedirect url code)
  | Render name data => render (T := T) ParseGlob ExecuteTemplate tmplPath name data
  | WriteBody json => mret (RpJson json)
  end.

Inductive mux_handler (W VH : Type) :=
| MuxShop (h : shop_request -> GoM W reply)
| MuxLiveReload
| MuxViewer (h : VH).
Arguments MuxShop {W VH} h.
Arguments MuxLiveReload {W VH}.
Arguments MuxViewer {W VH} h.

Record Server (W VH : Type) := mkServer {
  srv_Addr : string;
  srv_Handler : list (string * mux_handler W VH);
  srv_closes_livereload : bool }.
Arguments mkServer {W VH} srv_Addr srv_Handler srv_closes_livereload.
Arguments srv_Addr {W VH} _.
Arguments srv_Handler {W VH} _.
Arguments srv_closes_livereload {W VH} _.

Section ShopServer.
Context {W T VH : Type} `{!Has (TemplateState T) W}.
Context (ParseGlob : string -> GoM W (result T)) (ExecuteTemplate : T -> string -> titled page -> result string).
Context (Glob : string -> GoM W (result (list string))) (runtime_Caller : option string).
Context (NewWatcher : GoM W error) (watcher_Add : string -> GoM W error) (watcher_Close : GoM W unit).
Context (log_Printf : string -> GoM W unit).

(** [NewServer] over the patterns of the shop ([shop_routes]) and of the viewer ([RegisterRoutes]); without a
    watcher the shop runs all the same. *)
Definition NewServer (routes : list (string * (shop_request -> GoM W shop_response)))
    (DDDViewer_RegisterRoutes : GoM W (list (string * VH))) : GoM W (Server W VH) :=
  dir ← TemplateDir runtime_Caller;
  started ← NewLiveReloadServer NewWatcher watcher_Add watcher_Close dir;
  lr ← match started with
       | Ok lr => mret (Some lr)
       | Err e => _ ← log_Printf ("[LiveReload] Warning: could not start livereload: " +:+ Error e); mret None
       end;
  tmplPath ← NewHandler ParseGlob Glob runtime_Caller lr;
  let shop := map (fun p => (p.1, MuxShop (fun r => resp ← p.2 r; send ParseGlob ExecuteTemplate tmplPath resp))) routes in
  let live := match lr with Some _ => [("/livereload", MuxLiveReload)] | None => [] end in
  viewer ← DDDViewer_RegisterRoutes;
  mret (mkServer ":8555" (shop ++ live ++ map (fun p => (p.1, MuxViewer p.2)) viewer)
          (match lr with Some _ => true | None => false end)).
End ShopServer.

(** ** The pages and servers of the viewers *)

Section ViewerPages.
Context {W V T : Type}.
(** [ExecuteTemplate] straight into the response: what it has written when it fails has been sent. *)
Context (ExecuteTemplate : T -> string -> titled (page_data V) -> string * error).

Definition render_to (title : string) (tmpl : T) (name : string) (data : page_data V) : reply :=
  let '(text, err) := ExecuteTemplate tmpl name (mkTitled name title data) in
  RpHtml (match err with Some e => text +:+ "template error: " +:+ Error e | None => text end).

Definition DDDViewer_render := render_to "DDD Viewer".
Definition SchemaViewer_render := render_to "DDD Schema Viewer".

(** [log.Printf] and [http.Server.ListenAndServe]. *)
Context (log_Printf : string -> GoM W unit) (ListenAndServe : string -> list string -> GoM W error).

Fixpoint log_lines (lines : list string) : GoM W unit :=
  match lines with [] => mret tt | l :: lines => _ ← log_Printf l; log_lines lines end.

Definition base_url (baseURL p : string) : string := if bool_decide (baseURL = "") then p else baseURL +:+ p.

(** [SchemaViewer.RegisterRoutes]: the patterns, and the line in the log. *)
Definition schema_routes (v : SchemaViewer (W := W)) : list string :=
  ["GET " +:+ sv_Prefix v +:+ "/"; "GET " +:+ sv_Prefix v +:+ "/{table}"].

Definition count_tables (reader : option (SchemaReader W)) : GoM W Z :=
  match reader with
  | None => go_panic "nil pointer dereference"
  | Some reader => tables ← sr_ListTables reader Background; mret (zlen (ignore_error [] tables))
  end.

Definition SchemaViewer_RegisterRoutes (v : SchemaViewer (W := W)) : GoM W (list string) :=
  n ← count_tables (sv_reader v);
  _ ← log_Printf ("[DDD Schema] Schema viewer registered at " +:+ base_url (sv_baseURL v) (sv_Prefix v +:+ "/") +:+
                  " (" +:+ sv_backendType v +:+ ", " +:+ pretty n +:+ " tables)");
  mret (schema_routes v).

Definition SchemaViewer_StartServer (addr : string) (v : SchemaViewer (W := W)) : GoM W error :=
  let v := mkSchemaViewer (sv_reader v) (sv_Prefix v) (sv_backendType v) ("http://localhost" +:+ addr) in
  routes ← SchemaViewer_RegisterRoutes v;
  n ← count_tables (sv_reader v);
  _ ← log_Printf ("[DDD Schema] Schema viewer started at http://localhost" +:+ addr +:+ sv_Prefix v +:+ "/ (" +:+
                  sv_backendType v +:+ ", " +:+ pretty n +:+ " tables)");
  ListenAndServe addr routes.

(** What [DDDViewer.RegisterRoutes] logs: the last two lines but one depend on what the viewer shows. *)
Definition viewer_log (v : DDDViewer (W := W) (V := V)) (n : Z) : list string :=
  let base := base_url (v_baseURL v) (v_Prefix v) in
  ["[DDD] Viewer registered at " +:+ base +:+ "/ddd_overview (" +:+ v_backendType v +:+ ", " +:+ pretty n +:+ " tables)";
   "[DDD]   Overview:  " +:+ base +:+ "/ddd_overview";
   "[DDD]   Schema:    " +:+ base +:+ "/ddd_schema/";
   "[DDD]   Commands:  " +:+ base +:+ "/ddd_commands";
   "[DDD]   Queries:   " +:+ base +:+ "/ddd_queries";
   "[DDD]   Events:    " +:+ base +:+ "/ddd_events";
   "[DDD]   Cmd Types: " +:+ base +:+ "/ddd_command_types";
   "[DDD]   Qry Types: " +:+ base +:+ "/ddd_query_types";
   "[DDD]   Evt Types: " +:+ base +:+ "/ddd_event_types";
   "[DDD]   Domains:   " +:+ base +:+ "/ddd_domains";
   "[DDD]   Graph:     " +:+ base +:+ "/ddd_graph";
   "[DDD]   Stats:     " +:+ base +:+ "/ddd_stats"] ++
  match v_jobMgr v with Some _ => ["[DDD]   Jobs:      " +:+ base +:+ "/ddd_jobs"] | None => [] end ++
  match v_traceStore v with Some _ => ["[DDD]   Traces:    " +:+ base +:+ "/ddd_traces"] | None => [] end ++
  ["[DDD]   Health:    " +:+ base +:+ "/ddd_health"].

(** [routes] are those of [viewer_routes]. *)
Definition DDDViewer_RegisterRoutes {H} (routes : DDDViewer (W := W) (V := V) -> list (string * H))
    (v : DDDViewer (W := W) (V := V)) : GoM W (list (string * H)) :=
  n ← count_tables (v_schemaReader v);
  _ ← log_lines (viewer_log v n);
  mret (routes v).

Definition with_baseURL (url : string) (v : DDDViewer (W := W) (V := V)) : DDDViewer (W := W) (V := V) :=
  let 'mkViewer sc ms mr sr ts jm ty rr p n bt _ := v in mkViewer sc ms mr sr ts jm ty rr p n bt url.

Definition DDDViewer_StartServer {H} (routes : DDDViewer (W := W) (V := V) -> list (string * H)) (addr : string)
    (v : DDDViewer (W := W) (V := V)) : GoM W error :=
  registered ← DDDViewer_RegisterRoutes routes (with_baseURL ("http://localhost" +:+ addr) v);
  ListenAndServe addr (map fst registered).
End ViewerPages.

(** ** The functions of the templates *)

(** An argument of [formatData]: the cases of its type switch. *)
Inductive any_data (A : Type) :=
| DRaw (d : string)
| DBytes (d : string)
| DString (d : string)
| DNil
| DOther (a : A).
Arguments DRaw {A} d.
Arguments DBytes {A} d.
Arguments DString {A} d.
Arguments DNil {A}.
Arguments DOther {A} a.

Section TemplateFunctions.
Context {A : Type}.
(** [json.Indent], [json.MarshalIndent], [json.Marshal] and [%v]; [Duration.Round] to microseconds and its text. *)
Context (indent : string -> option string) (MarshalIndent Marshal : A -> result string) (sprint_v : A -> string).
Context (round_us : Z -> Z) (duration_String : Z -> string).

Definition formatAny (v : any_data A) : string :=
  match v with
  | DRaw d | DBytes d | DString d => formatData indent d
  | DNil => ""
  | DOther a => match MarshalIndent a with Ok b => b | Err _ => sprint_v a end
  end.

Definition formatDuration (d : Z) : string := if bool_decide (d = 0)%Z then "-" else duration_String (round_us d).
Definition tf_add (a b : Z) : Z := a +i b.
Definition tf_sub (a b : Z) : Z := a -i b.
(** The error is dropped, and the text is empty then. *)
Definition jsonMarshal (a : A) : string := match Marshal a with Ok b => b | Err _ => "" end.
End TemplateFunctions.

(** ** Lemmas *)

Lemma str_strip_Some pre s rest : str_strip pre s = Some rest <-> s = pre +:+ rest.
Proof.
  revert s. induction pre as [|a pre IH]; intros s; cbn; [split; [by intros [= <-]|by intros ->]|].
  destruct s as [|b s]; [done|]. destruct (Ascii.eqb a b) eqn:Hab.
  - apply Ascii.eqb_eq in Hab as ->. rewrite IH. split; [by intros ->|by intros [= ->]].
  - split; [done|]. intros [= -> ->]. by rewrite Ascii.eqb_refl in Hab.
Qed.

(** [old] does not begin before the end of [pre] in [s]. *)
Definition first_at (old pre s : string) : Prop :=
  forall p q, s = p +:+ old +:+ q -> String.length pre <= String.length p.

Lemma str_replace1_spec old new s :
  (str_replace1 old new s = s /\ forall p q, s <> p +:+ old +:+ q) \/
  exists pre post, s = pre +:+ old +:+ post /\ first_at old pre s /\ str_replace1 old new s = pre +:+ new +:+ post.
Proof.
  induction s as [|c s IH]; cbn.
  - destruct (str_strip old "") as [rest|] eqn:Hs.
    + apply str_strip_Some in Hs. right. exists "", rest. split; [done|]. split; [|done]. intros p q _. cbn. lia.
    + left. split; [done|]. intros [|] q; cbn; [|done]. intros H. symmetry in H.
      assert (str_strip old "" = Some q) as Hq by (apply str_strip_Some; congruence). congruence.
  - destruct (str_strip old (String c s)) as [rest|] eqn:Hs.
    + apply str_strip_Some in Hs. right. exists "", rest. split; [done|]. split; [|done]. intros p q _. cbn. lia.
    + assert (forall q, String c s <> old +:+ q) as Hno.
      { intros q H. apply str_strip_Some in H. congruence. }
      destruct IH as [[-> Hnone]|(pre & post & -> & Hfirst & ->)].
      * left. split; [done|]. intros [|c' p] q H; [by eapply Hno|]. injection H as _ H. by apply Hnone in H.
      * right. exists (String c pre), post. split; [done|]. split; [|done].
        intros [|c' p] q H; [by apply Hno in H|]. injection H as _ H. apply Hfirst in H. cbn. lia.
Qed.

Lemma clear_fresh (s : LiveReloadServer) : IsStale s = false -> ClearStale s = s.
Proof. destruct s as [c st cl]. cbn. by intros ->. Qed.

(** ** Properties *)

(** What the client of a page is sent. A request that finds the templates marked as stale parses them again,
    serves the page with the new ones and clears the mark, and any other request serves it with the cached ones;
    templates that cannot be parsed make the request panic and leave the mark, so that the next request tries
    again. A page that cannot be executed is answered with the error as a page. With live reload the script is put
    in front of the first closing tag of the body, and nowhere if there is none; without it the text is sent as the
    template gave it. *)
Theorem render_sends {W T P} `{!Has (TemplateState T) W, !HasLaws (TemplateState T) W}
    (ParseGlob : string -> GoM W (result T)) (ExecuteTemplate : T -> string -> titled P -> result string)
    tmplPath name data w :
  quiet (S := TemplateState T) (ParseGlob tmplPath) ->
  let h := part w in
  exists r w1, (if is_stale h then ParseGlob tmplPath w = (Done r, w1) else r = Ok (ts_tmpl h) /\ w1 = w) /\ part w1 = h /\
  match r with
  | Err e => render ParseGlob ExecuteTemplate tmplPath name data w = (Panicked (Error e), w1)
  | Ok tmpl =>
      exists body,
        render ParseGlob ExecuteTemplate tmplPath name data w =
          (Done (RpHtml body), set_part (mkTemplates tmpl (ClearStale <$> ts_livereload h)) w1) /\
        match ExecuteTemplate tmpl name (mkTitled name "DDD-QCE Shop" data), ts_livereload h with
        | Err e, _ => body = "template error: " +:+ Error e
        | Ok text, None => body = text
        | Ok text, Some _ =>
            (body = text /\ forall p q, text <> p +:+ "</body>" +:+ q) \/
            exists pre post, text = pre +:+ "</body>" +:+ post /\ first_at "</body>" pre text /\
              body = pre +:+ (livereloadScript +:+ "</body>") +:+ post
        end
  end.
Proof.
  intros Hparse h. subst h.
  set (reply_of := fun (tmpl : T) (lr : option LiveReloadServer) =>
    match ExecuteTemplate tmpl name (mkTitled name "DDD-QCE Shop" data) with
    | Err e => "template error: " +:+ Error e
    | Ok text => match lr with
                 | Some _ => str_replace1 "</body>" (livereloadScript +:+ "</body>") text
                 | None => text
                 end
    end).
  assert (forall tmpl lr, match ExecuteTemplate tmpl name (mkTitled name "DDD-QCE Shop" data), lr with
    | Err e, _ => reply_of tmpl lr = "template error: " +:+ Error e
    | Ok text, None => reply_of tmpl lr = text
    | Ok text, Some _ =>
        (reply_of tmpl lr = text /\ forall p q, text <> p +:+ "</body>" +:+ q) \/
        exists pre post, text = pre +:+ "</body>" +:+ post /\ first_at "</body>" pre text /\
          reply_of tmpl lr = pre +:+ (livereloadScript +:+ "</body>") +:+ post
    end) as Hreply.
  { intros tmpl lr. unfold reply_of. destruct (ExecuteTemplate _ _ _) as [text|]; [|done].
    destruct lr; [|done]. apply str_replace1_spec. }
  destruct (is_stale (part w)) eqn:Hs.
  - destruct (Hparse w) as (r & w1 & Hp & Hw1). exists r, w1. split; [done|]. split; [done|].
    destruct r as [tmpl|e].
    + exists (reply_of tmpl (ts_livereload (part w))). split; [|apply Hreply].
      unfold render, reloadTemplates, Must, get_templates, put_templates, mbind, go_bind. rewrite Hs. cbn. rewrite Hs. cbn. rewrite Hp.
      unfold reply_of. cbn. rewrite !part_set, set_set, Hw1. cbn.
      destruct (ExecuteTemplate _ _ _); [|done]. by destruct (ts_livereload (part w)).
    + unfold render, reloadTemplates, Must, get_templates, put_templates, mbind, go_bind.
      rewrite Hs. cbn. rewrite Hs. cbn. by rewrite Hp.
  - exists (Ok (ts_tmpl (part w))), w. split; [done|]. split; [done|].
    exists (reply_of (ts_tmpl (part w)) (ts_livereload (part w))). split; [|apply Hreply].
    assert (mkTemplates (ts_tmpl (part w)) (ClearStale <$> ts_livereload (part w)) = part w) as ->.
    { unfold is_stale in Hs. destruct (part w) as [t [lr|]]; cbn in *; [|done]. by rewrite clear_fresh. }
    rewrite set_get. unfold render, get_templates, mbind, go_bind. rewrite Hs. unfold reply_of. cbn.
    by destruct (ExecuteTemplate _ _ _).
Qed.

(** The handler's state inside the interleaving: the version of the templates, and the server. *)
#[export] Instance templates_of_run : Has (TemplateState nat) LiveReload.state := {
  part s := mkTemplates (tmpl s) (Some (server s));
  set_part h s :=
    LiveReload.mkState (default (server s) (ts_livereload h)) (files s) (queue s) (watcher s) (ts_tmpl h)
      (LiveReload.reloadMu s) (renders s) (announced s) (told s) }.

(** Parsing reads the version of the files, or fails on it. *)
Definition parse_files (parses : nat -> bool) : string -> GoM LiveReload.state (result nat) := fun _ s =>
  (Done (if parses (files s) then Ok (files s) else Err (ENew "template: syntax error")), s).

(** A request that renders alone, also one that panics, is a run of the interleaving of [LiveReload]: what is
    proved there of every run holds with the functions of the handler. *)
Theorem render_is_run {P} parses (ExecuteTemplate : nat -> string -> titled P -> result string) tmplPath name data r s :
  renders s !! r = None -> LiveReload.reloadMu s = None ->
  rtc (LiveReload.step parses) s (render (parse_files parses) ExecuteTemplate tmplPath name data s).2.
Proof.
  intros Hr Hl.
  assert (forall pc, delete r (<[r := pc]> (renders s)) = renders s) as Hrn.
  { intros pc. rewrite delete_insert_eq. by apply delete_id. }
  assert (s = LiveReload.mkState (server s) (files s) (queue s) (watcher s) (tmpl s) None (renders s) (announced s) (told s)) as Hsame.
  { destruct s; cbn in *. by subst. }
  unfold render, reloadTemplates, Must, get_templates, put_templates, parse_files, mbind, go_bind. cbn.
  unfold is_stale. cbn. destruct (IsStale (server s)) eqn:Hs; cbn.
  - eapply rtc_l; [by apply (LiveReload.s_render _ s r)|]. rewrite Hs.
    eapply rtc_l; [apply (LiveReload.s_lock _ _ r); cbn; [by rewrite lookup_insert_eq|done]|]. cbn. rewrite Hs.
    eapply rtc_l; [apply (LiveReload.s_parse _ _ r); cbn; by rewrite lookup_insert_eq|]. cbn.
    destruct (parses (files s)); cbn.
    + eapply rtc_l; [eapply (LiveReload.s_install _ _ r); cbn; by rewrite lookup_insert_eq|].
      eapply rtc_l; [eapply (LiveReload.s_clear _ _ r); cbn; by rewrite lookup_insert_eq|].
      eapply rtc_l; [eapply (LiveReload.s_write _ _ r); cbn; by rewrite lookup_insert_eq|]. cbn.
      unfold LiveReload.without_render, LiveReload.with_lock, LiveReload.with_render, LiveReload.with_server. cbn.
      rewrite !insert_insert_eq, Hrn, Hl. destruct (ExecuteTemplate _ _ _); apply rtc_refl.
    + unfold LiveReload.without_render, LiveReload.with_lock, LiveReload.with_render. cbn.
      rewrite !insert_insert_eq, Hrn. rewrite <- Hsame. apply rtc_refl.
  - destruct (ExecuteTemplate _ _ _); apply rtc_refl.
Qed.

(** ** A concrete page *)
Module DemoPage.
Definition parse : string -> GoM (TemplateState nat) (result nat) := fun _ => mret (Ok 7).
Definition execute_page : nat -> string -> titled unit -> result string := fun v name d =>
  if bool_decide (name = "orders") then Ok ("<body>" +:+ td_Title d +:+ "</body></body>") else Err (ENew "no such template").
Definition stale : TemplateState nat := mkTemplates 3 (Some (mkLiveReload ∅ true false)).
End DemoPage.
Import DemoPage.

Example page_with_script :
  render parse execute_page "*.html" "orders" tt stale =
    (Done (RpHtml ("<body>DDD-QCE Shop" +:+ livereloadScript +:+ "</body></body>")),
     mkTemplates 7 (Some (mkLiveReload ∅ false false))).
Proof. reflexivity. Qed.

Example paths :
  filepath_Join [filepath_Dir "/repo/exampleapp/interfaces/http/handlers.go"; "templates"] =
    "/repo/exampleapp/interfaces/http/templates" /\
  filepath_Clean "a/./b/../../../c" = "../c" /\ filepath_Dir "handlers.go" = "." /\ filepath_Clean "//" = "/".
Proof. vm_compute. done. Qed.

Lemma render_sends_witness :
  exists body,
    render parse execute_page "*.html" "orders" tt stale =
      (Done (RpHtml body), mkTemplates 7 (Some (mkLiveReload ∅ false false))) /\
    exists pre post, "<body>DDD-QCE Shop</body></body>" = pre +:+ "</body>" +:+ post /\
      first_at "</body>" pre "<body>DDD-QCE Shop</body></body>" /\
      body = pre +:+ (livereloadScript +:+ "</body>") +:+ post.
Proof.
  destruct (render_sends parse execute_page "*.html" "orders" tt stale) as (r & w1 & Hp & _ & H).
  { intros w. by eexists _, _. }
  cbn in Hp. injection Hp as <- <-. destruct H as (body & H1 & H2). exists body. split; [exact H1|].
  destruct H2 as [[_ H2]|H2]; [|exact H2]. exfalso. by apply (H2 "<body>DDD-QCE Shop" "</body>").
Defined.

Lemma render_is_run_witness :
  (render (parse_files DemoReload.always) (fun _ _ (_ : titled unit) => Ok "page") "*.html" "orders" tt LiveReload.init).1 =
    Done (RpHtml "page") /\
  rtc (LiveReload.step DemoReload.always) LiveReload.init
    (render (parse_files DemoReload.always) (fun _ _ (_ : titled unit) => Ok "page") "*.html" "orders" tt LiveReload.init).2.
Proof.
  split; [reflexivity|].
  apply (render_is_run DemoReload.always (fun _ _ (_ : titled unit) => Ok "page") "*.html" "orders" tt 0); reflexivity.
Defined.
