(* ===== verification/TraceExample.v ===== *)
(** * Printing traces: [src/examples/traceexample]

    The client program that prints the traces of a store as trees: the recursion over the parents of spans, which
    ends exactly because no span is its own ancestor, and what of a trace is printed. *)

From S2P Require Import Prelude Errors Trace.

(** ** The program *)

(** A printed line: the depth, and the span. *)
Definition line : Type := nat * Span.

Definition statusIcon (s : Span) : string := if bool_decide (Status s = SpanStatusError) then "ERR" else "OK".
Definition typeLabel (s : Span) : string :=
  if bool_decide (SpanType s = SpanTypeCommand) then "CMD"
  else if bool_decide (SpanType s = SpanTypeQuery) then "QRY"
  else if bool_decide (SpanType s = SpanTypeEvent) then "EVT" else "".

Fixpoint str_repeat (n : nat) (s : string) : string :=
  match n with 0 => "" | S n => s +:+ str_repeat n s end.

Section Printing.
Context (fmt_duration : Z -> string).

Definition line_text (l : line) : string :=
  str_repeat l.1 "  " +:+ "[" +:+ typeLabel l.2 +:+ "] " +:+ SpanName l.2 +:+ " " +:+ statusIcon l.2 +:+
  " (" +:+ fmt_duration (Duration l.2) +:+ ")".

(** [printNodes]: the loop over all spans, with the recursion for a child; none if the fuel runs out, as the stack
    does of a span that is its own ancestor. *)
Fixpoint printNodes (fuel : nat) (allSpans : list Span) (parentID : string) (indent : nat) : option (list line) :=
  match fuel with
  | 0 => None
  | S fuel =>
      (fix loop (spans : list Span) : option (list line) :=
         match spans with
         | [] => Some []
         | span :: rest =>
             if negb (bool_decide (ParentID span = parentID)) then loop rest
             else
               sub ← printNodes fuel allSpans (SpanID span) (S indent);
               more ← loop rest;
               Some ((indent, span) :: sub ++ more)
         end) allSpans
  end.

Definition printSpanTree (fuel : nat) (spans : list Span) (indent : nat) : option (list line) :=
  printNodes fuel spans "" indent.

(** [PrintTraces]: the header of each trace and its lines; a trace that cannot be read is passed over. *)
Fixpoint print_each (fuel : nat) (traceIDs : list string) (s : InMemoryTraceStore) : outcome (option (list string)) :=
  match traceIDs with
  | [] => Done (Some [])
  | traceID :: rest =>
      got ← GetTrace traceID s;
      more ← print_each fuel rest s;
      mret (match got with
            | Err _ => more
            | Ok spans =>
                tree ← printSpanTree fuel spans 0;
                more ← more;
                Some (("Trace ID: " +:+ traceID +:+ " (" +:+ pretty (zlen spans) +:+ " spans)") :: map line_text tree ++ more)
            end)
  end.

Definition PrintTraces (fuel : nat) (s : InMemoryTraceStore) : outcome (option (list string)) :=
  traceIDs ← ListTraces (mkFilter "" "" "" time_zero time_zero "") s;
  print_each fuel traceIDs s.
End Printing.

(** ** The tree of a trace *)

Section Tree.
Context (all : list Span).

(** The spans under a parent: those that name it, and those under a span that does. *)
Inductive under (p : string) : Span -> Prop :=
| under_child s : s ∈ all -> ParentID s = p -> under p s
| under_deeper c s : c ∈ all -> ParentID c = p -> under (SpanID c) s -> under p s.

(** No span is its own ancestor: the parents come before their children in some order. *)
Record well_founded_trace (rank : string -> nat) (n : nat) : Prop := {
  ids_distinct : NoDup (map SpanID all);
  parent_before : forall s, s ∈ all -> rank (ParentID s) < rank (SpanID s) <= n }.

Context (rank : string -> nat) (n : nat) (Hall : well_founded_trace rank n).

Lemma under_all p s : under p s -> s ∈ all.
Proof. induction 1; auto. Qed.

Lemma under_rank p s : under p s -> rank p < rank (SpanID s).
Proof.
  induction 1 as [p s Hs <-|p c s Hc <- _ IH]; [by apply (parent_before _ _ Hall)|].
  pose proof (parent_before _ _ Hall c Hc). lia.
Qed.

(** A span whose parent is under [p] is under [p]. *)
Lemma under_below p q s : under p q -> s ∈ all -> ParentID s = SpanID q -> under p s.
Proof.
  intros Hu Hs Hp. induction Hu as [p q Hq Hqp|p c q Hc Hcp _ IH].
  - apply (under_deeper _ q); [done|done|]. by apply under_child.
  - apply (under_deeper _ c); [done|done|]. by apply IH.
Qed.

(** A parent that a span is under is its own, or its parent is under it. *)
Lemma under_up p s : under p s -> ParentID s = p \/ exists q, q ∈ all /\ SpanID q = ParentID s /\ under p q.
Proof.
  induction 1 as [p s Hs Hp|p c s Hc Hp Hu IH]; [by left|right].
  destruct IH as [Heq|(q & Hq & Hid & Hqu)].
  - exists c. split_and!; [done|done|by apply under_child].
  - exists q. split_and!; [done..|by apply (under_deeper _ c)].
Qed.

Lemma same_span s t : s ∈ all -> t ∈ all -> SpanID s = SpanID t -> s = t.
Proof.
  intros [i Hi]%list_elem_of_lookup [j Hj]%list_elem_of_lookup Heq.
  assert (i = j) as ->; [|congruence].
  eapply (NoDup_lookup (map SpanID all)); [apply (ids_distinct _ _ Hall)| |].
  - rewrite list_lookup_fmap, Hi. done.
  - rewrite list_lookup_fmap, Hj. cbn. by rewrite Heq.
Qed.

(** Two children of one parent have no span under both, and none is under the other. *)
Lemma children_apart c d s :
  c ∈ all -> d ∈ all -> ParentID c = ParentID d -> c <> d -> (s = c \/ under (SpanID c) s) -> ~ (s = d \/ under (SpanID d) s).
Proof.
  intros Hc Hd Hp Hne.
  assert (forall x y, x ∈ all -> y ∈ all -> ParentID x = ParentID y -> ~ under (SpanID x) y) as Hno.
  { intros x y Hx Hy Hxy Hu. apply under_up in Hu as [Heq|(q & Hq & Hid & Hu)].
    - pose proof (parent_before _ _ Hall x Hx). rewrite <- Heq in *. rewrite Hxy in *. lia.
    - apply under_rank in Hu. pose proof (parent_before _ _ Hall x Hx). rewrite Hid, <- Hxy in Hu. lia. }
  assert (forall m s, rank (SpanID s) <= m -> under (SpanID c) s -> under (SpanID d) s -> False) as Hboth.
  { intros m. induction m as [|m IH]; intros t Hm Hct Hdt.
    - apply under_rank in Hct. lia.
    - pose proof (under_rank _ _ Hct). pose proof (under_all _ _ Hct) as Ht. pose proof (parent_before _ _ Hall t Ht).
      apply under_up in Hct as [Hct|(q & Hq & Hqid & Hcq)]; apply under_up in Hdt as [Hdt|(q' & Hq' & Hqid' & Hdq)].
      + apply Hne. apply same_span; [done..|congruence].
      + assert (c = q') as <- by (apply same_span; [done..|congruence]). by apply (Hno d c).
      + assert (d = q) as <- by (apply same_span; [done..|congruence]). by apply (Hno c d).
      + assert (q = q') as <- by (apply same_span; [done..|congruence]). apply (IH q); [|done..].
        rewrite Hqid. lia. }
  intros [->|Hs] [Heq|Hs'].
  - done.
  - by apply (Hno d c).
  - subst. by apply (Hno c d).
  - by apply (Hboth (rank (SpanID s)) s).
Qed.

(** ** What is printed *)

(** The loop of [printNodes]. *)
Section Loop.
Context (fuel : nat) (parentID : string) (indent : nat).
Fixpoint loop (spans : list Span) : option (list line) :=
  match spans with
  | [] => Some []
  | span :: rest =>
      if negb (bool_decide (ParentID span = parentID)) then loop rest
      else
        sub ← printNodes fuel all (SpanID span) (S indent);
        more ← loop rest;
        Some ((indent, span) :: sub ++ more)
  end.
End Loop.

Lemma printNodes_loop fuel p i : printNodes (S fuel) all p i = loop fuel p i all.
Proof. reflexivity. Qed.

(** Exactly the spans under the parent, each once. *)
Definition prints (p : string) (ls : list line) : Prop :=
  NoDup (map snd ls) /\ forall s, s ∈ map snd ls <-> under p s.

Lemma loop_prints fuel p i spans :
  spans ⊆ all -> NoDup spans ->
  (forall c, c ∈ all -> ParentID c = p -> exists ls, printNodes fuel all (SpanID c) (S i) = Some ls /\ prints (SpanID c) ls) ->
  exists ls, loop fuel p i spans = Some ls /\ NoDup (map snd ls) /\
    forall s, s ∈ map snd ls <-> exists c, c ∈ spans /\ ParentID c = p /\ (s = c \/ under (SpanID c) s).
Proof.
  intros Hsub Hnd Hrec. induction spans as [|c spans IH]; cbn.
  - exists []. split; [done|]. split; [constructor|]. intros s. split; [by intros ?%elem_of_nil|].
    by intros (c & ?%elem_of_nil & _).
  - apply NoDup_cons in Hnd as [Hnew Hnd]. assert (c ∈ all) as Hc by (apply Hsub; by left).
    destruct IH as (more & Hmore & Hnm & Him); [intros x Hx; apply Hsub; by right|done|].
    case_bool_decide as Hp; cbn.
    + destruct (Hrec c Hc Hp) as (sub & -> & Hns & His). rewrite Hmore. cbn. eexists. split; [done|].
      rewrite map_cons, map_app. cbn. split.
      * apply NoDup_cons. split.
        { rewrite elem_of_app, His, Him. intros [Hu|(d & Hd & Hdp & Hu)].
          - apply under_rank in Hu. lia.
          - assert (c <> d) by (by intros ->).
            apply (children_apart c d c Hc); [apply Hsub; by right|congruence|done|by left|done]. }
        apply NoDup_app. split; [done|]. split; [|done]. intros s Hs%His (d & Hd & Hdp & Hu)%Him.
        assert (c <> d) by (by intros ->).
        apply (children_apart c d s Hc); [apply Hsub; by right|congruence|done|by right|done].
      * intros s. rewrite elem_of_cons, elem_of_app, His, Him. split.
        { intros [->|[Hu|(d & Hd & Hdp & Hu)]].
          - exists c. split; [by left|]. auto.
          - exists c. split; [by left|]. auto.
          - exists d. split; [by right|]. auto. }
        intros (d & [->|Hd]%elem_of_cons & Hdp & Hu); [destruct Hu; auto|]. right. right. eauto.
    + exists more. split; [done|]. split; [done|]. intros s. rewrite Him. split.
      * intros (d & Hd & H). exists d. split; [by right|done].
      * intros (d & [->|Hd]%elem_of_cons & Hdp & H); [done|eauto].
Qed.

Lemma under_iff p s : under p s <-> exists c, c ∈ all /\ ParentID c = p /\ (s = c \/ under (SpanID c) s).
Proof.
  split.
  - intros []; eauto 10.
  - intros (c & Hc & Hp & [->|Hu]); [by apply under_child|by eapply under_deeper].
Qed.

Lemma printNodes_prints fuel p i :
  rank p <= n -> n < rank p + fuel -> exists ls, printNodes fuel all p i = Some ls /\ prints p ls.
Proof.
  revert p i. induction fuel as [|fuel IH]; intros p i Hn Hf; [lia|].
  rewrite printNodes_loop. destruct (loop_prints fuel p i all) as (ls & Hls & Hnd & Hin).
  - done.
  - eapply NoDup_fmap_1. apply (ids_distinct _ _ Hall).
  - intros c Hc Hp. pose proof (parent_before _ _ Hall c Hc). subst p. apply IH; lia.
  - exists ls. split; [done|]. split; [done|]. intros s. by rewrite Hin, under_iff.
Qed.
End Tree.

(** ** Properties *)

(** Printing a trace ends, provided that no span is its own ancestor and that identities are distinct: with fuel
    for one call more than the longest line of ancestors it prints every span whose line of ancestors ends at a root,
    each once, and no other; so a trace in which every parent is a span of the trace is printed whole. *)
Theorem trace_printed (all : list Span) rank n :
  well_founded_trace all rank n -> rank "" <= n ->
  exists ls, printSpanTree (S n) all 0 = Some ls /\
    NoDup (map snd ls) /\ (forall s, s ∈ map snd ls <-> under all "" s) /\
    ((forall s, s ∈ all -> ParentID s = "" \/ exists q, q ∈ all /\ SpanID q = ParentID s) -> map snd ls ≡ₚ all).
Proof.
  intros Hall Hn. destruct (printNodes_prints all rank n Hall (S n) "" 0 Hn) as (ls & Hls & Hnd & Hin); [lia|].
  exists ls. split; [exact Hls|]. split; [done|]. split; [done|]. intros Hparents.
  assert (forall m s, rank (SpanID s) <= m -> s ∈ all -> under all "" s) as Hroot.
  { intros m. induction m as [|m IH]; intros s Hm Hs; pose proof (parent_before _ _ _ Hall s Hs); [lia|].
    destruct (Hparents s Hs) as [Hp|(q & Hq & Hqid)]; [by apply under_child|].
    apply (under_below _ "" q s); [|done|by rewrite Hqid]. apply IH; [|done]. rewrite Hqid. lia. }
  apply NoDup_Permutation; [done|eapply NoDup_fmap_1, (ids_distinct _ _ _ Hall)|].
  intros s. rewrite Hin. split; [apply under_all|by apply (Hroot (rank (SpanID s)))].
Qed.

(** ** A concrete trace *)
Module DemoTrace.
Definition span (i p name : string) : Span := mkSpan i "t" p SpanTypeCommand name SpanStatusSuccess "" 0 5.
Definition tree : list Span := [span "c" "b" "SendNotification"; span "b" "a" "OrderPlaced"; span "a" "" "PlaceOrder"; span "d" "b" "UpdateInventory"].
Definition rank (i : string) : nat :=
  if bool_decide (i = "") then 0 else if bool_decide (i = "a") then 1 else if bool_decide (i = "b") then 2 else 3.
(** A root without an identity is its own parent and its own child. *)
Definition nameless : list Span := [span "" "" "PlaceOrder"].
End DemoTrace.
Import DemoTrace.

Example prints_tree :
  option_map (map (fun l => (l.1, SpanName l.2))) (printSpanTree 4 tree 0) =
    Some [(0, "PlaceOrder"); (1, "OrderPlaced"); (2, "SendNotification"); (2, "UpdateInventory")].
Proof. vm_compute. reflexivity. Qed.

(** No fuel is enough for a root whose identity is empty. *)
Theorem nameless_root_diverges fuel i : printNodes fuel nameless "" i = None.
Proof. revert i. induction fuel as [|fuel IH]; intros i; [done|]. cbn. by rewrite IH. Qed.

Lemma trace_printed_witness :
  exists ls, printSpanTree 4 tree 0 = Some ls /\ map snd ls ≡ₚ tree.
Proof.
  destruct (trace_printed tree rank 3) as (ls & H1 & _ & _ & H2).
  - split.
    + apply (bool_decide_unpack _). vm_compute. exact I.
    + intros s Hs. apply list_elem_of_In in Hs as [<-|[<-|[<-|[<-|[]]]]]; vm_compute; lia.
  - vm_compute. lia.
  - exists ls. split; [exact H1|]. apply H2. intros s Hs. apply list_elem_of_In in Hs as [<-|[<-|[<-|[<-|[]]]]].
    + right. exists (span "b" "a" "OrderPlaced"). split; [apply list_elem_of_In; cbn; tauto|reflexivity].
    + right. exists (span "a" "" "PlaceOrder"). split; [apply list_elem_of_In; cbn; tauto|reflexivity].
    + left. reflexivity.
    + right. exists (span "b" "a" "OrderPlaced"). split; [apply list_elem_of_In; cbn; tauto|reflexivity].
Defined.
