(* ===== verification/CallTrace.v ===== *)
(** * The trace of a request is its call tree: [tracing.go] of [src/aspect/builtin] with [src/examples/traceexample]

    Handlers call the buses with the context that they are given. This file runs such nested calls through the
    tracing aspects of [Builtin] over a store that keeps its spans, and shows what [TraceExample] prints of them. *)

From S2P Require Import Prelude Errors Trace Aspect Bus Builtin TraceExample.

(** ** Calls in calls *)

Inductive call_kind := KCommand | KQuery | KEvent.
Definition kind_type (k : call_kind) : string :=
  match k with KCommand => SpanTypeCommand | KQuery => SpanTypeQuery | KEvent => SpanTypeEvent end.

(** A call: its kind and message, the calls that its handler makes, one after the other, and the handler's error. *)
Inductive traced_call (V : Type) := TracedCall (k : call_kind) (msg : V) (inner : list (traced_call V)) (err : error).
Arguments TracedCall {V} k msg inner err.

Section Induction.
Context {V : Type} (P : traced_call V -> Prop).
Context (H : forall k msg inner err, Forall P inner -> P (TracedCall k msg inner err)).
Fixpoint traced_call_ind' (c : traced_call V) : P c :=
  match c with
  | TracedCall k msg inner err =>
      H k msg inner err
        ((fix go (l : list (traced_call V)) : Forall P l :=
            match l with
            | [] => Forall_nil_2 P
            | c :: l => Forall_cons_2 P c l (traced_call_ind' c) (go l)
            end) inner)
  end.
End Induction.

Section Run.
Context {W V : Type} `{!Dynamic V, !Clock W, !IdGen W} (nil_result : V).
Context (store : TraceStore W) (logger : option (Logger W)).

(** A call through the tracing aspect of its bus; [inner] is what the handler does before it returns. *)
Definition through {R} (nil_ : R) (a : Aspect W V R) (ctx : context) (msg : V) (err : error)
    (inner : context -> GoM W unit) : GoM W error :=
  '(_, e) ← run_aspects nil_ ctx msg (fun ctx => _ ← inner ctx; mret (nil_, err)) [a]; mret e.

Definition run_traced (k : call_kind) (ctx : context) (msg : V) (err : error) (inner : context -> GoM W unit) : GoM W error :=
  match k with
  | KCommand => through nil_result (TracingAspect_Command (Some store) logger) ctx msg err inner
  | KQuery => through nil_result (TracingAspect_Query (Some store) logger) ctx msg err inner
  | KEvent => through tt (TracingAspect_Event (Some store) logger) ctx msg err inner
  end.

Fixpoint run_call (c : traced_call V) (ctx : context) {struct c} : GoM W error :=
  match c with
  | TracedCall k msg inner err =>
      run_traced k ctx msg err (fun ctx =>
        (fix go (l : list (traced_call V)) : GoM W unit :=
           match l with [] => mret tt | c :: l => _ ← run_call c ctx; go l end) inner)
  end.

Definition run_calls (l : list (traced_call V)) (ctx : context) : GoM W unit :=
  (fix go (l : list (traced_call V)) : GoM W unit :=
     match l with [] => mret tt | c :: l => _ ← run_call c ctx; go l end) l.
End Run.

(** ** Trees of spans *)

Inductive span_tree := SpanNode (s : Span) (kids : list span_tree).
Definition tree_root (t : span_tree) : Span := match t with SpanNode s _ => s end.

Section TreeInduction.
Context (P : span_tree -> Prop) (H : forall s kids, Forall P kids -> P (SpanNode s kids)).
Fixpoint span_tree_ind' (t : span_tree) : P t :=
  match t with
  | SpanNode s kids =>
      H s kids
        ((fix go (l : list span_tree) : Forall P l :=
            match l with [] => Forall_nil_2 P | t :: l => Forall_cons_2 P t l (span_tree_ind' t) (go l) end) kids)
  end.
End TreeInduction.

(** Spans are recorded when calls return, and printed as calls begin. *)
Fixpoint postorder (t : span_tree) : list Span :=
  match t with SpanNode s kids => concat (map postorder kids) ++ [s] end.
Fixpoint preorder (i : nat) (t : span_tree) : list line :=
  match t with SpanNode s kids => (i, s) :: concat (map (preorder (S i)) kids) end.
Fixpoint tree_depth (t : span_tree) : nat :=
  match t with SpanNode _ kids => S (foldr (fun t d => Nat.max (tree_depth t) d) 0 kids) end.

Definition flat (f : list span_tree) : list Span := concat (map postorder f).
Definition ids (l : list Span) : list string := map SpanID l.
Definition child_of (p : string) (s : Span) : Prop := ParentID s = p.
#[local] Instance child_of_dec p s : Decision (child_of p s) := decide (ParentID s = p).

(** The spans of a call: those of its own and of the calls inside it, which name it as their parent. *)
Inductive describes {V : Type} `{!Dynamic V} (tid : string) : string -> traced_call V -> span_tree -> Prop :=
| describes_node parent k msg inner err s kids :
    TraceID s = tid -> ParentID s = parent -> SpanType s = kind_type k -> typeName msg = Done (SpanName s) ->
    Status s = span_status err -> SpanError s = match err with Some e => Error e | None => "" end ->
    Forall2 (describes tid (SpanID s)) inner kids ->
    describes tid parent (TracedCall k msg inner err) (SpanNode s kids).

(** ** Printing a tree *)

(** The spans of [all] under each node of the tree are its kids, in their order. *)
Inductive linked_in (all : list Span) : span_tree -> Prop :=
| linked_node s kids :
    filter (child_of (SpanID s)) all = map tree_root kids -> Forall (linked_in all) kids -> linked_in all (SpanNode s kids).

(** Every node names the one above as its parent. *)
Inductive parented : string -> span_tree -> Prop :=
| parented_node p s kids : ParentID s = p -> Forall (parented (SpanID s)) kids -> parented p (SpanNode s kids).

Lemma loop_children fuel all p i spans (f : Span -> list line) :
  (forall s, s ∈ filter (child_of p) spans -> printNodes fuel all (SpanID s) (S i) = Some (f s)) ->
  loop all fuel p i spans = Some (concat (map (fun s => (i, s) :: f s) (filter (child_of p) spans))).
Proof.
  induction spans as [|s spans IH]; intros Hf; [done|]. cbn [loop].
  rewrite filter_cons in *. unfold child_of in Hf |- * at 1. repeat case_decide; repeat case_bool_decide; try congruence; cbn.
  - rewrite Hf by by left. rewrite IH; [done|]. intros t Ht. apply Hf. by right.
  - by apply IH.
Qed.

Lemma depth_kid t kids : t ∈ kids -> tree_depth t <= foldr (fun t d => Nat.max (tree_depth t) d) 0 kids.
Proof. induction kids as [|u kids IH]; intros Ht; [by apply elem_of_nil in Ht|]. cbn. apply elem_of_cons in Ht as [->|Ht]; [lia|]. specialize (IH Ht). lia. Qed.

Definition kids_lines (i : nat) (t : span_tree) : list line :=
  match t with SpanNode _ kids => concat (map (preorder i) kids) end.
Lemma preorder_root i t : preorder i t = (i, tree_root t) :: kids_lines (S i) t.
Proof. by destruct t. Qed.

(** What is printed under a linked node: the function finds a kid's tree by its span. *)
Lemma concat_kids i (f : Span -> list line) kids :
  (forall t, t ∈ kids -> f (tree_root t) = kids_lines (S i) t) ->
  concat (map (fun s => (i, s) :: f s) (map tree_root kids)) = concat (map (preorder i) kids).
Proof.
  induction kids as [|t kids IH]; intros Hf; [done|]. cbn [map concat].
  rewrite (Hf t) by by left. rewrite IH; [by rewrite preorder_root|]. intros u Hu. apply Hf. by right.
Qed.

Lemma print_linked all t fuel i :
  linked_in all t -> tree_depth t <= fuel -> printNodes fuel all (SpanID (tree_root t)) i = Some (kids_lines i t).
Proof.
  revert fuel i. induction t as [s kids IH] using span_tree_ind'. intros fuel i Hl Hd. inversion Hl as [? ? Hk Hf]; subst.
  cbn [tree_depth] in Hd. destruct fuel as [|fuel]; [lia|]. cbn [tree_root kids_lines]. rewrite printNodes_loop.
  set (f := fun s => default [] (printNodes fuel all (SpanID s) (S i))).
  assert (forall t, t ∈ kids -> printNodes fuel all (SpanID (tree_root t)) (S i) = Some (kids_lines (S i) t)) as Hkid.
  { intros t Ht. apply (proj1 (Forall_forall _ _) IH t Ht); [by apply (proj1 (Forall_forall _ _) Hf)|].
    apply depth_kid in Ht. lia. }
  rewrite (loop_children _ _ _ _ _ f), Hk.
  - f_equal. apply concat_kids. intros t Ht. unfold f. by rewrite Hkid.
  - intros u Hu. rewrite Hk in Hu. apply list_elem_of_fmap in Hu as (t & -> & Ht). unfold f. by rewrite Hkid.
Qed.

(** ** The recorded spans of a tree are linked *)

Lemma elem_of_flat s kids : s ∈ flat kids <-> exists t, t ∈ kids /\ s ∈ postorder t.
Proof.
  unfold flat. induction kids as [|u kids IH]; cbn.
  - split; [by intros ?%elem_of_nil|by intros (t & ?%elem_of_nil & _)].
  - rewrite elem_of_app, IH. split.
    + intros [Hs|(t & Ht & Hs)]; [exists u; split; [by left|done]|exists t; split; [by right|done]].
    + intros (t & [->|Ht]%elem_of_cons & Hs); eauto.
Qed.

Lemma ids_flat p kids : p ∈ ids (flat kids) <-> exists t, t ∈ kids /\ p ∈ ids (postorder t).
Proof.
  unfold ids. setoid_rewrite list_elem_of_fmap. setoid_rewrite elem_of_flat. split.
  - intros (s & -> & t & Ht & Hs). exists t. split; [done|]. by exists s.
  - intros (t & Ht & s & -> & Hs). exists s. split; [done|]. by exists t.
Qed.

Lemma ids_node s kids : ids (postorder (SpanNode s kids)) = ids (flat kids) ++ [SpanID s].
Proof. unfold ids, flat. cbn. by rewrite map_app. Qed.

Lemma linked_transfer all all' t :
  (forall p, p ∈ ids (postorder t) -> filter (child_of p) all' = filter (child_of p) all) -> linked_in all t -> linked_in all' t.
Proof.
  induction t as [s kids IH] using span_tree_ind'. intros Hsame Hl. inversion Hl as [? ? Hk Hf]; subst.
  rewrite ids_node in Hsame. constructor.
  - rewrite Hsame; [done|]. apply elem_of_app. right. by left.
  - apply Forall_forall. intros t Ht. apply (proj1 (Forall_forall _ _) IH t Ht); [|by apply (proj1 (Forall_forall _ _) Hf)].
    intros p Hp. apply Hsame, elem_of_app. left. apply ids_flat. eauto.
Qed.

(** A span of a tree is its root or names a node of the tree. *)
Lemma parented_in q t s :
  parented q t -> s ∈ postorder t -> (s = tree_root t /\ ParentID s = q) \/ ParentID s ∈ ids (postorder t).
Proof.
  revert q. induction t as [r kids IH] using span_tree_ind'. intros q Hp Hs. inversion Hp as [? ? ? Hr Hkids]; subst.
  cbn in Hs. apply elem_of_app in Hs as [Hs|Hs]; [|apply list_elem_of_singleton in Hs as ->; by left].
  right. apply elem_of_flat in Hs as (t & Ht & Hs). rewrite ids_node. apply elem_of_app.
  destruct (proj1 (Forall_forall _ _) IH t Ht (SpanID r)) as [[_ ->]|Hin];
    [by apply (proj1 (Forall_forall _ _) Hkids)|done|right; by left|].
  left. apply ids_flat. eauto.
Qed.

Lemma filter_nothing {A} (P : A -> Prop) `{!forall x, Decision (P x)} l : (forall x, x ∈ l -> ~ P x) -> filter P l = [].
Proof.
  induction l as [|x l IH]; intros Hl; [done|]. rewrite filter_cons_False by (apply Hl; by left).
  apply IH. intros y Hy. apply Hl. by right.
Qed.

Lemma filter_every {A} (P : A -> Prop) `{!forall x, Decision (P x)} (l : list A) : (forall x, x ∈ l -> P x) -> filter P l = l.
Proof.
  induction l as [|x l IH]; intros Hl; [done|]. rewrite filter_cons_True by (apply Hl; by left).
  f_equal. apply IH. intros y Hy. apply Hl. by right.
Qed.

(** Trees next to a tree with other identities hold no child of its nodes. *)
Lemma no_child_beside q p f :
  Forall (parented q) f -> p <> q -> ~ (p ∈ ids (flat f)) -> filter (child_of p) (flat f) = [].
Proof.
  intros Hf Hne Hp. apply filter_nothing. intros s Hs Hc. unfold child_of in Hc. subst p.
  apply elem_of_flat in Hs as (t & Ht & Hs).
  destruct (parented_in q t s) as [[_ Hq]|Hin]; [by apply (proj1 (Forall_forall _ _) Hf)|done|done|].
  apply Hp, ids_flat. eauto.
Qed.

Lemma flat_app f g : flat (f ++ g) = flat f ++ flat g.
Proof. unfold flat. by rewrite map_app, concat_app. Qed.

(** The children of [q] in a forest under [q] are its roots. *)
Lemma roots_of_forest q f :
  Forall (parented q) f -> ~ (q ∈ ids (flat f)) -> filter (child_of q) (flat f) = map tree_root f.
Proof.
  induction f as [|t f IH]; intros Hf Hq; [done|]. apply Forall_cons in Hf as [Ht Hf].
  change (flat (t :: f)) with (postorder t ++ flat f) in *. unfold ids in Hq. rewrite map_app, elem_of_app in Hq.
  rewrite list.filter_app, IH by naive_solver. cbn. f_equal. destruct t as [r kids].
  inversion Ht as [? ? ? Hr Hkids]; subst. cbn. fold (flat kids).
  assert (~ (ParentID r ∈ ids (flat kids)) /\ ParentID r <> SpanID r) as [H1 H2].
  { change (map SpanID (postorder (SpanNode r kids))) with (ids (postorder (SpanNode r kids))) in Hq.
    rewrite ids_node, elem_of_app, list_elem_of_singleton in Hq. tauto. }
  rewrite list.filter_app, (no_child_beside (SpanID r)) by done.
  rewrite app_nil_l. by rewrite filter_cons_True by done.
Qed.

Lemma linked_self q t : parented q t -> ~ (q ∈ ids (postorder t)) -> NoDup (ids (postorder t)) -> linked_in (postorder t) t.
Proof.
  revert q. induction t as [r kids IH] using span_tree_ind'. intros q Hp Hq Hnd. inversion Hp as [? ? ? Hr Hkids]; subst.
  rewrite ids_node in Hq, Hnd. apply NoDup_app in Hnd as (Hnd & Hdis & _).
  assert (~ (SpanID r ∈ ids (flat kids))) as Hnr by (intros Hin; apply (Hdis _ Hin); by left).
  assert (ParentID r <> SpanID r) as Hne by (intros He; apply Hq, elem_of_app; right; rewrite He; by left).
  assert (forall p, p <> ParentID r -> filter (child_of p) (postorder (SpanNode r kids)) = filter (child_of p) (flat kids)) as Hroot.
  { intros p Hpne. cbn. fold (flat kids). rewrite list.filter_app, filter_cons_False by (unfold child_of; congruence). by rewrite app_nil_r. }
  constructor.
  - rewrite Hroot by congruence. by apply roots_of_forest.
  - apply Forall_forall. intros t [l1 [l2 ->]]%list_elem_of_split.
    assert (~ (SpanID r ∈ ids (postorder t))) as Hnt.
    { intros Hin. apply Hnr, ids_flat. exists t. split; [apply elem_of_app; right; by left|done]. }
    rewrite flat_app in *. change (flat (t :: l2)) with (postorder t ++ flat l2) in *.
    unfold ids in Hnd. rewrite !map_app in Hnd. apply NoDup_app in Hnd as (_ & Hd1 & (Hndt & Hd2 & _)%NoDup_app).
    apply Forall_app in Hkids as [Hk1 [Hkt Hk2]%Forall_cons].
    apply (linked_transfer (postorder t)).
    + intros p Hin. rewrite Hroot.
      * rewrite !list.filter_app, (no_child_beside (SpanID r) p l1), (no_child_beside (SpanID r) p l2); [by rewrite app_nil_r|..];
          try done; try (by intros ->).
        -- intros Hx. by apply (Hd2 p).
        -- intros Hx. apply (Hd1 p); [done|]. apply elem_of_app. by left.
      * intros ->. apply Hq. apply elem_of_app. left. unfold ids. rewrite !map_app. apply elem_of_app. right.
        apply elem_of_app. by left.
    + apply (proj1 (Forall_forall _ _) IH t) with (q := SpanID r); [apply elem_of_app; right; by left|done..].
Qed.

(** ** Running the calls *)

(** What the model of the run relies on: the store keeps what it is given, identities are drawn only once and are
    not empty, and neither reading the clock nor drawing an identity touches the store. *)
Class TracedWorld {W : Type} `{!Clock W, !IdGen W} (store : TraceStore W) (recorded : W -> list Span)
    (unused : W -> string -> Prop) : Prop := {
  record_keeps : forall ctx s w, exists w', store_RecordSpan store ctx s w = (Done None, w') /\
    recorded w' = recorded w ++ [s] /\ forall i, unused w' i -> unused w i;
  clock_keeps : forall w t w', now w = (t, w') -> recorded w' = recorded w /\ forall i, unused w' i -> unused w i;
  ids_fresh : forall w i w', fresh_id w = (i, w') ->
    i <> "" /\ unused w i /\ ~ unused w' i /\ recorded w' = recorded w /\ forall j, unused w' j -> unused w j }.

Section Runs.
Context {W V : Type} `{!Dynamic V, !Clock W, !IdGen W} (nil_result : V).
Context (store : TraceStore W) (logger : option (Logger W)) (recorded : W -> list Span) (unused : W -> string -> Prop).
Context `{HW : !TracedWorld store recorded unused}.
Implicit Types (w : W) (c : traced_call V) (t : span_tree).

(** Identities in use stay in use. *)
Definition uses_more w w' : Prop := forall i, unused w' i -> unused w i.

(** The spans of a tree have identities of their own, drawn between two worlds. *)
Definition drawn w w' (l : list Span) : Prop :=
  NoDup (ids l) /\ (forall i, i ∈ ids l -> i <> "" /\ unused w i /\ ~ unused w' i).

Lemma drawn_app w w1 w2 l l' :
  uses_more w w1 -> uses_more w1 w2 -> drawn w w1 l -> drawn w1 w2 l' -> drawn w w2 (l ++ l').
Proof.
  intros H1 H2 [Hn Hl] [Hn' Hl']. unfold drawn, ids. rewrite map_app. split.
  - apply NoDup_app. split_and!; [done| |done]. intros i Hi Hi'. apply Hl in Hi as (_ & _ & Hi). apply Hl' in Hi' as (_ & Hi' & _). done.
  - intros i [Hi|Hi]%elem_of_app.
    + apply Hl in Hi as (? & ? & Hi). split_and!; [done..|]. intros Hx. by apply Hi, H2.
    + apply Hl' in Hi as (? & ? & ?). auto.
Qed.

(** The messages have a type to name the span by. *)
Fixpoint named (c : traced_call V) : Prop :=
  match c with TracedCall _ msg inner _ => (exists n, typeName msg = Done n) /\ foldr (fun c p => named c /\ p) True inner end.

(** Opening a span. *)
Lemma before_opens kind ctx (msg : V) n w :
  typeName msg = Done n ->
  exists newCtx span w', tracing_before kind ctx msg w = (Done (newCtx, None), w') /\ openSpan newCtx = Some span /\
    GetTraceID newCtx <> "" /\ (GetTraceID ctx <> "" -> GetTraceID newCtx = GetTraceID ctx) /\
    (GetTraceID ctx = "" -> unused w (GetTraceID newCtx)) /\ GetSpanID newCtx = SpanID span /\
    TraceID span = GetTraceID newCtx /\ ParentID span = GetSpanID ctx /\ SpanType span = kind /\ SpanName span = n /\
    SpanError span = "" /\ SpanID span <> "" /\ unused w (SpanID span) /\ ~ unused w' (SpanID span) /\
    recorded w' = recorded w /\ uses_more w w'.
Proof.
  intros Hn. unfold tracing_before. unfold_go. rewrite Hn.
  assert (exists tid w1, (if bool_decide (GetTraceID ctx = "") then NewTraceID else fun w => (Done (GetTraceID ctx), w)) w = (Done tid, w1) /\
    tid <> "" /\ (GetTraceID ctx <> "" -> tid = GetTraceID ctx) /\ (GetTraceID ctx = "" -> unused w tid) /\
    recorded w1 = recorded w /\ uses_more w w1) as (tid & w1 & -> & Ht & Hold & Hnew & Hr1 & Hu1).
  { case_bool_decide as He.
    - unfold NewTraceID, new_uuid. destruct (fresh_id w) as [i w1] eqn:Hi. apply ids_fresh in Hi as (? & ? & _ & ? & ?).
      exists i, w1. by split_and!.
    - exists (GetTraceID ctx), w. split_and!; try done; intros; congruence. }
  unfold NewSpanID, new_uuid. destruct (fresh_id w1) as [sid w2] eqn:Hi. apply ids_fresh in Hi as (Hs & Hs1 & Hs2 & Hr2 & Hu2).
  destruct (now w2) as [started w3] eqn:Hc. apply clock_keeps in Hc as [Hr3 Hu3].
  eexists _, _, w3. split; [reflexivity|]. split; [reflexivity|]. unfold uses_more in *. cbn. split_and!; auto; try congruence.
Qed.

(** The spans of the calls that a handler made in [ctx], between two worlds. *)
Definition ran ctx (cs : list (traced_call V)) w w' kids : Prop :=
  Forall2 (describes (GetTraceID ctx) (GetSpanID ctx)) cs kids /\ recorded w' = recorded w ++ flat kids /\
  drawn w w' (flat kids) /\ uses_more w w'.

(** Those of one call, in the trace [tid]: the caller's, or a new one. *)
Definition ran_call ctx c w w' tid t : Prop :=
  tid <> "" /\ (GetTraceID ctx <> "" -> tid = GetTraceID ctx) /\ (GetTraceID ctx = "" -> unused w tid) /\
  describes tid (GetSpanID ctx) c t /\ recorded w' = recorded w ++ postorder t /\ drawn w w' (postorder t) /\ uses_more w w'.

(** The aspect around a handler whose calls ran. *)
Lemma through_runs {R} (nil_ : R) k ctx (msg : V) n err cs inner w :
  typeName msg = Done n ->
  (forall newCtx w1, GetTraceID newCtx <> "" -> exists kids w2, inner newCtx w1 = (Done tt, w2) /\ ran newCtx cs w1 w2 kids) ->
  exists tid t w', through nil_ (mkAspect "tracing" 0 (tracing_before (kind_type k))
      (fun ctx _ _ e d => tracing_after (Some store) logger ctx e d)) ctx msg err inner w = (Done err, w') /\
    ran_call ctx (TracedCall k msg cs err) w w' tid t.
Proof.
  intros Hn Hin. unfold through. cbn [run_aspects Before After].
  destruct (before_opens (kind_type k) ctx msg n w Hn) as (newCtx & s & w1 & Hb & Ho & Hne & Hold & Hnew & Hsid & Htid &
    Hpar & Hk & Hname & Hse & Hsne & Hsu & Hsn & Hr1 & Hu1).
  unfold_go. rewrite Hb. destruct (now w1) as [t1 w2] eqn:H1. apply clock_keeps in H1 as [Hr2 Hu2].
  destruct (Hin newCtx w2 Hne) as (kids & w3 & -> & Hd & Hr3 & [Hnd Hdr] & Hu3).
  destruct (now w3) as [t2 w4] eqn:H2. apply clock_keeps in H2 as [Hr4 Hu4].
  unfold tracing_after. rewrite Ho. unfold_go.
  set (sp := close_span s err (t2 -i t1)). destruct (record_keeps newCtx sp w4) as (w5 & -> & Hr5 & Hu5).
  exists (GetTraceID newCtx), (SpanNode sp kids), w5.
  split; [by destruct err|]. unfold ran_call, uses_more in *. split_and!; try done.
  - constructor; try done; [by cbn; rewrite Hn, Hname|by destruct err|]. rewrite Hsid in Hd. exact Hd.
  - rewrite Hr5, Hr4, Hr3, Hr2, Hr1. cbn. by rewrite (assoc_L (++)).
  - unfold drawn. rewrite ids_node. change (SpanID sp) with (SpanID s). split.
    + apply NoDup_app. split_and!; [done| |apply NoDup_singleton].
      intros i Hi ->%list_elem_of_singleton. apply Hdr in Hi as (_ & Hi & _). by apply Hsn, Hu2.
    + intros i [Hi|Hi]%elem_of_app.
      * apply Hdr in Hi as (? & ? & Hi). split_and!; [done|by apply Hu1, Hu2|]. intros Hx. by apply Hi, Hu4, Hu5.
      * apply list_elem_of_singleton in Hi as ->. split_and!; [done..|]. intros Hx. by apply Hsn, Hu2, Hu3, Hu4, Hu5.
  - intros i Hx. by apply Hu1, Hu2, Hu3, Hu4, Hu5.
Qed.

Lemma run_call_eq k (msg : V) inner err ctx :
  run_call nil_result store logger (TracedCall k msg inner err) ctx =
    run_traced nil_result store logger k ctx msg err (run_calls nil_result store logger inner).
Proof. reflexivity. Qed.

Lemma run_calls_cons c l ctx :
  run_calls nil_result store logger (c :: l) ctx =
    (_ ← run_call nil_result store logger c ctx; run_calls nil_result store logger l ctx).
Proof. reflexivity. Qed.

Definition err_of c : error := match c with TracedCall _ _ _ err => err end.

(** Every call returns its handler's error and leaves its tree of spans in the store. *)
Lemma run_call_runs c ctx w :
  named c -> exists tid t w', run_call nil_result store logger c ctx w = (Done (err_of c), w') /\ ran_call ctx c w w' tid t.
Proof.
  revert ctx w. induction c as [k msg inner err IH] using traced_call_ind'. intros ctx w [[n Hn] Hinner].
  rewrite run_call_eq. cbn [err_of].
  assert (forall newCtx w1, GetTraceID newCtx <> "" -> exists kids w2,
    run_calls nil_result store logger inner newCtx w1 = (Done tt, w2) /\ ran newCtx inner w1 w2 kids) as Hin.
  { intros newCtx w1 Hne. clear Hn. revert w1. induction inner as [|c inner IHl]; intros w1.
    - exists [], w1. split; [done|]. split_and!; [done|by rewrite app_nil_r|split; [constructor|by intros i ?%elem_of_nil]|by intros i].
    - apply Forall_cons in IH as [IHc IH]. destruct Hinner as [Hc Hinner].
      destruct (IHc newCtx w1 Hc) as (tid & t & w2 & Hrun & Ht & Htid & _ & Hd & Hr & Hdr & Hu).
      destruct (IHl IH Hinner w2) as (kids & w3 & Hrun' & Hd' & Hr' & Hdr' & Hu').
      exists (t :: kids), w3. split.
      { rewrite run_calls_cons. unfold_go. by rewrite Hrun, Hrun'. }
      rewrite Htid in Hd by done. split_and!.
      + by constructor.
      + rewrite Hr', Hr. cbn. by rewrite (assoc_L (++)).
      + change (flat (t :: kids)) with (postorder t ++ flat kids). by eapply drawn_app.
      + intros i Hx. auto. }
  destruct k; cbn [run_traced].
  - exact (through_runs nil_result KCommand ctx msg n err inner _ w Hn Hin).
  - exact (through_runs nil_result KQuery ctx msg n err inner _ w Hn Hin).
  - exact (through_runs tt KEvent ctx msg n err inner _ w Hn Hin).
Qed.
End Runs.

(** ** Described trees *)

Section Described.
Context {V : Type} `{!Dynamic V}.

Lemma describes_parented tid p (c : traced_call V) t : describes tid p c t -> parented p t.
Proof.
  revert p t. induction c as [k msg inner err IH] using traced_call_ind'. intros p t Hd.
  inversion Hd as [? ? ? ? ? s kids _ Hp _ _ _ _ Hf]; subst. constructor; [done|].
  clear Hd. induction Hf as [|c u cs us Hcu Hf IHf]; [done|]. apply Forall_cons in IH as [IHc IH]. constructor; eauto.
Qed.

Lemma describes_trace tid p (c : traced_call V) t s : describes tid p c t -> s ∈ postorder t -> TraceID s = tid.
Proof.
  revert p t. induction c as [k msg inner err IH] using traced_call_ind'. intros p t Hd Hs.
  inversion Hd as [? ? ? ? ? r kids Ht _ _ _ _ _ Hf]; subst. cbn in Hs.
  apply elem_of_app in Hs as [Hs|Hs]; [|by apply list_elem_of_singleton in Hs as ->].
  clear Hd. induction Hf as [|c u cs us Hcu Hf IHf]; [by apply elem_of_nil in Hs|].
  apply Forall_cons in IH as [IHc IH]. cbn in Hs. apply elem_of_app in Hs as [Hs|Hs]; eauto.
Qed.
End Described.

(** What is printed of a tree of spans with identities of their own that are not empty. *)
Lemma print_tree t :
  parented "" t -> ~ ("" ∈ ids (postorder t)) -> NoDup (ids (postorder t)) ->
  printSpanTree (S (tree_depth t)) (postorder t) 0 = Some (preorder 0 t).
Proof.
  intros Hp Hne Hnd. unfold printSpanTree. rewrite printNodes_loop.
  pose proof (linked_self _ _ Hp Hne Hnd) as Hl.
  assert (filter (child_of "") (postorder t) = [tree_root t]) as Hroot.
  { pose proof (roots_of_forest "" [t]) as Hr. unfold flat in Hr. cbn in Hr. rewrite app_nil_r in Hr. apply Hr; [by constructor|done]. }
  rewrite (loop_children _ _ _ _ _ (fun _ => kids_lines 1 t)), Hroot.
  - cbn. by rewrite app_nil_r, preorder_root.
  - intros s Hs. rewrite Hroot in Hs. apply list_elem_of_singleton in Hs as ->. by apply print_linked.
Qed.

(** ** Properties *)


(** ** The calls of the trace example *)
Module DemoCalls.
Import Env DemoBus.
Definition world : Type := env * list Span.
#[export] Instance calls_clock : Clock world := fun '(e, l) => let (t, e') := now e in (t, (e', l)).
#[export] Instance calls_ids : IdGen world := fun '(e, l) => let (i, e') := fresh_id e in (i, (e', l)).
Definition list_store : TraceStore world := mkTraceStore (fun _ s => fun '(e, l) => (Done None, (e, l ++ [s]))).
Definition unused (w : world) (i : string) : Prop := exists n, (next_id w.1 <= n)%N /\ i = "id-" +:+ pretty n.

#[export] Instance calls_world : TracedWorld list_store (snd : world -> list Span) unused.
Proof.
  split.
  - intros ctx s [e l]. eexists. split; [reflexivity|]. split; [done|]. intros i (n & Hn & ->). by exists n.
  - intros [e l] t w' [= <- <-]. split; [done|]. intros i (n & Hn & ->). by exists n.
  - intros [e l] i w' [= <- <-]. split_and!; [done|by exists (next_id e)| |done|].
    + intros (n & Hn & Heq). cbn in Hn. apply (inj (String.append "id-")), (inj pretty) in Heq. lia.
    + intros i (n & Hn & ->). exists n. cbn in Hn |- *. split; [lia|done].
Qed.

(** [PlaceOrderHandler] publishes the event, whose handler dispatches two commands; the notification fails here. *)
Definition place_order : traced_call value :=
  TracedCall KCommand (VCmd "PlaceOrderCommand")
    [TracedCall KEvent (VCmd "OrderPlacedEvent")
       [TracedCall KCommand (VCmd "SendNotificationCommand") [] (Some (ENew "no mail server"));
        TracedCall KCommand (VCmd "UpdateInventoryCommand") [] None] None] None.
Definition start : world := (mkEnv 0 0, []).
Definition show (l : line) : string := line_text (fun d => pretty d) l.
End DemoCalls.
Import Env DemoBus DemoCalls.

Example place_order_printed :
  map show <$> printSpanTree 4 (run_call VNil list_store None place_order Background start).2.2 0 =
    Some ["[CMD] PlaceOrderCommand OK (10)"; "  [EVT] OrderPlacedEvent OK (7)";
          "    [CMD] SendNotificationCommand ERR (1)"; "    [CMD] UpdateInventoryCommand OK (1)"].
Proof. vm_compute. reflexivity. Qed.

