(* ===== verification/Examples.v ===== *)
(** * The example programs: [src/examples]

    Handlers of commands, queries, events and jobs that only answer and print, registered on the buses of the
    framework, and the programs that call them. Messages are one inductive type, as the buses carry any value; output
    is a list of lines that is part of the world. *)

From Stdlib Require Import Floats.SpecFloat.
From S2P Require Import Prelude Errors Trace Aggregate Aspect Bus EventBus Builtin Job App.

(** ** Messages and results *)

Record CreateUserResult := mkCreated { created_ID : string }.
Record UpdateUserResult := mkUpdated { updated_Success : bool }.
Record CancelOrderResult := mkCancelled { cancelled_Success : bool }.
Record GetUserResult := mkUser { user_ID : string; user_Name : string; user_Email : string }.
Record ListUsersResult := mkUsers { users_Users : list GetUserResult; users_Total : Z }.
Record GetOrderResult := mkOrder { order_ID : string; order_UserID : string; order_Amount : spec_float; order_Status : string }.
Record GenerateReportResult := mkReport { report_File : string }.
Record PlaceOrderResult := mkPlaced { placed_OrderID : string }.
Record GetOrderStatusResult := mkStatus { status_OrderID : string; status_Status : string }.

(** What the buses carry; a result is a pointer, which may be nil. *)
Inductive ex_value :=
| ENil
| EError (e : goerr)
| CreateUserCommand (Name Email : string)
| UpdateUserCommand (UserID Name Email : string)
| CancelOrderCommand (OrderID Reason : string)
| GetUserQuery (UserID : string)
| ListUsersQuery (Page PageSize : Z)
| GetOrderQuery (OrderID : string)
| UserCreatedEvent (base : BaseEvent) (Name : string)
| UserUpdatedEvent (base : BaseEvent) (Name : string)
| OrderCancelledEvent (base : BaseEvent) (Reason : string)
| GenerateReportCommand (duration : Z)
| PlaceOrderCommand (UserID Product : string) (Amount : spec_float)
| SendNotificationCommand (UserID Message : string)
| UpdateInventoryCommand (Product : string) (Quantity : Z)
| OrderPlacedEvent (base : BaseEvent) (UserID Product : string) (Amount : spec_float)
| GetOrderStatusQuery (OrderID : string)
| RCreated (r : option CreateUserResult)
| RUpdated (r : option UpdateUserResult)
| RCancelled (r : option CancelOrderResult)
| RUser (r : option GetUserResult)
| RUsers (r : option ListUsersResult)
| ROrder (r : option GetOrderResult)
| RReport (r : option GenerateReportResult)
| RPlaced (r : option PlaceOrderResult)
| RSent (r : option bool)
| RInventory (r : option Z)
| RStatus (r : option GetOrderStatusResult).

Definition example_type (pkg name : string) : rtype := TPtr (TNamed ("github.com/ddd-qce/examples/" +:+ pkg) pkg name).

Definition ex_type (v : ex_value) : option rtype :=
  match v with
  | ENil => None
  | EError _ => Some (TPtr (TNamed "errors" "errors" "errorString"))
  | CreateUserCommand _ _ => Some (example_type "command" "CreateUserCommand")
  | UpdateUserCommand _ _ _ => Some (example_type "command" "UpdateUserCommand")
  | CancelOrderCommand _ _ => Some (example_type "command" "CancelOrderCommand")
  | GetUserQuery _ => Some (example_type "query" "GetUserQuery")
  | ListUsersQuery _ _ => Some (example_type "query" "ListUsersQuery")
  | GetOrderQuery _ => Some (example_type "query" "GetOrderQuery")
  | UserCreatedEvent _ _ => Some (example_type "event" "UserCreatedEvent")
  | UserUpdatedEvent _ _ => Some (example_type "event" "UserUpdatedEvent")
  | OrderCancelledEvent _ _ => Some (example_type "event" "OrderCancelledEvent")
  | GenerateReportCommand _ => Some (example_type "job" "GenerateReportCommand")
  | PlaceOrderCommand _ _ _ => Some (example_type "traceexample" "PlaceOrderCommand")
  | SendNotificationCommand _ _ => Some (example_type "traceexample" "SendNotificationCommand")
  | UpdateInventoryCommand _ _ => Some (example_type "traceexample" "UpdateInventoryCommand")
  | OrderPlacedEvent _ _ _ _ => Some (example_type "traceexample" "OrderPlacedEvent")
  | GetOrderStatusQuery _ => Some (example_type "traceexample" "GetOrderStatusQuery")
  | RCreated _ => Some (example_type "command" "CreateUserResult")
  | RUpdated _ => Some (example_type "command" "UpdateUserResult")
  | RCancelled _ => Some (example_type "command" "CancelOrderResult")
  | RUser _ => Some (example_type "query" "GetUserResult")
  | RUsers _ => Some (example_type "query" "ListUsersResult")
  | ROrder _ => Some (example_type "query" "GetOrderResult")
  | RReport _ => Some (example_type "job" "GenerateReportResult")
  | RPlaced _ => Some (example_type "traceexample" "PlaceOrderResult")
  | RSent _ => Some (example_type "traceexample" "SendNotificationResult")
  | RInventory _ => Some (example_type "traceexample" "UpdateInventoryResult")
  | RStatus _ => Some (example_type "traceexample" "GetOrderStatusResult")
  end.

#[export] Instance ex_dynamic : Dynamic ex_value := {
  nil_any := ENil; type_of := ex_type; as_error v := match v with EError e => Some e | _ => None end }.

(** The result types of [Dispatch]. *)
#[export] Instance typed_created : Typed ex_value (option CreateUserResult) := {
  inject := RCreated; zero := None; cast v := match v with RCreated r => Some r | _ => None end }.
#[export] Instance typed_updated : Typed ex_value (option UpdateUserResult) := {
  inject := RUpdated; zero := None; cast v := match v with RUpdated r => Some r | _ => None end }.
#[export] Instance typed_cancelled : Typed ex_value (option CancelOrderResult) := {
  inject := RCancelled; zero := None; cast v := match v with RCancelled r => Some r | _ => None end }.
#[export] Instance typed_user : Typed ex_value (option GetUserResult) := {
  inject := RUser; zero := None; cast v := match v with RUser r => Some r | _ => None end }.
#[export] Instance typed_users : Typed ex_value (option ListUsersResult) := {
  inject := RUsers; zero := None; cast v := match v with RUsers r => Some r | _ => None end }.
#[export] Instance typed_order : Typed ex_value (option GetOrderResult) := {
  inject := ROrder; zero := None; cast v := match v with ROrder r => Some r | _ => None end }.
#[export] Instance typed_placed : Typed ex_value (option PlaceOrderResult) := {
  inject := RPlaced; zero := None; cast v := match v with RPlaced r => Some r | _ => None end }.
#[export] Instance typed_sent : Typed ex_value (option bool) := {
  inject := RSent; zero := None; cast v := match v with RSent r => Some r | _ => None end }.
#[export] Instance typed_inventory : Typed ex_value (option Z) := {
  inject := RInventory; zero := None; cast v := match v with RInventory r => Some r | _ => None end }.
#[export] Instance typed_status : Typed ex_value (option GetOrderStatusResult) := {
  inject := RStatus; zero := None; cast v := match v with RStatus r => Some r | _ => None end }.

(** The parameter of the method of each handler. *)
Definition ex_handled : list (rtype * rtype) :=
  [(example_type "command" "CreateUserHandler", example_type "command" "CreateUserCommand");
   (example_type "command" "UpdateUserHandler", example_type "command" "UpdateUserCommand");
   (example_type "command" "CancelOrderHandler", example_type "command" "CancelOrderCommand");
   (example_type "query" "GetUserHandler", example_type "query" "GetUserQuery");
   (example_type "query" "ListUsersHandler", example_type "query" "ListUsersQuery");
   (example_type "query" "GetOrderHandler", example_type "query" "GetOrderQuery");
   (example_type "event" "UserCreatedEventHandler", example_type "event" "UserCreatedEvent");
   (example_type "event" "UserUpdatedEventHandler", example_type "event" "UserUpdatedEvent");
   (example_type "event" "OrderCancelledEventHandler", example_type "event" "OrderCancelledEvent");
   (example_type "job" "GenerateReportHandler", example_type "job" "GenerateReportCommand");
   (example_type "traceexample" "PlaceOrderHandler", example_type "traceexample" "PlaceOrderCommand");
   (example_type "traceexample" "SendNotificationHandler", example_type "traceexample" "SendNotificationCommand");
   (example_type "traceexample" "UpdateInventoryHandler", example_type "traceexample" "UpdateInventoryCommand");
   (example_type "traceexample" "OrderPlacedEventHandler", example_type "traceexample" "OrderPlacedEvent");
   (example_type "traceexample" "GetOrderStatusHandler", example_type "traceexample" "GetOrderStatusQuery")].

Definition ex_context : rtype := TNamed "context" "context" "Context".
Definition ex_value_ctx : rtype := TPtr (TNamed "context" "context" "valueCtx").
#[export] Instance ex_reflect : Reflect := {
  methods t := match list_find (fun p => p.1 = t) ex_handled with
               | Some (_, (_, p)) => [mkMethod "Handle" [t; ex_context; p]]
               | None => []
               end;
  assignable a b := bool_decide (a = b) || (bool_decide (a = ex_value_ctx) && bool_decide (b = ex_context));
  has_pointer := is_ptr;
  ctx_dyn := ex_value_ctx }.

(** ** Handlers *)

Definition ex_answer {A} (result_of : option A -> ex_value) (r : result A) : list ex_value :=
  match r with Ok a => [result_of (Some a); ENil] | Err e => [result_of None; EError e] end.

Section Handlers.
Context {W : Type} `{!Clock W, !Has (list string) W}.

(** [fmt.Println] and [fmt.Printf]: a line of output. *)
Definition println (s : string) : GoM W unit := on_part (fun out : list string => (tt, out ++ [s])).

(** [time.Format("20060102150405")], [%.2f], and the select on a timer and the end of the context. *)
Context (format_stamp : Z -> string) (fixed2 : spec_float -> string) (await : context -> Z -> GoM W error).
(** The buses behind the pointers that the handlers of the trace example keep. *)
Context (eventBus_Publish : context -> ex_value -> GoM W error).
Context (cmdBus_Execute : context -> ex_value -> GoM W (ex_value * error)).

Definition ex_handler (pkg name : string) (address : N) (code : context -> ex_value -> option (GoM W (list ex_value))) :
    handler W ex_value :=
  mkHandler (Some (example_type pkg name)) address (fun ctx m =>
    match code ctx m with Some run => run | None => go_panic "reflect: Call using wrong type" end).

Definition CreateUser_Handle : GoM W (result CreateUserResult) :=
  now ← time_now; mret (Ok (mkCreated ("user-" +:+ format_stamp now))).
Definition CreateUserHandler : handler W ex_value := ex_handler "command" "CreateUserHandler" 1 (fun _ m =>
  match m with CreateUserCommand _ _ => Some (r ← CreateUser_Handle; mret (ex_answer RCreated r)) | _ => None end).
Definition UpdateUserHandler : handler W ex_value := ex_handler "command" "UpdateUserHandler" 2 (fun _ m =>
  match m with UpdateUserCommand _ _ _ => Some (mret (ex_answer RUpdated (Ok (mkUpdated true)))) | _ => None end).
Definition CancelOrderHandler : handler W ex_value := ex_handler "command" "CancelOrderHandler" 3 (fun _ m =>
  match m with CancelOrderCommand _ _ => Some (mret (ex_answer RCancelled (Ok (mkCancelled true)))) | _ => None end).

Definition GetUser_Handle (id : string) : GetUserResult := mkUser id "张三" "zhangsan@example.com".
Definition GetUserHandler : handler W ex_value := ex_handler "query" "GetUserHandler" 4 (fun _ m =>
  match m with GetUserQuery id => Some (mret (ex_answer RUser (Ok (GetUser_Handle id)))) | _ => None end).
Definition ListUsers_Handle : ListUsersResult :=
  mkUsers [mkUser "1" "张三" "zhangsan@example.com"; mkUser "2" "李四" "lisi@example.com"] 2.
Definition ListUsersHandler : handler W ex_value := ex_handler "query" "ListUsersHandler" 5 (fun _ m =>
  match m with ListUsersQuery _ _ => Some (mret (ex_answer RUsers (Ok ListUsers_Handle))) | _ => None end).
(** The double nearest to 99.99. *)
Definition amount_99_99 : spec_float := S754_finite false 7036170730324623 (-46).
Definition GetOrder_Handle (id : string) : GetOrderResult := mkOrder id "1" amount_99_99 "paid".
Definition GetOrderHandler : handler W ex_value := ex_handler "query" "GetOrderHandler" 6 (fun _ m =>
  match m with GetOrderQuery id => Some (mret (ex_answer ROrder (Ok (GetOrder_Handle id)))) | _ => None end).

Definition UserCreatedEvent_Handle (name : string) : GoM W error :=
  _ ← println ("Event handled: User " +:+ name +:+ " created"); mret None.
Definition UserUpdatedEvent_Handle (name : string) : GoM W error :=
  _ ← println ("Event handled: User " +:+ name +:+ " updated"); mret None.
Definition OrderCancelledEvent_Handle (b : BaseEvent) (reason : string) : GoM W error :=
  _ ← println ("Event handled: Order " +:+ AggregateID b +:+ " cancelled, reason: " +:+ reason); mret None.
Definition answer_none (run : GoM W error) : GoM W (list ex_value) :=
  err ← run; mret [match err with None => ENil | Some e => EError e end].
Definition UserCreatedEventHandler : handler W ex_value := ex_handler "event" "UserCreatedEventHandler" 7 (fun _ m =>
  match m with UserCreatedEvent _ name => Some (answer_none (UserCreatedEvent_Handle name)) | _ => None end).
Definition UserUpdatedEventHandler : handler W ex_value := ex_handler "event" "UserUpdatedEventHandler" 8 (fun _ m =>
  match m with UserUpdatedEvent _ name => Some (answer_none (UserUpdatedEvent_Handle name)) | _ => None end).
Definition OrderCancelledEventHandler : handler W ex_value := ex_handler "event" "OrderCancelledEventHandler" 9 (fun _ m =>
  match m with OrderCancelledEvent b reason => Some (answer_none (OrderCancelledEvent_Handle b reason)) | _ => None end).

(** The ten steps of a report, numbered from [i]. *)
Fixpoint report_steps (ctx : context) (stepDuration : Z) (n : nat) (i : Z) : GoM W error :=
  match n with
  | 0 => mret None
  | S n =>
      cancelled ← await ctx stepDuration;
      match cancelled with
      | Some err => mret (Some err)
      | None => _ ← println ("  Progress: " +:+ pretty (i * 10)%Z +:+ "%"); report_steps ctx stepDuration n (i + 1)
      end
  end.
Definition GenerateReport_Handle (ctx : context) (duration : Z) : GoM W (result GenerateReportResult) :=
  err ← report_steps ctx (Z.quot duration 10) 10 1;
  mret (match err with Some e => Err e | None => Ok (mkReport "report.pdf") end).
Definition GenerateReportHandler : handler W ex_value := ex_handler "job" "GenerateReportHandler" 10 (fun ctx m =>
  match m with GenerateReportCommand d => Some (r ← GenerateReport_Handle ctx d; mret (ex_answer RReport r)) | _ => None end).

(** The handlers of the trace example drop the errors of what they publish and dispatch. *)
Definition PlaceOrder_Handle (ctx : context) (user product : string) (amount : spec_float) : GoM W (result PlaceOrderResult) :=
  now ← time_now;
  let orderID := "ORD-" +:+ format_stamp now in
  now ← time_now;
  _ ← eventBus_Publish ctx (OrderPlacedEvent (NewBaseEvent orderID now) user product amount);
  mret (Ok (mkPlaced orderID)).
Definition PlaceOrderHandler : handler W ex_value := ex_handler "traceexample" "PlaceOrderHandler" 11 (fun ctx m =>
  match m with
  | PlaceOrderCommand user product amount => Some (r ← PlaceOrder_Handle ctx user product amount; mret (ex_answer RPlaced r))
  | _ => None
  end).
Definition OrderPlacedEvent_Handle (ctx : context) (b : BaseEvent) (user product : string) (amount : spec_float) : GoM W error :=
  _ ← println ("  [EventHandler] Processing OrderPlaced for order " +:+ AggregateID b);
  _ ← CommandDispatch (R := option bool) cmdBus_Execute ctx
        (SendNotificationCommand user ("Order " +:+ AggregateID b +:+ " placed: " +:+ product +:+ " ($" +:+ fixed2 amount +:+ ")"));
  _ ← CommandDispatch (R := option Z) cmdBus_Execute ctx (UpdateInventoryCommand product 1);
  mret None.
Definition OrderPlacedEventHandler : handler W ex_value := ex_handler "traceexample" "OrderPlacedEventHandler" 12 (fun ctx m =>
  match m with
  | OrderPlacedEvent b user product amount => Some (answer_none (OrderPlacedEvent_Handle ctx b user product amount))
  | _ => None
  end).
Definition SendNotification_Handle (user message : string) : GoM W (result bool) :=
  _ ← println ("    [CommandHandler] Sending notification to user " +:+ user +:+ ": " +:+ message); mret (Ok true).
Definition SendNotificationHandler : handler W ex_value := ex_handler "traceexample" "SendNotificationHandler" 13 (fun _ m =>
  match m with
  | SendNotificationCommand user message => Some (r ← SendNotification_Handle user message; mret (ex_answer RSent r))
  | _ => None
  end).
Definition UpdateInventory_Handle (product : string) (quantity : Z) : GoM W (result Z) :=
  _ ← println ("    [CommandHandler] Updating inventory for " +:+ product +:+ ", quantity: " +:+ pretty quantity); mret (Ok 99%Z).
Definition UpdateInventoryHandler : handler W ex_value := ex_handler "traceexample" "UpdateInventoryHandler" 14 (fun _ m =>
  match m with
  | UpdateInventoryCommand product quantity => Some (r ← UpdateInventory_Handle product quantity; mret (ex_answer RInventory r))
  | _ => None
  end).
Definition GetOrderStatusHandler : handler W ex_value := ex_handler "traceexample" "GetOrderStatusHandler" 15 (fun _ m =>
  match m with GetOrderStatusQuery id => Some (mret (ex_answer RStatus (Ok (mkStatus id "confirmed")))) | _ => None end).
End Handlers.

(** ** The programs

    [RegisterHandlers] of each package drops the errors of the registrations. *)
Section Programs.
Context {W : Type} `{!Clock W, !SortSlice, !Has (list string) W, !Has BusState W}.
Context (format_stamp : Z -> string) (fixed2 : spec_float -> string) (await : context -> Z -> GoM W error).

Fixpoint register_handlers {B} (register : handler W ex_value -> B -> outcome (B * error)) (hs : list (handler W ex_value)) (b : B) : outcome B :=
  match hs with [] => Done b | h :: hs => '(b, _) ← register h b; register_handlers register hs b end.

Definition command_RegisterHandlers : messageBus W ex_value -> outcome (messageBus W ex_value) :=
  register_handlers RegisterHandler [CreateUserHandler format_stamp; UpdateUserHandler; CancelOrderHandler].
Definition query_RegisterHandlers : messageBus W ex_value -> outcome (messageBus W ex_value) :=
  register_handlers RegisterHandler [GetUserHandler; ListUsersHandler; GetOrderHandler].
Definition event_RegisterHandlers : EventBus W ex_value -> outcome (EventBus W ex_value) :=
  register_handlers SubscribeHandler [UserCreatedEventHandler; UserUpdatedEventHandler; OrderCancelledEventHandler].
Definition job_RegisterHandlers : messageBus W ex_value -> outcome (messageBus W ex_value) :=
  register_handlers RegisterHandler [GenerateReportHandler await].
Definition trace_RegisterHandlers (eventBus_Publish : context -> ex_value -> GoM W error)
    (cmdBus_Execute : context -> ex_value -> GoM W (ex_value * error))
    (buses : messageBus W ex_value * EventBus W ex_value * messageBus W ex_value) :
    outcome (messageBus W ex_value * EventBus W ex_value * messageBus W ex_value) :=
  let '(cmdBus, eventBus, qBus) := buses in
  cmdBus ← register_handlers RegisterHandler
             [PlaceOrderHandler format_stamp eventBus_Publish; SendNotificationHandler; UpdateInventoryHandler] cmdBus;
  eventBus ← register_handlers SubscribeHandler [OrderPlacedEventHandler fixed2 cmdBus_Execute] eventBus;
  qBus ← register_handlers RegisterHandler [GetOrderStatusHandler] qBus;
  mret (cmdBus, eventBus, qBus).

(** [if err != nil { panic(err) }], and a field of a pointer. *)
Definition must {A} (m : GoM W (A * error)) : GoM W A :=
  '(a, err) ← m; match err with Some e => go_panic (Error e) | None => mret a end.
Definition field {A} (p : option A) : GoM W A :=
  match p with Some a => mret a | None => go_panic "nil pointer dereference" end.
Definition show_bool (b : bool) : string := if b then "true" else "false".

Definition command_RunExample (Execute : context -> ex_value -> GoM W (ex_value * error)) (ctx : context) : GoM W unit :=
  _ ← println "=== Command: CreateUser ===";
  cmdResult ← must (CommandDispatch (R := option CreateUserResult) Execute ctx (CreateUserCommand "李四" "lisi@example.com"));
  cmdResult ← field cmdResult;
  _ ← println ("Created user with ID: " +:+ created_ID cmdResult);
  _ ← println ""; _ ← println "=== Command: UpdateUser ===";
  updateResult ← must (CommandDispatch (R := option UpdateUserResult) Execute ctx
                         (UpdateUserCommand "1" "张三更新" "zhangsan_new@example.com"));
  updateResult ← field updateResult;
  _ ← println ("Update success: " +:+ show_bool (updated_Success updateResult));
  _ ← println ""; _ ← println "=== Command: CancelOrder ===";
  cancelResult ← must (CommandDispatch (R := option CancelOrderResult) Execute ctx (CancelOrderCommand "ORD-001" "用户取消"));
  cancelResult ← field cancelResult;
  println ("Cancel success: " +:+ show_bool (cancelled_Success cancelResult)).

Fixpoint print_users (us : list GetUserResult) : GoM W unit :=
  match us with
  | [] => mret tt
  | u :: us => _ ← println ("  - " +:+ user_Name u +:+ " (" +:+ user_Email u +:+ ")"); print_users us
  end.
Definition query_RunExample (Execute : context -> ex_value -> GoM W (ex_value * error)) (ctx : context) : GoM W unit :=
  _ ← println "=== Query: GetUser ===";
  result ← must (QueryDispatch (R := option GetUserResult) Execute ctx (GetUserQuery "123"));
  result ← field result;
  _ ← println ("User: ID=" +:+ user_ID result +:+ ", Name=" +:+ user_Name result +:+ ", Email=" +:+ user_Email result);
  _ ← println ""; _ ← println "=== Query: ListUsers ===";
  listResult ← must (QueryDispatch (R := option ListUsersResult) Execute ctx (ListUsersQuery 1 10));
  listResult ← field listResult;
  _ ← println ("Total users: " +:+ pretty (users_Total listResult));
  _ ← print_users (users_Users listResult);
  _ ← println ""; _ ← println "=== Query: GetOrder ===";
  orderResult ← must (QueryDispatch (R := option GetOrderResult) Execute ctx (GetOrderQuery "ORD-001"));
  orderResult ← field orderResult;
  println ("Order: ID=" +:+ order_ID orderResult +:+ ", Amount=" +:+ fixed2 (order_Amount orderResult) +:+
           ", Status=" +:+ order_Status orderResult).

Definition must_publish (Publish : context -> ex_value -> GoM W error) (ctx : context) (evt : ex_value) : GoM W unit :=
  err ← Publish ctx evt; match err with Some e => go_panic (Error e) | None => mret tt end.
Definition event_RunExample (Publish : context -> ex_value -> GoM W error) (ctx : context) : GoM W unit :=
  _ ← println "=== Event: UserCreated ===";
  now ← time_now;
  _ ← must_publish Publish ctx (UserCreatedEvent (NewBaseEvent "user-001" now) "李四");
  _ ← println ""; _ ← println "=== Event: UserUpdated ===";
  now ← time_now;
  _ ← must_publish Publish ctx (UserUpdatedEvent (NewBaseEvent "1" now) "张三更新");
  _ ← println ""; _ ← println "=== Event: OrderCancelled ===";
  now ← time_now;
  must_publish Publish ctx (OrderCancelledEvent (NewBaseEvent "ORD-001" now) "用户取消").

(** [manager] is a job manager behind its interface. *)
Definition job_RunExample (Submit : context -> ex_value -> list JobOption -> GoM W (result (Job ex_value)))
    (Wait : context -> string -> Z -> GoM W (result (Job ex_value))) (ctx : context) : GoM W unit :=
  _ ← println "=== Long Running Job ===";
  submitted ← Submit ctx (GenerateReportCommand (5 * second)%Z) [WithTimeout (10 * second)%Z; WithMaxRetries 2];
  match submitted with
  | Err e => go_panic (Error e)
  | Ok job =>
      _ ← println ("Job submitted: " +:+ id job);
      _ ← println "Waiting for job to complete...";
      completed ← Wait ctx (id job) (10 * second)%Z;
      match completed with
      | Err e => go_panic (Error e)
      | Ok completedJob =>
          _ ← println ("Job completed: Status=" +:+ status_String (status completedJob));
          match job_result completedJob with
          | ENil => mret tt
          | RReport r => r ← field r; println ("Report file: " +:+ report_File r)
          | _ => println "Result type mismatch"
          end
      end
  end.

Definition amount_999_99 : spec_float := S754_finite false 8796005061277778 (-43).
Definition trace_RunExample (cmd_Execute q_Execute : context -> ex_value -> GoM W (ex_value * error)) (ctx : context) : GoM W unit :=
  _ ← println "========================================";
  _ ← println "  Cross-Domain Trace Example";
  _ ← println "========================================";
  _ ← println "";
  _ ← println "=== PlaceOrder (Command → Event → Commands) ===";
  result ← must (CommandDispatch (R := option PlaceOrderResult) cmd_Execute ctx (PlaceOrderCommand "user-001" "Laptop" amount_999_99));
  result ← field result;
  _ ← println ("Order placed: " +:+ placed_OrderID result);
  _ ← println "";
  _ ← println "=== GetOrderStatus (Query) ===";
  qResult ← must (QueryDispatch (R := option GetOrderStatusResult) q_Execute ctx (GetOrderStatusQuery (placed_OrderID result)));
  qResult ← field qResult;
  println ("Order " +:+ status_OrderID qResult +:+ " status: " +:+ status_Status qResult).

(** ** The main program

    Its logger and recorder write to the log; the chain of its buses; the examples one after the other, each over the
    methods of the finished buses and of the job manager. *)
Context (log_Printf : string -> GoM W unit) (sprint_args : list attr -> string) (duration_String : Z -> string).

Definition SimpleMetricsRecorder : MetricsRecorder W := mkRecorder
  (fun name d => log_Printf ("[Metrics] " +:+ name +:+ " took " +:+ duration_String d))
  (fun name e => log_Printf ("[Metrics] " +:+ name +:+ " error: " +:+ Error e)).
Definition SimpleLogger : Logger W := mkLogger
  (fun msg args => log_Printf ("[INFO] " +:+ msg +:+ " " +:+ sprint_args args))
  (fun msg args => log_Printf ("[ERROR] " +:+ msg +:+ " " +:+ sprint_args args))
  (fun msg args => log_Printf ("[DEBUG] " +:+ msg +:+ " " +:+ sprint_args args)).

Definition main_chain `{!IdGen W} (traceStore : TraceStore W) : AspectChain W ex_value ex_value ex_value ex_value :=
  RegisterAspect (NewLoggingAspect SimpleLogger)
    (RegisterAspect (NewMetricsAspect SimpleMetricsRecorder)
       (RegisterAspect (NewTracingAspect traceStore) NewAspectChain)).

Definition main (q_Execute cmd_Execute : context -> ex_value -> GoM W (ex_value * error))
    (Publish : context -> ex_value -> GoM W error)
    (Submit : context -> ex_value -> list JobOption -> GoM W (result (Job ex_value)))
    (Wait : context -> string -> Z -> GoM W (result (Job ex_value))) (PrintTraces : GoM W unit) : GoM W unit :=
  let rule := "========================================" in
  let ctx := Background in
  _ ← println rule; _ ← println "  DDD-QCE Example"; _ ← println rule;
  _ ← query_RunExample q_Execute ctx; _ ← println "";
  _ ← command_RunExample cmd_Execute ctx; _ ← println "";
  _ ← event_RunExample Publish ctx; _ ← println "";
  _ ← job_RunExample Submit Wait ctx; _ ← println "";
  _ ← trace_RunExample cmd_Execute q_Execute ctx;
  _ ← println ""; _ ← println rule; _ ← println "  Traces:"; _ ← println rule;
  _ ← PrintTraces;
  _ ← println ""; _ ← println rule; _ ← println "  Done!"; println rule.
End Programs.

(** ** The job's report *)

Definition progress (i : Z) : string := "  Progress: " +:+ pretty (i * 10)%Z +:+ "%".

Lemma report_steps_run {W} `{!Has (list string) W, !HasLaws (list string) W} (await : context -> Z -> GoM W error) ctx d n i (w : W) :
  (forall w, exists r w', await ctx d w = (Done r, w') /\ (part w' : list string) = part w) ->
  exists k err w', report_steps await ctx d n i w = (Done err, w') /\ k <= n /\
    part w' = part w ++ map progress (seqZ i (Z.of_nat k)) /\ (err = None <-> k = n).
Proof.
  intros Hawait. revert i w. induction n as [|n IH]; intros i w; cbn [report_steps].
  - exists 0, None, w. cbn. by rewrite app_nil_r.
  - destruct (Hawait w) as ([e|] & w1 & Hw & Hp); unfold_go; rewrite Hw.
    + exists 0, (Some e), w1. cbn. rewrite app_nil_r. split_and!; [done|lia|done|done].
    + unfold println. rewrite on_part_run. fold (progress i). cbn [fst snd]. destruct (IH (i + 1)%Z (set_part (part w1 ++ [progress i]) w1)) as (k & err & w' & Hrun & Hk & Ho & He).
      exists (S k), err, w'. rewrite Hrun, Ho, part_set, Hp. split_and!; [done|lia| |rewrite He; lia].
      rewrite <- (assoc_L (++)). f_equal. rewrite (seqZ_cons i (Z.of_nat (S k))) by lia. cbn [map app].
      by replace (Z.succ i) with (i + 1)%Z by lia; replace (Z.pred (Z.of_nat (S k))) with (Z.of_nat k) by lia.
Qed.

(** A report, whenever its context ends: it prints the progress of the steps that it made, in order, and answers
    with the report exactly when it has made all ten. *)
Theorem report_made {W} `{!Has (list string) W, !HasLaws (list string) W} (await : context -> Z -> GoM W error) ctx d (w : W) :
  (forall w, exists r w', await ctx (Z.quot d 10) w = (Done r, w') /\ (part w' : list string) = part w) ->
  exists k r w', GenerateReport_Handle await ctx d w = (Done r, w') /\ k <= 10 /\
    part w' = part w ++ map progress (seqZ 1 (Z.of_nat k)) /\
    match r with Ok report => k = 10 /\ report_File report = "report.pdf" | Err _ => k < 10 end.
Proof.
  intros Hawait. destruct (report_steps_run await ctx (Z.quot d 10) 10 1 w Hawait) as (k & err & w' & Hrun & Hk & Ho & He).
  exists k, (match err with Some e => Err e | None => Ok (mkReport "report.pdf") end), w'.
  unfold GenerateReport_Handle. unfold_go. rewrite Hrun. split_and!; [done|done|done|].
  destruct err as [e|]; [|split; [by apply He|done]].
  assert (k <> 10) as Hne by (intros ->; by destruct He as [_ He]; discriminate (He eq_refl)). lia.
Qed.

(** ** The programs on their buses *)
Module DemoExamples.
Import Env.
Definition world : Type := env * (BusState * list string).
#[export] Instance ex_clock : Clock world := fun '(e, s) => let (t, e') := now e in (t, (e', s)).
#[export] Instance ex_bus : Has BusState world := { part w := w.2.1; set_part s w := (w.1, (s, w.2.2)) }.
#[export] Instance ex_output : Has (list string) world := { part w := w.2.2; set_part o w := (w.1, (w.2.1, o)) }.
#[export] Instance ex_output_laws : HasLaws (list string) world.
Proof. split; [done|done|by intros [? []]]. Qed.
Definition bus_of (o : outcome (messageBus world ex_value)) : messageBus world ex_value :=
  match o with Done b => b | Panicked _ => newMessageBus NewAspectChain end.
End DemoExamples.
Import Env DemoExamples.

(** What [RegisterHandlers] makes of a bus is what registering each handler makes of it. *)
Lemma register_handlers_all (hs : list (handler world ex_value)) b :
  register_handlers RegisterHandler hs b = ('(b, _) ← register_all hs b; mret b).
Proof.
  revert b. induction hs as [|h hs IH]; intros b; [done|]. cbn [register_handlers register_all].
  destruct (RegisterHandler h b) as [[b' err]|why]; [|done]. cbn. rewrite IH. by destruct (register_all hs b') as [[]|].
Qed.

Lemma registered_table (hs : list (handler world ex_value)) :
  Forall (fun h => is_Some (h_type h)) hs ->
  exists b, register_handlers RegisterHandler hs (newMessageBus NewAspectChain) = Done b /\ table_ok hs b /\ chain b = NewAspectChain.
Proof.
  intros Hhs. destruct (register_all_table [] hs (newMessageBus NewAspectChain) (table_ok_new _) Hhs) as (b & errs & Hr & Hok & Hc & _).
  exists b. rewrite register_handlers_all, Hr. by split_and!.
Qed.

Lemma bus_registered (hs : list (handler world ex_value)) :
  Forall (fun h => is_Some (h_type h)) hs ->
  let b := bus_of (register_handlers RegisterHandler hs (newMessageBus NewAspectChain)) in table_ok hs b /\ chain b = NewAspectChain.
Proof. intros Hhs. by destruct (registered_table hs Hhs) as (b & -> & Hok). Qed.

(** A call on an open bus without aspects is that of its handler. *)
Lemma execute_answers hs b ctx m k h v e e' n out out' :
  table_ok hs b -> chain b = NewAspectChain -> route hs (type_of m) = Some h ->
  call_handler h ctx m (e, (mkBusState false (n + 1), out)) = (Done v, (e', (mkBusState false (n + 1), out'))) ->
  execute b ctx m k (e, (mkBusState false n, out)) = (Done v, (e', (mkBusState false n, out'))).
Proof.
  intros Hok Hc Hr Hcall. rewrite (execute_refines hs) by done. unfold execute_spec. rewrite Hc, Hr. cbn [closed part ex_bus snd fst].
  assert (run_kind k (newMessageBus NewAspectChain) ctx m (fun ctx => call_handler h ctx m) = call_handler h ctx m) as -> by (by destruct k).
  unfold go_defer. change (add_in_flight 1 (e, (mkBusState false n, out))) with ((e, (mkBusState false (n + 1), out)) : world).
  rewrite Hcall. unfold add_in_flight. cbn. by replace (n + 1 + -1)%Z with n by lia.
Qed.

(** One typed dispatch to a registered handler. *)
Ltac answered Hok Hc h :=
  erewrite (execute_answers _ _ _ _ _ h _ _ _ _ _ _ Hok Hc); [|vm_compute; reflexivity|reflexivity];
  cbn [ex_answer as_error clk next_id Env.clk Env.next_id part set_part ex_output typeAssert cast type_of ex_dynamic ex_type field fst snd mret go_ret typed_created typed_updated typed_cancelled
       typed_user typed_users typed_order created_ID updated_Success cancelled_Success show_bool].

(** Registered on buses of their own, open and without aspects, the examples of commands and queries get the answers of
    their handlers and print them; the buses are left as they were. *)
Theorem examples_answered (format_stamp : Z -> string) (fixed2 : spec_float -> string) e n out :
  let cmdBus := bus_of (command_RegisterHandlers format_stamp (newMessageBus NewAspectChain)) in
  let qBus := bus_of (query_RegisterHandlers (newMessageBus NewAspectChain)) in
  command_RunExample (CommandBus_Execute cmdBus) Background (e, (mkBusState false n, out)) =
    (Done tt, (mkEnv (clk e + 1) (next_id e), (mkBusState false n, out ++
      ["=== Command: CreateUser ==="; "Created user with ID: user-" +:+ format_stamp (clk e); "";
       "=== Command: UpdateUser ==="; "Update success: true"; "";
       "=== Command: CancelOrder ==="; "Cancel success: true"]))) /\
  query_RunExample fixed2 (QueryBus_Execute qBus) Background (e, (mkBusState false n, out)) =
    (Done tt, (e, (mkBusState false n, out ++
      ["=== Query: GetUser ==="; "User: ID=123, Name=张三, Email=zhangsan@example.com"; "";
       "=== Query: ListUsers ==="; "Total users: 2"; "  - 张三 (zhangsan@example.com)"; "  - 李四 (lisi@example.com)"; "";
       "=== Query: GetOrder ==="; "Order: ID=ORD-001, Amount=" +:+ fixed2 amount_99_99 +:+ ", Status=paid"]))).
Proof.
  intros cmdBus qBus. destruct e as [t i].
  assert (table_ok [CreateUserHandler format_stamp; UpdateUserHandler; CancelOrderHandler] cmdBus /\ chain cmdBus = NewAspectChain) as [Hcok Hcc].
  { apply bus_registered. repeat (apply Forall_cons_2; [by eexists|]). constructor. }
  assert (table_ok [GetUserHandler; ListUsersHandler; GetOrderHandler] qBus /\ chain qBus = NewAspectChain) as [Hqok Hqc].
  { apply bus_registered. repeat (apply Forall_cons_2; [by eexists|]). constructor. }
  clearbody cmdBus qBus. split.
  - unfold command_RunExample, CommandBus_Execute, CommandDispatch, Dispatch, must, println. unfold_go. unfold on_part. cbn [part set_part ex_output fst snd].
    answered Hcok Hcc (CreateUserHandler (W := world) format_stamp).
    answered Hcok Hcc (UpdateUserHandler (W := world)).
    answered Hcok Hcc (CancelOrderHandler (W := world)).
    by rewrite <- !(assoc_L (++)).
  - unfold query_RunExample, QueryBus_Execute, QueryDispatch, Dispatch, must, println. unfold_go. unfold on_part. cbn [part set_part ex_output fst snd].
    answered Hqok Hqc (GetUserHandler (W := world)).
    answered Hqok Hqc (ListUsersHandler (W := world)).
    cbn [users_Users ListUsers_Handle print_users]. unfold println, on_part. unfold_go. cbn [part set_part ex_output fst snd].
    answered Hqok Hqc (GetOrderHandler (W := world)).
    by rewrite <- !(assoc_L (++)).
Qed.

(** A context that ends in the fourth step. *)
Definition ends_in_step (n : nat) : context -> Z -> GoM (list string) error :=
  fun _ _ w => (Done (if bool_decide (length w < n) then None else Some (ENew "context canceled")), w).

Lemma report_made_witness :
  exists r, GenerateReport_Handle (ends_in_step 3) Background 5000 [] =
    (Done r, ["  Progress: 10%"; "  Progress: 20%"; "  Progress: 30%"]) /\
    exists k w', [] ++ map progress (seqZ 1 (Z.of_nat k)) = (w' : list string) /\ k <= 10 /\
      match r with Ok report => k = 10 /\ report_File report = "report.pdf" | Err _ => k < 10 end.
Proof.
  destruct (report_made (ends_in_step 3) Background 5000 []) as (k & r & w' & Hrun & Hk & Ho & Hr).
  - intros w. eexists _, w. by split.
  - exists r. split.
    + rewrite Hrun. vm_compute in Hrun. injection Hrun as <- <-. reflexivity.
    + exists k, w'. split; [exact (eq_sym Ho)|]. split; [exact Hk|exact Hr].
Defined.
