(* ===== verification/Version.v ===== *)
(** * The version of the framework: [src/version.go]

    What [GetVersion] makes of the build information; [debug.ReadBuildInfo] and the two layouts of [time] are
    parameters. *)

From S2P Require Import Prelude.

Definition devel : string := "(devel)".

(** A setting of the build: a key and a value. *)
Definition setting : Type := string * string.

Record vcs := mkVcs { vcs_revision : string; vcs_time : string; vcs_modified : bool }.

Definition read_setting (v : vcs) (s : setting) : vcs :=
  if bool_decide (s.1 = "vcs.revision") then mkVcs s.2 (vcs_time v) (vcs_modified v)
  else if bool_decide (s.1 = "vcs.time") then mkVcs (vcs_revision v) s.2 (vcs_modified v)
  else if bool_decide (s.1 = "vcs.modified") then mkVcs (vcs_revision v) (vcs_time v) (bool_decide (s.2 = "true"))
  else v.
Definition read_settings (l : list setting) : vcs := fold_left read_setting l (mkVcs "" "" false).

Section Version.
(** [time.Parse(time.RFC3339, s)] and then [Format("20060102")]; none if it cannot be parsed. *)
Context (day_of : string -> option string).

Definition GetVersion (Version : string) (ReadBuildInfo : option (list setting)) : string :=
  if bool_decide (Version <> devel) then Version
  else match ReadBuildInfo with
       | None => devel
       | Some settings =>
           let v := read_settings settings in
           if bool_decide (vcs_revision v = "") then devel
           else
             let revision := if bool_decide (12 < String.length (vcs_revision v))
                             then str_to 12 (vcs_revision v) else vcs_revision v in
             let suffix := if vcs_modified v then "-dirty" else "" in
             match (if bool_decide (vcs_time v <> "") then day_of (vcs_time v) else None) with
             | Some day => "v" +:+ day +:+ "-" +:+ revision +:+ suffix
             | None => revision +:+ suffix
             end
       end.
End Version.

(** ** Lemmas *)

(** The last setting of a key, as the loop keeps it. *)
Definition last_setting (k : string) (l : list setting) : option string :=
  fold_left (fun acc s => if bool_decide (s.1 = k) then Some s.2 else acc) l None.

Lemma read_settings_spec l :
  read_settings l = mkVcs (default "" (last_setting "vcs.revision" l)) (default "" (last_setting "vcs.time" l))
                      (bool_decide (last_setting "vcs.modified" l = Some "true")).
Proof.
  unfold read_settings, last_setting.
  assert (forall v r t m, vcs_revision v = default "" r -> vcs_time v = default "" t ->
    vcs_modified v = bool_decide (m = Some "true") ->
    fold_left read_setting l v =
      mkVcs (default "" (fold_left (fun acc s => if bool_decide (s.1 = "vcs.revision") then Some s.2 else acc) l r))
        (default "" (fold_left (fun acc s => if bool_decide (s.1 = "vcs.time") then Some s.2 else acc) l t))
        (bool_decide (fold_left (fun acc s => if bool_decide (s.1 = "vcs.modified") then Some s.2 else acc) l m = Some "true"))) as H.
  { induction l as [|[k x] l IH]; intros v r t m Hr Ht Hm; cbn; [destruct v as [vr vt vm]; cbn in *; congruence|].
    unfold read_setting. cbn. destruct (decide (k = "vcs.revision")) as [->|H1]; [by apply IH|].
    rewrite !(bool_decide_eq_false_2 (k = "vcs.revision")) by done.
    destruct (decide (k = "vcs.time")) as [->|H2]; [by apply IH|]. rewrite !(bool_decide_eq_false_2 (k = "vcs.time")) by done.
    destruct (decide (k = "vcs.modified")) as [->|H3]; [|rewrite !(bool_decide_eq_false_2 (k = "vcs.modified")) by done; by apply IH].
    apply IH; [done..|]. cbn. apply bool_decide_ext. rewrite bool_decide_eq_true_2 by done. split; congruence. }
  by apply (H (mkVcs "" "" false) None None None).
Qed.

Lemma text_assoc (s t u : string) : (s +:+ t) +:+ u = s +:+ (t +:+ u).
Proof. induction s as [|c s IH]; [done|]. change (String c ((s +:+ t) +:+ u) = String c (s +:+ (t +:+ u))). by rewrite IH. Qed.

Lemma substring_all n s : String.length s <= n -> String.substring 0 n s = s.
Proof.
  revert n. induction s as [|c s IH]; intros [|n] H; cbn in *; [done|done|lia|]. by rewrite IH by lia.
Qed.
Lemma substring_length n s : String.length (String.substring 0 n s) <= n.
Proof. revert n. induction s as [|c s IH]; intros [|n]; cbn; [lia..|]. pose proof (IH n). lia. Qed.

(** ** Properties *)

(** The version is the one that was linked in, or names the commit of the build by at most twelve bytes of it, with
    its day if the time can be read, and says whether the tree was modified. Without a revision it is the
    development version. *)
Theorem version_spec day_of info :
  let rev l := default "" (last_setting "vcs.revision" l) in
  (forall v, v <> devel -> GetVersion day_of v info = v) /\
  (info = None -> GetVersion day_of devel info = devel) /\
  forall l, info = Some l ->
    (rev l = "" -> GetVersion day_of devel info = devel) /\
    (rev l <> "" -> exists short, short = str_to 12 (rev l) /\ String.length short <= 12 /\
       GetVersion day_of devel info =
         match (if bool_decide (default "" (last_setting "vcs.time" l) <> "") then day_of (default "" (last_setting "vcs.time" l)) else None) with
         | Some day => "v" +:+ day +:+ "-" +:+ short
         | None => short
         end +:+ (if bool_decide (last_setting "vcs.modified" l = Some "true") then "-dirty" else "")).
Proof.
  cbn zeta. unfold GetVersion. split; [intros v Hv; by rewrite bool_decide_eq_true_2|].
  rewrite (bool_decide_eq_false_2 (devel <> devel)) by (intros H; by apply H). split; [by intros ->|]. intros l ->.
  rewrite read_settings_spec. cbn [vcs_revision vcs_time vcs_modified].
  set (r := default "" (last_setting "vcs.revision" l)). split; [intros ->; done|]. intros Hr.
  rewrite (bool_decide_eq_false_2 (r = "")) by done.
  assert ((if bool_decide (12 < String.length r) then str_to 12 r else r) = str_to 12 r) as ->.
  { case_bool_decide; [done|]. unfold str_to. symmetry. apply substring_all. lia. }
  eexists. split; [reflexivity|]. split; [apply substring_length|].
  destruct (if bool_decide (default "" (last_setting "vcs.time" l) <> "") then _ else _) as [day|]; [|done].
  by rewrite !text_assoc.
Qed.

Lemma version_spec_witness :
  GetVersion (fun _ => Some "20260102") devel
    (Some [("vcs.revision", "0123456789abcdef"); ("vcs.time", "2026-01-02T03:04:05Z"); ("vcs.modified", "true")]) =
    "v20260102-0123456789ab-dirty" /\
  GetVersion (fun _ => Some "20260102") devel None = devel.
Proof.
  split; [vm_compute; reflexivity|]. exact (proj1 (proj2 (version_spec (fun _ => Some "20260102") None)) eq_refl).
Defined.
